(* ===== verification/_CoqProject ===== *)
-Q . S2P
Prelude.v
ByteOrder.v
BSize.v
BAddr.v
IpProto.v
ChunkBuffer.v
BPending.v
FlowInterface.v
PacketBuffer.v
PacketProto.v
Wiring.v
PacketProtoFlow.v
TcpClient.v
BSocksClient.v
SearchTree.v
AvlTree.v
BAVL.v
BavlTree.v
UdpgwProto.v
UdpGwClient.v
TunDevice.v
SocksUdpGwClient.v
UdpGwReconnect.v
PacketPassFairQueue.v
BReactor.v
EventLoop.v
BConnection.v
BDatagram.v
FragmentProto.v
FragmentProtoDisassembler.v
FragmentProtoAssembler.v
FragmentLink.v
