(* ===== verification/Prelude.v ===== *)
(** * Verification of tun2socks: overview and prelude

    This development models the C core of the Android app: [tun2socks]
    ([src/core/src/main/jni/badvpn]), the process that takes packets from the VPN
    device and carries them through a SOCKS server, with the badvpn libraries it is
    built from.  Paths below are relative to that directory.

    ** The program and its parts

    A packet read from the TUN device is either a UDP datagram, which goes to a UDP
    relay, or it goes to lwIP, whose TCP connections are carried by SOCKS clients.
    What comes back is written to the device.

<<
      device --> TunDevice --> lwIP --> TcpClient --> BSocksClient --> SOCKS server
                     |
                     +--> SocksUdpGwClient (Android: one UDP socket per local address)
                     +--> UdpGwReconnect --> UdpGwClient --> PacketPassFairQueue
                                 |                               |
                           BSocksClient          PacketBuffer, PacketProto, FlowInterface
>>

    All components are event driven: a reactor ([BReactor]) calls handlers, handlers
    call other components through asynchronous interfaces, whose calls run as jobs of
    one job queue ([BPending]).

    ** Files

    - [Prelude]: machine integers, bytes and memory blocks, the effect monad, its
      weakest preconditions and tactics (below);
    - [ByteOrder], [BSize], [BAddr], [IpProto]: pure libraries: [misc/byteorder.h],
      [misc/read_write_int.h]; [misc/bsize.h], [balign.h], [minmax.h] and
      [udpgw_compute_mtu]; [system/BAddr.h]; [misc/ipv4_proto.h], [ipv6_proto.h],
      [udp_proto.h];
    - [ChunkBuffer] ([structure/ChunkBuffer2.h]): the ring of packets behind
      [PacketBuffer], an instance of the interface [PacketFifo];
    - [BPending] ([base/BPending.c], [structure/SLinkedList_impl.h]): the job queue,
      an instance of the interface [JobQueue];
    - [FlowInterface] ([flow/PacketPassInterface.c], [PacketRecvInterface.c],
      [StreamPassInterface.c], [StreamRecvInterface.c]): the four interfaces, against
      [JobQueue];
    - [PacketBuffer] ([flow/PacketBuffer.c]), against [PacketFifo];
    - [PacketProto] ([flow/PacketProtoEncoder.c], [PacketProtoDecoder.c],
      [PacketStreamSender.c], [protocol/packetproto.h]): packets in a stream;
    - [PacketProtoFlow] ([flow/BufferWriter.c], [flow/PacketProtoFlow.c]): the buffer
      writer, and the chain of writer, encoder and buffer; [Wiring] has what joins
      components by calls;
    - [TcpClient] ([tun2socks/tun2socks.c]: [listener_accept_func] and everything of
      one [struct tcp_client]);
    - [BSocksClient] ([socksclient/BSocksClient.c]): the SOCKS5 handshake;
    - [SearchTree]: the interfaces of the intrusive search trees ([SearchTree] for
      trees with keys, [EntryTree] for trees ordered by the objects' contents) and of
      linked lists, with simple instances;
    - [AvlTree], [BAVL], [BavlTree] ([structure/BAVL.h]): the AVL tree with keys as pure
      trees, on the level of its pointers, and the refinement, which makes it an
      instance of [SearchTree];
    - [UdpgwProto] ([protocol/udpgw_proto.h]) and [UdpGwClient]
      ([udpgw_client/UdpGwClient.c]): datagrams over a stream to a udpgw server;
    - [TunDevice] ([tun2socks/tun2socks.c]: device, lwIP glue, UDP, lwIP start, the
      end of [main]);
    - [SocksUdpGwClient] and [UdpGwReconnect] ([tun2socks/SocksUdpGwClient.c], with and
      without [__ANDROID__]);
    - [PacketPassFairQueue] ([flow/PacketPassFairQueue.c]);
    - [BReactor] ([system/BReactor_badvpn.c] with epoll, [system/BTime.h]): the event
      loop with its timers, descriptors and limits, against [JobQueue] and [EntryTree];
    - [EventLoop]: the interface of an event loop as its users see it, and the reactor
      as an instance;
    - [BConnection] ([system/BConnection_unix.c]): listeners, connectors and connections
      on sockets, and [BDatagram] ([system/BDatagram_unix.c]): datagram sockets, both
      against [EventLoop];
    - [FragmentProto] ([protocol/fragmentproto.h]), [FragmentProtoDisassembler] and
      [FragmentProtoAssembler] ([client/], same names; the latter against [SearchTree]):
      packets cut into chunks for a link with a small MTU; [FragmentLink] puts both
      ends together.

    Names of definitions are those of the source: a [Definition] that is a C function
    has its name, a [Record] has the fields of the struct that take part in the
    behaviour.  A component's file has its data, its operations, its environment, its
    specification, its invariant with the lemmas that operations keep it, and then the
    theorems, each with a concrete instance.

    ** How code is modelled

    A handler is a function in the monad [M S O A]: it takes the component's state [S]
    and gives a result, the new state and the calls it made on other components, or
    a fault.  Failed [ASSERT]s, accesses outside a memory block or to a freed object,
    and calls that the callee's contract forbids are faults, so a theorem that a
    handler does not fault excludes them.  Results of calls on the outside (memory
    allocation, sockets, lwIP) are arguments of the event that makes them.

    A component in its environment is a sequence of events; [enabled] says what the
    environment may do next (its contract), [deliver] is the handler it calls, [run]
    runs a sequence from initialisation, and stops at an event that is not enabled.
    The theorems hold for all sequences, all bytes and all results.  The reactor is the
    one component that calls its users instead: its loop is cut at these calls, and the
    users are the environment; in [BConnection] and [BDatagram] a round of the loop is an
    event, whose handler runs the reactor and then what it calls.

    Two components meet in one of three ways: the client is proved against a class the
    other is an instance of ([PacketFifo], [JobQueue], [SearchTree], [EntryTree], [EventLoop]), as
    the UDP clients with the job queue, the ring and the AVL tree of the program, and the
    sockets with the reactor; the other runs inside the client's state ([UdpGwReconnect] runs [UdpGwClient] with
    [lift], [PacketBuffer] its ring with [zoom], [PacketProtoFlow] its three parts with
    [embed]); or calls are outputs whose contract is
    checked, as for lwIP, which is third-party code.

    ** What the theorems show

    - TCP: clients never use freed memory or fail an assertion under any behaviour of
      lwIP and the server ([tcp_client_safe]), bytes are neither lost nor reordered
      ([tcp_client_flow]), a client never waits for nothing ([tcp_client_progress]),
      callbacks return what lwIP demands ([tcp_callback_result]); the SOCKS handshake
      follows the protocol for every chunking ([socks_handshake_state],
      [socks_handshake_verdict]) and cleans up ([socks_client_safe]).
    - Device: every packet has exactly one fate ([device_packet_dispatch]), replies are
      packets the device's own reader accepts as the same datagram
      ([relay_reply_reads_back]), lwIP's packets leave whole
      ([netif_output_whole_packets]), start and stop release everything
      ([lwip_start_and_stop]), buffers suffice ([udp_mtu_sufficient]).
    - UDP: both relays refine a table of connections in least-recently-used order
      ([udpgw_submit], [udpgw_receive], [udpgw_echo], [relay_submit], [relay_receive]),
      safely ([udpgw_client_safe], [relay_safe]); the search for ids ends
      ([find_unused_conid_terminates]); the connection to the udpgw server is always
      made again ([reconnect_safe_live]).
    - Flow: the job queue refines a stack, the interfaces keep their protocols, the
      buffer is a queue without loss ([packet_buffer_fifo]), also in a chain with a writer and
      the encoder ([packet_proto_flow]), framing round-trips for any cutting of the stream,
      and the fair queue serves the flow with the least time, never lets its clocks
      overflow, and bounds what others send while a flow waits
      ([fair_queue_serves], [fair_queue_bounded_wait], [fair_queue_safe]).
    - Reactor: it never fails whatever its users and epoll do ([reactor_safe]), each round
      does what has priority ([reactor_round]), handlers are called once per setting and
      never after a removal ([reactor_calls]), and it never sleeps past a timer
      ([reactor_wakes]).
    - Sockets: whatever the users and the kernel do, no assertion fails, no descriptor is
      leaked, shared or used when closed ([connection_safe]), the data is that of the
      operations reported ([connection_stream]), and an operation that is not done is
      always waited for ([connection_progress]); a datagram socket is two slots that are
      emptied once each ([datagram_refines]), just as safely ([datagram_safe]) and without
      forgetting ([datagram_progress]).
    - Fragment protocol: the disassembler's packets fit the link and hold the frames in
      order ([disassembler_stream]); the assembler is a table of partial frames
      ([assembler_refines]); over a link in order every frame arrives
      unless one was taken back ([fragment_roundtrip]), over any link nothing else does
      ([fragment_lossy_link]).
    - AVL tree: on its pointers it refines the sorted list of its keys ([bavl_refines]),
      stays well formed ([bavl_verify]) and searches in logarithmic time
      ([bavl_search_cost]).
    - Libraries: checksums are those of RFC 791 and RFC 768 ([udp_checksum_spec],
      [ipv4_check_sound]), checked sizes are exact or overflow, address order is total.

    [relay_safe] and [relay_submit] need a hypothesis the program does not ensure, that
    packets fit their buffers ([fits]); [relay_buffer_overflow] shows what happens
    otherwise, and
    [relay_wrong_peer], [relay_dangling_job], [relay_family_mismatch],
    [old_flow_waits], [cancel_mixes_frames] and [udp_checksum_zero_emitted] show other faults of the code.

    ** Bounds and fuel

    Loops over lists are [Fixpoint]s on the list.  Loops that are bounded otherwise
    have fuel and fault with [F_fuel] when it runs out; the safety theorems show that
    it does not: [find_unused_loop] has one round of all ids, [free_connections] one
    step more than there are connections, the send loops of [TcpClient] one step per
    byte, the checksum loops the length of the data, the moving of timers one step more
    than there are timers; climbing and descending in the AVL tree has one step for
    every node and one more; the disassembler writes at most one chunk per byte left and
    one more, and the assembler reads one per byte of the packet and one more.  Integers have their C width where
    arithmetic can leave it ([u8] to [u64], [i32]).

    ** Not modelled

    Third-party code: lwIP, libevent, redsocks, libancillary.  System calls: epoll, the
    clock, those on sockets and the device; they are the environment.  Logging and the printing of
    addresses, option parsing.  The programs of badvpn that the app does not build (NCD,
    the VPN client but for its fragment protocol, the VPN server, the udpgw server, DHCP) and, for now, three
    layers that pass packets on ([SinglePacketBuffer], [PacketPassConnector],
    [PacketPassInactivityMonitor]), the tree template behind [EntryTree] ([structure/CAvl_impl.h]), the
    pointers of [structure/LinkedList1.h], and the resolving and parsing part of [BAddr].

    ** The prelude

    Shared vocabulary of all component files:

    - machine integers: [u8], [u16], [u32], [u64] (unsigned wrap-around) and
      [i32] (signed wrap-around of a C [int]), with their range lemmas;
    - byte strings as [list Z] with the well-formedness predicate [bytes_ok],
      little-endian encodings [le_bytes] / [le_val] (the host byte order of the
      Android targets) and their round trips;
    - raw memory blocks as [list Z] with [mread] / [mwrite];
    - the effect monad [M S O A] in which every handler of the program is
      written: state passing over the component's record [S], a trace of calls
      made on other components [O], and faults for failed [ASSERT]s and for
      accesses outside an allocated block;
    - the weakest precondition [wp] of that monad, its rules, and the tactic
      [wp_run] that executes a handler symbolically. *)

From stdpp Require Export prelude list gmap.
From Stdlib Require Export ZArith Lia.

Global Open Scope Z_scope.

(** ** Machine integers *)

Definition INT_MAX : Z := 2147483647.
Definition UINT16_MAX : Z := 65535.
Definition UINT64_MAX : Z := 18446744073709551615.
Definition SIZE_MAX : Z := 18446744073709551615.

Definition u8 (z : Z) : Z := z mod 256.
Definition u16 (z : Z) : Z := z mod 65536.
Definition u32 (z : Z) : Z := z mod 4294967296.
Definition u64 (z : Z) : Z := z mod 18446744073709551616.
Definition i32 (z : Z) : Z := (z + 2147483648) mod 4294967296 - 2147483648.

(** [lia] with [div] and [mod] by constants unfolded to their equations. *)
Ltac dlia := Z.to_euclidean_division_equations; lia.

Lemma u8_range z : 0 <= u8 z < 256.
Proof. unfold u8. dlia. Qed.

Lemma u16_range z : 0 <= u16 z < 65536.
Proof. unfold u16. dlia. Qed.

Lemma u32_range z : 0 <= u32 z < 4294967296.
Proof. unfold u32. dlia. Qed.

Lemma u8_id z : 0 <= z < 256 -> u8 z = z.
Proof. intros. unfold u8. dlia. Qed.

Lemma u16_id z : 0 <= z < 65536 -> u16 z = z.
Proof. intros. unfold u16. dlia. Qed.

Lemma u32_id z : 0 <= z < 4294967296 -> u32 z = z.
Proof. intros. unfold u32. dlia. Qed.

Lemma u64_id z : 0 <= z < 18446744073709551616 -> u64 z = z.
Proof. intros. unfold u64. dlia. Qed.

Lemma i32_id z : -2147483648 <= z <= 2147483647 -> i32 z = z.
Proof. intros. unfold i32. dlia. Qed.

Create Rewrite HintDb mach.
Create Rewrite HintDb zlen.
#[export] Hint Rewrite u8_id u16_id u32_id u64_id i32_id using lia : mach.

(** ** Lists indexed by [Z] *)

Definition zlen {A} (l : list A) : Z := Z.of_nat (length l).

Lemma zlen_nil {A} : zlen (@nil A) = 0.
Proof. reflexivity. Qed.

Lemma zlen_cons {A} (x : A) l : zlen (x :: l) = 1 + zlen l.
Proof. unfold zlen. simpl. lia. Qed.

Lemma zlen_app {A} (l k : list A) : zlen (l ++ k) = zlen l + zlen k.
Proof. unfold zlen. rewrite length_app. lia. Qed.

Lemma zlen_nonneg {A} (l : list A) : 0 <= zlen l.
Proof. unfold zlen. lia. Qed.

Lemma zlen_replicate {A} n (x : A) : zlen (replicate n x) = Z.of_nat n.
Proof. unfold zlen. by rewrite length_replicate. Qed.

Lemma zlen_map {A B} (f : A -> B) l : zlen (map f l) = zlen l.
Proof. unfold zlen. by rewrite length_map. Qed.

Lemma zlen_0_nil {A} (l : list A) : zlen l = 0 -> l = [].
Proof. destruct l; [done|]. rewrite zlen_cons. pose proof (zlen_nonneg l). lia. Qed.

(** ** Byte strings and raw memory *)

Definition byte_ok (b : Z) : Prop := 0 <= b < 256.
Definition bytes_ok (l : list Z) : Prop := Forall byte_ok l.

#[export] Instance byte_ok_dec b : Decision (byte_ok b).
Proof. unfold byte_ok. apply _. Defined.
#[export] Instance bytes_ok_dec l : Decision (bytes_ok l).
Proof. unfold bytes_ok. apply _. Defined.

(** [mread m off n]: the [n] bytes of block [m] starting at offset [off]. *)
Definition mread (m : list Z) (off n : Z) : list Z :=
  take (Z.to_nat n) (drop (Z.to_nat off) m).

(** [mwrite m off d]: block [m] after storing the bytes [d] at offset [off]. *)
Definition mwrite (m : list Z) (off : Z) (d : list Z) : list Z :=
  take (Z.to_nat off) m ++ d ++ drop (Z.to_nat off + length d) m.

(** The access [off, off+n) lies inside a block of [size] bytes. *)
Definition in_block (size off n : Z) : bool :=
  (0 <=? off) && (0 <=? n) && (off + n <=? size).

Section Memory.
Implicit Types (m d : list Z) (off n : Z).

Lemma zlen_mwrite m off d :
  0 <= off -> off + zlen d <= zlen m -> zlen (mwrite m off d) = zlen m.
Proof.
  unfold zlen, mwrite. intros.
  rewrite !length_app, length_take, length_drop. lia.
Qed.

Lemma zlen_mread m off n :
  0 <= off -> 0 <= n -> off + n <= zlen m -> zlen (mread m off n) = n.
Proof.
  unfold zlen, mread. intros. rewrite length_take, length_drop. lia.
Qed.

Lemma mread_mwrite_same m off d :
  0 <= off -> off + zlen d <= zlen m -> mread (mwrite m off d) off (zlen d) = d.
Proof.
  unfold zlen, mread, mwrite. intros.
  rewrite drop_app_length' by (rewrite length_take; lia).
  rewrite take_app_length'; [done | lia].
Qed.

Lemma mread_mwrite_before m off d off' n :
  0 <= off' -> 0 <= n -> off' + n <= off -> off + zlen d <= zlen m ->
  mread (mwrite m off d) off' n = mread m off' n.
Proof.
  unfold zlen, mread, mwrite. intros.
  rewrite !take_drop_commute. f_equal.
  rewrite take_app_le by (rewrite length_take; lia).
  rewrite take_take. f_equal. lia.
Qed.

Lemma mread_mwrite_after m off d off' n :
  0 <= off -> off + zlen d <= off' -> off + zlen d <= zlen m ->
  mread (mwrite m off d) off' n = mread m off' n.
Proof.
  unfold zlen, mread, mwrite. intros. f_equal.
  rewrite drop_app_ge by (rewrite length_take; lia).
  rewrite drop_app_ge by (rewrite length_take; lia).
  rewrite drop_drop, length_take. f_equal. lia.
Qed.

Lemma mread_split m off n1 n2 :
  0 <= off -> 0 <= n1 -> 0 <= n2 ->
  mread m off (n1 + n2) = mread m off n1 ++ mread m (off + n1) n2.
Proof.
  intros. unfold mread.
  rewrite !Z2Nat.inj_add by lia.
  rewrite <- drop_drop. by rewrite take_take_drop.
Qed.

Lemma mread_join m off n1 off2 n2 n :
  0 <= off -> 0 <= n1 -> 0 <= n2 -> off2 = off + n1 -> n = n1 + n2 ->
  mread m off n1 ++ mread m off2 n2 = mread m off n.
Proof. intros ? ? ? -> ->. by rewrite mread_split. Qed.

(** Appending to what a block holds at its start. *)
Lemma mread_mwrite_extend m k c pre :
  0 <= k -> k + zlen c <= zlen m -> mread m 0 k = pre ->
  mread (mwrite m k c) 0 (k + zlen c) = pre ++ c.
Proof.
  intros. pose proof (zlen_nonneg c).
  rewrite mread_split, mread_mwrite_before, Z.add_0_l, mread_mwrite_same by lia. congruence.
Qed.

(** Reading inside what was read. *)
Lemma mread_mread m off n off' n' :
  0 <= off -> 0 <= off' -> 0 <= n' -> off' + n' <= n -> mread (mread m off n) off' n' = mread m (off + off') n'.
Proof.
  intros. unfold mread. rewrite skipn_firstn_comm, take_take, drop_drop. f_equal; [lia|]. f_equal. lia.
Qed.

(** Reading a part of a concatenation. *)
Lemma mread_app_skip (pre x : list Z) off n : zlen pre <= off -> mread (pre ++ x) off n = mread x (off - zlen pre) n.
Proof. intros. unfold mread, zlen in *. rewrite drop_app_ge by lia. do 2 f_equal. lia. Qed.

Lemma mread_app_front (k r : list Z) n : zlen k = n -> mread (k ++ r) 0 n = k.
Proof. intros <-. unfold mread, zlen. rewrite drop_0, Nat2Z.id. apply take_app_length. Qed.

Lemma mread_app_at (l k r : list Z) off n : zlen l = off -> zlen k = n -> mread (l ++ k ++ r) off n = k.
Proof. intros <- Hk. rewrite mread_app_skip by lia. rewrite Z.sub_diag. by apply mread_app_front. Qed.

Lemma mread_0 m off : mread m off 0 = [].
Proof. reflexivity. Qed.

Lemma mread_all m : mread m 0 (zlen m) = m.
Proof. unfold mread, zlen. rewrite drop_0, take_ge; [done | lia]. Qed.

Lemma mread_bytes_ok m off n : bytes_ok m -> bytes_ok (mread m off n).
Proof. intros. by apply Forall_take, Forall_drop. Qed.

Lemma mwrite_bytes_ok m off d : bytes_ok m -> bytes_ok d -> bytes_ok (mwrite m off d).
Proof.
  intros. apply Forall_app_2; [by apply Forall_take|].
  apply Forall_app_2; [done | by apply Forall_drop].
Qed.

Lemma in_block_spec size off n :
  in_block size off n = true <-> 0 <= off /\ 0 <= n /\ off + n <= size.
Proof. unfold in_block. rewrite !andb_true_iff, !Z.leb_le. lia. Qed.
End Memory.

(** ** Little-endian encodings *)

Fixpoint le_bytes (n : nat) (z : Z) : list Z :=
  match n with
  | O => []
  | S n' => z mod 256 :: le_bytes n' (z / 256)
  end.

Fixpoint le_val (l : list Z) : Z :=
  match l with
  | [] => 0
  | b :: l' => b + 256 * le_val l'
  end.

Section LittleEndian.
Lemma zlen_le_bytes n z : zlen (le_bytes n z) = Z.of_nat n.
Proof. revert z. induction n; intros; [done|]. cbn [le_bytes]. rewrite zlen_cons, IHn. lia. Qed.

Lemma length_le_bytes n z : length (le_bytes n z) = n.
Proof. pose proof (zlen_le_bytes n z). unfold zlen in *. lia. Qed.

Lemma le_bytes_ok n z : bytes_ok (le_bytes n z).
Proof.
  revert z. induction n; intros; constructor; [|apply IHn].
  unfold byte_ok. dlia.
Qed.

Lemma le_val_range l : bytes_ok l -> 0 <= le_val l < 256 ^ zlen l.
Proof.
  induction 1 as [|b l Hb _ IH]; [done|].
  rewrite zlen_cons, Z.pow_add_r by (auto using zlen_nonneg with lia).
  unfold byte_ok in Hb. cbn [le_val]. lia.
Qed.

Lemma le_val_bytes n z : 0 <= z < 256 ^ Z.of_nat n -> le_val (le_bytes n z) = z.
Proof.
  revert z. induction n; intros z Hz; cbn [le_bytes le_val].
  - change (256 ^ Z.of_nat 0) with 1 in Hz. lia.
  - rewrite IHn; [dlia|].
    rewrite Nat2Z.inj_succ, Z.pow_succ_r in Hz by lia.
    split; [apply Z.div_pos; lia | apply Z.div_lt_upper_bound; lia].
Qed.

Lemma le_bytes_val l : bytes_ok l -> le_bytes (length l) (le_val l) = l.
Proof.
  induction 1 as [|b l Hb _ IH]; [done|]. cbn [le_bytes le_val length].
  unfold byte_ok in Hb.
  replace ((b + 256 * le_val l) mod 256) with b by dlia.
  replace ((b + 256 * le_val l) / 256) with (le_val l) by dlia.
  by rewrite IH.
Qed.
End LittleEndian.

#[export] Hint Rewrite @zlen_nil @zlen_cons @zlen_app @zlen_replicate @zlen_map zlen_le_bytes : zlen.
#[export] Hint Rewrite zlen_mwrite zlen_mread using lia : zlen.

(** Normalise all lengths, then arithmetic. *)
Ltac zl := autorewrite with zlen in *; lia.

(** ** The effect monad

    A handler of the program runs in the state [S] of its component and makes
    calls on other components; the calls, with their arguments, are the trace
    of outputs [O].  [ASSERT] failures and out-of-block accesses are faults. *)

Inductive fault : Type :=
  | F_assert        (** an [ASSERT] of the source fails *)
  | F_bounds        (** a load or store outside its memory block *)
  | F_fuel.         (** a modelled loop used up its fuel *)

#[export] Instance fault_eq_dec : EqDecision fault.
Proof. solve_decision. Defined.

Inductive res (S O A : Type) : Type :=
  | Ok (a : A) (s : S) (tr : list O)
  | Fault (f : fault).
Arguments Ok {S O A} _ _ _.
Arguments Fault {S O A} _.

Definition M (S O A : Type) : Type := S -> res S O A.

Section Monad.
Context {S O : Type}.

Definition ret {A} (a : A) : M S O A := fun s => Ok a s [].

Definition bind {A B} (m : M S O A) (k : A -> M S O B) : M S O B := fun s =>
  match m s with
  | Ok a s' tr =>
      match k a s' with
      | Ok b s'' tr' => Ok b s'' (tr ++ tr')
      | Fault f => Fault f
      end
  | Fault f => Fault f
  end.

Definition fail {A} (f : fault) : M S O A := fun _ => Fault f.
Definition get : M S O S := fun s => Ok s s [].
Definition modify (f : S -> S) : M S O unit := fun s => Ok tt (f s) [].
Definition emit (o : O) : M S O unit := fun s => Ok tt s [o].
Definition assert (b : bool) : M S O unit := if b then ret tt else fail F_assert.
Definition check_block (size off n : Z) : M S O unit :=
  if in_block size off n then ret tt else fail F_bounds.

(** Weakest precondition: the handler runs without a fault and its result,
    final state and outputs satisfy the postcondition. *)
Definition wp {A} (m : M S O A) (s : S) (Q : A -> S -> list O -> Prop) : Prop :=
  match m s with
  | Ok a s' tr => Q a s' tr
  | Fault _ => False
  end.

Lemma wp_ret {A} (a : A) s Q : Q a s [] -> wp (ret a) s Q.
Proof. done. Qed.

Lemma wp_bind {A B} (m : M S O A) (k : A -> M S O B) s Q :
  wp m s (fun a s' tr => wp (k a) s' (fun b s'' tr' => Q b s'' (tr ++ tr'))) ->
  wp (bind m k) s Q.
Proof. unfold wp, bind. destruct (m s) as [a s' tr|]; [|done]. by destruct (k a s'). Qed.

Lemma wp_get s (Q : S -> S -> list O -> Prop) : Q s s [] -> wp get s Q.
Proof. done. Qed.

Lemma wp_modify f s Q : Q tt (f s) [] -> wp (modify f) s Q.
Proof. done. Qed.

Lemma wp_emit o s Q : Q tt s [o] -> wp (emit o) s Q.
Proof. done. Qed.

Lemma wp_assert b s Q : b = true -> Q tt s [] -> wp (assert b) s Q.
Proof. by intros -> ?. Qed.

Lemma wp_check_block size off n s Q :
  0 <= off /\ 0 <= n /\ off + n <= size -> Q tt s [] -> wp (check_block size off n) s Q.
Proof. intros H ?. unfold check_block. apply in_block_spec in H. by rewrite H. Qed.

Lemma wp_mono {A} (m : M S O A) s (Q Q' : A -> S -> list O -> Prop) :
  wp m s Q -> (forall a s' tr, Q a s' tr -> Q' a s' tr) -> wp m s Q'.
Proof. unfold wp. destruct (m s); auto. Qed.

(** Run a handler of a component embedded in a larger state. *)
Definition zoom {T A} (pr : S -> T) (up : T -> S -> S) (m : M T O A) : M S O A := fun s =>
  match m (pr s) with
  | Ok a t tr => Ok a (up t s) tr
  | Fault f => Fault f
  end.

Lemma wp_zoom {T A} (pr : S -> T) (up : T -> S -> S) (m : M T O A) s Q :
  match m (pr s) with Ok a t tr => Q a (up t s) tr | Fault _ => False end ->
  wp (zoom pr up m) s Q.
Proof. unfold wp, zoom. by destruct (m (pr s)). Qed.

(** Load a field of an object by its address. *)
Definition load {V} (m : S -> gmap Z V) (p : Z) : M S O V := fun s =>
  match m s !! p with Some v => Ok v s [] | None => Fault F_bounds end.

Lemma wp_load {V} (m : S -> gmap Z V) p s v Q :
  m s !! p = Some v -> Q v s [] -> wp (load m p) s Q.
Proof. intros H ?. unfold wp, load. by rewrite H. Qed.

Lemma wp_ok {A} (m : M S O A) s Q :
  wp m s Q -> exists a s' tr, m s = Ok a s' tr /\ Q a s' tr.
Proof. unfold wp. destruct (m s); [eauto 10 | done]. Qed.
End Monad.

(** Run a handler of a component embedded in a larger state; its outputs are renamed. *)
Definition embed {S T P O A} (pr : S -> T) (up : T -> S -> S) (f : P -> O) (m : M T P A) : M S O A := fun s =>
  match m (pr s) with
  | Ok a t tr => Ok a (up t s) (map f tr)
  | Fault e => Fault e
  end.

Lemma wp_embed {S T P O A} (pr : S -> T) (up : T -> S -> S) (f : P -> O) (m : M T P A) s Q :
  wp m (pr s) (fun a t tr => Q a (up t s) (map f tr)) -> wp (embed pr up f m) s Q.
Proof. unfold wp, embed. by destruct (m (pr s)). Qed.

Declare Scope mon_scope.
Delimit Scope mon_scope with mon.
Notation "x <- m ;; k" := (bind m (fun x => k))
  (at level 100, m at next level, right associativity) : mon_scope.
Notation "m ;; k" := (bind m (fun _ => k))
  (at level 100, right associativity) : mon_scope.
Notation "'when' b 'do' m" := (if b then m else ret tt) (at level 99) : mon_scope.

Section Blocks.
Context {S O : Type}.
Open Scope mon_scope.

(** Reads and stores of [n] bytes in a block that is not part of the state. *)
Definition get_bytes (data : list Z) (off n : Z) : M S O (list Z) :=
  check_block (zlen data) off n ;; ret (mread data off n).
Definition put (buf : list Z) (off : Z) (d : list Z) : M S O (list Z) :=
  check_block (zlen buf) off (zlen d) ;; ret (mwrite buf off d).

Lemma wp_get_bytes data off n s Q :
  0 <= off /\ 0 <= n /\ off + n <= zlen data -> Q (mread data off n) s [] -> wp (get_bytes data off n) s Q.
Proof. intros H HQ. unfold get_bytes. by apply wp_bind, wp_check_block. Qed.

Lemma wp_put buf off d s Q :
  0 <= off -> off + zlen d <= zlen buf ->
  (forall m, zlen m = zlen buf -> mread m 0 (off + zlen d) = mread buf 0 off ++ d -> Q m s []) ->
  wp (put buf off d) s Q.
Proof.
  intros Ho Hl HQ. pose proof (zlen_nonneg d). unfold put. apply wp_bind, wp_check_block; [lia|].
  apply HQ; [by rewrite zlen_mwrite | by apply mread_mwrite_extend].
Qed.
End Blocks.

(** [wp_step] applies the rule for the head of the handler; [wp_run] repeats
    it.  Conditionals are left to the proof. *)
Ltac wp_step :=
  lazymatch goal with
  | |- wp (bind _ _) _ _ => apply wp_bind
  | |- wp (ret _) _ _ => apply wp_ret
  | |- wp get _ _ => apply wp_get
  | |- wp (modify _) _ _ => apply wp_modify
  | |- wp (emit _) _ _ => apply wp_emit
  | |- wp (assert _) _ _ => apply wp_assert
  | |- wp (check_block _ _ _) _ _ => apply wp_check_block
  end; cbn beta iota.
Ltac wp_run := repeat (wp_step; try done).
