(* ===== verification/ByteOrder.v ===== *)
(** * Byte order conversion and unaligned integer access

    Model of [badvpn/misc/byteorder.h] (little-endian host, the
    [BADVPN_LITTLE_ENDIAN] branch selected by [Android.mk]) and of
    [badvpn/misc/read_write_int.h].  A [uint16_t] in memory is its two bytes in
    host order, [le_bytes 2]; a conversion that permutes the bytes of an
    integer is defined on those bytes.  A reader takes the bytes found at its
    pointer, a writer gives the bytes it stores there. *)

From S2P Require Import Prelude.

(** ** byteorder.h *)

Definition badvpn_reverse16 (x : Z) : Z := le_val (reverse (le_bytes 2 x)).
Definition badvpn_reverse32 (x : Z) : Z := le_val (reverse (le_bytes 4 x)).
Definition badvpn_reverse64 (x : Z) : Z := le_val (reverse (le_bytes 8 x)).

Definition hton8 (x : Z) : Z := u8 x.
Definition htol8 (x : Z) : Z := u8 x.
Definition hton16 (x : Z) : Z := badvpn_reverse16 (u16 x).
Definition hton32 (x : Z) : Z := badvpn_reverse32 (u32 x).
Definition hton64 (x : Z) : Z := badvpn_reverse64 (u64 x).
Definition htol16 (x : Z) : Z := u16 x.
Definition htol32 (x : Z) : Z := u32 x.
Definition htol64 (x : Z) : Z := u64 x.
Definition ntoh8 (x : Z) : Z := hton8 x.
Definition ntoh16 (x : Z) : Z := hton16 x.
Definition ntoh32 (x : Z) : Z := hton32 x.
Definition ntoh64 (x : Z) : Z := hton64 x.
Definition ltoh8 (x : Z) : Z := htol8 x.
Definition ltoh16 (x : Z) : Z := htol16 x.
Definition ltoh32 (x : Z) : Z := htol32 x.
Definition ltoh64 (x : Z) : Z := htol64 x.

(** ** read_write_int.h *)

(** [at_ ptr i] is [ptr[i]]. *)
Definition at_ (ptr : list Z) (i : nat) : Z := nth i ptr 0.

Definition shl_byte (ptr : list Z) (i : nat) (k : Z) : Z := Z.shiftl (at_ ptr i) k.

Definition badvpn_read_le8 (ptr : list Z) : Z := shl_byte ptr 0 0.
Definition badvpn_read_le16 (ptr : list Z) : Z := Z.lor (shl_byte ptr 1 8) (shl_byte ptr 0 0).
Definition badvpn_read_le32 (ptr : list Z) : Z :=
  Z.lor (Z.lor (Z.lor (shl_byte ptr 3 24) (shl_byte ptr 2 16)) (shl_byte ptr 1 8)) (shl_byte ptr 0 0).
Definition badvpn_read_le64 (ptr : list Z) : Z :=
  foldl Z.lor 0 [shl_byte ptr 7 56; shl_byte ptr 6 48; shl_byte ptr 5 40; shl_byte ptr 4 32;
                 shl_byte ptr 3 24; shl_byte ptr 2 16; shl_byte ptr 1 8; shl_byte ptr 0 0].

Definition badvpn_read_be8 (ptr : list Z) : Z := shl_byte ptr 0 0.
Definition badvpn_read_be16 (ptr : list Z) : Z := Z.lor (shl_byte ptr 0 8) (shl_byte ptr 1 0).
Definition badvpn_read_be32 (ptr : list Z) : Z :=
  Z.lor (Z.lor (Z.lor (shl_byte ptr 0 24) (shl_byte ptr 1 16)) (shl_byte ptr 2 8)) (shl_byte ptr 3 0).
Definition badvpn_read_be64 (ptr : list Z) : Z :=
  foldl Z.lor 0 [shl_byte ptr 0 56; shl_byte ptr 1 48; shl_byte ptr 2 40; shl_byte ptr 3 32;
                 shl_byte ptr 4 24; shl_byte ptr 5 16; shl_byte ptr 6 8; shl_byte ptr 7 0].

(** [byte_of x k] is the byte stored by [ptr[i] = x >> k]. *)
Definition byte_of (x k : Z) : Z := u8 (Z.shiftr x k).

Definition badvpn_write_le8 (x : Z) : list Z := [byte_of x 0].
Definition badvpn_write_le16 (x : Z) : list Z := [byte_of x 0; byte_of x 8].
Definition badvpn_write_le32 (x : Z) : list Z :=
  [byte_of x 0; byte_of x 8; byte_of x 16; byte_of x 24].
Definition badvpn_write_le64 (x : Z) : list Z :=
  [byte_of x 0; byte_of x 8; byte_of x 16; byte_of x 24;
   byte_of x 32; byte_of x 40; byte_of x 48; byte_of x 56].

Definition badvpn_write_be8 (x : Z) : list Z := [byte_of x 0].
Definition badvpn_write_be16 (x : Z) : list Z := [byte_of x 8; byte_of x 0].
Definition badvpn_write_be32 (x : Z) : list Z :=
  [byte_of x 24; byte_of x 16; byte_of x 8; byte_of x 0].
Definition badvpn_write_be64 (x : Z) : list Z :=
  [byte_of x 56; byte_of x 48; byte_of x 40; byte_of x 32;
   byte_of x 24; byte_of x 16; byte_of x 8; byte_of x 0].

(** ** Lemmas *)

(** Disjoint bit fields: or is addition. *)
Lemma lor_disjoint_add (a b k : Z) :
  0 <= k -> 0 <= b < 2 ^ k -> a mod 2 ^ k = 0 -> Z.lor a b = a + b.
Proof.
  intros Hk Hb Ha. assert (Hp : 0 < 2 ^ k) by (apply Z.pow_pos_nonneg; lia).
  destruct (Z.eq_dec b 0) as [->|Hnz]; [rewrite Z.lor_0_r; lia|].
  assert (Hlog : Z.log2 b < k) by (apply Z.log2_lt_pow2; lia).
  apply Z.div_exact in Ha; [|lia]. rewrite Ha, (Z.mul_comm (2 ^ k)).
  assert (Hz : Z.land (a / 2 ^ k * 2 ^ k) b = 0).
  { apply Z.bits_inj'. intros n Hn. rewrite Z.land_spec, Z.bits_0.
    destruct (Z.lt_ge_cases n k) as [Hlt|Hge].
    - by rewrite Z.mul_pow2_bits_low.
    - rewrite (Z.bits_above_log2 b n), andb_false_r by lia. done. }
  rewrite <- Z.lxor_lor, <- Z.add_nocarry_lxor by done. done.
Qed.

(** Replaces the innermost [Z.lor], whose right operand is below bit [k]. *)
Ltac lor_to_add k :=
  match goal with
  | |- context [Z.lor ?a ?b] =>
      lazymatch a with context [Z.lor] => fail | _ => idtac end;
      rewrite (lor_disjoint_add a b k) by dlia
  end.
Ltac unfold_bytes :=
  cbv [shl_byte at_ nth byte_of u8 u16 u32 u64 foldl] in *;
  rewrite ?Z.shiftl_mul_pow2, ?Z.shiftr_div_pow2 by lia;
  rewrite ?Z.lor_0_l;
  change (2 ^ 0) with 1 in *; change (2 ^ 8) with 256 in *;
  change (2 ^ 16) with 65536 in *; change (2 ^ 24) with 16777216 in *;
  change (2 ^ 32) with 4294967296 in *; change (2 ^ 40) with 1099511627776 in *;
  change (2 ^ 48) with 281474976710656 in *; change (2 ^ 56) with 72057594037927936 in *.

Lemma read_be16_val b0 b1 :
  byte_ok b0 -> byte_ok b1 -> badvpn_read_be16 [b0; b1] = 256 * b0 + b1.
Proof. unfold byte_ok, badvpn_read_be16. intros. unfold_bytes. lor_to_add 8. lia. Qed.

Lemma read_be32_val b0 b1 b2 b3 :
  byte_ok b0 -> byte_ok b1 -> byte_ok b2 -> byte_ok b3 ->
  badvpn_read_be32 [b0; b1; b2; b3] = 16777216 * b0 + 65536 * b1 + 256 * b2 + b3.
Proof.
  unfold byte_ok, badvpn_read_be32. intros. unfold_bytes.
  lor_to_add 24. lor_to_add 16. lor_to_add 8. lia.
Qed.

Lemma read_le16_val b0 b1 :
  byte_ok b0 -> byte_ok b1 -> badvpn_read_le16 [b0; b1] = le_val [b0; b1].
Proof. unfold byte_ok, badvpn_read_le16. intros. unfold_bytes. lor_to_add 8. simpl. lia. Qed.

Lemma read_le32_val b0 b1 b2 b3 :
  bytes_ok [b0; b1; b2; b3] -> badvpn_read_le32 [b0; b1; b2; b3] = le_val [b0; b1; b2; b3].
Proof.
  unfold bytes_ok. rewrite !Forall_cons. unfold byte_ok, badvpn_read_le32. intros. unfold_bytes.
  lor_to_add 24. lor_to_add 16. lor_to_add 8. simpl. lia.
Qed.

Lemma read_le64_val b0 b1 b2 b3 b4 b5 b6 b7 :
  bytes_ok [b0; b1; b2; b3; b4; b5; b6; b7] ->
  badvpn_read_le64 [b0; b1; b2; b3; b4; b5; b6; b7] = le_val [b0; b1; b2; b3; b4; b5; b6; b7].
Proof.
  unfold bytes_ok. rewrite !Forall_cons. unfold byte_ok, badvpn_read_le64. intros. unfold_bytes.
  lor_to_add 56. lor_to_add 48. lor_to_add 40. lor_to_add 32.
  lor_to_add 24. lor_to_add 16. lor_to_add 8. simpl. lia.
Qed.

Lemma read_be64_val b0 b1 b2 b3 b4 b5 b6 b7 :
  bytes_ok [b0; b1; b2; b3; b4; b5; b6; b7] ->
  badvpn_read_be64 [b0; b1; b2; b3; b4; b5; b6; b7] = le_val [b7; b6; b5; b4; b3; b2; b1; b0].
Proof.
  unfold bytes_ok. rewrite !Forall_cons. unfold byte_ok, badvpn_read_be64. intros. unfold_bytes.
  lor_to_add 56. lor_to_add 48. lor_to_add 40. lor_to_add 32.
  lor_to_add 24. lor_to_add 16. lor_to_add 8. simpl. lia.
Qed.

(** The big-endian readers see the reversed bytes. *)
Lemma read_be16_reverse l :
  bytes_ok l -> length l = 2%nat -> badvpn_read_be16 l = le_val (reverse l).
Proof.
  intros Hl Hn. destruct l as [|? [|? [|? ?]]]; try discriminate Hn.
  unfold bytes_ok in Hl. rewrite !Forall_cons in Hl.
  rewrite read_be16_val by tauto. cbn. lia.
Qed.

Lemma read_be32_reverse l :
  bytes_ok l -> length l = 4%nat -> badvpn_read_be32 l = le_val (reverse l).
Proof.
  intros Hl Hn. destruct l as [|? [|? [|? [|? [|? ?]]]]]; try discriminate Hn.
  unfold bytes_ok in Hl. rewrite !Forall_cons in Hl.
  rewrite read_be32_val by tauto. cbn. lia.
Qed.

Lemma read_be64_reverse l :
  bytes_ok l -> length l = 8%nat -> badvpn_read_be64 l = le_val (reverse l).
Proof.
  intros Hl Hn.
  destruct l as [|? [|? [|? [|? [|? [|? [|? [|? [|? ?]]]]]]]]]; try discriminate Hn.
  rewrite read_be64_val by done. cbn. lia.
Qed.

Lemma reverse_bytes_image n x :
  0 <= x < 256 ^ Z.of_nat n ->
  le_bytes n (le_val (reverse (le_bytes n x))) = reverse (le_bytes n x).
Proof.
  intros. replace n with (length (reverse (le_bytes n x))) at 1.
  - apply le_bytes_val. apply Forall_reverse, le_bytes_ok.
  - rewrite length_reverse. pose proof (zlen_le_bytes n x). unfold zlen in *. lia.
Qed.

(** Reversing the bytes of an integer is an involution on the width's range. *)
Lemma reverse_bytes_swap n x (y := le_val (reverse (le_bytes n x))) :
  0 <= x < 256 ^ Z.of_nat n ->
  0 <= y < 256 ^ Z.of_nat n /\ le_val (reverse (le_bytes n y)) = x.
Proof.
  intros Hx. split.
  - rewrite <- (zlen_le_bytes n x).
    replace (zlen (le_bytes n x)) with (zlen (reverse (le_bytes n x))).
    + apply le_val_range, Forall_reverse, le_bytes_ok.
    + unfold zlen. by rewrite length_reverse.
  - unfold y. rewrite reverse_bytes_image by done.
    rewrite reverse_involutive. by apply le_val_bytes.
Qed.

Lemma write_le_bytes x :
  badvpn_write_le16 x = le_bytes 2 x /\ badvpn_write_le32 x = le_bytes 4 x /\
  badvpn_write_le64 x = le_bytes 8 x.
Proof.
  unfold badvpn_write_le16, badvpn_write_le32, badvpn_write_le64. unfold_bytes.
  cbn [le_bytes]. rewrite !Z.div_div by lia. simpl Z.mul. rewrite Z.div_1_r. done.
Qed.

Lemma write_be_bytes x :
  badvpn_write_be16 x = reverse (le_bytes 2 x) /\ badvpn_write_be32 x = reverse (le_bytes 4 x) /\
  badvpn_write_be64 x = reverse (le_bytes 8 x).
Proof.
  destruct (write_le_bytes x) as (<- & <- & <-). done.
Qed.

(** One width: what a byte-reversing conversion puts in memory. *)
Lemma width_image n (rd : list Z -> Z) x (y := le_val (reverse (le_bytes n x))) :
  (forall l, bytes_ok l -> length l = n -> rd l = le_val (reverse l)) ->
  0 <= x < 256 ^ Z.of_nat n ->
  le_bytes n y = reverse (le_bytes n x) /\ rd (le_bytes n y) = x /\
  0 <= y < 256 ^ Z.of_nat n /\ le_val (reverse (le_bytes n y)) = x.
Proof.
  intros Hrd Hx. destruct (reverse_bytes_swap n x Hx) as [Hy Hr].
  split; [by apply reverse_bytes_image | split; [|done]].
  rewrite Hrd; [done | apply le_bytes_ok |].
  pose proof (zlen_le_bytes n y). unfold zlen in *. lia.
Qed.

(** The memory image of [hton16/32/64 x] is the big-endian encoding of [x]:
    it is what [badvpn_write_be16/32/64] stores, [badvpn_read_be16/32/64] reads
    [x] back from it, and [ntoh] inverts [hton], for every value of the width. *)
Theorem network_order_image (x : Z) :
  (0 <= x < 2 ^ 16 ->
     le_bytes 2 (hton16 x) = badvpn_write_be16 x /\
     badvpn_read_be16 (le_bytes 2 (hton16 x)) = x /\ ntoh16 (hton16 x) = x) /\
  (0 <= x < 2 ^ 32 ->
     le_bytes 4 (hton32 x) = badvpn_write_be32 x /\
     badvpn_read_be32 (le_bytes 4 (hton32 x)) = x /\ ntoh32 (hton32 x) = x) /\
  (0 <= x < 2 ^ 64 ->
     le_bytes 8 (hton64 x) = badvpn_write_be64 x /\
     badvpn_read_be64 (le_bytes 8 (hton64 x)) = x /\ ntoh64 (hton64 x) = x).
Proof.
  destruct (write_be_bytes x) as (-> & -> & ->).
  unfold ntoh16, ntoh32, ntoh64, hton16, hton32, hton64,
    badvpn_reverse16, badvpn_reverse32, badvpn_reverse64.
  split_and!; intros Hx.
  - destruct (width_image 2 _ x read_be16_reverse Hx) as (A & B & C & D).
    rewrite (u16_id x) by exact Hx. rewrite (u16_id (le_val _)) by exact C.
    exact (conj A (conj B D)).
  - destruct (width_image 4 _ x read_be32_reverse Hx) as (A & B & C & D).
    rewrite (u32_id x) by exact Hx. rewrite (u32_id (le_val _)) by exact C.
    exact (conj A (conj B D)).
  - destruct (width_image 8 _ x read_be64_reverse Hx) as (A & B & C & D).
    rewrite (u64_id x) by exact Hx. rewrite (u64_id (le_val _)) by exact C.
    exact (conj A (conj B D)).
Qed.

(** A host-order 16-bit field, as it lies in memory. *)
Lemma hton16_range x : 0 <= hton16 x < 65536.
Proof.
  unfold hton16, badvpn_reverse16.
  apply (reverse_bytes_swap 2 (u16 x)), u16_range.
Qed.

Lemma hton16_image x : 0 <= x < 65536 -> le_bytes 2 (hton16 x) = [x / 256; x mod 256].
Proof.
  intros Hx. unfold hton16, badvpn_reverse16. rewrite u16_id by lia.
  rewrite reverse_bytes_image by lia. cbn [le_bytes reverse rev_append].
  unfold reverse. simpl. f_equal. dlia.
Qed.

Lemma ntoh16_hton16 x : 0 <= x < 65536 -> ntoh16 (hton16 x) = x.
Proof.
  intros Hx. unfold ntoh16, hton16, badvpn_reverse16.
  destruct (reverse_bytes_swap 2 (u16 x)) as [Hy Hr]; [apply u16_range|].
  rewrite (u16_id (le_val _)) by exact Hy. rewrite Hr. by apply u16_id.
Qed.

Lemma hton32_image x :
  0 <= x < 4294967296 ->
  le_bytes 4 (hton32 x) = [x / 16777216; x / 65536 mod 256; x / 256 mod 256; x mod 256].
Proof.
  intros Hx. unfold hton32, badvpn_reverse32. rewrite u32_id by lia.
  rewrite reverse_bytes_image by lia. cbn [le_bytes]. unfold reverse. simpl.
  rewrite !Z.div_div by lia. f_equal. dlia.
Qed.

Lemma hton16_ntoh16 x : 0 <= x < 65536 -> hton16 (ntoh16 x) = x.
Proof. apply ntoh16_hton16. Qed.

Lemma hton32_ntoh32 x : 0 <= x < 4294967296 -> hton32 (ntoh32 x) = x.
Proof.
  intros Hx. unfold ntoh32, hton32, badvpn_reverse32.
  destruct (reverse_bytes_swap 4 (u32 x)) as [Hy Hr]; [apply u32_range|].
  rewrite (u32_id (le_val _)) by exact Hy. rewrite Hr. by apply u32_id.
Qed.
