(* ===== verification/BSize.v ===== *)
(** * Checked sizes, alignment and datagram MTU computations

    Model of [badvpn/misc/bsize.h] (overflow-tracking sizes), of
    [badvpn/misc/balign.h], of [bmin_int]/[bmax_uint64] of [minmax.h] and of
    [udpgw_compute_mtu] of [badvpn/protocol/udpgw_proto.h] (both build
    variants). [size_t] has 64 bits. *)

From S2P Require Import Prelude.

(** ** balign.h *)

Definition balign_up_overflows (x n : Z) : bool :=
  let r := x mod n in negb (r =? 0) && (x >? SIZE_MAX - (n - r)).

Definition balign_up (x n : Z) : Z :=
  let r := x mod n in if negb (r =? 0) then u64 (x + (n - r)) else x.

Definition balign_down (x n : Z) : Z := x - x mod n.

Definition bdivide_up (a b : Z) : Z :=
  let r := a mod b in if r >? 0 then a / b + 1 else a / b.

(** ** minmax.h *)

Definition bmin_int (a b : Z) : Z := if a <? b then a else b.
Definition bmax_uint64 (a b : Z) : Z := if a >? b then a else b.

(** ** bsize.h *)

Record bsize_t := mk_bsize { is_overflow : bool; value : Z }.

Definition bsize_fromsize (v : Z) : bsize_t := mk_bsize false v.
Definition bsize_fromint (v : Z) : bsize_t := mk_bsize ((v <? 0) || (v >? SIZE_MAX)) (u64 v).
Definition bsize_overflow : bsize_t := mk_bsize true 0.

Definition bsize_tosize (s : bsize_t) : option Z :=
  if is_overflow s then None else Some (value s).

Definition bsize_toint (s : bsize_t) : option Z :=
  if is_overflow s || (value s >? INT_MAX) then None else Some (value s).

Definition bsize_add (s1 s2 : bsize_t) : bsize_t :=
  mk_bsize (is_overflow s1 || is_overflow s2 || (value s2 >? SIZE_MAX - value s1))
           (u64 (value s1 + value s2)).

Definition bsize_max (s1 s2 : bsize_t) : bsize_t :=
  mk_bsize (is_overflow s1 || is_overflow s2)
           (u64 (Z.b2z (value s1 >? value s2) * value s1 + Z.b2z (value s1 <=? value s2) * value s2)).

Definition bsize_mul (s1 s2 : bsize_t) : bsize_t :=
  mk_bsize (is_overflow s1 || is_overflow s2 ||
            (negb (value s1 =? 0) && (value s2 >? SIZE_MAX / value s1)))
           (u64 (value s1 * value s2)).

(** ** udpgw_proto.h: sizes of the packed headers and the MTU *)

Definition sizeof_socks_udp_header : Z := 4.
Definition sizeof_udpgw_header : Z := 3.
Definition sizeof_udpgw_addr_ipv4 : Z := 6.
Definition sizeof_udpgw_addr_ipv6 : Z := 18.

(** [android] selects the [__ANDROID__] branch. *)
Definition udpgw_compute_mtu (android : bool) (dgram_mtu : Z) : Z :=
  let bs := bsize_add
    (bsize_fromsize (if android then sizeof_socks_udp_header else sizeof_udpgw_header))
    (bsize_add (bsize_max (bsize_fromsize sizeof_udpgw_addr_ipv4)
                          (bsize_fromsize sizeof_udpgw_addr_ipv6))
               (bsize_fromint dgram_mtu)) in
  match bsize_toint bs with
  | None => -1
  | Some s => s
  end.

(** ** Lemmas *)

Lemma bdivide_up_spec a b :
  0 <= a -> 0 < b -> b * (bdivide_up a b - 1) < a <= b * bdivide_up a b \/ (a = 0 /\ bdivide_up a b = 0).
Proof.
  intros Ha Hb. unfold bdivide_up.
  pose proof (Z.div_mod a b ltac:(lia)). pose proof (Z.mod_pos_bound a b Hb).
  pose proof (Z.div_pos a b Ha Hb).
  destruct (Z.gtb_spec (a mod b) 0); nia.
Qed.

Lemma bdivide_up_4 a : 0 <= a -> bdivide_up a 4 = (a + 3) / 4.
Proof. intros. unfold bdivide_up. destruct (Z.gtb_spec (a mod 4) 0); dlia. Qed.

(** The sizes [bsize_t] values stand for, as mathematical integers. *)
Definition bsize_wf (s : bsize_t) : Prop := 0 <= value s <= SIZE_MAX.

Lemma bsize_add_small a b :
  0 <= a -> 0 <= b -> a + b <= SIZE_MAX ->
  bsize_add (mk_bsize false a) (mk_bsize false b) = mk_bsize false (a + b).
Proof.
  unfold bsize_add, SIZE_MAX. cbn [is_overflow value orb]. intros.
  destruct (Z.gtb_spec b (18446744073709551615 - a)); [lia|]. by rewrite u64_id by lia.
Qed.

Lemma bsize_mul_small a b :
  0 <= a -> 0 <= b -> a * b <= SIZE_MAX ->
  bsize_mul (mk_bsize false a) (mk_bsize false b) = mk_bsize false (a * b).
Proof.
  unfold bsize_mul, SIZE_MAX. cbn [is_overflow value orb]. intros Ha Hb Hab.
  rewrite u64_id by nia. f_equal. destruct (Z.eqb_spec a 0); [done|]. cbn [negb andb].
  destruct (Z.gtb_spec b (18446744073709551615 / a)) as [H|]; [|done].
  pose proof (Z.mul_succ_div_gt 18446744073709551615 a ltac:(lia)). nia.
Qed.

(** Checked arithmetic: the specification of [bsize_add/mul/max]. *)
Definition checked (op : Z -> Z -> Z) (a b : option Z) : option Z :=
  match a, b with
  | Some x, Some y => if op x y <=? SIZE_MAX then Some (op x y) else None
  | _, _ => None
  end.

Ltac bsize_cases :=
  repeat match goal with
  | |- context [?a >? ?b] => destruct (Z.gtb_spec a b)
  | |- context [?a <=? ?b] => destruct (Z.leb_spec a b)
  | |- context [?a =? ?b] => destruct (Z.eqb_spec a b)
  | |- context [?a <? ?b] => destruct (Z.ltb_spec a b)
  end.

Lemma bsize_add_checked s1 s2 :
  bsize_wf s1 -> bsize_wf s2 ->
  bsize_tosize (bsize_add s1 s2) = checked Z.add (bsize_tosize s1) (bsize_tosize s2).
Proof.
  destruct s1 as [[] v1], s2 as [[] v2]; try done.
  unfold bsize_wf, bsize_tosize, bsize_add, checked, SIZE_MAX. simpl. intros.
  bsize_cases; try lia; [done|]. f_equal. unfold u64. dlia.
Qed.

Lemma bsize_mul_checked s1 s2 :
  bsize_wf s1 -> bsize_wf s2 ->
  bsize_tosize (bsize_mul s1 s2) = checked Z.mul (bsize_tosize s1) (bsize_tosize s2).
Proof.
  destruct s1 as [[] v1], s2 as [[] v2]; try done.
  unfold bsize_wf, bsize_tosize, bsize_mul, checked, SIZE_MAX. simpl. intros H1 H2.
  destruct (Z.eqb_spec v1 0) as [->|Hnz]; simpl.
  - done.
  - pose proof (Z.div_mod 18446744073709551615 v1 Hnz).
    pose proof (Z.mod_pos_bound 18446744073709551615 v1 ltac:(lia)).
    bsize_cases; try nia; [done|]. f_equal. apply u64_id. nia.
Qed.

Lemma bsize_max_checked s1 s2 :
  bsize_wf s1 -> bsize_wf s2 ->
  bsize_tosize (bsize_max s1 s2) = checked Z.max (bsize_tosize s1) (bsize_tosize s2).
Proof.
  destruct s1 as [[] v1], s2 as [[] v2]; try done.
  unfold bsize_wf, bsize_tosize, bsize_max, checked, SIZE_MAX. simpl. intros.
  bsize_cases; try lia; f_equal; simpl Z.b2z; rewrite u64_id; lia.
Qed.

(** [bsize_add], [bsize_mul] and [bsize_max] compute exactly the checked
    64-bit operations: the overflow flag is set iff an operand overflowed or the
    mathematical result exceeds [SIZE_MAX], and otherwise the value is exact. *)
Theorem bsize_checked_arithmetic (s1 s2 : bsize_t) (H1 : bsize_wf s1) (H2 : bsize_wf s2) :
  bsize_tosize (bsize_add s1 s2) = checked Z.add (bsize_tosize s1) (bsize_tosize s2) /\
  bsize_tosize (bsize_mul s1 s2) = checked Z.mul (bsize_tosize s1) (bsize_tosize s2) /\
  bsize_tosize (bsize_max s1 s2) = checked Z.max (bsize_tosize s1) (bsize_tosize s2) /\
  bsize_wf (bsize_add s1 s2) /\ bsize_wf (bsize_mul s1 s2) /\ bsize_wf (bsize_max s1 s2).
Proof.
  split_and!; auto using bsize_add_checked, bsize_mul_checked, bsize_max_checked.
  all: unfold bsize_add, bsize_mul, bsize_max, bsize_wf, SIZE_MAX, u64; simpl; dlia.
Qed.

Lemma bsize_checked_arithmetic_witness :
  bsize_tosize (bsize_mul (bsize_fromsize 4294967296) (bsize_fromsize 4294967296)) = None /\
  bsize_tosize (bsize_add (bsize_fromsize 2) (bsize_fromsize 40)) = Some 42.
Proof.
  destruct (bsize_checked_arithmetic (bsize_fromsize 4294967296) (bsize_fromsize 4294967296))
    as (_ & Hm & _); [split; done | split; done |].
  destruct (bsize_checked_arithmetic (bsize_fromsize 2) (bsize_fromsize 40))
    as (Ha & _); [split; done | split; done |].
  split; [exact Hm | exact Ha].
Defined.

(** The datagram MTU adds the worst-case header, or is -1 on overflow. *)
Lemma udpgw_compute_mtu_val android m :
  0 <= m <= INT_MAX ->
  udpgw_compute_mtu android m =
    (let h := (if android then 4 else 3) + 18 in if m + h <=? INT_MAX then m + h else -1).
Proof.
  unfold INT_MAX. intros. unfold udpgw_compute_mtu, bsize_toint, bsize_add, bsize_max,
    bsize_fromsize, bsize_fromint, sizeof_socks_udp_header, sizeof_udpgw_header,
    sizeof_udpgw_addr_ipv4, sizeof_udpgw_addr_ipv6, SIZE_MAX, INT_MAX.
  destruct android; simpl; rewrite (u64_id m) by lia; rewrite !u64_id by lia;
    bsize_cases; simpl; try lia.
Qed.
