(* ===== verification/BAddr.v ===== *)
(** * Socket addresses

    Model of the data part of [badvpn/system/BAddr.h] and of [B_COMPARE] of
    [badvpn/misc/compare.h]: IP addresses, socket addresses, their constructors
    and accessors, and the two comparisons.  [BAddr_CompareOrder] is the order
    of the search trees that hold connections, so it has to be a total order
    that separates addresses.

    The union with its type tag is an inductive type; numbers are kept in network
    byte order as in the source.  A failed [ASSERT] is [None].  Name resolution
    ([BIPAddr_Resolve], [BAddr_Parse2]) and printing are not modelled. *)

From S2P Require Import Prelude ByteOrder.

Inductive BIPAddr :=
  | BIP_NONE
  | BIP_IPV4 (ipv4 : Z)
  | BIP_IPV6 (ipv6 : list Z).

Inductive BAddr :=
  | BADDR_NONE
  | BADDR_IPV4 (ip port : Z)
  | BADDR_IPV6 (ip : list Z) (port : Z)
  | BADDR_PACKET (phys_proto interface_index header_type packet_type : Z) (phys_addr : list Z).

#[export] Instance BIPAddr_eq_dec : EqDecision BIPAddr.
Proof. solve_decision. Defined.
#[export] Instance BAddr_eq_dec : EqDecision BAddr.
Proof. solve_decision. Defined.

(** The [type] tags. *)
Definition bip_type (a : BIPAddr) : Z :=
  match a with BIP_NONE => 0 | BIP_IPV4 _ => 1 | BIP_IPV6 _ => 2 end.
Definition baddr_type (a : BAddr) : Z :=
  match a with BADDR_NONE => 0 | BADDR_IPV4 _ _ => 1 | BADDR_IPV6 _ _ => 2 | BADDR_PACKET _ _ _ _ _ => 5 end.

(** [B_COMPARE] *)
Definition B_COMPARE (a b : Z) : Z := Z.b2z (a >? b) - Z.b2z (a <? b).

(** [memcmp] of two arrays of the same length: the difference of the first bytes
    that differ (the standard only fixes its sign, and only the sign is used). *)
Fixpoint memcmp (l k : list Z) : Z :=
  match l, k with
  | x :: l', y :: k' => if x =? y then memcmp l' k' else x - y
  | _, _ => 0
  end.

(** ** Constructors and accessors *)

Definition BIPAddr_InitInvalid : BIPAddr := BIP_NONE.
Definition BIPAddr_InitIPv4 (ip : Z) : BIPAddr := BIP_IPV4 ip.
Definition BIPAddr_InitIPv6 (ip : list Z) : BIPAddr := BIP_IPV6 (take 16 ip).
Definition BIPAddr_IsInvalid (a : BIPAddr) : bool := bip_type a =? 0.

Definition BAddr_MakeNone : BAddr := BADDR_NONE.
Definition BAddr_MakeIPv4 (ip port : Z) : BAddr := BADDR_IPV4 ip port.
Definition BAddr_MakeIPv6 (ip : list Z) (port : Z) : BAddr := BADDR_IPV6 (take 16 ip) port.
Definition BAddr_MakeFromIpaddrAndPort (a : BIPAddr) (port : Z) : BAddr :=
  match a with
  | BIP_NONE => BAddr_MakeNone
  | BIP_IPV4 ip => BAddr_MakeIPv4 ip port
  | BIP_IPV6 ip => BAddr_MakeIPv6 ip port
  end.
Definition BAddr_InitPacket (proto ifindex htype ptype : Z) (phys_addr : list Z) : option BAddr :=
  if (htype =? 1) && ((ptype =? 1) || (ptype =? 2) || (ptype =? 3) || (ptype =? 4) || (ptype =? 5))
  then Some (BADDR_PACKET proto ifindex htype ptype (take 6 phys_addr)) else None.
Definition BAddr_IsInvalid (a : BAddr) : bool := baddr_type a =? 0.

Definition BAddr_GetPort (a : BAddr) : option Z :=
  match a with BADDR_IPV4 _ port | BADDR_IPV6 _ port => Some port | _ => None end.
Definition BAddr_GetIPAddr (a : BAddr) : BIPAddr :=
  match a with
  | BADDR_IPV4 ip _ => BIPAddr_InitIPv4 ip
  | BADDR_IPV6 ip _ => BIPAddr_InitIPv6 ip
  | _ => BIPAddr_InitInvalid
  end.
Definition BAddr_SetPort (a : BAddr) (port : Z) : option BAddr :=
  match a with
  | BADDR_IPV4 ip _ => Some (BADDR_IPV4 ip port)
  | BADDR_IPV6 ip _ => Some (BADDR_IPV6 ip port)
  | _ => None
  end.

(** ** Comparisons *)

Definition BIPAddr_Compare (a b : BIPAddr) : bool :=
  if negb (bip_type a =? bip_type b) then false else
  match a, b with
  | BIP_IPV4 x, BIP_IPV4 y => x =? y
  | BIP_IPV6 x, BIP_IPV6 y => memcmp x y =? 0
  | _, _ => false
  end.

Definition BAddr_Compare (a b : BAddr) : bool :=
  if negb (baddr_type a =? baddr_type b) then false else
  match a, b with
  | BADDR_IPV4 x p, BADDR_IPV4 y q => (x =? y) && (p =? q)
  | BADDR_IPV6 x p, BADDR_IPV6 y q => (memcmp x y =? 0) && (p =? q)
  | _, _ => false
  end.

Definition BAddr_CompareOrder (a b : BAddr) : Z :=
  let cmp := B_COMPARE (baddr_type a) (baddr_type b) in
  if negb (cmp =? 0) then cmp else
  match a, b with
  | BADDR_IPV4 x p, BADDR_IPV4 y q =>
      let cmp := B_COMPARE (ntoh32 x) (ntoh32 y) in
      if negb (cmp =? 0) then cmp else B_COMPARE (ntoh16 p) (ntoh16 q)
  | BADDR_IPV6 x p, BADDR_IPV6 y q =>
      let cmp := memcmp x y in
      if negb (cmp =? 0) then B_COMPARE cmp 0 else B_COMPARE (ntoh16 p) (ntoh16 q)
  | _, _ => 0
  end.

(** ** The order *)

(** A valid internet address or none: the addresses that are ordered. *)
Definition baddr_ok (a : BAddr) : Prop :=
  match a with
  | BADDR_NONE => True
  | BADDR_IPV4 ip port => 0 <= ip < 4294967296 /\ 0 <= port < 65536
  | BADDR_IPV6 ip port => bytes_ok ip /\ zlen ip = 16 /\ 0 <= port < 65536
  | BADDR_PACKET _ _ _ _ _ => False
  end.

(** A key in the order of [BAddr_CompareOrder]. *)
Definition baddr_key (a : BAddr) : list Z :=
  match a with
  | BADDR_NONE => [0]
  | BADDR_IPV4 ip port => [1; ntoh32 ip; ntoh16 port]
  | BADDR_IPV6 ip port => 2 :: ip ++ [ntoh16 port]
  | BADDR_PACKET _ _ _ _ _ => [5]
  end.

Fixpoint lex (l k : list Z) : Z :=
  match l, k with
  | [], [] => 0
  | [], _ => -1
  | _, [] => 1
  | x :: l', y :: k' => if negb (B_COMPARE x y =? 0) then B_COMPARE x y else lex l' k'
  end.

Lemma b_compare_spec x y :
  (x < y /\ B_COMPARE x y = -1) \/ (x = y /\ B_COMPARE x y = 0) \/ (y < x /\ B_COMPARE x y = 1).
Proof.
  unfold B_COMPARE. destruct (Z.gtb_spec x y), (Z.ltb_spec x y); cbn; lia.
Qed.

Ltac b_compare x y := let E := fresh "E" in
  destruct (b_compare_spec x y) as [[? E]|[[? E]|[? E]]]; rewrite ?E; cbn [negb Z.eqb Z.opp].

Lemma lex_eq l k : lex l k = 0 <-> l = k.
Proof.
  revert k. induction l as [|x l IH]; intros [|y k]; cbn [lex]; try done.
  b_compare x y; [naive_solver lia| |naive_solver lia]. rewrite IH. naive_solver.
Qed.

Lemma lex_antisym l k : lex k l = - lex l k.
Proof.
  revert k. induction l as [|x l IH]; intros [|y k]; cbn [lex]; try done.
  b_compare x y; b_compare y x; try lia. apply IH.
Qed.

Lemma lex_trans l k m : lex l k <= 0 -> lex k m <= 0 -> lex l m <= 0.
Proof.
  revert k m. induction l as [|x l IH]; intros [|y k] [|z m]; cbn [lex]; try done.
  b_compare x y; b_compare y z; b_compare x z; try lia. apply IH.
Qed.

Lemma memcmp_lex l k p q :
  length l = length k ->
  lex (l ++ [p]) (k ++ [q]) =
    if negb (memcmp l k =? 0) then B_COMPARE (memcmp l k) 0 else B_COMPARE p q.
Proof.
  revert k. induction l as [|x l IH]; intros [|y k] Hl; try done; cbn [lex memcmp app].
  - cbn [Z.eqb negb]. by b_compare p q.
  - destruct (Z.eqb_spec x y) as [->|Hne].
    + b_compare y y; try lia. apply IH. by injection Hl.
    + replace (x - y =? 0) with false by (symmetry; apply Z.eqb_neq; lia). cbn [negb].
      b_compare x y; b_compare (x - y) 0; lia.
Qed.

Lemma memcmp_0 l k : length l = length k -> (memcmp l k = 0 <-> l = k).
Proof.
  revert k. induction l as [|x l IH]; intros [|y k] Hl; try done; cbn [memcmp].
  destruct (Z.eqb_spec x y) as [->|Hne]; [rewrite IH by (by injection Hl); naive_solver | naive_solver lia].
Qed.

Lemma compare_order_key a b :
  baddr_ok a -> baddr_ok b -> BAddr_CompareOrder a b = lex (baddr_key a) (baddr_key b).
Proof.
  destruct a as [|ip p|ip p|], b as [|jp q|jp q|]; intros Ha Hb; try done; unfold BAddr_CompareOrder;
    cbn [baddr_type baddr_key]; change (B_COMPARE 1 1) with 0; change (B_COMPARE 2 2) with 0; cbn [negb Z.eqb].
  - cbn [lex]. change (B_COMPARE 1 1) with 0. cbn [negb Z.eqb]. b_compare (ntoh32 ip) (ntoh32 jp); try done.
    by b_compare (ntoh16 p) (ntoh16 q).
  - cbn [lex]. change (B_COMPARE 2 2) with 0. cbn [negb Z.eqb].
    destruct Ha as (_ & Hi & _), Hb as (_ & Hj & _). rewrite memcmp_lex; [done|].
    unfold zlen in *. lia.
Qed.

Lemma baddr_key_inj a b : baddr_ok a -> baddr_ok b -> baddr_key a = baddr_key b -> a = b.
Proof.
  destruct a as [|ip p|ip p|], b as [|jp q|jp q|]; try done; cbn [baddr_key].
  - intros [? ?] [? ?] [= E1 E2].
    apply (f_equal hton32) in E1. apply (f_equal hton16) in E2.
    by rewrite !hton32_ntoh32, !hton16_ntoh16 in * by done; subst.
  - intros (_ & Hi & ?) (_ & Hj & ?) [= E]. apply app_inj_2 in E as [-> [= E]]; [|done].
    apply (f_equal hton16) in E. rewrite !hton16_ntoh16 in E by done. by subst.
Qed.

Lemma compare_order_eq a b : baddr_ok a -> baddr_ok b -> (BAddr_CompareOrder a b = 0 <-> a = b).
Proof.
  intros Ha Hb. rewrite compare_order_key, lex_eq by done. split; [by apply baddr_key_inj | by intros ->].
Qed.

(** [BAddr_CompareOrder], the order of the search trees of connections, is a
    total order on internet addresses: it is zero exactly on equal addresses,
    changes sign when its arguments are swapped, and is transitive.
    [BAddr_Compare] decides equality of addresses other than none. *)
Theorem compare_order_total (a b c : BAddr) (Ha : baddr_ok a) (Hb : baddr_ok b) (Hc : baddr_ok c) :
  (BAddr_CompareOrder a b = 0 <-> a = b) /\
  BAddr_CompareOrder b a = - BAddr_CompareOrder a b /\
  (BAddr_CompareOrder a b <= 0 -> BAddr_CompareOrder b c <= 0 -> BAddr_CompareOrder a c <= 0) /\
  (BAddr_Compare a b = true <-> a = b /\ a <> BADDR_NONE).
Proof.
  split; [by apply compare_order_eq|]. rewrite !compare_order_key by done. split_and!.
  - apply lex_antisym.
  - apply lex_trans.
  - destruct a as [|ip p|ip p|], b as [|jp q|jp q|]; try (by naive_solver);
      unfold BAddr_Compare; cbn [baddr_type]; rewrite Z.eqb_refl; cbn [negb]; rewrite andb_true_iff, !Z.eqb_eq.
    + naive_solver.
    + rewrite memcmp_0 by (destruct Ha as (_ & ? & _), Hb as (_ & ? & _); unfold zlen in *; lia). naive_solver.
Qed.

Lemma compare_order_total_witness (a := BADDR_IPV4 16777343 20480) (b := BADDR_IPV4 16777343 13568) :
  (BAddr_CompareOrder a b = 0 <-> a = b) /\
  BAddr_CompareOrder b a = - BAddr_CompareOrder a b /\
  (BAddr_CompareOrder a b <= 0 -> BAddr_CompareOrder b a <= 0 -> BAddr_CompareOrder a a <= 0) /\
  (BAddr_Compare a b = true <-> a = b /\ a <> BADDR_NONE).
Proof. apply (compare_order_total a b a); cbn; lia. Defined.
