(* ===== verification/IpProto.v ===== *)
(** * IPv4, IPv6 and UDP headers and checksums

    Model of [badvpn/misc/ipv4_proto.h], [ipv6_proto.h] and [udp_proto.h].
    A packed header is a record of host integers; [*_bytes] is its memory image
    (what [memcpy] from the struct copies) and [*_read] the struct obtained by
    [memcpy] from a byte buffer.  Multi-byte fields hold network-order values,
    as in the source.  The parsers give the header, the payload pointer (the
    suffix of the buffer) and the payload length, or [None] where the C function
    returns 0. *)

From S2P Require Import Prelude ByteOrder.

(** [fld d off n]: the [n]-byte host integer at offset [off] of buffer [d]. *)
Definition fld (d : list Z) (off n : Z) : Z := le_val (mread d off n).

(** ** ipv4_proto.h *)

Definition IPV4_PROTOCOL_UDP : Z := 17.

Record ipv4_header := mk_ipv4_header {
  version4_ihl4 : Z;
  ds : Z;
  total_length : Z;
  identification : Z;
  flags3_fragmentoffset13 : Z;
  ttl : Z;
  protocol : Z;
  ip_checksum : Z;
  source_address : Z;
  destination_address : Z;
}.

Definition sizeof_ipv4_header : Z := 20.

Definition ipv4_header_bytes (h : ipv4_header) : list Z :=
  le_bytes 1 (version4_ihl4 h) ++ le_bytes 1 (ds h) ++ le_bytes 2 (total_length h) ++
  le_bytes 2 (identification h) ++ le_bytes 2 (flags3_fragmentoffset13 h) ++
  le_bytes 1 (ttl h) ++ le_bytes 1 (protocol h) ++ le_bytes 2 (ip_checksum h) ++
  le_bytes 4 (source_address h) ++ le_bytes 4 (destination_address h).

Definition ipv4_header_read (d : list Z) : ipv4_header :=
  mk_ipv4_header (fld d 0 1) (fld d 1 1) (fld d 2 2) (fld d 4 2) (fld d 6 2)
                 (fld d 8 1) (fld d 9 1) (fld d 10 2) (fld d 12 4) (fld d 16 4).

Definition ipv4_with_checksum (c : Z) (h : ipv4_header) : ipv4_header :=
  mk_ipv4_header (version4_ihl4 h) (ds h) (total_length h) (identification h)
    (flags3_fragmentoffset13 h) (ttl h) (protocol h) c (source_address h) (destination_address h).

Definition IPV4_GET_VERSION (h : ipv4_header) : Z := Z.shiftr (Z.land (version4_ihl4 h) 0xF0) 4.
Definition IPV4_GET_IHL (h : ipv4_header) : Z := Z.shiftr (Z.land (version4_ihl4 h) 0x0F) 0.
Definition IPV4_MAKE_VERSION_IHL (size : Z) : Z := size / 4 + Z.shiftl 4 4.

(** [for (i = 0; i < n; i++) t += badvpn_read_be16(data + 2 * i);] on a
    [uint32_t] accumulator; also the body of [udp_checksum_summer]. *)
Fixpoint sum_be16 (n : nat) (data : list Z) (t : Z) : Z :=
  match n with
  | O => t
  | S n' => sum_be16 n' (drop 2 data) (u32 (t + badvpn_read_be16 data))
  end.

(** [while (t >> 16) t = (t & 0xFFFF) + (t >> 16);] *)
Fixpoint fold_carry (fuel : nat) (t : Z) : option Z :=
  if Z.shiftr t 16 =? 0 then Some t
  else match fuel with
       | O => None
       | S f => fold_carry f (u32 (Z.land t 0xFFFF + Z.shiftr t 16))
       end.

(** Two rounds suffice for a 32-bit value ([fold_carry_spec]). *)
Definition fold_fuel : nat := 2.

Definition ipv4_checksum (h : ipv4_header) (extra : list Z) (extra_len : Z) : option Z :=
  let t := sum_be16 (Z.to_nat (sizeof_ipv4_header / 2)) (ipv4_header_bytes h) 0 in
  let t := sum_be16 (Z.to_nat (extra_len / 2)) extra t in
  match fold_carry fold_fuel t with
  | None => None
  | Some t => Some (hton16 (u32 (Z.lnot t)))
  end.

Definition ipv4_check (data : list Z) (data_len : Z) : option (ipv4_header * list Z * Z) :=
  if data_len <? sizeof_ipv4_header then None else
  let h := ipv4_header_read data in
  if negb (IPV4_GET_VERSION h =? 4) then None else
  let header_len := u16 (IPV4_GET_IHL h * 4) in
  if header_len <? sizeof_ipv4_header then None else
  if header_len >? data_len then None else
  let total := ntoh16 (total_length h) in
  if total <? header_len then None else
  if total >? data_len then None else
  let checksum_in_packet := ip_checksum h in
  match ipv4_checksum (ipv4_with_checksum (hton16 0) h)
          (drop (Z.to_nat sizeof_ipv4_header) data) (header_len - sizeof_ipv4_header) with
  | None => None
  | Some checksum_computed =>
      if negb (checksum_in_packet =? checksum_computed) then None
      else Some (h, drop (Z.to_nat header_len) data, total - header_len)
  end.

(** ** ipv6_proto.h *)

Definition IPV6_NEXT_UDP : Z := 17.

Record ipv6_header := mk_ipv6_header {
  version4_tc4 : Z;
  tc4_fl4 : Z;
  fl : Z;
  payload_length : Z;
  next_header : Z;
  hop_limit : Z;
  source_address6 : list Z;
  destination_address6 : list Z;
}.

Definition sizeof_ipv6_header : Z := 40.

Definition ipv6_header_bytes (h : ipv6_header) : list Z :=
  le_bytes 1 (version4_tc4 h) ++ le_bytes 1 (tc4_fl4 h) ++ le_bytes 2 (fl h) ++
  le_bytes 2 (payload_length h) ++ le_bytes 1 (next_header h) ++ le_bytes 1 (hop_limit h) ++
  source_address6 h ++ destination_address6 h.

Definition ipv6_header_read (d : list Z) : ipv6_header :=
  mk_ipv6_header (fld d 0 1) (fld d 1 1) (fld d 2 2) (fld d 4 2) (fld d 6 1) (fld d 7 1)
                 (mread d 8 16) (mread d 24 16).

Definition ipv6_check (data : list Z) (data_len : Z) : option (ipv6_header * list Z * Z) :=
  if data_len <? sizeof_ipv6_header then None else
  let h := ipv6_header_read data in
  if negb (Z.shiftr (ntoh8 (version4_tc4 h)) 4 =? 6) then None else
  let plen := ntoh16 (payload_length h) in
  if plen >? data_len - sizeof_ipv6_header then None
  else Some (h, drop (Z.to_nat sizeof_ipv6_header) data, plen).

(** ** udp_proto.h *)

Record udp_header := mk_udp_header {
  source_port : Z;
  dest_port : Z;
  udp_len : Z;
  udp_cksum : Z;
}.

Definition sizeof_udp_header : Z := 8.

Definition udp_header_bytes (h : udp_header) : list Z :=
  le_bytes 2 (source_port h) ++ le_bytes 2 (dest_port h) ++
  le_bytes 2 (udp_len h) ++ le_bytes 2 (udp_cksum h).

Definition udp_header_read (d : list Z) : udp_header :=
  mk_udp_header (fld d 0 2) (fld d 2 2) (fld d 4 2) (fld d 6 2).

Definition udp_with_checksum (c : Z) (h : udp_header) : udp_header :=
  mk_udp_header (source_port h) (dest_port h) (udp_len h) c.

Definition udp_checksum_summer (data : list Z) (len : Z) : Z :=
  sum_be16 (Z.to_nat (len / 2)) data 0.

(** The payload part and the final complement, common to the two checksums. *)
Definition udp_checksum_payload (t : Z) (payload : list Z) (payload_len : Z) : Z :=
  if payload_len mod 2 =? 0 then
    u32 (t + udp_checksum_summer payload payload_len)
  else
    let t := u32 (t + udp_checksum_summer payload (payload_len - 1)) in
    let x := hton16 (Z.shiftl (at_ payload (Z.to_nat (payload_len - 1))) 8) in
    u32 (t + udp_checksum_summer (le_bytes 2 x) 2).

Definition udp_checksum_finish (t : Z) : option Z :=
  match fold_carry fold_fuel t with
  | None => None
  | Some t =>
      let t := u32 (Z.lnot t) in
      let t := if t =? 0 then UINT16_MAX else t in
      Some (hton16 t)
  end.

Definition udp_checksum (h : udp_header) (payload : list Z) (payload_len : Z)
    (source_addr dest_addr : Z) : option Z :=
  let payload_len := u16 payload_len in
  let t := 0 in
  let t := u32 (t + udp_checksum_summer (le_bytes 4 source_addr) 4) in
  let t := u32 (t + udp_checksum_summer (le_bytes 4 dest_addr) 4) in
  let x := hton16 IPV4_PROTOCOL_UDP in
  let t := u32 (t + udp_checksum_summer (le_bytes 2 x) 2) in
  let x := hton16 (sizeof_udp_header + payload_len) in
  let t := u32 (t + udp_checksum_summer (le_bytes 2 x) 2) in
  let t := u32 (t + udp_checksum_summer (udp_header_bytes h) sizeof_udp_header) in
  let t := udp_checksum_payload t payload payload_len in
  udp_checksum_finish t.

Definition udp_ip6_checksum (h : udp_header) (payload : list Z) (payload_len : Z)
    (source_addr dest_addr : list Z) : option Z :=
  let payload_len := u16 payload_len in
  let t := 0 in
  let t := u32 (t + udp_checksum_summer source_addr 16) in
  let t := u32 (t + udp_checksum_summer dest_addr 16) in
  let x := hton32 (sizeof_udp_header + payload_len) in
  let t := u32 (t + udp_checksum_summer (le_bytes 4 x) 4) in
  let x := hton32 IPV6_NEXT_UDP in
  let t := u32 (t + udp_checksum_summer (le_bytes 4 x) 4) in
  let t := u32 (t + udp_checksum_summer (udp_header_bytes h) sizeof_udp_header) in
  let t := udp_checksum_payload t payload payload_len in
  udp_checksum_finish t.

Definition udp_check (data : list Z) (data_len : Z) : option (udp_header * list Z * Z) :=
  if data_len <? sizeof_udp_header then None else
  let h := udp_header_read data in
  let data := drop (Z.to_nat sizeof_udp_header) data in
  let data_len := data_len - sizeof_udp_header in
  let udp_length := ntoh16 (udp_len h) in
  if udp_length <? sizeof_udp_header then None else
  if udp_length >? sizeof_udp_header + data_len then None
  else Some (h, data, udp_length - sizeof_udp_header).

(** ** Specification: the RFC 1071 sum *)

(** Sum of the big-endian 16-bit words of a byte string, an odd last byte
    padded with zero. *)
Fixpoint be_sum (l : list Z) : Z :=
  match l with
  | a :: b :: l' => 256 * a + b + be_sum l'
  | [a] => 256 * a
  | [] => 0
  end.

(** One's-complement reduction to 16 bits. *)
Definition oc16 (t : Z) : Z := if t =? 0 then 0 else (t - 1) mod 65535 + 1.

(** Induction two elements at a time. *)
Lemma list_pair_ind {A} (P : list A -> Prop) :
  P [] -> (forall a, P [a]) -> (forall a b l, P l -> P (a :: b :: l)) -> forall l, P l.
Proof.
  intros H0 H1 H2. fix IH 1. intros [|a [|b l]]; [done | apply H1 | apply H2, IH].
Qed.

Lemma be_sum_bound l : bytes_ok l -> 0 <= be_sum l <= 65535 * ((zlen l + 1) / 2).
Proof.
  induction l as [|a|a b l IH] using list_pair_ind; intros Hl; [done| |];
    unfold bytes_ok in Hl; rewrite ?Forall_cons in Hl; unfold byte_ok in Hl.
  - change ((zlen [a] + 1) / 2) with 1. cbn [be_sum]. lia.
  - destruct Hl as (? & ? & Hl). specialize (IH Hl). cbn [be_sum].
    rewrite !zlen_cons. replace (1 + (1 + zlen l) + 1) with (1 * 2 + (zlen l + 1)) by lia.
    rewrite Z.div_add_l by lia. lia.
Qed.

Lemma be_sum_app l k : Nat.Even (length l) -> be_sum (l ++ k) = be_sum l + be_sum k.
Proof.
  induction l as [|a|a b l IH] using list_pair_ind; intros He; [done| |].
  - destruct He as [n He]. simpl in He. lia.
  - cbn [app be_sum]. rewrite IH; [lia|]. destruct He as [n He]. simpl in He. exists (n - 1)%nat. lia.
Qed.

Lemma u32_add_l a b : u32 (u32 a + b) = u32 (a + b).
Proof. unfold u32. by rewrite Zplus_mod_idemp_l. Qed.

Lemma u32_add_r a b : u32 (a + u32 b) = u32 (a + b).
Proof. unfold u32. by rewrite Zplus_mod_idemp_r. Qed.

Lemma read_be16_cons a b l : byte_ok a -> byte_ok b -> badvpn_read_be16 (a :: b :: l) = 256 * a + b.
Proof. intros. change (badvpn_read_be16 [a; b] = 256 * a + b). by apply read_be16_val. Qed.

Lemma sum_be16_spec n d t :
  bytes_ok d -> (2 * n <= length d)%nat -> 0 <= t < 4294967296 ->
  sum_be16 n d t = u32 (t + be_sum (take (2 * n) d)).
Proof.
  revert d t. induction n as [|n IH]; intros d t Hd Hlen Ht.
  - cbn [sum_be16]. change (take (2 * 0) d) with (@nil Z). cbn [be_sum]. rewrite u32_id; lia.
  - destruct d as [|a [|b d]]; simpl in Hlen; try lia.
    unfold bytes_ok in Hd. rewrite !Forall_cons in Hd. destruct Hd as (Ha & Hb & Hd).
    cbn [sum_be16]. rewrite read_be16_cons by done. change (drop 2 (a :: b :: d)) with d.
    rewrite IH; [| done | lia | apply u32_range]. rewrite u32_add_l. f_equal.
    replace (2 * S n)%nat with (S (S (2 * n))) by lia. cbn [take be_sum]. lia.
Qed.

Lemma summer_spec d len :
  bytes_ok d -> 0 <= len -> len mod 2 = 0 -> len <= zlen d ->
  udp_checksum_summer d len = u32 (be_sum (take (Z.to_nat len) d)).
Proof.
  unfold zlen. intros Hd H0 Hm Hl. unfold udp_checksum_summer.
  rewrite sum_be16_spec; [| done | dlia | lia]. f_equal. rewrite Z.add_0_l. do 2 f_equal. dlia.
Qed.

Lemma summer_all d : bytes_ok d -> zlen d mod 2 = 0 -> udp_checksum_summer d (zlen d) = u32 (be_sum d).
Proof.
  intros. rewrite summer_spec; [| done | apply zlen_nonneg | done | lia].
  unfold zlen. rewrite Nat2Z.id. by rewrite take_ge.
Qed.

Lemma fold_step t : 0 <= t < 4294967296 ->
  u32 (Z.land t 0xFFFF + Z.shiftr t 16) = t mod 65536 + t / 65536.
Proof.
  intros. change 0xFFFF with (Z.ones 16).
  rewrite Z.land_ones, Z.shiftr_div_pow2 by lia.
  change (2 ^ 16) with 65536. apply u32_id. dlia.
Qed.

Lemma oc16_step t : 0 <= t -> oc16 (t mod 65536 + t / 65536) = oc16 t.
Proof.
  intros Ht. unfold oc16.
  destruct (Z.eqb_spec t 0) as [->|Hnz]; [done|].
  destruct (Z.eqb_spec (t mod 65536 + t / 65536) 0); [dlia|]. f_equal.
  replace (t - 1) with (t mod 65536 + t / 65536 - 1 + (t / 65536) * 65535) by dlia.
  by rewrite Z.mod_add by lia.
Qed.

Lemma oc16_id t : 0 <= t <= 65535 -> oc16 t = t.
Proof. intros. unfold oc16. destruct (Z.eqb_spec t 0); dlia. Qed.

Lemma oc16_range t : 0 <= t -> 0 <= oc16 t <= 65535.
Proof. intros. unfold oc16. destruct (Z.eqb_spec t 0); dlia. Qed.

(** The carry loop terminates on every 32-bit sum, within two rounds, with the
    one's-complement reduction. *)
Lemma fold_carry_spec t : 0 <= t < 4294967296 -> fold_carry fold_fuel t = Some (oc16 t).
Proof.
  intros Ht. unfold fold_fuel. 
  assert (Hsh : forall x, 0 <= x -> (Z.shiftr x 16 =? 0) = (x <=? 65535)).
  { intros x Hx. rewrite Z.shiftr_div_pow2 by lia. change (2 ^ 16) with 65536.
    destruct (Z.eqb_spec (x / 65536) 0), (Z.leb_spec x 65535); try done; dlia. }
  cbn [fold_carry]. rewrite Hsh by lia.
  destruct (Z.leb_spec t 65535); [by rewrite oc16_id by lia|].
  rewrite fold_step by done. rewrite <- (oc16_step t) by lia.
  set (t1 := t mod 65536 + t / 65536). assert (0 <= t1 <= 131070) by (unfold t1; dlia).
  rewrite Hsh by lia. destruct (Z.leb_spec t1 65535); [by rewrite oc16_id by lia|].
  rewrite fold_step by lia. rewrite <- (oc16_step t1) by lia.
  set (t2 := t1 mod 65536 + t1 / 65536). assert (0 <= t2 <= 65535) by (unfold t2; dlia).
  rewrite Hsh by lia. destruct (Z.leb_spec t2 65535); [by rewrite oc16_id by lia | lia].
Qed.

Lemma lnot16 r : 0 <= r <= 65535 -> u32 (Z.lnot r) = 4294967295 - r.
Proof. intros. unfold u32, Z.lnot. dlia. Qed.

Lemma hton16_u16 x : hton16 (u16 x) = hton16 x.
Proof. unfold hton16. f_equal. unfold u16. dlia. Qed.

Lemma hton16_lnot r : 0 <= r <= 65535 -> hton16 (4294967295 - r) = hton16 (65535 - r).
Proof. intros. rewrite <- hton16_u16, <- (hton16_u16 (65535 - r)). f_equal. unfold u16. dlia. Qed.

(** The [t == 0] branch of the UDP checksums is never taken: [t] is a 32-bit
    complement of a 16-bit value. *)
Lemma udp_checksum_finish_spec t :
  0 <= t < 4294967296 -> udp_checksum_finish t = Some (hton16 (65535 - oc16 t)).
Proof.
  intros Ht. unfold udp_checksum_finish. rewrite fold_carry_spec by done.
  pose proof (oc16_range t ltac:(lia)). rewrite lnot16 by done.
  destruct (Z.eqb_spec (4294967295 - oc16 t) 0); [lia|]. by rewrite hton16_lnot.
Qed.

Lemma at_byte_ok l n : bytes_ok l -> byte_ok (at_ l n).
Proof.
  intros Hl. unfold at_. destruct (nth_in_or_default n l 0) as [Hin| ->]; [|done].
  apply list_elem_of_In in Hin. by apply (proj1 (Forall_forall _ _) Hl).
Qed.

Lemma even_len_take (n : nat) (l : list Z) :
  Nat.Even n -> (n <= length l)%nat -> Nat.Even (length (take n l)).
Proof. intros. by rewrite length_take_le. Qed.

Lemma payload_sum t payload len :
  bytes_ok payload -> 0 <= len <= zlen payload ->
  udp_checksum_payload t payload len = u32 (t + be_sum (take (Z.to_nat len) payload)).
Proof.
  intros Hp Hlen. unfold udp_checksum_payload.
  destruct (Z.eqb_spec (len mod 2) 0) as [He|Ho].
  - rewrite summer_spec by (done || lia). by rewrite u32_add_r.
  - assert (1 <= len) by dlia.
    rewrite (summer_spec payload) by (done || dlia). rewrite u32_add_r.
    set (i := Z.to_nat (len - 1)).
    assert (Hb := at_byte_ok payload i Hp). unfold byte_ok in Hb.
    rewrite Z.shiftl_mul_pow2 by lia. change (2 ^ 8) with 256.
    rewrite hton16_image by lia.
    change 2 with (zlen [at_ payload i * 256 / 256; (at_ payload i * 256) mod 256]).
    rewrite summer_all; [|repeat constructor; unfold byte_ok; dlia | done].
    rewrite u32_add_r, u32_add_l. f_equal.
    replace (Z.to_nat len) with (S i) by (unfold i; dlia).
    rewrite (take_S_r _ _ (at_ payload i)).
    + rewrite be_sum_app.
      * cbn [be_sum]. dlia.
      * apply even_len_take; [exists (Z.to_nat (len / 2)); unfold i; dlia | unfold i, zlen in *; lia].
    + unfold at_. rewrite nth_lookup. destruct (payload !! i) eqn:E; [done|].
      apply lookup_ge_None in E. unfold i, zlen in *. lia.
Qed.

Definition udp_header_ok (h : udp_header) : Prop :=
  0 <= source_port h < 65536 /\ 0 <= dest_port h < 65536 /\
  0 <= udp_len h < 65536 /\ 0 <= udp_cksum h < 65536.

Lemma udp_header_bytes_ok h : bytes_ok (udp_header_bytes h).
Proof. unfold udp_header_bytes. repeat apply Forall_app_2; apply le_bytes_ok. Qed.

(** RFC 768 pseudo header for IPv4: addresses, protocol, UDP length. *)
Definition pseudo4 (source_addr dest_addr len : Z) : list Z :=
  le_bytes 4 source_addr ++ le_bytes 4 dest_addr ++ [0; 17] ++ [len / 256; len mod 256].

(** RFC 2460 pseudo header for IPv6. *)
Definition pseudo6 (source_addr dest_addr : list Z) (len : Z) : list Z :=
  source_addr ++ dest_addr ++ [0; 0; len / 256; len mod 256] ++ [0; 0; 0; 17].

Lemma summer_len d len :
  bytes_ok d -> zlen d = len -> len mod 2 = 0 -> udp_checksum_summer d len = u32 (be_sum d).
Proof. intros ? <- ?. by apply summer_all. Qed.

Ltac words_ok :=
  first [ reflexivity | apply le_bytes_ok | apply udp_header_bytes_ok
        | repeat constructor; unfold byte_ok; dlia ].
Ltac words_even :=
  unfold udp_header_bytes; rewrite ?length_app;
  rewrite ?(fun n x => length_le_bytes n x); apply Nat.even_spec; reflexivity.

(** A string of at most [2 * n] bytes sums to at most [n] words. *)
Lemma sum_words l n : bytes_ok l -> zlen l <= 2 * n -> 0 <= be_sum l <= 65535 * n.
Proof. intros Hl Hn. pose proof (be_sum_bound l Hl). dlia. Qed.

(** Removes the wrap-arounds that the context shows to be identities. *)
Ltac u32_elim :=
  repeat match goal with
  | |- context [u32 ?x] =>
      lazymatch x with context [u32] => fail | _ => rewrite (u32_id x) by lia end
  end.
Ltac words_len := unfold udp_header_bytes; rewrite ?zlen_app, ?zlen_le_bytes; unfold zlen; simpl; lia.

Lemma udp_checksum_val h payload source_addr dest_addr :
  bytes_ok payload -> zlen payload <= 65527 ->
  udp_checksum h payload (zlen payload) source_addr dest_addr =
  Some (hton16 (65535 - oc16 (be_sum
    (pseudo4 source_addr dest_addr (8 + zlen payload) ++ udp_header_bytes h ++ payload)))).
Proof.
  intros Hp Hl.  pose proof (zlen_nonneg payload) as Hn.
  unfold udp_checksum. rewrite (u16_id (zlen payload)) by lia.
  unfold IPV4_PROTOCOL_UDP, sizeof_udp_header. rewrite !hton16_image by lia.
  change (17 / 256) with 0. change (17 mod 256) with 17.
  rewrite (summer_len (le_bytes 4 source_addr) 4), (summer_len (le_bytes 4 dest_addr) 4),
    (summer_len [0; 17] 2), (summer_len (udp_header_bytes h) 8),
    (summer_len [(8 + zlen payload) / 256; (8 + zlen payload) mod 256] 2) by words_ok.
  rewrite payload_sum by (done || lia). unfold zlen at 3. rewrite Nat2Z.id, take_ge by lia.
  pose proof (sum_words (le_bytes 4 source_addr) 2 ltac:(words_ok) ltac:(words_len)).
  pose proof (sum_words (le_bytes 4 dest_addr) 2 ltac:(words_ok) ltac:(words_len)).
  pose proof (sum_words (udp_header_bytes h) 4 ltac:(words_ok) ltac:(words_len)).
  pose proof (sum_words [0; 17] 1 ltac:(words_ok) ltac:(words_len)).
  pose proof (sum_words [(8 + zlen payload) / 256; (8 + zlen payload) mod 256] 1
                ltac:(words_ok) ltac:(words_len)).
  pose proof (sum_words payload 32764 Hp ltac:(lia)).
  rewrite Z.add_0_l. u32_elim.
  rewrite udp_checksum_finish_spec by lia. do 4 f_equal.
  unfold pseudo4. rewrite <- !app_assoc. rewrite !be_sum_app by words_even. lia.
Qed.

(** C38. [udp_checksum] is the RFC 768 checksum of pseudo header, header and
    payload (no 32-bit overflow of the accumulator, the carry loop terminates),
    except that a zero result is sent as zero: the code's substitution of
    0xFFFF is dead. *)
Theorem udp_checksum_spec (h : udp_header) (payload : list Z) (source_addr dest_addr : Z)
    (Hp : bytes_ok payload) (Hl : zlen payload <= 65527) :
  udp_checksum h payload (zlen payload) source_addr dest_addr =
  Some (hton16 (65535 - oc16 (be_sum
    (pseudo4 source_addr dest_addr (8 + zlen payload) ++ udp_header_bytes h ++ payload)))).
Proof. by apply udp_checksum_val. Qed.

Lemma udp_checksum_spec_witness :
  udp_checksum (mk_udp_header (hton16 53) (hton16 4000) (hton16 11) 0) [1; 2; 3] 3 16777343 134744072
  = Some (hton16 (65535 - oc16 (be_sum
      (pseudo4 16777343 134744072 11 ++ [0; 53; 15; 160; 0; 11; 0; 0] ++ [1; 2; 3])))).
Proof.
  apply (udp_checksum_spec (mk_udp_header (hton16 53) (hton16 4000) (hton16 11) 0) [1; 2; 3]
           16777343 134744072); [repeat constructor; unfold byte_ok; lia | vm_compute; congruence].
Defined.

Lemma udp_ip6_checksum_val h payload source_addr dest_addr :
  bytes_ok payload -> zlen payload <= 65527 ->
  bytes_ok source_addr -> bytes_ok dest_addr -> zlen source_addr = 16 -> zlen dest_addr = 16 ->
  udp_ip6_checksum h payload (zlen payload) source_addr dest_addr =
  Some (hton16 (65535 - oc16 (be_sum
    (pseudo6 source_addr dest_addr (8 + zlen payload) ++ udp_header_bytes h ++ payload)))).
Proof.
  intros Hp Hl Hs Hd Hsl Hdl. pose proof (zlen_nonneg payload) as Hn.
  unfold udp_ip6_checksum. rewrite (u16_id (zlen payload)) by lia.
  unfold IPV6_NEXT_UDP, sizeof_udp_header. set (n := 8 + zlen payload).
  replace (le_bytes 4 (hton32 n)) with [0; 0; n / 256; n mod 256]
    by (rewrite hton32_image by lia; f_equal; [dlia|]; f_equal; [dlia|]; f_equal; dlia).
  change (le_bytes 4 (hton32 17)) with [0; 0; 0; 17].
  rewrite (summer_len source_addr 16), (summer_len dest_addr 16), (summer_len [0; 0; 0; 17] 4),
    (summer_len (udp_header_bytes h) 8), (summer_len [0; 0; n / 256; n mod 256] 4)
    by (done || words_ok).
  rewrite payload_sum by (done || lia). unfold zlen at 1. rewrite Nat2Z.id, take_ge by lia.
  pose proof (sum_words source_addr 8 Hs ltac:(lia)).
  pose proof (sum_words dest_addr 8 Hd ltac:(lia)).
  pose proof (sum_words (udp_header_bytes h) 4 ltac:(words_ok) ltac:(words_len)).
  pose proof (sum_words [0; 0; 0; 17] 2 ltac:(words_ok) ltac:(words_len)).
  pose proof (sum_words [0; 0; n / 256; n mod 256] 2 ltac:(words_ok) ltac:(words_len)).
  pose proof (sum_words payload 32764 Hp ltac:(lia)).
  rewrite Z.add_0_l. u32_elim.
  rewrite udp_checksum_finish_spec by lia. do 4 f_equal.
  assert (Nat.Even (length source_addr)) by (exists 8%nat; unfold zlen in *; lia).
  assert (Nat.Even (length dest_addr)) by (exists 8%nat; unfold zlen in *; lia).
  unfold pseudo6. rewrite <- !app_assoc. rewrite !be_sum_app by (done || words_even). lia.
Qed.

(** A UDP checksum of zero does reach the wire: on the given datagram,
    whose RFC 768 checksum must be sent as 0xFFFF, [udp_checksum] gives 0. *)
Theorem udp_checksum_zero_emitted :
  exists h payload src dst,
    udp_header_ok h /\ bytes_ok payload /\ zlen payload <= 65527 /\
    oc16 (be_sum (pseudo4 src dst (8 + zlen payload) ++ udp_header_bytes h ++ payload)) = 65535 /\
    udp_checksum h payload (zlen payload) src dst = Some 0.
Proof.
  exists (mk_udp_header (hton16 1) (hton16 65501) (hton16 8) 0), [], 0, 0.
  split; [repeat split; vm_compute; congruence|]. split; [constructor|].
  repeat split; vm_compute; congruence.
Qed.

(** ** Headers in buffers *)

(** Only the projections of the header records are computed. *)
Ltac hdr_cbn :=
  cbn [version4_ihl4 ds total_length identification flags3_fragmentoffset13 ttl protocol
       ip_checksum source_address destination_address
       source_port dest_port udp_len udp_cksum
       version4_tc4 tc4_fl4 fl payload_length next_header hop_limit
       source_address6 destination_address6] in *.

Lemma fld_bytes d off (n : nat) k :
  k = Z.of_nat n -> bytes_ok d -> 0 <= off -> off + k <= zlen d ->
  le_bytes n (fld d off k) = mread d off k.
Proof.
  intros -> Hd Ho Hl. unfold fld.
  replace n with (length (mread d off (Z.of_nat n))) at 1.
  - apply le_bytes_val. by apply mread_bytes_ok.
  - pose proof (zlen_mread d off (Z.of_nat n)). unfold zlen in *. lia.
Qed.

Lemma fld_range d off (n : nat) : bytes_ok d -> 0 <= off -> off + Z.of_nat n <= zlen d ->
  0 <= fld d off (Z.of_nat n) < 256 ^ Z.of_nat n.
Proof.
  intros. unfold fld. pose proof (le_val_range _ (mread_bytes_ok d off (Z.of_nat n) ltac:(done))).
  by rewrite zlen_mread in * by lia.
Qed.

Lemma ipv4_header_bytes_read d :
  bytes_ok d -> 20 <= zlen d -> ipv4_header_bytes (ipv4_header_read d) = mread d 0 20.
Proof.
  intros Hd Hl. unfold ipv4_header_bytes, ipv4_header_read. hdr_cbn.
  rewrite (fld_bytes d 0 1 1), (fld_bytes d 1 1 1), (fld_bytes d 2 2 2), (fld_bytes d 4 2 2),
    (fld_bytes d 6 2 2), (fld_bytes d 8 1 1), (fld_bytes d 9 1 1), (fld_bytes d 10 2 2),
    (fld_bytes d 12 4 4), (fld_bytes d 16 4 4) by (done || lia).
  rewrite (mread_join d 12 4 16 4 8), (mread_join d 10 2 12 8 10), (mread_join d 9 1 10 10 11),
    (mread_join d 8 1 9 11 12), (mread_join d 6 2 8 12 14), (mread_join d 4 2 6 14 16),
    (mread_join d 2 2 4 16 18), (mread_join d 1 1 2 18 19), (mread_join d 0 1 1 19 20) by lia.
  done.
Qed.

Definition ipv4_header_ok (h : ipv4_header) : Prop :=
  0 <= version4_ihl4 h < 256 /\ 0 <= ds h < 256 /\ 0 <= total_length h < 65536 /\
  0 <= identification h < 65536 /\ 0 <= flags3_fragmentoffset13 h < 65536 /\
  0 <= ttl h < 256 /\ 0 <= protocol h < 256 /\ 0 <= ip_checksum h < 65536 /\
  0 <= source_address h < 4294967296 /\ 0 <= destination_address h < 4294967296.

(** A struct written to a buffer reads back as itself. *)
Lemma fld_app_skip (a d : list Z) off n :
  zlen a <= off -> fld (a ++ d) off n = fld d (off - zlen a) n.
Proof.
  intros. unfold fld, mread, zlen in *. rewrite drop_app_ge by lia. do 3 f_equal. lia.
Qed.

Lemma fld_app_here (n : nat) k v d :
  k = Z.of_nat n -> 0 <= v < 256 ^ k -> fld (le_bytes n v ++ d) 0 k = v.
Proof.
  intros -> ?. unfold fld, mread. rewrite drop_0, Nat2Z.id.
  rewrite take_app_length' by (by rewrite length_le_bytes). by apply le_val_bytes.
Qed.

(** Reads a field of a packed struct back from its memory image. *)
Ltac read_field :=
  rewrite <- ?app_assoc;
  repeat (rewrite fld_app_skip by (rewrite ?zlen_le_bytes; lia); rewrite ?zlen_le_bytes);
  match goal with |- fld _ ?off _ = _ => ring_simplify off end;
  apply fld_app_here; [reflexivity | simpl; lia].

Lemma udp_header_read_bytes h rest :
  udp_header_ok h -> udp_header_read (udp_header_bytes h ++ rest) = h.
Proof.
  destruct h. unfold udp_header_ok, udp_header_read, udp_header_bytes. hdr_cbn. intros.
  f_equal; read_field.
Qed.

Lemma ipv4_header_read_bytes h rest :
  ipv4_header_ok h -> ipv4_header_read (ipv4_header_bytes h ++ rest) = h.
Proof.
  destruct h. unfold ipv4_header_ok, ipv4_header_read, ipv4_header_bytes. hdr_cbn. intros.
  f_equal; read_field.
Qed.

Lemma ipv4_header_bytes_ok h : bytes_ok (ipv4_header_bytes h).
Proof. unfold ipv4_header_bytes. repeat apply Forall_app_2; apply le_bytes_ok. Qed.

Lemma zlen_ipv4_header_bytes h : zlen (ipv4_header_bytes h) = 20.
Proof. unfold ipv4_header_bytes. by rewrite !zlen_app, !zlen_le_bytes. Qed.

Lemma ipv4_checksum_val h extra len :
  bytes_ok extra -> 0 <= len <= zlen extra -> len <= 1000 -> len mod 2 = 0 ->
  ipv4_checksum h extra len =
  Some (hton16 (65535 - oc16 (be_sum (ipv4_header_bytes h) + be_sum (take (Z.to_nat len) extra)))).
Proof.
  intros He Hl Hm H2. unfold ipv4_checksum.
  pose proof (zlen_ipv4_header_bytes h) as Hh. pose proof (ipv4_header_bytes_ok h) as Ho.
  rewrite (sum_be16_spec _ (ipv4_header_bytes h)) by (done || (unfold zlen in *; simpl; lia)).
  rewrite take_ge by (unfold zlen in *; simpl; lia). rewrite Z.add_0_l.
  rewrite sum_be16_spec by (done || (unfold zlen in *; dlia) || apply u32_range).
  replace (2 * Z.to_nat (len / 2))%nat with (Z.to_nat len) by dlia.
  pose proof (sum_words _ 10 Ho ltac:(lia)).
  pose proof (sum_words (take (Z.to_nat len) extra) 500 ltac:(by apply Forall_take)
     ltac:(unfold zlen; rewrite length_take; lia)).
  u32_elim. set (t := _ + _). rewrite fold_carry_spec by (unfold t; lia).
  pose proof (oc16_range t ltac:(unfold t; lia)). by rewrite lnot16, hton16_lnot.
Qed.

(** The header sum, with the checksum field singled out. *)
Lemma ipv4_sum_checksum h c :
  be_sum (ipv4_header_bytes (ipv4_with_checksum c h)) =
  be_sum (ipv4_header_bytes (ipv4_with_checksum 0 h)) + be_sum (le_bytes 2 c).
Proof.
  unfold ipv4_header_bytes, ipv4_with_checksum. hdr_cbn.
  cbn [le_bytes app be_sum]. change (0 mod 256) with 0. change (0 / 256) with 0.
  change (0 mod 256) with 0. lia.
Qed.

Lemma be_sum_hton16 x : 0 <= x < 65536 -> be_sum (le_bytes 2 (hton16 x)) = x.
Proof. intros. rewrite hton16_image by done. cbn [be_sum]. dlia. Qed.

(** Adding the complement of the reduced sum makes the sum verify. *)
Lemma oc16_complement t : 0 < t -> oc16 (t + (65535 - oc16 t)) = 65535.
Proof.
  intros Ht. unfold oc16 at 2. destruct (Z.eqb_spec t 0); [lia|].
  pose proof (Z.div_mod (t - 1) 65535 ltac:(lia)) as Hdm.
  replace (t + (65535 - ((t - 1) mod 65535 + 1))) with (((t - 1) / 65535 + 1) * 65535) by lia.
  pose proof (Z.div_pos (t - 1) 65535 ltac:(lia) ltac:(lia)) as Hq.
  set (q := (t - 1) / 65535) in *.
  unfold oc16. destruct (Z.eqb_spec ((q + 1) * 65535) 0); [lia|].
  replace ((q + 1) * 65535 - 1) with (65534 + q * 65535) by lia.
  rewrite Z.mod_add by lia. done.
Qed.

Lemma ipv4_sum_self h :
  be_sum (ipv4_header_bytes h) =
  be_sum (ipv4_header_bytes (ipv4_with_checksum 0 h)) + be_sum (le_bytes 2 (ip_checksum h)).
Proof. rewrite <- ipv4_sum_checksum. by destruct h. Qed.

Lemma ipv4_sum_pos h : IPV4_GET_VERSION h = 4 ->
  0 < be_sum (ipv4_header_bytes (ipv4_with_checksum 0 h)).
Proof.
  intros Hv.
  assert (Hver : version4_ihl4 h mod 256 <> 0).
  { intros Hz. unfold IPV4_GET_VERSION in Hv.
    rewrite <- (Z.land_ones _ 8) in Hz by lia. change 240 with (Z.land (Z.ones 8) 240) in Hv.
    rewrite Z.land_assoc, Hz in Hv. done. }
  pose proof (ipv4_header_bytes_ok (ipv4_with_checksum 0 h)) as Ho.
  unfold ipv4_header_bytes, ipv4_with_checksum in *. hdr_cbn. revert Ho.
  change (le_bytes 1 (version4_ihl4 h)) with [version4_ihl4 h mod 256].
  change (le_bytes 1 (ds h)) with [ds h mod 256]. cbn [app].
  intros Ho. unfold bytes_ok in Ho. rewrite !Forall_cons in Ho. unfold byte_ok in Ho.
  destruct Ho as (? & ? & Ho). apply be_sum_bound in Ho. cbn [be_sum]. lia.
Qed.

(** ** Accepted packets

    What the checks accept, as the pieces of the packet. *)

(** The checksum field a header with options [opts] must have. *)
Definition ipv4_cksum (h : ipv4_header) (opts : list Z) : Z :=
  hton16 (65535 - oc16 (be_sum (ipv4_header_bytes (ipv4_with_checksum 0 h)) + be_sum opts)).

(** The UDP checksums of RFC 768 and RFC 2460. *)
Definition udp_cksum4 (src dst : Z) (u : udp_header) (payload : list Z) : Z :=
  hton16 (65535 - oc16 (be_sum (pseudo4 src dst (8 + zlen payload) ++ udp_header_bytes u ++ payload))).
Definition udp_cksum6 (src dst : list Z) (u : udp_header) (payload : list Z) : Z :=
  hton16 (65535 - oc16 (be_sum (pseudo6 src dst (8 + zlen payload) ++ udp_header_bytes u ++ payload))).

Lemma ihl_range h : 0 <= IPV4_GET_IHL h < 16.
Proof. unfold IPV4_GET_IHL. rewrite Z.shiftr_0_r. change 15 with (Z.ones 4). rewrite Z.land_ones by lia. dlia. Qed.

Lemma ntoh16_range x : 0 <= ntoh16 x < 65536.
Proof. unfold ntoh16. apply hton16_range. Qed.

Lemma drop_zlen_app (l k : list Z) n : zlen l = n -> drop (Z.to_nat n) (l ++ k) = k.
Proof. intros <-. unfold zlen. rewrite Nat2Z.id. apply drop_app_length. Qed.

Lemma take_zlen_app (l k : list Z) n : zlen l = n -> take (Z.to_nat n) (l ++ k) = l.
Proof. intros <-. unfold zlen. rewrite Nat2Z.id. apply take_app_length. Qed.

Lemma mread_take (l : list Z) n : mread l 0 n = take (Z.to_nat n) l.
Proof. reflexivity. Qed.

(** The decision of [ipv4_check], all wrap-arounds and the checksum resolved. *)
Lemma ipv4_check_val data n :
  bytes_ok data -> 0 <= n <= zlen data ->
  let h := ipv4_header_read data in
  let hlen := IPV4_GET_IHL h * 4 in
  ipv4_check data n =
    if (20 <=? n) && (IPV4_GET_VERSION h =? 4) && (20 <=? hlen) && (hlen <=? n) &&
       (hlen <=? ntoh16 (total_length h)) && (ntoh16 (total_length h) <=? n) &&
       (ip_checksum h =? ipv4_cksum h (take (Z.to_nat (hlen - 20)) (drop 20 data)))
    then Some (h, drop (Z.to_nat hlen) data, ntoh16 (total_length h) - hlen) else None.
Proof.
  intros Hd Hn h hlen. unfold ipv4_check. fold h. unfold sizeof_ipv4_header. pose proof (ihl_range h) as Hi.
  rewrite u16_id by lia. fold hlen.
  assert (Hhl : hlen = IPV4_GET_IHL h * 4) by done. clearbody hlen.
  destruct (Z.ltb_spec n 20), (Z.leb_spec 20 n); try lia; [done|].
  destruct (Z.eqb_spec (IPV4_GET_VERSION h) 4); [|done]. cbn [negb andb].
  destruct (Z.ltb_spec hlen 20), (Z.leb_spec 20 hlen); try lia; [done|].
  destruct (Z.gtb_spec hlen n), (Z.leb_spec hlen n); try lia; [done|].
  destruct (Z.ltb_spec (ntoh16 (total_length h)) hlen), (Z.leb_spec hlen (ntoh16 (total_length h))); try lia; [done|].
  destruct (Z.gtb_spec (ntoh16 (total_length h)) n), (Z.leb_spec (ntoh16 (total_length h)) n); try lia; [done|].
  cbn [andb]. rewrite ipv4_checksum_val; cycle 1.
  { by apply Forall_drop. } { unfold zlen in *. rewrite length_drop. lia. } { lia. } { subst hlen. dlia. }
  change (hton16 0) with 0. change (Z.to_nat 20) with 20%nat. fold (ipv4_cksum h (take (Z.to_nat (hlen - 20)) (drop 20 data))).
  by destruct (ip_checksum h =? _).
Qed.

Lemma ipv4_header_read_ok data : bytes_ok data -> 20 <= zlen data -> ipv4_header_ok (ipv4_header_read data).
Proof.
  intros Hd Hl. unfold ipv4_header_ok, ipv4_header_read. hdr_cbn.
  split_and!; eapply (fld_range data _ 1) || eapply (fld_range data _ 2) || eapply (fld_range data _ 4); (done || lia).
Qed.

Lemma udp_header_read_ok data : bytes_ok data -> 8 <= zlen data -> udp_header_ok (udp_header_read data).
Proof.
  intros Hd Hl. unfold udp_header_ok, udp_header_read. hdr_cbn. split_and!; eapply (fld_range data _ 2); (done || lia).
Qed.

Lemma udp_header_bytes_read d : bytes_ok d -> 8 <= zlen d -> udp_header_bytes (udp_header_read d) = mread d 0 8.
Proof.
  intros Hd Hl. unfold udp_header_bytes, udp_header_read. hdr_cbn.
  rewrite (fld_bytes d 0 2 2), (fld_bytes d 2 2 2), (fld_bytes d 4 2 2), (fld_bytes d 6 2 2) by (done || lia).
  rewrite (mread_join d 4 2 6 2 4), (mread_join d 2 2 4 4 6), (mread_join d 0 2 2 6 8) by lia. done.
Qed.

Lemma zlen_udp_header_bytes u : zlen (udp_header_bytes u) = 8.
Proof. unfold udp_header_bytes. by rewrite !zlen_app, !zlen_le_bytes. Qed.

(** Header, options and the rest of an IPv4 packet. *)
Definition ipv4_packet (h : ipv4_header) (opts rest : list Z) : Prop :=
  ipv4_header_ok h /\ IPV4_GET_VERSION h = 4 /\ 20 + zlen opts = IPV4_GET_IHL h * 4 /\
  20 + zlen opts <= ntoh16 (total_length h) <= 20 + zlen opts + zlen rest /\ ip_checksum h = ipv4_cksum h opts.

Lemma ipv4_check_iff data h rest plen :
  bytes_ok data ->
  (ipv4_check data (zlen data) = Some (h, rest, plen) <->
   exists opts, data = ipv4_header_bytes h ++ opts ++ rest /\ ipv4_packet h opts rest /\
     plen = ntoh16 (total_length h) - (20 + zlen opts)).
Proof.
  intros Hd. pose proof (zlen_nonneg data). rewrite ipv4_check_val by (done || lia). cbn zeta. split.
  - destruct (_ && _) eqn:E; [|done]. rewrite !andb_true_iff, !Z.leb_le, !Z.eqb_eq in E.
    destruct E as ((((((H1 & H2) & H3) & H4) & H5) & H6) & H7). intros [= <- <- <-].
    set (hlen := IPV4_GET_IHL (ipv4_header_read data) * 4) in *.
    exists (take (Z.to_nat (hlen - 20)) (drop 20 data)).
    assert (Ho : zlen (take (Z.to_nat (hlen - 20)) (drop 20 data)) = hlen - 20).
    { unfold zlen in *. rewrite length_take, length_drop. lia. }
    split; [|split; [|change (fld data 2 2) with (total_length (ipv4_header_read data)); lia]].
    + rewrite ipv4_header_bytes_read by done. rewrite mread_take. change (Z.to_nat 20) with 20%nat.
      rewrite <- (take_drop 20 data) at 1. f_equal. rewrite <- (take_drop (Z.to_nat (hlen - 20)) (drop 20 data)) at 1.
      f_equal. rewrite drop_drop. f_equal. lia.
    + split_and!; try done; [by apply ipv4_header_read_ok | lia | lia |].
      rewrite Ho. replace (zlen (drop _ data)) with (zlen data - hlen); [lia|]. unfold zlen in *. rewrite length_drop. lia.
  - intros (opts & -> & (Hok & Hv & Ho & Ht & Hc) & ->). pose proof (zlen_ipv4_header_bytes h) as Hz.
    pose proof (zlen_nonneg opts). pose proof (zlen_nonneg rest). rewrite !zlen_app, Hz, ipv4_header_read_bytes by done.
    rewrite <- Ho. change (drop 20) with (@drop Z (Z.to_nat 20)). rewrite (drop_zlen_app _ (opts ++ rest)) by done.
    rewrite (take_zlen_app opts) by lia. rewrite app_assoc, (drop_zlen_app (_ ++ opts) rest) by (rewrite zlen_app; lia).
    replace (_ && _) with true; [done|]. symmetry. rewrite !andb_true_iff, !Z.leb_le, !Z.eqb_eq. lia.
Qed.

Lemma udp_check_iff data n u rest m :
  bytes_ok data -> 0 <= n <= zlen data ->
  (udp_check data n = Some (u, rest, m) <->
   data = udp_header_bytes u ++ rest /\ udp_header_ok u /\ ntoh16 (udp_len u) = 8 + m /\ 0 <= m /\ 8 + m <= n).
Proof.
  intros Hd Hn. unfold udp_check, sizeof_udp_header. split.
  - destruct (Z.ltb_spec n 8); [done|]. destruct (Z.ltb_spec (ntoh16 (udp_len (udp_header_read data))) 8); [done|].
    destruct (Z.gtb_spec (ntoh16 (udp_len (udp_header_read data))) (8 + (n - 8))); [done|]. intros [= <- <- <-].
    change (fld data 4 2) with (udp_len (udp_header_read data)).
    split_and!; [|apply udp_header_read_ok; (done || lia) | lia | lia | lia].
    rewrite udp_header_bytes_read by (done || lia). symmetry. apply take_drop.
  - intros (-> & Hok & Hl & Hm & Hmn). rewrite udp_header_read_bytes, Hl by done.
    rewrite (drop_zlen_app _ rest) by apply zlen_udp_header_bytes.
    destruct (Z.ltb_spec n 8); [lia|]. destruct (Z.ltb_spec (8 + m) 8); [lia|].
    destruct (Z.gtb_spec (8 + m) (8 + (n - 8))); [lia|]. do 2 f_equal. lia.
Qed.

Definition ipv6_header_ok (h : ipv6_header) : Prop :=
  0 <= version4_tc4 h < 256 /\ 0 <= tc4_fl4 h < 256 /\ 0 <= fl h < 65536 /\ 0 <= payload_length h < 65536 /\
  0 <= next_header h < 256 /\ 0 <= hop_limit h < 256 /\
  bytes_ok (source_address6 h) /\ zlen (source_address6 h) = 16 /\
  bytes_ok (destination_address6 h) /\ zlen (destination_address6 h) = 16.

Lemma zlen_ipv6_header_bytes h : ipv6_header_ok h -> zlen (ipv6_header_bytes h) = 40.
Proof.
  intros (_ & _ & _ & _ & _ & _ & _ & Hs & _ & Hd). unfold ipv6_header_bytes.
  by rewrite !zlen_app, !zlen_le_bytes, Hs, Hd.
Qed.

Lemma ipv6_header_bytes_read d : bytes_ok d -> 40 <= zlen d -> ipv6_header_bytes (ipv6_header_read d) = mread d 0 40.
Proof.
  intros Hd Hl. unfold ipv6_header_bytes, ipv6_header_read. hdr_cbn.
  rewrite (fld_bytes d 0 1 1), (fld_bytes d 1 1 1), (fld_bytes d 2 2 2), (fld_bytes d 4 2 2),
    (fld_bytes d 6 1 1), (fld_bytes d 7 1 1) by (done || lia).
  rewrite (mread_join d 8 16 24 16 32), (mread_join d 7 1 8 32 33), (mread_join d 6 1 7 33 34),
    (mread_join d 4 2 6 34 36), (mread_join d 2 2 4 36 38), (mread_join d 1 1 2 38 39), (mread_join d 0 1 1 39 40) by lia.
  done.
Qed.

Lemma ipv6_header_read_ok data : bytes_ok data -> 40 <= zlen data -> ipv6_header_ok (ipv6_header_read data).
Proof.
  intros Hd Hl. unfold ipv6_header_ok, ipv6_header_read. hdr_cbn.
  split_and!; try (eapply (fld_range data _ 1) || eapply (fld_range data _ 2); (done || lia));
    try (by apply mread_bytes_ok); rewrite zlen_mread; lia.
Qed.

Lemma ipv6_header_read_bytes h rest : ipv6_header_ok h -> ipv6_header_read (ipv6_header_bytes h ++ rest) = h.
Proof.
  destruct h as [a b c d e f src dst]. unfold ipv6_header_ok, ipv6_header_read, ipv6_header_bytes. hdr_cbn.
  intros (? & ? & ? & ? & ? & ? & _ & Hs & _ & Hd).
  f_equal; try read_field; rewrite <- !app_assoc;
    repeat (rewrite mread_app_skip by (rewrite ?zlen_le_bytes, ?Hs; lia); rewrite ?zlen_le_bytes, ?Hs);
    match goal with |- mread _ ?off _ = _ => ring_simplify off end; by apply mread_app_front.
Qed.

Lemma ipv6_check_iff data h rest plen :
  bytes_ok data ->
  (ipv6_check data (zlen data) = Some (h, rest, plen) <->
   data = ipv6_header_bytes h ++ rest /\ ipv6_header_ok h /\ Z.shiftr (version4_tc4 h) 4 = 6 /\
   plen = ntoh16 (payload_length h) /\ plen <= zlen rest).
Proof.
  intros Hd. unfold ipv6_check, sizeof_ipv6_header.
  assert (Hv8 : forall h, ipv6_header_ok h -> ntoh8 (version4_tc4 h) = version4_tc4 h).
  { intros h' (? & _). unfold ntoh8, hton8. by apply u8_id. }
  split.
  - destruct (Z.ltb_spec (zlen data) 40); [done|]. pose proof (ipv6_header_read_ok data Hd ltac:(lia)) as Hok.
    rewrite Hv8 by done. destruct (Z.eqb_spec (Z.shiftr (version4_tc4 (ipv6_header_read data)) 4) 6) as [Hv|]; [|done].
    cbn [negb]. destruct (Z.gtb_spec (ntoh16 (payload_length (ipv6_header_read data))) (zlen data - 40)); [done|].
    intros [= <- <- <-]. change (fld data 4 2) with (payload_length (ipv6_header_read data)). split_and!; try done.
    + rewrite ipv6_header_bytes_read by (done || lia). symmetry. apply take_drop.
    + unfold zlen in *. rewrite length_drop. lia.
  - intros (-> & Hok & Hv & -> & Hl). pose proof (zlen_ipv6_header_bytes h Hok) as Hz. pose proof (zlen_nonneg rest).
    rewrite zlen_app, Hz, ipv6_header_read_bytes, Hv8, Hv by done. rewrite (drop_zlen_app _ rest) by done.
    destruct (Z.ltb_spec (40 + zlen rest) 40); [lia|]. change (6 =? 6) with true. cbn [negb].
    destruct (Z.gtb_spec (ntoh16 (payload_length h)) (40 + zlen rest - 40)); [lia | done].
Qed.

(** The checksum of a prefix of a longer block. *)
Lemma udp_checksum_prefix h payload n src dst :
  bytes_ok payload -> 0 <= n <= zlen payload -> n <= 65527 ->
  udp_checksum h payload n src dst = Some (udp_cksum4 src dst h (mread payload 0 n)).
Proof.
  intros Hp Hn Hn2. assert (Hb : bytes_ok (mread payload 0 n)) by (by apply mread_bytes_ok).
  assert (Hz : zlen (mread payload 0 n) = n) by (rewrite zlen_mread; lia).
  unfold udp_cksum4. rewrite <- udp_checksum_val by (done || lia). rewrite Hz. unfold udp_checksum.
  rewrite u16_id by lia. rewrite !payload_sum by (done || lia).
  rewrite (mread_take payload n), take_take, Nat.min_id. reflexivity.
Qed.

Lemma udp_ip6_checksum_prefix h payload n src dst :
  bytes_ok payload -> 0 <= n <= zlen payload -> n <= 65527 ->
  bytes_ok src -> bytes_ok dst -> zlen src = 16 -> zlen dst = 16 ->
  udp_ip6_checksum h payload n src dst = Some (udp_cksum6 src dst h (mread payload 0 n)).
Proof.
  intros Hp Hn Hn2 ? ? ? ?. assert (Hb : bytes_ok (mread payload 0 n)) by (by apply mread_bytes_ok).
  assert (Hz : zlen (mread payload 0 n) = n) by (rewrite zlen_mread; lia).
  unfold udp_cksum6. rewrite <- udp_ip6_checksum_val by (done || lia). rewrite Hz. unfold udp_ip6_checksum.
  rewrite u16_id by lia. rewrite !payload_sum by (done || lia).
  rewrite (mread_take payload n), take_take, Nat.min_id. reflexivity.
Qed.

(** What [ipv4_check] accepts is sound: the header is the one in the
    buffer, has at least 20 bytes, header and payload lie inside the received
    data, and the one's-complement sum of all header bytes, options included,
    verifies (RFC 1071). *)
Theorem ipv4_check_sound (data : list Z) (data_len : Z) h payload plen
    (Hd : bytes_ok data) (Hl : 0 <= data_len <= zlen data)
    (Hc : ipv4_check data data_len = Some (h, payload, plen)) :
  exists hlen,
    20 <= hlen <= 60 /\ hlen mod 4 = 0 /\ IPV4_GET_VERSION h = 4 /\ h = ipv4_header_read data /\
    payload = drop (Z.to_nat hlen) data /\ 0 <= plen /\ hlen + plen <= data_len /\
    oc16 (be_sum (take (Z.to_nat hlen) data)) = 65535.
Proof.
  rewrite ipv4_check_val in Hc by done. cbn zeta in Hc. destruct (_ && _) eqn:E; [|done].
  rewrite !andb_true_iff, !Z.leb_le, !Z.eqb_eq in E. destruct E as ((((((H1 & H2) & H3) & H4) & H5) & H6) & Hck).
  injection Hc as <- <- <-. set (h0 := ipv4_header_read data) in *. pose proof (ihl_range h0).
  set (hlen := IPV4_GET_IHL h0 * 4) in *. change (fld data 2 2) with (total_length h0).
  exists hlen. do 2 (split; [first [lia | unfold hlen; dlia]|]).
  do 3 (split; [done|]). do 2 (split; [lia|]).
  replace (Z.to_nat hlen) with (20 + Z.to_nat (hlen - 20))%nat by lia.
  rewrite <- (take_take_drop data). change (take 20 data) with (mread data 0 20).
  rewrite be_sum_app; cycle 1.
  { exists 10%nat. unfold mread, zlen in *. rewrite length_take, length_drop. lia. }
  rewrite <- ipv4_header_bytes_read by (done || lia). fold h0. rewrite (ipv4_sum_self h0), Hck. unfold ipv4_cksum.
  pose proof (ipv4_sum_pos h0 ltac:(by rewrite H2)) as Hpos.
  set (e := be_sum (take _ (drop _ data))).
  assert (0 <= e) by (apply be_sum_bound, Forall_take, Forall_drop; done).
  set (S := be_sum (ipv4_header_bytes (ipv4_with_checksum 0 h0)) + e) in *.
  pose proof (oc16_range S ltac:(lia)). rewrite be_sum_hton16 by lia.
  replace (_ + (65535 - oc16 S) + e) with (S + (65535 - oc16 S)) by (unfold S; lia).
  apply oc16_complement. unfold S. lia.
Qed.

Lemma ipv4_check_sound_witness :
  let d := [0x45; 0; 0; 28; 0; 0; 0; 0; 64; 17; 0xeb; 0xc0; 127; 0; 0; 1; 8; 8; 8; 8;
            0; 53; 0; 54; 0; 8; 0; 0] in
  ipv4_check d 28 = Some (ipv4_header_read d, drop 20 d, 8) /\
  exists hlen, 20 <= hlen <= 60 /\ oc16 (be_sum (take (Z.to_nat hlen) d)) = 65535.
Proof.
  intros d. split; [vm_compute; reflexivity|].
  destruct (ipv4_check_sound d 28 (ipv4_header_read d) (drop 20 d) 8) as (hlen & H);
    [repeat constructor; unfold byte_ok; lia | vm_compute; split; congruence
    | vm_compute; reflexivity |].
  exists hlen. split; apply H.
Defined.
