(* ===== verification/ChunkBuffer.v ===== *)
(** * ChunkBuffer2: the circular packet buffer

    Model of [badvpn/structure/ChunkBuffer2.h].  The block array is a byte block
    of [4 * size] bytes; the [len] header of the block with index [i] is the
    32-bit little-endian integer at byte [4 * i].  [input_dest] and
    [output_dest] are byte offsets into that block, [None] for [NULL].

    The refinement theorems show that the structure is a first-in first-out
    queue of packets: [rep b pkts] relates a buffer to its abstract contents,
    and every operation, under the source's [ASSERT]s, keeps that relation. *)

From S2P Require Import Prelude BSize.
Open Scope mon_scope.

Module ChunkBuffer2.

#[local] Arguments le_bytes : simpl never.
#[local] Arguments mwrite : simpl never.
#[local] Arguments mread : simpl never.

Definition sizeof_block : Z := 4.

Record t := mk {
  buffer : list Z;
  size : Z;
  wrap : Z;
  start : Z;
  used : Z;
  mtu : Z;
  input_dest : option Z;
  input_avail : Z;
  output_dest : option Z;
  output_avail : Z;
}.

Definition set_input (d : option Z) (a : Z) (b : t) : t :=
  mk (buffer b) (size b) (wrap b) (start b) (used b) (mtu b) d a (output_dest b) (output_avail b).
Definition set_output (d : option Z) (a : Z) (b : t) : t :=
  mk (buffer b) (size b) (wrap b) (start b) (used b) (mtu b) (input_dest b) (input_avail b) d a.
Definition set_buffer (m : list Z) (b : t) : t :=
  mk m (size b) (wrap b) (start b) (used b) (mtu b)
     (input_dest b) (input_avail b) (output_dest b) (output_avail b).
Definition set_pos (w s u : Z) (b : t) : t :=
  mk (buffer b) (size b) w s u (mtu b) (input_dest b) (input_avail b) (output_dest b) (output_avail b).

(** [buf->buffer[i].len], an [int]. *)
Definition block_len (b : t) (i : Z) : Z := i32 (le_val (mread (buffer b) (4 * i) 4)).

(** The data wraps, or exactly reaches [wrap]. *)
Definition wrapped (b : t) : bool := used b >=? wrap b - start b.

Definition _end (b : t) : Z :=
  if used b >=? wrap b - start b then used b - (wrap b - start b)
  else start b + used b.

Definition _update_input (b : t) : t :=
  let e := _end b in
  if size b - e - 1 <? mtu b then set_input None (-1) b
  else
    let free := if used b >=? wrap b - start b then start b - e else size b - e in
    if free >? 0 then set_input (Some (4 * (e + 1))) (i32 ((free - 1) * sizeof_block)) b
    else set_input None (-1) b.

Definition _update_output (b : t) : t :=
  if used b >? 0 then set_output (Some (4 * (start b + 1))) (block_len b (start b)) b
  else set_output None (-1) b.

Definition calc_blocks (chunk_len num : Z) : Z :=
  let chunk_data_blocks := bdivide_up chunk_len sizeof_block in
  if chunk_data_blocks >? INT_MAX - 1 then -1 else
  let chunk_blocks := 1 + chunk_data_blocks in
  if num >? INT_MAX - 1 then -1 else
  let num_chunks := num + 1 in
  if chunk_blocks >? INT_MAX / num_chunks then -1
  else chunk_blocks * num_chunks.

Definition Init (buf : list Z) (blocks pmtu : Z) : t :=
  let b := mk buf blocks blocks 0 0 (bdivide_up pmtu sizeof_block) None (-1) None (-1) in
  _update_output (_update_input b).

(** The source's [_ChunkBuffer2_assert_buffer] and [_ChunkBuffer2_assert_io]. *)
Definition assert_buffer (b : t) : bool :=
  (size b >? 0) && (wrap b >? 0) && (wrap b <=? size b) && (start b >=? 0) && (start b <? wrap b) &&
  (used b >=? 0) && (used b <=? wrap b) &&
  ((wrap b =? size b) || (used b >=? wrap b - start b)) && (mtu b >=? 0).

Definition assert_io (b : t) : bool :=
  let e := _end b in
  (if size b - e - 1 <? mtu b then
     bool_decide (input_dest b = None) && (input_avail b =? -1)
   else
     let free := if used b >=? wrap b - start b then start b - e else size b - e in
     if free >? 0 then
       bool_decide (input_dest b = Some (4 * (e + 1))) && (input_avail b =? (free - 1) * sizeof_block)
     else bool_decide (input_dest b = None) && (input_avail b =? -1)) &&
  (if used b >? 0 then
     let datalen := block_len b (start b) in
     let blocklen := bdivide_up datalen sizeof_block in
     (datalen >=? 0) && (blocklen <=? used b - 1) && (blocklen <=? wrap b - start b - 1) &&
     bool_decide (output_dest b = Some (4 * (start b + 1))) && (output_avail b =? datalen)
   else bool_decide (output_dest b = None) && (output_avail b =? -1)).

Section Ops.
Context {O : Type}.

Definition SubmitPacket (len : Z) : M t O unit :=
  b <- get ;;
  assert (bool_decide (is_Some (input_dest b))) ;;
  assert (len >=? 0) ;;
  assert (len <=? input_avail b) ;;
  assert (assert_buffer b) ;;
  assert (assert_io b) ;;
  let e := _end b in
  let blocklen := bdivide_up len sizeof_block in
  assert (blocklen <=? size b - e - 1) ;;
  assert ((used b <? wrap b - start b) || (blocklen <=? start b - e - 1)) ;;
  check_block (zlen (buffer b)) (4 * e) 4 ;;
  let b := set_buffer (mwrite (buffer b) (4 * e) (le_bytes 4 len)) b in
  let b := set_pos (wrap b) (start b) (used b + (1 + blocklen)) b in
  let b := if (used b <=? wrap b - start b) && (mtu b >? size b - (e + 1 + blocklen) - 1)
           then set_pos (e + 1 + blocklen) (start b) (used b) b else b in
  assert (assert_buffer b) ;;
  let b := _update_input b in
  let b := if used b =? 1 + blocklen then _update_output b else b in
  assert (assert_io b) ;;
  modify (fun _ => b).

Definition ConsumePacket : M t O unit :=
  b <- get ;;
  assert (bool_decide (is_Some (output_dest b))) ;;
  assert (assert_buffer b) ;;
  assert (assert_io b) ;;
  assert (1 <=? wrap b - start b) ;;
  assert (1 <=? used b) ;;
  check_block (zlen (buffer b)) (4 * start b) 4 ;;
  let blocklen := bdivide_up (block_len b (start b)) sizeof_block in
  assert (blocklen <=? wrap b - start b - 1) ;;
  assert (blocklen <=? used b - 1) ;;
  let data_wrapped := used b >=? wrap b - start b in
  let b := set_pos (wrap b) (start b + (1 + blocklen)) (used b - (1 + blocklen)) b in
  let b := if start b =? wrap b then set_pos (size b) 0 (used b) b else b in
  assert (assert_buffer b) ;;
  let b := if data_wrapped then _update_input b else b in
  let b := _update_output b in
  assert (assert_io b) ;;
  modify (fun _ => b).

(** The user's store of a packet at [input_dest]. *)
Definition StoreInput (data : list Z) : M t O unit :=
  b <- get ;;
  match input_dest b with
  | None => fail F_bounds
  | Some d =>
      check_block (zlen (buffer b)) d (zlen data) ;;
      modify (set_buffer (mwrite (buffer b) d data))
  end.
End Ops.

(** The packet bytes the consumer reads at [output_dest]. *)
Definition output_packet (b : t) : option (list Z) :=
  match output_dest b with
  | None => None
  | Some d => Some (mread (buffer b) d (output_avail b))
  end.

(** ** Abstraction: a queue of packets *)

(** Data blocks of a packet. *)
Definition dblocks (d : list Z) : Z := bdivide_up (zlen d) sizeof_block.

(** The packets [pkts] are laid out in block [m] from block index [p] to [q];
    every header leaves room for an MTU-long packet before [sz]. *)
Fixpoint layout (m : list Z) (sz mt p : Z) (pkts : list (list Z)) (q : Z) : Prop :=
  match pkts with
  | [] => p = q
  | d :: ds =>
      le_val (mread m (4 * p) 4) = zlen d /\ mread m (4 * (p + 1)) (zlen d) = d /\
      p + 1 + mt <= sz /\ p + 1 + dblocks d <= sz /\
      layout m sz mt (p + 1 + dblocks d) ds q
  end.

(** The positions and the stored bytes of [b] describe [pkts], oldest first. *)
Record core (b : t) (pkts : list (list Z)) : Prop := mk_core {
  core_size : 4 * size b <= INT_MAX;
  core_buf : zlen (buffer b) = 4 * size b;
  core_mtu : 0 <= mtu b /\ mtu b + 1 <= size b;
  core_start : 0 <= start b < wrap b;
  core_wrap : wrap b <= size b;
  core_used : 0 <= used b <= wrap b;
  core_data : exists p1 p2, pkts = p1 ++ p2 /\
    (if wrapped b then
       layout (buffer b) (size b) (mtu b) (start b) p1 (wrap b) /\
       layout (buffer b) (size b) (mtu b) 0 p2 (_end b) /\ size b - wrap b <= mtu b
     else
       layout (buffer b) (size b) (mtu b) (start b) p1 (_end b) /\ p2 = [] /\
       wrap b = size b /\ _end b + 1 + mtu b <= size b);
}.

(** [b] holds the packets [pkts] and offers the right pointers. *)
Record rep (b : t) (pkts : list (list Z)) : Prop := mk_rep {
  rep_core : core b pkts;
  rep_in : input_dest b = input_dest (_update_input b) /\ input_avail b = input_avail (_update_input b);
  rep_out : output_dest b = output_dest (_update_output b) /\
            output_avail b = output_avail (_update_output b);
}.

Lemma dblocks_spec d : zlen d <= 4 * dblocks d < zlen d + 4 /\ 0 <= dblocks d.
Proof.
  unfold dblocks, sizeof_block. pose proof (zlen_nonneg d).
  rewrite bdivide_up_4 by done. dlia.
Qed.

Section Layout.
Context (sz mt : Z).

Lemma layout_app m p xs ys q :
  layout m sz mt p (xs ++ ys) q <->
  exists r, layout m sz mt p xs r /\ layout m sz mt r ys q.
Proof.
  revert p. induction xs as [|d xs IH]; intros p; cbn [app layout].
  - split; [eauto | by intros (r & -> & ?)].
  - rewrite IH. split; [intros (?&?&?&?&r&?&?) | intros (r&(?&?&?&?&?)&?)]; eauto 10.
Qed.

Lemma layout_le m p xs q : layout m sz mt p xs q -> p <= q.
Proof.
  revert p. induction xs as [|d xs IH]; intros p; cbn [layout]; [lia|].
  intros (_ & _ & _ & _ & H). apply IH in H. pose proof (dblocks_spec d). lia.
Qed.

(** The layout is that of the bytes of its region. *)
Lemma layout_agree m m' p xs q : 0 <= p ->
  (forall k n, 4 * p <= k -> 0 <= n -> k + n <= 4 * q -> mread m' k n = mread m k n) ->
  layout m sz mt p xs q -> layout m' sz mt p xs q.
Proof.
  revert p. induction xs as [|d xs IH]; intros p Hp Ha; cbn [layout]; [done|].
  intros (Hl & Hb & Hf & Hs & Hr). pose proof (dblocks_spec d) as Hk.
  pose proof (layout_le _ _ _ _ Hr). pose proof (zlen_nonneg d).
  split_and!; try done; [by rewrite Ha by lia | by rewrite Ha by lia |].
  apply IH; [lia | intros k n H1 H2 H3; apply Ha; lia | done].
Qed.

(** A store before or after the region leaves the layout alone. *)
Lemma layout_frame m p xs q off w :
  0 <= p -> 0 <= off -> off + zlen w <= zlen m -> 4 * sz <= zlen m ->
  off + zlen w <= 4 * p \/ 4 * q <= off ->
  layout m sz mt p xs q -> layout (mwrite m off w) sz mt p xs q.
Proof.
  intros Hp Ho Hw Hm. revert p Hp. induction xs as [|d xs IH]; intros p Hp Hd; cbn [layout]; [done|].
  intros (Hl & Hb & Hf & Hs & Hr). pose proof (dblocks_spec d) as Hk.
  pose proof (layout_le _ _ _ _ Hr). pose proof (zlen_nonneg w). pose proof (zlen_nonneg d).
  split_and!; try done.
  - destruct Hd; [rewrite mread_mwrite_after by lia | rewrite mread_mwrite_before by lia]; done.
  - destruct Hd; [rewrite mread_mwrite_after by lia | rewrite mread_mwrite_before by lia]; done.
  - apply IH; [lia | lia | done].
Qed.

Lemma layout_cons_pos m p d xs q : layout m sz mt p (d :: xs) q -> p < q.
Proof. cbn [layout]. intros (_ & _ & _ & _ & H). apply layout_le in H. pose proof (dblocks_spec d). lia. Qed.

Lemma layout_nonempty m p xs q : layout m sz mt p xs q -> p < q -> exists d xs', xs = d :: xs'.
Proof. destruct xs; cbn [layout]; [lia | eauto]. Qed.
End Layout.

(** ** Facts about represented buffers *)

Lemma wrapped_spec b : wrapped b = true <-> wrap b - start b <= used b.
Proof. unfold wrapped. lia. Qed.

Lemma end_wrapped b : wrapped b = true -> _end b = used b - (wrap b - start b).
Proof. unfold wrapped, _end. by intros ->. Qed.

Lemma end_unwrapped b : wrapped b = false -> _end b = start b + used b.
Proof. unfold wrapped, _end. by intros ->. Qed.

Lemma core_assert_buffer b pkts : core b pkts -> assert_buffer b = true.
Proof.
  intros [Hsz Hbuf Hm Hs Hw Hu (p1 & p2 & -> & Hd)]. unfold assert_buffer.
  destruct (wrapped b) eqn:E; [apply wrapped_spec in E | destruct Hd as (_ & _ & Hd & _)]; lia.
Qed.

(** The oldest packet lies contiguously at [start]. *)
Lemma rep_head b pkts :
  rep b pkts -> 0 < used b ->
  exists d ds, pkts = d :: ds /\ block_len b (start b) = zlen d /\
    mread (buffer b) (4 * (start b + 1)) (zlen d) = d /\
    1 + dblocks d <= used b /\ 1 + dblocks d <= wrap b - start b /\
    start b + 1 + mtu b <= size b.
Proof.
  intros [[Hsz Hbuf Hm Hs Hw Hu (p1 & p2 & -> & Hd)] _ _] Hpos.
  assert (exists q, layout (buffer b) (size b) (mtu b) (start b) p1 q /\ start b < q /\
            q <= wrap b /\ q <= start b + used b) as (q & Hq & Hlt & Hqw & Hqu).
  { destruct (wrapped b) eqn:E.
    - apply wrapped_spec in E. exists (wrap b). split; [apply Hd | lia].
    - exists (_end b). rewrite (end_unwrapped _ E) in *. destruct Hd as (? & ? & ? & ?).
      split; [done | lia]. }
  destruct (layout_nonempty _ _ _ _ _ _ Hq Hlt) as (d & ds & ->).
  cbn [layout] in Hq. destruct Hq as (Hl & Hb & Hf & Hk & Hr). apply layout_le in Hr.
  exists d, (ds ++ p2). pose proof (dblocks_spec d). unfold INT_MAX in *.
  split; [done|]. split; [unfold block_len; rewrite Hl; apply i32_id; lia|].
  split; [done | lia].
Qed.

Lemma rep_empty b pkts : rep b pkts -> used b = 0 -> pkts = [].
Proof.
  intros [[Hsz Hbuf Hm Hs Hw Hu (p1 & p2 & -> & Hd)] _ _] H0.
  assert (E : wrapped b = false) by (unfold wrapped; lia).
  rewrite E in Hd. destruct Hd as (Hl & -> & _). rewrite (end_unwrapped _ E), H0 in Hl.
  destruct p1; [done|]. apply layout_cons_pos in Hl. lia.
Qed.

(** Position and size of the free space. *)
Definition free_blocks (b : t) : Z := if wrapped b then start b - _end b else size b - _end b.

Lemma rep_end b pkts :
  rep b pkts -> 0 <= _end b /\ _end b + 1 + mtu b <= size b /\ 0 <= free_blocks b <= size b - _end b.
Proof.
  intros H. pose proof (rep_head b pkts H) as Hh.
  destruct H as [[Hsz Hbuf Hm Hs Hw Hu (p1 & p2 & -> & Hd)] _ _]. unfold free_blocks.
  destruct (wrapped b) eqn:E.
  - destruct Hh as (? & ? & ? & ? & ? & ? & ? & ?); [apply wrapped_spec in E; lia|].
    rewrite (end_wrapped _ E). apply wrapped_spec in E. lia.
  - destruct Hd as (? & ? & ? & ?). rewrite (end_unwrapped _ E) in *. lia.
Qed.

(** The input pointer and space of a represented buffer. *)
Lemma rep_input b pkts :
  rep b pkts ->
  if free_blocks b >? 0
  then input_dest b = Some (4 * (_end b + 1)) /\ input_avail b = (free_blocks b - 1) * 4
  else input_dest b = None /\ input_avail b = -1.
Proof.
  intros H. pose proof (rep_end b pkts H) as (H0 & H1 & H2).
  destruct H as [[Hsz Hbuf Hm Hs Hw Hu _] [Hi1 Hi2] _]. rewrite Hi1, Hi2. unfold _update_input.
  destruct (Z.ltb_spec (size b - _end b - 1) (mtu b)); [lia|]. fold (wrapped b). fold (free_blocks b).
  destruct (Z.gtb_spec (free_blocks b) 0); simpl; [|done].
  split; [done|]. unfold sizeof_block, INT_MAX in *. apply i32_id. lia.
Qed.

Lemma rep_output b pkts :
  rep b pkts ->
  output_packet b = head pkts /\ (output_avail b = match pkts with [] => -1 | d :: _ => zlen d end).
Proof.
  intros H. pose proof (rep_head b pkts H) as Hh. pose proof (rep_empty b pkts H) as He.
  destruct H as [[Hsz Hbuf Hm Hs Hw Hu _] _ [Ho1 Ho2]]. unfold output_packet.
  rewrite Ho1, Ho2. unfold _update_output.
  destruct (Z.gtb_spec (used b) 0) as [Hpos|]; simpl.
  - destruct Hh as (d & ds & -> & Hl & Hb & _); [lia|]. rewrite Hl, Hb. done.
  - rewrite He by lia. done.
Qed.

Lemma rep_assert_io b pkts : rep b pkts -> assert_io b = true.
Proof.
  intros H. pose proof (rep_input b pkts H) as Hi. pose proof (rep_end b pkts H) as (H0 & H1 & H2).
  pose proof (rep_head b pkts H) as Hh. destruct H as [[Hsz Hbuf Hm Hs Hw Hu _] _ [Ho1 Ho2]].
  unfold assert_io. apply andb_true_iff. split.
  - destruct (Z.ltb_spec (size b - _end b - 1) (mtu b)); [lia|]. fold (wrapped b). fold (free_blocks b).
    destruct (Z.gtb_spec (free_blocks b) 0); destruct Hi as [-> ->];
      rewrite bool_decide_eq_true_2 by done; unfold sizeof_block; lia.
  - rewrite Ho1, Ho2. unfold _update_output.
    destruct (Z.gtb_spec (used b) 0) as [Hpos|]; simpl.
    + destruct Hh as (d & ds & -> & Hl & _ & ? & ? & _); [lia|]. rewrite Hl.
      fold (dblocks d). rewrite bool_decide_eq_true_2 by done. pose proof (zlen_nonneg d). lia.
    + done.
Qed.

(** ** Operations *)

Lemma update_input_frame b : exists z w, _update_input b = set_input z w b.
Proof. unfold _update_input. repeat case_match; eauto. Qed.

(** Recomputing the pointers establishes [rep]. *)
Lemma rep_update b pkts : core b pkts -> rep (_update_output (_update_input b)) pkts.
Proof.
  intros H. set (b1 := _update_input b).
  assert (Hsame : forall x y z w, 
    let c := set_output x y (set_input z w b) in
    core c pkts /\ input_dest (_update_input c) = input_dest b1 /\
    input_avail (_update_input c) = input_avail b1 /\
    output_dest (_update_output c) = output_dest (_update_output b) /\
    output_avail (_update_output c) = output_avail (_update_output b)).
  { intros. split; [by destruct H; split|].
    unfold b1, _update_input, _update_output, _end, block_len; simpl. repeat case_match; done. }
  destruct (update_input_frame b) as (z & w & Hb1). fold b1 in Hb1.
  assert (Ho : exists x y, _update_output b1 = set_output x y b1 /\
     x = output_dest (_update_output b) /\ y = output_avail (_update_output b)).
  { rewrite Hb1. unfold _update_output; simpl. case_match; eauto. }
  destruct Ho as (x & y & -> & Hx & Hy). rewrite Hb1.
  destruct (Hsame x y z w) as (H0 & H1 & H2 & H3 & H4).
  split; [done | | ]; rewrite ?H1, ?H2, ?H3, ?H4, <- ?Hx, <- ?Hy, ?Hb1; done.
Qed.

(** Changes of the free space affect neither contents nor pointers. *)
Lemma rep_set_buffer b pkts p m :
  rep b pkts -> input_dest b = Some p -> zlen m = zlen (buffer b) ->
  (forall k n, 0 <= k -> 0 <= n -> k + n <= p \/ p + input_avail b <= k -> mread m k n = mread (buffer b) k n) ->
  0 <= p /\ p + input_avail b <= zlen (buffer b) /\ rep (set_buffer m b) pkts.
Proof.
  intros H Hp Hz Hag. pose proof (rep_input b pkts H) as Hi. pose proof (rep_end b pkts H) as (H0 & H1 & H2).
  pose proof (rep_head b pkts H) as Hh. destruct H as [[Hsz Hbuf Hm Hs Hw Hu Hdata] Hin Hout].
  destruct (Z.gtb_spec (free_blocks b) 0) as [Hf|]; [|destruct Hi; congruence].
  destruct Hi as [Hi1 Hi2]. assert (p = 4 * (_end b + 1)) as -> by congruence.
  split; [lia|]. split; [lia|].
  set (c := set_buffer _ b).
  assert (Hw' : wrapped c = wrapped b) by done. assert (He' : _end c = _end b) by done.
  assert (Hin' : input_dest (_update_input c) = input_dest (_update_input b) /\
                 input_avail (_update_input c) = input_avail (_update_input b)).
  { unfold _update_input. rewrite He'. simpl. repeat case_match; done. }
  split; [split; simpl; try done| by destruct Hin', Hin; split; simpl; congruence |].
  - congruence.
  - destruct Hdata as (p1 & p2 & -> & Hd'). exists p1, p2. split; [done|].
    fold c. rewrite Hw', He'. unfold free_blocks in *. destruct (wrapped b) eqn:E.
    + destruct Hd' as (L1 & L2 & L3). split_and!; [| |done]; (eapply layout_agree; [| |done]; [lia | intros k n K1 K2 K3; apply Hag; lia]).
    + destruct Hd' as (L1 & -> & L3). split_and!; try done; try apply L3.
      eapply layout_agree; [| |done]; [lia | intros k n K1 K2 K3; apply Hag; lia].
  - destruct Hout as [Ho1 Ho2]. unfold c. simpl. rewrite Ho1, Ho2. unfold _update_output.
    simpl. destruct (Z.gtb_spec (used b) 0); simpl; [|done].
    split; [done|]. unfold block_len. simpl. f_equal. f_equal. symmetry. apply Hag; [lia | lia |].
    unfold free_blocks in *. destruct (wrapped b) eqn:E; [lia|]. rewrite (end_unwrapped _ E) in *. lia.
Qed.

Lemma rep_store b pkts d p :
  rep b pkts -> input_dest b = Some p -> zlen d <= input_avail b ->
  0 <= p /\ p + zlen d <= zlen (buffer b) /\ rep (set_buffer (mwrite (buffer b) p d) b) pkts.
Proof.
  intros H Hp Hd. pose proof (zlen_nonneg d) as Hz.
  destruct (rep_set_buffer b pkts p (buffer b) H Hp eq_refl) as (H0 & H1 & _); [done|].
  destruct (rep_set_buffer b pkts p (mwrite (buffer b) p d) H Hp) as (_ & _ & Hr); [apply zlen_mwrite; lia | | split_and!; [lia | lia | done]].
  intros k n Hk Hn [Hb|Ha]; [by rewrite mread_mwrite_before by lia | by rewrite mread_mwrite_after by lia].
Qed.

(** The state after the header is written and the positions are advanced. *)
Definition submitted (b : t) (len : Z) : t :=
  let e := _end b in
  let blocklen := bdivide_up len sizeof_block in
  let b := set_buffer (mwrite (buffer b) (4 * e) (le_bytes 4 len)) b in
  let b := set_pos (wrap b) (start b) (used b + (1 + blocklen)) b in
  if (used b <=? wrap b - start b) && (mtu b >? size b - (e + 1 + blocklen) - 1)
  then set_pos (e + 1 + blocklen) (start b) (used b) b else b.

Lemma layout_header m sz mt p d :
  0 <= p -> p + 1 + mt <= sz -> p + 1 + dblocks d <= sz -> 4 * sz = zlen m ->
  zlen d < 4294967296 -> mread m (4 * (p + 1)) (zlen d) = d ->
  layout (mwrite m (4 * p) (le_bytes 4 (zlen d))) sz mt p [d] (p + 1 + dblocks d).
Proof.
  intros Hp Hf Hs Hm Hlt Hd. pose proof (dblocks_spec d) as Hk. pose proof (zlen_nonneg d).
  assert (H4 : zlen (le_bytes 4 (zlen d)) = 4) by apply zlen_le_bytes.
  cbn [layout]. split_and!; try done.
  - rewrite <- H4 at 2. rewrite mread_mwrite_same by lia. apply le_val_bytes. simpl. lia.
  - by rewrite mread_mwrite_after by lia.
Qed.

Lemma submitted_core b pkts d :
  rep b pkts -> 0 < free_blocks b -> dblocks d <= free_blocks b - 1 ->
  mread (buffer b) (4 * (_end b + 1)) (zlen d) = d ->
  core (submitted b (zlen d)) (pkts ++ [d]) /\
  (0 < used b -> block_len (submitted b (zlen d)) (start b) = block_len b (start b)).
Proof.
  intros H Hf Hk Hd. pose proof (rep_end b pkts H) as (H0 & H1 & H2). pose proof (dblocks_spec d) as Hk4.
  destruct H as [[Hsz Hbuf Hm Hs Hw Hu (p1 & p2 & -> & Hl)] _ _].
  assert (H4 : zlen (le_bytes 4 (zlen d)) = 4) by apply zlen_le_bytes.
  assert (Hnew : layout (mwrite (buffer b) (4 * _end b) (le_bytes 4 (zlen d))) (size b) (mtu b)
                   (_end b) [d] (_end b + 1 + dblocks d)).
  { apply layout_header; try done; unfold INT_MAX in *; lia. }
  unfold submitted, free_blocks in *. fold (dblocks d). simpl.
  destruct (wrapped b) eqn:E.
  - rewrite (end_wrapped _ E) in *. apply wrapped_spec in E. destruct Hl as (L1 & L2 & L3).
    destruct (Z.leb_spec (used b + (1 + dblocks d)) (wrap b - start b)); [lia|]. simpl.
    split; cycle 1.
    { intros _. unfold block_len; simpl. by rewrite mread_mwrite_after by lia. }
    split; simpl; try done; [rewrite zlen_mwrite; lia | lia |].
    exists p1, (p2 ++ [d]). split; [by rewrite app_assoc|].
    unfold wrapped, _end; simpl. destruct (Z.geb_spec (used b + (1 + dblocks d)) (wrap b - start b)); [|lia].
    split_and!; [apply layout_frame; try done; lia | | done].
    apply layout_app. exists (used b - (wrap b - start b)). split; [apply layout_frame; try done; lia|].
    by replace (used b + (1 + dblocks d) - (wrap b - start b))
      with (used b - (wrap b - start b) + 1 + dblocks d) by lia.
  - rewrite (end_unwrapped _ E) in *. destruct Hl as (L1 & -> & Lw & Lm). rewrite app_nil_r.
    assert (L' : layout (mwrite (buffer b) (4 * (start b + used b)) (le_bytes 4 (zlen d)))
                   (size b) (mtu b) (start b) (p1 ++ [d]) (start b + used b + 1 + dblocks d)).
    { apply layout_app. exists (start b + used b). split; [apply layout_frame; try done; lia | done]. }
    split; cycle 1.
    { intros Hpos. case_match; unfold block_len; simpl; by rewrite mread_mwrite_before by lia. }
    destruct (Z.leb_spec (used b + (1 + dblocks d)) (wrap b - start b)); [|lia]. simpl.
    destruct (Z.gtb_spec (mtu b) (size b - (start b + used b + 1 + dblocks d) - 1)); simpl.
    + split; simpl; try done; [rewrite zlen_mwrite; lia | lia.. |].
      exists (p1 ++ [d]), []. rewrite app_nil_r. split; [done|].
      unfold wrapped, _end; simpl.
      destruct (Z.geb_spec (used b + (1 + dblocks d)) (start b + used b + 1 + dblocks d - start b)); [|lia].
      split_and!; [done | simpl; lia | lia].
    + split; simpl; try done; [rewrite zlen_mwrite; lia | lia |].
      exists (p1 ++ [d]), []. rewrite app_nil_r. split; [done|].
      unfold wrapped, _end; simpl.
      destruct (Z.geb_spec (used b + (1 + dblocks d)) (wrap b - start b)); [lia|].
      split_and!; [|done|done|lia].
      by replace (start b + (used b + (1 + dblocks d))) with (start b + used b + 1 + dblocks d) by lia.
Qed.

Lemma update_output_same c :
  0 < used c -> output_dest c = Some (4 * (start c + 1)) ->
  output_avail c = block_len c (start c) -> _update_output c = c.
Proof.
  intros Hu Hd Ha. unfold _update_output. destruct (Z.gtb_spec (used c) 0); [|lia].
  rewrite <- Hd, <- Ha. by destruct c.
Qed.

(** The pointers after a submission, as the source updates them. *)
Lemma submitted_rep b pkts d :
  rep b pkts -> 0 < free_blocks b -> dblocks d <= free_blocks b - 1 ->
  mread (buffer b) (4 * (_end b + 1)) (zlen d) = d ->
  let c := submitted b (zlen d) in
  rep (if used c =? 1 + dblocks d then _update_output (_update_input c) else _update_input c)
      (pkts ++ [d]).
Proof.
  intros H Hf Hk Hd c. destruct (submitted_core b pkts d H Hf Hk Hd) as [Hc Hlen].
  pose proof (rep_update c _ Hc) as Hr. fold c in Hlen.
  destruct (Z.eqb_spec (used c) (1 + dblocks d)) as [|Hne]; [done|].
  assert (Hu : used c = used b + (1 + dblocks d) /\ start c = start b /\
     output_dest c = output_dest b /\ output_avail c = output_avail b).
  { unfold c, submitted. fold (dblocks d). cbv zeta.
    match goal with |- context [if ?x then _ else _] => destruct x end; repeat split. }
  destruct Hu as (Hu & Hs & Hod & Hoa).
  destruct H as [[_ _ _ _ _ Hub _] _ [Ho1 Ho2]].
  assert (Hpos : 0 < used b) by lia.
  unfold _update_output in Ho1, Ho2. destruct (Z.gtb_spec (used b) 0); [|lia]. simpl in *.
  destruct (update_input_frame c) as (z & w & Hiz).
  rewrite update_output_same in Hr; [done|..]; rewrite Hiz; simpl.
  - pose proof (dblocks_spec d). lia.
  - by rewrite Hod, Ho1, Hs.
  - rewrite Hoa, Ho2, Hs. symmetry. apply Hlen. done.
Qed.

Lemma submitted_frame b len (c := submitted b len) :
  used (_update_input c) = used c /\
  size (_update_input c) = size b /\ mtu (_update_input c) = mtu b /\
  start (_update_input c) = start b.
Proof.
  destruct (update_input_frame c) as (z & w & ->). unfold c, submitted. cbv zeta.
  match goal with |- context [if ?x then _ else _] => destruct x end; repeat split.
Qed.

(** The state after the oldest packet's blocks are released. *)
Definition consumed (b : t) (blocklen : Z) : t :=
  let b := set_pos (wrap b) (start b + (1 + blocklen)) (used b - (1 + blocklen)) b in
  if start b =? wrap b then set_pos (size b) 0 (used b) b else b.

Lemma rep_used_pos b d ds : rep b (d :: ds) -> 0 < used b.
Proof.
  intros H. pose proof (rep_empty _ _ H) as He. pose proof (core_used _ _ (rep_core _ _ H)).
  destruct (Z.eq_dec (used b) 0) as [E|]; [discriminate (He E) | lia].
Qed.

Lemma consumed_core_wrapped b d ds (c := consumed b (dblocks d)) :
  rep b (d :: ds) -> wrapped b = true ->
  core c ds /\ _end c = _end b /\ (wrapped b = false -> wrapped c = false) /\
  free_blocks b <= free_blocks c.
Proof.
  intros H E.
  destruct (rep_end _ _ H) as (He0 & He1 & He2).
  destruct (rep_head _ _ H (rep_used_pos _ _ _ H)) as (d' & ds' & [= <- <-] & _ & _ & Hu1 & Hw1 & Hm1).
  destruct H as [[Hsz Hbuf Hm Hs Hw Hu (p1 & p2 & Hp & Hl)] _ _].
  pose proof (dblocks_spec d) as Hk. unfold free_blocks in *. rewrite E in Hl, He2 |- *.
  rewrite (end_wrapped _ E) in *. apply wrapped_spec in E. destruct Hl as (L1 & L2 & L3).
  destruct (layout_nonempty _ _ _ _ _ _ L1 ltac:(lia)) as (d1 & p1' & ->).
  injection Hp as <- ->. cbn [layout] in L1. destruct L1 as (_ & _ & _ & _ & L1).
  replace (start b + 1 + dblocks d) with (start b + (1 + dblocks d)) in L1 by lia.
  unfold c, consumed. simpl. destruct (Z.eqb_spec (start b + (1 + dblocks d)) (wrap b)) as [Hsw|Hsw].
  - rewrite Hsw in L1. destruct p1' as [|x p1']; [|apply layout_cons_pos in L1; lia].
    unfold wrapped, _end; simpl.
    destruct (Z.geb_spec (used b - (1 + dblocks d)) (size b - 0)); [lia|].
    split; [|split; [lia | split; [done | lia]]].
    split; simpl; try done; try lia.
    exists p2, []. rewrite app_nil_r. split; [done|]. unfold wrapped, _end; simpl.
    destruct (Z.geb_spec (used b - (1 + dblocks d)) (size b - 0)); [lia|].
    split_and!; try done; [|lia].
    by replace (used b - (1 + dblocks d)) with (used b - (wrap b - start b)) by lia.
  - pose proof (layout_le _ _ _ _ _ _ L1). unfold wrapped, _end; simpl.
    destruct (Z.geb_spec (used b - (1 + dblocks d)) (wrap b - (start b + (1 + dblocks d)))); [|lia].
    split; [|split; [lia | split; [done | lia]]].
    split; simpl; try done; try lia.
    exists p1', p2. split; [done|]. unfold wrapped, _end; simpl.
    destruct (Z.geb_spec (used b - (1 + dblocks d)) (wrap b - (start b + (1 + dblocks d)))); [|lia].
    split_and!; try done.
    by replace (used b - (1 + dblocks d) - (wrap b - (start b + (1 + dblocks d))))
      with (used b - (wrap b - start b)) by lia.
Qed.

Lemma consumed_core_flat b d ds (c := consumed b (dblocks d)) :
  rep b (d :: ds) -> wrapped b = false ->
  core c ds /\ _end c = _end b /\ (wrapped b = false -> wrapped c = false) /\
  free_blocks b <= free_blocks c.
Proof.
  intros H E.
  destruct (rep_end _ _ H) as (He0 & He1 & He2).
  destruct (rep_head _ _ H (rep_used_pos _ _ _ H)) as (d' & ds' & [= <- <-] & _ & _ & Hu1 & Hw1 & Hm1).
  destruct H as [[Hsz Hbuf Hm Hs Hw Hu (p1 & p2 & Hp & Hl)] _ _].
  pose proof (dblocks_spec d) as Hk. unfold free_blocks in *. rewrite E in Hl, He2 |- *.
  rewrite (end_unwrapped _ E) in *. destruct Hl as (L1 & -> & L3 & L4). rewrite app_nil_r in Hp.
  subst p1. cbn [layout] in L1. destruct L1 as (_ & _ & _ & _ & L1).
  replace (start b + 1 + dblocks d) with (start b + (1 + dblocks d)) in L1 by lia.
  unfold c, consumed. simpl. destruct (Z.eqb_spec (start b + (1 + dblocks d)) (wrap b)) as [Hsw|Hsw]; [lia|].
  unfold wrapped, _end; simpl.
  destruct (Z.geb_spec (used b - (1 + dblocks d)) (wrap b - (start b + (1 + dblocks d)))); [lia|].
  split; [|split; [lia | split; [done | lia]]].
  split; simpl; try done; try lia.
  exists ds, []. rewrite app_nil_r. split; [done|]. unfold wrapped, _end; simpl.
  destruct (Z.geb_spec (used b - (1 + dblocks d)) (wrap b - (start b + (1 + dblocks d)))); [lia|].
  split_and!; try done; [|lia].
  by replace (start b + (1 + dblocks d) + (used b - (1 + dblocks d))) with (start b + used b) by lia.
Qed.

Lemma consumed_core b d ds (c := consumed b (dblocks d)) :
  rep b (d :: ds) ->
  core c ds /\ _end c = _end b /\ (wrapped b = false -> wrapped c = false) /\
  free_blocks b <= free_blocks c.
Proof.
  intros H. assert (wrapped b = true \/ wrapped b = false) as [E|E] by (destruct (wrapped b); auto).
  - by apply consumed_core_wrapped.
  - by apply consumed_core_flat.
Qed.

Lemma update_input_same c :
  input_dest c = input_dest (_update_input c) -> input_avail c = input_avail (_update_input c) ->
  _update_input c = c.
Proof. destruct (update_input_frame c) as (z & w & ->). simpl. intros <- <-. by destruct c. Qed.

(** Only [_end], the wrap state and the free space decide the input pointers. *)
Lemma update_input_eq b c :
  size c = size b -> mtu c = mtu b -> _end c = _end b -> free_blocks c = free_blocks b ->
  input_dest (_update_input c) = input_dest (_update_input b) /\
  input_avail (_update_input c) = input_avail (_update_input b).
Proof.
  unfold free_blocks, wrapped. intros Hs Hm He Hf. unfold _update_input. rewrite Hs, Hm, He in *.
  rewrite Hf. repeat match goal with |- context [if ?x then set_input _ _ _ else _] => destruct x end; done.
Qed.

(** The pointers after a consumption, as the source updates them. *)
Lemma consumed_rep b d ds (c := consumed b (dblocks d)) :
  rep b (d :: ds) ->
  rep (_update_output (if wrapped b then _update_input c else c)) ds.
Proof.
  intros H. destruct (consumed_core b d ds H) as (Hc & He & Hw & Hf). fold c in Hc, He, Hw, Hf.
  pose proof (rep_update c ds Hc) as Hr. destruct (wrapped b) eqn:E; [done|].
  assert (Hsz : size c = size b /\ mtu c = mtu b /\ input_dest c = input_dest b /\
                input_avail c = input_avail b).
  { unfold c, consumed. cbv zeta. match goal with |- context [if ?x then _ else _] => destruct x end; repeat split. }
  destruct Hsz as (Hsz & Hm & Hid & Hia). destruct (rep_in _ _ H) as [Hi1 Hi2].
  assert (Hfb : free_blocks c = free_blocks b) by (unfold free_blocks; by rewrite E, (Hw eq_refl), He, Hsz).
  destruct (update_input_eq b c Hsz Hm He Hfb) as [H1 H2].
  rewrite update_input_same in Hr; [done|..]; congruence.
Qed.

Lemma update_frame b f :
  f = _update_input b \/ f = _update_output b \/ f = _update_output (_update_input b) ->
  size f = size b /\ mtu f = mtu b /\ _end f = _end b /\ free_blocks f = free_blocks b /\ buffer f = buffer b.
Proof.
  destruct (update_input_frame b) as (z & w & ->). unfold _update_output.
  intros [-> | [-> | ->]]; repeat case_match; repeat split.
Qed.

Lemma consumed_frame b k (c := consumed b k)
    (f := _update_output (if wrapped b then _update_input c else c)) :
  size f = size b /\ mtu f = mtu b /\ _end f = _end c /\ free_blocks f = free_blocks c /\ buffer f = buffer b.
Proof.
  destruct (update_frame c f) as (-> & -> & -> & -> & ->); [unfold f; destruct (wrapped b); auto|].
  unfold c, consumed. cbv zeta. simpl. case_match; repeat split.
Qed.

Section Specs.
Context {O : Type}.

(** Storing a packet at [input_dest] and submitting it appends it. *)
Lemma StoreInput_wp b pkts d p :
  rep b pkts -> input_dest b = Some p -> zlen d <= input_avail b ->
  wp (O:=O) (StoreInput d) b (fun _ b' tr => tr = [] /\ rep b' pkts /\
    input_dest b' = Some p /\ input_avail b' = input_avail b /\ _end b' = _end b /\
    free_blocks b' = free_blocks b /\ mread (buffer b') p (zlen d) = d).
Proof.
  intros H Hp Hd. destruct (rep_store b pkts d p H Hp Hd) as (H0 & H1 & H2).
  unfold StoreInput. wp_step. wp_step. rewrite Hp. wp_step. wp_step.
  { pose proof (zlen_nonneg d). lia. }
  wp_step. split_and!; try done. apply mread_mwrite_same; lia.
Qed.

Lemma SubmitPacket_wp b pkts d p :
  rep b pkts -> input_dest b = Some p -> zlen d <= input_avail b ->
  mread (buffer b) p (zlen d) = d ->
  wp (O:=O) (SubmitPacket (zlen d)) b (fun _ b' tr => tr = [] /\ rep b' (pkts ++ [d]) /\
    size b' = size b /\ mtu b' = mtu b /\ start b' = start b).
Proof.
  intros H Hp Hd Hm. pose proof (rep_input b pkts H) as Hi.
  pose proof (rep_end b pkts H) as (H0 & H1 & H2). pose proof (dblocks_spec d) as Hk4.
  destruct (Z.gtb_spec (free_blocks b) 0) as [Hf|]; [|destruct Hi; congruence].
  destruct Hi as [Hi1 Hi2]. assert (p = 4 * (_end b + 1)) as -> by congruence.
  assert (Hk : dblocks d <= free_blocks b - 1) by lia.
  pose proof (submitted_rep b pkts d H Hf Hk Hm) as Hr.
  destruct (submitted_core b pkts d H Hf Hk Hm) as [Hc _].
  pose proof (rep_assert_io b pkts H) as Aio. pose proof (core_assert_buffer b pkts (rep_core _ _ H)) as Abuf.
  pose proof (core_buf _ _ (rep_core _ _ H)) as Hbuf.
  unfold SubmitPacket. do 2 wp_step. fold (dblocks d).
  wp_step. wp_step; [rewrite Hp; by apply bool_decide_eq_true_2|].
  wp_step. wp_step; [pose proof (zlen_nonneg d); lia|].
  wp_step. wp_step; [lia|]. wp_step. wp_step; [done|]. wp_step. wp_step; [done|].
  wp_step. wp_step; [lia|].
  wp_step. wp_step. { unfold free_blocks, wrapped in *. destruct (used b >=? wrap b - start b) eqn:E; lia. }
  wp_step. wp_step; [lia|].
  match goal with |- context [assert_buffer ?c] => change c with (submitted b (zlen d)) end.
  wp_step. wp_step; [by apply (core_assert_buffer _ _ Hc)|].
  destruct (submitted_frame b (zlen d)) as (Hus & Hsz & Hmt & Hst).
  cbv zeta in Hr. set (c := submitted b (zlen d)) in *.
  rewrite Hus. set (c' := if used c =? _ then _ else _) in *.
  wp_step. wp_step; [by apply (rep_assert_io _ _ Hr)|].
  wp_step. split; [done|]. split; [exact Hr|].
  unfold c', _update_output. repeat case_match; simpl; by rewrite ?Hsz, ?Hmt, ?Hst.
Qed.

Lemma ConsumePacket_wp b d ds :
  rep b (d :: ds) ->
  wp (O:=O) ConsumePacket b (fun _ b' tr => tr = [] /\ rep b' ds /\
    size b' = size b /\ mtu b' = mtu b /\ _end b' = _end b /\ free_blocks b <= free_blocks b' /\ buffer b' = buffer b).
Proof.
  intros H. pose proof (rep_used_pos _ _ _ H) as Hpos.
  destruct (rep_head _ _ H Hpos) as (d' & ds' & [= <- <-] & Hl & _ & Hu1 & Hw1 & Hm1).
  pose proof (rep_assert_io _ _ H) as Aio.
  pose proof (core_assert_buffer _ _ (rep_core _ _ H)) as Abuf.
  destruct (consumed_core b d ds H) as (Hc & He & _ & Hf). pose proof (consumed_rep b d ds H) as Hr.
  destruct (rep_out _ _ H) as [Ho1 _]. pose proof (dblocks_spec d).
  destruct (rep_core _ _ H) as [Hsz Hbuf Hm Hs Hw Hu _].
  unfold ConsumePacket. do 3 wp_step.
  wp_step. { apply bool_decide_eq_true_2. rewrite Ho1. unfold _update_output.
             destruct (Z.gtb_spec (used b) 0); [eexists; reflexivity | lia]. }
  wp_step. wp_step; [done|]. wp_step. wp_step; [done|]. wp_step. wp_step; [lia|].
  wp_step. wp_step; [lia|]. wp_step. wp_step; [lia|]. rewrite Hl. fold (dblocks d).
  wp_step. wp_step; [lia|]. wp_step. wp_step; [lia|].
  match goal with |- context [assert_buffer ?c] => change c with (consumed b (dblocks d)) end.
  wp_step. wp_step; [by apply (core_assert_buffer _ _ Hc)|].
  fold (wrapped b). set (c := consumed b (dblocks d)) in *.
  wp_step. wp_step; [by apply (rep_assert_io _ _ Hr)|].
  wp_step. split; [done|]. split; [exact Hr|].
  destruct (consumed_frame b (dblocks d)) as (F1 & F2 & F3 & F4 & F5). fold c in F1, F2, F3, F4, F5.
  rewrite F1, F2, F3, F4, F5. done.
Qed.
End Specs.

(** ** Initialisation and capacity *)

Lemma Init_rep buf blocks pmtu :
  zlen buf = 4 * blocks -> 4 * blocks <= INT_MAX -> 0 <= pmtu ->
  bdivide_up pmtu 4 + 1 <= blocks ->
  rep (Init buf blocks pmtu) [] /\ mtu (Init buf blocks pmtu) = bdivide_up pmtu 4 /\
  size (Init buf blocks pmtu) = blocks.
Proof.
  intros Hb Hs Hm Hk. pose proof (bdivide_up_4 pmtu Hm) as Hd.
  assert (0 <= bdivide_up pmtu 4) by (rewrite Hd; dlia).
  unfold Init. split.
  - apply rep_update. split; simpl; try done; try (unfold sizeof_block; lia).
    exists [], []. split; [done|]. unfold wrapped, _end; simpl.
    destruct (Z.geb_spec 0 (blocks - 0)); [lia|]. unfold sizeof_block. split_and!; try done; lia.
  - match goal with |- context [_update_output (_update_input ?c)] =>
      destruct (update_frame c (_update_output (_update_input c))) as (-> & -> & _); [auto | done] end.
Qed.

(** Blocks taken by a list of packets. *)
Definition blocks_of (pkts : list (list Z)) : Z := foldr (fun d n => 1 + dblocks d + n) 0 pkts.

Lemma layout_blocks m sz mt p pkts q : layout m sz mt p pkts q -> q = p + blocks_of pkts.
Proof.
  revert p. induction pkts as [|d ds IH]; intros p; cbn [layout blocks_of foldr].
  - lia.
  - intros (_ & _ & _ & _ & H). apply IH in H. unfold blocks_of in H. lia.
Qed.

Lemma blocks_of_app xs ys : blocks_of (xs ++ ys) = blocks_of xs + blocks_of ys.
Proof. induction xs; cbn [app blocks_of foldr]; [done|]. unfold blocks_of in *. lia. Qed.

Lemma rep_used_blocks b pkts : rep b pkts -> used b = blocks_of pkts.
Proof.
  intros [[Hsz Hbuf Hm Hs Hw Hu (p1 & p2 & -> & Hl)] _ _]. rewrite blocks_of_app.
  destruct (wrapped b) eqn:E.
  - rewrite (end_wrapped _ E) in Hl. destruct Hl as (L1 & L2 & _).
    apply layout_blocks in L1, L2. lia.
  - rewrite (end_unwrapped _ E) in Hl. destruct Hl as (L1 & -> & _).
    apply layout_blocks in L1. simpl. lia.
Qed.

Lemma dblocks_mono d pmtu : zlen d <= pmtu -> dblocks d <= bdivide_up pmtu 4.
Proof.
  intros. pose proof (zlen_nonneg d). unfold dblocks, sizeof_block.
  rewrite !bdivide_up_4 by lia. apply Z.div_le_mono; lia.
Qed.

Lemma blocks_of_bound pkts pmtu :
  Forall (fun d => zlen d <= pmtu) pkts -> blocks_of pkts <= zlen pkts * (1 + bdivide_up pmtu 4).
Proof.
  induction 1 as [|d ds Hd _ IH]; [done|]. rewrite zlen_cons. cbn [blocks_of foldr].
  pose proof (dblocks_mono d pmtu Hd). unfold blocks_of in IH. lia.
Qed.

Lemma calc_blocks_spec chunk_len num :
  0 <= chunk_len <= INT_MAX -> 0 <= num <= INT_MAX ->
  let n := (1 + bdivide_up chunk_len 4) * (num + 1) in
  calc_blocks chunk_len num = if n <=? INT_MAX then n else -1.
Proof.
  unfold INT_MAX. intros Hc Hn. assert (Hb : 0 <= bdivide_up chunk_len 4 <= 536870912).
  { rewrite bdivide_up_4 by lia. dlia. }
  unfold calc_blocks, sizeof_block, INT_MAX.
  destruct (Z.gtb_spec (bdivide_up chunk_len 4) (2147483647 - 1)); [lia|].
  destruct (Z.gtb_spec num (2147483647 - 1)).
  - destruct (Z.leb_spec ((1 + bdivide_up chunk_len 4) * (num + 1)) 2147483647); [nia | done].
  - pose proof (Z.div_mod 2147483647 (num + 1) ltac:(lia)).
    pose proof (Z.mod_pos_bound 2147483647 (num + 1) ltac:(lia)).
    destruct (Z.gtb_spec (1 + bdivide_up chunk_len 4) (2147483647 / (num + 1))),
      (Z.leb_spec ((1 + bdivide_up chunk_len 4) * (num + 1)) 2147483647); nia.
Qed.

(** The space offered to the writer. *)
Lemma rep_input_some b pkts n :
  rep b pkts -> 0 <= n <= input_avail b -> exists p, input_dest b = Some p.
Proof.
  intros H Hn. pose proof (rep_input _ _ H) as Hi. destruct (free_blocks b >? 0); destruct Hi; [eauto | lia].
Qed.

Lemma push_wp {O} (b : t) (pkts : list (list Z)) (d : list Z) :
  rep b pkts -> zlen d <= input_avail b ->
  wp (O:=O) (StoreInput d ;; SubmitPacket (zlen d)) b
     (fun _ b' tr => tr = [] /\ rep b' (pkts ++ [d])).
Proof.
  intros H Hd.
  destruct (rep_input_some b pkts (zlen d) H) as [p Hp]; [pose proof (zlen_nonneg d); lia|].
  wp_step. eapply wp_mono; [apply (StoreInput_wp b pkts d p); done|].
  intros _ b1 tr (-> & Hr & Hp1 & Ha & _ & _ & Hm). cbn beta.
  eapply wp_mono; [apply (SubmitPacket_wp b1 pkts d p); (done || lia)|].
  intros _ b2 tr (-> & Hr2 & _). done.
Qed.

(** C39. Storing a packet at [input_dest] and submitting it never faults (all
    [ASSERT]s hold, all stores are inside the block) and appends exactly that
    packet to the queue the buffer represents. *)
Theorem submit_refines_push {O} (b : t) (pkts : list (list Z)) (d : list Z)
    (H : rep b pkts) (Hd : zlen d <= input_avail b) :
  wp (O:=O) (StoreInput d ;; SubmitPacket (zlen d)) b
     (fun _ b' tr => tr = [] /\ rep b' (pkts ++ [d])).
Proof. by apply push_wp. Qed.

Lemma submit_refines_push_witness :
  wp (O:=unit) (StoreInput [1; 2; 3; 4; 5] ;; SubmitPacket 5) (Init (replicate 24 0) 6 5)
     (fun _ b' tr => tr = [] /\ rep b' [[1; 2; 3; 4; 5]]).
Proof.
  apply (submit_refines_push (Init (replicate 24 0) 6 5) [] [1; 2; 3; 4; 5]).
  - apply Init_rep; vm_compute; congruence.
  - vm_compute. congruence.
Defined.

(** Consuming never faults, yields the oldest packet, byte for byte, and
    leaves the younger ones; it moves neither the write position nor shrinks
    the free space. *)
Theorem consume_refines_pop {O} (b : t) (d : list Z) (ds : list (list Z)) (H : rep b (d :: ds)) :
  output_packet b = Some d /\
  wp (O:=O) ConsumePacket b
     (fun _ b' tr => tr = [] /\ rep b' ds /\ _end b' = _end b /\ free_blocks b <= free_blocks b').
Proof.
  split; [apply (rep_output _ _ H)|].
  eapply wp_mono; [by apply (ConsumePacket_wp b d ds)|].
  intros _ b' tr (? & ? & _ & _ & ? & ? & _). done.
Qed.

Lemma consume_refines_pop_witness :
  exists b, rep b [[7; 8]; [9]] /\ output_packet b = Some [7; 8] /\
    wp (O:=unit) ConsumePacket b (fun _ b' _ => rep b' [[9]]).
Proof.
  assert (H0 : rep (Init (replicate 24 0) 6 2) []) by (apply Init_rep; vm_compute; congruence).
  destruct (wp_ok _ _ _ (push_wp (O:=unit) _ _ [7; 8] H0 ltac:(vm_compute; congruence)))
    as (u1 & b1 & t1 & E1 & _ & H1). 
  vm_compute in E1. injection E1 as <- <- <-.
  destruct (wp_ok _ _ _ (push_wp (O:=unit) _ _ [9] H1 ltac:(vm_compute; congruence)))
    as (u2 & b2 & t2 & _ & _ & H2).
  exists b2. split; [exact H2|]. destruct (consume_refines_pop (O:=unit) b2 [7; 8] [[9]] H2) as [Ho Hw].
  split; [exact Ho|]. eapply wp_mono; [exact Hw|]. intros _ b' tr (_ & Hb & _). exact Hb.
Defined.

Lemma capacity_space (b : t) (pkts : list (list Z)) (pmtu num : Z) :
  0 <= pmtu <= INT_MAX -> 0 < num <= INT_MAX -> rep b pkts ->
  size b = calc_blocks pmtu num -> mtu b = bdivide_up pmtu 4 ->
  Forall (fun d => zlen d <= pmtu) pkts -> zlen pkts < num ->
  pmtu <= input_avail b.
Proof.
  intros Hm Hn H Hs Hmt Hp Hk.
  pose proof (rep_used_blocks b pkts H) as Hu. pose proof (blocks_of_bound pkts pmtu Hp) as Hb.
  pose proof (rep_input b pkts H) as Hi. pose proof (rep_end b pkts H) as (He0 & He1 & He2).
  rewrite calc_blocks_spec in Hs by lia. unfold INT_MAX in *.
  destruct (rep_core _ _ H) as [Hsz Hbuf Hmb Hst Hw Hub (p1 & p2 & _ & Hl)].
  destruct (Z.leb_spec ((1 + bdivide_up pmtu 4) * (num + 1)) 2147483647); [|lia].
  assert (Hk4 : pmtu <= 4 * bdivide_up pmtu 4) by (rewrite bdivide_up_4 by lia; dlia).
  assert (Hfree : bdivide_up pmtu 4 <= free_blocks b - 1).
  { unfold free_blocks in *. destruct (wrapped b) eqn:E.
    - rewrite (end_wrapped _ E) in *. destruct Hl as (_ & _ & Hl). nia.
    - lia. }
  destruct (Z.gtb_spec (free_blocks b) 0); [lia | lia].
Qed.

(** A buffer of [calc_blocks pmtu num] blocks accepts a packet of any
    length up to [pmtu] whenever it holds fewer than [num] packets of at most
    [pmtu] bytes: it never stalls below its nominal capacity.  [calc_blocks] is
    exact, or -1 when the count does not fit an [int]. *)
Theorem capacity (b : t) (pkts : list (list Z)) (pmtu num : Z)
    (Hm : 0 <= pmtu <= INT_MAX) (Hn : 0 < num <= INT_MAX) (H : rep b pkts)
    (Hs : size b = calc_blocks pmtu num) (Hmt : mtu b = bdivide_up pmtu 4)
    (Hp : Forall (fun d => zlen d <= pmtu) pkts) (Hk : zlen pkts < num) :
  pmtu <= input_avail b.
Proof. by apply (capacity_space b pkts pmtu num). Qed.

Lemma capacity_witness : 5 <= input_avail (Init (replicate 24 0) (calc_blocks 5 1) 5).
Proof.
  apply (capacity (Init (replicate 24 0) (calc_blocks 5 1) 5) [] 5 1);
    [vm_compute; split; congruence | vm_compute; split; congruence
    | apply Init_rep; vm_compute; congruence | reflexivity | reflexivity | constructor | done].
Defined.

End ChunkBuffer2.

(** ** The interface of a packet queue

    What [PacketBuffer] relies on: a first-in first-out queue of packets kept in
    one memory block, with a place for the next packet and the oldest packet
    exposed as pointers into the block.  [pf_config b pmtu num]: the queue was
    made for [num] packets of at most [pmtu] bytes. *)
Class PacketFifo (B : Type) := {
  pf_rep : B -> list (list Z) -> Prop;
  pf_config : B -> Z -> Z -> Prop;
  pf_mem : B -> list Z;
  pf_input_dest : B -> option Z;
  pf_input_avail : B -> Z;
  pf_output_dest : B -> option Z;
  pf_output_avail : B -> Z;
  pf_store {O} : list Z -> M B O unit;
  pf_set_mem : list Z -> B -> B;       (** the memory was written to *)
  pf_submit {O} : Z -> M B O unit;
  pf_consume {O} : M B O unit;
  pf_init : list Z -> Z -> Z -> option B;
  pf_alloc : Z -> Z -> Z;          (** bytes of memory [pf_init] needs *)

  pf_input b pkts n : pf_rep b pkts -> 0 <= n <= pf_input_avail b -> is_Some (pf_input_dest b);
  pf_output b pkts : pf_rep b pkts ->
    match pkts with
    | [] => pf_output_dest b = None /\ pf_output_avail b = -1
    | d :: _ => exists p, pf_output_dest b = Some p /\ pf_output_avail b = zlen d /\
                          mread (pf_mem b) p (zlen d) = d
    end;
  pf_store_spec {O} b pkts d p pmtu num : pf_rep b pkts -> pf_config b pmtu num ->
    pf_input_dest b = Some p -> zlen d <= pf_input_avail b ->
    wp (O:=O) (pf_store d) b (fun _ b' tr => tr = [] /\ pf_rep b' pkts /\ pf_config b' pmtu num /\
      pf_input_dest b' = Some p /\ pf_input_avail b' = pf_input_avail b /\
      pf_output_dest b' = pf_output_dest b /\ mread (pf_mem b') p (zlen d) = d);
  pf_submit_spec {O} b pkts d p pmtu num : pf_rep b pkts -> pf_config b pmtu num ->
    pf_input_dest b = Some p -> zlen d <= pf_input_avail b -> mread (pf_mem b) p (zlen d) = d ->
    wp (O:=O) (pf_submit (zlen d)) b (fun _ b' tr => tr = [] /\ pf_rep b' (pkts ++ [d]) /\
      pf_config b' pmtu num /\ (pkts <> [] -> pf_output_dest b' = pf_output_dest b));
  pf_consume_spec {O} b d ds pmtu num : pf_rep b (d :: ds) -> pf_config b pmtu num ->
    wp (O:=O) pf_consume b (fun _ b' tr => tr = [] /\ pf_rep b' ds /\ pf_config b' pmtu num /\
      (forall p, pf_input_dest b = Some p -> pf_input_dest b' = Some p) /\
      pf_input_avail b <= pf_input_avail b' /\ pf_mem b' = pf_mem b);
  pf_set_mem_spec b pkts m p pmtu num : pf_rep b pkts -> pf_config b pmtu num -> pf_input_dest b = Some p ->
    zlen m = zlen (pf_mem b) ->
    (forall k n, 0 <= k -> 0 <= n -> k + n <= p \/ p + pf_input_avail b <= k -> mread m k n = mread (pf_mem b) k n) ->
    let b' := pf_set_mem m b in
    pf_rep b' pkts /\ pf_config b' pmtu num /\ pf_mem b' = m /\ pf_input_dest b' = Some p /\
    pf_input_avail b' = pf_input_avail b /\ pf_output_dest b' = pf_output_dest b /\ pf_output_avail b' = pf_output_avail b;
  pf_room b pkts p : pf_rep b pkts -> pf_input_dest b = Some p -> 0 <= p /\ p + pf_input_avail b <= zlen (pf_mem b);
  pf_capacity b pkts pmtu num : pf_rep b pkts -> pf_config b pmtu num ->
    Forall (fun d => zlen d <= pmtu) pkts -> zlen pkts < num -> pmtu <= pf_input_avail b;
  pf_init_spec mem pmtu num : 0 <= pmtu <= INT_MAX -> 0 < num <= INT_MAX ->
    pf_alloc pmtu num <= INT_MAX ->
    if pf_alloc pmtu num <? 0 then pf_init mem pmtu num = None
    else zlen mem = pf_alloc pmtu num ->
         exists b, pf_init mem pmtu num = Some b /\ pf_rep b [] /\ pf_config b pmtu num;
}.

Module ChunkBuffer2_Fifo.
Import ChunkBuffer2.

Definition config (b : t) (pmtu num : Z) : Prop :=
  0 <= pmtu <= INT_MAX /\ 0 < num <= INT_MAX /\
  size b = calc_blocks pmtu num /\ mtu b = bdivide_up pmtu 4.

Lemma fifo_input b pkts n : rep b pkts -> 0 <= n <= input_avail b -> is_Some (input_dest b).
Proof. intros H Hn. destruct (rep_input_some b pkts n H Hn) as [p ->]. eauto. Qed.

Lemma output_dest_start b pkts : rep b pkts -> pkts <> [] -> output_dest b = Some (4 * (start b + 1)).
Proof.
  intros H Hne. rewrite (proj1 (rep_out _ _ H)). unfold _update_output.
  destruct (Z.gtb_spec (used b) 0); [done|]. pose proof (core_used _ _ (rep_core _ _ H)).
  destruct Hne. apply (rep_empty _ _ H). lia.
Qed.

Lemma fifo_output b pkts : rep b pkts ->
  match pkts with
  | [] => output_dest b = None /\ output_avail b = -1
  | d :: _ => exists p, output_dest b = Some p /\ output_avail b = zlen d /\
                        mread (buffer b) p (zlen d) = d
  end.
Proof.
  intros H. destruct (rep_output b pkts H) as [Ho Ha]. unfold output_packet in Ho.
  destruct pkts as [|d ds].
  - split; [|done]. by destruct (output_dest b).
  - rewrite (output_dest_start _ _ H) in * by done. rewrite Ha in Ho. injection Ho as Ho. eauto.
Qed.

Section Laws.
Context {O : Type}.

Lemma fifo_store b pkts d p pmtu num : rep b pkts -> config b pmtu num ->
  input_dest b = Some p -> zlen d <= input_avail b ->
  wp (O:=O) (StoreInput d) b (fun _ b' tr => tr = [] /\ rep b' pkts /\ config b' pmtu num /\
    input_dest b' = Some p /\ input_avail b' = input_avail b /\
    output_dest b' = output_dest b /\ mread (buffer b') p (zlen d) = d).
Proof.
  intros H Hc Hp Hd. destruct (rep_store b pkts d p H Hp Hd) as (H0 & H1 & H2).
  unfold StoreInput. wp_step. wp_step. rewrite Hp. wp_step. wp_step.
  { pose proof (zlen_nonneg d). lia. }
  wp_step. split_and!; try done. apply mread_mwrite_same; lia.
Qed.

Lemma fifo_submit b pkts d p pmtu num : rep b pkts -> config b pmtu num ->
  input_dest b = Some p -> zlen d <= input_avail b -> mread (buffer b) p (zlen d) = d ->
  wp (O:=O) (SubmitPacket (zlen d)) b (fun _ b' tr => tr = [] /\ rep b' (pkts ++ [d]) /\
    config b' pmtu num /\ (pkts <> [] -> output_dest b' = output_dest b)).
Proof.
  intros H Hc Hp Hd Hm. eapply wp_mono; [by apply (SubmitPacket_wp b pkts d p)|].
  intros _ b' tr (-> & R & Hs & Hmt & Hst). split_and!; [done | done | | ].
  - unfold config in *. by rewrite Hs, Hmt.
  - intros Hne. rewrite (output_dest_start _ _ H Hne), <- Hst.
    apply (output_dest_start _ _ R). by destruct pkts.
Qed.

Lemma fifo_consume b d ds pmtu num : rep b (d :: ds) -> config b pmtu num ->
  wp (O:=O) ConsumePacket b (fun _ b' tr => tr = [] /\ rep b' ds /\ config b' pmtu num /\
    (forall p, input_dest b = Some p -> input_dest b' = Some p) /\ input_avail b <= input_avail b' /\ buffer b' = buffer b).
Proof.
  intros H Hc. eapply wp_mono; [by apply (ConsumePacket_wp b d ds)|].
  intros _ b' tr (-> & R & Hs & Hmt & He & Hf & Hbf). pose proof (rep_input _ _ H) as I.
  pose proof (rep_input _ _ R) as I'. rewrite He in I'.
  split_and!; [done | done | unfold config in *; by rewrite Hs, Hmt | | | done].
  - intros p Hp. destruct (Z.gtb_spec (free_blocks b) 0), (Z.gtb_spec (free_blocks b') 0);
      destruct I, I'; try lia; congruence.
  - destruct (Z.gtb_spec (free_blocks b) 0), (Z.gtb_spec (free_blocks b') 0); lia.
Qed.
End Laws.

Lemma fifo_set_mem b pkts m p pmtu num : rep b pkts -> config b pmtu num -> input_dest b = Some p ->
  zlen m = zlen (buffer b) ->
  (forall k n, 0 <= k -> 0 <= n -> k + n <= p \/ p + input_avail b <= k -> mread m k n = mread (buffer b) k n) ->
  let b' := set_buffer m b in
  rep b' pkts /\ config b' pmtu num /\ buffer b' = m /\ input_dest b' = Some p /\
  input_avail b' = input_avail b /\ output_dest b' = output_dest b /\ output_avail b' = output_avail b.
Proof. intros H Hc Hp Hz Ha. destruct (rep_set_buffer b pkts p m H Hp Hz Ha) as (_ & _ & R). by split_and!. Qed.

Lemma fifo_room b pkts p : rep b pkts -> input_dest b = Some p -> 0 <= p /\ p + input_avail b <= zlen (buffer b).
Proof. intros H Hp. by destruct (rep_set_buffer b pkts p (buffer b) H Hp eq_refl) as (H0 & H1 & _). Qed.

Lemma fifo_capacity b pkts pmtu num : rep b pkts -> config b pmtu num ->
  Forall (fun d => zlen d <= pmtu) pkts -> zlen pkts < num -> pmtu <= input_avail b.
Proof. intros H (Hm & Hn & Hs & Hmt) Hp Hk. by apply (capacity_space b pkts pmtu num). Qed.

(** Allocation and initialisation as [PacketBuffer_Init] does them: [None] when
    the number of blocks does not fit an [int]. *)
Definition alloc (pmtu num : Z) : Z :=
  let n := calc_blocks pmtu num in if n <? 0 then -1 else n * sizeof_block.
Definition init (mem : list Z) (pmtu num : Z) : option t :=
  let n := calc_blocks pmtu num in if n <? 0 then None else Some (Init mem n pmtu).

Lemma fifo_init mem pmtu num : 0 <= pmtu <= INT_MAX -> 0 < num <= INT_MAX ->
  alloc pmtu num <= INT_MAX ->
  if alloc pmtu num <? 0 then init mem pmtu num = None
  else zlen mem = alloc pmtu num ->
       exists b, init mem pmtu num = Some b /\ rep b [] /\ config b pmtu num.
Proof.
  intros Hm Hn Ha. unfold alloc, init, sizeof_block in *.
  assert (Hb : 0 <= bdivide_up pmtu 4) by (rewrite bdivide_up_4 by lia; dlia).
  pose proof (calc_blocks_spec pmtu num Hm ltac:(lia)) as Hc. cbv zeta in Hc.
  set (n := calc_blocks pmtu num) in *.
  destruct (Z.ltb_spec n 0) as [|H0]; [done|]. destruct (Z.ltb_spec (n * 4) 0); [lia|]. intros Hz.
  destruct (Z.leb_spec ((1 + bdivide_up pmtu 4) * (num + 1)) INT_MAX); [|lia].
  destruct (Init_rep mem n pmtu) as (R & Hmt & Hs); [lia | lia | lia | nia |].
  eexists. split; [done|]. split; [done|]. unfold config. by rewrite Hs, Hmt.
Qed.

#[export] Instance fifo : PacketFifo t := {|
  pf_rep := rep;
  pf_config := config;
  pf_mem := buffer;
  pf_input_dest := input_dest;
  pf_input_avail := input_avail;
  pf_output_dest := output_dest;
  pf_output_avail := output_avail;
  pf_store O := StoreInput;
  pf_set_mem := set_buffer;
  pf_submit O := SubmitPacket;
  pf_consume O := ConsumePacket;
  pf_init := init;
  pf_alloc := alloc;
  pf_input := fifo_input;
  pf_output := fifo_output;
  pf_store_spec O := fifo_store;
  pf_submit_spec O := fifo_submit;
  pf_consume_spec O := fifo_consume;
  pf_set_mem_spec := fifo_set_mem;
  pf_room := fifo_room;
  pf_capacity := fifo_capacity;
  pf_init_spec := fifo_init;
|}.

End ChunkBuffer2_Fifo.
#[export] Existing Instance ChunkBuffer2_Fifo.fifo.
