(* ===== verification/BPending.v ===== *)
(** * BPending: the job queue

    Model of [badvpn/base/BPending.c] on the intrusive singly-headed list
    [badvpn/structure/SLinkedList_impl.h] (instantiated by
    [base/BPending_list.h] without the [last] feature).

    Jobs are identified by the address of their [BSmallPending] (a [Z]).  The
    [next] and [prev] links, the [handler]/[user] fields and the debug flag
    [pending] of the jobs are finite maps from addresses; reading a field that
    was never written is a fault.  A removed node is one whose [next] points to
    itself, as in the source.

    The refinement [pending_rep g l] says that the linked structure [g] holds
    the jobs [l], most recently set first.  [JobQueue] is the interface the flow
    components are verified against; the pointer structure is an instance. *)

From S2P Require Import Prelude.
Open Scope mon_scope.

(** ** The intrusive list *)

Module SLinkedList.

Record t := mk { first : option Z; next : gmap Z (option Z); prev : gmap Z Z }.

Definition set_first (p : option Z) (s : t) : t := mk p (next s) (prev s).
Definition set_next (e : Z) (p : option Z) (s : t) : t := mk (first s) (<[e := p]> (next s)) (prev s).
Definition set_prev (e : Z) (p : Z) (s : t) : t := mk (first s) (next s) (<[e := p]> (prev s)).

Section Ops.
Context {O : Type}.

Definition Init : M t O unit := modify (set_first None).
Definition MarkRemoved (e : Z) : M t O unit := modify (set_next e (Some e)).
Definition IsRemoved (e : Z) : M t O bool :=
  n <- load next e ;; ret (bool_decide (n = Some e)).
Definition First : M t O (option Z) := s <- get ;; ret (first s).
Definition IsEmpty : M t O bool := s <- get ;; ret (bool_decide (first s = None)).

Definition Prepend (e : Z) : M t O unit :=
  s <- get ;;
  modify (set_next e (first s)) ;;
  match first s with Some f => modify (set_prev f e) | None => ret tt end ;;
  modify (set_first (Some e)).

Definition Remove (e : Z) : M t O unit :=
  s <- get ;;
  if bool_decide (first s <> Some e) then
    p <- load prev e ;;
    n <- load next e ;;
    modify (set_next p n) ;;
    n' <- load next e ;;
    match n' with
    | Some y => q <- load prev e ;; modify (set_prev y q)
    | None => ret tt
    end
  else
    n <- load next e ;; modify (set_first n).

Definition RemoveFirst : M t O unit :=
  s <- get ;;
  match first s with
  | None => fail F_assert
  | Some f => n <- load next f ;; modify (set_first n)
  end.
End Ops.

(** The nodes [l] are linked through [next]/[prev]; [p] is the node before. *)
Fixpoint chain (s : t) (p : option Z) (l : list Z) : Prop :=
  match l with
  | [] => True
  | x :: l' =>
      next s !! x = Some (head l') /\
      match p with Some y => prev s !! x = Some y | None => True end /\
      chain s (Some x) l'
  end.

Record rep (s : t) (l : list Z) : Prop := mk_rep {
  rep_first : first s = head l;
  rep_chain : chain s None l;
  rep_nodup : NoDup l;
}.

Lemma chain_first s p l f : chain s p l <-> chain (set_first f s) p l.
Proof. revert p. induction l; intros; [done|]. cbn [chain]. by rewrite <- IHl. Qed.

Lemma chain_next s p l e q : e ∉ l -> chain s p l -> chain (set_next e q s) p l.
Proof.
  revert p. induction l as [|x l IH]; intros p He; [done|]. cbn [chain].
  apply not_elem_of_cons in He as [Hx Hl]. intros (H1 & H2 & H3).
  split; [cbn; by rewrite lookup_insert_ne|]. split; [done | by apply IH].
Qed.

Lemma chain_prev s p l e q : e ∉ l -> chain s p l -> chain (set_prev e q s) p l.
Proof.
  revert p. induction l as [|x l IH]; intros p He; [done|]. cbn [chain].
  apply not_elem_of_cons in He as [Hx Hl]. intros (H1 & H2 & H3).
  split; [done|]. split; [|by apply IH].
  destruct p; [|done]. cbn. by rewrite lookup_insert_ne.
Qed.

(** The head node's [prev] link is not constrained, so it may be set. *)
Lemma chain_prev_head s p y l : y ∉ l -> chain s None (y :: l) -> chain (set_prev y p s) (Some p) (y :: l).
Proof.
  intros Hy (H1 & _ & H3). cbn [chain]. split; [done|].
  split; [cbn; by rewrite lookup_insert_eq | by apply chain_prev].
Qed.

Lemma chain_weaken s p l : chain s p l -> chain s None l.
Proof. destruct l; [done|]. cbn [chain]. tauto. Qed.

Lemma chain_links s q l1 p x l2 :
  chain s q (l1 ++ p :: x :: l2) -> prev s !! x = Some p /\ next s !! x = Some (head l2).
Proof.
  revert q. induction l1 as [|a l1 IH]; intros q; cbn [app chain]; [tauto|].
  intros (_ & _ & H). by eapply IH.
Qed.

(** [s] after unlinking the node between [p] and the list [l2]. *)
Definition unlinked (s : t) (p : Z) (l2 : list Z) : t :=
  match head l2 with
  | Some y => set_prev y p (set_next p (head l2) s)
  | None => set_next p (head l2) s
  end.

Lemma chain_unlinked s q l1 p x l2 :
  NoDup (l1 ++ p :: x :: l2) -> chain s q (l1 ++ p :: x :: l2) ->
  chain (unlinked s p l2) q (l1 ++ p :: l2).
Proof.
  revert q. induction l1 as [|a l1 IH]; intros q; cbn [app]; rewrite NoDup_cons; intros [Hn Hd].
  - cbn [chain]. intros (H1 & H2 & H3 & H4 & H5). apply NoDup_cons in Hd as [_ Hd].
    apply not_elem_of_cons in Hn as [_ Hn]. unfold unlinked. destruct l2 as [|y l2]; cbn [head].
    + split; [cbn; by rewrite lookup_insert_eq | done].
    + apply not_elem_of_cons in Hn as [Hy Hn]. apply NoDup_cons in Hd as [Hyl Hd].
      split; [cbn; by rewrite lookup_insert_eq|].
      split; [destruct q; [cbn; by rewrite lookup_insert_ne | done]|].
      apply chain_prev_head; [done|]. apply chain_next; [by apply not_elem_of_cons|].
      by apply (chain_weaken _ (Some x)).
  - cbn [chain]. intros (H1 & H2 & H3). specialize (IH (Some a) Hd H3).
    assert (a <> p) by (intros ->; apply Hn, elem_of_app; right; left).
    assert (Hy : forall y, head l2 = Some y -> a <> y).
    { intros y Hy ->. apply Hn. destruct l2; [done|]. injection Hy as ->.
      apply elem_of_app. right. right. right. left. }
    split_and!; [| |done].
    + replace (head (l1 ++ p :: l2)) with (head (l1 ++ p :: x :: l2)) by (by destruct l1).
      unfold unlinked. destruct (head l2); cbn; by rewrite lookup_insert_ne.
    + destruct q; [|done]. unfold unlinked. destruct (head l2) eqn:E; cbn; [|done].
      rewrite lookup_insert_ne; [done | by apply not_eq_sym, Hy].
Qed.

Lemma sll_rep_head s f l : rep s (f :: l) -> first s = Some f /\ next s !! f = Some (head l) /\ rep (set_first (head l) s) l.
Proof.
  intros [Hf (Hn & _ & Hc) Hd]. apply NoDup_cons in Hd as [_ Hd]. split_and!; [done..|].
  split; [done | | done]. apply chain_first. by apply (chain_weaken _ (Some f)).
Qed.

(** A node in the list is not marked removed. *)
Lemma rep_next_not_self s l x : rep s l -> x ∈ l -> exists n, next s !! x = Some n /\ n <> Some x.
Proof.
  intros [_ Hc Hd]. revert Hc Hd. generalize (@None Z).
  induction l as [|y l IH]; intros q Hc Hd Hx; [by apply elem_of_nil in Hx|].
  apply NoDup_cons in Hd as [Hy Hd]. cbn [chain] in Hc. destruct Hc as (Hn & _ & Hc).
  apply elem_of_cons in Hx as [->|Hx]; [|by eapply IH].
  exists (head l). split; [done|]. intros E. apply Hy. destruct l; [done|]. injection E as ->. left.
Qed.

Section Specs.
Context {O : Type}.
Implicit Types (s : t) (l : list Z).

Lemma Prepend_wp s l e :
  rep s l -> e ∉ l ->
  wp (O:=O) (Prepend e) s (fun _ s' tr => tr = [] /\ rep s' (e :: l) /\
    forall z, z ∉ e :: l -> next s' !! z = next s !! z).
Proof.
  intros [Hf Hc Hd] He. unfold Prepend. do 4 wp_step.
  assert (Hc1 : chain (set_next e (first s) s) None l) by by apply chain_next.
  assert (Hne : forall z, z ∉ e :: l -> next (set_next e (first s) s) !! z = next s !! z).
  { intros z [Hz _]%not_elem_of_cons. cbn. by rewrite lookup_insert_ne. }
  rewrite Hf in *. destruct l as [|y l]; cbn [head] in *.
  - repeat wp_step. split; [done|]. split; [|exact Hne].
    split; [done| |by constructor]. cbn. by rewrite lookup_insert_eq.
  - apply NoDup_cons in Hd as Hd'. destruct Hd' as [Hy Hd']. repeat wp_step.
    split; [done|]. split; [|exact Hne]. split; [done| |by constructor].
    apply (chain_first (set_prev y e (set_next e (Some y) s))).
    split; [cbn; by rewrite lookup_insert_eq|]. split; [done|]. by apply chain_prev_head.
Qed.

Lemma Remove_wp s l1 e l2 :
  rep s (l1 ++ e :: l2) ->
  wp (O:=O) (Remove e) s (fun _ s' tr => tr = [] /\ rep s' (l1 ++ l2) /\
    forall z, z ∉ l1 -> next s' !! z = next s !! z).
Proof.
  intros H. destruct l1 as [|p l1 _] using rev_ind; cbn [app] in *.
  - destruct (sll_rep_head _ _ _ H) as (Hf & Hn & Hr). unfold Remove. do 2 wp_step.
    rewrite bool_decide_false by (intros HH; by apply HH). wp_step.
    apply (wp_load next _ _ _ _ Hn). wp_step. done.
  - rewrite <- app_assoc in H. cbn [app] in H. destruct H as [Hf Hc Hd].
    destruct (chain_links _ _ _ _ _ _ Hc) as [Hp Hn].
    assert (Hpe : p <> e).
    { intros ->. apply NoDup_app in Hd as (_ & _ & Hd). apply NoDup_cons in Hd as [Hd _].
      apply Hd. left. }
    assert (Hfe : first s <> Some e).
    { rewrite Hf. intros E. destruct l1 as [|a l1]; cbn in E; injection E as ->; [done|].
      cbn [app] in Hd. apply NoDup_cons in Hd as [Hd _]. apply Hd, elem_of_app. right. right. left. }
    unfold Remove. do 2 wp_step. rewrite bool_decide_true by done.
    wp_step. apply (wp_load prev _ _ _ _ Hp). wp_step. apply (wp_load next _ _ _ _ Hn).
    do 3 wp_step. apply (wp_load next _ _ (head l2)); [cbn; by rewrite lookup_insert_ne|].
    assert (Hr : rep (unlinked s p l2) ((l1 ++ [p]) ++ l2)).
    { rewrite <- app_assoc. split.
      - transitivity (first s); [by unfold unlinked; destruct (head l2)|]. rewrite Hf. by destruct l1.
      - by apply (chain_unlinked _ _ _ _ e).
      - apply NoDup_app in Hd as (Hd1 & Hd2 & Hd3). apply NoDup_app. split; [done|]. split.
        + intros x Hx Hx'. apply (Hd2 x Hx). apply elem_of_cons in Hx' as [->|?]; [left | by right; right].
        + apply NoDup_cons in Hd3 as [Hd3 Hd4]. apply NoDup_cons in Hd4 as [_ Hd4].
          apply NoDup_cons. split; [|done]. intros ?. apply Hd3. by right. }
    assert (Hz : forall z, z ∉ l1 ++ [p] -> next (unlinked s p l2) !! z = next s !! z).
    { intros z Hz. assert (z <> p) by (intros ->; apply Hz, elem_of_app; right; left).
      unfold unlinked. destruct (head l2); cbn; by rewrite lookup_insert_ne. }
    unfold unlinked in Hr, Hz. destruct (head l2); [|wp_step; done].
    wp_step. apply (wp_load prev _ _ p); [done|]. wp_step. done.
Qed.

Lemma RemoveFirst_wp s f l :
  rep s (f :: l) ->
  wp (O:=O) RemoveFirst s (fun _ s' tr => tr = [] /\ rep s' l /\ next s' = next s).
Proof.
  intros H. destruct (sll_rep_head _ _ _ H) as (Hf & Hn & Hr). unfold RemoveFirst. do 2 wp_step.
  rewrite Hf. wp_step. apply (wp_load next _ _ _ _ Hn). by wp_step.
Qed.
End Specs.

End SLinkedList.

(** ** Job groups *)

Module BPending.

(** The saturating leak counter of [misc/debugcounter.h]. *)
Definition DebugCounter_Free (c : Z) : bool := (c =? 0) || (c =? INT_MAX).
Definition DebugCounter_Increment (c : Z) : option Z :=
  if c >=? 0 then Some (if c =? INT_MAX then c else c + 1) else None.
Definition DebugCounter_Decrement (c : Z) : option Z :=
  if c >? 0 then Some (if c =? INT_MAX then c else c - 1) else None.

(** The counter counts [n] objects, or it is saturated. *)
Definition ctr_ok (c : Z) (n : nat) : Prop := c = Z.of_nat n \/ c = INT_MAX.

Lemma counter_inc c n : ctr_ok c n -> exists c', DebugCounter_Increment c = Some c' /\ ctr_ok c' (S n).
Proof.
  unfold ctr_ok, DebugCounter_Increment, INT_MAX. intros Hc. destruct (Z.geb_spec c 0); [|lia].
  eexists. split; [done|]. destruct (Z.eqb_spec c 2147483647); lia.
Qed.

Lemma counter_dec c n : ctr_ok c (S n) -> exists c', DebugCounter_Decrement c = Some c' /\ ctr_ok c' n.
Proof.
  unfold ctr_ok, DebugCounter_Decrement, INT_MAX. intros Hc. destruct (Z.gtb_spec c 0); [|lia].
  eexists. split; [done|]. destruct (Z.eqb_spec c 2147483647); lia.
Qed.

Lemma counter_free c n : ctr_ok c n -> n = 0%nat -> DebugCounter_Free c = true.
Proof. unfold ctr_ok, DebugCounter_Free, INT_MAX. lia. Qed.

Record group := mk {
  jobs : SLinkedList.t;
  handler : gmap Z (Z * Z);     (** [handler] and [user] of every job object *)
  pending : gmap Z bool;        (** the [pending] flag of debug builds *)
  pending_ctr : Z;              (** number of initialised job objects *)
}.

Definition set_jobs (j : SLinkedList.t) (g : group) : group :=
  mk j (handler g) (pending g) (pending_ctr g).
Definition set_handler (o : Z) (h : Z * Z) (g : group) : group :=
  mk (jobs g) (<[o := h]> (handler g)) (pending g) (pending_ctr g).
Definition set_pending (o : Z) (b : bool) (g : group) : group :=
  mk (jobs g) (handler g) (<[o := b]> (pending g)) (pending_ctr g).
Definition set_ctr (n : Z) (g : group) : group :=
  mk (jobs g) (handler g) (pending g) n.

Section Ops.
Context {O : Type}.

Definition on_jobs {A} (m : M SLinkedList.t O A) : M group O A := zoom jobs set_jobs m.

Definition count (f : Z -> option Z) : M group O unit :=
  g <- get ;;
  match f (pending_ctr g) with Some c => modify (set_ctr c) | None => fail F_assert end.

Definition BPendingGroup_Init : M group O unit :=
  on_jobs SLinkedList.Init ;; modify (set_ctr 0).

Definition BPendingGroup_Free : M group O unit :=
  g <- get ;;
  assert (DebugCounter_Free (pending_ctr g)) ;;
  e <- on_jobs SLinkedList.IsEmpty ;;
  assert e.

Definition BPendingGroup_HasJobs : M group O bool :=
  e <- on_jobs SLinkedList.IsEmpty ;; ret (negb e).

(** The job that is taken off the list, and the [handler] and [user] it
    tail-calls. *)
Definition BPendingGroup_ExecuteJob : M group O (Z * (Z * Z)) :=
  e <- on_jobs SLinkedList.IsEmpty ;;
  assert (negb e) ;;
  f <- on_jobs SLinkedList.First ;;
  match f with
  | None => fail F_bounds
  | Some p =>
      r <- on_jobs (SLinkedList.IsRemoved p) ;;
      assert (negb r) ;;
      pd <- load pending p ;;
      assert pd ;;
      on_jobs SLinkedList.RemoveFirst ;;
      on_jobs (SLinkedList.MarkRemoved p) ;;
      modify (set_pending p false) ;;
      h <- load handler p ;;
      ret (p, h)
  end.

Definition BPendingGroup_PeekJob : M group O (option Z) := on_jobs SLinkedList.First.

Definition BSmallPending_Init (o : Z) (h : Z * Z) : M group O unit :=
  modify (set_handler o h) ;;
  on_jobs (SLinkedList.MarkRemoved o) ;;
  modify (set_pending o false) ;;
  count DebugCounter_Increment.

(** [ASSERT(o->pending == !BPending__ListIsRemoved(o))] *)
Definition assert_pending (o : Z) : M group O unit :=
  pd <- load pending o ;;
  r <- on_jobs (SLinkedList.IsRemoved o) ;;
  assert (Bool.eqb pd (negb r)).

Definition BSmallPending_Free (o : Z) : M group O unit :=
  count DebugCounter_Decrement ;;
  assert_pending o ;;
  r <- on_jobs (SLinkedList.IsRemoved o) ;;
  when negb r do on_jobs (SLinkedList.Remove o).

Definition BSmallPending_SetHandler (o : Z) (h : Z * Z) : M group O unit :=
  modify (set_handler o h).

Definition BSmallPending_Set (o : Z) : M group O unit :=
  assert_pending o ;;
  r <- on_jobs (SLinkedList.IsRemoved o) ;;
  (when negb r do on_jobs (SLinkedList.Remove o)) ;;
  on_jobs (SLinkedList.Prepend o) ;;
  modify (set_pending o true).

Definition BSmallPending_Unset (o : Z) : M group O unit :=
  assert_pending o ;;
  r <- on_jobs (SLinkedList.IsRemoved o) ;;
  if negb r then
    on_jobs (SLinkedList.Remove o) ;;
    on_jobs (SLinkedList.MarkRemoved o) ;;
    modify (set_pending o false)
  else ret tt.

Definition BSmallPending_IsSet (o : Z) : M group O bool :=
  assert_pending o ;;
  r <- on_jobs (SLinkedList.IsRemoved o) ;;
  ret (negb r).
End Ops.

(** ** Abstraction: a list of pending jobs, most recent first *)

Definition job_remove (o : Z) (l : list Z) : list Z := filter (fun x => x <> o) l.

(** [H]: the initialised jobs with their handlers; [l]: the pending ones. *)
Record linked (g : group) (H : gmap Z (Z * Z)) (l : list Z) : Prop := mk_linked {
  pr_list : SLinkedList.rep (jobs g) l;
  pr_handler o h : H !! o = Some h -> handler g !! o = Some h;
  pr_pending o : is_Some (H !! o) -> pending g !! o = Some (bool_decide (o ∈ l));
  pr_removed o : is_Some (H !! o) -> o ∉ l -> SLinkedList.next (jobs g) !! o = Some (Some o);
  pr_init o : o ∈ l -> is_Some (H !! o);
}.

Record pending_rep (g : group) (H : gmap Z (Z * Z)) (l : list Z) : Prop := mk_pending_rep {
  pr_linked :> linked g H l;
  pr_ctr : ctr_ok (pending_ctr g) (size H);
}.

Lemma job_remove_not_in o l : o ∉ l -> job_remove o l = l.
Proof.
  unfold job_remove. induction l as [|x l IH]; [done|]. intros [Hx Hl]%not_elem_of_cons.
  rewrite filter_cons_True by congruence. by rewrite IH.
Qed.

Lemma job_remove_app o l1 l2 : NoDup (l1 ++ o :: l2) -> job_remove o (l1 ++ o :: l2) = l1 ++ l2.
Proof.
  intros (_ & Hd & Hn)%NoDup_app. apply NoDup_cons in Hn as [Hn _].
  unfold job_remove. rewrite filter_app, filter_cons_False by congruence.
  f_equal; apply job_remove_not_in; [|done]. intros Ho. apply (Hd o Ho). left.
Qed.

Lemma elem_of_job_remove x o l : x ∈ job_remove o l <-> x <> o /\ x ∈ l.
Proof. unfold job_remove. by rewrite list_elem_of_filter. Qed.

Lemma wp_on_jobs {O A} (m : M SLinkedList.t O A) g Q :
  wp m (jobs g) (fun a j tr => Q a (set_jobs j g) tr) -> wp (on_jobs m) g Q.
Proof. intros H. apply wp_zoom. unfold wp in H. by destruct (m (jobs g)). Qed.

Section Specs.
Context {O : Type}.
Implicit Types (g : group) (H : gmap Z (Z * Z)) (l : list Z).

Lemma removed_spec g H l o (Q : bool -> group -> list O -> Prop) :
  linked g H l -> is_Some (H !! o) ->
  Q (bool_decide (o ∉ l)) g [] -> wp (on_jobs (SLinkedList.IsRemoved o)) g Q.
Proof.
  intros R Ho HQ. apply wp_on_jobs. unfold SLinkedList.IsRemoved. wp_step.
  destruct (decide (o ∈ l)) as [Hi|Hi].
  - destruct (SLinkedList.rep_next_not_self _ _ _ (pr_list _ _ _ R) Hi) as (n & Hn & Hne).
    apply (wp_load _ _ _ _ _ Hn). wp_step. rewrite bool_decide_false in HQ by auto.
    rewrite bool_decide_false by done. by destruct g.
  - apply (wp_load _ _ _ _ _ (pr_removed _ _ _ R o Ho Hi)). wp_step.
    rewrite bool_decide_true in HQ by done. rewrite bool_decide_true by done. by destruct g.
Qed.

Lemma assert_pending_wp g H l o (Q : unit -> group -> list O -> Prop) :
  linked g H l -> is_Some (H !! o) -> Q tt g [] -> wp (assert_pending o) g Q.
Proof.
  intros R Ho HQ. unfold assert_pending. wp_step.
  apply (wp_load _ _ _ _ _ (pr_pending _ _ _ R o Ho)). wp_step.
  eapply removed_spec; [apply R | done |]. wp_step; [|done].
  apply eqb_true_iff. by destruct (decide (o ∈ l)); repeat case_bool_decide.
Qed.

(** Rebuilding the relation after the list and flags of one job changed. *)
Lemma pending_rep_update g H l l' j o :
  pending_rep g H l -> is_Some (H !! o) -> SLinkedList.rep j l' ->
  (forall x, x <> o -> x ∈ l' <-> x ∈ l) ->
  (forall x, x ∉ l -> x <> o -> SLinkedList.next j !! x = SLinkedList.next (jobs g) !! x) ->
  (o ∉ l' -> SLinkedList.next j !! o = Some (Some o)) ->
  pending_rep (set_pending o (bool_decide (o ∈ l')) (set_jobs j g)) H l'.
Proof.
  intros R Ho Hj Hl Hn Hr. split; [|apply R]. split; cbn; [done | apply R | | |].
  - intros x Hx. destruct (decide (x = o)) as [->|]; [by rewrite lookup_insert_eq|].
    rewrite lookup_insert_ne by done. rewrite (pr_pending _ _ _ R x Hx). f_equal.
    apply bool_decide_ext. symmetry. by apply Hl.
  - intros x Hx Hxl. destruct (decide (x = o)) as [->|]; [by apply Hr|].
    assert (x ∉ l) by (rewrite <- Hl; done). rewrite Hn by done. by apply (pr_removed _ _ _ R).
  - intros x Hx. destruct (decide (x = o)) as [->|]; [done|]. apply (pr_init _ _ _ R). by apply Hl.
Qed.

Lemma remove_wp j l o (Q : unit -> SLinkedList.t -> list O -> Prop) :
  SLinkedList.rep j l -> o ∈ l ->
  (forall j', SLinkedList.rep j' (job_remove o l) ->
     (forall z, z ∉ l -> SLinkedList.next j' !! z = SLinkedList.next j !! z) -> Q tt j' []) ->
  wp (SLinkedList.Remove o) j Q.
Proof.
  intros R (l1 & l2 & ->)%list_elem_of_split HQ.
  eapply wp_mono; [by apply (SLinkedList.Remove_wp j l1 o l2)|].
  intros [] j' tr (-> & R' & Hn). apply HQ.
  - rewrite job_remove_app; [done | apply (SLinkedList.rep_nodup _ _ R)].
  - intros z Hz. apply Hn. intros ?. apply Hz, elem_of_app. by left.
Qed.

Lemma BSmallPending_Set_wp g H l o :
  pending_rep g H l -> is_Some (H !! o) ->
  wp (O:=O) (BSmallPending_Set o) g (fun _ g' tr => tr = [] /\ pending_rep g' H (o :: job_remove o l)).
Proof.
  intros R Ho. unfold BSmallPending_Set.
  wp_step. eapply assert_pending_wp; [apply R | done |]. wp_step. eapply removed_spec; [apply R | done |]. wp_step.
  enough (Hp : forall j, SLinkedList.rep j (job_remove o l) ->
    (forall z, z ∉ l -> SLinkedList.next j !! z = SLinkedList.next (jobs g) !! z) ->
    wp (O:=O) (on_jobs (SLinkedList.Prepend o) ;; modify (set_pending o true)) (set_jobs j g)
      (fun _ g' tr => tr = [] /\ pending_rep g' H (o :: job_remove o l))).
  { destruct (decide (o ∈ l)) as [Hi|Hi].
    - rewrite bool_decide_false by auto. cbn [negb]. apply wp_on_jobs.
      eapply remove_wp; [apply R | done|]. intros j' R' Hn. by apply Hp.
    - rewrite bool_decide_true by done. cbn [negb]. wp_step.
      replace g with (set_jobs (jobs g) g) at 1 by (by destruct g).
      apply Hp; [rewrite job_remove_not_in by done; apply R | done]. }
  intros j Rj Hn. wp_step. apply wp_on_jobs.
  eapply wp_mono; [apply (SLinkedList.Prepend_wp _ (job_remove o l)); [done|]|].
  { rewrite elem_of_job_remove. tauto. }
  intros _ j' tr (-> & R' & Hn'). wp_step. split; [done|]. cbn [jobs set_jobs] in *.
  rewrite <- (bool_decide_true (o ∈ o :: job_remove o l)) by left.
  eapply (pending_rep_update g H l); try done.
  - intros x Hx. rewrite elem_of_cons, elem_of_job_remove. tauto.
  - intros x Hx Hxo. rewrite Hn', Hn; [done..|]. rewrite not_elem_of_cons, elem_of_job_remove. tauto.
  - intros Ho'. destruct Ho'. left.
Qed.

Lemma BSmallPending_Unset_wp g H l o :
  pending_rep g H l -> is_Some (H !! o) ->
  wp (O:=O) (BSmallPending_Unset o) g (fun _ g' tr => tr = [] /\ pending_rep g' H (job_remove o l)).
Proof.
  intros R Ho. unfold BSmallPending_Unset, SLinkedList.MarkRemoved.
  wp_step. eapply assert_pending_wp; [apply R | done |]. wp_step. eapply removed_spec; [apply R | done |].
  destruct (decide (o ∈ l)) as [Hi|Hi].
  - rewrite bool_decide_false by auto. cbn [negb]. wp_step. apply wp_on_jobs.
    eapply remove_wp; [apply R | done|]. intros j' R' Hn. wp_step. apply wp_on_jobs.
    wp_step. wp_step. split; [done|]. cbn [jobs set_jobs] in *.
    assert (Hno : o ∉ job_remove o l) by (rewrite elem_of_job_remove; tauto).
    rewrite <- (bool_decide_false (o ∈ job_remove o l)) by done.
    eapply (pending_rep_update g H l); try done.
    + destruct R' as [R1 R2 R3]. split; [done | by apply SLinkedList.chain_next | done].
    + intros x Hx. rewrite elem_of_job_remove. tauto.
    + intros x Hx Hxo. cbn. rewrite lookup_insert_ne by done. by apply Hn.
    + intros _. cbn. by rewrite lookup_insert_eq.
  - rewrite bool_decide_true by done. cbn [negb]. wp_step. by rewrite job_remove_not_in.
Qed.

Lemma BSmallPending_IsSet_wp g H l o :
  pending_rep g H l -> is_Some (H !! o) ->
  wp (O:=O) (BSmallPending_IsSet o) g
    (fun r g' tr => tr = [] /\ g' = g /\ r = bool_decide (o ∈ l)).
Proof.
  intros R Ho. unfold BSmallPending_IsSet.
  wp_step. eapply assert_pending_wp; [apply R | done |]. wp_step. eapply removed_spec; [apply R | done |]. wp_step.
  split_and!; [done..|]. destruct (decide (o ∈ l)); by repeat case_bool_decide.
Qed.

Lemma HasJobs_wp g H l :
  pending_rep g H l ->
  wp (O:=O) BPendingGroup_HasJobs g (fun r g' tr => tr = [] /\ g' = g /\ r = bool_decide (l <> [])).
Proof.
  intros R. unfold BPendingGroup_HasJobs. wp_step. apply wp_on_jobs. unfold SLinkedList.IsEmpty.
  repeat wp_step. split; [done|]. split; [by destruct g|].
  rewrite (SLinkedList.rep_first _ _ (pr_list _ _ _ R)). by destruct l.
Qed.

Lemma PeekJob_wp g H l :
  pending_rep g H l ->
  wp (O:=O) BPendingGroup_PeekJob g (fun r g' tr => tr = [] /\ g' = g /\ r = head l).
Proof.
  intros R. unfold BPendingGroup_PeekJob. apply wp_on_jobs. unfold SLinkedList.First. repeat wp_step.
  split; [done|]. split; [by destruct g|]. exact (SLinkedList.rep_first _ _ (pr_list _ _ _ R)).
Qed.

Lemma ExecuteJob_wp g H p l :
  pending_rep g H (p :: l) ->
  wp (O:=O) BPendingGroup_ExecuteJob g
    (fun r g' tr => tr = [] /\ pending_rep g' H l /\ r.1 = p /\ H !! p = Some r.2).
Proof.
  intros R. pose proof (SLinkedList.rep_first _ _ (pr_list _ _ _ R)) as Hf.
  assert (Hp : is_Some (H !! p)) by (apply (pr_init _ _ _ R); left).
  assert (Hpl : p ∉ l) by (apply NoDup_cons; apply (SLinkedList.rep_nodup _ _ (pr_list _ _ _ R))).
  destruct Hp as [h Hh]. unfold BPendingGroup_ExecuteJob, SLinkedList.IsEmpty,
    SLinkedList.First, SLinkedList.MarkRemoved.
  wp_step. apply wp_on_jobs. repeat wp_step.
  { rewrite Hf. by apply negb_true_iff, bool_decide_eq_false. }
  apply wp_on_jobs. repeat wp_step. cbn [jobs set_jobs]. rewrite Hf. cbn [head].
  replace (set_jobs _ (set_jobs _ g)) with g by (by destruct g).
  wp_step. eapply removed_spec; [apply R | done |]. rewrite bool_decide_false by (intros []; left).
  repeat wp_step; [done|].
  apply (wp_load _ _ _ _ _ (pr_pending _ _ _ R p (mk_is_Some _ _ Hh))).
  rewrite bool_decide_true by left. repeat wp_step; [done|]. apply wp_on_jobs.
  eapply wp_mono; [by apply (SLinkedList.RemoveFirst_wp _ p l), R|].
  intros _ j tr (-> & R' & Hn). wp_step. apply wp_on_jobs. repeat wp_step.
  eapply wp_load; [cbn; by apply (pr_handler _ _ _ R)|]. wp_step.
  split; [done|]. split; [|done]. cbn [jobs set_jobs] in *.
  rewrite <- (bool_decide_false (p ∈ l)) by done.
  eapply (pending_rep_update g H (p :: l)); try done.
  - destruct R' as [R1 R2 R3]. split; [done | by apply SLinkedList.chain_next | done].
  - intros x Hx. rewrite elem_of_cons. tauto.
  - intros x Hx Hxo. cbn. rewrite lookup_insert_ne by done. by rewrite Hn.
  - intros _. cbn. by rewrite lookup_insert_eq.
Qed.

Lemma count_inc_wp g n (Q : unit -> group -> list O -> Prop) :
  ctr_ok (pending_ctr g) n ->
  (forall c, ctr_ok c (S n) -> Q tt (set_ctr c g) []) ->
  wp (count DebugCounter_Increment) g Q.
Proof.
  intros (c & E & Hc)%counter_inc HQ. unfold count. do 2 wp_step. rewrite E. wp_step. by apply HQ.
Qed.

Lemma count_dec_wp g n (Q : unit -> group -> list O -> Prop) :
  ctr_ok (pending_ctr g) (S n) ->
  (forall c, ctr_ok c n -> Q tt (set_ctr c g) []) ->
  wp (count DebugCounter_Decrement) g Q.
Proof.
  intros (c & E & Hc)%counter_dec HQ. unfold count. do 2 wp_step. rewrite E. wp_step. by apply HQ.
Qed.

Lemma BSmallPending_Init_wp g H l o h :
  pending_rep g H l -> H !! o = None ->
  wp (O:=O) (BSmallPending_Init o h) g (fun _ g' tr => tr = [] /\ pending_rep g' (<[o := h]> H) l).
Proof.
  intros R Ho. assert (Hol : o ∉ l) by (intros [? ?]%(pr_init _ _ _ R); congruence).
  unfold BSmallPending_Init, SLinkedList.MarkRemoved. repeat wp_step. apply wp_on_jobs. repeat wp_step.
  apply (count_inc_wp _ (size H)); [apply R|]. intros c Hc. split; [done|].
  split; [split; cbn | cbn; by rewrite map_size_insert_None].
  - destruct (pr_list _ _ _ R) as [R1 R2 R3]. split; [done | by apply SLinkedList.chain_next | done].
  - intros x hx. destruct (decide (x = o)) as [->|]; [by rewrite !lookup_insert_eq|].
    rewrite !lookup_insert_ne by done. apply R.
  - intros x Hx. destruct (decide (x = o)) as [->|];
      [by rewrite lookup_insert_eq, bool_decide_false|].
    rewrite lookup_insert_ne in Hx by done. rewrite lookup_insert_ne by done. by apply R.
  - intros x Hx Hxl. destruct (decide (x = o)) as [->|]; [by rewrite lookup_insert_eq|].
    rewrite lookup_insert_ne in Hx by done. rewrite lookup_insert_ne by done. by apply R.
  - intros x Hx. apply (pr_init _ _ _ R) in Hx. destruct (decide (x = o)) as [->|];
      [by rewrite lookup_insert_eq | by rewrite lookup_insert_ne].
Qed.

Lemma BSmallPending_Free_wp g H l o :
  pending_rep g H l -> is_Some (H !! o) ->
  wp (O:=O) (BSmallPending_Free o) g
    (fun _ g' tr => tr = [] /\ pending_rep g' (delete o H) (job_remove o l)).
Proof.
  intros R Ho. unfold BSmallPending_Free. wp_step.
  apply (count_dec_wp _ (size (delete o H))).
  { rewrite (map_size_delete_Some _ _ Ho). destruct Ho as [h Ho].
    assert (size H <> 0%nat) by (intros E%map_size_empty_inv; subst H; by rewrite lookup_empty in Ho).
    destruct (pr_ctr _ _ _ R); [left; lia | by right]. }
  intros c Hc. assert (R1 : linked (set_ctr c g) H l) by (destruct R as [[] _]; by split).
  wp_step. eapply assert_pending_wp; [done..|]. wp_step. eapply removed_spec; [done..|].
  enough (Hp : forall j, SLinkedList.rep j (job_remove o l) ->
    (forall z, z ∉ l -> SLinkedList.next j !! z = SLinkedList.next (jobs g) !! z) ->
    pending_rep (set_jobs j (set_ctr c g)) (delete o H) (job_remove o l)).
  { destruct (decide (o ∈ l)) as [Hi|Hi].
    - rewrite bool_decide_false by auto. cbn [negb]. apply wp_on_jobs.
      eapply remove_wp; [apply R1 | done|]. intros j' R' Hn. split; [done | by apply Hp].
    - rewrite bool_decide_true by done. cbn [negb]. wp_step. split; [done|].
      apply (Hp (jobs g)); [rewrite job_remove_not_in by done; apply R | done]. }
  intros j Rj Hn. split; [split | done]; cbn.
  - done.
  - intros x hx [_ Hx]%lookup_delete_Some. by apply R.
  - intros x [hx [Hxo Hx]%lookup_delete_Some].
    rewrite (pr_pending _ _ _ R) by done. f_equal. apply bool_decide_ext.
    rewrite elem_of_job_remove. split; [done | tauto].
  - intros x [hx [Hxo Hx]%lookup_delete_Some] Hxl. rewrite elem_of_job_remove in Hxl.
    rewrite Hn by (intros ?; apply Hxl; done). apply R; [done|]. intros ?. by apply Hxl.
  - intros x [Hxo Hx]%elem_of_job_remove. rewrite lookup_delete_ne by done. by apply (pr_init _ _ _ R).
Qed.
End Specs.

(** ** Sequences of operations *)

Inductive cmd :=
  | CInit (o : Z) (h : Z * Z)
  | CFree (o : Z)
  | CSet (o : Z)
  | CUnset (o : Z)
  | CExecute.

Definition job := (Z * (Z * Z))%type.

Definition run_cmd {O} (c : cmd) : M group O (option job) :=
  match c with
  | CInit o h => BSmallPending_Init o h ;; ret None
  | CFree o => BSmallPending_Free o ;; ret None
  | CSet o => BSmallPending_Set o ;; ret None
  | CUnset o => BSmallPending_Unset o ;; ret None
  | CExecute => j <- BPendingGroup_ExecuteJob ;; ret (Some j)
  end.

Fixpoint run_cmds {O} (cs : list cmd) : M group O (list job) :=
  match cs with
  | [] => ret []
  | c :: cs' => r <- run_cmd c ;; rs <- run_cmds cs' ;; ret (option_list r ++ rs)
  end.

(** The promise of the header file: initialised jobs and a stack of set ones. *)
Definition spec_cmd (c : cmd) (st : gmap Z (Z * Z) * list Z) :
    option (gmap Z (Z * Z) * list Z * option job) :=
  let '(H, l) := st in
  match c with
  | CInit o h => match H !! o with Some _ => None | None => Some (<[o := h]> H, l, None) end
  | CFree o => match H !! o with Some _ => Some (delete o H, job_remove o l, None) | None => None end
  | CSet o => match H !! o with Some _ => Some (H, o :: job_remove o l, None) | None => None end
  | CUnset o => match H !! o with Some _ => Some (H, job_remove o l, None) | None => None end
  | CExecute =>
      match l with
      | [] => None
      | p :: l' => h ← H !! p; Some (H, l', Some (p, h))
      end
  end.

Fixpoint spec_cmds (cs : list cmd) (st : gmap Z (Z * Z) * list Z) :
    option (gmap Z (Z * Z) * list Z * list job) :=
  match cs with
  | [] => Some (st, [])
  | c :: cs' =>
      '(st1, r) ← spec_cmd c st;
      '(st2, rs) ← spec_cmds cs' st1;
      Some (st2, option_list r ++ rs)
  end.

Lemma run_cmd_refines {O} c g st st' r :
  pending_rep g st.1 st.2 -> spec_cmd c st = Some (st', r) ->
  wp (O:=O) (run_cmd c) g (fun r' g' tr => tr = [] /\ r' = r /\ pending_rep g' st'.1 st'.2).
Proof.
  destruct st as [H l]. cbn [fst snd]. intros R. destruct c as [o h|o|o|o|]; cbn [run_cmd spec_cmd].
  5: { destruct l as [|p l]; [done|]. destruct (H !! p) as [h|] eqn:E; cbn; intros [= <- <-].
       wp_step. eapply wp_mono; [by apply (ExecuteJob_wp g H p l)|].
       intros [q hq] g' tr (-> & R' & Hq & Hh). cbn in Hq, Hh. subst q. wp_step.
       split_and!; [done | congruence | done]. }
  all: destruct (H !! o) as [h'|] eqn:E; try done; intros [= <- <-]; wp_step; eapply wp_mono.
  all: try by (apply BSmallPending_Init_wp).
  all: try by (apply BSmallPending_Free_wp).
  all: try by (apply BSmallPending_Set_wp).
  all: try by (apply BSmallPending_Unset_wp).
  all: intros _ g' tr (-> & R'); by wp_step.
Qed.

Lemma run_cmds_refines {O} cs g st st' rs :
  pending_rep g st.1 st.2 -> spec_cmds cs st = Some (st', rs) ->
  wp (O:=O) (run_cmds cs) g (fun r' g' tr => tr = [] /\ r' = rs /\ pending_rep g' st'.1 st'.2).
Proof.
  revert g st rs. induction cs as [|c cs IH]; intros g st rs R; cbn [run_cmds spec_cmds].
  - intros [= <- <-]. by wp_step.
  - destruct (spec_cmd c st) as [[st1 r]|] eqn:E1; cbn; [|done].
    destruct (spec_cmds cs st1) as [[st2 rs2]|] eqn:E2; cbn; [|done]. intros [= <- <-].
    wp_step. eapply wp_mono; [by eapply run_cmd_refines|]. intros r' g1 tr (-> & -> & R1).
    wp_step. eapply wp_mono; [by eapply IH|]. intros rs' g2 tr (-> & -> & R2). by wp_step.
Qed.

Lemma group_init_rep {O} g :
  wp (O:=O) BPendingGroup_Init g (fun _ g' tr => tr = [] /\ pending_rep g' ∅ []).
Proof.
  unfold BPendingGroup_Init, SLinkedList.Init. wp_step. apply wp_on_jobs. repeat wp_step.
  split; [done|]. split; [split|by left]; cbn; try (intros o; rewrite lookup_empty).
  - split; [done | done | constructor].
  - done.
  - by intros [? ?].
  - by intros [? ?].
  - by intros ?%elem_of_nil.
Qed.

Lemma group_free_wp {O} g :
  pending_rep g ∅ [] -> wp (O:=O) BPendingGroup_Free g (fun _ g' tr => tr = [] /\ g' = g).
Proof.
  intros R. unfold BPendingGroup_Free. do 4 wp_step; [by apply (counter_free _ _ (pr_ctr _ _ _ R))|].
  wp_step. apply wp_on_jobs. unfold SLinkedList.IsEmpty. repeat wp_step.
  - by rewrite (SLinkedList.rep_first _ _ (pr_list _ _ _ R)).
  - by destruct g.
Qed.

(** C31. For every sequence of job operations that respects the documented
    preconditions (initialise before use, execute only when a job is set), the
    linked-list implementation never fails an assertion or follows a stale
    link, executes the jobs in exactly the order of the abstract stack (most
    recently set first, a re-set job moves to the front, an unset or freed one
    never runs), and calls the handler and user pointer each was given. *)
Theorem job_queue_refines_stack {O} (g : group) (cs : list cmd) st rs
    (Hspec : spec_cmds cs (∅, []) = Some (st, rs)) :
  wp (O:=O) (BPendingGroup_Init ;; run_cmds cs) g
    (fun rs' g' tr => tr = [] /\ rs' = rs /\ pending_rep g' st.1 st.2).
Proof.
  wp_step. eapply wp_mono; [apply group_init_rep|]. intros _ g1 tr (-> & R).
  by apply (run_cmds_refines cs g1 (∅, []) st rs).
Qed.

Lemma job_queue_refines_stack_witness :
  let cs := [CInit 1 (10, 0); CInit 2 (20, 0); CInit 3 (30, 0); CSet 1; CSet 2; CSet 3; CSet 1;
             CUnset 2; CExecute; CFree 2; CExecute] in
  wp (O:=unit) (BPendingGroup_Init ;; run_cmds cs) (mk (SLinkedList.mk None ∅ ∅) ∅ ∅ 0)
    (fun rs g' tr => rs = [(1, (10, 0)); (3, (30, 0))]).
Proof.
  intros cs. eapply wp_mono.
  - apply (job_queue_refines_stack _ cs (<[1 := (10, 0)]> (<[3 := (30, 0)]> ∅), [])
      [(1, (10, 0)); (3, (30, 0))]). vm_compute. reflexivity.
  - by intros rs g' tr (_ & -> & _).
Defined.

End BPending.

(** ** The interface of the job queue

    What the flow components rely on: setting a job puts it in front of the
    pending jobs, unsetting removes it, executing takes the front one. *)
Class JobQueue (G : Type) := {
  jq_rep : G -> gmap Z (Z * Z) -> list Z -> Prop;
  jq_set {O} : Z -> M G O unit;
  jq_unset {O} : Z -> M G O unit;
  jq_execute {O} : M G O (Z * (Z * Z));
  jq_has {O} : M G O bool;
  jq_is_set {O} : Z -> M G O bool;
  jq_peek {O} : M G O (option Z);
  jq_init {O} : Z -> Z * Z -> M G O unit;
  jq_free {O} : Z -> M G O unit;
  jq_start {O} : M G O unit;           (** [BPendingGroup_Init] *)
  jq_stop {O} : M G O unit;            (** [BPendingGroup_Free] *)
  jq_nodup g H l : jq_rep g H l -> NoDup l;
  jq_set_spec {O} g H l o : jq_rep g H l -> is_Some (H !! o) ->
    wp (O:=O) (jq_set o) g (fun _ g' tr => tr = [] /\ jq_rep g' H (o :: BPending.job_remove o l));
  jq_unset_spec {O} g H l o : jq_rep g H l -> is_Some (H !! o) ->
    wp (O:=O) (jq_unset o) g (fun _ g' tr => tr = [] /\ jq_rep g' H (BPending.job_remove o l));
  jq_execute_spec {O} g H p l : jq_rep g H (p :: l) ->
    wp (O:=O) jq_execute g
      (fun r g' tr => tr = [] /\ jq_rep g' H l /\ r.1 = p /\ H !! p = Some r.2);
  jq_execute_empty {O} g H : jq_rep g H [] -> jq_execute (O:=O) g = Fault F_assert;
  jq_has_spec {O} g H l : jq_rep g H l ->
    wp (O:=O) jq_has g (fun r g' tr => tr = [] /\ g' = g /\ r = bool_decide (l <> []));
  jq_is_set_spec {O} g H l o : jq_rep g H l -> is_Some (H !! o) ->
    wp (O:=O) (jq_is_set o) g (fun r g' tr => tr = [] /\ g' = g /\ r = bool_decide (o ∈ l));
  jq_peek_spec {O} g H l : jq_rep g H l ->
    wp (O:=O) jq_peek g (fun r g' tr => tr = [] /\ g' = g /\ r = head l);
  jq_init_spec {O} g H l o h : jq_rep g H l -> H !! o = None ->
    wp (O:=O) (jq_init o h) g (fun _ g' tr => tr = [] /\ jq_rep g' (<[o := h]> H) l);
  jq_free_spec {O} g H l o : jq_rep g H l -> is_Some (H !! o) ->
    wp (O:=O) (jq_free o) g
      (fun _ g' tr => tr = [] /\ jq_rep g' (delete o H) (BPending.job_remove o l));
  jq_start_spec {O} g : wp (O:=O) jq_start g (fun _ g' tr => tr = [] /\ jq_rep g' ∅ []);
  jq_stop_spec {O} g : jq_rep g ∅ [] -> wp (O:=O) jq_stop g (fun _ g' tr => tr = [] /\ g' = g);
}.

Lemma BPending_nodup g H l : BPending.pending_rep g H l -> NoDup l.
Proof. intros R. apply (SLinkedList.rep_nodup (BPending.jobs g)). apply R. Qed.

Lemma BPending_execute_empty {O} g H :
  BPending.pending_rep g H [] -> BPending.BPendingGroup_ExecuteJob (O:=O) g = Fault F_assert.
Proof.
  intros R. pose proof (SLinkedList.rep_first _ _ (BPending.pr_list _ _ _ (BPending.pr_linked _ _ _ R))) as Hf. cbn in Hf.
  unfold BPending.BPendingGroup_ExecuteJob, BPending.on_jobs, SLinkedList.IsEmpty, bind, zoom, get, ret.
  cbn. by rewrite Hf.
Qed.

#[export] Instance BPending_JobQueue : JobQueue BPending.group := {|
  jq_rep := BPending.pending_rep;
  jq_set O := BPending.BSmallPending_Set;
  jq_unset O := BPending.BSmallPending_Unset;
  jq_execute O := BPending.BPendingGroup_ExecuteJob;
  jq_has O := BPending.BPendingGroup_HasJobs;
  jq_is_set O := BPending.BSmallPending_IsSet;
  jq_peek O := BPending.BPendingGroup_PeekJob;
  jq_init O := BPending.BSmallPending_Init;
  jq_free O := BPending.BSmallPending_Free;
  jq_start O := BPending.BPendingGroup_Init;
  jq_stop O := BPending.BPendingGroup_Free;
  jq_nodup := BPending_nodup;
  jq_set_spec O := BPending.BSmallPending_Set_wp;
  jq_unset_spec O := BPending.BSmallPending_Unset_wp;
  jq_execute_spec O := BPending.ExecuteJob_wp;
  jq_execute_empty O := BPending_execute_empty;
  jq_has_spec O := BPending.HasJobs_wp;
  jq_is_set_spec O := BPending.BSmallPending_IsSet_wp;
  jq_peek_spec O := BPending.PeekJob_wp;
  jq_init_spec O := BPending.BSmallPending_Init_wp;
  jq_free_spec O := BPending.BSmallPending_Free_wp;
  jq_start_spec O := BPending.group_init_rep;
  jq_stop_spec O := BPending.group_free_wp;
|}.

(** A group represents one sequence of jobs: executing it tells which. *)
Lemma jq_rep_fun {G} `{JobQueue G} g H0 l l' : jq_rep g H0 l -> jq_rep g H0 l' -> l = l'.
Proof.
  revert g l'. induction l as [|p l IH]; intros g [|p' l'] R R'; [done | | |].
  - destruct (wp_ok _ _ _ (jq_execute_spec (O:=unit) _ _ _ _ R')) as (r & g' & tr & E & _).
    by rewrite (jq_execute_empty (O:=unit) _ _ R) in E.
  - destruct (wp_ok _ _ _ (jq_execute_spec (O:=unit) _ _ _ _ R)) as (r & g' & tr & E & _).
    by rewrite (jq_execute_empty (O:=unit) _ _ R') in E.
  - destruct (wp_ok _ _ _ (jq_execute_spec (O:=unit) _ _ _ _ R)) as (r & g1 & tr & E & _ & R1 & Ep & _).
    destruct (wp_ok _ _ _ (jq_execute_spec (O:=unit) _ _ _ _ R')) as (r' & g2 & tr' & E' & _ & R2 & Ep' & _).
    rewrite E in E'. injection E' as <- <- <-. rewrite (IH g1 l' R1 R2). congruence.
Qed.

(** Job operations of a component whose state contains the job group. *)
Section Embedded.
Context {G S O : Type} `{JobQueue G} (pr : S -> G) (up : G -> S -> S).

Lemma embedded_set_wp s H0 l o (Q : unit -> S -> list O -> Prop) :
  jq_rep (pr s) H0 l -> is_Some (H0 !! o) ->
  (forall g, jq_rep g H0 (o :: BPending.job_remove o l) -> Q tt (up g s) []) ->
  wp (zoom pr up (jq_set o)) s Q.
Proof.
  intros R Ho HQ. apply wp_zoom.
  destruct (wp_ok _ _ _ (jq_set_spec (O:=O) _ _ _ _ R Ho)) as ([] & g & tr & -> & -> & R'). by apply HQ.
Qed.

Lemma embedded_unset_wp s H0 l o (Q : unit -> S -> list O -> Prop) :
  jq_rep (pr s) H0 l -> is_Some (H0 !! o) ->
  (forall g, jq_rep g H0 (BPending.job_remove o l) -> Q tt (up g s) []) ->
  wp (zoom pr up (jq_unset o)) s Q.
Proof.
  intros R Ho HQ. apply wp_zoom.
  destruct (wp_ok _ _ _ (jq_unset_spec (O:=O) _ _ _ _ R Ho)) as ([] & g & tr & -> & -> & R'). by apply HQ.
Qed.

Lemma embedded_has_wp s H0 l (Q : bool -> S -> list O -> Prop) :
  up (pr s) s = s -> jq_rep (pr s) H0 l -> Q (bool_decide (l <> [])) s [] -> wp (zoom pr up jq_has) s Q.
Proof.
  intros Hs R HQ. apply wp_zoom.
  destruct (wp_ok _ _ _ (jq_has_spec (O:=O) _ _ _ R)) as (b & g & tr & -> & -> & -> & ->). by rewrite Hs.
Qed.

Lemma embedded_is_set_wp s H0 l o (Q : bool -> S -> list O -> Prop) :
  up (pr s) s = s -> jq_rep (pr s) H0 l -> is_Some (H0 !! o) -> Q (bool_decide (o ∈ l)) s [] -> wp (zoom pr up (jq_is_set o)) s Q.
Proof.
  intros Hs R Ho HQ. apply wp_zoom.
  destruct (wp_ok _ _ _ (jq_is_set_spec (O:=O) _ _ _ _ R Ho)) as (b & g & tr & -> & -> & -> & ->). by rewrite Hs.
Qed.

Lemma embedded_peek_wp s H0 l (Q : option Z -> S -> list O -> Prop) :
  up (pr s) s = s -> jq_rep (pr s) H0 l -> Q (head l) s [] -> wp (zoom pr up jq_peek) s Q.
Proof.
  intros Hs R HQ. apply wp_zoom.
  destruct (wp_ok _ _ _ (jq_peek_spec (O:=O) _ _ _ R)) as (b & g & tr & -> & -> & -> & ->). by rewrite Hs.
Qed.

Lemma embedded_execute_wp s H0 p l (Q : Z * (Z * Z) -> S -> list O -> Prop) :
  jq_rep (pr s) H0 (p :: l) ->
  (forall g r, jq_rep g H0 l -> r.1 = p -> H0 !! p = Some r.2 -> Q r (up g s) []) -> wp (zoom pr up jq_execute) s Q.
Proof.
  intros R HQ. apply wp_zoom.
  destruct (wp_ok _ _ _ (jq_execute_spec (O:=O) _ _ _ _ R)) as (r & g & tr & -> & -> & R' & E & E'). by apply HQ.
Qed.

Lemma embedded_free_wp s H0 l o (Q : unit -> S -> list O -> Prop) :
  jq_rep (pr s) H0 l -> is_Some (H0 !! o) ->
  (forall g, jq_rep g (delete o H0) (BPending.job_remove o l) -> Q tt (up g s) []) ->
  wp (zoom pr up (jq_free o)) s Q.
Proof.
  intros R Ho HQ. apply wp_zoom.
  destruct (wp_ok _ _ _ (jq_free_spec (O:=O) _ _ _ _ R Ho)) as ([] & g & tr & -> & -> & R'). by apply HQ.
Qed.

Lemma embedded_init_wp s H0 l o h (Q : unit -> S -> list O -> Prop) :
  jq_rep (pr s) H0 l -> H0 !! o = None ->
  (forall g, jq_rep g (<[o := h]> H0) l -> Q tt (up g s) []) ->
  wp (zoom pr up (jq_init o h)) s Q.
Proof.
  intros R Ho HQ. apply wp_zoom.
  destruct (wp_ok _ _ _ (jq_init_spec (O:=O) _ _ _ o h R Ho)) as ([] & g & tr & -> & -> & R'). by apply HQ.
Qed.
Lemma embedded_start_wp s (Q : unit -> S -> list O -> Prop) :
  (forall g, jq_rep g ∅ [] -> Q tt (up g s) []) -> wp (zoom pr up jq_start) s Q.
Proof.
  intros HQ. apply wp_zoom.
  destruct (wp_ok _ _ _ (jq_start_spec (O:=O) (pr s))) as ([] & g & tr & -> & -> & R). by apply HQ.
Qed.

Lemma embedded_stop_wp s (Q : unit -> S -> list O -> Prop) :
  up (pr s) s = s -> jq_rep (pr s) ∅ [] -> Q tt s [] -> wp (zoom pr up jq_stop) s Q.
Proof.
  intros Hs R HQ. apply wp_zoom.
  destruct (wp_ok _ _ _ (jq_stop_spec (O:=O) _ R)) as ([] & g & tr & -> & -> & ->). by rewrite Hs.
Qed.
End Embedded.
