(* ===== verification/FlowInterface.v ===== *)
(** * The four flow interfaces

    Models of [badvpn/flow/PacketPassInterface.{c,h}],
    [PacketRecvInterface.{c,h}], [StreamPassInterface.{c,h}] and
    [StreamRecvInterface.{c,h}]: the asynchronous connections through which all
    flow components exchange data.  A user starts an operation, the provider is
    called from a job, completes the operation, and the user is called back
    from another job.

    Everything is proved against the [JobQueue] interface.  For each interface
    [next] is the protocol automaton over the calls that the two sides see; the
    theorems show that as long as user and provider take their own steps by the
    automaton, no [ASSERT] fails, every call the interface makes follows the
    automaton, and a call that is due has its job pending. *)

From S2P Require Import Prelude BPending.
Open Scope mon_scope.

#[local] Arguments BPending.job_remove : simpl never.

Inductive istate := STATE_NONE | STATE_OPERATION_PENDING | STATE_BUSY | STATE_DONE_PENDING.

#[export] Instance istate_eq_dec : EqDecision istate.
Proof. solve_decision. Defined.

(** ** PacketPassInterface *)

Module PacketPassInterface.

Record t := mk {
  mtu : Z;
  handler_requestcancel : bool;      (** not [NULL] *)
  handler_done : bool;               (** not [NULL] *)
  job_operation_data : option Z;
  job_operation_len : Z;
  state : istate;
  cancel_requested : bool;
}.

Definition set_state (s : istate) (i : t) : t :=
  mk (mtu i) (handler_requestcancel i) (handler_done i) (job_operation_data i)
     (job_operation_len i) s (cancel_requested i).
Definition set_cancel (c : bool) (i : t) : t :=
  mk (mtu i) (handler_requestcancel i) (handler_done i) (job_operation_data i)
     (job_operation_len i) (state i) c.
Definition set_args (d : option Z) (n : Z) (i : t) : t :=
  mk (mtu i) (handler_requestcancel i) (handler_done i) d n (state i) (cancel_requested i).

(** Calls through the function pointers of the interface. *)
Inductive call :=
  | Call_operation (data : option Z) (len : Z)
  | Call_requestcancel
  | Call_done.

Section Interface.
Context {G : Type} `{JobQueue G}.
(** Addresses of the three jobs of the interface. *)
Context (job_operation job_requestcancel job_done : Z).

Record world := W { iface : t; pg : G }.

Definition upd (f : t -> t) (w : world) : world := W (f (iface w)) (pg w).
Definition job (m : M G call unit) : M world call unit :=
  zoom pg (fun g w => W (iface w) g) m.

(** Handler identifiers given to [BPending_Init]. *)
Definition H_operation : Z := 1.
Definition H_requestcancel : Z := 2.
Definition H_done : Z := 3.

Definition Init (mtu : Z) : M world call unit :=
  assert (mtu >=? 0) ;;
  modify (upd (fun i => mk mtu false false (job_operation_data i) (job_operation_len i)
                           (state i) (cancel_requested i))) ;;
  job (jq_init job_operation (H_operation, 0)) ;;
  job (jq_init job_requestcancel (H_requestcancel, 0)) ;;
  job (jq_init job_done (H_done, 0)) ;;
  modify (upd (set_state STATE_NONE)).

Definition Free : M world call unit :=
  job (jq_free job_done) ;;
  job (jq_free job_requestcancel) ;;
  job (jq_free job_operation).

Definition EnableCancel : M world call unit :=
  w <- get ;;
  assert (negb (handler_requestcancel (iface w))) ;;
  assert (negb (handler_done (iface w))) ;;
  modify (upd (fun i => mk (mtu i) true (handler_done i) (job_operation_data i)
                           (job_operation_len i) (state i) (cancel_requested i))).

Definition Done : M world call unit :=
  w <- get ;;
  assert (bool_decide (state (iface w) = STATE_BUSY)) ;;
  job (jq_unset job_requestcancel) ;;
  job (jq_set job_done) ;;
  modify (upd (set_state STATE_DONE_PENDING)).

Definition GetMTU : M world call Z := w <- get ;; ret (mtu (iface w)).

Definition Sender_Init : M world call unit :=
  w <- get ;;
  assert (negb (handler_done (iface w))) ;;
  modify (upd (fun i => mk (mtu i) (handler_requestcancel i) true (job_operation_data i)
                           (job_operation_len i) (state i) (cancel_requested i))).

Definition Sender_Send (data : option Z) (data_len : Z) : M world call unit :=
  w <- get ;;
  assert (data_len >=? 0) ;;
  assert (data_len <=? mtu (iface w)) ;;
  assert (negb (data_len >? 0) || bool_decide (is_Some data)) ;;
  assert (bool_decide (state (iface w) = STATE_NONE)) ;;
  assert (handler_done (iface w)) ;;
  modify (upd (set_args data data_len)) ;;
  job (jq_set job_operation) ;;
  modify (upd (fun i => set_cancel false (set_state STATE_OPERATION_PENDING i))).

Definition Sender_RequestCancel : M world call unit :=
  w <- get ;;
  assert (bool_decide (state (iface w) = STATE_OPERATION_PENDING) ||
          bool_decide (state (iface w) = STATE_BUSY) ||
          bool_decide (state (iface w) = STATE_DONE_PENDING)) ;;
  assert (handler_requestcancel (iface w)) ;;
  if cancel_requested (iface w) then ret tt else
  modify (upd (set_cancel true)) ;;
  match state (iface w) with
  | STATE_OPERATION_PENDING =>
      job (jq_unset job_operation) ;;
      job (jq_set job_done) ;;
      modify (upd (set_state STATE_DONE_PENDING))
  | STATE_BUSY => job (jq_set job_requestcancel)
  | _ => ret tt
  end.

Definition HasCancel : M world call bool := w <- get ;; ret (handler_requestcancel (iface w)).

Definition _job_operation : M world call unit :=
  w <- get ;;
  assert (bool_decide (state (iface w) = STATE_OPERATION_PENDING)) ;;
  modify (upd (set_state STATE_BUSY)) ;;
  emit (Call_operation (job_operation_data (iface w)) (job_operation_len (iface w))).

Definition _job_requestcancel : M world call unit :=
  w <- get ;;
  assert (bool_decide (state (iface w) = STATE_BUSY)) ;;
  assert (cancel_requested (iface w)) ;;
  assert (handler_requestcancel (iface w)) ;;
  emit Call_requestcancel.

Definition _job_done : M world call unit :=
  w <- get ;;
  assert (bool_decide (state (iface w) = STATE_DONE_PENDING)) ;;
  modify (upd (set_state STATE_NONE)) ;;
  emit Call_done.

(** Run the front job of the group; jobs of other objects do not touch this
    interface. *)
Definition ExecuteJob : M world call unit :=
  r <- zoom pg (fun g w => W (iface w) g) jq_execute ;;
  if (r.2).1 =? H_operation then _job_operation
  else if (r.2).1 =? H_requestcancel then _job_requestcancel
  else if (r.2).1 =? H_done then _job_done
  else ret tt.

(** ** Protocol *)

Inductive action :=
  | Send (data : option Z) (len : Z)    (** by the user *)
  | RequestCancel                       (** by the user *)
  | Complete                            (** [PacketPassInterface_Done] by the provider *)
  | OtherJob (o : Z).                   (** some other object sets one of its jobs *)

Inductive label := Act (a : action) | Call (c : call).

(** Where an operation stands, as both sides see it.  The flag of [Busy]: the
    cancel request is still to be delivered. *)
Inductive phase :=
  | Idle
  | Sent (data : option Z) (len : Z)
  | Busy (requested undelivered : bool)
  | Finishing (requested : bool).

Context (m : Z) (cancel : bool) (others : Z -> bool).

Definition send_ok (data : option Z) (len : Z) : bool :=
  (0 <=? len) && (len <=? m) && (negb (len >? 0) || bool_decide (is_Some data)).

Definition next (ph : phase) (l : label) : option phase :=
  match l, ph with
  | Act (OtherJob o), _ => if others o then Some ph else None
  | Act (Send d n), Idle => if send_ok d n then Some (Sent d n) else None
  | Act RequestCancel, Sent d n => if cancel then Some (Finishing true) else None
  | Act RequestCancel, Busy r u =>
      if cancel then Some (if r then Busy r u else Busy true true) else None
  | Act RequestCancel, Finishing r => if cancel then Some (Finishing true) else None
  | Act Complete, Busy r u => Some (Finishing r)
  | Call (Call_operation d n), Sent d' n' =>
      if bool_decide (d = d' /\ n = n') then Some (Busy false false) else None
  | Call Call_requestcancel, Busy true true => Some (Busy true false)
  | Call Call_done, Finishing _ => Some Idle
  | _, _ => None
  end.

Fixpoint nexts (ph : phase) (ls : list call) : option phase :=
  match ls with
  | [] => Some ph
  | c :: ls' => match next ph (Call c) with Some ph' => nexts ph' ls' | None => None end
  end.

Definition perform (a : action) : M world call unit :=
  match a with
  | Send d n => Sender_Send d n
  | RequestCancel => Sender_RequestCancel
  | Complete => Done
  | OtherJob o => job (jq_set o)
  end.

(** States reached from an idle interface by steps of the two sides that
    follow [next], and by executing jobs. *)
Inductive reach (w0 : world) : phase -> world -> Prop :=
  | reach_start : reach w0 Idle w0
  | reach_act ph a ph' w w' :
      reach w0 ph w -> next ph (Act a) = Some ph' -> perform a w = Ok tt w' [] ->
      reach w0 ph' w'
  | reach_exec ph ph' w w' cs :
      reach w0 ph w -> ExecuteJob w = Ok tt w' cs -> nexts ph cs = Some ph' -> reach w0 ph' w'.

(** The job that is due in a phase. *)
Definition due (ph : phase) : option Z :=
  match ph with
  | Idle | Busy _ false => None
  | Sent _ _ => Some job_operation
  | Busy _ true => Some job_requestcancel
  | Finishing _ => Some job_done
  end.

Definition own (j : Z) : Prop := j = job_operation \/ j = job_requestcancel \/ j = job_done.

(** The job objects of the group: the three of the interface, and others
    whose handlers are not the interface's. *)
Record table (H : gmap Z (Z * Z)) : Prop := mk_table {
  tab_operation : H !! job_operation = Some (H_operation, 0);
  tab_requestcancel : H !! job_requestcancel = Some (H_requestcancel, 0);
  tab_done : H !! job_done = Some (H_done, 0);
  tab_other o h : H !! o = Some h -> own o \/ (h.1 <> H_operation /\ h.1 <> H_requestcancel /\ h.1 <> H_done);
  tab_others o : others o = true -> is_Some (H !! o) /\ ~ own o;
}.

Definition matches (ph : phase) (i : t) : Prop :=
  match ph with
  | Idle => state i = STATE_NONE
  | Sent d n => state i = STATE_OPERATION_PENDING /\ job_operation_data i = d /\
                job_operation_len i = n /\ cancel_requested i = false
  | Busy r u => state i = STATE_BUSY /\ cancel_requested i = r /\ (u = true -> r = true) /\
                (r = true -> cancel = true)
  | Finishing r => state i = STATE_DONE_PENDING /\ cancel_requested i = r
  end.

Record inv (ph : phase) (w : world) (l : list Z) : Prop := mk_inv {
  inv_mtu : mtu (iface w) = m;
  inv_cancel : handler_requestcancel (iface w) = cancel;
  inv_user : handler_done (iface w) = true;
  inv_table : exists H, jq_rep (pg w) H l /\ table H;
  inv_phase : matches ph (iface w);
  inv_due j : own j -> j ∈ l <-> due ph = Some j;
}.

Lemma ppi_table_distinct H0 : table H0 ->
  job_operation <> job_requestcancel /\ job_operation <> job_done /\ job_requestcancel <> job_done.
Proof.
  intros [H1 H2 H3 _ _]. unfold H_operation, H_requestcancel, H_done in *.
  split_and!; intros E; rewrite E in *; simplify_eq.
Qed.

(** Decide which of the interface's jobs are pending after an update. *)
Ltac due_tac Hdue :=
  let j := fresh "j" in let Hj := fresh "Hj" in
  intros j Hj; specialize (Hdue j Hj); unfold own in Hj; cbn [due] in *;
  rewrite ?elem_of_cons, ?BPending.elem_of_job_remove in *;
  repeat match goal with H : context [Some _ = Some _] |- _ => rewrite (inj_iff Some) in H end;
  rewrite ?(inj_iff Some); intuition congruence.

Lemma ppi_inv_act ph a ph' w l :
  inv ph w l -> next ph (Act a) = Some ph' ->
  wp (perform a) w (fun _ w' tr => tr = [] /\ exists l', inv ph' w' l').
Proof.
  intros [Hm Hc Hu (H0 & R & T) Hp Hdue] Hn. pose proof (ppi_table_distinct H0 T) as (D1 & D2 & D3).
  destruct a as [d n| | |o]; cbn [perform next] in *.
  - destruct ph; try done. destruct (send_ok d n) eqn:E; [|done]. injection Hn as <-.
    unfold send_ok in E. rewrite !andb_true_iff in E. destruct E as [[E1 E2] E3]. cbn in Hp.
    unfold Sender_Send. do 3 wp_step. wp_step; [lia|]. wp_step. wp_step; [lia|].
    wp_step. wp_step; [done|]. wp_step. wp_step; [by apply bool_decide_eq_true_2|].
    wp_step. wp_step; [done|]. do 3 wp_step.
    eapply embedded_set_wp; [exact R | by rewrite (tab_operation _ T)|]. intros g R'. wp_step.
    split; [done|]. eexists. split; cbn; try done; try congruence; [eauto|]. due_tac Hdue.
  - destruct ph as [|d n|r u|r]; try done; destruct cancel eqn:Ec; try done.
    + destruct Hp as (P1 & P2 & P3 & P4). injection Hn as <-.
      unfold Sender_RequestCancel. do 3 wp_step. wp_step; [by rewrite P1|]. wp_step. wp_step; [done|].
      rewrite P4, P1. do 3 wp_step. eapply embedded_unset_wp; [exact R | by rewrite (tab_operation _ T)|].
      intros g R'. wp_step. eapply embedded_set_wp; [exact R' | by rewrite (tab_done _ T)|].
      intros g' R''. wp_step. split; [done|]. eexists. split; cbn; try done; try congruence; [eauto|]. due_tac Hdue.
    + destruct Hp as (P1 & P2 & P3 & P4). injection Hn as <-.
      unfold Sender_RequestCancel. do 3 wp_step. wp_step; [by rewrite P1|]. wp_step. wp_step; [done|].
      rewrite P2. destruct r.
      * wp_step. split; [done|]. exists l. split; cbn; try done; try congruence; eauto.
      * rewrite P1. do 2 wp_step. eapply embedded_set_wp; [exact R | by rewrite (tab_requestcancel _ T)|].
        intros g R'. split; [done|]. eexists. split; cbn; try done; try congruence; [eauto|].
        destruct u; [by specialize (P3 eq_refl)|]. due_tac Hdue.
    + destruct Hp as (P1 & P2). injection Hn as <-.
      unfold Sender_RequestCancel. do 3 wp_step. wp_step; [by rewrite P1|]. wp_step. wp_step; [done|].
      rewrite P2, P1. destruct r; repeat wp_step; (split; [done|]; exists l; split; cbn; try done; try congruence; eauto).
  - destruct ph as [|d n|r u|r]; try done. injection Hn as <-. destruct Hp as (P1 & P2 & P3 & P4).
    unfold Done. do 3 wp_step. wp_step; [by rewrite P1|].
    wp_step. eapply embedded_unset_wp; [exact R | by rewrite (tab_requestcancel _ T)|].
    intros g R'. wp_step. eapply embedded_set_wp; [exact R' | by rewrite (tab_done _ T)|].
    intros g' R''. wp_step. split; [done|]. eexists. split; cbn; try done; try congruence; [eauto|]. destruct u; due_tac Hdue.
  - destruct (others o) eqn:Eo; [|done]. injection Hn as <-.
    destruct (tab_others _ T o Eo) as [Ho1 Ho2].
    eapply embedded_set_wp; [exact R | done|]. intros g R'. split; [done|].
    exists (o :: BPending.job_remove o l). split; cbn; try done; [eauto|].
    intros j Hj. rewrite <- (Hdue j Hj), elem_of_cons, BPending.elem_of_job_remove.
    assert (j <> o) by (intros ->; done). tauto.
Qed.

Lemma ppi_inv_exec ph w p l :
  inv ph w (p :: l) ->
  wp ExecuteJob w (fun _ w' cs => exists ph', nexts ph cs = Some ph' /\ inv ph' w' l).
Proof.
  intros [Hm Hc Hu (H0 & R & T) Hp Hdue]. pose proof (ppi_table_distinct H0 T) as (D1 & D2 & D3).
  pose proof (jq_nodup _ _ _ R) as [Hpl _]%NoDup_cons.
  assert (Hsub : forall j, j ∈ l -> j <> p) by congruence.
  unfold ExecuteJob. wp_step. apply wp_zoom.
  destruct (wp_ok _ _ _ (jq_execute_spec (O:=call) (pg w) H0 p l R)) as ([q h] & g & tr & E & -> & R' & Hq & Hh).
  cbn in Hq, Hh. subst q. rewrite E. cbn [snd]. cbn [app].
  assert (Hdp : own p -> due ph = Some p) by (intros Ho; apply (Hdue p Ho); left).
  destruct (tab_other _ T _ _ Hh) as [Ho|(O1 & O2 & O3)].
  - specialize (Hdp Ho). unfold own in Ho. destruct Ho as [-> | [-> | ->]].
    + rewrite (tab_operation _ T) in Hh. injection Hh as <-. cbn [fst].
      destruct ph as [|d n|r [|]|r]; cbn in Hdp; try congruence. destruct Hp as (P1 & P2 & P3 & P4).
      cbn [Z.eqb H_operation Pos.eqb]. unfold _job_operation. do 3 wp_step. wp_step; [by cbn; rewrite P1|].
      do 2 wp_step. wp_step. exists (Busy false false). cbn. rewrite P2, P3, bool_decide_true by done.
      split; [done|]. split; cbn; try done; try congruence; [eauto|]. due_tac Hdue.
    + rewrite (tab_requestcancel _ T) in Hh. injection Hh as <-.
      destruct ph as [|d n|r [|]|r]; cbn in Hdp; try congruence. destruct Hp as (P1 & P2 & P3 & P4).
      destruct r; [|by specialize (P3 eq_refl)].
      unfold _job_requestcancel. cbn [fst Z.eqb H_operation H_requestcancel Pos.eqb]. do 3 wp_step.
      wp_step; [by cbn; rewrite P1|]. wp_step. wp_step; [done|]. wp_step. wp_step; [by cbn; rewrite Hc, P4|].
      wp_step. exists (Busy true false). cbn. split; [done|].
      split; cbn; try done; try congruence; [eauto|]. due_tac Hdue.
    + rewrite (tab_done _ T) in Hh. injection Hh as <-.
      destruct ph as [|d n|r [|]|r]; cbn in Hdp; try congruence. destruct Hp as (P1 & P2).
      unfold _job_done. cbn [fst Z.eqb H_operation H_requestcancel H_done Pos.eqb]. do 3 wp_step.
      wp_step; [by cbn; rewrite P1|]. do 2 wp_step. wp_step.
      exists Idle. cbn. split; [done|]. split; cbn; try done; try congruence; [eauto|]. due_tac Hdue.
  - rewrite !(proj2 (Z.eqb_neq _ _)) by done. wp_step. exists ph. split; [done|].
    split; cbn; try done; try congruence; [eauto|]. intros j Hj. rewrite <- (Hdue j Hj), elem_of_cons.
    assert (j <> p); [|tauto]. intros ->. unfold own in Hj. destruct T as [T1 T2 T3 _ _].
    destruct Hj as [-> | [-> | ->]]; rewrite Hh in *; injection T1 || injection T2 || injection T3; intros; subst; done.
Qed.

Lemma ppi_reach_inv w0 ph w l0 : inv Idle w0 l0 -> reach w0 ph w -> exists l, inv ph w l.
Proof.
  intros H0 Hr. induction Hr as [|ph a ph' w w' Hr [l IH] Hn Hp|ph ph' w w' cs Hr [l IH] He Hn]; [eauto| |].
  - destruct (wp_ok _ _ _ (ppi_inv_act _ _ _ _ _ IH Hn)) as (u & w2 & tr & E & _ & Hi). rewrite Hp in E. by simplify_eq.
  - destruct l as [|p l].
    + destruct (inv_table _ _ _ IH) as (H1 & R & _). unfold ExecuteJob, bind, zoom in He.
      by rewrite (jq_execute_empty _ _ R) in He.
    + destruct (wp_ok _ _ _ (ppi_inv_exec _ _ _ _ IH)) as (u & w2 & tr & E & ph2 & Hn2 & Hi).
      rewrite He in E. simplify_eq. eauto.
Qed.

(** How a provider and a user set the interface up. *)
Definition setup : M world call unit :=
  Init m ;; (when cancel do EnableCancel) ;; Sender_Init.

(** A group in which the interface's jobs are fresh. *)
Record fresh (H0 : gmap Z (Z * Z)) (l : list Z) : Prop := mk_fresh {
  fresh_distinct : job_operation <> job_requestcancel /\ job_operation <> job_done /\
                   job_requestcancel <> job_done;
  fresh_own j : own j -> H0 !! j = None /\ j ∉ l;
  fresh_handlers o h : H0 !! o = Some h ->
    h.1 <> H_operation /\ h.1 <> H_requestcancel /\ h.1 <> H_done;
  fresh_others o : others o = true -> is_Some (H0 !! o);
}.

Lemma ppi_fresh_table H0 l : fresh H0 l ->
  table (<[job_done := (H_done, 0)]> (<[job_requestcancel := (H_requestcancel, 0)]>
           (<[job_operation := (H_operation, 0)]> H0))).
Proof.
  intros [(D1 & D2 & D3) Ho Hh Ht]. split.
  - by rewrite !lookup_insert_ne, lookup_insert_eq by done.
  - by rewrite lookup_insert_ne, lookup_insert_eq by done.
  - by rewrite lookup_insert_eq.
  - intros o h. rewrite !lookup_insert_Some. unfold own. intros H1.
    destruct H1 as [[-> _]|[_ [[-> _]|[_ [[-> _]|[_ H1]]]]]]; eauto.
  - intros o Hot. specialize (Ht o Hot). assert (Hno : ~ own o).
    { intros Hw. destruct (Ho o Hw) as [Hn _]. rewrite Hn in Ht. by destruct Ht. }
    split; [|done]. unfold own in Hno. rewrite !lookup_insert_ne by (intros ->; apply Hno; auto). done.
Qed.

Lemma ppi_setup_inv w H0 l :
  0 <= m -> jq_rep (pg w) H0 l -> fresh H0 l ->
  wp setup w (fun _ w0 tr => tr = [] /\ inv Idle w0 l).
Proof.
  intros Hm R F. pose proof (ppi_fresh_table _ _ F) as T. destruct F as [(D1 & D2 & D3) Ho Hh Ht].
  unfold setup, Init. do 3 wp_step; [lia|]. do 2 wp_step. wp_step.
  eapply embedded_init_wp; [exact R | apply Ho; unfold own; tauto|]. intros g1 R1. wp_step.
  eapply embedded_init_wp; [exact R1 | rewrite lookup_insert_ne by done; apply Ho; unfold own; tauto|].
  intros g2 R2. wp_step.
  eapply embedded_init_wp; [exact R2 | rewrite !lookup_insert_ne by done; apply Ho; unfold own; tauto|].
  intros g3 R3. wp_step. wp_step.
  assert (Hd : forall j, own j -> j ∈ l <-> due Idle = Some j).
  { intros j Hj. destruct (Ho j Hj). by split. }
  unfold EnableCancel, Sender_Init. destruct cancel eqn:Ec; repeat wp_step; try done.
  all: split; [done|]; split; cbn; try done; try congruence; eauto.
Qed.

(** C37. Once set up, and as long as sender and receiver take their own steps
    in the order the protocol automaton [next] allows, the interface never
    fails an assertion; each operation is delivered with the arguments it was
    started with, a cancel request at most once and only while the operation
    is in progress, and each operation is answered by exactly one completion
    call; whenever such a call is due its job is in the queue, so it is not
    lost.  This holds for every job queue that meets [JobQueue], with any
    interleaving of other jobs. *)
Theorem packet_pass_protocol (w : world) (H0 : gmap Z (Z * Z)) (l0 : list Z)
    (Hm : 0 <= m) (R : jq_rep (pg w) H0 l0) (F : fresh H0 l0) :
  exists w0, setup w = Ok tt w0 [] /\
  forall ph w', reach w0 ph w' ->
    (forall a ph', next ph (Act a) = Some ph' -> exists w'', perform a w' = Ok tt w'' []) /\
    exists l H', jq_rep (pg w') H' l /\
      (forall j, due ph = Some j -> j ∈ l) /\
      (l <> [] -> exists w'' cs ph', ExecuteJob w' = Ok tt w'' cs /\ nexts ph cs = Some ph').
Proof.
  destruct (wp_ok _ _ _ (ppi_setup_inv w H0 l0 Hm R F)) as ([] & w0 & tr & E & -> & Hi).
  exists w0. split; [done|]. intros ph w' Hr. destruct (ppi_reach_inv _ _ _ _ Hi Hr) as [l Hl]. split.
  - intros a ph' Hn.
    destruct (wp_ok _ _ _ (ppi_inv_act _ _ _ _ _ Hl Hn)) as ([] & w'' & tr & E' & -> & _). eauto.
  - destruct (inv_table _ _ _ Hl) as (H' & R' & _). exists l, H'. split; [done|]. split.
    + intros j Hj. apply (inv_due _ _ _ Hl); [|done]. unfold own.
      destruct ph as [| |? []|]; simplify_eq/=; auto.
    + intros Hne. destruct l as [|p l]; [done|].
      destruct (wp_ok _ _ _ (ppi_inv_exec _ _ _ _ Hl)) as ([] & w'' & cs & E' & ph' & Hn & _). eauto.
Qed.
End Interface.

End PacketPassInterface.

(** ** The interfaces without cancellation

    [PacketRecvInterface], [StreamPassInterface] and [StreamRecvInterface] share
    their job logic and differ in the checks on arguments and completion
    lengths; the shared part is [OpInterface], parameterised by these checks. *)

Module OpInterface.

Record t := mk {
  mtu : Z;                           (** packet interface only *)
  handler_done : bool;               (** not [NULL] *)
  job_operation_data : option Z;
  job_operation_len : Z;             (** stream interfaces only *)
  job_done_len : Z;
  state : istate;
}.

Definition set_state (s : istate) (i : t) : t :=
  mk (mtu i) (handler_done i) (job_operation_data i) (job_operation_len i) (job_done_len i) s.
Definition set_args (d : option Z) (n : Z) (i : t) : t :=
  mk (mtu i) (handler_done i) d n (job_done_len i) (state i).
Definition set_done_len (n : Z) (i : t) : t :=
  mk (mtu i) (handler_done i) (job_operation_data i) (job_operation_len i) n (state i).

Inductive call :=
  | Call_operation (data : option Z) (len : Z)
  | Call_done (len : Z).

Definition H_operation : Z := 1.
Definition H_done : Z := 2.

Section Interface.
Context {G : Type} `{JobQueue G}.
Context (job_operation job_done : Z).
(** The checks of a concrete interface: arguments of an operation, length of
    its completion. *)
Context (start_ok : t -> option Z -> Z -> bool) (done_ok : t -> Z -> bool).

Record world := W { iface : t; pg : G }.

Definition upd (f : t -> t) (w : world) : world := W (f (iface w)) (pg w).
Definition job (m : M G call unit) : M world call unit :=
  zoom pg (fun g w => W (iface w) g) m.

Definition Init (mtu : Z) : M world call unit :=
  modify (upd (fun i => mk mtu false (job_operation_data i) (job_operation_len i)
                           (job_done_len i) (state i))) ;;
  job (jq_init job_operation (H_operation, 0)) ;;
  job (jq_init job_done (H_done, 0)) ;;
  modify (upd (set_state STATE_NONE)).

Definition Free : M world call unit :=
  job (jq_free job_done) ;;
  job (jq_free job_operation).

Definition Done (data_len : Z) : M world call unit :=
  w <- get ;;
  assert (done_ok (iface w) data_len) ;;
  assert (bool_decide (state (iface w) = STATE_BUSY)) ;;
  modify (upd (set_done_len data_len)) ;;
  job (jq_set job_done) ;;
  modify (upd (set_state STATE_DONE_PENDING)).

Definition User_Init : M world call unit :=
  w <- get ;;
  assert (negb (handler_done (iface w))) ;;
  modify (upd (fun i => mk (mtu i) true (job_operation_data i) (job_operation_len i)
                           (job_done_len i) (state i))).

Definition Start (data : option Z) (data_len : Z) : M world call unit :=
  w <- get ;;
  assert (start_ok (iface w) data data_len) ;;
  assert (bool_decide (state (iface w) = STATE_NONE)) ;;
  assert (handler_done (iface w)) ;;
  modify (upd (set_args data data_len)) ;;
  job (jq_set job_operation) ;;
  modify (upd (set_state STATE_OPERATION_PENDING)).

Definition _job_operation : M world call unit :=
  w <- get ;;
  assert (bool_decide (state (iface w) = STATE_OPERATION_PENDING)) ;;
  modify (upd (set_state STATE_BUSY)) ;;
  emit (Call_operation (job_operation_data (iface w)) (job_operation_len (iface w))).

Definition _job_done : M world call unit :=
  w <- get ;;
  assert (bool_decide (state (iface w) = STATE_DONE_PENDING)) ;;
  modify (upd (set_state STATE_NONE)) ;;
  emit (Call_done (job_done_len (iface w))).

Definition ExecuteJob : M world call unit :=
  r <- zoom pg (fun g w => W (iface w) g) jq_execute ;;
  if (r.2).1 =? H_operation then _job_operation
  else if (r.2).1 =? H_done then _job_done
  else ret tt.

(** *** Protocol *)

Inductive action :=
  | StartOp (data : option Z) (len : Z)   (** by the user *)
  | Complete (len : Z)                    (** by the provider *)
  | OtherJob (o : Z).

Inductive label := Act (a : action) | Call (c : call).

Inductive phase :=
  | Idle
  | Started (data : option Z) (len : Z)
  | Busy (data : option Z) (len : Z)
  | Finishing (done_len : Z).

Context (m : Z) (others : Z -> bool).

(** An interface with the configuration of the section, busy with an
    operation of the given length, as the completion check sees it. *)
Definition busy_with (d : option Z) (len : Z) (i : t) : Prop :=
  mtu i = m /\ job_operation_data i = d /\ job_operation_len i = len.

Context (args_ok : option Z -> Z -> bool) (len_ok : Z -> Z -> bool).
Context (start_ok_spec : forall i d n, mtu i = m -> start_ok i d n = args_ok d n).
Context (done_ok_spec : forall i d len n, busy_with d len i -> done_ok i n = len_ok len n).

Definition next (ph : phase) (l : label) : option phase :=
  match l, ph with
  | Act (OtherJob o), _ => if others o then Some ph else None
  | Act (StartOp d n), Idle => if args_ok d n then Some (Started d n) else None
  | Act (Complete k), Busy d n => if len_ok n k then Some (Finishing k) else None
  | Call (Call_operation d n), Started d' n' =>
      if bool_decide (d = d' /\ n = n') then Some (Busy d n) else None
  | Call (Call_done k), Finishing k' => if k =? k' then Some Idle else None
  | _, _ => None
  end.

Fixpoint nexts (ph : phase) (ls : list call) : option phase :=
  match ls with
  | [] => Some ph
  | c :: ls' => match next ph (Call c) with Some ph' => nexts ph' ls' | None => None end
  end.

Definition perform (a : action) : M world call unit :=
  match a with
  | StartOp d n => Start d n
  | Complete k => Done k
  | OtherJob o => job (jq_set o)
  end.

Inductive reach (w0 : world) : phase -> world -> Prop :=
  | reach_start : reach w0 Idle w0
  | reach_act ph a ph' w w' :
      reach w0 ph w -> next ph (Act a) = Some ph' -> perform a w = Ok tt w' [] ->
      reach w0 ph' w'
  | reach_exec ph ph' w w' cs :
      reach w0 ph w -> ExecuteJob w = Ok tt w' cs -> nexts ph cs = Some ph' -> reach w0 ph' w'.

Definition due (ph : phase) : option Z :=
  match ph with
  | Idle | Busy _ _ => None
  | Started _ _ => Some job_operation
  | Finishing _ => Some job_done
  end.

Definition own (j : Z) : Prop := j = job_operation \/ j = job_done.

Record table (H : gmap Z (Z * Z)) : Prop := mk_table {
  tab_operation : H !! job_operation = Some (H_operation, 0);
  tab_done : H !! job_done = Some (H_done, 0);
  tab_other o h : H !! o = Some h -> own o \/ (h.1 <> H_operation /\ h.1 <> H_done);
  tab_others o : others o = true -> is_Some (H !! o) /\ ~ own o;
}.

Definition matches (ph : phase) (i : t) : Prop :=
  match ph with
  | Idle => state i = STATE_NONE
  | Started d n => state i = STATE_OPERATION_PENDING /\ job_operation_data i = d /\
                   job_operation_len i = n
  | Busy d n => state i = STATE_BUSY /\ job_operation_data i = d /\ job_operation_len i = n
  | Finishing k => state i = STATE_DONE_PENDING /\ job_done_len i = k
  end.

Record inv (ph : phase) (w : world) (l : list Z) : Prop := mk_inv {
  inv_mtu : mtu (iface w) = m;
  inv_user : handler_done (iface w) = true;
  inv_table : exists H, jq_rep (pg w) H l /\ table H;
  inv_phase : matches ph (iface w);
  inv_due j : own j -> j ∈ l <-> due ph = Some j;
}.

Lemma opi_table_distinct H0 : table H0 -> job_operation <> job_done.
Proof.
  intros [H1 H2 _ _] E. unfold H_operation, H_done in *. rewrite E in *. simplify_eq.
Qed.

Ltac due_tac Hdue :=
  let j := fresh "j" in let Hj := fresh "Hj" in
  intros j Hj; specialize (Hdue j Hj); unfold own in Hj; cbn [due] in *;
  rewrite ?elem_of_cons, ?BPending.elem_of_job_remove in *;
  repeat match goal with H : context [Some _ = Some _] |- _ => rewrite (inj_iff Some) in H end;
  rewrite ?(inj_iff Some); intuition congruence.

Lemma opi_inv_act ph a ph' w l :
  inv ph w l -> next ph (Act a) = Some ph' ->
  wp (perform a) w (fun _ w' tr => tr = [] /\ exists l', inv ph' w' l').
Proof.
  intros [Hm Hu (H0 & R & T) Hp Hdue] Hn. pose proof (opi_table_distinct H0 T) as D1.
  destruct a as [d n|k|o]; cbn [perform next] in *.
  - destruct ph; try done. destruct (args_ok d n) eqn:E; [|done]. injection Hn as <-. cbn in Hp.
    unfold Start. do 3 wp_step. wp_step; [by rewrite start_ok_spec|]. wp_step. wp_step; [by apply bool_decide_eq_true_2|].
    wp_step. wp_step; [done|]. do 3 wp_step.
    eapply embedded_set_wp; [exact R | by rewrite (tab_operation _ T)|]. intros g R'. wp_step.
    split; [done|]. eexists. split; cbn; try done; [eauto|]. due_tac Hdue.
  - destruct ph as [|d n|d n|r]; try done. destruct (len_ok n k) eqn:E; [|done]. injection Hn as <-.
    destruct Hp as (P1 & P2 & P3).
    unfold Done. do 3 wp_step. wp_step; [by rewrite (done_ok_spec _ d n)|].
    wp_step. wp_step; [by rewrite P1|]. do 3 wp_step.
    eapply embedded_set_wp; [exact R | by rewrite (tab_done _ T)|]. intros g R'. wp_step.
    split; [done|]. eexists. split; cbn; try done; [eauto|]. due_tac Hdue.
  - destruct (others o) eqn:Eo; [|done]. injection Hn as <-.
    destruct (tab_others _ T o Eo) as [Ho1 Ho2].
    eapply embedded_set_wp; [exact R | done|]. intros g R'. split; [done|].
    exists (o :: BPending.job_remove o l). split; cbn; try done; [eauto|].
    intros j Hj. rewrite <- (Hdue j Hj), elem_of_cons, BPending.elem_of_job_remove.
    assert (j <> o) by (intros ->; done). tauto.
Qed.

Lemma opi_inv_exec ph w p l :
  inv ph w (p :: l) ->
  wp ExecuteJob w (fun _ w' cs => exists ph', nexts ph cs = Some ph' /\ inv ph' w' l).
Proof.
  intros [Hm Hu (H0 & R & T) Hp Hdue]. pose proof (opi_table_distinct H0 T) as D1.
  pose proof (jq_nodup _ _ _ R) as [Hpl _]%NoDup_cons.
  unfold ExecuteJob. wp_step. apply wp_zoom.
  destruct (wp_ok _ _ _ (jq_execute_spec (O:=call) (pg w) H0 p l R)) as ([q h] & g & tr & E & -> & R' & Hq & Hh).
  cbn in Hq, Hh. subst q. rewrite E. cbn [snd]. cbn [app].
  assert (Hdp : own p -> due ph = Some p) by (intros Ho; apply (Hdue p Ho); left).
  destruct (tab_other _ T _ _ Hh) as [Ho|(O1 & O2)].
  - specialize (Hdp Ho). unfold own in Ho. destruct Ho as [-> | ->].
    + rewrite (tab_operation _ T) in Hh. injection Hh as <-. cbn [fst].
      destruct ph as [|d n|d n|r]; cbn in Hdp; try congruence. destruct Hp as (P1 & P2 & P3).
      cbn [Z.eqb H_operation Pos.eqb]. unfold _job_operation. do 3 wp_step.
      wp_step; [by cbn; rewrite P1|]. do 2 wp_step. wp_step.
      exists (Busy d n). cbn. rewrite P2, P3, bool_decide_true by done.
      split; [done|]. split; cbn; try done; [eauto|]. due_tac Hdue.
    + rewrite (tab_done _ T) in Hh. injection Hh as <-.
      destruct ph as [|d n|d n|r]; cbn in Hdp; try congruence. destruct Hp as (P1 & P2).
      unfold _job_done. cbn [fst Z.eqb H_operation H_done Pos.eqb]. do 3 wp_step.
      wp_step; [by cbn; rewrite P1|]. do 2 wp_step. wp_step.
      exists Idle. cbn. rewrite P2, Z.eqb_refl. split; [done|].
      split; cbn; try done; [eauto|]. due_tac Hdue.
  - rewrite !(proj2 (Z.eqb_neq _ _)) by done. wp_step. exists ph. split; [done|].
    split; cbn; try done; [eauto|]. intros j Hj. rewrite <- (Hdue j Hj), elem_of_cons.
    assert (j <> p); [|tauto]. intros ->. unfold own in Hj. destruct T as [T1 T2 _ _].
    destruct Hj as [-> | ->]; rewrite Hh in *; injection T1 || injection T2; intros; subst; done.
Qed.

Lemma opi_reach_inv w0 ph w l0 : inv Idle w0 l0 -> reach w0 ph w -> exists l, inv ph w l.
Proof.
  intros H0 Hr. induction Hr as [|ph a ph' w w' Hr [l IH] Hn Hp|ph ph' w w' cs Hr [l IH] He Hn]; [eauto| |].
  - destruct (wp_ok _ _ _ (opi_inv_act _ _ _ _ _ IH Hn)) as (u & w2 & tr & E & _ & Hi).
    rewrite Hp in E. by simplify_eq.
  - destruct l as [|p l].
    + destruct (inv_table _ _ _ IH) as (H1 & R & _). unfold ExecuteJob, bind, zoom in He.
      by rewrite (jq_execute_empty _ _ R) in He.
    + destruct (wp_ok _ _ _ (opi_inv_exec _ _ _ _ IH)) as (u & w2 & tr & E & ph2 & Hn2 & Hi).
      rewrite He in E. simplify_eq. eauto.
Qed.

Definition setup : M world call unit := Init m ;; User_Init.

Record fresh (H0 : gmap Z (Z * Z)) (l : list Z) : Prop := mk_fresh {
  fresh_distinct : job_operation <> job_done;
  fresh_own j : own j -> H0 !! j = None /\ j ∉ l;
  fresh_handlers o h : H0 !! o = Some h -> h.1 <> H_operation /\ h.1 <> H_done;
  fresh_others o : others o = true -> is_Some (H0 !! o);
}.

Lemma opi_fresh_table H0 l : fresh H0 l ->
  table (<[job_done := (H_done, 0)]> (<[job_operation := (H_operation, 0)]> H0)).
Proof.
  intros [D1 Ho Hh Ht]. split.
  - by rewrite lookup_insert_ne, lookup_insert_eq by done.
  - by rewrite lookup_insert_eq.
  - intros o h. rewrite !lookup_insert_Some. unfold own. intros H1.
    destruct H1 as [[-> _]|[_ [[-> _]|[_ H1]]]]; eauto.
  - intros o Hot. specialize (Ht o Hot). assert (Hno : ~ own o).
    { intros Hw. destruct (Ho o Hw) as [Hn _]. rewrite Hn in Ht. by destruct Ht. }
    split; [|done]. unfold own in Hno. rewrite !lookup_insert_ne by (intros ->; apply Hno; auto). done.
Qed.

Lemma opi_setup_inv w H0 l :
  jq_rep (pg w) H0 l -> fresh H0 l -> wp setup w (fun _ w0 tr => tr = [] /\ inv Idle w0 l).
Proof.
  intros R F. pose proof (opi_fresh_table _ _ F) as T. destruct F as [D1 Ho Hh Ht].
  unfold setup, Init. do 4 wp_step.
  eapply embedded_init_wp; [exact R | apply Ho; unfold own; tauto|]. intros g1 R1. wp_step.
  eapply embedded_init_wp; [exact R1 | rewrite lookup_insert_ne by done; apply Ho; unfold own; tauto|].
  intros g2 R2. wp_step.
  assert (Hd : forall j, own j -> j ∈ l <-> due Idle = Some j).
  { intros j Hj. destruct (Ho j Hj). by split. }
  unfold User_Init. repeat wp_step; try done.
  split; [done|]; split; cbn; try done; eauto.
Qed.

(** What every interface built on this job logic guarantees. *)
Definition protocol_holds (w : world) : Prop :=
  exists w0, setup w = Ok tt w0 [] /\
  forall ph w', reach w0 ph w' ->
    (forall a ph', next ph (Act a) = Some ph' -> exists w'', perform a w' = Ok tt w'' []) /\
    exists l H', jq_rep (pg w') H' l /\
      (forall j, due ph = Some j -> j ∈ l) /\
      (l <> [] -> exists w'' cs ph', ExecuteJob w' = Ok tt w'' cs /\ nexts ph cs = Some ph').

Lemma protocol (w : world) H0 l0 : jq_rep (pg w) H0 l0 -> fresh H0 l0 -> protocol_holds w.
Proof.
  intros R F. destruct (wp_ok _ _ _ (opi_setup_inv w H0 l0 R F)) as ([] & w0 & tr & E & -> & Hi).
  exists w0. split; [done|]. intros ph w' Hr. destruct (opi_reach_inv _ _ _ _ Hi Hr) as [l Hl]. split.
  - intros a ph' Hn.
    destruct (wp_ok _ _ _ (opi_inv_act _ _ _ _ _ Hl Hn)) as ([] & w'' & tr & E' & -> & _). eauto.
  - destruct (inv_table _ _ _ Hl) as (H' & R' & _). exists l, H'. split; [done|]. split.
    + intros j Hj. apply (inv_due _ _ _ Hl); [|done]. unfold own.
      destruct ph; simplify_eq/=; auto.
    + intros Hne. destruct l as [|p l]; [done|].
      destruct (wp_ok _ _ _ (opi_inv_exec _ _ _ _ Hl)) as ([] & w'' & cs & E' & ph' & Hn & _). eauto.
Qed.
End Interface.

End OpInterface.

Module PacketRecvInterface.
Section Interface.
Context {G : Type} `{JobQueue G} (job_operation job_done : Z).
Abbreviation world := (OpInterface.world (G:=G)).
Abbreviation call := OpInterface.call.

Definition start_ok (i : OpInterface.t) (data : option Z) (_ : Z) : bool :=
  negb (OpInterface.mtu i >? 0) || bool_decide (is_Some data).
Definition done_ok (i : OpInterface.t) (data_len : Z) : bool :=
  (data_len >=? 0) && (data_len <=? OpInterface.mtu i).

Definition Init (mtu : Z) : M world call unit :=
  assert (mtu >=? 0) ;; OpInterface.Init job_operation job_done mtu.
Definition Free : M world call unit := OpInterface.Free job_operation job_done.
Definition Done (data_len : Z) : M world call unit := OpInterface.Done job_done done_ok data_len.
Definition GetMTU : M world call Z := w <- get ;; ret (OpInterface.mtu (OpInterface.iface w)).
Definition Receiver_Init : M world call unit := OpInterface.User_Init.
Definition Receiver_Recv (data : option Z) : M world call unit :=
  OpInterface.Start job_operation start_ok data 0.
Definition _job_operation : M world call unit := OpInterface._job_operation.
Definition _job_done : M world call unit := OpInterface._job_done.
End Interface.
End PacketRecvInterface.

Module StreamPassInterface.
Section Interface.
Context {G : Type} `{JobQueue G} (job_operation job_done : Z).
Abbreviation world := (OpInterface.world (G:=G)).
Abbreviation call := OpInterface.call.

Definition start_ok (_ : OpInterface.t) (data : option Z) (data_len : Z) : bool :=
  (data_len >? 0) && bool_decide (is_Some data).
Definition done_ok (i : OpInterface.t) (data_len : Z) : bool :=
  (data_len >? 0) && (data_len <=? OpInterface.job_operation_len i).

Definition Init : M world call unit := OpInterface.Init job_operation job_done 0.
Definition Free : M world call unit := OpInterface.Free job_operation job_done.
Definition Done (data_len : Z) : M world call unit := OpInterface.Done job_done done_ok data_len.
Definition Sender_Init : M world call unit := OpInterface.User_Init.
Definition Sender_Send (data : option Z) (data_len : Z) : M world call unit :=
  OpInterface.Start job_operation start_ok data data_len.
Definition _job_operation : M world call unit := OpInterface._job_operation.
Definition _job_done : M world call unit := OpInterface._job_done.
End Interface.
End StreamPassInterface.

Module StreamRecvInterface.
Section Interface.
Context {G : Type} `{JobQueue G} (job_operation job_done : Z).
Abbreviation world := (OpInterface.world (G:=G)).
Abbreviation call := OpInterface.call.

Definition start_ok (_ : OpInterface.t) (data : option Z) (data_len : Z) : bool :=
  (data_len >? 0) && bool_decide (is_Some data).
Definition done_ok (i : OpInterface.t) (data_len : Z) : bool :=
  (data_len >? 0) && (data_len <=? OpInterface.job_operation_len i).

Definition Init : M world call unit := OpInterface.Init job_operation job_done 0.
Definition Free : M world call unit := OpInterface.Free job_operation job_done.
Definition Done (data_len : Z) : M world call unit := OpInterface.Done job_done done_ok data_len.
Definition Receiver_Init : M world call unit := OpInterface.User_Init.
Definition Receiver_Recv (data : option Z) (data_len : Z) : M world call unit :=
  OpInterface.Start job_operation start_ok data data_len.
Definition _job_operation : M world call unit := OpInterface._job_operation.
Definition _job_done : M world call unit := OpInterface._job_done.
End Interface.
End StreamRecvInterface.

(** ** The protocols of the three interfaces *)

Section Protocols.
Context {G : Type} `{JobQueue G} (job_operation job_done : Z) (others : Z -> bool).

(** Arguments the users may pass. *)
Definition packet_args_ok (m : Z) (data : option Z) (_ : Z) : bool :=
  negb (m >? 0) || bool_decide (is_Some data).
Definition stream_args_ok (data : option Z) (n : Z) : bool := (n >? 0) && bool_decide (is_Some data).

(** Completion lengths the users of the interfaces may rely on. *)
Definition packet_len_ok (m : Z) (_ k : Z) : bool := (k >=? 0) && (k <=? m).
Definition stream_len_ok (n k : Z) : bool := (k >? 0) && (k <=? n).

Lemma packet_recv_done_ok m i d n k :
  OpInterface.busy_with m d n i -> PacketRecvInterface.done_ok i k = packet_len_ok m n k.
Proof. intros (Hm & _). unfold PacketRecvInterface.done_ok. by rewrite Hm. Qed.

(** [PacketRecvInterface], [StreamPassInterface] and [StreamRecvInterface]
    meet their protocols on every job queue: no assertion fails while user and
    provider follow the automaton; the provider is called with the user's
    arguments, and the user with the provider's completion length, which is at
    most the MTU, or positive and at most the length asked for. *)
Theorem op_interface_protocols (w : OpInterface.world (G:=G)) (m : Z) (H0 : gmap Z (Z * Z)) (l0 : list Z)
    (Hm : 0 <= m) (R : jq_rep (OpInterface.pg w) H0 l0)
    (F : OpInterface.fresh job_operation job_done others H0 l0) :
  OpInterface.protocol_holds job_operation job_done PacketRecvInterface.start_ok
    PacketRecvInterface.done_ok m others (packet_args_ok m) (packet_len_ok m) w /\
  OpInterface.protocol_holds job_operation job_done StreamPassInterface.start_ok
    StreamPassInterface.done_ok 0 others stream_args_ok stream_len_ok w /\
  OpInterface.protocol_holds job_operation job_done StreamRecvInterface.start_ok
    StreamRecvInterface.done_ok 0 others stream_args_ok stream_len_ok w.
Proof.
  split_and!; eapply OpInterface.protocol; try done.
  1: intros i d n Hi; unfold PacketRecvInterface.start_ok; by rewrite Hi.
  all: intros i d n k Hb.
  - by apply (packet_recv_done_ok m i d).
  - destruct Hb as (_ & _ & <-). done.
  - destruct Hb as (_ & _ & <-). done.
Qed.
End Protocols.

(** A job group right after [BPendingGroup_Init]. *)
Definition empty_group : BPending.group := BPending.mk (SLinkedList.mk None ∅ ∅) ∅ ∅ 0.

Lemma empty_group_rep : jq_rep empty_group ∅ [].
Proof.
  destruct (wp_ok _ _ _ (BPending.group_init_rep (O:=unit) empty_group)) as (u & g & tr & E & _ & R).
  vm_compute in E. injection E as <- <- <-. exact R.
Qed.

Lemma packet_pass_protocol_witness :
  exists w0, PacketPassInterface.setup 1 2 3 1500 true
    (PacketPassInterface.W (PacketPassInterface.mk 0 false false None 0 STATE_NONE false) empty_group)
    = Ok tt w0 [].
Proof.
  destruct (PacketPassInterface.packet_pass_protocol 1 2 3 1500 true (fun _ => false)
    (PacketPassInterface.W (PacketPassInterface.mk 0 false false None 0 STATE_NONE false) empty_group)
    ∅ [] ltac:(lia) empty_group_rep) as (w0 & E & _).
  - split; [lia | | by intros o h; rewrite lookup_empty | done].
    intros j _. split; [apply lookup_empty | apply not_elem_of_nil].
  - exists w0. exact E.
Defined.

Lemma op_interface_protocols_witness :
  OpInterface.protocol_holds 1 2 PacketRecvInterface.start_ok
    PacketRecvInterface.done_ok 1500 (fun _ => false) (packet_args_ok 1500) (packet_len_ok 1500)
    (OpInterface.W (OpInterface.mk 0 false None 0 0 STATE_NONE) empty_group).
Proof.
  apply (op_interface_protocols 1 2 (fun _ => false)
    (OpInterface.W (OpInterface.mk 0 false None 0 0 STATE_NONE) empty_group) 1500 ∅ []);
    [lia | exact empty_group_rep |].
  split; [lia | | by intros o h; rewrite lookup_empty | done].
  intros j _. split; [apply lookup_empty | apply not_elem_of_nil].
Defined.
