(* ===== verification/PacketBuffer.v ===== *)
(** * PacketBuffer: a queue between a packet source and a packet sink

    Model of [badvpn/flow/PacketBuffer.c].  The component owns a packet queue
    ([PacketFifo], implemented by [ChunkBuffer2]); its outputs are the operations
    it starts on its two interfaces.  [system] closes it with the environment:
    the receive operation in progress holds the pointer the source stores the
    next packet at, the send operation in progress the pointer and length the
    sink reads from.

    The theorems show, for any sequence of arrivals and completions, that no
    assertion fails, packets leave in the order they came in and unchanged, the
    memory under an operation in progress is not touched, and reception is
    suspended only while the queue is at its nominal capacity. *)

From S2P Require Import Prelude ChunkBuffer.
Open Scope mon_scope.

Module PacketBuffer.

(** Operations started on the input and output interfaces. *)
Inductive out :=
  | Receiver_Recv (data : option Z)
  | Sender_Send (data : option Z) (data_len : Z).

Section Component.
Context {B : Type} `{PacketFifo B}.

Record t := mk { buf : B; input_mtu : Z }.

Definition on_buf {A} (m : M B out A) : M t out A :=
  zoom buf (fun b s => mk b (input_mtu s)) m.

Definition input_handler_done (in_len : Z) : M t out unit :=
  s <- get ;;
  assert (in_len >=? 0) ;;
  assert (in_len <=? input_mtu s) ;;
  let was_empty := pf_output_avail (buf s) <? 0 in
  on_buf (pf_submit in_len) ;;
  s <- get ;;
  (when pf_input_avail (buf s) >=? input_mtu s do emit (Receiver_Recv (pf_input_dest (buf s)))) ;;
  when was_empty do emit (Sender_Send (pf_output_dest (buf s)) (pf_output_avail (buf s))).

Definition output_handler_done : M t out unit :=
  s <- get ;;
  let was_full := pf_input_avail (buf s) <? input_mtu s in
  on_buf pf_consume ;;
  s <- get ;;
  (when was_full && (pf_input_avail (buf s) >=? input_mtu s)
   do emit (Receiver_Recv (pf_input_dest (buf s)))) ;;
  when pf_output_avail (buf s) >=? 0
  do emit (Sender_Send (pf_output_dest (buf s)) (pf_output_avail (buf s))).

(** [PacketBuffer_Init]: [mem] is the memory [BAllocArray] returned ([None] when
    it fails).  The result is the buffer and the first receive operation. *)
Definition Init (input_mtu output_mtu num_packets : Z) (mem : option (list Z)) :
    option (t * list out) :=
  if negb (output_mtu >=? input_mtu) || negb (num_packets >? 0) then None else
  match mem with
  | None => None
  | Some mem =>
      match pf_init mem input_mtu num_packets with
      | None => None
      | Some b => Some (mk b input_mtu, [Receiver_Recv (pf_input_dest b)])
      end
  end.

(** ** The component in its environment *)

Record system := sys {
  pb : t;
  recv : option (option Z);             (** receive operation in progress *)
  send : option (option Z * Z);         (** send operation in progress *)
  arrived : list (list Z);              (** packets the source delivered *)
  delivered : list (list Z);            (** packets the sink finished with *)
}.

Inductive event :=
  | Arrive (data : list Z)      (** the source stores a packet and completes *)
  | Depart.                     (** the sink takes the packet and completes *)

(** An interface accepts an operation only when none is in progress, and the
    arguments satisfy its assertions. *)
Definition start (o : out) (s : system) : option system :=
  match o with
  | Receiver_Recv d =>
      match recv s with
      | None => Some (sys (pb s) (Some d) (send s) (arrived s) (delivered s))
      | Some _ => None
      end
  | Sender_Send d n =>
      match send s with
      | None => if 0 <=? n then Some (sys (pb s) (recv s) (Some (d, n)) (arrived s) (delivered s)) else None
      | Some _ => None
      end
  end.

Fixpoint starts (os : list out) (s : system) : option system :=
  match os with
  | [] => Some s
  | o :: os' => s' ← start o s; starts os' s'
  end.

Definition run_handler (m : M t out unit) (s : system) : option system :=
  match m (pb s) with
  | Ok _ p os => starts os (sys p (recv s) (send s) (arrived s) (delivered s))
  | Fault _ => None
  end.

(** The source may deliver at most [input_mtu] bytes, at the pointer of its
    receive operation.  The sink reads the bytes when it is done with them. *)
Definition event_step (e : event) (s : system) : option system :=
  match e with
  | Arrive d =>
      run_handler (on_buf (pf_store d) ;; input_handler_done (zlen d))
        (sys (pb s) None (send s) (arrived s ++ [d]) (delivered s))
  | Depart =>
      match send s with
      | Some (Some p, n) =>
          let d := mread (pf_mem (buf (pb s))) p n in
          run_handler output_handler_done
            (sys (pb s) (recv s) None (arrived s) (delivered s ++ [d]))
      | _ => None
      end
  end.

(** What the environment may do next. *)
Definition enabled (e : event) (s : system) : bool :=
  match e with
  | Arrive d => bool_decide (is_Some (recv s)) && (zlen d <=? input_mtu (pb s))
  | Depart => bool_decide (is_Some (send s))
  end.

Fixpoint event_steps (es : list event) (s : system) : option system :=
  match es with
  | [] => Some s
  | e :: es' => if enabled e s then s' ← event_step e s; event_steps es' s' else Some s
  end.

(** ** Invariant *)

Context (m num : Z).

Record inv (s : system) (queue : list (list Z)) : Prop := mk_inv {
  inv_rep : pf_rep (buf (pb s)) queue;
  inv_config : pf_config (buf (pb s)) m num;
  inv_mtu : input_mtu (pb s) = m;
  inv_nonneg : 0 <= m;
  inv_small : Forall (fun d => zlen d <= m) queue;
  inv_flow : arrived s = delivered s ++ queue;
  inv_recv : recv s = if pf_input_avail (buf (pb s)) >=? m then Some (pf_input_dest (buf (pb s))) else None;
  inv_send : send s = match queue with
                      | [] => None
                      | _ :: _ => Some (pf_output_dest (buf (pb s)), pf_output_avail (buf (pb s)))
                      end;
}.

Lemma wp_on_buf {A} (mm : M B out A) s Q :
  wp mm (buf s) (fun a b tr => Q a (mk b (input_mtu s)) tr) -> wp (on_buf mm) s Q.
Proof. intros HH. apply wp_zoom. unfold wp in HH. by destruct (mm (buf s)). Qed.

Lemma output_avail_sign b queue : pf_rep b queue ->
  (pf_output_avail b <? 0) = bool_decide (queue = []) /\
  (pf_output_avail b >=? 0) = bool_decide (queue <> []).
Proof.
  intros R. apply pf_output in R. destruct queue as [|d q].
  - destruct R as [_ ->]. done.
  - destruct R as (p & _ & -> & _). pose proof (zlen_nonneg d). split.
    + rewrite bool_decide_false by done. lia.
    + rewrite bool_decide_true by done. lia.
Qed.

(** *** The handlers *)

Definition recv_out (b : B) : list out := if pf_input_avail b >=? m then [Receiver_Recv (pf_input_dest b)] else [].
Definition send_out (b : B) : list out := [Sender_Send (pf_output_dest b) (pf_output_avail b)].

Lemma input_handler_done_wp s queue d p : pf_rep (buf s) queue -> pf_config (buf s) m num -> input_mtu s = m ->
  pf_input_dest (buf s) = Some p -> m <= pf_input_avail (buf s) -> zlen d <= m -> mread (pf_mem (buf s)) p (zlen d) = d ->
  wp (input_handler_done (zlen d)) s (fun _ s' os => pf_rep (buf s') (queue ++ [d]) /\ pf_config (buf s') m num /\ input_mtu s' = m /\
    os = recv_out (buf s') ++ (if bool_decide (queue = []) then send_out (buf s') else []) /\
    (queue <> [] -> pf_output_dest (buf s') = pf_output_dest (buf s))).
Proof.
  intros R C Hm Hp Ha Hd Hmem. pose proof (zlen_nonneg d). destruct (output_avail_sign _ _ R) as [Hempty _].
  unfold input_handler_done. do 3 wp_step. wp_step; [lia|]. wp_step. wp_step; [lia|].
  rewrite Hempty. wp_step. apply wp_on_buf.
  eapply wp_mono; [apply (pf_submit_spec _ queue d p m num); try done; lia|].
  intros _ b2 tr (-> & R2 & C2 & Ho2). do 3 wp_step. cbn [buf input_mtu]. unfold recv_out, send_out. rewrite Hm.
  destruct (pf_input_avail b2 >=? m) eqn:E; wp_step; destruct queue as [|x q]; rewrite ?bool_decide_true, ?bool_decide_false by done; wp_step;
    split_and!; try done; cbn [buf]; by rewrite E.
Qed.

Lemma output_handler_done_wp s d queue : pf_rep (buf s) (d :: queue) -> pf_config (buf s) m num -> input_mtu s = m ->
  wp output_handler_done s (fun _ s' os => pf_rep (buf s') queue /\ pf_config (buf s') m num /\ input_mtu s' = m /\
    os = (if pf_input_avail (buf s) >=? m then [] else recv_out (buf s')) ++ (if bool_decide (queue = []) then [] else send_out (buf s')) /\
    (forall p, pf_input_dest (buf s) = Some p -> pf_input_dest (buf s') = Some p) /\
    pf_input_avail (buf s) <= pf_input_avail (buf s') /\ pf_mem (buf s') = pf_mem (buf s)).
Proof.
  intros R C Hm. unfold output_handler_done. do 3 wp_step. apply wp_on_buf.
  eapply wp_mono; [by apply (pf_consume_spec _ d queue m num)|].
  intros _ b2 tr (-> & R2 & C2 & Hin & Hav & Hmem). do 3 wp_step. cbn [buf input_mtu].
  destruct (output_avail_sign _ _ R2) as [_ Hpos]. unfold recv_out, send_out. rewrite Hm, Hpos.
  destruct (Z.geb_spec (pf_input_avail (buf s)) m) as [Ha|Ha].
  - replace (pf_input_avail (buf s) <? m) with false by lia. cbn [andb]. wp_step.
    destruct queue; rewrite ?bool_decide_true, ?bool_decide_false by auto; wp_step; by split_and!.
  - replace (pf_input_avail (buf s) <? m) with true by lia. cbn [andb].
    destruct (pf_input_avail b2 >=? m) eqn:E; wp_step; destruct queue; rewrite ?bool_decide_true, ?bool_decide_false by auto; wp_step;
      split_and!; try done; cbn [buf]; by rewrite E.
Qed.

(** The send operation that goes with the queue. *)
Definition send_op (b : B) (queue : list (list Z)) : option (option Z * Z) :=
  match queue with [] => None | _ :: _ => Some (pf_output_dest b, pf_output_avail b) end.

Lemma send_op_same b b' d q q' : pf_rep b (d :: q) -> pf_rep b' (d :: q') -> pf_output_dest b' = pf_output_dest b ->
  send_op b' (d :: q') = send_op b (d :: q).
Proof. intros R R' E. apply pf_output in R as (p1 & _ & P1 & _), R' as (p2 & _ & P2 & _). cbn. by rewrite E, P1, P2. Qed.

(** *** Events *)

Lemma run_handler_wp (mm : M t out unit) s (P : system -> Prop) :
  wp mm (pb s) (fun _ p os =>
    exists s', starts os (sys p (recv s) (send s) (arrived s) (delivered s)) = Some s' /\ P s') ->
  exists s', run_handler mm s = Some s' /\ P s'.
Proof. unfold wp, run_handler. by destruct (mm (pb s)). Qed.

Lemma starts_ops p r sd ar de b rs (ss : bool) queue : buf p = b -> pf_rep b queue ->
  (rs = true -> r = None) -> (ss = true -> sd = None /\ queue <> []) ->
  exists s', starts ((if rs then recv_out b else []) ++ (if ss then send_out b else [])) (sys p r sd ar de) = Some s' /\
    s' = sys p (if rs && (pf_input_avail b >=? m) then Some (pf_input_dest b) else r)
      (if ss then Some (pf_output_dest b, pf_output_avail b) else sd) ar de.
Proof.
  intros Hb R Hr Hs. destruct (output_avail_sign _ _ R) as [_ Hpos]. unfold recv_out, send_out.
  destruct ss; [destruct (Hs eq_refl) as [-> Hne]; rewrite (bool_decide_true _ Hne) in Hpos; assert (H0 : 0 <=? pf_output_avail b = true) by lia|];
    destruct rs; [rewrite (Hr eq_refl)|..]; try destruct (pf_input_avail b >=? m); cbn; rewrite ?H0; eauto.
  all: rewrite (Hr eq_refl); eauto.
Qed.

Lemma arrive_inv s queue d :
  inv s queue -> enabled (Arrive d) s = true ->
  exists s', event_step (Arrive d) s = Some s' /\ inv s' (queue ++ [d]).
Proof.
  intros [R C Hm H0 Hs Hf Hr Hq] [He1 He2]%andb_true_iff. rewrite Hm in He2.
  apply bool_decide_eq_true in He1. rewrite Hr in He1.
  destruct (Z.geb_spec (pf_input_avail (buf (pb s))) m) as [Ha|]; [|by destruct He1].
  destruct (pf_input _ _ m R ltac:(lia)) as [p Hp].
  cbn [event_step]. apply run_handler_wp. cbn [pb recv send arrived delivered]. wp_step.
  apply wp_on_buf. eapply wp_mono; [apply (pf_store_spec _ queue d p m num); try done; lia|].
  intros _ b1 tr (-> & R1 & C1 & Hp1 & Ha1 & Ho1 & Hrd).
  eapply wp_mono; [apply (input_handler_done_wp (mk b1 (input_mtu (pb s))) queue d p); try done; cbn; lia|].
  intros _ s2 os (R2 & C2 & Hm2 & -> & Ho2). cbn [app buf] in *.
  destruct (starts_ops s2 None (send s) (arrived s ++ [d]) (delivered s) (buf s2) true (bool_decide (queue = [])) (queue ++ [d])) as (s' & E & ->);
    [done | done | done | intros ->%bool_decide_eq_true; by split|].
  eexists. split; [exact E|]. split; cbn [pb buf input_mtu recv send arrived delivered andb]; try done.
  - apply Forall_app_2; [done|]. repeat constructor. lia.
  - by rewrite app_assoc, <- Hf.
  - rewrite Hq. destruct queue as [|x q]; [done|]. rewrite bool_decide_false by done.
    symmetry. apply (send_op_same (buf (pb s)) (buf s2) x q (q ++ [d])); [done | done | by rewrite Ho2, Ho1].
Qed.

Lemma depart_inv s queue :
  inv s queue -> enabled Depart s = true ->
  exists s' d queue', queue = d :: queue' /\ event_step Depart s = Some s' /\ inv s' queue'.
Proof.
  intros [R C Hm H0 Hs Hf Hr Hq] He%bool_decide_eq_true. rewrite Hq in He.
  destruct queue as [|d queue]; [by destruct He|].
  pose proof (pf_output _ _ R) as (p & P1 & P2 & P3).
  assert (Hs' := Forall_inv_tail Hs).
  cut (exists s', event_step Depart s = Some s' /\ inv s' queue); [intros (s' & ? & ?); by exists s', d, queue|].
  cbn [event_step]. rewrite Hq, P1, P2, P3. apply run_handler_wp. cbn [pb recv send arrived delivered].
  eapply wp_mono; [by apply (output_handler_done_wp (pb s) d queue)|].
  intros _ s2 os (R2 & C2 & Hm2 & -> & Hin & Hav & _). set (full := negb (pf_input_avail (buf (pb s)) >=? m)).
  destruct (starts_ops s2 (recv s) None (arrived s) (delivered s ++ [d]) (buf s2) full (negb (bool_decide (queue = []))) queue) as (s' & E & ->);
    [done | done | rewrite Hr; unfold full; by destruct (_ >=? m) | intros Hne; by destruct (bool_decide_reflect (queue = [])) |].
  eexists. split; [unfold full in E; rewrite !if_negb in E; exact E|].
  split; cbn [pb buf input_mtu recv send arrived delivered]; try done.
  - by rewrite <- app_assoc.
  - rewrite Hr. unfold full. destruct (Z.geb_spec (pf_input_avail (buf (pb s))) m) as [Ha|Ha]; cbn [negb andb].
    + destruct (pf_input _ _ m R ltac:(lia)) as [q Hin1]. rewrite (Hin q Hin1), Hin1. destruct (Z.geb_spec (pf_input_avail (buf s2)) m); [done | lia].
    + done.
  - by destruct queue.
Qed.

Lemma event_steps_inv es s queue : inv s queue ->
  exists s' queue', event_steps es s = Some s' /\ inv s' queue'.
Proof.
  revert s queue. induction es as [|e es IH]; intros s queue Hi; cbn [event_steps]; [eauto|].
  destruct (enabled e s) eqn:E; [|eauto]. destruct e as [d|].
  - destruct (arrive_inv _ _ _ Hi E) as (s' & -> & Hi'). by apply (IH s' (queue ++ [d])).
  - destruct (depart_inv _ _ Hi E) as (s' & d & q & -> & -> & Hi'). by apply (IH s' q).
Qed.

(** The system right after [PacketBuffer_Init]. *)
Definition boot (p : t) (os : list out) : option system := starts os (sys p None None [] []).

Lemma boot_inv output_mtu mem p os :
  0 <= m <= INT_MAX -> 0 < num <= INT_MAX -> 0 <= pf_alloc m num <= INT_MAX ->
  zlen mem = pf_alloc m num -> Init m output_mtu num (Some mem) = Some (p, os) ->
  exists s0, boot p os = Some s0 /\ inv s0 [].
Proof.
  intros Hm Hn Ha Hmem. unfold Init.
  destruct (negb (output_mtu >=? m) || negb (num >? 0)); [done|].
  pose proof (pf_init_spec mem m num Hm Hn (proj2 Ha)) as Hi.
  destruct (Z.ltb_spec (pf_alloc m num) 0); [lia|]. destruct (Hi Hmem) as (b & -> & R & C).
  intros [= <- <-]. eexists. split; [reflexivity|].
  pose proof (pf_capacity b [] m num R C (Forall_nil_2 _)) as Hc.
  split; cbn; try done; [lia|].
  destruct (Z.geb_spec (pf_input_avail b) m); [done|]. rewrite zlen_nil in Hc. lia.
Qed.

(** C35. After [PacketBuffer_Init], whatever packets (up to the MTU) arrive and
    whenever the sink completes: no handler faults or starts an operation twice;
    the packets handed over and still queued are exactly the ones that arrived,
    in order and byte for byte; a packet is being sent whenever one is queued;
    and a receive is in progress whenever fewer than [num] packets are queued. *)
Theorem packet_buffer_fifo (output_mtu : Z) (mem : list Z) (p : t) (os : list out) (es : list event)
    (Hm : 0 <= m <= INT_MAX) (Hn : 0 < num <= INT_MAX) (Ha : 0 <= pf_alloc m num <= INT_MAX)
    (Hmem : zlen mem = pf_alloc m num) (Hinit : Init m output_mtu num (Some mem) = Some (p, os)) :
  exists s0 s queue, boot p os = Some s0 /\ event_steps es s0 = Some s /\
    arrived s = delivered s ++ queue /\
    (is_Some (send s) <-> queue <> []) /\
    (zlen queue < num -> is_Some (recv s)).
Proof.
  destruct (boot_inv output_mtu mem p os Hm Hn Ha Hmem Hinit) as (s0 & E0 & Hi).
  destruct (event_steps_inv es s0 [] Hi) as (s & queue & E & [R C Hmt H0 Hs Hf Hr Hq]).
  exists s0, s, queue. split_and!; try done.
  - rewrite Hq. destruct queue; [|done]. by split; [intros []|].
  - intros Hk. rewrite Hr. pose proof (pf_capacity _ _ _ _ R C Hs Hk).
    destruct (Z.geb_spec (pf_input_avail (buf (pb s))) m); [done | lia].
Qed.
End Component.

Lemma packet_buffer_fifo_witness :
  exists (s0 s : system (B:=ChunkBuffer2.t)) queue,
    event_steps [Arrive [1; 2]; Arrive [3]; Depart; Arrive [4; 5]; Depart] s0 = Some s /\
    arrived s = delivered s ++ queue.
Proof.
  destruct (packet_buffer_fifo (B:=ChunkBuffer2.t) 2 2 1500 (replicate 24 0)
    (mk (ChunkBuffer2.Init (replicate 24 0) 6 2) 2)
    [Receiver_Recv (ChunkBuffer2.input_dest (ChunkBuffer2.Init (replicate 24 0) 6 2))]
    [Arrive [1; 2]; Arrive [3]; Depart; Arrive [4; 5]; Depart])
    as (s0 & s & queue & _ & E & Ef & _); [vm_compute; split; congruence..| | | ].
  - reflexivity.
  - reflexivity.
  - by exists s0, s, queue.
Defined.

End PacketBuffer.
