(* ===== verification/PacketProto.v ===== *)
(** * PacketProto: packets over a byte stream

    Models of [badvpn/flow/PacketProtoEncoder.c], [PacketProtoDecoder.c] and
    [PacketStreamSender.c] with the frame format of
    [badvpn/protocol/packetproto.h]: a 16-bit little-endian length, then that
    many payload bytes.

    [Decoder.system] closes the decoder with a stream source that delivers any
    chunks and a packet sink; the theorems show that it is memory safe for any
    bytes, and that it reconstructs exactly the encoded packets for any way the
    stream is cut into chunks.  [Sender] does the same for the component that
    writes packets to a stream with partial writes. *)

From S2P Require Import Prelude ByteOrder BSize.
Open Scope mon_scope.

#[local] Arguments le_bytes : simpl never.
#[local] Arguments mread : simpl never.
#[local] Arguments mwrite : simpl never.

Definition sizeof_packetproto_header : Z := 2.
Definition PACKETPROTO_MAXPAYLOAD : Z := UINT16_MAX.
Definition PACKETPROTO_ENCLEN (len : Z) : Z := sizeof_packetproto_header + len.

(** Image of [struct packetproto_header] for a payload length. *)
Definition packetproto_header_bytes (len : Z) : list Z := le_bytes 2 (htol16 len).

(** ** The frame format *)

Definition encode (d : list Z) : list Z := packetproto_header_bytes (zlen d) ++ d.
Definition encode_all (ds : list (list Z)) : list Z := concat (map encode ds).

(** The bytes [p] do not yet contain a complete frame of at most [mtu] payload
    bytes, and do not announce a longer one. *)
Definition incomplete (mtu : Z) (p : list Z) : Prop :=
  zlen p < 2 \/ (le_val (take 2 p) <= mtu /\ zlen p < 2 + le_val (take 2 p)).

Lemma zlen_header n : zlen (packetproto_header_bytes n) = 2.
Proof. apply zlen_le_bytes. Qed.

Lemma header_value n : 0 <= n <= PACKETPROTO_MAXPAYLOAD ->
  ltoh16 (le_val (packetproto_header_bytes n)) = n.
Proof.
  unfold PACKETPROTO_MAXPAYLOAD, UINT16_MAX, packetproto_header_bytes, ltoh16, htol16. intros.
  rewrite (u16_id n) by lia. rewrite le_val_bytes by (cbn; lia). apply u16_id. lia.
Qed.

Lemma zlen_encode d : zlen (encode d) = 2 + zlen d.
Proof. unfold encode. by rewrite zlen_app, zlen_header. Qed.

Lemma encode_all_app xs ys : encode_all (xs ++ ys) = encode_all xs ++ encode_all ys.
Proof. unfold encode_all. by rewrite map_app, concat_app. Qed.

Lemma encode_all_one d : encode_all [d] = encode d.
Proof. unfold encode_all. cbn. apply app_nil_r. Qed.

#[local] Arguments encode_all : simpl never.

Lemma take_header d x : take 2 (encode d ++ x) = packetproto_header_bytes (zlen d).
Proof.
  unfold encode. rewrite <- app_assoc. apply take_app_length'.
  pose proof (zlen_header (zlen d)) as H. unfold zlen in *. lia.
Qed.

(** Frames are self-delimiting. *)
Lemma encode_inj d e x y :
  zlen d <= PACKETPROTO_MAXPAYLOAD -> zlen e <= PACKETPROTO_MAXPAYLOAD ->
  encode d ++ x = encode e ++ y -> d = e /\ x = y.
Proof.
  intros Hd He E. pose proof (zlen_nonneg d). pose proof (zlen_nonneg e).
  assert (Hl : zlen d = zlen e).
  { rewrite <- (header_value (zlen d)), <- (header_value (zlen e)) by lia.
    by rewrite <- (take_header d x), <- (take_header e y), E. }
  unfold encode in E. rewrite <- !app_assoc, Hl in E. apply app_inv_head in E.
  apply app_inj_1 in E; [done|]. unfold zlen in Hl. lia.
Qed.

Definition small (mtu : Z) (d : list Z) : Prop := zlen d <= mtu.

(** Whatever was decoded from a prefix of a stream of frames is a prefix of the
    encoded packets, and what is left is a prefix of the remaining frames. *)
Lemma encode_all_prefix mtu ds ps p :
  mtu <= PACKETPROTO_MAXPAYLOAD -> Forall (small mtu) ds -> Forall (small mtu) ps ->
  encode_all ds ++ p `prefix_of` encode_all ps ->
  exists qs, ps = ds ++ qs /\ p `prefix_of` encode_all qs.
Proof.
  intros Hm Hd. revert ps. induction Hd as [|d ds Hd _ IH]; intros ps Hp Hpre; [by exists ps|].
  destruct Hp as [|e ps He Hp].
  - destruct Hpre as [k Hk]. unfold encode_all in Hk. cbn in Hk.
    apply (f_equal zlen) in Hk. rewrite !zlen_app, zlen_encode in Hk. rewrite zlen_nil in Hk.
    pose proof (zlen_nonneg d). pose proof (zlen_nonneg p). pose proof (zlen_nonneg k).
    pose proof (zlen_nonneg (concat (map encode ds))). lia.
  - destruct Hpre as [k Hk]. unfold encode_all in Hk. cbn in Hk. rewrite <- !app_assoc in Hk.
    unfold small in *. symmetry in Hk. apply encode_inj in Hk as [<- Hk]; [|lia|lia].
    destruct (IH ps Hp) as (qs & -> & Hq).
    { exists k. unfold encode_all. by rewrite <- app_assoc. }
    by exists qs.
Qed.

(** ** The decoder *)

Module Decoder.

Record t := mk {
  output_mtu : Z;
  buf_size : Z;
  buf_start : Z;
  buf_used : Z;
  buf : list Z;
}.

Definition set_pos (s u : Z) (e : t) : t := mk (output_mtu e) (buf_size e) s u (buf e).
Definition set_buf (b : list Z) (e : t) : t := mk (output_mtu e) (buf_size e) (buf_start e) (buf_used e) b.

(** Operations on the interfaces, with offsets into [buf], and the error call. *)
Inductive out :=
  | Sender_Send (data data_len : Z)
  | Receiver_Recv (data data_len : Z)
  | Handler_error.

(** The part of [process_data] after the [do ... while (0)] block. *)
Definition receive_more (was_error : bool) : M t out unit :=
  e <- get ;;
  (if was_error then modify (set_pos 0 0)
   else if buf_start e + buf_used e =? buf_size e then
     check_block (zlen (buf e)) (buf_start e) (buf_used e) ;;
     modify (set_buf (mwrite (buf e) 0 (mread (buf e) (buf_start e) (buf_used e)))) ;;
     modify (fun e => set_pos 0 (buf_used e) e)
   else ret tt) ;;
  e <- get ;;
  emit (Receiver_Recv (buf_start e + buf_used e) (buf_size e - (buf_start e + buf_used e))) ;;
  when was_error do emit Handler_error.

Definition process_data : M t out unit :=
  e <- get ;;
  let left := buf_used e in
  if left <? sizeof_packetproto_header then receive_more false else
  check_block (zlen (buf e)) (buf_start e) sizeof_packetproto_header ;;
  let data_len := ltoh16 (le_val (mread (buf e) (buf_start e) sizeof_packetproto_header)) in
  let data := buf_start e + sizeof_packetproto_header in
  let left := left - sizeof_packetproto_header in
  if data_len >? output_mtu e then receive_more true else
  if left <? data_len then receive_more false else
  modify (set_pos (buf_start e + (sizeof_packetproto_header + data_len))
                  (buf_used e - (sizeof_packetproto_header + data_len))) ;;
  emit (Sender_Send data data_len).

Definition input_handler_done (data_len : Z) : M t out unit :=
  e <- get ;;
  assert (data_len >? 0) ;;
  assert (data_len <=? buf_size e - (buf_start e + buf_used e)) ;;
  modify (set_pos (buf_start e) (buf_used e + data_len)) ;;
  process_data.

Definition output_handler_done : M t out unit := process_data.

(** [PacketProtoDecoder_Init]; [mem] is what [malloc(buf_size)] returned. *)
Definition Init (output_interface_mtu : Z) (mem : Z -> option (list Z)) : option (t * list out) :=
  let output_mtu := bmin_int output_interface_mtu PACKETPROTO_MAXPAYLOAD in
  let buf_size := PACKETPROTO_ENCLEN output_mtu in
  match mem buf_size with
  | None => None
  | Some b => Some (mk output_mtu buf_size 0 0 b, [Receiver_Recv 0 buf_size])
  end.

Definition Reset : M t out unit :=
  modify (fun e => set_pos (buf_start e + buf_used e) 0 e).

(** *** The decoder between a stream source and a packet sink *)

Record system := sys {
  dec : t;
  recv : option (Z * Z);          (** stream receive in progress *)
  send : option (Z * Z);          (** packet send in progress *)
  rx : list Z;                    (** all bytes the source delivered *)
  delivered : list (list Z);      (** packets the sink finished with *)
  lost : bool;                    (** bytes were discarded (error or reset) *)
}.

Definition start (o : out) (s : system) : option system :=
  match o with
  | Receiver_Recv d n =>
      match recv s with
      | None =>
          if (n >? 0) && in_block (zlen (buf (dec s))) d n
          then Some (sys (dec s) (Some (d, n)) (send s) (rx s) (delivered s) (lost s)) else None
      | Some _ => None
      end
  | Sender_Send d n =>
      match send s with
      | None =>
          if (n <=? output_mtu (dec s)) && in_block (zlen (buf (dec s))) d n
          then Some (sys (dec s) (recv s) (Some (d, n)) (rx s) (delivered s) (lost s)) else None
      | Some _ => None
      end
  | Handler_error => Some (sys (dec s) (recv s) (send s) (rx s) (delivered s) true)
  end.

Fixpoint starts (os : list out) (s : system) : option system :=
  match os with
  | [] => Some s
  | o :: os' => s' ← start o s; starts os' s'
  end.

Definition run_handler (m : M t out unit) (s : system) : option system :=
  match m (dec s) with
  | Ok _ e os => starts os (sys e (recv s) (send s) (rx s) (delivered s) (lost s))
  | Fault _ => None
  end.

Inductive event :=
  | Chunk (data : list Z)      (** the source stores some bytes and completes *)
  | Taken                      (** the sink takes the packet and completes *)
  | Do_reset.                  (** the owner calls [PacketProtoDecoder_Reset] *)

Definition enabled (ev : event) (s : system) : bool :=
  match ev with
  | Chunk c => match recv s with Some (_, n) => (0 <? zlen c) && (zlen c <=? n) && bool_decide (bytes_ok c) | None => false end
  | Taken => bool_decide (is_Some (send s))
  | Do_reset => true
  end.

Definition event_step (ev : event) (s : system) : option system :=
  match ev with
  | Chunk c =>
      match recv s with
      | Some (d, _) =>
          run_handler (input_handler_done (zlen c))
            (sys (set_buf (mwrite (buf (dec s)) d c) (dec s)) None (send s) (rx s ++ c)
                 (delivered s) (lost s))
      | None => None
      end
  | Taken =>
      match send s with
      | Some (d, n) =>
          run_handler output_handler_done
            (sys (dec s) (recv s) None (rx s) (delivered s ++ [mread (buf (dec s)) d n]) (lost s))
      | None => None
      end
  | Do_reset => run_handler Reset (sys (dec s) (recv s) (send s) (rx s) (delivered s) true)
  end.

Fixpoint event_steps (evs : list event) (s : system) : option system :=
  match evs with
  | [] => Some s
  | ev :: evs' => if enabled ev s then s' ← event_step ev s; event_steps evs' s' else Some s
  end.

(** *** Invariant *)

Definition pending (e : t) : list Z := mread (buf e) (buf_start e) (buf_used e).

Record wf (e : t) : Prop := mk_wf {
  wf_mtu : 0 <= output_mtu e <= PACKETPROTO_MAXPAYLOAD;
  wf_size : buf_size e = 2 + output_mtu e;
  wf_buf : zlen (buf e) = buf_size e;
  wf_bytes : bytes_ok (buf e);
  wf_pos : 0 <= buf_start e /\ 0 <= buf_used e /\ buf_start e + buf_used e <= buf_size e;
}.

(** The packet being sent, if any. *)
Definition in_flight (s : system) : list (list Z) :=
  match send s with
  | Some (d, n) => [mread (buf (dec s)) d n]
  | None => []
  end.

Record inv (m : Z) (s : system) : Prop := mk_inv {
  inv_wf : wf (dec s);
  inv_mtu : output_mtu (dec s) = m;
  inv_mode :
    match recv s, send s with
    | Some (d, n), None =>
        d = buf_start (dec s) + buf_used (dec s) /\ n = buf_size (dec s) - d /\ 0 < n /\
        incomplete m (pending (dec s))
    | None, Some (d, n) => 0 <= d /\ 0 <= n <= m /\ d + n <= buf_start (dec s)
    | _, _ => False
    end;
  inv_small : Forall (small m) (delivered s);
  inv_flow : lost s = false -> rx s = encode_all (delivered s ++ in_flight s) ++ pending (dec s);
}.

Lemma decoder_run_wp (m : M t out unit) s (P : system -> Prop) :
  wp m (dec s) (fun _ e os =>
    exists s', starts os (sys e (recv s) (send s) (rx s) (delivered s) (lost s)) = Some s' /\ P s') ->
  exists s', run_handler m s = Some s' /\ P s'.
Proof. unfold wp, run_handler. by destruct (m (dec s)). Qed.

Lemma zlen_pending e : wf e -> zlen (pending e) = buf_used e.
Proof. intros [H1 H2 H3 _ H4]. unfold pending. apply zlen_mread; lia. Qed.

(** Length announced at the front of the pending bytes. *)
Lemma pending_header e : wf e -> 2 <= buf_used e ->
  le_val (take 2 (pending e)) = ltoh16 (le_val (mread (buf e) (buf_start e) 2)) /\
  0 <= ltoh16 (le_val (mread (buf e) (buf_start e) 2)).
Proof.
  intros [H1 H2 H3 Hb H4] Hu. unfold pending, ltoh16, htol16.
  assert (E : take 2 (mread (buf e) (buf_start e) (buf_used e)) = mread (buf e) (buf_start e) 2).
  { unfold mread. rewrite take_take. f_equal. lia. }
  rewrite E. pose proof (mread_bytes_ok (buf e) (buf_start e) 2 Hb) as Hr.
  apply le_val_range in Hr. rewrite zlen_mread in Hr by lia. change (256 ^ 2) with 65536 in Hr.
  rewrite u16_id by lia. lia.
Qed.

(** A complete frame at the front of the pending bytes. *)
Lemma pending_frame e n : wf e -> 2 <= buf_used e ->
  n = ltoh16 (le_val (mread (buf e) (buf_start e) 2)) -> 2 + n <= buf_used e ->
  pending e = encode (mread (buf e) (buf_start e + 2) n) ++
              mread (buf e) (buf_start e + (2 + n)) (buf_used e - (2 + n)).
Proof.
  intros W Hu Hn Hc. destruct (pending_header e W Hu) as [Hh H0]. destruct W as [H1 H2 H3 Hb H4].
  assert (Hmax : n <= 65535) by (subst n; unfold ltoh16, htol16; pose proof (u16_range (le_val (mread (buf e) (buf_start e) 2))); lia).
  unfold pending, encode. rewrite zlen_mread by lia.
  replace (packetproto_header_bytes n) with (mread (buf e) (buf_start e) 2).
  { rewrite <- app_assoc.
    rewrite (mread_join _ (buf_start e + 2) n _ _ (buf_used e - 2)) by lia.
    rewrite (mread_join _ (buf_start e) 2 _ _ (buf_used e)) by lia. done. }
  unfold packetproto_header_bytes, htol16. rewrite u16_id by lia. subst n.
  pose proof (mread_bytes_ok (buf e) (buf_start e) 2 Hb) as Hr.
  pose proof (le_val_range _ Hr) as Hv. rewrite zlen_mread in Hv by lia. change (256 ^ 2) with 65536 in Hv.
  unfold ltoh16, htol16. rewrite u16_id by lia.
  rewrite <- (le_bytes_val (mread (buf e) (buf_start e) 2)) at 1 by done.
  f_equal. pose proof (zlen_mread (buf e) (buf_start e) 2 ltac:(lia) ltac:(lia) ltac:(lia)) as Hz.
  unfold zlen in Hz. lia.
Qed.

(** Discharge the check an interface makes on the arguments of an operation. *)
Ltac guard_true :=
  match goal with
  | |- context [if ?b then Some _ else None] =>
      replace b with true by (symmetry; unfold in_block; rewrite ?andb_true_iff; cbn in *; lia)
  end; cbn.

Lemma receive_more_inv m e rxx del l err :
  wf e -> output_mtu e = m -> Forall (small m) del ->
  (err = false -> incomplete m (pending e)) ->
  (l = false -> rxx = encode_all del ++ pending e) ->
  wp (receive_more err) e (fun _ e' os =>
    exists s', starts os (sys e' None None rxx del l) = Some s' /\ inv m s' /\
      rx s' = rxx /\ delivered s' = del /\ lost s' = l || err).
Proof.
  intros W Hm Hs Hi Hf. pose proof (zlen_pending e W) as Hz. destruct W as [H1 H2 H3 Hb H4] eqn:EW.
  unfold receive_more. do 3 wp_step. destruct err.
  - repeat wp_step. cbn [starts start app mbind option_bind recv send dec rx delivered lost].
    guard_true. eexists. split; [reflexivity|]. split; [|by rewrite orb_true_r].
    split; cbn; try done; [by split; cbn; try lia | split_and!; try lia; left; reflexivity].
  - specialize (Hi eq_refl). rewrite orb_false_r.
    destruct (Z.eqb_spec (buf_start e + buf_used e) (buf_size e)) as [E|E].
    + assert (Hu : 0 <= buf_used e < buf_size e).
      { destruct Hi as [Hi|[Hi1 Hi2]]; rewrite Hz in *; lia. }
      wp_step. wp_step; [lia|]. repeat wp_step.
      set (b' := mwrite (buf e) 0 (mread (buf e) (buf_start e) (buf_used e))).
      assert (Hb' : zlen b' = zlen (buf e)) by (apply zlen_mwrite; [lia | rewrite zlen_mread; lia]).
      assert (Hp : mread b' 0 (buf_used e) = pending e).
      { unfold b'. fold (pending e). rewrite <- Hz at 1. apply mread_mwrite_same; lia. }
      cbn [starts start app mbind option_bind recv send dec rx delivered lost].
      guard_true. eexists. split; [reflexivity|]. split; [|done].
      split; cbn; try done.
      * split; cbn; try done; [by rewrite Hb' | | lia].
        apply mwrite_bytes_ok; [done | by apply mread_bytes_ok].
      * split_and!; try lia. unfold pending. cbn. by rewrite Hp.
      * intros Hl. rewrite app_nil_r. unfold pending at 1. cbn. rewrite Hp. by apply Hf.
    + repeat wp_step. cbn [starts start app mbind option_bind recv send dec rx delivered lost].
      guard_true. eexists. split; [reflexivity|]. split; [|done].
      split; cbn; try done; [split_and!; try done; lia|]. intros Hl. rewrite app_nil_r. by apply Hf.
Qed.

Lemma process_data_inv m e rxx del l :
  wf e -> output_mtu e = m -> Forall (small m) del ->
  (l = false -> rxx = encode_all del ++ pending e) ->
  wp process_data e (fun _ e' os =>
    exists s', starts os (sys e' None None rxx del l) = Some s' /\ inv m s' /\
      rx s' = rxx /\ delivered s' = del /\
      (lost s' = true -> l = true \/ (2 <= zlen (pending e) /\ m < le_val (take 2 (pending e))))).
Proof.
  intros W Hm Hs Hf. pose proof (zlen_pending e W) as Hz.
  assert (Hmore : forall err, (err = false -> incomplete m (pending e)) ->
    (err = true -> 2 <= zlen (pending e) /\ m < le_val (take 2 (pending e))) ->
    wp (receive_more err) e (fun _ e' os =>
      exists s', starts os (sys e' None None rxx del l) = Some s' /\ inv m s' /\
        rx s' = rxx /\ delivered s' = del /\
        (lost s' = true -> l = true \/ (2 <= zlen (pending e) /\ m < le_val (take 2 (pending e)))))).
  { intros err Hi He. eapply wp_mono; [by apply (receive_more_inv m e rxx del l err)|].
    intros _ e' os (s' & E & I & R & D & L). exists s'. split_and!; try done. rewrite L.
    intros [Hl|Hl]%orb_true_iff; [by left | right; by apply He]. }
  unfold process_data, sizeof_packetproto_header. do 2 wp_step.
  destruct (Z.ltb_spec (buf_used e) 2) as [Hu|Hu].
  { apply Hmore; [|done]. intros _. left. lia. }
  destruct (pending_header e W Hu) as [Hh H0]. set (n := ltoh16 _) in *.
  pose proof W as [H1 H2 H3 Hb H4]. wp_step. wp_step; [lia|].
  destruct (Z.gtb_spec n (output_mtu e)) as [Hbig|Hbig]; [apply Hmore; [done | lia]|].
  destruct (Z.ltb_spec (buf_used e - 2) n) as [Hs2|Hs2].
  { apply Hmore; [|done]. intros _. right. rewrite Hh. lia. }
  pose proof (pending_frame e n W Hu eq_refl ltac:(lia)) as Hfr.
  repeat wp_step. cbn [starts start app mbind option_bind recv send dec rx delivered lost].
  guard_true. eexists. split; [reflexivity|]. split; [|by auto].
  split; cbn; try done; [split; cbn; try done; lia | lia |].
  intros Hl. rewrite encode_all_app, encode_all_one, (Hf Hl), Hfr. unfold pending. cbn.
  by rewrite app_assoc.
Qed.

(** The bytes announce a frame that is too long. *)
Definition oversized (m : Z) (p : list Z) : Prop := 2 <= zlen p /\ m < le_val (take 2 p).

(** A step loses bytes only on a reset or on an oversized frame. *)
Definition loss_justified (m : Z) (s s' : system) : Prop :=
  lost s' = true ->
  lost s = true \/ exists p, rx s' = encode_all (delivered s') ++ p /\ oversized m p.

Lemma chunk_step m s c : inv m s -> enabled (Chunk c) s = true ->
  exists s', event_step (Chunk c) s = Some s' /\ inv m s' /\ rx s' = rx s ++ c /\
    loss_justified m s s'.
Proof.
  intros [W Hm Hmode Hs Hf]. cbn [enabled event_step].
  destruct (recv s) as [[d n]|] eqn:Er; [|done]. destruct (send s) as [[]|] eqn:Es; [done|].
  destruct Hmode as (-> & -> & Hn & Hi). intros [[H1 H2]%andb_true_iff H3%bool_decide_eq_true]%andb_true_iff.
  pose proof W as [W1 W2 W3 W4 W5]. set (e := dec s) in *.
  apply decoder_run_wp. cbn [dec recv send rx delivered lost].
  set (b' := mwrite (buf e) (buf_start e + buf_used e) c).
  assert (Hb' : zlen b' = zlen (buf e)) by (apply zlen_mwrite; lia).
  set (e1 := set_pos (buf_start e) (buf_used e + zlen c) (set_buf b' e)).
  assert (We : wf e1).
  { split; cbn; try done; [by rewrite Hb' | by apply mwrite_bytes_ok | lia]. }
  assert (Hp : pending e1 = pending e ++ c).
  { unfold pending, e1. cbn. rewrite mread_split by lia. unfold b'.
    rewrite mread_mwrite_before, mread_mwrite_same by lia. done. }
  assert (Hf1 : lost s = false -> rx s ++ c = encode_all (delivered s) ++ pending e1).
  { intros Hl. rewrite Hp, (Hf Hl). unfold in_flight. rewrite Es, app_nil_r. by rewrite app_assoc. }
  unfold input_handler_done. do 3 wp_step. wp_step; [lia|]. wp_step. wp_step; [cbn; lia|].
  do 2 wp_step. change (set_pos _ _ _) with e1.
  eapply wp_mono; [by apply (process_data_inv m e1 (rx s ++ c) (delivered s) (lost s))|].
  intros _ e' os (s' & E & I & R & D & L). exists s'. split_and!; try done.
  intros Hl. destruct (lost s) eqn:El; [by left | right]. destruct (L Hl) as [|Hb]; [done|].
  exists (pending e1). split; [by rewrite R, D; apply Hf1 | done].
Qed.

Lemma taken_step m s : inv m s -> enabled Taken s = true ->
  exists s', event_step Taken s = Some s' /\ inv m s' /\ rx s' = rx s /\ loss_justified m s s'.
Proof.
  intros [W Hm Hmode Hs Hf] He%bool_decide_eq_true. cbn [event_step].
  destruct (send s) as [[d n]|] eqn:Es; [|by destruct He]. destruct (recv s) as [[]|] eqn:Er; [done|].
  destruct Hmode as (M1 & M2 & M3). apply decoder_run_wp. cbn [dec recv send rx delivered lost].
  set (k := mread (buf (dec s)) d n). pose proof W as [W1 W2 W3 W4 W5].
  assert (Hs1 : Forall (small m) (delivered s ++ [k])).
  { apply Forall_app_2; [done|]. repeat constructor. unfold small, k. rewrite zlen_mread by lia. lia. }
  assert (Hf1 : lost s = false -> rx s = encode_all (delivered s ++ [k]) ++ pending (dec s)).
  { intros Hl. rewrite (Hf Hl). unfold in_flight. by rewrite Es. }
  unfold output_handler_done.
  eapply wp_mono; [by apply (process_data_inv m (dec s) (rx s) (delivered s ++ [k]) (lost s))|].
  intros _ e' os (s' & E & I & R & D & L). exists s'. split_and!; try done.
  intros Hl. destruct (lost s) eqn:El; [by left | right]. destruct (L Hl) as [|Hb]; [done|].
  exists (pending (dec s)). split; [by rewrite R, D; apply Hf1 | done].
Qed.

Lemma reset_step m s : inv m s -> exists s', event_step Do_reset s = Some s' /\ inv m s' /\ rx s' = rx s.
Proof.
  intros [W Hm Hmode Hs Hf]. cbn [event_step]. apply decoder_run_wp.
  cbn [dec recv send rx delivered lost]. unfold Reset. wp_step. eexists. split; [reflexivity|].
  split; [|done]. destruct W as [W1 W2 W3 W4 W5]. split; cbn; try done.
  - split; cbn; try done; lia.
  - destruct (recv s) as [[d n]|], (send s) as [[d' n']|]; try done.
    + destruct Hmode as (-> & -> & ? & _). split_and!; try lia. left. reflexivity.
    + lia.
Qed.

Definition no_reset (evs : list event) : Prop := Do_reset ∉ evs.

(** [rx s] is a prefix of a stream of frames that fit the MTU. *)
Definition well_formed (m : Z) (ps : list (list Z)) (bytes : list Z) : Prop :=
  Forall (small m) ps /\ bytes `prefix_of` encode_all ps.

Lemma well_formed_not_oversized m ps ds p :
  m <= PACKETPROTO_MAXPAYLOAD -> Forall (small m) ds ->
  well_formed m ps (encode_all ds ++ p) -> oversized m p -> False.
Proof.
  intros Hm Hd [Hp Hpre] [H2 Hb]. destruct (encode_all_prefix m ds ps p Hm Hd Hp Hpre) as (qs & -> & [k Hk]).
  apply Forall_app in Hp as [_ Hq]. destruct Hq as [|q qs Hq _].
  - apply (f_equal zlen) in Hk. rewrite zlen_app in Hk. change (zlen (encode_all [])) with 0 in Hk.
    pose proof (zlen_nonneg k). lia.
  - change (q :: qs) with ([q] ++ qs) in Hk. rewrite encode_all_app, encode_all_one in Hk.
    assert (E : take 2 p = packetproto_header_bytes (zlen q)).
    { rewrite <- (take_header q (encode_all qs)), Hk, take_app_le; [done|]. unfold zlen in H2. lia. }
    rewrite E in Hb. unfold small in Hq. pose proof (zlen_nonneg q).
    unfold packetproto_header_bytes, htol16, PACKETPROTO_MAXPAYLOAD, UINT16_MAX in *.
    rewrite u16_id, le_val_bytes in Hb; cbn; lia.
Qed.

Lemma event_steps_safe m evs s : inv m s ->
  exists s', event_steps evs s = Some s' /\ inv m s' /\ rx s `prefix_of` rx s'.
Proof.
  revert s. induction evs as [|ev evs IH]; intros s I; cbn [event_steps]; [by exists s|].
  destruct (enabled ev s) eqn:E; [|by exists s].
  assert (exists s', event_step ev s = Some s' /\ inv m s' /\ rx s `prefix_of` rx s') as (s1 & -> & I1 & P1).
  { destruct ev as [c| |].
    - destruct (chunk_step m s c I E) as (s' & ? & ? & R & _). exists s'. rewrite R. split_and!; try done.
      by apply prefix_app_r.
    - destruct (taken_step m s I E) as (s' & ? & ? & R & _). exists s'. by rewrite R.
    - destruct (reset_step m s I) as (s' & ? & ? & R). exists s'. by rewrite R. }
  cbn. destruct (IH s1 I1) as (s2 & -> & I2 & P2). exists s2. split_and!; try done. by etrans.
Qed.

Lemma event_steps_lossless m ps evs s s' : inv m s -> lost s = false -> no_reset evs ->
  event_steps evs s = Some s' -> well_formed m ps (rx s') -> lost s' = false.
Proof.
  intros I Hl Hn Hev Hw. revert s I Hl Hev.
  induction evs as [|ev evs IH]; intros s I Hl; cbn [event_steps]; [by intros [= <-]|].
  apply not_elem_of_cons in Hn as [Hne Hn]. destruct (enabled ev s) eqn:E; [|by intros [= <-]].
  assert (exists s1, event_step ev s = Some s1 /\ inv m s1 /\ loss_justified m s s1) as (s1 & -> & I1 & J).
  { destruct ev as [c| |]; [|..|done].
    - destruct (chunk_step m s c I E) as (s1 & ? & ? & _ & ?). eauto.
    - destruct (taken_step m s I E) as (s1 & ? & ? & _ & ?). eauto. }
  cbn. intros Hev. destruct (event_steps_safe m evs s1 I1) as (s2 & E2 & I2 & P2).
  rewrite E2 in Hev. injection Hev as ->. apply (IH Hn s1); try done.
  destruct (lost s1) eqn:El; [|done]. exfalso. destruct (J El) as [|(p & Hp & Ho)]; [congruence|].
  apply (well_formed_not_oversized m ps (delivered s1) p); [| apply I1 | | done].
  - pose proof (wf_mtu _ (inv_wf _ _ I1)). rewrite (inv_mtu _ _ I1) in *. lia.
  - rewrite <- Hp. destruct Hw as [Hw1 Hw2]. split; [done|]. by etrans.
Qed.

Definition boot (e : t) (os : list out) : option system := starts os (sys e None None [] [] false).

(** The memory [malloc] returns: a block of the size asked for. *)
Definition allocates (mem : Z -> option (list Z)) : Prop :=
  forall n, 0 <= n -> match mem n with Some b => zlen b = n /\ bytes_ok b | None => True end.

Lemma sender_boot_inv omtu mem e os : 0 <= omtu -> allocates mem -> Init omtu mem = Some (e, os) ->
  exists s0, boot e os = Some s0 /\ inv (bmin_int omtu PACKETPROTO_MAXPAYLOAD) s0 /\
    rx s0 = [] /\ lost s0 = false.
Proof.
  intros H0 Ha. unfold Init, bmin_int. set (m := if omtu <? _ then _ else _).
  assert (Hm : 0 <= m <= PACKETPROTO_MAXPAYLOAD).
  { unfold m, PACKETPROTO_MAXPAYLOAD, UINT16_MAX. destruct (Z.ltb_spec omtu 65535); lia. }
  unfold PACKETPROTO_ENCLEN, sizeof_packetproto_header. specialize (Ha (2 + m) ltac:(lia)).
  destruct (mem (2 + m)) as [b|]; [|done]. destruct Ha as [Hb1 Hb2]. intros [= <- <-].
  unfold boot. cbn [starts start recv send dec rx delivered lost buf]. guard_true.
  eexists. split; [reflexivity|]. split; [|done]. split; cbn; try done.
  - split; cbn; try done; lia.
  - split_and!; try lia. left. reflexivity.
Qed.

Section FromInit.
Context (omtu : Z) (mem : Z -> option (list Z)) (e : t) (os : list out).
Context (H0 : 0 <= omtu) (Ha : allocates mem) (Hinit : Init omtu mem = Some (e, os)).
Let m := bmin_int omtu PACKETPROTO_MAXPAYLOAD.

(** C29. Whatever bytes arrive in whatever chunks, and however resets are
    interleaved: no handler faults, accesses memory outside the buffer or starts
    an operation the interfaces would reject (in particular the decoder never
    asks the stream for zero bytes, which would deadlock it); exactly one
    operation is in progress at any time; and unless bytes were discarded by an
    error or a reset, the bytes received are exactly the encodings of the packets
    passed on, followed by the bytes still buffered. *)
Theorem decoder_safe (evs : list event) :
  exists s0 s, boot e os = Some s0 /\ event_steps evs s0 = Some s /\
    (is_Some (recv s) <-> send s = None) /\
    (lost s = false -> rx s = encode_all (delivered s ++ in_flight s) ++ pending (dec s)).
Proof.
  destruct (sender_boot_inv omtu mem e os H0 Ha Hinit) as (s0 & E0 & I0 & _).
  destruct (event_steps_safe _ evs s0 I0) as (s & E & I & _). exists s0, s. split_and!; try done.
  - pose proof (inv_mode _ _ I) as Hm. destruct (recv s) as [[]|], (send s) as [[]|]; try done.
  - apply I.
Qed.

(** C28. If the bytes received so far are a prefix of the encoding of packets
    that fit the decoder's MTU, cut into chunks in any way, then no error is
    reported and the packets passed on are, in order and unchanged, the first of
    them; once the whole encoding was received and the decoder waits for more
    data, all of them have been passed on. *)
Theorem decoder_decodes (evs : list event) (ps : list (list Z)) (s0 s : system)
    (Hboot : boot e os = Some s0) (Hnr : no_reset evs) (Hev : event_steps evs s0 = Some s)
    (Hw : well_formed m ps (rx s)) :
  lost s = false /\
  (exists qs, ps = delivered s ++ in_flight s ++ qs) /\
  (rx s = encode_all ps -> is_Some (recv s) -> delivered s = ps).
Proof.
  destruct (sender_boot_inv omtu mem e os H0 Ha Hinit) as (s1 & E0 & I0 & _ & Hl0).
  rewrite Hboot in E0. injection E0 as <-.
  pose proof (event_steps_lossless _ ps evs s0 s I0 Hl0 Hnr Hev Hw) as Hl.
  destruct (event_steps_safe _ evs s0 I0) as (s' & E' & I & _). rewrite Hev in E'. injection E' as <-.
  pose proof (inv_flow _ _ I Hl) as Hf. fold m in I. pose proof (inv_wf _ _ I) as W.
  assert (Hm : m <= PACKETPROTO_MAXPAYLOAD).
  { pose proof (wf_mtu _ W). rewrite (inv_mtu _ _ I) in *. lia. }
  assert (Hs : Forall (small m) (delivered s ++ in_flight s)).
  { apply Forall_app_2; [apply I|]. pose proof (inv_mode _ _ I) as Hmode. unfold in_flight.
    destruct W as [W1 W2 W3 W4 W5].
    destruct (recv s) as [[]|], (send s) as [[]|]; try done; repeat constructor; try done.
    unfold small. rewrite zlen_mread by lia. lia. }
  destruct Hw as [Hw1 Hw2]. rewrite Hf in Hw2.
  destruct (encode_all_prefix m _ ps _ Hm Hs Hw1 Hw2) as (qs & Eq & Hq).
  split; [done|]. split; [exists qs; by rewrite app_assoc|].
  intros Hall Hr. pose proof (inv_mode _ _ I) as Hmode. unfold in_flight in *.
  destruct (recv s) as [[d n]|]; [|by destruct Hr]. destruct (send s) as [[]|]; [done|].
  rewrite app_nil_r in *. destruct Hmode as (_ & _ & _ & Hi).
  assert (Hp : pending (dec s) = encode_all qs).
  { rewrite Hf, Eq, encode_all_app in Hall. by apply app_inv_head in Hall. }
  rewrite Hp in Hi. destruct qs as [|q qs]; [by rewrite app_nil_r in Eq|]. exfalso.
  change (q :: qs) with ([q] ++ qs) in Hi. rewrite encode_all_app, encode_all_one in Hi.
  unfold incomplete in Hi. rewrite take_header, zlen_app, zlen_encode in Hi.
  pose proof (zlen_nonneg q). pose proof (zlen_nonneg (encode_all qs)).
  rewrite Eq in Hw1. apply Forall_app in Hw1 as [_ Hw1]. apply Forall_inv in Hw1. unfold small in Hw1.
  destruct Hi as [Hi|[_ Hi]]; [lia|]. revert Hi.
  unfold packetproto_header_bytes, htol16, PACKETPROTO_MAXPAYLOAD, UINT16_MAX in *.
  rewrite u16_id, le_val_bytes; cbn; lia.
Qed.
End FromInit.

Definition zeroed (n : Z) : option (list Z) := Some (replicate (Z.to_nat n) 0).

Lemma zeroed_allocates : allocates zeroed.
Proof.
  intros n Hn. cbn. split; [rewrite zlen_replicate; lia|].
  apply Forall_replicate. unfold byte_ok. lia.
Qed.

Lemma decoder_safe_witness :
  exists s0 s, event_steps [Chunk [1; 0; 7]; Chunk [9]; Taken; Do_reset; Taken] s0 = Some s /\
    (is_Some (recv s) <-> send s = None).
Proof.
  destruct (decoder_safe 3 zeroed (mk 3 5 0 0 [0; 0; 0; 0; 0]) [Receiver_Recv 0 5] ltac:(lia)
    zeroed_allocates eq_refl [Chunk [1; 0; 7]; Chunk [9]; Taken; Do_reset; Taken])
    as (s0 & s & _ & E & H & _).
  by exists s0, s.
Defined.

Lemma decoder_decodes_witness :
  let s := sys (mk 3 5 3 0 [1; 0; 9; 8; 1]) (Some (3, 2)) None [2; 0; 7; 8; 1; 0; 9] [[7; 8]; [9]] false in
  delivered s = [[7; 8]; [9]].
Proof.
  intros s.
  apply (decoder_decodes 3 zeroed (mk 3 5 0 0 [0; 0; 0; 0; 0]) [Receiver_Recv 0 5] ltac:(lia)
    zeroed_allocates eq_refl [Chunk [2; 0; 7]; Chunk [8; 1]; Taken; Chunk [0; 9]; Taken] [[7; 8]; [9]]
    (sys (mk 3 5 0 0 [0; 0; 0; 0; 0]) (Some (0, 5)) None [] [] false) s).
  - reflexivity.
  - unfold no_reset. vm_compute. intros H. repeat (apply elem_of_cons in H as [H|H]; [discriminate|]).
    by apply elem_of_nil in H.
  - vm_compute. reflexivity.
  - split; [repeat constructor; vm_compute; congruence|]. exists []. reflexivity.
  - reflexivity.
  - eexists. reflexivity.
Defined.
End Decoder.

(** ** The encoder *)

Module Encoder.

(** [mem]: the memory the output user's buffer lies in. *)
Record t := mk { output_packet : option Z; input_mtu : Z; mem : list Z }.

Inductive out :=
  | Receiver_Recv (data : Z)       (** on the input interface *)
  | Output_Done (data_len : Z).    (** on the output interface *)

Definition output_handler_recv (data : Z) : M t out unit :=
  e <- get ;;
  assert (bool_decide (output_packet e = None)) ;;
  modify (fun e => mk (Some data) (input_mtu e) (mem e)) ;;
  emit (Receiver_Recv (data + sizeof_packetproto_header)).

Definition input_handler_done (in_len : Z) : M t out unit :=
  e <- get ;;
  match output_packet e with
  | None => fail F_assert
  | Some p =>
      check_block (zlen (mem e)) p sizeof_packetproto_header ;;
      modify (fun e => mk (Some p) (input_mtu e) (mwrite (mem e) p (packetproto_header_bytes in_len))) ;;
      modify (fun e => mk None (input_mtu e) (mem e)) ;;
      emit (Output_Done (PACKETPROTO_ENCLEN in_len))
  end.

(** [PacketProtoEncoder_Init]: the state and the MTU of the output interface. *)
Definition Init (mtu : Z) (mem : list Z) : option (t * Z) :=
  if mtu <=? PACKETPROTO_MAXPAYLOAD then Some (mk None mtu mem, PACKETPROTO_ENCLEN mtu) else None.

(** The source stores a packet where it was asked to. *)
Definition store (data : Z) (d : list Z) : M t out unit :=
  e <- get ;;
  check_block (zlen (mem e)) data (zlen d) ;;
  modify (fun e => mk (output_packet e) (input_mtu e) (mwrite (mem e) data d)).

(** The user of the encoder's output passes a buffer of the advertised MTU;
    the source is asked for a packet two bytes into it, and after any packet [d]
    the buffer starts with exactly the frame of [d], whose length is reported.
    Nothing outside the buffer changes. *)
Theorem encoder_encodes (mtu p : Z) (m d : list Z) (e : t) (omtu : Z)
    (Hinit : Init mtu m = Some (e, omtu)) (Hp : 0 <= p) (Hroom : p + omtu <= zlen m)
    (Hd : zlen d <= mtu) :
  wp (output_handler_recv p ;; store (p + 2) d ;; input_handler_done (zlen d)) e
    (fun _ e' os => os = [Receiver_Recv (p + 2); Output_Done (zlen (encode d))] /\
       output_packet e' = None /\ mread (mem e') p (zlen (encode d)) = encode d /\
       zlen (encode d) <= omtu /\
       mread (mem e') 0 p = mread m 0 p /\
       (forall k, p + omtu <= k -> forall n, mread (mem e') k n = mread m k n)).
Proof.
  revert Hinit. unfold Init. destruct (Z.leb_spec mtu PACKETPROTO_MAXPAYLOAD) as [Hm|]; [|done].
  intros [= <- <-]. unfold PACKETPROTO_ENCLEN, sizeof_packetproto_header in *.
  pose proof (zlen_nonneg d) as H0. pose proof (zlen_header (zlen d)) as Hh. rewrite zlen_encode.
  assert (Hz : zlen (mwrite m (p + 2) d) = zlen m) by (apply zlen_mwrite; lia).
  unfold output_handler_recv, store, input_handler_done, sizeof_packetproto_header.
  do 5 wp_step; [done|]. repeat wp_step; cbn [mem input_mtu output_packet]; try lia.
  wp_step. wp_step; cbn [mem]; [lia|]. repeat wp_step.
  split; [done|]. split; [done|]. cbn [mem].
  assert (Hz2 : zlen (mwrite (mwrite m (p + 2) d) p (packetproto_header_bytes (zlen d))) = zlen m).
  { rewrite zlen_mwrite; lia. }
  split_and!.
  - rewrite mread_split by lia. unfold encode. f_equal.
    + rewrite <- (mread_mwrite_same (mwrite m (p + 2) d) p (packetproto_header_bytes (zlen d))) at 2 by lia.
      by rewrite Hh.
    + rewrite mread_mwrite_after by lia. apply mread_mwrite_same; lia.
  - lia.
  - rewrite !mread_mwrite_before by lia. done.
  - intros k Hk n. rewrite !mread_mwrite_after by lia. done.
Qed.

Lemma encoder_encodes_witness :
  wp (output_handler_recv 1 ;; store 3 [7; 8] ;; input_handler_done 2) (mk None 3 (replicate 8 0))
    (fun _ e' os => mread (mem e') 1 4 = [2; 0; 7; 8]).
Proof.
  eapply wp_mono.
  - apply (encoder_encodes 3 1 (replicate 8 0) [7; 8] (mk None 3 (replicate 8 0)) 5);
      [reflexivity | lia | vm_compute; congruence | vm_compute; congruence].
  - intros _ e' os (_ & _ & E & _). exact E.
Defined.

End Encoder.

(** ** Writing packets to a stream *)

Module Sender.

Record t := mk { in_len : Z; in_ : Z; in_used : Z }.

Inductive out :=
  | Stream_Send (data data_len : Z)    (** on the output interface *)
  | Input_Done.                        (** on the input interface *)

Definition send_data : M t out unit :=
  s <- get ;;
  assert (in_len s >=? 0) ;;
  if in_used s <? in_len s then
    emit (Stream_Send (in_ s + in_used s) (in_len s - in_used s))
  else
    modify (fun s => mk (-1) (in_ s) (in_used s)) ;;
    emit Input_Done.

Definition input_handler_send (data data_len : Z) : M t out unit :=
  s <- get ;;
  assert (in_len s =? -1) ;;
  assert (data_len >=? 0) ;;
  modify (fun _ => mk data_len data 0) ;;
  send_data.

Definition output_handler_done (data_len : Z) : M t out unit :=
  s <- get ;;
  assert (in_len s >=? 0) ;;
  assert (data_len >? 0) ;;
  assert (data_len <=? in_len s - in_used s) ;;
  modify (fun s => mk (in_len s) (in_ s) (in_used s + data_len)) ;;
  send_data.

Definition Init : t := mk (-1) 0 0.

(** The sender between a packet source and a stream that writes any positive
    part of what it is given.  [mem] holds the packets; [written] is the stream. *)
Record system := sys {
  snd_ : t;
  mem : list Z;
  op : option (Z * Z);             (** stream operation in progress *)
  current : option (list Z);       (** packet the source waits for *)
  finished : list (list Z);
  written : list Z;
}.

Inductive event := Submit (data data_len : Z) | Wrote (k : Z).

Definition start (o : out) (s : system) : option system :=
  match o with
  | Stream_Send d n =>
      match op s with
      | None => if (n >? 0) && in_block (zlen (mem s)) d n
                then Some (sys (snd_ s) (mem s) (Some (d, n)) (current s) (finished s) (written s)) else None
      | Some _ => None
      end
  | Input_Done =>
      match current s with
      | Some d => Some (sys (snd_ s) (mem s) (op s) None (finished s ++ [d]) (written s))
      | None => None
      end
  end.

Fixpoint starts (os : list out) (s : system) : option system :=
  match os with
  | [] => Some s
  | o :: os' => s' ← start o s; starts os' s'
  end.

Definition run_handler (m : M t out unit) (s : system) : option system :=
  match m (snd_ s) with
  | Ok _ e os => starts os (sys e (mem s) (op s) (current s) (finished s) (written s))
  | Fault _ => None
  end.

Definition enabled (ev : event) (s : system) : bool :=
  match ev with
  | Submit p n => bool_decide (current s = None) && in_block (zlen (mem s)) p n
  | Wrote k => match op s with Some (_, n) => (0 <? k) && (k <=? n) | None => false end
  end.

Definition event_step (ev : event) (s : system) : option system :=
  match ev with
  | Submit p n =>
      run_handler (input_handler_send p n)
        (sys (snd_ s) (mem s) (op s) (Some (mread (mem s) p n)) (finished s) (written s))
  | Wrote k =>
      match op s with
      | Some (d, _) =>
          run_handler (output_handler_done k)
            (sys (snd_ s) (mem s) None (current s) (finished s) (written s ++ mread (mem s) d k))
      | None => None
      end
  end.

Fixpoint event_steps (evs : list event) (s : system) : option system :=
  match evs with
  | [] => Some s
  | ev :: evs' => if enabled ev s then s' ← event_step ev s; event_steps evs' s' else Some s
  end.

Record inv (s : system) : Prop := mk_inv {
  inv_op :
    match current s with
    | None => op s = None /\ in_len (snd_ s) = -1
    | Some d =>
        op s = Some (in_ (snd_ s) + in_used (snd_ s), in_len (snd_ s) - in_used (snd_ s)) /\
        0 <= in_ (snd_ s) /\ 0 <= in_used (snd_ s) < in_len (snd_ s) /\
        in_ (snd_ s) + in_len (snd_ s) <= zlen (mem s) /\
        d = mread (mem s) (in_ (snd_ s)) (in_len (snd_ s))
    end;
  inv_written : written s = concat (finished s) ++
    match current s with Some _ => mread (mem s) (in_ (snd_ s)) (in_used (snd_ s)) | None => [] end;
}.

(** What is left to write of the packet in progress. *)
Definition remaining (s : system) : Z := match op s with Some (_, n) => n | None => 0 end.

Lemma sender_run_wp (m : M t out unit) s (P : system -> Prop) :
  wp m (snd_ s) (fun _ e os =>
    exists s', starts os (sys e (mem s) (op s) (current s) (finished s) (written s)) = Some s' /\ P s') ->
  exists s', run_handler m s = Some s' /\ P s'.
Proof. unfold wp, run_handler. by destruct (m (snd_ s)). Qed.

Lemma send_data_inv mm e fin w :
  0 <= in_ e -> 0 <= in_used e <= in_len e -> in_ e + in_len e <= zlen mm ->
  w = concat fin ++ mread mm (in_ e) (in_used e) ->
  wp send_data e (fun _ e' os =>
    exists s', starts os (sys e' mm None (Some (mread mm (in_ e) (in_len e))) fin w) = Some s' /\
      inv s' /\ remaining s' = in_len e - in_used e /\
      (in_used e = in_len e -> current s' = None)).
Proof.
  intros H1 H2 H3 Hw. unfold send_data. do 3 wp_step. wp_step; [lia|].
  destruct (Z.ltb_spec (in_used e) (in_len e)) as [Hu|Hu]; repeat wp_step;
    cbn [starts start app mbind option_bind op current mem finished written snd_].
  - Decoder.guard_true. eexists. split; [reflexivity|]. split; [|split; [done | lia]].
    split; cbn; [split_and!; try done; lia | done].
  - eexists. split; [reflexivity|]. split; [|split; [cbn; lia | done]]. split; cbn; [done|].
    rewrite app_nil_r, Hw, concat_app. cbn. rewrite app_nil_r. do 2 f_equal. lia.
Qed.

Lemma sender_step ev s : inv s -> enabled ev s = true ->
  exists s', event_step ev s = Some s' /\ inv s' /\
    match ev with
    | Submit _ n => remaining s' = n
    | Wrote k => remaining s' = remaining s - k /\ (remaining s = k -> current s' = None)
    end.
Proof.
  intros [Ho Hw]. destruct ev as [p n|k]; cbn [enabled event_step].
  - intros [Hc%bool_decide_eq_true Hb%in_block_spec]%andb_true_iff. rewrite Hc in *.
    destruct Ho as [Ho Hl]. apply sender_run_wp. cbn [snd_ mem op current finished written].
    unfold input_handler_send. do 3 wp_step. wp_step; [lia|]. wp_step. wp_step; [lia|]. do 2 wp_step.
    rewrite Ho. eapply wp_mono; [apply (send_data_inv (mem s) (mk n p 0) (finished s) (written s)); cbn; try lia; done|].
    cbn. intros _ e' os (s' & E & I & R & _). exists s'. split_and!; try done. lia.
  - unfold remaining. destruct (op s) as [[d n]|] eqn:Eo; [|done].
    intros [Hk1 Hk2]%andb_true_iff. destruct (current s) as [c|]; [|by destruct Ho].
    destruct Ho as ([= -> ->] & H1 & H2 & H3 & ->). apply sender_run_wp.
    cbn [snd_ mem op current finished written]. unfold output_handler_done.
    do 3 wp_step. wp_step; [lia|]. wp_step. wp_step; [lia|]. wp_step. wp_step; [lia|]. do 2 wp_step.
    eapply wp_mono; [apply (send_data_inv (mem s) (mk (in_len (snd_ s)) (in_ (snd_ s)) (in_used (snd_ s) + k)) (finished s)
      (written s ++ mread (mem s) (in_ (snd_ s) + in_used (snd_ s)) k)); cbn; try lia|].
    + rewrite Hw, <- app_assoc. f_equal. symmetry. apply mread_split; lia.
    + cbn. intros _ e' os (s' & E & I & R & C). unfold remaining in R. exists s'. split_and!; try done; [lia|].
      intros <-. apply C. lia.
Qed.

Lemma sender_steps evs s : inv s -> exists s', event_steps evs s = Some s' /\ inv s'.
Proof.
  revert s. induction evs as [|ev evs IH]; intros s I; cbn [event_steps]; [eauto|].
  destruct (enabled ev s) eqn:E; [|eauto].
  destruct (sender_step ev s I E) as (s' & -> & I' & _). by apply (IH s').
Qed.

(** For any sequence of packets and any partial writes: no handler faults;
    the stream consists of the finished packets, in order and complete, followed
    by the part of the current packet written so far; a packet that is in
    progress has bytes left to write and a stream operation covering exactly
    these; and the write that covers the rest finishes it. *)
Theorem sender_writes_packets (m : list Z) (evs : list event) :
  exists s, event_steps evs (sys Init m None None [] []) = Some s /\
    (exists part, written s = concat (finished s) ++ part /\
       match current s with
       | None => part = [] /\ op s = None
       | Some d => part `prefix_of` d /\ remaining s = zlen d - zlen part /\ 0 < remaining s
       end) /\
    (forall n, remaining s = n -> 0 < n -> exists s', event_step (Wrote n) s = Some s' /\ current s' = None).
Proof.
  destruct (sender_steps evs (sys Init m None None [] [])) as (s & E & I); [by split|].
  exists s. split; [done|]. pose proof I as [Ho Hw]. split.
  - eexists. split; [exact Hw|]. unfold remaining. destruct (current s) as [d|]; [|tauto].
    destruct Ho as (-> & H1 & H2 & H3 & ->). rewrite !zlen_mread by lia. split; [|lia].
    exists (mread (mem s) (in_ (snd_ s) + in_used (snd_ s)) (in_len (snd_ s) - in_used (snd_ s))).
    rewrite <- mread_split by lia. f_equal. lia.
  - intros n Hn Hpos. destruct (sender_step (Wrote n) s I) as (s' & E' & _ & _ & C).
    + cbn. unfold remaining in Hn. destruct (op s) as [[]|]; [|lia]. subst n.
      apply andb_true_iff. lia.
    + exists s'. split; [done|]. by apply C.
Qed.

End Sender.
