(* ===== verification/Wiring.v ===== *)
(** * Wiring: components and the calls between them

    A component's handler is a function of the monad [M]; here it is a part of a larger
    state, which has the components it is connected to or what stands for them (the phase
    of an interface, a timer).  Its calls are carried out there, in order, and are refused
    if they are not allowed.  Runs of such systems: an event that is not enabled ends
    them. *)

From S2P Require Import Prelude.
Open Scope mon_scope.

Section Wiring.
Context {S O Y : Type} (part : Y -> S) (put : S -> Y -> Y) (call : O -> Y -> option Y).

Fixpoint calls (os : list O) (y : Y) : option Y :=
  match os with [] => Some y | o :: os' => y' ← call o y; calls os' y' end.

(** [None]: a fault, or a call that is not allowed. *)
Definition handle {A} (m : M S O A) (y : Y) : option Y :=
  match m (part y) with Ok _ x os => calls os (put x y) | Fault _ => None end.

Lemma handle_ok {A} (m : M S O A) y (P : Y -> Prop) :
  wp m (part y) (fun _ x os => exists y', calls os (put x y) = Some y' /\ P y') -> exists y', handle m y = Some y' /\ P y'.
Proof. unfold wp, handle. by destruct (m (part y)). Qed.
End Wiring.

Section Runs.
Context {E Y : Type} (enabled : E -> Y -> bool) (step : E -> Y -> option Y).

Fixpoint runs (evs : list E) (y : Y) : option Y :=
  match evs with
  | [] => Some y
  | ev :: evs' => if enabled ev y then y' ← step ev y; runs evs' y' else Some y
  end.

Lemma runs_inv (I : Y -> Prop) :
  (forall ev y, I y -> enabled ev y = true -> exists y', step ev y = Some y' /\ I y') ->
  forall evs y, I y -> exists y', runs evs y = Some y' /\ I y'.
Proof.
  intros Hstep evs. induction evs as [|ev evs IH]; intros y Hy; cbn [runs]; [eauto|].
  destruct (enabled ev y) eqn:He; [|eauto]. destruct (Hstep ev y Hy He) as (y' & -> & Hy'). by apply IH.
Qed.
End Runs.
