(* ===== verification/PacketProtoFlow.v ===== *)
(** * PacketProtoFlow: from packets to frames in a queue

    Models of [badvpn/flow/BufferWriter.c] and of [badvpn/flow/PacketProtoFlow.c], which
    chains a [BufferWriter], the encoder of [PacketProto] and a [PacketBuffer].  The
    three are put together with the [PacketRecvInterface]s between them: [link1] from the
    writer to the encoder and [link2] from the encoder to the buffer are phases of the
    protocol automaton of [FlowInterface], whose due calls are events of their own, in any
    order.  All work in place: the writer's user and the encoder write into the free part
    of the buffer's memory.

    The theorem is about the whole chain: what it gives to its output are the frames of
    the packets written, in order. *)

From S2P Require Import Prelude BSize ChunkBuffer PacketBuffer PacketProto FlowInterface Wiring.
Open Scope mon_scope.

#[local] Arguments le_bytes : simpl never.
#[local] Arguments mread : simpl never.
#[local] Arguments mwrite : simpl never.

(** ** BufferWriter *)

Module BufferWriter.

(** [d_mtu] and [d_writing] are there with assertions only. *)
Record t := mk { out_have : bool; out : option Z; d_mtu : Z; d_writing : bool }.

Definition set_out (h : bool) (p : option Z) (o : t) : t := mk h p (d_mtu o) (d_writing o).
Definition set_writing (w : bool) (o : t) : t := mk (out_have o) (out o) (d_mtu o) w.

(** [PacketRecvInterface_Done]. *)
Inductive call := Done (len : Z).

Definition output_handler_recv (data : option Z) : M t call unit :=
  o <- get ;;
  assert (negb (out_have o)) ;;
  modify (set_out true data).

Definition Init (mtu : Z) : option t := if mtu >=? 0 then Some (mk false None mtu false) else None.

(** The place for the packet, if there is one. *)
Definition StartPacket : M t call (option (option Z)) :=
  o <- get ;;
  assert (negb (d_writing o)) ;;
  if negb (out_have o) then ret None else
  modify (set_writing true) ;;
  ret (Some (out o)).

Definition EndPacket (len : Z) : M t call unit :=
  o <- get ;;
  assert (len >=? 0) ;;
  assert (len <=? d_mtu o) ;;
  assert (out_have o) ;;
  assert (d_writing o) ;;
  modify (set_out false (out o)) ;;
  emit (Done len) ;;
  modify (set_writing false).
End BufferWriter.

(** ** The chain *)

Module PacketProtoFlow.
Section Flow.
Context {B : Type} `{PacketFifo B}.

(** The encoder works on the memory of the buffer's queue, and so has none of its own. *)
Record t := mk { ainput : BufferWriter.t; enc_packet : option Z; enc_mtu : Z; buffer : PacketBuffer.t (B := B) }.

Inductive out :=
  | From_writer (c : BufferWriter.call)
  | From_encoder (o : Encoder.out)
  | From_buffer (o : PacketBuffer.out).

Definition queue_mem (s : t) : list Z := pf_mem (PacketBuffer.buf (buffer s)).
Definition set_queue_mem (m : list Z) (s : t) : t :=
  mk (ainput s) (enc_packet s) (enc_mtu s) (PacketBuffer.mk (pf_set_mem m (PacketBuffer.buf (buffer s))) (PacketBuffer.input_mtu (buffer s))).

Definition on_writer {A} (m : M BufferWriter.t BufferWriter.call A) : M t out A :=
  embed ainput (fun w s => mk w (enc_packet s) (enc_mtu s) (buffer s)) From_writer m.
Definition on_encoder {A} (m : M Encoder.t Encoder.out A) : M t out A :=
  embed (fun s => Encoder.mk (enc_packet s) (enc_mtu s) (queue_mem s))
    (fun e s => set_queue_mem (Encoder.mem e) (mk (ainput s) (Encoder.output_packet e) (enc_mtu s) (buffer s))) From_encoder m.
Definition on_buffer {A} (m : M (PacketBuffer.t (B := B)) PacketBuffer.out A) : M t out A :=
  embed buffer (fun b s => mk (ainput s) (enc_packet s) (enc_mtu s) b) From_buffer m.

(** [PacketProtoFlow_Init]; [mem]: what the buffer allocates.  With it the buffer's first
    operation on [link2]. *)
Definition Init (input_mtu num_packets output_mtu : Z) (mem : option (list Z)) : option (t * list out) :=
  if negb ((input_mtu >=? 0) && (input_mtu <=? PACKETPROTO_MAXPAYLOAD) && (num_packets >? 0) &&
           (output_mtu >=? PACKETPROTO_ENCLEN input_mtu)) then None else
  w ← BufferWriter.Init input_mtu;
  e ← Encoder.Init input_mtu [];
  b ← PacketBuffer.Init e.2 output_mtu num_packets mem;
  Some (mk w (Encoder.output_packet e.1) (Encoder.input_mtu e.1) b.1, map From_buffer b.2).

(** The user stores a packet where [BufferWriter_StartPacket] told it to, and ends it. *)
Definition write_packet (d : list Z) : M t out unit :=
  s <- get ;;
  match BufferWriter.out (ainput s) with
  | None => fail F_bounds
  | Some p => check_block (zlen (queue_mem s)) p (zlen d) ;; modify (set_queue_mem (mwrite (queue_mem s) p d))
  end ;;
  on_writer (BufferWriter.EndPacket (zlen d)).

(** *** Its links and its environment *)

Abbreviation phase := OpInterface.phase.
Abbreviation next mtu := (OpInterface.next (fun _ => false) (packet_args_ok mtu) (packet_len_ok mtu)).

(** [sending]: the operation on the output.  [written]: the packets the user ended,
    [delivered]: what the output took. *)
Record sys := mk_sys {
  flow : t;
  link1 : phase;
  link2 : phase;
  sending : option (option Z * Z);
  written : list (list Z);
  delivered : list (list Z);
}.

Definition set_flow (f : t) (s : sys) : sys := mk_sys f (link1 s) (link2 s) (sending s) (written s) (delivered s).
Definition set_link1 (l : phase) (s : sys) : sys := mk_sys (flow s) l (link2 s) (sending s) (written s) (delivered s).
Definition set_link2 (l : phase) (s : sys) : sys := mk_sys (flow s) (link1 s) l (sending s) (written s) (delivered s).
Definition set_sending (o : option (option Z * Z)) (s : sys) : sys := mk_sys (flow s) (link1 s) (link2 s) o (written s) (delivered s).
Definition add_written (d : list Z) (s : sys) : sys := mk_sys (flow s) (link1 s) (link2 s) (sending s) (written s ++ [d]) (delivered s).
Definition add_delivered (d : list Z) (s : sys) : sys := mk_sys (flow s) (link1 s) (link2 s) (sending s) (written s) (delivered s ++ [d]).

Definition mtu1 (s : sys) : Z := enc_mtu (flow s).
Definition mtu2 (s : sys) : Z := PACKETPROTO_ENCLEN (enc_mtu (flow s)).

Definition act1 (l : OpInterface.label) (s : sys) : option sys := p ← next (mtu1 s) (link1 s) l; Some (set_link1 p s).
Definition act2 (l : OpInterface.label) (s : sys) : option sys := p ← next (mtu2 s) (link2 s) l; Some (set_link2 p s).

(** A call of one of the three: the links allow it, and the output is idle; its MTU is at
    least [mtu2], by the assertion of [Init]. *)
Definition apply_out (o : out) (s : sys) : option sys :=
  match o with
  | From_writer (BufferWriter.Done len) => act1 (OpInterface.Act (OpInterface.Complete len)) s
  | From_encoder (Encoder.Receiver_Recv p) => act1 (OpInterface.Act (OpInterface.StartOp (Some p) 0)) s
  | From_encoder (Encoder.Output_Done len) => act2 (OpInterface.Act (OpInterface.Complete len)) s
  | From_buffer (PacketBuffer.Receiver_Recv p) => act2 (OpInterface.Act (OpInterface.StartOp p 0)) s
  | From_buffer (PacketBuffer.Sender_Send p n) =>
      match sending s with None => if (0 <=? n) && (n <=? mtu2 s) then Some (set_sending (Some (p, n)) s) else None | Some _ => None end
  end.

Abbreviation run_handler := (handle flow set_flow apply_out).

Inductive event :=
  | E_start              (** the user calls [BufferWriter_StartPacket] *)
  | E_end (d : list Z)   (** and stores and ends its packet *)
  | E_op1 | E_done1      (** the calls that are due on the links *)
  | E_op2 | E_done2
  | E_sent.              (** the output is done *)

Definition started (p : phase) : option (option Z * Z) := match p with OpInterface.Started d n => Some (d, n) | _ => None end.
Definition finishing (p : phase) : option Z := match p with OpInterface.Finishing n => Some n | _ => None end.

Definition enabled (ev : event) (s : sys) : bool :=
  match ev with
  | E_start => negb (BufferWriter.d_writing (ainput (flow s)))
  | E_end d => BufferWriter.d_writing (ainput (flow s)) && (zlen d <=? enc_mtu (flow s))
  | E_op1 => bool_decide (is_Some (started (link1 s)))
  | E_done1 => bool_decide (is_Some (finishing (link1 s)))
  | E_op2 => bool_decide (is_Some (started (link2 s)))
  | E_done2 => bool_decide (is_Some (finishing (link2 s)))
  | E_sent => bool_decide (is_Some (sending s))
  end.

Definition step (ev : event) (s : sys) : option sys :=
  match ev with
  | E_start => run_handler (on_writer BufferWriter.StartPacket) s
  | E_end d => run_handler (write_packet d) (add_written d s)
  | E_op1 =>
      a ← started (link1 s);
      s ← act1 (OpInterface.Call (OpInterface.Call_operation a.1 a.2)) s;
      run_handler (on_writer (BufferWriter.output_handler_recv a.1)) s
  | E_done1 =>
      n ← finishing (link1 s);
      s ← act1 (OpInterface.Call (OpInterface.Call_done n)) s;
      run_handler (on_encoder (Encoder.input_handler_done n)) s
  | E_op2 =>
      a ← started (link2 s);
      s ← act2 (OpInterface.Call (OpInterface.Call_operation a.1 a.2)) s;
      match a.1 with Some p => run_handler (on_encoder (Encoder.output_handler_recv p)) s | None => None end
  | E_done2 =>
      n ← finishing (link2 s);
      s ← act2 (OpInterface.Call (OpInterface.Call_done n)) s;
      run_handler (on_buffer (PacketBuffer.input_handler_done n)) s
  | E_sent =>
      a ← sending s;
      match a.1 with
      | Some p => run_handler (on_buffer PacketBuffer.output_handler_done) (add_delivered (mread (queue_mem (flow s)) p a.2) (set_sending None s))
      | None => None
      end
  end.

(** [None]: a fault, or a call that its interface does not allow. *)
Definition run : list event -> sys -> option sys := runs enabled step.

(** After the initialisation. *)
Definition boot (f : t) (os : list out) : option sys := calls apply_out os (mk_sys f OpInterface.Idle OpInterface.Idle None [] []).

(** No call is due. *)
Definition quiet (s : sys) : Prop :=
  started (link1 s) = None /\ finishing (link1 s) = None /\ started (link2 s) = None /\ finishing (link2 s) = None.
(** ** The invariant *)

Context (mtu num : Z).
Abbreviation M2 := (PACKETPROTO_ENCLEN mtu).
Abbreviation queue_of s := (PacketBuffer.buf (buffer (flow s))).

(** Where the packet is that comes next: there is no room ([S_full]); the buffer, the
    encoder or the writer is asked for it; it is written; it is encoded. *)
Inductive stage (s : sys) (b : B) : list (list Z) -> Prop :=
  | S_full : link2 s = OpInterface.Idle -> link1 s = OpInterface.Idle -> enc_packet (flow s) = None ->
      BufferWriter.out_have (ainput (flow s)) = false -> pf_input_avail b < M2 -> stage s b []
  | S_asked p : pf_input_dest b = Some p -> M2 <= pf_input_avail b ->
      link2 s = OpInterface.Started (Some p) 0 -> link1 s = OpInterface.Idle -> enc_packet (flow s) = None ->
      BufferWriter.out_have (ainput (flow s)) = false -> stage s b []
  | S_passed p : pf_input_dest b = Some p -> M2 <= pf_input_avail b ->
      link2 s = OpInterface.Busy (Some p) 0 -> link1 s = OpInterface.Started (Some (p + 2)) 0 -> enc_packet (flow s) = Some p ->
      BufferWriter.out_have (ainput (flow s)) = false -> stage s b []
  | S_ready p : pf_input_dest b = Some p -> M2 <= pf_input_avail b ->
      link2 s = OpInterface.Busy (Some p) 0 -> link1 s = OpInterface.Busy (Some (p + 2)) 0 -> enc_packet (flow s) = Some p ->
      BufferWriter.out_have (ainput (flow s)) = true -> BufferWriter.out (ainput (flow s)) = Some (p + 2) -> stage s b []
  | S_written p d : pf_input_dest b = Some p -> M2 <= pf_input_avail b ->
      link2 s = OpInterface.Busy (Some p) 0 -> link1 s = OpInterface.Finishing (zlen d) -> enc_packet (flow s) = Some p ->
      BufferWriter.out_have (ainput (flow s)) = false -> mread (pf_mem b) (p + 2) (zlen d) = d -> zlen d <= mtu -> stage s b [encode d]
  | S_encoded p d : pf_input_dest b = Some p -> M2 <= pf_input_avail b ->
      link2 s = OpInterface.Finishing (zlen (encode d)) -> link1 s = OpInterface.Idle -> enc_packet (flow s) = None ->
      BufferWriter.out_have (ainput (flow s)) = false -> mread (pf_mem b) p (zlen (encode d)) = encode d -> zlen d <= mtu -> stage s b [encode d].

Record inv (s : sys) (queue next : list (list Z)) : Prop := mk_inv {
  i_mtu : 0 <= mtu <= PACKETPROTO_MAXPAYLOAD;
  i_enc : enc_mtu (flow s) = mtu;
  i_rep : pf_rep (queue_of s) queue;
  i_config : pf_config (queue_of s) M2 num;
  i_buffer : PacketBuffer.input_mtu (buffer (flow s)) = M2;
  i_small : Forall (fun d => zlen d <= M2) queue;
  i_writer : BufferWriter.d_mtu (ainput (flow s)) = mtu;
  i_writing : BufferWriter.d_writing (ainput (flow s)) = true -> BufferWriter.out_have (ainput (flow s)) = true;
  i_stage : stage s (queue_of s) next;
  i_sending : sending s = PacketBuffer.send_op (queue_of s) queue;
  i_frames : map encode (written s) = delivered s ++ queue ++ next;
}.

Lemma next1_ok s l p : enc_mtu (flow s) = mtu -> next mtu (link1 s) l = Some p -> act1 l s = Some (set_link1 p s).
Proof. intros He E. unfold act1, mtu1. by rewrite He, E. Qed.
Lemma next2_ok s l p : enc_mtu (flow s) = mtu -> next M2 (link2 s) l = Some p -> act2 l s = Some (set_link2 p s).
Proof. intros He E. unfold act2, mtu2. by rewrite He, E. Qed.

(** The buffer's calls. *)
Lemma buffer_outs s b queue (rs ss : bool) : enc_mtu (flow s) = mtu -> 0 <= mtu -> pf_rep b queue -> Forall (fun d => zlen d <= M2) queue ->
  (rs = true -> link2 s = OpInterface.Idle) -> (ss = true -> sending s = None /\ queue <> []) ->
  calls apply_out (map From_buffer ((if rs then PacketBuffer.recv_out M2 b else []) ++ (if ss then PacketBuffer.send_out b else []))) s =
    Some (set_sending (if ss then Some (pf_output_dest b, pf_output_avail b) else sending s)
      (set_link2 (if rs && (pf_input_avail b >=? M2) then OpInterface.Started (pf_input_dest b) 0 else link2 s) s)).
Proof.
  intros He Hm R Hf Hr Hs. destruct (PacketBuffer.output_avail_sign _ _ R) as [_ Hpos]. unfold PacketBuffer.recv_out, PacketBuffer.send_out.
  assert (Hsend : forall s', sending s' = sending s -> mtu2 s' = M2 -> calls apply_out (map From_buffer (if ss then [PacketBuffer.Sender_Send (pf_output_dest b) (pf_output_avail b)] else [])) s' =
    Some (set_sending (if ss then Some (pf_output_dest b, pf_output_avail b) else sending s) s')).
  { intros s' Es Em. destruct ss; cbn; [|rewrite <- Es; by destruct s']. destruct (Hs eq_refl) as [Hn Hne]. rewrite (bool_decide_true _ Hne) in Hpos.
    destruct queue as [|d queue]; [done|]. destruct (pf_output _ _ R) as (q & _ & Pa & _). apply Forall_inv in Hf. cbn in Hf.
    rewrite Es, Hn, Em. assert (H0 : (0 <=? pf_output_avail b) && (pf_output_avail b <=? M2) = true) by lia. by rewrite H0. }
  assert (Em : mtu2 s = M2) by (unfold mtu2; by rewrite He).
  destruct rs; cbn [andb]; [|cbn [app]; rewrite Hsend by done; by destruct s]. rewrite (Hr eq_refl).
  destruct (Z.geb_spec (pf_input_avail b) M2) as [Ha|Ha]; cbn [app]; [|rewrite Hsend by done; rewrite <- (Hr eq_refl); by destruct s].
  destruct (pf_input b queue M2 R) as [p Hp]; [assert (0 <= M2) by (unfold PACKETPROTO_ENCLEN, sizeof_packetproto_header; lia); lia|]. cbn [map calls apply_out].
  rewrite (next2_ok s _ (OpInterface.Started (pf_input_dest b) 0)); [cbn; by rewrite Hsend | done |].
  rewrite (Hr eq_refl). cbn. unfold packet_args_ok. by rewrite Hp, orb_true_r.
Qed.

(** The memory of the queue, written to where the next packet will be. *)
Lemma set_mem_inv b queue p m : pf_rep b queue -> pf_config b M2 num -> pf_input_dest b = Some p -> zlen m = zlen (pf_mem b) ->
  (forall k n, 0 <= k -> 0 <= n -> k + n <= p \/ p + pf_input_avail b <= k -> mread m k n = mread (pf_mem b) k n) ->
  let b' := pf_set_mem m b in
  pf_rep b' queue /\ pf_config b' M2 num /\ pf_mem b' = m /\ pf_input_dest b' = Some p /\ pf_input_avail b' = pf_input_avail b /\
  PacketBuffer.send_op b' queue = PacketBuffer.send_op b queue.
Proof.
  intros R C Hp Hz Ha. destruct (pf_set_mem_spec b queue m p M2 num R C Hp Hz Ha) as (R' & C' & E1 & E2 & E3 & E4 & E5). split_and!; try done.
  unfold PacketBuffer.send_op. by rewrite E4, E5.
Qed.

Lemma mwrite_frame m p d a lo hi : 0 <= lo -> lo <= a -> a + zlen d <= hi -> hi <= zlen m -> p = a ->
  zlen (mwrite m p d) = zlen m /\ (forall k n, 0 <= k -> 0 <= n -> k + n <= lo \/ hi <= k -> mread (mwrite m p d) k n = mread m k n).
Proof.
  intros H0 H1 H2 H3 ->. pose proof (zlen_nonneg d). split; [apply zlen_mwrite; lia|].
  intros k n Hk Hn [?|?]; [by rewrite mread_mwrite_before by lia | by rewrite mread_mwrite_after by lia].
Qed.
(** ** The events keep it *)

Lemma enclen d : zlen (encode d) = PACKETPROTO_ENCLEN (zlen d).
Proof. by rewrite zlen_encode. Qed.

Lemma room_bounds s queue next p : inv s queue next -> pf_input_dest (queue_of s) = Some p -> M2 <= pf_input_avail (queue_of s) ->
  0 <= p /\ p + 2 + mtu <= zlen (queue_mem (flow s)).
Proof.
  intros I Hp Ha. destruct (pf_room _ _ _ (i_rep _ _ _ I) Hp) as [H0 H1]. unfold PACKETPROTO_ENCLEN, sizeof_packetproto_header, queue_mem in *. lia.
Qed.

Lemma start_step s queue next : inv s queue next -> enabled E_start s = true -> exists s', step E_start s = Some s' /\ inv s' queue next.
Proof.
  intros I Hw. cbn [enabled] in Hw. cbn [step]. apply handle_ok. apply wp_embed. unfold BufferWriter.StartPacket. do 4 wp_step; [done|].
  destruct (BufferWriter.out_have (ainput (flow s))) eqn:Hh; cbn [negb].
  - do 2 wp_step. wp_step. cbn. eexists. split; [done|]. destruct I as [I1 I2 I3 I4 I5 I6 I7 I8 I9 I10 I11]. split; try done.
    inversion I9; cbn in *; [by eapply S_full | by eapply S_asked | by eapply S_passed | by eapply S_ready | by eapply S_written | by eapply S_encoded].
  - wp_step. cbn. eexists. split; [done|]. replace (set_flow _ s) with s by (by destruct s as [[] ? ? ? ? ?]). done.
Qed.

Lemma end_step s queue next d : inv s queue next -> enabled (E_end d) s = true -> exists s', step (E_end d) s = Some s' /\ inv s' queue [encode d].
Proof.
  intros I He. pose proof I as [I1 I2 I3 I4 I5 I6 I7 I8 I9 I10 I11]. cbn [enabled] in He. apply andb_true_iff in He as [Hw Hl]. rewrite I2 in Hl.
  specialize (I8 Hw). inversion I9 as [|p|p|p Hp Ha L2 L1 Ep Hh Ho E|p|p]; try congruence. subst next.
  destruct (room_bounds _ _ _ p I Hp Ha) as [B0 B1]. pose proof (zlen_nonneg d) as Hd.
  destruct (mwrite_frame (queue_mem (flow s)) (p + 2) d (p + 2) p (p + 2 + mtu)) as [F1 F2]; [lia.. | done |].
  destruct (set_mem_inv _ _ _ (mwrite (queue_mem (flow s)) (p + 2) d) I3 I4 Hp F1) as (R' & C' & E1 & E2 & E3 & E4).
  { intros k n Hk Hn Hor. apply F2; [done..|]. unfold PACKETPROTO_ENCLEN, sizeof_packetproto_header in Ha. lia. }
  cbn [step]. apply handle_ok. unfold write_packet. do 2 wp_step. cbn [flow add_written]. rewrite Ho. do 3 wp_step; [lia|]. wp_step.
  apply wp_embed. cbn [ainput set_queue_mem]. unfold BufferWriter.EndPacket. do 4 wp_step; [lia|]. do 2 wp_step; [lia|]. do 2 wp_step; [done|]. do 2 wp_step; [done|]. do 5 wp_step.
  cbn [app map calls apply_out]. rewrite (next1_ok _ _ (OpInterface.Finishing (zlen d))); [|done|].
  2: { cbn. rewrite L1. unfold packet_len_ok. assert (E : (zlen d >=? 0) && (zlen d <=? mtu) = true) by lia. by rewrite E. }
  cbn. eexists. split; [done|]. split; cbn; try done.
  - rewrite <- E3 in Ha. eapply S_written; cbn; try done; [by rewrite E1; apply mread_mwrite_same; lia | lia].
  - by rewrite E4.
  - rewrite map_app, I11. cbn. by rewrite !app_nil_r, <- app_assoc.
Qed.

Lemma op1_step s queue next : inv s queue next -> enabled E_op1 s = true -> exists s', step E_op1 s = Some s' /\ inv s' queue next.
Proof.
  intros I He%bool_decide_eq_true. pose proof I as [I1 I2 I3 I4 I5 I6 I7 I8 I9 I10 I11].
  inversion I9 as [? L1|p ? ? ? L1|p Hp Ha L2 L1 Ep Hh E|p ? ? ? L1|p ? ? ? ? L1|p ? ? ? ? L1]; rewrite L1 in He; try by destruct He.
  cbn [step]. rewrite L1. cbn [started mbind option_bind fst snd]. rewrite (next1_ok _ _ (OpInterface.Busy (Some (p + 2)) 0)); [|done | rewrite L1; cbn; by rewrite bool_decide_true].
  cbn [mbind option_bind]. apply handle_ok. apply wp_embed. unfold BufferWriter.output_handler_recv. do 4 wp_step; [cbn; by rewrite Hh|]. wp_step. cbn. eexists. split; [done|].
  split; try done; cbn; [|by rewrite I11, <- E]. by eapply S_ready.
Qed.

Lemma done1_step s queue next : inv s queue next -> enabled E_done1 s = true -> exists s', step E_done1 s = Some s' /\ inv s' queue next.
Proof.
  intros I He%bool_decide_eq_true. pose proof I as [I1 I2 I3 I4 I5 I6 I7 I8 I9 I10 I11].
  inversion I9 as [? L1|p ? ? ? L1|p ? ? ? L1|p ? ? ? L1|p d Hp Ha L2 L1 Ep Hh Hm Hd E|p ? ? ? ? L1]; rewrite L1 in He; try by destruct He.
  destruct (room_bounds _ _ _ p I Hp Ha) as [B0 B1]. pose proof (zlen_nonneg d) as Hd0. pose proof (zlen_header (zlen d)) as Hh2.
  destruct (mwrite_frame (queue_mem (flow s)) p (packetproto_header_bytes (zlen d)) p p (p + 2)) as [F1 F2]; [lia.. | done |].
  destruct (set_mem_inv _ _ _ (mwrite (queue_mem (flow s)) p (packetproto_header_bytes (zlen d))) I3 I4 Hp F1) as (R' & C' & E1 & E2 & E3 & E4).
  { intros k n Hk Hn Hor. apply F2; [done..|]. unfold PACKETPROTO_ENCLEN, sizeof_packetproto_header in Ha. lia. }
  cbn [step]. rewrite L1. cbn [finishing mbind option_bind]. rewrite (next1_ok _ _ OpInterface.Idle); [|done | rewrite L1; cbn; by rewrite Z.eqb_refl].
  cbn [mbind option_bind]. apply handle_ok. apply wp_embed. unfold Encoder.input_handler_done. do 2 wp_step. cbn [Encoder.output_packet flow set_link1]. rewrite Ep.
  do 2 wp_step; [cbn; unfold sizeof_packetproto_header; lia|]. do 4 wp_step. wp_step. cbn [Encoder.mem app map calls apply_out].
  rewrite (next2_ok _ _ (OpInterface.Finishing (zlen (encode d)))); [|done|].
  2: { cbn [link2 set_flow set_link1]. rewrite L2, enclen. cbn. unfold packet_len_ok.
       assert (E' : (PACKETPROTO_ENCLEN (zlen d) >=? 0) && (PACKETPROTO_ENCLEN (zlen d) <=? M2) = true) by (unfold PACKETPROTO_ENCLEN, sizeof_packetproto_header; lia). by rewrite E'. }
  cbn. eexists. split; [done|]. split; try done; cbn [flow set_flow set_link1 set_link2 set_queue_mem buffer PacketBuffer.buf written delivered sending].
  - rewrite <- E3 in Ha. eapply S_encoded; cbn; try done. rewrite E1, zlen_encode. unfold encode. rewrite mread_split by lia. f_equal.
    + pose proof (mread_mwrite_same (queue_mem (flow s)) p (packetproto_header_bytes (zlen d))) as X. rewrite Hh2 in X. apply X; lia.
    + rewrite mread_mwrite_after by lia. exact Hm.
  - by rewrite E4.
  - by rewrite I11, <- E.
Qed.

Lemma op2_step s queue next : inv s queue next -> enabled E_op2 s = true -> exists s', step E_op2 s = Some s' /\ inv s' queue next.
Proof.
  intros I He%bool_decide_eq_true. pose proof I as [I1 I2 I3 I4 I5 I6 I7 I8 I9 I10 I11].
  inversion I9 as [L2|p Hp Ha L2 L1 Ep Hh E|p ? ? L2|p ? ? L2|p ? ? ? L2|p ? ? ? L2]; rewrite L2 in He; try by destruct He.
  destruct (set_mem_inv _ _ _ (queue_mem (flow s)) I3 I4 Hp eq_refl) as (R' & C' & E1 & E2 & E3 & E4); [done|].
  cbn [step]. rewrite L2. cbn [started mbind option_bind fst snd]. rewrite (next2_ok _ _ (OpInterface.Busy (Some p) 0)); [|done | rewrite L2; cbn; by rewrite bool_decide_true].
  cbn [mbind option_bind]. apply handle_ok. apply wp_embed. unfold Encoder.output_handler_recv. do 4 wp_step; [cbn; by rewrite Ep|]. do 2 wp_step. wp_step. cbn [app map calls apply_out].
  rewrite (next1_ok _ _ (OpInterface.Started (Some (p + 2)) 0)); [|done | cbn; rewrite L1; unfold packet_args_ok; by rewrite orb_true_r].
  cbn. eexists. split; [done|]. split; try done; cbn [flow set_flow set_link1 set_link2 set_queue_mem buffer PacketBuffer.buf written delivered sending].
  - rewrite <- E3 in Ha. by eapply S_passed.
  - by rewrite E4.
  - by rewrite I11, <- E.
Qed.
Lemma done2_step s queue next : inv s queue next -> enabled E_done2 s = true -> exists s' queue', step E_done2 s = Some s' /\ inv s' queue' [].
Proof.
  intros I He%bool_decide_eq_true. pose proof I as [I1 I2 I3 I4 I5 I6 I7 I8 I9 I10 I11].
  inversion I9 as [L2|p ? ? L2|p ? ? L2|p ? ? L2|p ? ? ? L2|p d Hp Ha L2 L1 Ep Hh Hm Hd E]; rewrite L2 in He; try by destruct He.
  assert (Hd2 : zlen (encode d) <= M2) by (rewrite enclen; unfold PACKETPROTO_ENCLEN, sizeof_packetproto_header; lia).
  cbn [step]. rewrite L2. cbn [finishing mbind option_bind]. rewrite (next2_ok _ _ OpInterface.Idle); [|done | rewrite L2; cbn; by rewrite Z.eqb_refl].
  cbn [mbind option_bind]. exists (match run_handler (on_buffer (PacketBuffer.input_handler_done (zlen (encode d)))) (set_link2 OpInterface.Idle s) with Some s' => s' | None => s end), (queue ++ [encode d]).
  assert (X : exists s', run_handler (on_buffer (PacketBuffer.input_handler_done (zlen (encode d)))) (set_link2 OpInterface.Idle s) = Some s' /\ inv s' (queue ++ [encode d]) []); [|by destruct X as (s' & -> & ?)].
  apply handle_ok. apply wp_embed. eapply wp_mono; [by apply (PacketBuffer.input_handler_done_wp M2 num (buffer (flow s)) queue (encode d) p)|].
  intros _ b' os (R' & C' & Hb' & -> & Ho). cbn [flow set_link2].
  pose proof (buffer_outs (set_flow (mk (ainput (flow s)) (enc_packet (flow s)) (enc_mtu (flow s)) b') (set_link2 OpInterface.Idle s)) (PacketBuffer.buf b') (queue ++ [encode d]) true (bool_decide (queue = []))) as X.
  rewrite X; [|done | lia | done | by apply Forall_app_2; [|constructor] | done | intros Hq%bool_decide_eq_true; cbn; rewrite I10, Hq; by split].
  eexists. split; [done|]. split; try done; cbn.
  - apply Forall_app_2; [done|]. by constructor.
  - destruct (Z.geb_spec (pf_input_avail (PacketBuffer.buf b')) M2) as [Ha'|Ha'].
    + assert (0 <= M2) by (unfold PACKETPROTO_ENCLEN, sizeof_packetproto_header; lia). destruct (pf_input _ _ M2 R' ltac:(lia)) as [p' Hp']. by eapply S_asked; cbn; rewrite ?Hp'.
    + by eapply S_full.
  - rewrite I10. destruct queue as [|x q]; [done|]. rewrite bool_decide_false by done.
    symmetry. apply (PacketBuffer.send_op_same (queue_of s) (PacketBuffer.buf b') x q (q ++ [encode d])); [done | done | by apply Ho].
  - by rewrite I11, <- E, app_nil_r.
Qed.

Lemma sent_step s queue next : inv s queue next -> enabled E_sent s = true -> exists s' queue', step E_sent s = Some s' /\ inv s' queue' next.
Proof.
  intros I He%bool_decide_eq_true. pose proof I as [I1 I2 I3 I4 I5 I6 I7 I8 I9 I10 I11]. rewrite I10 in He.
  destruct queue as [|d queue]; [by destruct He|]. pose proof (pf_output _ _ I3) as (q & P1 & P2 & P3).
  cbn [step]. rewrite I10. cbn [PacketBuffer.send_op mbind option_bind fst snd]. rewrite P1, P2. unfold queue_mem at 1. rewrite P3.
  set (s0 := add_delivered d (set_sending None s)).
  exists (match run_handler (on_buffer PacketBuffer.output_handler_done) s0 with Some s' => s' | None => s end), queue.
  assert (X : exists s', run_handler (on_buffer PacketBuffer.output_handler_done) s0 = Some s' /\ inv s' queue next); [|by destruct X as (s' & -> & ?)].
  apply handle_ok. apply wp_embed. eapply wp_mono; [by apply (PacketBuffer.output_handler_done_wp M2 num (buffer (flow s)) d queue)|].
  intros _ b' os (R' & C' & Hb' & -> & Hin & Hav & Hmem). set (full := negb (pf_input_avail (queue_of s) >=? M2)).
  assert (Hfull : full = true -> link2 s = OpInterface.Idle).
  { unfold full. intros Hf. inversion I9; try done; lia. }
  pose proof (buffer_outs (set_flow (mk (ainput (flow s)) (enc_packet (flow s)) (enc_mtu (flow s)) b') s0) (PacketBuffer.buf b') queue full (negb (bool_decide (queue = [])))) as X.
  unfold full in X. rewrite !if_negb in X. change (flow s0) with (flow s).
  rewrite X; [|done | lia | done | by inversion I6 | done | intros Hne; by destruct (bool_decide_reflect (queue = []))].
  eexists. split; [done|]. split; try done; cbn.
  - by inversion I6.
  - inversion I9 as [L2 L1 Ep Hh Ha|p Hp Ha|p Hp Ha|p Hp Ha|p e Hp Ha|p e Hp Ha]; cbn.
    2-6: assert (Eg : pf_input_avail (queue_of s) >=? M2 = true) by lia; rewrite Eg; cbn [negb andb].
    2: eapply S_asked; cbn; [by apply Hin | lia | done..].
    2: eapply S_passed; cbn; [by apply Hin | lia | done..].
    2: eapply S_ready; cbn; [by apply Hin | lia | done..].
    2: eapply S_written; cbn; [by apply Hin | lia | try done..]; by rewrite Hmem.
    2: eapply S_encoded; cbn; [by apply Hin | lia | try done..]; by rewrite Hmem.
    assert (Eg : pf_input_avail (queue_of s) >=? M2 = false) by lia. rewrite Eg. cbn [negb andb].
    destruct (Z.geb_spec (pf_input_avail (PacketBuffer.buf b')) M2) as [Ha'|Ha'].
    + assert (0 <= M2) by (unfold PACKETPROTO_ENCLEN, sizeof_packetproto_header; lia). destruct (pf_input _ _ M2 R' ltac:(lia)) as [p' Hp']. by eapply S_asked; cbn; rewrite ?Hp'.
    + by eapply S_full.
  - by destruct queue.
  - by rewrite <- app_assoc.
Qed.

Lemma flow_step ev s queue next : inv s queue next -> enabled ev s = true -> exists s' queue' next', step ev s = Some s' /\ inv s' queue' next'.
Proof.
  intros I He. destruct ev as [|d| | | | |].
  - destruct (start_step _ _ _ I He) as (s' & E & I'). eauto.
  - destruct (end_step _ _ _ _ I He) as (s' & E & I'). eauto.
  - destruct (op1_step _ _ _ I He) as (s' & E & I'). eauto.
  - destruct (done1_step _ _ _ I He) as (s' & E & I'). eauto.
  - destruct (op2_step _ _ _ I He) as (s' & E & I'). eauto.
  - destruct (done2_step _ _ _ I He) as (s' & q & E & I'). eauto.
  - destruct (sent_step _ _ _ I He) as (s' & q & E & I'). eauto.
Qed.

Lemma flow_run evs s : inv s [] [] -> exists s', run evs s = Some s' /\ exists queue next, inv s' queue next.
Proof.
  intros I. apply (runs_inv enabled step (fun s => exists queue next, inv s queue next)); [|eauto].
  intros ev s1 (q & n & I1) He. destruct (flow_step ev s1 q n I1 He) as (s' & q' & n' & ? & ?). eauto.
Qed.

Lemma flow_boot output_mtu mem f os : 0 < num <= INT_MAX -> 0 <= pf_alloc M2 num <= INT_MAX -> zlen mem = pf_alloc M2 num ->
  Init mtu num output_mtu (Some mem) = Some (f, os) -> exists s0, boot f os = Some s0 /\ inv s0 [] [].
Proof.
  intros Hn Hal Hmem. unfold Init. destruct (negb _) eqn:Ec; [done|]. apply negb_false_iff in Ec. rewrite !andb_true_iff in Ec. destruct Ec as [[[E1 E2] E3] E4].
  unfold BufferWriter.Init. rewrite E1. cbn [mbind option_bind]. unfold Encoder.Init. assert (E2' : mtu <=? PACKETPROTO_MAXPAYLOAD = true) by lia. rewrite E2'. cbn [mbind option_bind fst snd].
  unfold PacketBuffer.Init. destruct (negb (output_mtu >=? M2) || negb (num >? 0)); [done|].
  assert (Hm2 : 0 <= M2 <= INT_MAX) by (unfold PACKETPROTO_ENCLEN, sizeof_packetproto_header, PACKETPROTO_MAXPAYLOAD, UINT16_MAX, INT_MAX in *; lia).
  pose proof (pf_init_spec mem M2 num Hm2 Hn (proj2 Hal)) as Hi. destruct (Z.ltb_spec (pf_alloc M2 num) 0); [lia|]. destruct (Hi Hmem) as (b & -> & R & C).
  cbn [mbind option_bind fst snd Encoder.output_packet Encoder.input_mtu map]. intros [= <- <-].
  pose proof (pf_capacity b [] M2 num R C (Forall_nil_2 _)) as Hc. rewrite zlen_nil in Hc. destruct (pf_input _ _ M2 R ltac:(lia)) as [p Hp].
  unfold boot. cbn [calls apply_out]. rewrite (next2_ok _ _ (OpInterface.Started (Some p) 0)); [|done | cbn; unfold packet_args_ok; by rewrite Hp, orb_true_r].
  eexists. split; [done|]. split; cbn; try done; [lia|]. by eapply S_asked; [exact Hp | lia | ..].
Qed.

End Flow.

(** Two packets, the second one started before the first is delivered. *)
Definition evs_ex : list event := [E_op2; E_op1; E_start; E_end [1; 2]; E_done1; E_done2; E_op2; E_op1; E_start; E_end [3]; E_done1; E_sent; E_done2; E_sent].
Definition flow_ex : t (B := ChunkBuffer2.t) * list out :=
  default (mk (BufferWriter.mk false None 0 false) None 0 (PacketBuffer.mk (ChunkBuffer2.Init [] 0 1) 0), []) (Init 2 2 4 (Some (replicate 24 0))).

Example evs_ex_delivers : (s0 ← boot flow_ex.1 flow_ex.2; s ← run evs_ex s0; Some (delivered s)) = Some [encode [1; 2]; encode [3]].
Proof. vm_compute. reflexivity. Qed.


End PacketProtoFlow.
