(* ===== verification/TcpClient.v ===== *)
(** * TcpClient: one TCP connection of tun2socks

    Model of the TCP client part of [badvpn/tun2socks/tun2socks.c]: a connection
    accepted by lwIP on one side, a SOCKS connection on the other, and two
    buffers in between.

    A handler runs in the state [sys], which holds the [struct tcp_client]
    ([cl], with [allocated] telling whether the memory is still owned), the
    globals it touches ([num_clients], membership of [tcp_clients]), the
    [dead_aborted] mechanism of [misc/dead.h], and the environment [env] (the
    lwIP connection and the SOCKS client as seen through their interfaces).
    Every access to [client] faults once the memory was freed, every call on
    lwIP or SOCKS ([call]) faults when the callee would not allow it, and failed
    [ASSERT]s fault; so the safety theorem excludes use after free, double free,
    calls on a dead connection, and assertion failures.

    Results of lwIP functions are an argument ([lwip]) of the handlers.  Where
    the source runs pending jobs ([SYNC_COMMIT]) the SOCKS events that happen
    there are an argument too, and are run at that point. *)

From S2P Require Import Prelude BSize.
Open Scope mon_scope.

#[local] Arguments mread : simpl never.
#[local] Arguments mwrite : simpl never.
#[local] Arguments Z.add : simpl never.
#[local] Arguments Z.sub : simpl never.

Module TcpClient.

(** [CLIENT_SOCKS_RECV_BUF_SIZE] *)
Definition CLIENT_SOCKS_RECV_BUF_SIZE : Z := 8192.

(** The fields of [struct tcp_client] that take part in the protocol. *)
Record client := mk_client {
  aborted : bool;
  client_closed : bool;
  buf : list Z;
  buf_used : Z;
  socks_up : bool;
  socks_closed : bool;
  socks_recv_buf : list Z;
  socks_recv_buf_used : Z;
  socks_recv_buf_sent : Z;
  socks_recv_waiting : bool;
  socks_recv_tcp_pending : Z;
}.

(** [dead_aborted]: [NULL], a pointer to the flag of the enclosing callback, or
    a pointer to the flag of a callback that has returned. *)
Inductive dead_t := DEAD_NULL | DEAD_LIVE (v : Z) | DEAD_DANGLING.

(** The environment: the lwIP connection and the SOCKS client. *)
Record env := mk_env {
  pcb : bool;                 (** the lwIP connection exists *)
  cb_err : bool;              (** callbacks set on it *)
  cb_recv : bool;
  cb_sent : bool;
  unacked : Z;                (** bytes delivered and not yet confirmed by [tcp_recved] *)
  inflight : Z;               (** bytes accepted by [tcp_write], not yet acknowledged *)
  socks : bool;               (** the SOCKS client exists *)
  send_op : option Z;         (** SOCKS send operation in progress: length *)
  recv_op : bool;             (** SOCKS receive operation in progress *)
  s_up : bool;                (** the SOCKS client reported up *)
  was_aborted : bool;         (** [tcp_abort] was called in the current callback *)
  from_tcp : list Z;          (** all bytes received from the TCP client *)
  to_socks : list Z;          (** all bytes the SOCKS connection took *)
  from_socks : list Z;        (** all bytes received from SOCKS *)
  to_tcp : list Z;            (** all bytes queued with [tcp_write] *)
}.

Record sys := mk_sys {
  cl : client;
  allocated : bool;
  in_list : bool;             (** in [tcp_clients] *)
  num_clients : Z;
  dead : dead_t;
  en : env;
}.

Definition set_cl (c : client) (s : sys) : sys :=
  mk_sys c (allocated s) (in_list s) (num_clients s) (dead s) (en s).
Definition set_dead (d : dead_t) (s : sys) : sys :=
  mk_sys (cl s) (allocated s) (in_list s) (num_clients s) d (en s).
Definition set_en (e : env) (s : sys) : sys :=
  mk_sys (cl s) (allocated s) (in_list s) (num_clients s) (dead s) e.

(** ** Calls on lwIP and SOCKS *)

Inductive out :=
  | Tcp_err_set | Tcp_recv_set | Tcp_sent_set
  | Tcp_err_null | Tcp_recv_null | Tcp_sent_null
  | Tcp_close (ok : bool)
  | Tcp_abort
  | Tcp_recved (n : Z)
  | Tcp_write (data : list Z)
  | Tcp_output (ok : bool)
  | Socks_Init
  | Socks_Free
  | Socks_Send (len : Z)
  | Socks_Recv.

Definition set_pcb (p ce cr cs : bool) (e : env) : env :=
  mk_env p ce cr cs (unacked e) (inflight e) (socks e) (send_op e) (recv_op e) (s_up e)
    (was_aborted e) (from_tcp e) (to_socks e) (from_socks e) (to_tcp e).
Definition set_socks (so : bool) (sd : option Z) (rv up : bool) (e : env) : env :=
  mk_env (pcb e) (cb_err e) (cb_recv e) (cb_sent e) (unacked e) (inflight e) so sd rv up
    (was_aborted e) (from_tcp e) (to_socks e) (from_socks e) (to_tcp e).
Definition set_unacked (n : Z) (e : env) : env :=
  mk_env (pcb e) (cb_err e) (cb_recv e) (cb_sent e) n (inflight e) (socks e) (send_op e) (recv_op e)
    (s_up e) (was_aborted e) (from_tcp e) (to_socks e) (from_socks e) (to_tcp e).
Definition set_inflight (n : Z) (tw : list Z) (e : env) : env :=
  mk_env (pcb e) (cb_err e) (cb_recv e) (cb_sent e) (unacked e) n (socks e) (send_op e) (recv_op e)
    (s_up e) (was_aborted e) (from_tcp e) (to_socks e) (from_socks e) tw.
Definition set_was_aborted (b : bool) (e : env) : env :=
  mk_env (pcb e) (cb_err e) (cb_recv e) (cb_sent e) (unacked e) (inflight e) (socks e) (send_op e)
    (recv_op e) (s_up e) b (from_tcp e) (to_socks e) (from_socks e) (to_tcp e).
Definition set_flow (ft ts fs : list Z) (e : env) : env :=
  mk_env (pcb e) (cb_err e) (cb_recv e) (cb_sent e) (unacked e) (inflight e) (socks e) (send_op e)
    (recv_op e) (s_up e) (was_aborted e) ft ts fs (to_tcp e).

(** What a call does to the environment; [None]: the callee forbids it. *)
Definition env_out (o : out) (e : env) : option env :=
  match o with
  | Tcp_err_set => if pcb e then Some (set_pcb true true (cb_recv e) (cb_sent e) e) else None
  | Tcp_recv_set => if pcb e then Some (set_pcb true (cb_err e) true (cb_sent e) e) else None
  | Tcp_sent_set => if pcb e then Some (set_pcb true (cb_err e) (cb_recv e) true e) else None
  | Tcp_err_null => if pcb e then Some (set_pcb true false (cb_recv e) (cb_sent e) e) else None
  | Tcp_recv_null => if pcb e then Some (set_pcb true (cb_err e) false (cb_sent e) e) else None
  | Tcp_sent_null => if pcb e then Some (set_pcb true (cb_err e) (cb_recv e) false e) else None
  | Tcp_close ok =>
      if pcb e then Some (set_pcb (negb ok) (cb_err e) (cb_recv e) (cb_sent e) e) else None
  | Tcp_abort =>
      if pcb e then Some (set_was_aborted true (set_pcb false (cb_err e) (cb_recv e) (cb_sent e) e)) else None
  | Tcp_recved n =>
      if pcb e && (0 <? n) && (n <=? unacked e) then Some (set_unacked (unacked e - n) e) else None
  | Tcp_write d =>
      if pcb e then Some (set_inflight (inflight e + zlen d) (to_tcp e ++ d) e) else None
  | Tcp_output _ => if pcb e then Some e else None
  | Socks_Init => if socks e then None else Some (set_socks true None false false e)
  | Socks_Free => if socks e then Some (set_socks false None false (s_up e) e) else None
  | Socks_Send n =>
      match send_op e with
      | None => if socks e && (0 <? n) then Some (set_socks true (Some n) (recv_op e) (s_up e) e) else None
      | Some _ => None
      end
  | Socks_Recv =>
      if socks e && negb (recv_op e) then Some (set_socks true (send_op e) true (s_up e) e) else None
  end.

(** Results of the lwIP functions a handler calls.  [tcp_write]: [W_mem] is
    [ERR_MEM], [W_err] any other error; indices count calls in the loop. *)
Inductive write_result := W_ok | W_mem | W_err.
Record lwip := mk_lwip {
  r_close : bool;
  r_sndbuf : nat -> Z;
  r_write : nat -> write_result;
  r_output : bool;
}.

Section Client.
Context (TCP_WND : Z).

Abbreviation H := (M sys out).

Definition call (o : out) : H unit :=
  s <- get ;;
  match env_out o (en s) with
  | Some e => modify (set_en e) ;; emit o
  | None => fail F_assert
  end.

(** Access to [client]: a fault once it was freed. *)
Definition client_ : H client :=
  s <- get ;;
  if allocated s then ret (cl s) else fail F_bounds.
Definition update (f : client -> client) : H unit :=
  c <- client_ ;; modify (set_cl (f c)).

Definition set_aborted (c : client) : client :=
  mk_client true (client_closed c) (buf c) (buf_used c) (socks_up c) (socks_closed c)
    (socks_recv_buf c) (socks_recv_buf_used c) (socks_recv_buf_sent c) (socks_recv_waiting c)
    (socks_recv_tcp_pending c).
Definition set_client_closed (c : client) : client :=
  mk_client (aborted c) true (buf c) (buf_used c) (socks_up c) (socks_closed c)
    (socks_recv_buf c) (socks_recv_buf_used c) (socks_recv_buf_sent c) (socks_recv_waiting c)
    (socks_recv_tcp_pending c).
Definition set_socks_closed (c : client) : client :=
  mk_client (aborted c) (client_closed c) (buf c) (buf_used c) (socks_up c) true
    (socks_recv_buf c) (socks_recv_buf_used c) (socks_recv_buf_sent c) (socks_recv_waiting c)
    (socks_recv_tcp_pending c).
Definition set_socks_up (c : client) : client :=
  mk_client (aborted c) (client_closed c) (buf c) (buf_used c) true (socks_closed c)
    (socks_recv_buf c) (socks_recv_buf_used c) (socks_recv_buf_sent c) (socks_recv_waiting c)
    (socks_recv_tcp_pending c).
Definition set_buf (b : list Z) (u : Z) (c : client) : client :=
  mk_client (aborted c) (client_closed c) b u (socks_up c) (socks_closed c)
    (socks_recv_buf c) (socks_recv_buf_used c) (socks_recv_buf_sent c) (socks_recv_waiting c)
    (socks_recv_tcp_pending c).
Definition set_recv (u snt : Z) (w : bool) (p : Z) (c : client) : client :=
  mk_client (aborted c) (client_closed c) (buf c) (buf_used c) (socks_up c) (socks_closed c)
    (socks_recv_buf c) u snt w p.

(** [DEAD_KILL_WITH(client->dead_aborted, v)] *)
Definition DEAD_KILL_WITH (v : Z) : H unit :=
  s <- get ;;
  match dead s with
  | DEAD_NULL => ret tt
  | DEAD_LIVE _ => modify (set_dead (DEAD_LIVE v))
  | DEAD_DANGLING => fail F_bounds
  end.

(** [DEAD_ENTER] of a callback.  Callbacks do not nest, so the pointer it saves
    and [DEAD_LEAVE2] puts back is [NULL]; anything else is a fault. *)
Definition DEAD_ENTER : H unit :=
  client_ ;;
  s <- get ;;
  match dead s with
  | DEAD_NULL => modify (set_dead (DEAD_LIVE 0))
  | _ => fail F_bounds
  end.

(** [DEAD_LEAVE2]; the result is [DEAD_KILLED].  A flag that was killed leaves
    the pointer in the client (if it still exists) dangling. *)
Definition DEAD_LEAVE2 : H Z :=
  s <- get ;;
  match dead s with
  | DEAD_LIVE 0 => client_ ;; modify (set_dead DEAD_NULL) ;; ret 0
  | DEAD_LIVE v => modify (set_dead DEAD_DANGLING) ;; ret v
  | _ => fail F_bounds
  end.

(** ** Freeing *)

Definition client_dealloc : H unit :=
  c <- client_ ;;
  assert (client_closed c) ;;
  assert (socks_closed c) ;;
  s <- get ;;
  assert (num_clients s >? 0) ;;
  assert (in_list s) ;;
  modify (fun s => mk_sys (cl s) (allocated s) false (num_clients s - 1) (dead s) (en s)) ;;
  (if negb (aborted c) then DEAD_KILL_WITH (-1) else ret tt) ;;
  modify (fun s => mk_sys (cl s) false (in_list s) (num_clients s) (dead s) (en s)).

Definition client_abort_pcb : H unit :=
  c <- client_ ;;
  assert (negb (aborted c)) ;;
  call Tcp_abort ;;
  update set_aborted ;;
  DEAD_KILL_WITH 1.

(** [client_handle_freed_client], [client_free_socks] and [client_free_client]
    call each other; the fuel bounds the depth, and is never used up. *)
Fixpoint client_handle_freed_client (fuel : nat) (r : lwip) : H unit :=
  match fuel with
  | O => fail F_fuel
  | S fuel =>
      c <- client_ ;;
      assert (negb (client_closed c)) ;;
      update set_client_closed ;;
      c <- client_ ;;
      if (buf_used c >? 0) && negb (socks_closed c) then ret tt
      else if negb (socks_closed c) then client_free_socks fuel r
      else client_dealloc
  end
with client_free_socks (fuel : nat) (r : lwip) : H unit :=
  match fuel with
  | O => fail F_fuel
  | S fuel =>
      c <- client_ ;;
      assert (negb (socks_closed c)) ;;
      (if socks_up c && negb (client_closed c) then call Tcp_recv_null else ret tt) ;;
      call Socks_Free ;;
      update set_socks_closed ;;
      c <- client_ ;;
      if socks_up c && ((socks_recv_buf_used c >=? 0) || (socks_recv_tcp_pending c >? 0)) &&
         negb (client_closed c)
      then ret tt
      else if negb (client_closed c) then client_free_client fuel r
      else client_dealloc
  end
with client_free_client (fuel : nat) (r : lwip) : H unit :=
  match fuel with
  | O => fail F_fuel
  | S fuel =>
      c <- client_ ;;
      assert (negb (client_closed c)) ;;
      call Tcp_err_null ;;
      call Tcp_recv_null ;;
      call Tcp_sent_null ;;
      call (Tcp_close (r_close r)) ;;
      (if negb (r_close r) then client_abort_pcb else ret tt) ;;
      client_handle_freed_client fuel r
  end.

(** Depth of mutual calls that always suffices. *)
Definition depth : nat := 4.

Definition client_abort_client (r : lwip) : H unit :=
  c <- client_ ;;
  assert (negb (client_closed c)) ;;
  call Tcp_err_null ;;
  call Tcp_recv_null ;;
  call Tcp_sent_null ;;
  client_abort_pcb ;;
  client_handle_freed_client depth r.

Definition client_murder : H unit :=
  c <- client_ ;;
  (if negb (client_closed c) then
     call Tcp_err_null ;;
     call Tcp_recv_null ;;
     call Tcp_sent_null ;;
     client_abort_pcb ;;
     update set_client_closed
   else ret tt) ;;
  c <- client_ ;;
  (if negb (socks_closed c) then
     call Socks_Free ;;
     update set_socks_closed
   else ret tt) ;;
  client_dealloc.

(** ** Towards SOCKS *)

Definition client_send_to_socks : H unit :=
  c <- client_ ;;
  assert (negb (socks_closed c)) ;;
  assert (socks_up c) ;;
  assert (buf_used c >? 0) ;;
  call (Socks_Send (buf_used c)).

Definition client_socks_send_handler_done (r : lwip) (data_len : Z) : H unit :=
  c <- client_ ;;
  assert (negb (socks_closed c)) ;;
  assert (socks_up c) ;;
  assert (buf_used c >? 0) ;;
  assert (data_len >? 0) ;;
  assert (data_len <=? buf_used c) ;;
  check_block (zlen (buf c)) data_len (buf_used c - data_len) ;;
  update (set_buf (mwrite (buf c) 0 (mread (buf c) data_len (buf_used c - data_len)))
                  (buf_used c - data_len)) ;;
  (if negb (client_closed c) then call (Tcp_recved data_len) else ret tt) ;;
  c <- client_ ;;
  if buf_used c >? 0 then call (Socks_Send (buf_used c))
  else if client_closed c then client_free_socks depth r
  else ret tt.

(** ** From SOCKS *)

Definition client_socks_recv_initiate : H unit :=
  c <- client_ ;;
  assert (negb (client_closed c)) ;;
  assert (negb (socks_closed c)) ;;
  assert (socks_up c) ;;
  assert (socks_recv_buf_used c =? -1) ;;
  call Socks_Recv.

(** The [do ... while] loop of [client_socks_recv_send_out]; the result is
    [false] when a [tcp_write] failed for good.  One unit of fuel per call. *)
Fixpoint send_out_loop (fuel : nat) (i : nat) (r : lwip) : H bool :=
  match fuel with
  | O => fail F_fuel
  | S fuel =>
      c <- client_ ;;
      let to_write := bmin_int (socks_recv_buf_used c - socks_recv_buf_sent c) (r_sndbuf r i) in
      if to_write =? 0 then ret true else
      match r_write r i with
      | W_mem => ret true
      | W_err => ret false
      | W_ok =>
          check_block (zlen (socks_recv_buf c)) (socks_recv_buf_sent c) to_write ;;
          call (Tcp_write (mread (socks_recv_buf c) (socks_recv_buf_sent c) to_write)) ;;
          update (set_recv (socks_recv_buf_used c) (socks_recv_buf_sent c + to_write)
                    (socks_recv_waiting c) (socks_recv_tcp_pending c + to_write)) ;;
          if socks_recv_buf_sent c + to_write <? socks_recv_buf_used c
          then send_out_loop fuel (S i) r else ret true
      end
  end.

Definition client_socks_recv_send_out (r : lwip) : H Z :=
  c <- client_ ;;
  assert (negb (client_closed c)) ;;
  assert (socks_up c) ;;
  assert (socks_recv_buf_used c >? 0) ;;
  assert (socks_recv_buf_sent c <? socks_recv_buf_used c) ;;
  assert (negb (socks_recv_waiting c)) ;;
  ok <- send_out_loop (Z.to_nat (socks_recv_buf_used c)) 0 r ;;
  if negb ok then client_abort_client r ;; ret (-1) else
  call (Tcp_output (r_output r)) ;;
  if negb (r_output r) then client_abort_client r ;; ret (-1) else
  c <- client_ ;;
  if socks_recv_buf_sent c <? socks_recv_buf_used c then
    if socks_recv_tcp_pending c =? 0 then client_abort_client r ;; ret (-1) else
    update (set_recv (socks_recv_buf_used c) (socks_recv_buf_sent c) true (socks_recv_tcp_pending c)) ;;
    ret 0
  else
    update (set_recv (-1) (socks_recv_buf_sent c) (socks_recv_waiting c) (socks_recv_tcp_pending c)) ;;
    ret 0.

(** The SOCKS connection stored [data] in [socks_recv_buf] and completed. *)
Definition client_socks_recv_handler_done (r : lwip) (data_len : Z) : H unit :=
  c <- client_ ;;
  assert (data_len >? 0) ;;
  assert (data_len <=? CLIENT_SOCKS_RECV_BUF_SIZE) ;;
  assert (negb (socks_closed c)) ;;
  assert (socks_up c) ;;
  assert (socks_recv_buf_used c =? -1) ;;
  if client_closed c then ret tt else
  update (set_recv data_len 0 false (socks_recv_tcp_pending c)) ;;
  res <- client_socks_recv_send_out r ;;
  if res <? 0 then ret tt else
  c <- client_ ;;
  when socks_recv_buf_used c =? -1 do client_socks_recv_initiate.

(** ** Events of the SOCKS client *)

Inductive socks_event :=
  | SE_error | SE_up | SE_closed
  | SE_sent (data_len : Z)          (** the send operation completes *)
  | SE_recv (data : list Z).        (** the receive operation completes *)

Definition client_socks_handler (r : lwip) (ev : socks_event) : H unit :=
  c <- client_ ;;
  assert (negb (socks_closed c)) ;;
  match ev with
  | SE_error => client_free_socks depth r
  | SE_up =>
      assert (negb (socks_up c)) ;;
      update (set_recv (-1) (socks_recv_buf_sent c) (socks_recv_waiting c) 0) ;;
      (if negb (client_closed c) then call Tcp_sent_set else ret tt) ;;
      update set_socks_up ;;
      (if buf_used c >? 0 then client_send_to_socks else ret tt) ;;
      (if negb (client_closed c) then client_socks_recv_initiate else ret tt)
  | SE_closed =>
      assert (socks_up c) ;;
      client_free_socks depth r
  | _ => fail F_assert
  end.

(** ** Delivery of SOCKS events *)

Definition se_enabled (ev : socks_event) (s : sys) : bool :=
  allocated s && socks (en s) &&
  match ev with
  | SE_error => true
  | SE_up => negb (s_up (en s))
  | SE_closed => s_up (en s)
  | SE_sent n => match send_op (en s) with Some m => (0 <? n) && (n <=? m) | None => false end
  | SE_recv d => recv_op (en s) && (0 <? zlen d) && (zlen d <=? CLIENT_SOCKS_RECV_BUF_SIZE)
  end.

(** The SOCKS side acts, then calls the client's handler. *)
Definition deliver_socks (ev : socks_event) (r : lwip) : H unit :=
  s <- get ;;
  let e := en s in
  match ev with
  | SE_sent n =>
      modify (set_en (set_flow (from_tcp e) (to_socks e ++ mread (buf (cl s)) 0 n) (from_socks e)
                        (set_socks true None (recv_op e) (s_up e) e))) ;;
      client_socks_send_handler_done r n
  | SE_recv d =>
      modify (set_en (set_flow (from_tcp e) (to_socks e) (from_socks e ++ d)
                        (set_socks true (send_op e) false (s_up e) e))) ;;
      update (fun c => mk_client (aborted c) (client_closed c) (buf c) (buf_used c) (socks_up c)
                (socks_closed c) (mwrite (socks_recv_buf c) 0 d) (socks_recv_buf_used c)
                (socks_recv_buf_sent c) (socks_recv_waiting c) (socks_recv_tcp_pending c)) ;;
      client_socks_recv_handler_done r (zlen d)
  | SE_up =>
      modify (set_en (set_socks true (send_op e) (recv_op e) true e)) ;;
      client_socks_handler r SE_up
  | _ => client_socks_handler r ev
  end.

(** [SYNC_COMMIT]: the pending jobs run; events that cannot happen are skipped. *)
Fixpoint SYNC_COMMIT (evs : list (socks_event * lwip)) : H unit :=
  match evs with
  | [] => ret tt
  | (ev, r) :: evs' =>
      s <- get ;;
      (if se_enabled ev s then deliver_socks ev r else ret tt) ;;
      SYNC_COMMIT evs'
  end.

(** ** Callbacks of lwIP *)

Inductive err_t := ERR_OK | ERR_MEM | ERR_ABRT.

Definition result_of_killed (killed : Z) : err_t := if killed >? 0 then ERR_ABRT else ERR_OK.

Definition client_err_func (r : lwip) : H unit :=
  c <- client_ ;;
  assert (negb (client_closed c)) ;;
  client_handle_freed_client depth r.

(** [p]: the received bytes, [None] when the peer closed ([p == NULL]). *)
Definition client_recv_func (r : lwip) (p : option (list Z)) (sync : list (socks_event * lwip)) : H err_t :=
  c <- client_ ;;
  assert (negb (client_closed c)) ;;
  DEAD_ENTER ;;
  match p with
  | None =>
      client_free_client depth r ;;
      killed <- DEAD_LEAVE2 ;;
      ret (result_of_killed killed)
  | Some d =>
      assert (zlen d >? 0) ;;
      if zlen d >? TCP_WND - buf_used c then
        DEAD_LEAVE2 ;; ret ERR_MEM
      else
      check_block (zlen (buf c)) (buf_used c) (zlen d) ;;
      update (set_buf (mwrite (buf c) (buf_used c) d) (buf_used c + zlen d)) ;;
      c <- client_ ;;
      (if (buf_used c =? zlen d) && socks_up c then
         assert (negb (socks_closed c)) ;;
         client_send_to_socks ;;
         SYNC_COMMIT sync
       else ret tt) ;;
      killed <- DEAD_LEAVE2 ;;
      ret (result_of_killed killed)
  end.

Definition client_sent_func (r : lwip) (len : Z) (sync : list (socks_event * lwip)) : H err_t :=
  c <- client_ ;;
  assert (negb (client_closed c)) ;;
  assert (socks_up c) ;;
  assert (len >? 0) ;;
  assert (len <=? socks_recv_tcp_pending c) ;;
  DEAD_ENTER ;;
  update (set_recv (socks_recv_buf_used c) (socks_recv_buf_sent c) (socks_recv_waiting c)
            (socks_recv_tcp_pending c - len)) ;;
  c <- client_ ;;
  (if socks_recv_buf_used c >? 0 then
     assert (socks_recv_waiting c) ;;
     assert (socks_recv_buf_sent c <? socks_recv_buf_used c) ;;
     update (set_recv (socks_recv_buf_used c) (socks_recv_buf_sent c) false (socks_recv_tcp_pending c)) ;;
     res <- client_socks_recv_send_out r ;;
     if res <? 0 then ret tt else
     c <- client_ ;;
     assert (socks_recv_tcp_pending c >? 0) ;;
     if (socks_recv_buf_used c =? -1) && negb (socks_closed c) then
       client_socks_recv_initiate ;;
       SYNC_COMMIT sync
     else ret tt
   else
     if socks_closed c && (socks_recv_tcp_pending c =? 0) then client_free_client depth r else ret tt) ;;
  killed <- DEAD_LEAVE2 ;;
  ret (result_of_killed killed).

(** [listener_accept_func]: [c0] is the freshly allocated memory, the flags say
    whether the allocations and [BSocksClient_Init] succeed. *)
Definition listener_accept_func (malloc_ok name_ok socks_ok : bool) (append_source : bool)
    (c0 : client) (sync : list (socks_event * lwip)) : H err_t :=
  if negb malloc_ok then ret ERR_MEM else
  if append_source && negb name_ok then ret ERR_MEM else
  if negb socks_ok then ret ERR_MEM else
  call Socks_Init ;;
  modify (fun s => mk_sys (mk_client false (client_closed c0) (buf c0) (buf_used c0) (socks_up c0)
            (socks_closed c0) (socks_recv_buf c0) (socks_recv_buf_used c0) (socks_recv_buf_sent c0)
            (socks_recv_waiting c0) (socks_recv_tcp_pending c0))
            true true (num_clients s) DEAD_NULL (en s)) ;;
  s <- get ;;
  assert (num_clients s >=? 0) ;;
  modify (fun s => mk_sys (cl s) (allocated s) (in_list s) (num_clients s + 1) (dead s) (en s)) ;;
  call Tcp_err_set ;;
  call Tcp_recv_set ;;
  update (fun c => mk_client false false (buf c) 0 false false (socks_recv_buf c)
            (socks_recv_buf_used c) (socks_recv_buf_sent c) (socks_recv_waiting c)
            (socks_recv_tcp_pending c)) ;;
  DEAD_ENTER ;;
  SYNC_COMMIT sync ;;
  killed <- DEAD_LEAVE2 ;;
  ret (result_of_killed killed).

(** ** Delivery of events *)

Inductive event :=
  | E_socks (ev : socks_event) (r : lwip)
  | E_recv (p : option (list Z)) (r : lwip) (sync : list (socks_event * lwip))
  | E_sent (len : Z) (r : lwip) (sync : list (socks_event * lwip))
  | E_err (r : lwip)
  | E_murder.                 (** the program terminates *)

(** What the environment can do: lwIP calls only callbacks that are set, delivers
    no more than its receive window and acknowledges only what was written. *)
Definition enabled (ev : event) (s : sys) : bool :=
  allocated s &&
  match ev with
  | E_socks ev _ => se_enabled ev s
  | E_recv (Some d) _ _ =>
      pcb (en s) && cb_recv (en s) && (0 <? zlen d) && (unacked (en s) + zlen d <=? TCP_WND)
  | E_recv None _ _ => pcb (en s) && cb_recv (en s)
  | E_sent n _ _ => pcb (en s) && cb_sent (en s) && (0 <? n) && (n <=? inflight (en s))
  | E_err _ => pcb (en s) && cb_err (en s)
  | E_murder => true
  end.

(** The environment acts, then calls the client.  A fresh callback has not
    called [tcp_abort]. *)
Definition deliver (ev : event) : H (option err_t) :=
  s <- get ;;
  let e := set_was_aborted false (en s) in
  match ev with
  | E_socks ev r => deliver_socks ev r ;; ret None
  | E_recv p r sync =>
      (match p with
       | Some d => modify (set_en (set_unacked (unacked e + zlen d)
                     (set_flow (from_tcp e ++ d) (to_socks e) (from_socks e) e)))
       | None => modify (set_en e)
       end) ;;
      x <- client_recv_func r p sync ;; ret (Some x)
  | E_sent n r sync =>
      modify (set_en (set_inflight (inflight e - n) (to_tcp e) e)) ;;
      x <- client_sent_func r n sync ;; ret (Some x)
  | E_err r =>
      modify (set_en (set_pcb false false false false (en s))) ;;
      client_err_func r ;; ret None
  | E_murder => client_murder ;; ret None
  end.

(** A connection from its acceptance on: [None] is a fault, events that cannot
    happen end the run. *)
Fixpoint run_events (evs : list event) (s : sys) : option sys :=
  match evs with
  | [] => Some s
  | ev :: evs' =>
      if enabled ev s then
        match deliver ev s with Ok _ s' _ => run_events evs' s' | Fault _ => None end
      else Some s
  end.

(** The environment of a connection lwIP has just accepted. *)
Definition env_new : env :=
  mk_env true false false false 0 0 false None false false false [] [] [] [].

(** No client exists for the connection; [n] other clients do. *)
Definition fresh_sys (n : Z) (c0 : client) : sys := mk_sys c0 false false n DEAD_NULL env_new.

Definition run (n : Z) (c0 : client) (append : bool) (sync : list (socks_event * lwip))
    (evs : list event) : option sys :=
  match listener_accept_func true true true append c0 sync (fresh_sys n c0) with
  | Ok _ s _ => run_events evs s
  | Fault _ => None
  end.

(** ** Invariant *)

(** [dead_aborted] mirrors what happened in the current callback. *)
Definition dead_ok (s : sys) : Prop :=
  match dead s with
  | DEAD_NULL => True
  | DEAD_LIVE v =>
      v = (if was_aborted (en s) then 1 else if allocated s then 0 else -1) /\
      (allocated s = true -> aborted (cl s) = was_aborted (en s))
  | DEAD_DANGLING => allocated s = true -> aborted (cl s) = true
  end.

(** Bytes received from SOCKS and not yet queued with [tcp_write]. *)
Definition recv_rest (c : client) : list Z :=
  if socks_up c && (socks_recv_buf_used c >=? 0)
  then mread (socks_recv_buf c) (socks_recv_buf_sent c) (socks_recv_buf_used c - socks_recv_buf_sent c)
  else [].

(** The relation between client and environment; [closed]: the lwIP connection
    is gone. *)
Record base (s : sys) (closed : bool) : Prop := mk_base {
  k_alloc : allocated s = true;
  k_list : in_list s = true;
  k_num : 0 < num_clients s;
  k_dead : dead_ok s;
  k_aborted : aborted (cl s) = true -> closed = true;
  k_pcb : pcb (en s) = negb closed;
  k_err : cb_err (en s) = negb closed;
  k_recv : cb_recv (en s) = negb closed && negb (socks_closed (cl s));
  k_sent : cb_sent (en s) = negb closed && socks_up (cl s);
  k_socks : socks (en s) = negb (socks_closed (cl s));
  k_up : s_up (en s) = socks_up (cl s);
  k_send : match send_op (en s) with
           | Some n => socks_closed (cl s) = false /\ socks_up (cl s) = true /\ 0 < n <= buf_used (cl s)
           | None => socks_closed (cl s) = true \/ socks_up (cl s) = false \/ buf_used (cl s) = 0
           end;
  k_recvop : recv_op (en s) = true ->
    socks_closed (cl s) = false /\ socks_up (cl s) = true /\ socks_recv_buf_used (cl s) = -1;
  k_buf : 0 <= buf_used (cl s) <= TCP_WND /\ zlen (buf (cl s)) = TCP_WND;
  k_rbuflen : zlen (socks_recv_buf (cl s)) = CLIENT_SOCKS_RECV_BUF_SIZE;
  k_flow1 : from_tcp (en s) = to_socks (en s) ++ mread (buf (cl s)) 0 (buf_used (cl s));
}.

(** The state of the transfer to the lwIP connection, while it exists. *)
Record transfer (s : sys) : Prop := mk_transfer {
  t_pending : socks_up (cl s) = true ->
    0 <= socks_recv_tcp_pending (cl s) /\ socks_recv_tcp_pending (cl s) = inflight (en s);
  t_rbuf : socks_up (cl s) = true ->
    socks_recv_buf_used (cl s) = -1 \/
    0 < socks_recv_buf_used (cl s) <= CLIENT_SOCKS_RECV_BUF_SIZE /\
    0 <= socks_recv_buf_sent (cl s) < socks_recv_buf_used (cl s) /\
    socks_recv_waiting (cl s) = true /\ 0 < socks_recv_tcp_pending (cl s);
  t_notup : socks_up (cl s) = false -> inflight (en s) = 0;
  t_recvop : recv_op (en s) = false -> socks_closed (cl s) = false -> socks_up (cl s) = true ->
    socks_recv_buf_used (cl s) <> -1;
  t_unacked : unacked (en s) = buf_used (cl s);
  t_flow2 : from_socks (en s) = to_tcp (en s) ++ recv_rest (cl s);
}.

Definition core (s : sys) (closed : bool) : Prop := base s closed /\ (closed = false -> transfer s).

(** Between events: a client that lost one side still has work for the other. *)
Record inv (s : sys) : Prop := mk_inv {
  inv_core : core s (client_closed (cl s));
  inv_closed : client_closed (cl s) = true -> socks_closed (cl s) = false /\ 0 < buf_used (cl s);
  inv_sclosed : socks_closed (cl s) = true ->
    socks_up (cl s) = true /\ (0 <= socks_recv_buf_used (cl s) \/ 0 < socks_recv_tcp_pending (cl s));
}.

(** After the client was freed: both connections are gone. *)
Record released (s : sys) : Prop := mk_released {
  rel_alloc : allocated s = false;
  rel_list : in_list s = false;
  rel_dead : dead_ok s;
  rel_pcb : pcb (en s) = false;
  rel_socks : socks (en s) = false;
}.

(** The client is consistent and counted, or released and no longer counted;
    [n]: [num_clients] while it exists. *)
Definition good (n : Z) (s : sys) : Prop :=
  (inv s /\ num_clients s = n) \/ (released s /\ num_clients s = n - 1).

(** Nothing happens to an enclosing callback's flag but what the handler did. *)
Definition same_callback (s s' : sys) : Prop :=
  match dead s with DEAD_LIVE _ => exists v, dead s' = DEAD_LIVE v | d => dead s' = d end.

Lemma same_callback_trans s1 s2 s3 : same_callback s1 s2 -> same_callback s2 s3 -> same_callback s1 s3.
Proof. unfold same_callback. destruct (dead s1) as [|v1|]; [by intros -> | by intros [v ->] | by intros ->]. Qed.

(** Between events no callback is running. *)
Definition idle (s : sys) : Prop := match dead s with DEAD_LIVE _ => False | _ => True end.

Lemma idle_same_callback s s' : idle s -> same_callback s s' -> idle s'.
Proof. unfold idle, same_callback. destruct (dead s); [by intros _ ->|done|by intros _ ->]. Qed.

Lemma wp_client s (Q : client -> sys -> list out -> Prop) :
  allocated s = true -> Q (cl s) s [] -> wp client_ s Q.
Proof. intros Ha HQ. unfold client_. do 2 wp_step. rewrite Ha. by wp_step. Qed.

Lemma wp_update f s (Q : unit -> sys -> list out -> Prop) :
  allocated s = true -> Q tt (set_cl (f (cl s)) s) [] -> wp (update f) s Q.
Proof. intros Ha HQ. unfold update. wp_step. apply wp_client; [done|]. by wp_step. Qed.

Lemma wp_call o s e (Q : unit -> sys -> list out -> Prop) :
  env_out o (en s) = Some e -> Q tt (set_en e s) [o] -> wp (call o) s Q.
Proof. intros He HQ. unfold call. do 2 wp_step. rewrite He. wp_step. wp_step. by wp_step. Qed.

(** Freeing a client whose both sides are closed. *)
Lemma dealloc_released_wp s :
  base s true -> client_closed (cl s) = true -> socks_closed (cl s) = true ->
  wp client_dealloc s (fun _ s' _ => (released s' /\ num_clients s' = num_clients s - 1) /\ same_callback s s').
Proof.
  intros K Hc Hs. destruct K. unfold client_dealloc.
  wp_step. apply wp_client; [done|]. wp_step. wp_step; [done|]. wp_step. wp_step; [done|].
  do 3 wp_step. wp_step; [lia|]. wp_step. wp_step; [done|]. do 3 wp_step.
  unfold dead_ok in k_dead0. destruct (aborted (cl s)) eqn:Ea; cbn [negb].
  - wp_step. wp_step. split; [split; [|done]|].
    + split; cbn; try done; [|by rewrite k_socks0, Hs]. unfold dead_ok. cbn.
      destruct (dead s); try done. destruct k_dead0 as [-> Hd]. rewrite <- (Hd k_alloc0). done.
    + unfold same_callback. cbn. destruct (dead s); eauto.
  - unfold DEAD_KILL_WITH. do 2 wp_step. cbn [dead]. destruct (dead s) as [|v|] eqn:Ed.
    + do 2 wp_step. split; [split; [|done]|].
      * split; cbn; try done; by rewrite k_socks0, Hs.
      * unfold same_callback. by rewrite Ed.
    + do 2 wp_step. split; [split; [|done]|].
      * split; cbn; try done; [|by rewrite k_socks0, Hs]. unfold dead_ok. cbn.
        destruct k_dead0 as [_ Hd]. rewrite <- (Hd k_alloc0). done.
      * unfold same_callback. rewrite Ed. cbn. eauto.
    + specialize (k_dead0 k_alloc0). done.
Qed.

Lemma dealloc_wp s :
  base s true -> client_closed (cl s) = true -> socks_closed (cl s) = true ->
  wp client_dealloc s (fun _ s' _ => good (num_clients s) s' /\ same_callback s s').
Proof.
  intros K Hc Hs. eapply wp_mono; [by apply dealloc_released_wp|]. intros _ s' tr [? ?]. split; [by right | done].
Qed.

(** Closing SOCKS keeps the relation. *)
Definition after_socks_closed (s : sys) : sys :=
  set_cl (set_socks_closed (cl s))
    (set_en (set_socks false None false (s_up (en s))
       (set_pcb (pcb (en s)) (cb_err (en s)) false (cb_sent (en s)) (en s))) s).

Lemma base_socks_closed s closed :
  base s closed -> socks_closed (cl s) = false -> base (after_socks_closed s) closed.
Proof.
  intros [] Hs. split; cbn; try done.
  - by rewrite andb_false_r.
  - by left.
Qed.

Lemma transfer_socks_closed s : transfer s -> transfer (after_socks_closed s).
Proof. by intros []. Qed.

Lemma free_socks_closed_wp s n r :
  base s true -> client_closed (cl s) = true -> socks_closed (cl s) = false ->
  wp (client_free_socks (S n) r) s (fun _ s' _ => good (num_clients s) s' /\ same_callback s s').
Proof.
  intros K Hc Hs. pose proof (base_socks_closed s true K Hs) as K'.
  pose proof (k_alloc _ _ K) as Ha. pose proof (k_socks _ _ K) as Hso. rewrite Hs in Hso.
  pose proof (k_recv _ _ K) as Hr. cbn in Hr. cbn [client_free_socks].
  wp_step. apply wp_client; [done|]. wp_step. wp_step; [by rewrite Hs|]. rewrite Hc.
  rewrite andb_false_r. do 2 wp_step. wp_step.
  eapply wp_call; [cbn; by rewrite Hso|]. wp_step. apply wp_update; [done|].
  wp_step. apply wp_client; [done|]. cbn. rewrite Hc, andb_false_r. cbn.
  assert (E : set_pcb (pcb (en s)) (cb_err (en s)) false (cb_sent (en s)) (en s) = en s).
  { rewrite <- Hr. by destruct (en s). }
  unfold after_socks_closed in K'. rewrite E in K'. by apply (dealloc_wp _ K').
Qed.

Lemma base_client_closed s : base s true -> base (set_cl (set_client_closed (cl s)) s) true.
Proof. by intros []. Qed.

Lemma handle_freed_wp s n r :
  base s true -> client_closed (cl s) = false ->
  wp (client_handle_freed_client (S (S n)) r) s
    (fun _ s' _ => good (num_clients s) s' /\ same_callback s s').
Proof.
  intros K Hc. pose proof (base_client_closed s K) as K'. pose proof (k_alloc _ _ K) as Ha.
  pose proof (proj1 (proj1 (k_buf _ _ K))) as Hb.
  cbn [client_handle_freed_client].
  wp_step. apply wp_client; [done|]. wp_step. wp_step; [by rewrite Hc|].
  wp_step. apply wp_update; [done|]. wp_step. apply wp_client; [done|]. cbn.
  set (s1 := set_cl _ s) in *.
  destruct (socks_closed (cl s)) eqn:Es; cbn.
  - rewrite andb_false_r. apply (dealloc_wp s1); done.
  - rewrite andb_true_r. destruct (Z.gtb_spec (buf_used (cl s)) 0) as [Hu|Hu].
    + wp_step. split; [left; split; [|done]|]; [|unfold same_callback; cbn; destruct (dead s); eauto].
      split; [by split | done | cbn; congruence].
    + by apply (free_socks_closed_wp s1 n r).
Qed.

(** The environment after the callbacks are removed and the connection is gone. *)
Definition env_gone (ab : bool) (e : env) : env :=
  set_was_aborted (ab || was_aborted e) (set_pcb false false false false e).

Lemma base_gone s d ab c :
  base s false -> client_closed (cl s) = false ->
  c = (if ab : bool then set_aborted (cl s) else cl s) ->
  d = (if ab then match dead s with DEAD_LIVE _ => DEAD_LIVE 1 | x => x end else dead s) ->
  base (set_dead d (set_cl c (set_en (env_gone ab (en s)) s))) true.
Proof.
  intros [] Hc -> ->. unfold dead_ok in *. destruct ab; split; cbn; try done.
  unfold dead_ok. cbn. destruct (dead s); auto.
Qed.

(** The three callbacks removed, the connection still there. *)
Definition env_silent (e : env) : env := set_pcb true false false false e.

Lemma silence_wp s ce cr cs (k : H unit) Q :
  wp k (set_en (env_silent (en s)) s) (fun a s' tr => Q a s' (Tcp_err_null :: Tcp_recv_null :: Tcp_sent_null :: tr)) ->
  wp (call Tcp_err_null ;; call Tcp_recv_null ;; call Tcp_sent_null ;; k)
     (set_en (set_pcb true ce cr cs (en s)) s) Q.
Proof.
  intros HQ. wp_step. eapply wp_call; [done|]. wp_step. eapply wp_call; [done|].
  wp_step. eapply wp_call; [done|]. exact HQ.
Qed.

Lemma base_pcb_eta s : base s false ->
  s = set_en (set_pcb true (cb_err (en s)) (cb_recv (en s)) (cb_sent (en s)) (en s)) s.
Proof. intros K. pose proof (k_pcb _ _ K) as Hp. destruct s as [? ? ? ? ? []]. cbn in *. by subst. Qed.

Lemma abort_pcb_wp s (Q : unit -> sys -> list out -> Prop) :
  base s false -> client_closed (cl s) = false ->
  (forall s', base s' true -> client_closed (cl s') = false -> num_clients s' = num_clients s ->
     same_callback s s' -> was_aborted (en s') = true -> Q tt s' [Tcp_abort]) ->
  wp client_abort_pcb (set_en (env_silent (en s)) s) Q.
Proof.
  intros K Hc HQ. pose proof (k_alloc _ _ K) as Ha. pose proof (k_pcb _ _ K) as Hp. cbn in Hp.
  pose proof (base_gone s _ true _ K Hc eq_refl eq_refl) as K'.
  assert (Hab : aborted (cl s) = false).
  { destruct (aborted (cl s)) eqn:E; [|done]. by apply (k_aborted _ _ K) in E. }
  pose proof (k_dead _ _ K) as Hd. unfold dead_ok in Hd.
  unfold client_abort_pcb. wp_step. apply wp_client; [done|]. wp_step. wp_step; [by cbn; rewrite Hab|].
  wp_step. eapply wp_call; [done|]. wp_step. apply wp_update; [done|].
  unfold DEAD_KILL_WITH. do 2 wp_step. unfold same_callback in HQ. cbn.
  destruct (dead s) as [|v|] eqn:Ed; [| |by specialize (Hd Ha); congruence]; wp_step; apply HQ; try done; cbn; eauto.
  rewrite <- Ed in K'. destruct s. exact K'.
Qed.

Lemma free_client_any_wp s ce cr cs n r :
  base s false -> client_closed (cl s) = false ->
  wp (client_free_client (S (S (S n))) r) (set_en (set_pcb true ce cr cs (en s)) s)
    (fun _ s' _ => good (num_clients s) s' /\ same_callback s s').
Proof.
  intros K Hc. pose proof (k_alloc _ _ K) as Ha.
  remember (S (S n)) as n2. cbn [client_free_client]. subst n2.
  wp_step. apply wp_client; [done|]. wp_step. wp_step; [by cbn; rewrite Hc|].
  apply silence_wp. wp_step. eapply wp_call; [done|].
  destruct (r_close r) eqn:Er; cbn [negb].
  - do 2 wp_step. pose proof (base_gone s _ false _ K Hc eq_refl eq_refl) as K'. cbn in K'.
    eapply wp_mono; [apply (handle_freed_wp _ n r); [|done]|].
    + destruct s. exact K'.
    + intros _ s' tr (HG & HS). split; [exact HG|]. exact HS.
  - wp_step. apply (abort_pcb_wp s); [done..|]. intros s' K' Hc' Hn' Hs' _.
    eapply wp_mono; [by apply (handle_freed_wp s' n r)|]. intros _ s2 tr (HG & HS).
    rewrite Hn' in HG. split; [done|]. by eapply same_callback_trans.
Qed.

Lemma free_client_wp s n r :
  base s false -> client_closed (cl s) = false ->
  wp (client_free_client (S (S (S n))) r) s
    (fun _ s' _ => good (num_clients s) s' /\ same_callback s s').
Proof. intros K Hc. rewrite (base_pcb_eta s K) at 1. by apply free_client_any_wp. Qed.

Lemma abort_client_wp s r :
  base s false -> client_closed (cl s) = false ->
  wp (client_abort_client r) s (fun _ s' _ => good (num_clients s) s' /\ same_callback s s').
Proof.
  intros K Hc. pose proof (k_alloc _ _ K) as Ha. unfold client_abort_client.
  wp_step. apply wp_client; [done|]. wp_step. wp_step; [by rewrite Hc|].
  rewrite (base_pcb_eta s K) at 1. apply silence_wp. wp_step. apply (abort_pcb_wp s); [done..|]. intros s' K' Hc' Hn' Hs' _.
  eapply wp_mono; [by apply (handle_freed_wp s' _ r)|]. intros _ s2 tr (HG & HS).
  rewrite Hn' in HG. split; [done|]. by eapply same_callback_trans.
Qed.

Lemma free_socks_wp s r :
  core s (client_closed (cl s)) -> socks_closed (cl s) = false ->
  wp (client_free_socks depth r) s (fun _ s' _ => good (num_clients s) s' /\ same_callback s s').
Proof.
  intros [K T] Hs. destruct (client_closed (cl s)) eqn:Hc; [by apply free_socks_closed_wp|].
  specialize (T eq_refl).
  pose proof (base_socks_closed s false K Hs) as K'. pose proof (transfer_socks_closed s T) as T'.
  pose proof (k_alloc _ _ K) as Ha. pose proof (k_socks _ _ K) as Hso. rewrite Hs in Hso.
  pose proof (k_pcb _ _ K) as Hp. cbn in Hp. unfold depth. remember 3%nat as n. cbn [client_free_socks]. subst n.
  wp_step. apply wp_client; [done|]. wp_step. wp_step; [by rewrite Hs|]. rewrite Hc, andb_true_r.
  set (s1 := after_socks_closed s) in *.
  destruct (socks_up (cl s)) eqn:Eu.
  - wp_step. eapply wp_call; [cbn; by rewrite Hp|].
    wp_step. eapply wp_call; [cbn; by rewrite Hso|]. wp_step. apply wp_update; [done|].
    wp_step. apply wp_client; [done|].
    match goal with |- wp _ ?st _ => replace st with s1 by (unfold s1, after_socks_closed; by rewrite Hp) end.
    change (cl s1) with (set_socks_closed (cl s)).
    cbn [set_socks_closed socks_up socks_recv_buf_used socks_recv_tcp_pending client_closed].
    rewrite Eu, Hc. cbn [andb negb]. rewrite ?andb_true_r.
    destruct ((socks_recv_buf_used (cl s) >=? 0) || (socks_recv_tcp_pending (cl s) >? 0)) eqn:E.
    + wp_step. split; [left; split; [|done]|unfold same_callback; cbn; destruct (dead s); eauto].
      split; [cbn; rewrite Hc; by split | cbn; congruence |].
      intros _. split; [done|]. cbn. apply orb_true_iff in E. lia.
    + by apply (free_client_wp s1 0 r).
  - wp_step. wp_step. wp_step. eapply wp_call; [cbn; by rewrite Hso|]. wp_step. apply wp_update; [done|].
    wp_step. apply wp_client; [done|].
    cbn [set_cl set_en cl set_socks_closed socks_up client_closed]. rewrite Eu, Hc. cbn [andb negb].
    match goal with |- wp _ ?st _ =>
      replace st with (set_en (set_pcb true (cb_err (en s)) (cb_recv (en s)) (cb_sent (en s)) (en s1)) s1)
        by (unfold s1, after_socks_closed; cbn; by rewrite <- Hp) end.
    by apply (free_client_any_wp s1).
Qed.

(** ** SOCKS events *)

(** The state after [n] bytes of the buffer were taken by SOCKS. *)
Definition after_sent (n : Z) (op : option Z) (s : sys) : sys :=
  let c := cl s in let e := en s in
  set_cl (set_buf (mwrite (buf c) 0 (mread (buf c) n (buf_used c - n))) (buf_used c - n) c)
    (set_en (set_socks true op (recv_op e) (s_up e)
       (set_unacked (if client_closed c then unacked e else unacked e - n)
          (set_flow (from_tcp e) (to_socks e ++ mread (buf c) 0 n) (from_socks e) e))) s).

Lemma core_after_sent s n op :
  core s (client_closed (cl s)) -> socks_closed (cl s) = false -> 0 < n <= buf_used (cl s) ->
  match op with
  | Some k => socks_up (cl s) = true /\ 0 < k <= buf_used (cl s) - n
  | None => buf_used (cl s) = n
  end ->
  core (after_sent n op s) (client_closed (cl s)).
Proof.
  intros [K T] Hs Hn Ho. pose proof (k_flow1 _ _ K) as Hf. pose proof (k_buf _ _ K) as [Hb1 Hb2]. destruct K.
  assert (Hz : zlen (mread (buf (cl s)) n (buf_used (cl s) - n)) = buf_used (cl s) - n)
    by (apply zlen_mread; lia).
  split; [split; cbn; try done|].
  - by rewrite Hs.
  - destruct op as [k|]; [by destruct Ho | right; right; lia].
  - split; [lia|]. rewrite zlen_mwrite; lia.
  - rewrite Hf, <- app_assoc. f_equal.
    pose proof (mread_mwrite_same (buf (cl s)) 0 (mread (buf (cl s)) n (buf_used (cl s) - n))
      ltac:(lia) ltac:(lia)) as E.
    rewrite Hz in E. rewrite E. symmetry. apply mread_join; lia.
  - intros Hc. destruct (T Hc). split; cbn; try done. rewrite Hc. lia.
Qed.

Lemma deliver_sent_wp s n r :
  inv s -> se_enabled (SE_sent n) s = true ->
  wp (deliver_socks (SE_sent n) r) s (fun _ s' _ => good (num_clients s) s' /\ same_callback s s').
Proof.
  intros I. pose proof (inv_core _ I) as KT. pose proof KT as [K T]. unfold se_enabled.
  pose proof (k_send _ _ K) as Hsend. pose proof (k_alloc _ _ K) as Ha.
  intros [_ He]%andb_true_iff. destruct (send_op (en s)) as [m|] eqn:Eo; [|done].
  apply andb_true_iff in He as [He1 He2]. destruct Hsend as (Hs & Hu & Hm).
  pose proof (k_buf _ _ K) as [Hb1 Hb2]. pose proof (k_pcb _ _ K) as Hp.
  assert (Hun : client_closed (cl s) = false -> unacked (en s) = buf_used (cl s)).
  { intros Hc. apply (t_unacked _ (T Hc)). }
  assert (Hn : 0 < n <= buf_used (cl s)) by lia.
  unfold deliver_socks. do 2 wp_step. wp_step. wp_step. unfold client_socks_send_handler_done.
  wp_step. apply wp_client; [done|]. cbn [set_en cl].
  wp_step. wp_step; [by rewrite Hs|]. wp_step. wp_step; [done|]. wp_step. wp_step; [lia|].
  wp_step. wp_step; [lia|]. wp_step. wp_step; [lia|]. wp_step. wp_step; [lia|].
  wp_step. apply wp_update; [done|]. wp_step.
  assert (Hsame : forall op, same_callback s (after_sent n op s)).
  { intros op. unfold same_callback, after_sent. cbn. destruct (dead s); eauto. }
  assert (Hrest :
    wp (c <- client_ ;;
        if buf_used c >? 0 then call (Socks_Send (buf_used c))
        else if client_closed c then client_free_socks depth r else ret tt)
       (after_sent n None s)
       (fun _ s' _ => good (num_clients s) s' /\ same_callback s s')).
  { wp_step. apply wp_client; [done|]. cbn [after_sent set_cl cl set_buf buf_used client_closed].
    destruct (Z.gtb_spec (buf_used (cl s) - n) 0) as [Hpos|Hz].
    - eapply wp_call; [cbn; by rewrite (proj2 (Z.ltb_lt _ _)) by lia|].
      split; [|apply (Hsame (Some (buf_used (cl s) - n)))]. left. split; [|done]. destruct I.
      split; [apply (core_after_sent s n (Some (buf_used (cl s) - n))); try done; lia | |].
      + intros Hc. cbn in Hc |- *. split; [done | lia].
      + cbn. congruence.
    - pose proof (core_after_sent s n None KT Hs Hn ltac:(cbn; lia)) as K'.
      destruct (client_closed (cl s)) eqn:Hc.
      + eapply wp_mono; [apply (free_socks_wp (after_sent n None s) r); [cbn; rewrite Hc; done | done]|].
        intros _ s' tr' (HG & HS). split; [exact HG|]. exact HS.
      + wp_step. split; [|apply Hsame]. left. split; [|done]. split; [cbn; by rewrite Hc | cbn; congruence | cbn; congruence]. }
  destruct (client_closed (cl s)) eqn:Hc; cbn [negb].
  - wp_step. eapply wp_mono; [|intros a s' tr HQ; exact HQ].
    unfold after_sent in Hrest. cbn in Hrest. rewrite Hc in Hrest. exact Hrest.
  - eapply wp_call; [cbn; rewrite Hp; cbn; rewrite (Hun eq_refl), (proj2 (Z.ltb_lt 0 n)), (proj2 (Z.leb_le _ _)) by lia; reflexivity|].
    unfold after_sent in Hrest. rewrite Hc in Hrest.
    rewrite (Hun eq_refl) in Hrest. exact Hrest.
Qed.

(** *** Data towards the TCP client *)

(** [s0] with [u] bytes in the receive buffer of which [k] are queued, [p] bytes
    in flight and [tw] written so far. *)
Definition sending (s0 : sys) (u k p : Z) (w : bool) (tw : list Z) : sys :=
  set_cl (set_recv u k w p (cl s0)) (set_en (set_inflight p tw (en s0)) s0).

(** What [s0] must satisfy while its receive buffer is being emptied. *)
Record sendable (s0 : sys) : Prop := mk_sendable {
  sn_base : base s0 false;
  sn_open : client_closed (cl s0) = false;
  sn_up : socks_up (cl s0) = true;
  sn_norecv : recv_op (en s0) = false;
  sn_unacked : unacked (en s0) = buf_used (cl s0);
}.

Definition rest (s0 : sys) (u k : Z) : list Z := mread (socks_recv_buf (cl s0)) k (u - k).

Definition snd_ok (r : lwip) : Prop := forall i, 0 <= r_sndbuf r i.

Lemma base_sending s0 u k p w tw : sendable s0 -> base (sending s0 u k p w tw) false.
Proof. intros [[] ? ? Hr ?]. split; cbn; try done. congruence. Qed.

Lemma same_callback_sending s0 u k p w tw : same_callback s0 (sending s0 u k p w tw).
Proof. unfold same_callback, sending. cbn. destruct (dead s0); eauto. Qed.

Lemma send_out_loop_wp s0 r u fuel i k p tw :
  sendable s0 -> snd_ok r -> 0 < u <= CLIENT_SOCKS_RECV_BUF_SIZE -> 0 <= k < u ->
  u - k <= Z.of_nat fuel -> from_socks (en s0) = tw ++ rest s0 u k ->
  wp (send_out_loop fuel i r) (sending s0 u k p false tw) (fun ok s' _ =>
    exists k' tw', s' = sending s0 u k' (p + (k' - k)) false tw' /\ k <= k' <= u /\
      from_socks (en s0) = tw' ++ rest s0 u k').
Proof.
  intros S Hr Hu. pose proof (sn_base _ S) as K. pose proof (k_alloc _ _ K) as Ha.
  pose proof (k_pcb _ _ K) as Hp. pose proof (k_rbuflen _ _ K) as Hl.
  revert i k p tw. induction fuel as [|fuel IH]; intros i k p tw Hk Hf Hfl; [lia|].
  cbn [send_out_loop]. wp_step. apply wp_client; [done|]. specialize (Hr i).
  assert (Hstop : exists k' tw', sending s0 u k p false tw = sending s0 u k' (p + (k' - k)) false tw' /\
      k <= k' <= u /\ from_socks (en s0) = tw' ++ rest s0 u k').
  { exists k, tw. split; [f_equal; lia | split; [lia | done]]. }
  unfold bmin_int. cbn [sending set_cl set_en cl set_recv socks_recv_buf_used socks_recv_buf_sent
    socks_recv_buf socks_recv_waiting socks_recv_tcp_pending].
  set (n := if u - k <? r_sndbuf r i then u - k else r_sndbuf r i).
  assert (Hn : 0 <= n <= u - k).
  { unfold n. destruct (Z.ltb_spec (u - k) (r_sndbuf r i)); lia. }
  destruct (Z.eqb_spec n 0) as [|Hn0]; [by wp_step|].
  destruct (r_write r i); [|by wp_step..].
  wp_step. wp_step; [lia|].
  assert (Hz : zlen (mread (socks_recv_buf (cl s0)) k n) = n) by (apply zlen_mread; lia).
  wp_step. eapply wp_call; [cbn; by rewrite Hp|]. wp_step. apply wp_update; [done|].
  match goal with |- wp _ ?st _ =>
    replace st with (sending s0 u (k + n) (p + n) false (tw ++ mread (socks_recv_buf (cl s0)) k n))
      by (unfold sending, set_cl, set_en, set_inflight, set_recv; cbn; by rewrite Hz) end.
  assert (Hfl' : from_socks (en s0) = (tw ++ mread (socks_recv_buf (cl s0)) k n) ++ rest s0 u (k + n)).
  { rewrite Hfl. unfold rest. rewrite <- app_assoc. f_equal. symmetry. apply mread_join; lia. }
  destruct (Z.ltb_spec (k + n) u) as [Hlt|Hge].
  - eapply wp_mono; [apply IH; try done; lia|].
    intros ok s' tr (k' & tw' & -> & Hk' & Hf'). exists k', tw'. split; [f_equal; lia | split; [lia | done]].
  - wp_step. exists (k + n), (tw ++ mread (socks_recv_buf (cl s0)) k n).
    split; [f_equal; lia | split; [lia | done]].
Qed.

(** Outcome of [client_socks_recv_send_out] when the connection survives. *)
Inductive sent_out (s0 : sys) (u k p : Z) (s' : sys) : Prop :=
  | So_waiting k' tw' :
      s' = sending s0 u k' (p + (k' - k)) true tw' -> k <= k' < u -> 0 < p + (k' - k) ->
      from_socks (en s0) = tw' ++ rest s0 u k' -> sent_out s0 u k p s'
  | So_all :
      s' = sending s0 (-1) u (p + (u - k)) false (from_socks (en s0)) -> sent_out s0 u k p s'.

Lemma send_out_wp s0 r u k p tw :
  sendable s0 -> snd_ok r -> 0 < u <= CLIENT_SOCKS_RECV_BUF_SIZE -> 0 <= k < u -> 0 <= p ->
  from_socks (en s0) = tw ++ rest s0 u k ->
  wp (client_socks_recv_send_out r) (sending s0 u k p false tw) (fun res s' _ =>
    same_callback s0 s' /\
    ((res = -1 /\ good (num_clients s0) s') \/ (res = 0 /\ sent_out s0 u k p s'))).
Proof.
  intros S Hr Hu Hk Hp0 Hfl. pose proof (sn_base _ S) as K. pose proof (k_alloc _ _ K) as Ha.
  pose proof (k_pcb _ _ K) as Hp. pose proof (sn_open _ S) as Ho. pose proof (sn_up _ S) as Hup.
  unfold client_socks_recv_send_out. wp_step. apply wp_client; [done|].
  wp_step. wp_step; [by cbn; rewrite Ho|]. wp_step. wp_step; [done|]. wp_step. wp_step; [cbn; lia|].
  wp_step. wp_step; [cbn; lia|]. wp_step. wp_step; [done|]. wp_step.
  eapply wp_mono; [apply (send_out_loop_wp s0 r u _ 0 k p tw); try done; cbn; lia|].
  intros ok s1 tr (k' & tw' & -> & Hk' & Hfl').
  set (s1 := sending s0 u k' (p + (k' - k)) false tw').
  assert (Habort : wp (client_abort_client r ;; ret (-1)) s1 (fun res s' (tr' : list out) =>
    same_callback s0 s' /\ ((res = -1 /\ good (num_clients s0) s') \/ (res = 0 /\ sent_out s0 u k p s')))).
  { wp_step. eapply wp_mono; [apply (abort_client_wp s1 r); [by apply base_sending | done]|].
    intros _ s2 tr2 (HG & HS). wp_step. split; [|left; split; [done | exact HG]].
    unfold same_callback in *. cbn in HS. exact HS. }
  destruct ok; cbn [negb]; [|exact Habort].
  wp_step. eapply wp_call; [cbn; by rewrite Hp|].
  match goal with |- wp _ ?st _ => change st with s1 end.
  destruct (r_output r); cbn [negb]; [|exact Habort].
  wp_step. apply wp_client; [done|].
  change (socks_recv_buf_sent (cl s1)) with k'. change (socks_recv_buf_used (cl s1)) with u.
  change (socks_recv_tcp_pending (cl s1)) with (p + (k' - k)).
  destruct (Z.ltb_spec k' u) as [Hlt|Hge].
  - destruct (Z.eqb_spec (p + (k' - k)) 0) as [|Hpn]; [exact Habort|].
    wp_step. apply wp_update; [done|]. wp_step.
    split; [exact (same_callback_sending s0 u k' (p + (k' - k)) true tw')|]. right. split; [done|].
    eapply (So_waiting _ _ _ _ _ k' tw'); try done; lia.
  - wp_step. apply wp_update; [done|]. wp_step.
    split; [exact (same_callback_sending s0 (-1) k' (p + (k' - k)) false tw')|]. right. split; [done|]. apply So_all.
    assert (k' = u) as -> by lia.
    assert (Hr0 : rest s0 u u = []) by (unfold rest; rewrite Z.sub_diag; apply mread_0).
    rewrite Hr0, app_nil_r in Hfl'. rewrite Hfl'. done.
Qed.

Lemma sending_waiting_inv s0 u k p tw :
  sendable s0 -> 0 < u <= CLIENT_SOCKS_RECV_BUF_SIZE -> 0 <= k < u -> 0 < p ->
  from_socks (en s0) = tw ++ rest s0 u k -> inv (sending s0 u k p true tw).
Proof.
  intros S Hu Hk Hp Hf. pose proof (base_sending s0 u k p true tw S) as K. destruct S as [_ So Su Sr Sa].
  split; cbn; [rewrite So; split; [done|intros _] | congruence | intros _; split; [done | lia]].
  split; cbn; try done; try congruence; try lia.
  unfold recv_rest. cbn. rewrite Su. destruct (Z.geb_spec u 0); [done | lia].
Qed.

(** Everything was queued and SOCKS is closed: waiting for acknowledgements. *)
Lemma sending_done_inv s0 k p :
  sendable s0 -> socks_closed (cl s0) = true -> 0 < p ->
  inv (sending s0 (-1) k p false (from_socks (en s0))).
Proof.
  intros S Hs Hp. pose proof (base_sending s0 (-1) k p false (from_socks (en s0)) S) as K.
  destruct S as [_ So Su Sr Sa].
  split; cbn; [rewrite So; split; [done|intros _] | congruence | intros _; split; [done | lia]].
  split; cbn; try done; try congruence; try lia; try (by left).
  unfold recv_rest. cbn. by rewrite Su, app_nil_r.
Qed.

(** Everything was queued and SOCKS is open: the next receive is started. *)
Lemma initiate_wp s0 k p :
  sendable s0 -> socks_closed (cl s0) = false -> 0 <= p ->
  wp client_socks_recv_initiate (sending s0 (-1) k p false (from_socks (en s0)))
    (fun _ s' _ => inv s' /\ num_clients s' = num_clients s0 /\ dead s' = dead s0).
Proof.
  intros S Hs Hp. pose proof (base_sending s0 (-1) k p false (from_socks (en s0)) S) as K.
  pose proof (k_socks _ _ (sn_base _ S)) as Hso. rewrite Hs in Hso.
  pose proof (k_alloc _ _ (sn_base _ S)) as Ha. destruct S as [_ So Su Sr Sa].
  unfold client_socks_recv_initiate. wp_step. apply wp_client; [done|].
  wp_step. wp_step; [by cbn; rewrite So|]. wp_step. wp_step; [by cbn; rewrite Hs|].
  wp_step. wp_step; [done|]. wp_step. wp_step; [done|].
  eapply wp_call; [cbn; by rewrite Hso, Sr|].
  split; [|done]. split; cbn; [rewrite So; split; [|intros _] | congruence | congruence].
  - destruct K. split; cbn in *; try done. by rewrite Hs.
  - split; cbn; try done; try congruence; try (by left).
    unfold recv_rest. cbn. by rewrite Su, app_nil_r.
Qed.

Lemma env_inflight_eta e p : inflight e = p -> set_inflight p (to_tcp e) e = e.
Proof. intros <-. by destruct e. Qed.

Lemma set_en_eta s : set_en (en s) s = s.
Proof. by destruct s. Qed.

Lemma deliver_recv_wp s d r :
  inv s -> snd_ok r -> se_enabled (SE_recv d) s = true ->
  wp (deliver_socks (SE_recv d) r) s (fun _ s' _ => good (num_clients s) s' /\ same_callback s s').
Proof.
  intros [[K T] Ic Is] Hr. unfold se_enabled. pose proof (k_alloc _ _ K) as Ha.
  rewrite !andb_true_iff. intros [[_ Hso] [[Hop Hd1] Hd2]].
  destruct (k_recvop _ _ K Hop) as (Hs & Hu & Hused). pose proof (k_rbuflen _ _ K) as Hl.
  assert (Hl' : zlen (mwrite (socks_recv_buf (cl s)) 0 d) = CLIENT_SOCKS_RECV_BUF_SIZE)
    by (rewrite zlen_mwrite; lia).
  unfold deliver_socks. do 2 wp_step. wp_step. wp_step. wp_step. apply wp_update; [done|].
  set (s0 := set_cl _ _).
  assert (K0 : base s0 (client_closed (cl s))).
  { destruct K. split; cbn; try done; by rewrite Hs. }
  assert (Hsame : dead s0 = dead s) by done.
  unfold client_socks_recv_handler_done. wp_step. apply wp_client; [done|].
  wp_step. wp_step; [lia|]. wp_step. wp_step; [lia|]. wp_step. wp_step; [by cbn; rewrite Hs|].
  wp_step. wp_step; [done|]. wp_step. wp_step; [cbn; lia|].
  change (client_closed (cl s0)) with (client_closed (cl s)).
  destruct (client_closed (cl s)) eqn:Hc.
  - wp_step. split; [left; split; [|done] | unfold same_callback; cbn; destruct (dead s); eauto].
    split; cbn; rewrite ?Hc; [by split | by intros _; apply Ic | congruence].
  - destruct (T eq_refl) as [T1 T2 T3 T4 T5 T6]. destruct (T1 Hu) as [Hp0 Hp1].
    assert (S0 : sendable s0) by (by split).
    assert (Hrr : recv_rest (cl s) = []) by (unfold recv_rest; rewrite Hu, Hused; done).
    wp_step. apply wp_update; [done|]. wp_step.
    match goal with |- wp _ ?st _ =>
      replace st with (sending s0 (zlen d) 0 (socks_recv_tcp_pending (cl s)) false (to_tcp (en s0)))
        by (unfold sending; rewrite env_inflight_eta by done; by rewrite set_en_eta) end.
    eapply wp_mono; [apply (send_out_wp s0 r (zlen d) 0); try done; try lia|].
    { unfold rest. cbn. rewrite T6, Hrr, app_nil_r. f_equal.
      rewrite Z.sub_0_r. symmetry. apply mread_mwrite_same; lia. }
    intros res s1 tr (HS1 & [[-> HG]|[-> HO]]).
    + change (-1 <? 0) with true. cbn iota. wp_step. split; [exact HG|]. exact HS1.
    + destruct HO as [k' tw' -> Hk' Hp' Hf' | ->]; change (0 <? 0) with false; cbn iota; wp_step; (apply wp_client; [done|]).
      * change (socks_recv_buf_used _) with (zlen d).
        destruct (Z.eqb_spec (zlen d) (-1)); [lia|]. wp_step.
        split; [left; split; [by apply sending_waiting_inv; (lia || done)|done]|].
        exact (same_callback_sending s0 _ _ _ _ _).
      * change (socks_recv_buf_used _) with (-1). rewrite Z.eqb_refl.
        eapply wp_mono; [apply (initiate_wp s0); (done || lia)|].
        intros _ s2 tr2 (I2 & Hn2 & Hd2'). split; [left; split; [done | by rewrite Hn2]|].
        unfold same_callback. rewrite Hd2', Hsame. destruct (dead s); eauto.
Qed.

(** The state after SOCKS came up. *)
Definition after_up (sd : option Z) (rv : bool) (s : sys) : sys :=
  let c := cl s in let e := en s in
  set_cl (set_socks_up (set_recv (-1) (socks_recv_buf_sent c) (socks_recv_waiting c) 0 c))
    (set_en (set_socks true sd rv true (set_pcb (pcb e) (cb_err e) (cb_recv e) (pcb e) e)) s).

Lemma core_after_up s sd rv :
  core s (client_closed (cl s)) -> socks_closed (cl s) = false -> socks_up (cl s) = false ->
  rv = negb (client_closed (cl s)) ->
  sd = (if buf_used (cl s) >? 0 then Some (buf_used (cl s)) else None) ->
  core (after_up sd rv s) (client_closed (cl s)).
Proof.
  intros [K T] Hs Hu -> ->. pose proof (k_pcb _ _ K) as Hp. pose proof (k_buf _ _ K) as [Hb _].
  split.
  - destruct K. split; cbn; try done.
    + by rewrite Hp, andb_true_r.
    + by rewrite Hs.
    + destruct (Z.gtb_spec (buf_used (cl s)) 0); [split_and!; (done || lia) | right; right; lia].
  - intros Hc. destruct (T Hc) as [T1 T2 T3 T4 T5 T6]. split; cbn; try done.
    + intros _. by rewrite T3.
    + intros _. by left.
    + by rewrite Hc.
    + rewrite T6. unfold recv_rest. cbn. by rewrite Hu.
Qed.

Lemma deliver_up_wp s r :
  inv s -> se_enabled SE_up s = true ->
  wp (deliver_socks SE_up r) s (fun _ s' _ => good (num_clients s) s' /\ same_callback s s').
Proof.
  intros [[K T] Ic Is]. unfold se_enabled. pose proof (k_alloc _ _ K) as Ha.
  rewrite !andb_true_iff, negb_true_iff. intros [[_ Hso] Hsu].
  rewrite (k_up _ _ K) in Hsu. rewrite (k_socks _ _ K) in Hso. apply negb_true_iff in Hso.
  pose proof (k_pcb _ _ K) as Hp. pose proof (k_send _ _ K) as Hsend.
  assert (Hop : send_op (en s) = None) by (destruct (send_op (en s)); [destruct Hsend as (_ & ? & _); congruence | done]).
  assert (Hrv : recv_op (en s) = false).
  { destruct (recv_op (en s)) eqn:E; [|done]. destruct (k_recvop _ _ K E) as (_ & ? & _). congruence. }
  set (sd := if buf_used (cl s) >? 0 then Some (buf_used (cl s)) else None).
  pose proof (core_after_up s sd (negb (client_closed (cl s))) (conj K T) Hso Hsu eq_refl eq_refl) as KT'.
  assert (Hfin : good (num_clients s) (after_up sd (negb (client_closed (cl s))) s) /\
                 same_callback s (after_up sd (negb (client_closed (cl s))) s)).
  { split; [left; split; [|done] | unfold same_callback; cbn; destruct (dead s); eauto].
    split; [exact KT' | exact Ic | cbn; congruence]. }
  unfold deliver_socks. do 2 wp_step. wp_step. wp_step. unfold client_socks_handler.
  wp_step. apply wp_client; [done|]. wp_step. wp_step; [by cbn; rewrite Hso|].
  wp_step. wp_step; [by cbn; rewrite Hsu|]. wp_step. apply wp_update; [done|]. cbn [cl set_en].
  assert (Hrest : wp (O:=out)
      ((if buf_used (cl s) >? 0 then client_send_to_socks else ret tt) ;;
       (if negb (client_closed (cl s)) then client_socks_recv_initiate else ret tt))
      (after_up None false s) (fun _ s' (_ : list out) => good (num_clients s) s' /\ same_callback s s')).
  { assert (Hinit : wp (O:=out) (if negb (client_closed (cl s)) then client_socks_recv_initiate else ret tt)
        (after_up sd false s) (fun _ s' (_ : list out) => good (num_clients s) s' /\ same_callback s s')).
    { destruct (client_closed (cl s)) eqn:Hc; cbn [negb] in *; [by wp_step|].
      unfold client_socks_recv_initiate. wp_step. apply wp_client; [done|].
      wp_step. wp_step; [by cbn; rewrite Hc|]. wp_step. wp_step; [by cbn; rewrite Hso|].
      wp_step. wp_step; [done|]. wp_step. wp_step; [done|]. eapply wp_call; [done|]. exact Hfin. }
    unfold sd in *. wp_step. destruct (Z.gtb_spec (buf_used (cl s)) 0) as [Hb|Hb]; [|by wp_step].
    unfold client_send_to_socks. wp_step. apply wp_client; [done|].
    wp_step. wp_step; [by cbn; rewrite Hso|]. wp_step. wp_step; [done|]. wp_step. wp_step; [cbn; lia|].
    eapply wp_call; [cbn; by rewrite (proj2 (Z.ltb_lt _ _)) by lia|]. exact Hinit. }
  assert (Ea : set_socks true None false true (set_pcb (pcb (en s)) (cb_err (en s)) (cb_recv (en s)) (pcb (en s)) (en s))
             = set_pcb (pcb (en s)) (cb_err (en s)) (cb_recv (en s)) (pcb (en s)) (set_socks true (send_op (en s)) (recv_op (en s)) true (en s))).
  { by rewrite Hop, Hrv. }
  destruct (client_closed (cl s)) eqn:Hc; cbn [negb] in *.
  - wp_step. wp_step. wp_step. apply wp_update; [done|].
    match goal with |- wp _ ?st _ => replace st with (after_up None false s) end; [exact Hrest|].
    unfold after_up. rewrite Ea. pose proof (k_sent _ _ K) as Hcs. cbn in Hcs. rewrite Hp, <- Hcs at 1.
    destruct s as [? ? ? ? ? []]. cbn in *. by subst.
  - wp_step. eapply wp_call; [cbn; by rewrite Hp|]. wp_step. apply wp_update; [done|].
    match goal with |- wp _ ?st _ => replace st with (after_up None false s) end; [exact Hrest|].
    unfold after_up. rewrite Ea, Hp. done.
Qed.

Lemma deliver_wp s ev r :
  inv s -> snd_ok r -> se_enabled ev s = true ->
  wp (deliver_socks ev r) s (fun _ s' _ => good (num_clients s) s' /\ same_callback s s').
Proof.
  intros I Hr He. pose proof (inv_core _ I) as KT. pose proof KT as [K T].
  pose proof (k_alloc _ _ K) as Ha.
  destruct ev as [| | |n|d]; [| by apply deliver_up_wp | | by apply deliver_sent_wp | by apply deliver_recv_wp].
  all: unfold se_enabled in He; rewrite !andb_true_iff in He; destruct He as [[_ Hso] Hup].
  all: rewrite (k_socks _ _ K) in Hso; apply negb_true_iff in Hso.
  all: unfold deliver_socks; do 2 wp_step; unfold client_socks_handler; wp_step; apply wp_client; [done|].
  all: wp_step; wp_step; [by rewrite Hso|].
  - by apply free_socks_wp.
  - wp_step. wp_step; [by rewrite <- (k_up _ _ K)|]. by apply free_socks_wp.
Qed.

Definition all_snd_ok (evs : list (socks_event * lwip)) : Prop := Forall (fun er => snd_ok er.2) evs.

Lemma sync_wp n s evs :
  good n s -> all_snd_ok evs ->
  wp (SYNC_COMMIT evs) s (fun _ s' _ => good n s' /\ same_callback s s').
Proof.
  intros HG Hok. revert s HG. induction Hok as [|[ev r] evs Hr _ IH]; intros s HG; cbn [SYNC_COMMIT].
  - wp_step. split; [done|]. unfold same_callback. destruct (dead s); eauto.
  - do 2 wp_step. destruct (se_enabled ev s) eqn:E.
    + destruct HG as [[I Hn]|[R _]].
      * wp_step. eapply wp_mono; [by apply (deliver_wp s ev r)|]. intros _ s1 tr (HG1 & HS1).
        rewrite Hn in HG1. eapply wp_mono; [by apply IH|]. intros _ s2 tr2 (HG2 & HS2).
        split; [done|]. by eapply same_callback_trans.
      * unfold se_enabled in E. by rewrite (rel_alloc _ R) in E.
    + do 2 wp_step. by apply IH.
Qed.

(** Leaving a callback: the result says whether [tcp_abort] was called in it. *)
Lemma leave_wp n s v :
  good n s -> dead s = DEAD_LIVE v ->
  wp DEAD_LEAVE2 s (fun k s' _ => (good n s' /\ idle s') /\
    (result_of_killed k = if was_aborted (en s') then ERR_ABRT else ERR_OK)).
Proof.
  intros HG Hd. unfold DEAD_LEAVE2. do 2 wp_step. rewrite Hd.
  assert (Hdo : dead_ok s) by (destruct HG as [[I _]|[R _]]; [apply I | apply R]).
  unfold dead_ok in Hdo. rewrite Hd in Hdo. destruct Hdo as [Hv Ha].
  assert (Hset : forall d, dead_ok (set_dead d s) -> good n (set_dead d s)).
  { intros d Hdd. destruct HG as [[[[K T] Ic Is] Hn]|[[] Hn]]; [left | right]; (split; [|done]).
    - split; [split|done|done]; [by destruct K | intros Hc; by destruct (T Hc)].
    - by split. }
  destruct (was_aborted (en s)) eqn:Hw.
  - subst v. do 2 wp_step. wp_step. split; [split; [apply Hset|done]|by cbn; rewrite Hw].
    unfold dead_ok. cbn. exact Ha.
  - destruct (allocated s) eqn:Hal; subst v.
    + wp_step. apply wp_client; [done|]. do 2 wp_step. wp_step.
      split; [split; [by apply Hset|done] | by cbn; rewrite Hw].
    + do 2 wp_step. wp_step. split; [split; [apply Hset|done]|by cbn; rewrite Hw]. unfold dead_ok. cbn. congruence.
Qed.

(** ** Callbacks of lwIP *)

(** [s] inside a callback, with the environment [e]. *)
Definition entered (e : env) (s : sys) : sys :=
  set_dead (DEAD_LIVE 0) (set_en (set_was_aborted false e) s).

Definition callback_post (n : Z) (x : err_t) (s' : sys) : Prop :=
  (good n s' /\ idle s') /\ x = (if was_aborted (en s') then ERR_ABRT else ERR_OK).

Lemma leave_callback_wp n s v (Q : err_t -> sys -> list out -> Prop) :
  good n s -> dead s = DEAD_LIVE v ->
  (forall x s' tr, callback_post n x s' -> Q x s' tr) ->
  wp (killed <- DEAD_LEAVE2 ;; ret (result_of_killed killed)) s Q.
Proof.
  intros HG Hd HQ. wp_step. eapply wp_mono; [by eapply leave_wp|].
  intros k s' tr [HG' Hx]. wp_step. by apply HQ.
Qed.

Lemma not_aborted s : base s false -> aborted (cl s) = false.
Proof. intros K. destruct (aborted (cl s)) eqn:E; [|done]. by apply (k_aborted _ _ K) in E. Qed.

Lemma base_entered s : base s false -> base (entered (en s) s) false.
Proof.
  intros K. pose proof (not_aborted s K) as Ha. destruct K. split; cbn; try done.
  unfold dead_ok. cbn. by rewrite k_alloc0, Ha.
Qed.

Lemma enter_wp s (Q : unit -> sys -> list out -> Prop) :
  allocated s = true -> dead s = DEAD_NULL -> Q tt (set_dead (DEAD_LIVE 0) s) [] -> wp DEAD_ENTER s Q.
Proof.
  intros Ha Hd HQ. unfold DEAD_ENTER. wp_step. apply wp_client; [done|]. do 2 wp_step. rewrite Hd. by wp_step.
Qed.

Lemma idle_null s : base s false -> idle s -> dead s = DEAD_NULL.
Proof.
  intros K Hi. pose proof (k_dead _ _ K) as Hd. unfold dead_ok in Hd. unfold idle in Hi.
  destruct (dead s); [done|done|]. specialize (Hd (k_alloc _ _ K)).
  by rewrite (not_aborted s K) in Hd.
Qed.

Lemma recv_eof_wp s r sync :
  inv s -> idle s -> enabled (E_recv None r sync) s = true ->
  wp (deliver (E_recv None r sync)) s (fun x s' _ => exists y, x = Some y /\ callback_post (num_clients s) y s').
Proof.
  intros [[K T] Ic Is] Hi. unfold enabled. pose proof (k_alloc _ _ K) as Ha.
  rewrite !andb_true_iff. intros [_ [Hp Hr]]. rewrite (k_pcb _ _ K) in Hp. apply negb_true_iff in Hp.
  rewrite Hp in K. pose proof (base_entered s K) as K'.
  unfold deliver. do 3 wp_step. wp_step. unfold client_recv_func.
  do 2 wp_step. apply wp_client; [done|]. wp_step. wp_step; [by cbn; rewrite Hp|].
  wp_step. apply enter_wp; [done|by apply (idle_null s)|].
  wp_step. eapply wp_mono; [by apply (free_client_wp (entered (en s) s) 1 r)|].
  intros _ s1 tr [HG HS]. unfold same_callback in HS. cbn in HS. destruct HS as [v Hv].
  eapply leave_callback_wp; [exact HG | exact Hv|]. intros x s' tr' HP. wp_step. eauto.
Qed.

(** The state after received bytes were copied to the buffer. *)
Definition after_recv (d : list Z) (op : option Z) (s : sys) : sys :=
  let c := cl s in let e := en s in
  set_cl (set_buf (mwrite (buf c) (buf_used c) d) (buf_used c + zlen d) c)
    (entered (set_unacked (unacked e + zlen d)
       (set_flow (from_tcp e ++ d) (to_socks e) (from_socks e)
         (set_socks (socks e) op (recv_op e) (s_up e) e))) s).

Lemma inv_after_recv s d op :
  core s false -> client_closed (cl s) = false -> socks_closed (cl s) = false ->
  buf_used (cl s) + zlen d <= TCP_WND ->
  match op with
  | Some k => socks_up (cl s) = true /\ 0 < k <= buf_used (cl s) + zlen d
  | None => socks_up (cl s) = false \/ buf_used (cl s) + zlen d = 0
  end ->
  inv (after_recv d op s).
Proof.
  intros [K T] Hc Hs Hw Hop. pose proof (not_aborted s K) as Hab. specialize (T eq_refl).
  pose proof (k_buf _ _ K) as [Hb1 Hb2]. pose proof (k_flow1 _ _ K) as Hf. pose proof (zlen_nonneg d).
  split; cbn; [rewrite Hc; split; [|intros _]|congruence|congruence].
  - destruct K. split; cbn; try done.
    + unfold dead_ok. cbn. by rewrite k_alloc0, Hab.
    + rewrite Hs. destruct op; [by destruct Hop | tauto].
    + split; [lia|]. rewrite zlen_mwrite; lia.
    + rewrite Hf, <- app_assoc. f_equal. rewrite mread_split by lia.
      rewrite mread_mwrite_before, mread_mwrite_same by lia. done.
  - destruct T. split; cbn; try done. lia.
Qed.

Lemma recv_data_wp s d r sync :
  inv s -> all_snd_ok sync -> idle s -> enabled (E_recv (Some d) r sync) s = true ->
  wp (deliver (E_recv (Some d) r sync)) s
    (fun x s' _ => exists y, x = Some y /\ callback_post (num_clients s) y s').
Proof.
  intros [[K T] Ic Is] Hok Hi. unfold enabled. pose proof (k_alloc _ _ K) as Ha.
  rewrite !andb_true_iff. intros [_ [[[Hp Hr] Hd1] Hd2]]. rewrite (k_pcb _ _ K) in Hp. apply negb_true_iff in Hp.
  rewrite Hp in K, T. pose proof (T eq_refl) as T'. pose proof (t_unacked _ T') as Hun.
  assert (Hs : socks_closed (cl s) = false).
  { rewrite (k_recv _ _ K) in Hr. by destruct (socks_closed (cl s)). }
  pose proof (k_buf _ _ K) as [Hb1 Hb2]. pose proof (k_socks _ _ K) as Hso. rewrite Hs in Hso.
  pose proof (k_send _ _ K) as Hsend.
  assert (Hinv : forall op, match op with
    | Some k => socks_up (cl s) = true /\ 0 < k <= buf_used (cl s) + zlen d
    | None => socks_up (cl s) = false \/ buf_used (cl s) + zlen d = 0 end -> inv (after_recv d op s)).
  { intros op Hop. apply inv_after_recv; try done. lia. }
  unfold deliver. do 3 wp_step. wp_step. unfold client_recv_func.
  do 2 wp_step. apply wp_client; [done|]. wp_step. wp_step; [by cbn; rewrite Hp|].
  wp_step. apply enter_wp; [done|by apply (idle_null s)|]. wp_step. wp_step; [lia|].
  cbn [cl set_en set_dead].
  destruct (Z.gtb_spec (zlen d) (TCP_WND - buf_used (cl s))); [lia|].
  wp_step. wp_step; [lia|]. wp_step. apply wp_update; [done|]. wp_step. apply wp_client; [done|].
  match goal with |- wp _ ?st _ =>
    replace st with (after_recv d (send_op (en s)) s) by done end.
  change (buf_used (cl (after_recv d (send_op (en s)) s))) with (buf_used (cl s) + zlen d).
  change (socks_up (cl (after_recv d (send_op (en s)) s))) with (socks_up (cl s)).
  wp_step. destruct ((buf_used (cl s) + zlen d =? zlen d) && socks_up (cl s)) eqn:E.
  - apply andb_true_iff in E as [E Hu]. assert (Hb0 : buf_used (cl s) = 0) by lia.
    wp_step. wp_step; [by cbn; rewrite Hs|]. unfold client_send_to_socks.
    do 2 wp_step. apply wp_client; [done|]. wp_step. wp_step; [by cbn; rewrite Hs|].
    wp_step. wp_step; [done|]. wp_step. wp_step; [cbn; lia|].
    assert (Hop : send_op (en s) = None).
    { destruct (send_op (en s)); [lia | done]. }
    eapply wp_call.
    { cbn. rewrite Hop, Hso, (proj2 (Z.ltb_lt _ _)) by lia. reflexivity. }
    eapply wp_mono; [apply (sync_wp (num_clients s)); [left; split; [|done]|done]|].
    { specialize (Hinv (Some (buf_used (cl s) + zlen d))). unfold after_recv in Hinv.
      rewrite Hso in Hinv. apply Hinv. split; [done | lia]. }
    intros _ s1 tr [HG HS]. unfold same_callback in HS. cbn in HS. destruct HS as [v Hv].
    eapply leave_callback_wp; [exact HG | exact Hv|]. intros x s' tr' HP. wp_step. eauto.
  - wp_step. eapply (leave_callback_wp (num_clients s)); [left; split; [|done] | done |].
    + apply Hinv. destruct (send_op (en s)) as [k|]; [destruct Hsend as (_ & ? & ?); split; [done|lia]|].
      destruct Hsend as [|[|Hb0]]; [congruence | by left|]. left. rewrite Hb0 in E.
      by rewrite Z.add_0_l, Z.eqb_refl in E.
    + intros x s' tr' HP. wp_step. eauto.
Qed.

Lemma sent_wp s n r sync :
  inv s -> snd_ok r -> all_snd_ok sync -> idle s -> enabled (E_sent n r sync) s = true ->
  wp (deliver (E_sent n r sync)) s
    (fun x s' _ => exists y, x = Some y /\ callback_post (num_clients s) y s').
Proof.
  intros [[K T] Ic Is] Hr Hok Hi. unfold enabled. pose proof (k_alloc _ _ K) as Ha.
  rewrite !andb_true_iff. intros [_ [[[Hp Hcs] Hn1] Hn2]]. rewrite (k_pcb _ _ K) in Hp. apply negb_true_iff in Hp.
  rewrite Hp in K, T. pose proof (T eq_refl) as T'. rewrite (k_sent _ _ K) in Hcs. cbn in Hcs.
  destruct (t_pending _ T' Hcs) as [Hp0 Hp1]. pose proof (not_aborted s K) as Hab.
  set (e0 := entered (set_inflight (inflight (en s) - n) (to_tcp (en s)) (en s)) s).
  set (p := socks_recv_tcp_pending (cl s) - n).
  assert (K0 : base e0 false).
  { destruct K. split; cbn; try done. unfold dead_ok. cbn. by rewrite k_alloc0, Hab. }
  set (s1 := set_cl (set_recv (socks_recv_buf_used (cl s)) (socks_recv_buf_sent (cl s))
               (socks_recv_waiting (cl s)) p (cl s)) e0).
  assert (K1 : base s1 false) by (by destruct K0).
  unfold deliver. do 3 wp_step. wp_step. unfold client_sent_func.
  do 2 wp_step. apply wp_client; [done|]. wp_step. wp_step; [by cbn; rewrite Hp|].
  wp_step. wp_step; [done|]. wp_step. wp_step; [lia|]. wp_step. wp_step; [cbn; lia|].
  wp_step. apply enter_wp; [done|by apply (idle_null s)|]. wp_step. apply wp_update; [done|].
  wp_step. apply wp_client; [done|].
  match goal with |- wp _ ?st _ => change st with s1 end.
  change (socks_recv_buf_used (cl s1)) with (socks_recv_buf_used (cl s)).
  assert (Hleave : forall s' v, good (num_clients s) s' -> dead s' = DEAD_LIVE v ->
    wp (killed <- DEAD_LEAVE2 ;; ret (result_of_killed killed)) s'
       (fun x s2 (_ : list out) => exists y, Some x = Some y /\ callback_post (num_clients s) y s2)).
  { intros s' v HG Hv. eapply leave_callback_wp; [exact HG | exact Hv|]. intros x s2 tr HP. eauto. }
  wp_step. destruct (Z.gtb_spec (socks_recv_buf_used (cl s)) 0) as [Hu|Hu].
  - destruct (t_rbuf _ T' Hcs) as [|(H1 & H2 & H3 & H4)]; [lia|].
    assert (Hrv : recv_op (en s) = false).
    { destruct (recv_op (en s)) eqn:E; [|done]. destruct (k_recvop _ _ K E) as (_ & _ & ?). lia. }
    assert (S0 : sendable e0) by (split; [done..|]; cbn; apply (t_unacked _ T')).
    wp_step. wp_step; [done|]. wp_step. wp_step; [cbn; lia|]. wp_step. apply wp_update; [done|].
    match goal with |- wp _ ?st _ =>
      change st with (sending e0 (socks_recv_buf_used (cl s)) (socks_recv_buf_sent (cl s)) p false (to_tcp (en s)))
      || replace st with (sending e0 (socks_recv_buf_used (cl s)) (socks_recv_buf_sent (cl s)) p false (to_tcp (en s)))
        by (unfold sending, s1, e0, p; rewrite Hp1; done)
    end.
    wp_step. eapply wp_mono; [apply (send_out_wp e0 r); try done; try lia; cbn|].
    { rewrite (t_flow2 _ T'). unfold recv_rest, rest. cbn. rewrite Hcs.
      destruct (Z.geb_spec (socks_recv_buf_used (cl s)) 0); [done | lia]. }
    intros res s2 tr (HS2 & HR). unfold same_callback in HS2. cbn in HS2. destruct HS2 as [v Hv].
    destruct HR as [[-> HG]|[-> HO]].
    + change (-1 <? 0) with true. cbn iota. wp_step. eapply wp_mono; [by eapply Hleave|]. intros; wp_step; eauto.
    + change (0 <? 0) with false. cbn iota. destruct HO as [k' tw' -> Hk' Hp' Hf' | ->].
      * wp_step. apply wp_client; [done|]. wp_step. wp_step; [cbn; lia|].
        change (socks_recv_buf_used _) with (socks_recv_buf_used (cl s)) at 1.
        destruct (Z.eqb_spec (socks_recv_buf_used (cl s)) (-1)); [lia|]. cbn [andb]. wp_step.
        eapply wp_mono; [eapply Hleave; [left; split; [apply sending_waiting_inv; (lia || done)|done] | exact Hv]|].
        intros; wp_step; eauto.
      * wp_step. apply wp_client; [done|]. wp_step. wp_step; [cbn; lia|].
        match goal with |- context [socks_recv_buf_used ?c =? -1] =>
          change (socks_recv_buf_used c) with (-1); change (socks_closed c) with (socks_closed (cl s)) end.
        rewrite Z.eqb_refl. cbn [andb]. destruct (socks_closed (cl s)) eqn:Hs; cbn [negb].
        -- wp_step. eapply wp_mono; [eapply Hleave; [left; split; [apply sending_done_inv; (lia || done)|done] | exact Hv]|].
           intros; wp_step; eauto.
        -- wp_step. eapply wp_mono; [apply (initiate_wp e0); (done || lia)|].
           intros _ s3 tr3 (I3 & Hn3 & Hd3).
           eapply wp_mono; [apply (sync_wp (num_clients s)); [left; split; [done|exact Hn3]|done]|].
           intros _ s4 tr4 (HG4 & HS4). unfold same_callback in HS4. rewrite Hd3 in HS4. cbn in HS4.
           destruct HS4 as [v4 Hv4]. eapply wp_mono; [by eapply Hleave|]. intros; wp_step; eauto.
  - assert (Hun : socks_recv_buf_used (cl s) = -1) by (destruct (t_rbuf _ T' Hcs); lia).
    change (socks_closed (cl s1)) with (socks_closed (cl s)).
    change (socks_recv_tcp_pending (cl s1)) with p.
    destruct (socks_closed (cl s) && (p =? 0)) eqn:E.
    + eapply wp_mono; [by apply (free_client_wp s1 1 r)|]. intros _ s2 tr [HG HS].
      unfold same_callback in HS. cbn in HS. destruct HS as [v Hv].
      eapply wp_mono; [by eapply Hleave|]. intros; wp_step; eauto.
    + wp_step. eapply wp_mono; [eapply Hleave; [left; split; [|done] | done]|intros; wp_step; eauto].
      split; cbn; [rewrite Hp; split; [exact K1|intros _] | congruence |].
      * destruct T'. split; cbn; try done; [intros _; unfold p; lia | intros _; by left | congruence].
      * intros Hs. rewrite Hs in E. cbn in E. split; [done|]. unfold p in *. lia.
Qed.

Lemma err_wp s r :
  inv s -> enabled (E_err r) s = true ->
  wp (deliver (E_err r)) s (fun x s' _ => x = None /\ good (num_clients s) s' /\ same_callback s s').
Proof.
  intros [[K T] Ic Is]. unfold enabled. pose proof (k_alloc _ _ K) as Ha.
  rewrite !andb_true_iff. intros [_ [Hp _]]. rewrite (k_pcb _ _ K) in Hp. apply negb_true_iff in Hp.
  rewrite Hp in K. unfold deliver. do 3 wp_step. wp_step. unfold client_err_func.
  do 2 wp_step. apply wp_client; [done|]. wp_step. wp_step; [by cbn; rewrite Hp|].
  pose proof (base_gone s _ false _ K Hp eq_refl eq_refl) as K'.
  eapply wp_mono; [apply (handle_freed_wp _ 2 r); [|done]|].
  - destruct s as [? ? ? ? ? []]. exact K'.
  - intros u s' tr [HG HS]. wp_step. split_and!; [done | exact HG | exact HS].
Qed.

Lemma murder_wp s :
  inv s -> wp (deliver E_murder) s (fun x s' _ => x = None /\ released s' /\ num_clients s' = num_clients s - 1).
Proof.
  intros [[K T] Ic Is]. pose proof (k_alloc _ _ K) as Ha. pose proof (k_num _ _ K) as Hn.
  unfold deliver. do 3 wp_step. unfold client_murder. wp_step. apply wp_client; [done|].
  assert (Hend : forall s', base s' true -> client_closed (cl s') = true -> num_clients s' = num_clients s ->
    wp (c <- client_ ;;
        (if negb (socks_closed c) then call Socks_Free ;; update set_socks_closed else ret tt) ;;
        client_dealloc) s' (fun _ s2 (_ : list out) => released s2 /\ num_clients s2 = num_clients s - 1)).
  { intros s' K' Hc' Hn'. pose proof (k_alloc _ _ K') as Ha'. pose proof (k_socks _ _ K') as Hso.
    wp_step. apply wp_client; [done|]. wp_step. destruct (socks_closed (cl s')) eqn:Hs; cbn [negb] in *.
    - wp_step. eapply wp_mono; [by apply dealloc_released_wp|]. rewrite Hn'. by intros _ s2 tr [? _].
    - wp_step. eapply wp_call; [cbn; by rewrite Hso|]. apply wp_update; [done|].
      pose proof (base_socks_closed s' true K' Hs) as K2. pose proof (k_recv _ _ K') as Hr. cbn in Hr.
      assert (E : set_pcb (pcb (en s')) (cb_err (en s')) false (cb_sent (en s')) (en s') = en s').
      { rewrite <- Hr. by destruct (en s'). }
      unfold after_socks_closed in K2. rewrite E in K2.
      eapply wp_mono; [by apply (dealloc_released_wp _ K2)|]. cbn. rewrite Hn'. by intros _ s2 tr [? _]. }
  destruct (client_closed (cl s)) eqn:Hc; cbn [negb].
  - do 2 wp_step. eapply wp_mono; [by apply Hend|]. intros u s' tr [? ?]. by wp_step.
  - wp_step. rewrite (base_pcb_eta s K) at 1. apply silence_wp. wp_step. apply (abort_pcb_wp s); [done..|].
    intros s' K' Hc' Hn' _ _. apply wp_update; [by apply k_alloc in K'|].
    eapply wp_mono; [apply Hend; [by apply base_client_closed | done | done]|].
    intros u s2 tr [? ?]. by wp_step.
Qed.

(** ** Accepting a connection *)

Definition memory_ok (c0 : client) : Prop :=
  zlen (buf c0) = TCP_WND /\ zlen (socks_recv_buf c0) = CLIENT_SOCKS_RECV_BUF_SIZE.

Lemma accept_wp n c0 append sync :
  0 <= n -> 0 <= TCP_WND -> memory_ok c0 -> all_snd_ok sync ->
  wp (listener_accept_func true true true append c0 sync) (fresh_sys n c0)
    (fun x s' _ => callback_post (n + 1) x s').
Proof.
  intros Hn Hw [Hb Hr] Hok. unfold listener_accept_func. cbn [negb]. rewrite andb_false_r.
  wp_step. eapply wp_call; [done|]. do 5 wp_step. wp_step; [cbn; lia|]. do 2 wp_step.
  wp_step. eapply wp_call; [done|]. wp_step. eapply wp_call; [done|]. wp_step. apply wp_update; [done|].
  wp_step. apply enter_wp; [done|done|]. wp_step.
  eapply wp_mono; [apply (sync_wp (n + 1)); [left; split; [|done]|done]|].
  - split; cbn; try done. split; [split|intros _; split]; cbn; try done; try lia; try tauto.
  - intros _ s1 tr [HG HS]. unfold same_callback in HS. cbn in HS. destruct HS as [v Hv].
    eapply leave_callback_wp; [exact HG | exact Hv|]. done.
Qed.

(** ** Runs *)

Definition event_ok (ev : event) : Prop :=
  match ev with
  | E_socks _ r | E_err r => snd_ok r
  | E_recv _ r sync | E_sent _ r sync => snd_ok r /\ all_snd_ok sync
  | E_murder => True
  end.

Lemma deliver_any_wp s ev :
  inv s -> idle s -> event_ok ev -> enabled ev s = true ->
  wp (deliver ev) s (fun x s' _ => (good (num_clients s) s' /\ (allocated s' = true -> idle s')) /\
    (forall y, x = Some y -> y = if was_aborted (en s') then ERR_ABRT else ERR_OK)).
Proof.
  intros I Hi Hok He. destruct ev as [ev r|[d|] r sync|n r sync|r|].
  - unfold enabled in He. apply andb_true_iff in He as [_ He]. unfold deliver. do 3 wp_step.
    eapply wp_mono; [by apply deliver_wp|]. intros u s' tr [HG HS]. wp_step.
    split; [|done]. split; [done|]. intros _. by eapply idle_same_callback.
  - destruct Hok. eapply wp_mono; [by apply recv_data_wp|].
    intros x s' tr (y & -> & [[HG ?] Hy]). split; [done|]. by intros z [= <-].
  - destruct Hok. eapply wp_mono; [by apply recv_eof_wp|].
    intros x s' tr (y & -> & [[HG ?] Hy]). split; [done|]. by intros z [= <-].
  - destruct Hok. eapply wp_mono; [by apply sent_wp|].
    intros x s' tr (y & -> & [[HG ?] Hy]). split; [done|]. by intros z [= <-].
  - eapply wp_mono; [by apply (err_wp s r)|].
    intros x s' tr (-> & HG & HS). split; [|done]. split; [done|]. intros _. by eapply idle_same_callback.
  - eapply wp_mono; [by apply murder_wp|].
    intros x s' tr (-> & R & Hn). split; [|done]. split; [by right|]. intros Ha.
    by rewrite (rel_alloc _ R) in Ha.
Qed.

Lemma run_events_good n evs s :
  good n s -> (allocated s = true -> idle s) -> Forall event_ok evs ->
  exists s', run_events evs s = Some s' /\ good n s' /\ (allocated s' = true -> idle s').
Proof.
  intros HG Hi Hok. revert s HG Hi. induction Hok as [|ev evs Hev _ IH]; intros s HG Hi; cbn [run_events]; [eauto|].
  destruct (enabled ev s) eqn:E; [|eauto]. destruct HG as [[I Hn]|[R _]].
  - pose proof (k_alloc _ _ (proj1 (inv_core _ I))) as Ha.
    destruct (wp_ok _ _ _ (deliver_any_wp s ev I (Hi Ha) Hev E)) as (x & s' & tr & -> & [HG Hi'] & _).
    apply IH; [by rewrite <- Hn | done].
  - unfold enabled in E. by rewrite (rel_alloc _ R) in E.
Qed.

Section Runs.
Context (n : Z) (c0 : client) (append : bool) (sync : list (socks_event * lwip)) (evs : list event).
Context (Hn : 0 <= n) (Hw : 0 <= TCP_WND) (Hc0 : memory_ok c0).
Context (Hsync : all_snd_ok sync) (Hevs : Forall event_ok evs).

Lemma run_good : exists s, run n c0 append sync evs = Some s /\ good (n + 1) s /\ (allocated s = true -> idle s).
Proof.
  unfold run. destruct (wp_ok _ _ _ (accept_wp n c0 append sync Hn Hw Hc0 Hsync)) as (x & s & tr & -> & [HG Hi] & _).
  by apply run_events_good.
Qed.

Lemma run_inv s : run n c0 append sync evs = Some s -> good (n + 1) s /\ (allocated s = true -> idle s).
Proof. intros E. destruct run_good as (s' & E' & HG). by simplify_eq. Qed.

(** C1. From the acceptance of a connection on, whatever the TCP peer, the
    SOCKS server and lwIP do and whatever SOCKS events run inside a callback: no
    handler uses the client after it was freed, frees it twice, calls lwIP on a
    connection that is gone or SOCKS on a client that was freed, starts a second
    operation on an interface, or fails an assertion.  The client is freed
    exactly when both connections are gone; then it is off the list and
    [num_clients] is what it was before, so nothing leaks. *)
Theorem tcp_client_safe :
  exists s, run n c0 append sync evs = Some s /\
    if allocated s
    then in_list s = true /\ num_clients s = n + 1 /\
         pcb (en s) = negb (client_closed (cl s)) /\ socks (en s) = negb (socks_closed (cl s)) /\
         (client_closed (cl s) = false \/ socks_closed (cl s) = false)
    else in_list s = false /\ num_clients s = n /\ pcb (en s) = false /\ socks (en s) = false.
Proof.
  destruct run_good as (s & E & HG & _). exists s. split; [done|].
  destruct HG as [[[[K T] Ic Is] Hnum]|[[] Hnum]].
  - destruct K. rewrite k_alloc0. split_and!; try done.
    destruct (client_closed (cl s)); [right; by apply Ic | by left].
  - rewrite rel_alloc0. split_and!; try done. lia.
Qed.

(** C2. Bytes are neither lost, duplicated nor reordered: everything received
    from the TCP client was handed to SOCKS or is in the buffer, in order, and as
    long as the TCP connection exists everything received from SOCKS was queued
    to it or is in the receive buffer; received bytes are confirmed to lwIP
    exactly when SOCKS took them. *)
Theorem tcp_client_flow (s : sys) (Hrun : run n c0 append sync evs = Some s) (Ha : allocated s = true) :
  from_tcp (en s) = to_socks (en s) ++ mread (buf (cl s)) 0 (buf_used (cl s)) /\
  (client_closed (cl s) = false ->
     from_socks (en s) = to_tcp (en s) ++ recv_rest (cl s) /\ unacked (en s) = buf_used (cl s)).
Proof.
  destruct (run_inv s Hrun) as [[[[[K T] _ _] _]|[[] _]] _]; [|congruence].
  split; [apply K|]. intros Hc. destruct (T Hc). done.
Qed.

(** A callback returns [ERR_ABRT] if and only if [tcp_abort] was called in
    it, as lwIP requires, and [ERR_OK] otherwise: the out-of-buffer path that
    returns [ERR_MEM] is never taken when lwIP respects its window. *)
Theorem tcp_callback_result (s : sys) (ev : event) (Hrun : run n c0 append sync evs = Some s)
    (Hok : event_ok ev) (He : enabled ev s = true) :
  exists x s' tr, deliver ev s = Ok x s' tr /\
    forall y, x = Some y -> y = if was_aborted (en s') then ERR_ABRT else ERR_OK.
Proof.
  destruct (run_inv s Hrun) as [[[I _]|[R _]] Hi].
  - pose proof (k_alloc _ _ (proj1 (inv_core _ I))) as Ha.
    destruct (wp_ok _ _ _ (deliver_any_wp s ev I (Hi Ha) Hok He)) as (x & s' & tr & E & _ & Hy). eauto.
  - unfold enabled in He. by rewrite (rel_alloc _ R) in He.
Qed.

(** C20. A client never waits for nothing.  While both sides are open and SOCKS is
    up, a SOCKS receive is in progress or data is waiting for an acknowledgement
    from the TCP peer, and buffered data is being sent to SOCKS.  A client whose
    TCP connection is gone still has data to send to SOCKS, and one whose SOCKS
    connection is gone still waits for acknowledgements, with the callback for
    them set. *)
Theorem tcp_client_progress (s : sys) (Hrun : run n c0 append sync evs = Some s) (Ha : allocated s = true) :
  (socks_up (cl s) = true -> socks_closed (cl s) = false -> 0 < buf_used (cl s) ->
     is_Some (send_op (en s))) /\
  (client_closed (cl s) = true -> socks_closed (cl s) = false /\ 0 < buf_used (cl s)) /\
  (client_closed (cl s) = false -> socks_up (cl s) = true -> socks_closed (cl s) = false ->
     recv_op (en s) = true \/ (0 < inflight (en s) /\ cb_sent (en s) = true)) /\
  (socks_closed (cl s) = true -> 0 < inflight (en s) /\ cb_sent (en s) = true).
Proof.
  destruct (run_inv s Hrun) as [[[[[K T] Ic Is] _]|[[] _]] _]; [|congruence].
  split_and!.
  - intros Hu Hs Hb. pose proof (k_send _ _ K) as Hsend. destruct (send_op (en s)); [done|].
    destruct Hsend as [|[|]]; congruence || lia.
  - exact Ic.
  - intros Hc Hu Hs. pose proof (k_sent _ _ K) as Hcs. rewrite Hc, Hu in Hcs. destruct (T Hc).
    destruct (recv_op (en s)) eqn:Er; [by left|]. right. split; [|done].
    destruct (t_pending0 Hu) as [_ <-]. destruct (t_rbuf0 Hu) as [|(_ & _ & _ & ?)]; [|done].
    by destruct t_recvop0.
  - intros Hs. destruct (Is Hs) as [Hu Hd].
    destruct (client_closed (cl s)) eqn:Hc; [destruct (Ic eq_refl); congruence|].
    pose proof (k_sent _ _ K) as Hcs. rewrite Hu in Hcs. split; [|done]. destruct (T eq_refl).
    destruct (t_pending0 Hu) as [_ <-]. destruct (t_rbuf0 Hu) as [|(_ & _ & _ & ?)]; lia.
Qed.
End Runs.
End Client.

(** ** A concrete connection

    A window of four bytes, an lwIP connection that takes one byte at a time:
    SOCKS connects, the TCP peer sends three bytes of which SOCKS takes two, and
    SOCKS delivers two bytes of which the first is sent and acknowledged. *)

Definition c_demo : client :=
  mk_client false false [0; 0; 0; 0] 0 false false (replicate (Z.to_nat 8192) 0) 0 0 false 0.
Definition lwip_demo : lwip := mk_lwip true (fun i => if Nat.eqb i 0 then 1 else 0) (fun _ => W_ok) true.
Definition evs_demo : list event :=
  [ E_socks SE_up lwip_demo; E_recv (Some [1; 2; 3]) lwip_demo [(SE_sent 2, lwip_demo)];
    E_socks (SE_recv [9; 8]) lwip_demo; E_sent 1 lwip_demo [] ].

Lemma lwip_demo_ok : snd_ok lwip_demo.
Proof. intros []; cbn; lia. Qed.

Lemma evs_demo_ok : Forall event_ok evs_demo.
Proof. repeat constructor; apply lwip_demo_ok. Qed.

Lemma memory_demo_ok : memory_ok 4 c_demo.
Proof. split; reflexivity. Qed.

(** The state the concrete connection reaches. *)
Definition s_demo : sys :=
  Eval vm_compute in default (fresh_sys 0 c_demo) (run 4 0 c_demo false [] evs_demo).

Lemma run_demo : run 4 0 c_demo false [] evs_demo = Some s_demo.
Proof. vm_compute. reflexivity. Qed.

Example demo_bytes :
  (from_tcp (en s_demo), to_socks (en s_demo), mread (buf (cl s_demo)) 0 (buf_used (cl s_demo)),
   to_tcp (en s_demo), recv_rest (cl s_demo), unacked (en s_demo), inflight (en s_demo))
  = ([1; 2; 3], [1; 2], [3], [9; 8], [], 1, 1).
Proof. vm_compute. reflexivity. Qed.

Lemma tcp_client_safe_witness :
  exists s, run 4 0 c_demo false [] evs_demo = Some s /\
    if allocated s
    then in_list s = true /\ num_clients s = 0 + 1 /\
         pcb (en s) = negb (client_closed (cl s)) /\ socks (en s) = negb (socks_closed (cl s)) /\
         (client_closed (cl s) = false \/ socks_closed (cl s) = false)
    else in_list s = false /\ num_clients s = 0 /\ pcb (en s) = false /\ socks (en s) = false.
Proof.
  apply (tcp_client_safe 4 0 c_demo false [] evs_demo);
    [lia | lia | apply memory_demo_ok | constructor | apply evs_demo_ok].
Defined.

Lemma tcp_client_flow_witness :
  from_tcp (en s_demo) = to_socks (en s_demo) ++ mread (buf (cl s_demo)) 0 (buf_used (cl s_demo)) /\
  (client_closed (cl s_demo) = false ->
     from_socks (en s_demo) = to_tcp (en s_demo) ++ recv_rest (cl s_demo) /\
     unacked (en s_demo) = buf_used (cl s_demo)).
Proof.
  apply (tcp_client_flow 4 0 c_demo false [] evs_demo);
    [lia | lia | apply memory_demo_ok | constructor | apply evs_demo_ok | apply run_demo | reflexivity].
Defined.

Lemma tcp_callback_result_witness :
  exists x s' tr, deliver 4 (E_recv None lwip_demo []) s_demo = Ok x s' tr /\
    forall y, x = Some y -> y = if was_aborted (en s') then ERR_ABRT else ERR_OK.
Proof.
  apply (tcp_callback_result 4 0 c_demo false [] evs_demo);
    [lia | lia | apply memory_demo_ok | constructor | apply evs_demo_ok | apply run_demo
    | split; [apply lwip_demo_ok | constructor] | reflexivity].
Defined.

Lemma tcp_client_progress_witness :
  (socks_up (cl s_demo) = true -> socks_closed (cl s_demo) = false -> 0 < buf_used (cl s_demo) ->
     is_Some (send_op (en s_demo))) /\
  (client_closed (cl s_demo) = true -> socks_closed (cl s_demo) = false /\ 0 < buf_used (cl s_demo)) /\
  (client_closed (cl s_demo) = false -> socks_up (cl s_demo) = true -> socks_closed (cl s_demo) = false ->
     recv_op (en s_demo) = true \/ (0 < inflight (en s_demo) /\ cb_sent (en s_demo) = true)) /\
  (socks_closed (cl s_demo) = true -> 0 < inflight (en s_demo) /\ cb_sent (en s_demo) = true).
Proof.
  apply (tcp_client_progress 4 0 c_demo false [] evs_demo);
    [lia | lia | apply memory_demo_ok | constructor | apply evs_demo_ok | apply run_demo | reflexivity].
Defined.

End TcpClient.
