(* ===== verification/BSocksClient.v ===== *)
(** * BSocksClient: the SOCKS5 handshake

    Model of [badvpn/socksclient/BSocksClient.c]: the client connects to the SOCKS
    server, offers its authentication methods, sends a password packet when the
    server asks for it, sends the CONNECT request and reads the reply, after
    which the connection belongs to the user.

    A handler runs in the state [sys]: the object [o] ([alive] until the user
    frees it, every access to a freed object is a fault) and its environment
    [env]: the connector, the connection and its interfaces, the operations in
    progress, the bytes exchanged.  Calls on the environment that its interfaces
    forbid, failed [ASSERT]s and accesses outside the buffer are faults.

    The server's bytes arrive in chunks of any size; the results of memory
    allocation and of connecting are arguments of the events.  When the client
    reports an error the user frees it inside its handler, as the header of
    [BSocksClient.h] demands and all users in the program do. *)

From S2P Require Import Prelude ByteOrder BSize BAddr.
Open Scope mon_scope.

#[local] Arguments mread : simpl never.
#[local] Arguments mwrite : simpl never.
#[local] Arguments Z.add : simpl never.
#[local] Arguments Z.sub : simpl never.

Module BSocksClient.

(** ** Constants of [misc/socks_proto.h] *)

Definition SOCKS_VERSION : Z := 5.
Definition SOCKS_METHOD_NO_AUTHENTICATION_REQUIRED : Z := 0.
Definition SOCKS_METHOD_USERNAME_PASSWORD : Z := 2.
Definition SOCKS_CMD_CONNECT : Z := 1.
Definition SOCKS_ATYP_IPV4 : Z := 1.
Definition SOCKS_ATYP_IPV6 : Z := 4.
Definition SOCKS_REP_SUCCEEDED : Z := 0.
Definition sizeof_socks_client_hello_header : Z := 2.
Definition sizeof_socks_client_hello_method : Z := 1.
Definition sizeof_socks_server_hello : Z := 2.
Definition sizeof_socks_request_header : Z := 4.
Definition sizeof_socks_reply_header : Z := 4.
Definition sizeof_socks_addr_ipv4 : Z := 6.
Definition sizeof_socks_addr_ipv6 : Z := 18.

Definition BSOCKSCLIENT_EVENT_ERROR : Z := 1.
Definition BSOCKSCLIENT_EVENT_UP : Z := 2.
Definition BSOCKSCLIENT_EVENT_ERROR_CLOSED : Z := 3.
Definition BCONNECTION_EVENT_RECVCLOSED : Z := 2.

(** ** State *)

(** [struct BSocksClient_auth_info]; the strings are blocks of memory. *)
Record auth_info := mk_auth {
  auth_type : Z;
  username : list Z;
  username_len : Z;
  password : list Z;
  password_len : Z;
}.

Definition BSocksClient_auth_none : auth_info :=
  mk_auth SOCKS_METHOD_NO_AUTHENTICATION_REQUIRED [] 0 [] 0.
Definition BSocksClient_auth_password (u : list Z) (ul : Z) (p : list Z) (pl : Z) : auth_info :=
  mk_auth SOCKS_METHOD_USERNAME_PASSWORD u ul p pl.

Inductive state_t :=
  | STATE_CONNECTING
  | STATE_SENDING_HELLO | STATE_SENT_HELLO
  | STATE_SENDING_PASSWORD | STATE_SENT_PASSWORD
  | STATE_SENDING_REQUEST | STATE_SENT_REQUEST | STATE_RECEIVED_REPLY_HEADER
  | STATE_UP.

#[export] Instance state_eq_dec : EqDecision state_t.
Proof. solve_decision. Defined.

(** The object; [recv_dest] is an offset in [buffer]. *)
Record t := mk {
  state : state_t;
  buffer : option (list Z);
  recv_dest : Z;
  recv_len : Z;
  recv_total : Z;
}.

(** The environment. *)
Record env := mk_env {
  connector : bool;            (** initialised, not freed *)
  con : bool;
  recv_async : bool;
  send_async : bool;
  sender : bool;               (** the [PacketStreamSender] *)
  send_op : option (Z * Z);    (** packet being sent: what is left of it in [buffer] *)
  recv_op : option (Z * Z);    (** receive operation: destination in [buffer], length *)
  tx : list Z;                 (** all bytes sent to the server *)
  rx : list Z;                 (** all bytes received from it *)
}.

Record sys := mk_sys { o : t; alive : bool; en : env }.

Definition set_o (x : t) (s : sys) : sys := mk_sys x (alive s) (en s).
Definition set_en (e : env) (s : sys) : sys := mk_sys (o s) (alive s) e.
Definition set_state (st : state_t) (x : t) : t := mk st (buffer x) (recv_dest x) (recv_len x) (recv_total x).
Definition set_buffer (b : option (list Z)) (x : t) : t := mk (state x) b (recv_dest x) (recv_len x) (recv_total x).
Definition set_recv (d l n : Z) (x : t) : t := mk (state x) (buffer x) d l n.

Inductive out :=
  | Connector_Init | Connector_Free
  | Connection_Init | Connection_Free
  | RecvAsync_Init | RecvAsync_Free
  | SendAsync_Init | SendAsync_Free
  | Sender_Init | Sender_Free
  | Send (data len : Z)
  | Recv (data len : Z)
  | Realloc
  | Handler (event : Z).

Definition set_io (ct co ra sa sd : bool) (so ro : option (Z * Z)) (e : env) : env :=
  mk_env ct co ra sa sd so ro (tx e) (rx e).

(** What a call does to the environment; [None]: the interface forbids it.  The
    buffer may be reallocated or freed only when no operation uses it. *)
Definition env_out (x : out) (e : env) : option env :=
  let io := set_io in
  match x with
  | Connector_Init => if connector e then None else Some (io true (con e) (recv_async e) (send_async e) (sender e) (send_op e) (recv_op e) e)
  | Connector_Free => if connector e && negb (con e) then Some (io false false (recv_async e) (send_async e) (sender e) (send_op e) (recv_op e) e) else None
  | Connection_Init => if connector e && negb (con e) then Some (io true true (recv_async e) (send_async e) (sender e) (send_op e) (recv_op e) e) else None
  | Connection_Free => if con e && negb (recv_async e) && negb (send_async e) then Some (io (connector e) false false false (sender e) (send_op e) (recv_op e) e) else None
  | RecvAsync_Init => if con e && negb (recv_async e) then Some (io (connector e) true true (send_async e) (sender e) (send_op e) None e) else None
  | RecvAsync_Free => if recv_async e then Some (io (connector e) (con e) false (send_async e) (sender e) (send_op e) None e) else None
  | SendAsync_Init => if con e && negb (send_async e) then Some (io (connector e) true (recv_async e) true (sender e) (send_op e) (recv_op e) e) else None
  | SendAsync_Free => if send_async e && negb (sender e) then Some (io (connector e) (con e) (recv_async e) false false (send_op e) (recv_op e) e) else None
  | Sender_Init => if send_async e && negb (sender e) then Some (io (connector e) (con e) (recv_async e) true true None (recv_op e) e) else None
  | Sender_Free => if sender e then Some (io (connector e) (con e) (recv_async e) (send_async e) false None (recv_op e) e) else None
  | Send d n =>
      match send_op e with
      | None => if sender e && (0 <? n) && (n <=? INT_MAX) then Some (io (connector e) (con e) (recv_async e) (send_async e) true (Some (d, n)) (recv_op e) e) else None
      | Some _ => None
      end
  | Recv d n =>
      match recv_op e with
      | None => if recv_async e && (0 <? n) then Some (io (connector e) (con e) true (send_async e) (sender e) (send_op e) (Some (d, n)) e) else None
      | Some _ => None
      end
  | Realloc => match send_op e, recv_op e with None, None => Some e | _, _ => None end
  | Handler _ => Some e
  end.

(** The result of [BRealloc]: [None] when memory is exhausted, else the contents
    of the bytes that were not in the old block. *)
Definition alloc := option (nat -> Z).

Definition BRealloc (old : list Z) (n : Z) (fill : nat -> Z) : list Z :=
  map (fun i => default (fill i) (old !! i)) (seq 0 (Z.to_nat n)).

Section Client.
Context (auths : list auth_info) (dest_addr : BAddr).

Abbreviation H := (M sys out).

Definition num_auth_info : Z := zlen auths.

Definition call (x : out) : H unit :=
  s <- get ;;
  match env_out x (en s) with
  | Some e => modify (set_en e) ;; emit x
  | None => fail F_assert
  end.

(** Access to the object: a fault once it was freed. *)
Definition o_ : H t :=
  s <- get ;;
  if alive s then ret (o s) else fail F_bounds.
Definition update (f : t -> t) : H unit := x <- o_ ;; modify (set_o (f x)).

(** The buffer, [memcpy] out of it and into it. *)
Definition buffer_ : H (list Z) :=
  x <- o_ ;;
  match buffer x with Some b => ret b | None => fail F_bounds end.
Definition bread (off n : Z) : H (list Z) :=
  b <- buffer_ ;; check_block (zlen b) off n ;; ret (mread b off n).
Definition bwrite (off : Z) (d : list Z) : H unit :=
  b <- buffer_ ;; check_block (zlen b) off (zlen d) ;; update (set_buffer (Some (mwrite b off d))).

(** [PacketPassInterface_Sender_Send] and [StreamRecvInterface_Receiver_Recv] on
    a range of the buffer. *)
Definition send (data len : Z) : H unit :=
  b <- buffer_ ;; check_block (zlen b) data len ;; call (Send data len).
Definition recv (data len : Z) : H unit :=
  b <- buffer_ ;; check_block (zlen b) data len ;; call (Recv data len).

(** ** Operations *)

Definition init_control_io : H unit :=
  call RecvAsync_Init ;; call SendAsync_Init ;; call Sender_Init.
Definition free_control_io : H unit :=
  call Sender_Free ;; call SendAsync_Free ;; call RecvAsync_Free.
Definition init_up_io : H unit := call RecvAsync_Init ;; call SendAsync_Init.
Definition free_up_io : H unit := call SendAsync_Free ;; call RecvAsync_Free.

Definition reserve_buffer (size : bsize_t) (mem : alloc) : H bool :=
  if is_overflow size then ret false else
  match mem with
  | None => ret false
  | Some fill =>
      x <- o_ ;;
      call Realloc ;;
      update (set_buffer (Some (BRealloc (default [] (buffer x)) (value size) fill))) ;;
      ret true
  end.

Definition do_receive : H unit :=
  x <- o_ ;;
  assert (recv_len x <? recv_total x) ;;
  recv (recv_dest x + recv_len x) (recv_total x - recv_len x).

Definition start_receive (dest total : Z) : H unit :=
  assert (total >? 0) ;;
  update (set_recv dest 0 total) ;;
  do_receive.

Definition BSocksClient_Free : H unit :=
  x <- o_ ;;
  (if bool_decide (state x = STATE_CONNECTING) then ret tt
   else
     (if bool_decide (state x = STATE_UP) then free_up_io else free_control_io) ;;
     call Connection_Free) ;;
  call Connector_Free ;;
  match buffer x with
  | Some _ => call Realloc
  | None => ret tt
  end ;;
  modify (fun s => mk_sys (o s) false (en s)).

(** [report_error]: the user's handler frees the object. *)
Definition report_error (error : Z) : H unit := call (Handler error) ;; BSocksClient_Free.

Fixpoint write_methods (i : Z) (l : list auth_info) : H unit :=
  match l with
  | [] => ret tt
  | ai :: l' =>
      bwrite (sizeof_socks_client_hello_header + i * sizeof_socks_client_hello_method) [hton8 (auth_type ai)] ;;
      write_methods (i + 1) l'
  end.

(** [con_ok]: whether [BConnection_Init] succeeds. *)
Definition connector_handler (is_error con_ok : bool) (mem : alloc) : H unit :=
  x <- o_ ;;
  assert (bool_decide (state x = STATE_CONNECTING)) ;;
  if is_error then report_error BSOCKSCLIENT_EVENT_ERROR else
  if negb con_ok then report_error BSOCKSCLIENT_EVENT_ERROR else
  call Connection_Init ;;
  init_control_io ;;
  let fail1 := free_control_io ;; call Connection_Free ;; report_error BSOCKSCLIENT_EVENT_ERROR in
  if (num_auth_info =? 0) || (num_auth_info >? 255) then fail1 else
  let size := bsize_add (bsize_fromsize sizeof_socks_client_hello_header)
    (bsize_mul (bsize_fromsize num_auth_info) (bsize_fromsize sizeof_socks_client_hello_method)) in
  ok <- reserve_buffer size mem ;;
  if negb ok then fail1 else
  bwrite 0 [hton8 SOCKS_VERSION; hton8 num_auth_info] ;;
  write_methods 0 auths ;;
  send 0 (value size) ;;
  update (set_state STATE_SENDING_HELLO).

Definition connection_handler (event : Z) : H unit :=
  x <- o_ ;;
  assert (negb (bool_decide (state x = STATE_CONNECTING))) ;;
  if bool_decide (state x = STATE_UP) && (event =? BCONNECTION_EVENT_RECVCLOSED)
  then report_error BSOCKSCLIENT_EVENT_ERROR_CLOSED
  else report_error BSOCKSCLIENT_EVENT_ERROR.

(** The bytes of [struct socks_addr_ipv4] / [socks_addr_ipv6]: the fields of the
    address are in network byte order, and are copied as they are. *)
Definition addr_bytes : list Z :=
  match dest_addr with
  | BADDR_IPV4 ip port => le_bytes 4 ip ++ le_bytes 2 port
  | BADDR_IPV6 ip port => mread ip 0 16 ++ le_bytes 2 port
  | _ => []
  end.

Definition auth_finished (mem : alloc) : H unit :=
  let size := bsize_fromsize sizeof_socks_request_header in
  let size :=
    match dest_addr with
    | BADDR_IPV4 _ _ => bsize_add size (bsize_fromsize sizeof_socks_addr_ipv4)
    | BADDR_IPV6 _ _ => bsize_add size (bsize_fromsize sizeof_socks_addr_ipv6)
    | _ => size
    end in
  ok <- reserve_buffer size mem ;;
  if negb ok then report_error BSOCKSCLIENT_EVENT_ERROR else
  atyp <- (match dest_addr with
    | BADDR_IPV4 _ _ => bwrite sizeof_socks_request_header addr_bytes ;; ret (hton8 SOCKS_ATYP_IPV4)
    | BADDR_IPV6 _ _ => bwrite sizeof_socks_request_header addr_bytes ;; ret (hton8 SOCKS_ATYP_IPV6)
    | _ => fail F_assert
    end) ;;
  bwrite 0 [hton8 SOCKS_VERSION; hton8 SOCKS_CMD_CONNECT; hton8 0; atyp] ;;
  send 0 (value size) ;;
  update (set_state STATE_SENDING_REQUEST).

(** The loop over [auth_info]: the first entry with the server's method. *)
Fixpoint find_auth (l : list auth_info) (method : Z) : option auth_info :=
  match l with
  | [] => None
  | ai :: l' => if auth_type ai =? method then Some ai else find_auth l' method
  end.

(** Case [STATE_SENT_HELLO] of [recv_handler_done]. *)
Definition received_hello (mem : alloc) : H unit :=
  imsg <- bread 0 sizeof_socks_server_hello ;;
  let ver := nth 0 imsg 0 in let method := nth 1 imsg 0 in
  if negb (ntoh8 ver =? SOCKS_VERSION) then report_error BSOCKSCLIENT_EVENT_ERROR else
  match find_auth auths (ntoh8 method) with
  | None => report_error BSOCKSCLIENT_EVENT_ERROR
  | Some ai =>
      if auth_type ai =? SOCKS_METHOD_NO_AUTHENTICATION_REQUIRED then auth_finished mem
      else if auth_type ai =? SOCKS_METHOD_USERNAME_PASSWORD then
        if (username_len ai =? 0) || (username_len ai >? 255) ||
           (password_len ai =? 0) || (password_len ai >? 255)
        then report_error BSOCKSCLIENT_EVENT_ERROR else
        let size := bsize_fromsize (1 + 1 + username_len ai + 1 + password_len ai) in
        ok <- reserve_buffer size mem ;;
        if negb ok then report_error BSOCKSCLIENT_EVENT_ERROR else
        bwrite 0 [1] ;;
        bwrite 1 [u8 (username_len ai)] ;;
        check_block (zlen (username ai)) 0 (username_len ai) ;;
        bwrite 2 (mread (username ai) 0 (username_len ai)) ;;
        bwrite (2 + username_len ai) [u8 (password_len ai)] ;;
        check_block (zlen (password ai)) 0 (password_len ai) ;;
        bwrite (3 + username_len ai) (mread (password ai) 0 (password_len ai)) ;;
        send 0 (value size) ;;
        update (set_state STATE_SENDING_PASSWORD)
      else fail F_assert
  end.

(** Case [STATE_SENT_REQUEST]. *)
Definition received_reply_header : H unit :=
  imsg <- bread 0 sizeof_socks_reply_header ;;
  let ver := nth 0 imsg 0 in let rep := nth 1 imsg 0 in let atyp := nth 3 imsg 0 in
  if negb (ntoh8 ver =? SOCKS_VERSION) then report_error BSOCKSCLIENT_EVENT_ERROR else
  if negb (ntoh8 rep =? SOCKS_REP_SUCCEEDED) then report_error BSOCKSCLIENT_EVENT_ERROR else
  if ntoh8 atyp =? SOCKS_ATYP_IPV4 then
    start_receive sizeof_socks_reply_header sizeof_socks_addr_ipv4 ;;
    update (set_state STATE_RECEIVED_REPLY_HEADER)
  else if ntoh8 atyp =? SOCKS_ATYP_IPV6 then
    start_receive sizeof_socks_reply_header sizeof_socks_addr_ipv6 ;;
    update (set_state STATE_RECEIVED_REPLY_HEADER)
  else report_error BSOCKSCLIENT_EVENT_ERROR.

(** Case [STATE_SENT_PASSWORD]. *)
Definition received_password_reply (mem : alloc) : H unit :=
  b0 <- bread 0 1 ;;
  if negb (nth 0 b0 0 =? 1) then report_error BSOCKSCLIENT_EVENT_ERROR else
  b1 <- bread 1 1 ;;
  if negb (nth 0 b1 0 =? 0) then report_error BSOCKSCLIENT_EVENT_ERROR else
  auth_finished mem.

(** Case [STATE_RECEIVED_REPLY_HEADER]; [user_frees]: the user's handler frees the
    object. *)
Definition received_reply_rest (user_frees : bool) : H unit :=
  call Realloc ;;
  update (set_buffer None) ;;
  free_control_io ;;
  init_up_io ;;
  update (set_state STATE_UP) ;;
  call (Handler BSOCKSCLIENT_EVENT_UP) ;;
  when user_frees do BSocksClient_Free.

Definition recv_handler_done (mem : alloc) (user_frees : bool) (data_len : Z) : H unit :=
  x <- o_ ;;
  assert (data_len >=? 0) ;;
  assert (data_len <=? recv_total x - recv_len x) ;;
  update (set_recv (recv_dest x) (recv_len x + data_len) (recv_total x)) ;;
  x <- o_ ;;
  if recv_len x <? recv_total x then do_receive else
  match state x with
  | STATE_SENT_HELLO => received_hello mem
  | STATE_SENT_REQUEST => received_reply_header
  | STATE_SENT_PASSWORD => received_password_reply mem
  | STATE_RECEIVED_REPLY_HEADER => received_reply_rest user_frees
  | _ => fail F_assert
  end.

Definition send_handler_done (mem : alloc) : H unit :=
  x <- o_ ;;
  assert (if buffer x then true else false) ;;
  match state x with
  | STATE_SENDING_HELLO =>
      let size := bsize_fromsize sizeof_socks_server_hello in
      ok <- reserve_buffer size mem ;;
      if negb ok then report_error BSOCKSCLIENT_EVENT_ERROR else
      start_receive 0 (value size) ;;
      update (set_state STATE_SENT_HELLO)
  | STATE_SENDING_REQUEST =>
      let size := bsize_add (bsize_fromsize sizeof_socks_reply_header)
        (bsize_max (bsize_fromsize sizeof_socks_addr_ipv4) (bsize_fromsize sizeof_socks_addr_ipv6)) in
      ok <- reserve_buffer size mem ;;
      if negb ok then report_error BSOCKSCLIENT_EVENT_ERROR else
      start_receive 0 sizeof_socks_reply_header ;;
      update (set_state STATE_SENT_REQUEST)
  | STATE_SENDING_PASSWORD =>
      let size := bsize_fromsize 2 in
      ok <- reserve_buffer size mem ;;
      if negb ok then report_error BSOCKSCLIENT_EVENT_ERROR else
      start_receive 0 (value size) ;;
      update (set_state STATE_SENT_PASSWORD)
  | _ => fail F_assert
  end.

(** [BSocksClient_Init]; [connector_ok]: whether [BConnector_Init] succeeds. *)
Definition BSocksClient_Init (server_addr : BAddr) (connector_ok : bool) : H bool :=
  assert (negb (BAddr_IsInvalid server_addr)) ;;
  assert ((baddr_type dest_addr =? 1) || (baddr_type dest_addr =? 2)) ;;
  assert (forallb (fun ai => (auth_type ai =? SOCKS_METHOD_NO_AUTHENTICATION_REQUIRED) ||
                             (auth_type ai =? SOCKS_METHOD_USERNAME_PASSWORD)) auths) ;;
  modify (fun s => mk_sys (set_buffer None (o s)) true (en s)) ;;
  if negb connector_ok then
    modify (fun s => mk_sys (o s) false (en s)) ;; ret false
  else
  call Connector_Init ;;
  update (set_state STATE_CONNECTING) ;;
  ret true.

(** The interfaces handed to the user. *)
Definition BSocksClient_GetSendInterface : H unit :=
  x <- o_ ;; assert (bool_decide (state x = STATE_UP)).
Definition BSocksClient_GetRecvInterface : H unit :=
  x <- o_ ;; assert (bool_decide (state x = STATE_UP)).

(** ** Events *)

Inductive event :=
  | E_connected (is_error con_ok : bool) (mem : alloc)   (** the connector is done *)
  | E_connection (event : Z)                             (** error or end of the connection *)
  | E_wrote (k : Z) (mem : alloc)                        (** the connection took [k] bytes *)
  | E_recv (d : list Z) (mem : alloc) (user_frees : bool) (** bytes arrived *)
  | E_free.                                              (** the user frees the object *)

Definition enabled (ev : event) (s : sys) : bool :=
  alive s &&
  match ev with
  | E_connected _ _ _ => connector (en s) && negb (con (en s))
  | E_connection _ => con (en s)
  | E_wrote k _ => match send_op (en s) with Some (_, n) => (0 <? k) && (k <=? n) | None => false end
  | E_recv d _ _ => match recv_op (en s) with Some (_, n) => (0 <? zlen d) && (zlen d <=? n) && bool_decide (bytes_ok d) | None => false end
  | E_free => true
  end.

(** The environment acts, then calls the client.  Sending and receiving use the
    memory of [buffer]. *)
Definition deliver (ev : event) : H unit :=
  s <- get ;;
  let e := en s in
  match ev with
  | E_connected is_error con_ok mem => connector_handler is_error con_ok mem
  | E_connection ev => connection_handler ev
  | E_wrote k mem =>
      match send_op e with
      | Some (p, n) =>
          d <- bread p k ;;
          modify (set_en (mk_env (connector e) (con e) (recv_async e) (send_async e) (sender e)
            (if k <? n then Some (p + k, n - k) else None) (recv_op e) (tx e ++ d) (rx e))) ;;
          if k <? n then ret tt else send_handler_done mem
      | None => fail F_assert
      end
  | E_recv d mem user_frees =>
      match recv_op e with
      | Some (p, n) =>
          bwrite p d ;;
          modify (set_en (mk_env (connector e) (con e) (recv_async e) (send_async e) (sender e)
            (send_op e) None (tx e) (rx e ++ d))) ;;
          recv_handler_done mem user_frees (zlen d)
      | None => fail F_assert
      end
  | E_free => BSocksClient_Free
  end.

Fixpoint run_events (evs : list event) (s : sys) : option sys :=
  match evs with
  | [] => Some s
  | ev :: evs' =>
      if enabled ev s then
        match deliver ev s with Ok _ s' _ => run_events evs' s' | Fault _ => None end
      else Some s
  end.

Definition env_none : env := mk_env false false false false false None None [] [].

(** Initialisation in fresh memory, then the events. *)
Definition run (server_addr : BAddr) (connector_ok : bool) (o0 : t) (evs : list event) : option sys :=
  match BSocksClient_Init server_addr connector_ok (mk_sys o0 false env_none) with
  | Ok _ s _ => run_events evs s
  | Fault _ => None
  end.

(** ** The protocol

    What the client has to send and when the handshake ends, as a function of all
    bytes received from the server. *)

Definition hello : list Z := [5; zlen auths] ++ map auth_type auths.
Definition password_packet (ai : auth_info) : list Z :=
  [1; username_len ai] ++ mread (username ai) 0 (username_len ai) ++
  [password_len ai] ++ mread (password ai) 0 (password_len ai).
Definition request : list Z :=
  [5; 1; 0; if baddr_type dest_addr =? 1 then 1 else 4] ++ addr_bytes.

(** The client sends [tx]; more bytes are needed, or the connection is up and
    [rest] belongs to the user, or the server's answer is not acceptable. *)
Inductive verdict :=
  | V_more (tx : list Z)
  | V_up (tx rest : list Z)
  | V_reject (tx : list Z).

Definition reply_len (atyp : Z) : option Z :=
  if atyp =? 1 then Some 6 else if atyp =? 4 then Some 18 else None.

Definition lengths_ok (ai : auth_info) : bool :=
  (1 <=? username_len ai) && (username_len ai <=? 255) &&
  (1 <=? password_len ai) && (password_len ai <=? 255).

Definition request_phase (tx rx : list Z) : verdict :=
  match rx with
  | ver :: rep :: rsv :: atyp :: rx' =>
      match (if (ver =? 5) && (rep =? 0) then reply_len atyp else None) with
      | None => V_reject tx
      | Some n => if zlen rx' <? n then V_more tx else V_up tx (drop (Z.to_nat n) rx')
      end
  | _ => V_more tx
  end.

Definition password_phase (ai : auth_info) (rx : list Z) : verdict :=
  match rx with
  | ver :: status :: rx' =>
      if (ver =? 1) && (status =? 0) then request_phase (hello ++ password_packet ai ++ request) rx'
      else V_reject (hello ++ password_packet ai)
  | _ => V_more (hello ++ password_packet ai)
  end.

Definition handshake (rx : list Z) : verdict :=
  match rx with
  | ver :: method :: rx' =>
      match (if ver =? 5 then find_auth auths method else None) with
      | None => V_reject hello
      | Some ai =>
          if auth_type ai =? 0 then request_phase (hello ++ request) rx'
          else if lengths_ok ai then password_phase ai rx' else V_reject hello
      end
  | _ => V_more hello
  end.

(** Valid arguments of [BSocksClient_Init]. *)
Definition auth_ok (ai : auth_info) : Prop :=
  auth_type ai = 0 \/
  (auth_type ai = 2 /\ 0 <= username_len ai <= zlen (username ai) /\ 0 <= password_len ai <= zlen (password ai)).
Record config_ok : Prop := mk_config_ok {
  cfg_auths : Forall auth_ok auths;
  cfg_dest : baddr_ok dest_addr;
  cfg_type : baddr_type dest_addr = 1 \/ baddr_type dest_addr = 2;
}.

(** ** Rules for the primitives *)

Implicit Types (b : option (list Z)) (m : list Z) (e : env).

Lemma wp_o x e (Q : t -> sys -> list out -> Prop) :
  Q x (mk_sys x true e) [] -> wp o_ (mk_sys x true e) Q.
Proof. intros HQ. unfold o_. by do 2 wp_step. Qed.

Lemma sc_update f x e (Q : unit -> sys -> list out -> Prop) :
  Q tt (mk_sys (f x) true e) [] -> wp (update f) (mk_sys x true e) Q.
Proof. intros HQ. unfold update. wp_step. apply wp_o. by wp_step. Qed.

Lemma sc_call c x a e e' (Q : unit -> sys -> list out -> Prop) :
  env_out c e = Some e' -> Q tt (mk_sys x a e') [c] -> wp (call c) (mk_sys x a e) Q.
Proof. intros He HQ. unfold call. do 2 wp_step. cbn [en]. rewrite He. wp_step. wp_step. by wp_step. Qed.

Lemma wp_buffer S m d l n e (Q : list Z -> sys -> list out -> Prop) :
  Q m (mk_sys (mk S (Some m) d l n) true e) [] -> wp buffer_ (mk_sys (mk S (Some m) d l n) true e) Q.
Proof. intros HQ. unfold buffer_. wp_step. apply wp_o. cbn [buffer]. by wp_step. Qed.

Lemma wp_bread S m d l n e off k (Q : list Z -> sys -> list out -> Prop) :
  0 <= off /\ 0 <= k /\ off + k <= zlen m ->
  Q (mread m off k) (mk_sys (mk S (Some m) d l n) true e) [] ->
  wp (bread off k) (mk_sys (mk S (Some m) d l n) true e) Q.
Proof. intros Hk HQ. unfold bread. wp_step. apply wp_buffer. wp_step. wp_step; [done|]. by wp_step. Qed.

Lemma wp_bwrite S m d l n e off c (Q : unit -> sys -> list out -> Prop) :
  0 <= off /\ off + zlen c <= zlen m ->
  Q tt (mk_sys (mk S (Some (mwrite m off c)) d l n) true e) [] ->
  wp (bwrite off c) (mk_sys (mk S (Some m) d l n) true e) Q.
Proof.
  intros Hk HQ. pose proof (zlen_nonneg c). unfold bwrite. wp_step. apply wp_buffer.
  wp_step. wp_step; [lia|]. by apply sc_update.
Qed.

(** The connected client's environment. *)
Definition ctl (so ro : option (Z * Z)) (ctx crx : list Z) : env :=
  mk_env true true true true true so ro ctx crx.
Definition env_freed (ctx crx : list Z) : env := mk_env false false false false false None None ctx crx.

Lemma wp_send S m d l n ctx crx p k (Q : unit -> sys -> list out -> Prop) :
  0 <= p /\ 0 < k <= INT_MAX /\ p + k <= zlen m ->
  Q tt (mk_sys (mk S (Some m) d l n) true (ctl (Some (p, k)) None ctx crx)) [Send p k] ->
  wp (send p k) (mk_sys (mk S (Some m) d l n) true (ctl None None ctx crx)) Q.
Proof.
  intros Hk HQ. unfold send. wp_step. apply wp_buffer. wp_step. wp_step; [lia|].
  eapply sc_call; [|exact HQ]. cbn.
  by replace ((0 <? k) && (k <=? INT_MAX)) with true by lia.
Qed.

Lemma wp_start_receive S m d l n ctx crx dest total (Q : unit -> sys -> list out -> Prop) :
  0 <= dest /\ 0 < total /\ dest + total <= zlen m ->
  (forall tr, tr = [Recv dest total] ->
    Q tt (mk_sys (mk S (Some m) dest 0 total) true (ctl None (Some (dest + 0, total - 0)) ctx crx)) tr) ->
  wp (start_receive dest total) (mk_sys (mk S (Some m) d l n) true (ctl None None ctx crx)) Q.
Proof.
  intros Hk HQ. unfold start_receive. wp_step. wp_step; [lia|]. wp_step. apply sc_update.
  unfold do_receive. cbn [set_recv state buffer]. wp_step. apply wp_o. wp_step. wp_step; [cbn [set_recv recv_len recv_total]; lia|].
  unfold recv. cbn [set_recv recv_dest recv_len recv_total]. wp_step. apply wp_buffer. wp_step. wp_step; [lia|].
  eapply sc_call; [cbn|].
  - by replace (0 <? total - 0) with true by lia.
  - apply HQ. cbn [app]. by rewrite Z.add_0_r, Z.sub_0_r.
Qed.

Lemma zlen_BRealloc old n fill : 0 <= n -> zlen (BRealloc old n fill) = n.
Proof. intros. unfold BRealloc. rewrite zlen_map. unfold zlen. rewrite length_seq. lia. Qed.

Lemma wp_reserve n mem S b d l k ctx crx (Q : bool -> sys -> list out -> Prop) :
  0 <= n ->
  (mem = None -> Q false (mk_sys (mk S b d l k) true (ctl None None ctx crx)) []) ->
  (mem <> None -> forall m, zlen m = n -> Q true (mk_sys (mk S (Some m) d l k) true (ctl None None ctx crx)) [Realloc]) ->
  wp (reserve_buffer (mk_bsize false n) mem) (mk_sys (mk S b d l k) true (ctl None None ctx crx)) Q.
Proof.
  intros Hn Hno Hyes. unfold reserve_buffer. cbn [is_overflow].
  destruct mem as [fill|]; [|wp_step; by apply Hno].
  wp_step. apply wp_o. wp_step. eapply sc_call; [done|]. wp_step. apply sc_update. wp_step.
  cbn [set_buffer state recv_dest recv_len recv_total value buffer]. apply (Hyes ltac:(done)).
  by apply zlen_BRealloc.
Qed.

(** ** Errors and freeing *)

(** The events reported to the user. *)
Definition handler_events (tr : list out) : list Z :=
  omap (fun x => match x with Handler ev => Some ev | _ => None end) tr.

Lemma handler_events_app tr1 tr2 : handler_events (tr1 ++ tr2) = handler_events tr1 ++ handler_events tr2.
Proof. apply omap_app. Qed.

(** Freed, with nothing left behind. *)
Definition freed (ctx crx : list Z) (s : sys) : Prop := alive s = false /\ en s = env_freed ctx crx.

Definition connecting_env : env := mk_env true false false false false None None [] [].
Definition up_env (ctx crx : list Z) : env := mk_env true true true true false None None ctx crx.

(** The environments of an object that exists. *)
Inductive env_of (ctx crx : list Z) : state_t -> env -> Prop :=
  | env_connecting : ctx = [] -> crx = [] -> env_of ctx crx STATE_CONNECTING connecting_env
  | env_control S so ro : S <> STATE_CONNECTING -> S <> STATE_UP -> env_of ctx crx S (ctl so ro ctx crx)
  | env_up : env_of ctx crx STATE_UP (up_env ctx crx).

Lemma wp_free S b d l n e ctx crx :
  env_of ctx crx S e ->
  wp BSocksClient_Free (mk_sys (mk S b d l n) true e)
    (fun _ s' tr => freed ctx crx s' /\ handler_events tr = []).
Proof.
  intros He. unfold BSocksClient_Free. wp_step. apply wp_o. cbn [state buffer].
  destruct He as [-> ->|so ro H1 H2|].
  - rewrite bool_decide_true by done. do 2 wp_step. wp_step. eapply sc_call; [done|].
    destruct b; [wp_step; eapply sc_call; [done|]; by wp_step | by do 3 wp_step].
  - rewrite !bool_decide_false by done. do 2 wp_step. unfold free_control_io.
    repeat (wp_step; eapply sc_call; [done|]). eapply sc_call; [done|]. eapply sc_call; [done|].
    wp_step. eapply sc_call; [done|].
    destruct b; [wp_step; eapply sc_call; [done|]; by wp_step | by do 3 wp_step].
  - rewrite bool_decide_false, bool_decide_true by done. do 2 wp_step. unfold free_up_io.
    wp_step. eapply sc_call; [done|]. eapply sc_call; [done|]. eapply sc_call; [done|].
    wp_step. eapply sc_call; [done|].
    destruct b; [wp_step; eapply sc_call; [done|]; by wp_step | by do 3 wp_step].
Qed.

Lemma wp_report S b d l n e ctx crx ev :
  env_of ctx crx S e ->
  wp (report_error ev) (mk_sys (mk S b d l n) true e)
    (fun _ s' tr => freed ctx crx s' /\ handler_events tr = [ev]).
Proof.
  intros He. unfold report_error. wp_step. eapply sc_call; [done|].
  eapply wp_mono; [by apply wp_free|]. intros _ s' tr [HF HE]. split; [done|].
  by rewrite handler_events_app, HE.
Qed.

(** ** Sending *)

(** A packet is ready and its sending begins, unless memory is exhausted. *)
Definition sends_or_fails (mem : alloc) (S : state_t) (msg ctx crx : list Z) (s' : sys) (tr : list out) : Prop :=
  (mem = None /\ freed ctx crx s' /\ handler_events tr = [BSOCKSCLIENT_EVENT_ERROR]) \/
  (handler_events tr = [] /\
   exists d l n, s' = mk_sys (mk S (Some msg) d l n) true (ctl (Some (0, zlen msg)) None ctx crx)).

Lemma zlen_addr_bytes :
  config_ok -> zlen addr_bytes = if baddr_type dest_addr =? 1 then 6 else 18.
Proof.
  intros [_ Hd Ht]. unfold addr_bytes. destruct dest_addr as [|ip p|ip p|]; cbn in Ht; try lia.
  - done.
  - destruct Hd as (_ & Hi & _). cbn [baddr_type]. rewrite zlen_app, zlen_mread, zlen_le_bytes by lia. done.
Qed.

Lemma wp_auth_finished mem S b d l n ctx crx :
  config_ok -> S <> STATE_CONNECTING -> S <> STATE_UP ->
  wp (auth_finished mem) (mk_sys (mk S b d l n) true (ctl None None ctx crx))
    (fun _ s' tr => sends_or_fails mem STATE_SENDING_REQUEST request ctx crx s' tr).
Proof.
  intros C H1 H2. pose proof (zlen_addr_bytes C) as Hal. pose proof (zlen_nonneg addr_bytes).
  assert (Hab : zlen addr_bytes <= 18) by (rewrite Hal; destruct (_ =? 1); lia). unfold auth_finished, sends_or_fails.
  assert (Hs : match dest_addr with
    | BADDR_IPV4 _ _ => bsize_add (bsize_fromsize sizeof_socks_request_header) (bsize_fromsize sizeof_socks_addr_ipv4)
    | BADDR_IPV6 _ _ => bsize_add (bsize_fromsize sizeof_socks_request_header) (bsize_fromsize sizeof_socks_addr_ipv6)
    | _ => bsize_fromsize sizeof_socks_request_header end = mk_bsize false (4 + zlen addr_bytes)).
  { destruct C as [_ _ Ht], dest_addr; cbn in Ht; try lia; by rewrite Hal. }
  rewrite Hs. wp_step. apply wp_reserve; [lia| |].
  - intros ->. cbn [negb]. eapply wp_mono; [apply wp_report; by constructor|].
    intros _ s' tr [HF HE]. left. by rewrite handler_events_app, HE.
  - intros _ m Hm. cbn [negb].
    assert (Hgo : forall atyp, atyp = (if baddr_type dest_addr =? 1 then 1 else 4) ->
      wp (atyp <- (bwrite sizeof_socks_request_header addr_bytes ;; ret atyp) ;;
          bwrite 0 [hton8 SOCKS_VERSION; hton8 SOCKS_CMD_CONNECT; hton8 0; atyp] ;;
          send 0 (value (mk_bsize false (4 + zlen addr_bytes))) ;;
          update (set_state STATE_SENDING_REQUEST))
         (mk_sys (mk S (Some m) d l n) true (ctl None None ctx crx))
         (fun _ s' tr => sends_or_fails mem STATE_SENDING_REQUEST request ctx crx s' ([Realloc] ++ tr))).
    { intros atyp Ha. do 2 wp_step. unfold sizeof_socks_request_header.
      apply wp_bwrite; [lia|]. wp_step. wp_step.
      set (m1 := mwrite m 4 addr_bytes). assert (Hm1 : zlen m1 = 4 + zlen addr_bytes) by (unfold m1; zl).
      assert (H4 : zlen [hton8 SOCKS_VERSION; hton8 SOCKS_CMD_CONNECT; hton8 0; atyp] = 4) by done.
      apply wp_bwrite; [lia|]. cbn [value].
      wp_step. apply wp_send; [unfold INT_MAX; rewrite zlen_mwrite; lia|].
      apply sc_update. right. split; [done|]. exists d, l, n. cbn [set_state buffer recv_dest recv_len recv_total].
      assert (Hr : mwrite m1 0 [hton8 SOCKS_VERSION; hton8 SOCKS_CMD_CONNECT; hton8 0; atyp] = request).
      { rewrite <- (mread_all (mwrite m1 0 _)), zlen_mwrite, Hm1 by lia.
        rewrite mread_split, (mread_mwrite_after _ _ _ (0 + 4)) by lia.
        rewrite <- H4 at 1. rewrite (mread_mwrite_same m1 0) by lia.
        unfold m1. rewrite Z.add_0_l, mread_mwrite_same by lia. subst atyp. done. }
      rewrite Hr. assert (Hl : zlen request = 4 + zlen addr_bytes) by (unfold request; zl). by rewrite Hl. }
    destruct C as [_ _ Ht], dest_addr; cbn in Ht; try lia; by apply Hgo.
Qed.

(** The buffer holds the message [pre] so far; a store appends to it. *)
Lemma wp_append S m d l n e off c pre (Q : unit -> sys -> list out -> Prop) :
  0 <= off -> off + zlen c <= zlen m -> mread m 0 off = pre ->
  (forall m', zlen m' = zlen m -> mread m' 0 (off + zlen c) = pre ++ c ->
     Q tt (mk_sys (mk S (Some m') d l n) true e) []) ->
  wp (bwrite off c) (mk_sys (mk S (Some m) d l n) true e) Q.
Proof.
  intros. apply wp_bwrite; [lia|]. apply H2; [by rewrite zlen_mwrite | by apply mread_mwrite_extend].
Qed.

Lemma wp_write_methods S d l n e ais i m pre (Q : unit -> sys -> list out -> Prop) :
  0 <= i -> 2 + i + zlen ais <= zlen m -> mread m 0 (2 + i) = pre ->
  (forall m', zlen m' = zlen m ->
     mread m' 0 (2 + i + zlen ais) = pre ++ map (fun ai => hton8 (auth_type ai)) ais ->
     Q tt (mk_sys (mk S (Some m') d l n) true e) []) ->
  wp (write_methods i ais) (mk_sys (mk S (Some m) d l n) true e) Q.
Proof.
  revert i m pre. induction ais as [|ai ais IH]; intros i m pre Hi Hl Hm HQ; cbn [write_methods map] in *.
  - wp_step. apply HQ; [done|]. change (zlen (@nil auth_info)) with 0. by rewrite app_nil_r, Z.add_0_r.
  - rewrite zlen_cons in *. pose proof (zlen_nonneg ais).
    unfold sizeof_socks_client_hello_header, sizeof_socks_client_hello_method. rewrite Z.mul_1_r.
    wp_step. eapply wp_append; [lia | change (zlen [_]) with 1; lia | exact Hm |].
    change (zlen [_]) with 1. intros m1 Hz Hr.
    apply (IH (i + 1) m1 (pre ++ [hton8 (auth_type ai)])); [lia | lia | |].
    + by replace (2 + (i + 1)) with (2 + i + 1) by lia.
    + intros m' Hz' Hr'. apply HQ; [lia|]. rewrite <- app_assoc in Hr'. cbn [app] in Hr'.
      rewrite <- Hr'. f_equal. lia.
Qed.

Lemma auth_type_hton : config_ok -> map (fun ai => hton8 (auth_type ai)) auths = map auth_type auths.
Proof.
  intros [Ha _ _]. apply map_ext_in. intros ai Hin. rewrite Forall_forall in Ha.
  apply list_elem_of_In, Ha in Hin. destruct Hin as [->|[-> _]]; done.
Qed.

Lemma wp_connector_handler is_error con_ok mem d l n :
  config_ok ->
  wp (connector_handler is_error con_ok mem) (mk_sys (mk STATE_CONNECTING None d l n) true connecting_env)
    (fun _ s' tr => (freed [] [] s' /\ handler_events tr = [BSOCKSCLIENT_EVENT_ERROR] /\
                     (is_error = true \/ con_ok = false \/ mem = None \/ ~ 1 <= zlen auths <= 255)) \/
      (1 <= zlen auths <= 255 /\ sends_or_fails mem STATE_SENDING_HELLO hello [] [] s' tr)).
Proof.
  intros C. assert (E0 : env_of [] [] STATE_CONNECTING connecting_env) by by constructor.
  unfold connector_handler. wp_step. apply wp_o. wp_step. wp_step; [done|].
  destruct is_error.
  { eapply wp_mono; [by apply wp_report|]. intros _ s' tr [HF HE]. left. rewrite !handler_events_app, HE. tauto. }
  destruct con_ok; cbn [negb].
  2: { eapply wp_mono; [by apply wp_report|]. intros _ s' tr [HF HE]. left. rewrite !handler_events_app, HE. tauto. }
  wp_step. eapply sc_call; [done|]. wp_step. unfold init_control_io.
  wp_step. eapply sc_call; [done|]. wp_step. eapply sc_call; [done|]. eapply sc_call; [done|].
  assert (Hfail : forall tr0 b, handler_events tr0 = [] -> (mem = None \/ ~ 1 <= zlen auths <= 255) ->
    wp (free_control_io ;; call Connection_Free ;; report_error BSOCKSCLIENT_EVENT_ERROR)
      (mk_sys (mk STATE_CONNECTING b d l n) true (ctl None None [] []))
      (fun _ s' tr => (freed [] [] s' /\ handler_events (tr0 ++ tr) = [BSOCKSCLIENT_EVENT_ERROR] /\
         (false = true \/ true = false \/ mem = None \/ ~ 1 <= zlen auths <= 255)) \/
        (1 <= zlen auths <= 255 /\ sends_or_fails mem STATE_SENDING_HELLO hello [] [] s' (tr0 ++ tr)))).
  { intros tr0 b Htr Hwhy. unfold free_control_io. wp_step. repeat (wp_step; eapply sc_call; [done|]).
    eapply sc_call; [done|]. wp_step. eapply sc_call; [done|].
    eapply wp_mono; [by apply wp_report|]. intros _ s' tr [HF HE]. left.
    rewrite !handler_events_app, HE, Htr. cbn [app]. split_and!; [done | done | tauto]. }
  change (wp ?m (mk_sys ?x true _) ?Q) with (wp m (mk_sys x true (ctl None None [] [])) Q).
  unfold num_auth_info.
  destruct (Z.eqb_spec (zlen auths) 0) as [E|E]; cbn [orb].
  { apply (Hfail [_; _; _; _]); [done | lia]. }
  destruct (Z.gtb_spec (zlen auths) 255) as [E'|E'].
  { apply (Hfail [_; _; _; _]); [done | lia]. }
  pose proof (zlen_nonneg auths).
  assert (Hs : bsize_add (bsize_fromsize sizeof_socks_client_hello_header)
    (bsize_mul (bsize_fromsize (zlen auths)) (bsize_fromsize sizeof_socks_client_hello_method))
    = mk_bsize false (2 + zlen auths)).
  { unfold bsize_fromsize, sizeof_socks_client_hello_header, sizeof_socks_client_hello_method.
    rewrite bsize_mul_small, bsize_add_small by (unfold SIZE_MAX; lia). by rewrite Z.mul_1_r. }
  rewrite Hs. wp_step. apply wp_reserve; [lia| |].
  { intros Hm. cbn [negb]. apply (Hfail [_; _; _; _]); [done | by left]. }
  intros _ m Hm. cbn [negb]. wp_step.
  eapply (wp_append _ m _ _ _ _ 0 _ []); [lia | change (zlen [_; _]) with 2; lia | done |].
  change (zlen [_; _]) with 2. intros m1 Hm1 Hr1. wp_step.
  eapply (wp_write_methods _ _ _ _ _ auths 0); [lia | lia | exact Hr1 |].
  intros m2 Hm2 Hr2. wp_step. cbn [value]. apply wp_send; [unfold INT_MAX; lia|].
  apply sc_update. right. split; [lia|]. right. split; [done|]. cbn [set_state buffer recv_dest recv_len recv_total].
  rewrite auth_type_hton in Hr2 by done.
  assert (Hh : m2 = hello).
  { rewrite <- (mread_all m2). replace (zlen m2) with (2 + 0 + zlen auths) by lia. rewrite Hr2.
    unfold hello, hton8. by rewrite (u8_id (zlen auths)) by lia. }
  exists d, l, n. rewrite <- Hh, Hm2, Hm1, Hm. done.
Qed.

Lemma find_auth_ok l method ai :
  Forall auth_ok l -> find_auth l method = Some ai -> auth_ok ai /\ auth_type ai = method.
Proof.
  induction 1 as [|x l Hx _ IH]; cbn [find_auth]; [done|].
  destruct (Z.eqb_spec (auth_type x) method); [by intros [= <-] | done].
Qed.

Lemma zlen_password_packet ai :
  auth_ok ai -> auth_type ai = 2 ->
  zlen (password_packet ai) = 3 + username_len ai + password_len ai.
Proof.
  intros [|(_ & Hu & Hp)] ?; [lia|]. unfold password_packet.
  rewrite !zlen_app, !zlen_mread by lia. change (zlen [_; _]) with 2. change (zlen [_]) with 1. lia.
Qed.

(** After the first two bytes: what the client does with the server's choice. *)
Definition hello_result (mem : alloc) (crx : list Z) (s' : sys) (tr : list out) : Prop :=
  match handshake crx with
  | V_more full =>
      exists S msg, sends_or_fails mem S msg hello crx s' tr /\ full = hello ++ msg /\
        ((S = STATE_SENDING_PASSWORD /\ exists ai, find_auth auths (nth 1 crx 0) = Some ai /\
            auth_type ai = 2 /\ lengths_ok ai = true /\ msg = password_packet ai) \/
         (S = STATE_SENDING_REQUEST /\ msg = request /\ exists ai,
            find_auth auths (nth 1 crx 0) = Some ai /\ auth_type ai = 0))
  | V_reject _ => freed hello crx s' /\ handler_events tr = [BSOCKSCLIENT_EVENT_ERROR]
  | V_up _ _ => False
  end.

Lemma wp_password mem S m d l n crx ai :
  auth_ok ai -> auth_type ai = 2 -> lengths_ok ai = true -> S <> STATE_CONNECTING -> S <> STATE_UP ->
  wp (ok <- reserve_buffer (bsize_fromsize (1 + 1 + username_len ai + 1 + password_len ai)) mem ;;
      if negb ok then report_error BSOCKSCLIENT_EVENT_ERROR else
      bwrite 0 [1] ;;
      bwrite 1 [u8 (username_len ai)] ;;
      check_block (zlen (username ai)) 0 (username_len ai) ;;
      bwrite 2 (mread (username ai) 0 (username_len ai)) ;;
      bwrite (2 + username_len ai) [u8 (password_len ai)] ;;
      check_block (zlen (password ai)) 0 (password_len ai) ;;
      bwrite (3 + username_len ai) (mread (password ai) 0 (password_len ai)) ;;
      send 0 (value (bsize_fromsize (1 + 1 + username_len ai + 1 + password_len ai))) ;;
      update (set_state STATE_SENDING_PASSWORD))
    (mk_sys (mk S (Some m) d l n) true (ctl None None hello crx))
    (fun _ s' tr => sends_or_fails mem STATE_SENDING_PASSWORD (password_packet ai) hello crx s' tr).
Proof.
  intros Hai H2 Hl HS1 HS2. pose proof (zlen_password_packet ai Hai H2) as Hz.
  destruct Hai as [|(_ & Hu & Hp)]; [lia|].
  unfold lengths_ok in Hl. rewrite !andb_true_iff, !Z.leb_le in Hl.
  unfold bsize_fromsize. cbn [value].
  wp_step. apply wp_reserve; [lia| |].
  { intros ->. cbn [negb]. eapply wp_mono; [apply wp_report; by constructor|].
    intros _ s' tr [HF HE]. left. by rewrite handler_events_app, HE. }
  intros _ m0 Hm. cbn [negb].
  wp_step. eapply (wp_append _ m0 _ _ _ _ 0 _ []); [lia | change (zlen [_]) with 1; lia | done |].
  intros m1 Hm1 Hr1. change (zlen [_]) with 1 in Hr1.
  wp_step. eapply (wp_append _ m1 _ _ _ _ 1); [lia | change (zlen [_]) with 1; lia | exact Hr1 |].
  intros m2 Hm2 Hr2. change (zlen [_]) with 1 in Hr2.
  wp_step. wp_step; [lia|]. wp_step.
  eapply (wp_append _ m2 _ _ _ _ 2); [lia | zl | exact Hr2 |]. rewrite zlen_mread by lia. intros m3 Hm3 Hr3.
  wp_step. eapply (wp_append _ m3); [lia | change (zlen [_]) with 1; lia | exact Hr3 |].
  change (zlen [_]) with 1. intros m4 Hm4 Hr4. wp_step. wp_step; [lia|]. wp_step.
  replace (2 + username_len ai + 1) with (3 + username_len ai) in Hr4 by lia.
  eapply (wp_append _ m4); [lia | zl | exact Hr4 |]. rewrite zlen_mread by lia. intros m5 Hm5 Hr5.
  wp_step. apply wp_send; [unfold INT_MAX; lia|]. apply sc_update. right. split; [done|].
  cbn [set_state buffer recv_dest recv_len recv_total].
  assert (Hh : m5 = password_packet ai).
  { rewrite <- (mread_all m5). replace (zlen m5) with (3 + username_len ai + password_len ai) by lia.
    rewrite Hr5, !u8_id by lia. unfold password_packet. by rewrite <- !app_assoc. }
  exists d, l, n. rewrite <- Hh. do 4 f_equal. f_equal. lia.
Qed.

Lemma wp_received_hello mem m d l n crx S :
  config_ok -> zlen m = 2 -> bytes_ok m -> crx = m -> S <> STATE_CONNECTING -> S <> STATE_UP ->
  wp (received_hello mem) (mk_sys (mk S (Some m) d l n) true (ctl None None hello crx))
    (fun _ s' tr => hello_result mem crx s' tr).
Proof.
  intros C Hm Hb -> HS1 HS2. pose proof (cfg_auths C) as Ha.
  assert (E0 : env_of hello m S (ctl None None hello m)) by by constructor.
  unfold received_hello, hello_result. wp_step. apply wp_bread; [unfold sizeof_socks_server_hello; lia|].
  change sizeof_socks_server_hello with 2. rewrite <- Hm, mread_all.
  destruct m as [|ver [|method [|? ?]]]; try (exfalso; unfold zlen in Hm; cbn in Hm; lia).
  unfold bytes_ok in Hb. rewrite !Forall_cons in Hb. destruct Hb as (Hv & Hme & _). unfold byte_ok in Hv, Hme.
  cbn [nth handshake]. unfold ntoh8, hton8. rewrite !u8_id by lia. unfold SOCKS_VERSION.
  destruct (ver =? 5); cbn [negb].
  2: { eapply wp_mono; [by apply wp_report|]. by intros _ s' tr [HF HE]. }
  destruct (find_auth auths method) as [ai|] eqn:Ef.
  2: { eapply wp_mono; [by apply wp_report|]. by intros _ s' tr [HF HE]. }
  destruct (find_auth_ok _ _ _ Ha Ef) as [Hai Ht].
  unfold SOCKS_METHOD_NO_AUTHENTICATION_REQUIRED, SOCKS_METHOD_USERNAME_PASSWORD.
  destruct (Z.eqb_spec (auth_type ai) 0) as [E|E].
  - cbn [request_phase]. eapply wp_mono; [by apply wp_auth_finished|]. intros u s' tr HR. cbn beta in HR.
    exists STATE_SENDING_REQUEST, request. split; [exact HR|]. split; [done|]. right. eauto.
  - assert (H2 : auth_type ai = 2) by (destruct Hai as [|(? & _)]; [done|done]). rewrite H2.
    change (2 =? 2) with true. cbn iota.
    replace (_ || _ || _ || _) with (negb (lengths_ok ai)) by (unfold lengths_ok; destruct Hai as [|(_ & ? & ?)]; [done|]; lia).
    destruct (lengths_ok ai) eqn:Hl; cbn [negb password_phase].
    2: { eapply wp_mono; [by apply wp_report|]. by intros _ s' tr [HF HE]. }
    eapply wp_mono; [by apply wp_password|]. intros u s' tr HR. cbn beta in HR.
    exists STATE_SENDING_PASSWORD, (password_packet ai). split; [exact HR|]. split; [done|]. left. eauto 10.
Qed.

(** ** Phases of the conversation *)

(** Authentication is finished: what was sent and received so far. *)
Inductive authed : list Z -> list Z -> Prop :=
  | authed_none method ai :
      find_auth auths method = Some ai -> auth_type ai = 0 -> authed hello [5; method]
  | authed_password method ai :
      find_auth auths method = Some ai -> auth_type ai = 2 -> lengths_ok ai = true ->
      authed (hello ++ password_packet ai) [5; method; 1; 0].

(** [sends S ptx prx msg]: in state [S], after [ptx] was sent and [prx] received,
    the message [msg] is sent. *)
Inductive sends : state_t -> list Z -> list Z -> list Z -> Prop :=
  | sends_hello : sends STATE_SENDING_HELLO [] [] hello
  | sends_password method ai :
      find_auth auths method = Some ai -> auth_type ai = 2 -> lengths_ok ai = true ->
      sends STATE_SENDING_PASSWORD hello [5; method] (password_packet ai)
  | sends_request ptx prx : authed ptx prx -> sends STATE_SENDING_REQUEST ptx prx request.

(** [receives S ptx prx dest total size]: in state [S], [total] bytes are awaited
    at offset [dest] of a buffer of [size] bytes. *)
Inductive receives : state_t -> list Z -> list Z -> Z -> Z -> Z -> Prop :=
  | receives_hello : receives STATE_SENT_HELLO hello [] 0 2 2
  | receives_password method ai :
      find_auth auths method = Some ai -> auth_type ai = 2 -> lengths_ok ai = true ->
      receives STATE_SENT_PASSWORD (hello ++ password_packet ai) [5; method] 0 2 2
  | receives_request ptx prx : authed ptx prx -> receives STATE_SENT_REQUEST (ptx ++ request) prx 0 4 22
  | receives_reply ptx prx rsv atyp n :
      authed ptx prx -> reply_len atyp = Some n ->
      receives STATE_RECEIVED_REPLY_HEADER (ptx ++ request) (prx ++ [5; 0; rsv; atyp]) 4 n 22.

Inductive phase : sys -> Prop :=
  | ph_connecting d l n : phase (mk_sys (mk STATE_CONNECTING None d l n) true connecting_env)
  | ph_sending S ptx prx msg d l n p k :
      sends S ptx prx msg -> 0 <= p -> 0 < k -> p + k = zlen msg ->
      phase (mk_sys (mk S (Some msg) d l n) true (ctl (Some (p, k)) None (ptx ++ mread msg 0 p) prx))
  | ph_receiving S ptx prx m dest total l :
      receives S ptx prx dest total (zlen m) -> 0 <= l < total -> bytes_ok (mread m dest l) ->
      phase (mk_sys (mk S (Some m) dest l total) true
               (ctl None (Some (dest + l, total - l)) ptx (prx ++ mread m dest l)))
  | ph_up ctx crx d l n :
      handshake crx = V_up ctx [] -> phase (mk_sys (mk STATE_UP None d l n) true (up_env ctx crx)).

Lemma handshake_authed ptx prx f :
  authed ptx prx -> handshake (prx ++ f) = request_phase (ptx ++ request) f.
Proof.
  intros [method ai E Ht | method ai E Ht Hl]; cbn [handshake app]; rewrite Z.eqb_refl, E, Ht.
  - done.
  - change (2 =? 0) with false. cbn iota. rewrite Hl. cbn [password_phase].
    change ((1 =? 1) && (0 =? 0)) with true. by rewrite <- app_assoc.
Qed.

Lemma handshake_password method ai f :
  find_auth auths method = Some ai -> auth_type ai = 2 -> lengths_ok ai = true ->
  handshake ([5; method] ++ f) = password_phase ai f.
Proof. intros E Ht Hl. cbn [handshake app]. rewrite Z.eqb_refl, E, Ht. change (2 =? 0) with false. cbn iota. by rewrite Hl. Qed.

Lemma handshake_sends S ptx prx msg : sends S ptx prx msg -> handshake prx = V_more (ptx ++ msg).
Proof.
  intros [|method ai E Ht Hl|p r Ha]; [done | |].
  - by rewrite <- (app_nil_r [5; method]), (handshake_password _ ai).
  - by rewrite <- (app_nil_r r), (handshake_authed p).
Qed.

Lemma handshake_receives S ptx prx dest total size f :
  receives S ptx prx dest total size -> zlen f < total -> handshake (prx ++ f) = V_more ptx.
Proof.
  intros [|method ai E Ht Hl|p r Ha|p r rsv atyp n Ha Hn] Hf.
  - destruct f as [|? [|? f]]; [done|done|]. rewrite !zlen_cons in Hf. pose proof (zlen_nonneg f). lia.
  - rewrite (handshake_password _ ai) by done.
    destruct f as [|? [|? f]]; [done|done|]. rewrite !zlen_cons in Hf. pose proof (zlen_nonneg f). lia.
  - rewrite (handshake_authed p) by done.
    destruct f as [|? [|? [|? [|? f]]]]; try done. rewrite !zlen_cons in Hf. pose proof (zlen_nonneg f). lia.
  - rewrite <- app_assoc, (handshake_authed p) by done. cbn [request_phase app].
    change ((5 =? 5) && (0 =? 0)) with true. cbn iota. rewrite Hn.
    by replace (zlen f <? n) with true by lia.
Qed.

Lemma receives_bounds S ptx prx dest total size :
  receives S ptx prx dest total size ->
  0 <= dest /\ 0 < total /\ dest + total <= size /\ S <> STATE_CONNECTING /\ S <> STATE_UP.
Proof.
  intros [| | |p r rsv atyp n Ha Hn]; try (split_and!; done || lia).
  unfold reply_len in Hn. destruct (atyp =? 1); [|destruct (atyp =? 4)]; simplify_eq; split_and!; done || lia.
Qed.

Lemma sends_state S ptx prx msg : sends S ptx prx msg -> S <> STATE_CONNECTING /\ S <> STATE_UP.
Proof. by intros []. Qed.

Lemma zlen_message S ptx prx msg : config_ok -> sends S ptx prx msg -> 0 < zlen msg.
Proof.
  intros C [|method ai E Ht Hl|p r Ha].
  - unfold hello. rewrite zlen_app. change (zlen [_; _]) with 2. pose proof (zlen_nonneg (map auth_type auths)). lia.
  - destruct (find_auth_ok _ _ _ (cfg_auths C) E) as [Hai _]. rewrite zlen_password_packet by done.
    unfold lengths_ok in Hl. lia.
  - unfold request. rewrite zlen_app. change (zlen [_; _; _; _]) with 4. pose proof (zlen_nonneg addr_bytes). lia.
Qed.

(** The start of a message, and of a field. *)
Lemma phase_send S ptx prx msg d l n :
  config_ok -> sends S ptx prx msg ->
  phase (mk_sys (mk S (Some msg) d l n) true (ctl (Some (0, zlen msg)) None ptx prx)).
Proof.
  intros C Hs. pose proof (zlen_message _ _ _ _ C Hs).
  rewrite <- (app_nil_r ptx) at 1. apply (ph_sending S ptx prx msg); [done | lia..].
Qed.

Lemma phase_receive S ptx prx m dest total :
  receives S ptx prx dest total (zlen m) ->
  phase (mk_sys (mk S (Some m) dest 0 total) true (ctl None (Some (dest + 0, total - 0)) ptx prx)).
Proof.
  intros Hr. rewrite <- (app_nil_r prx) at 1. destruct (receives_bounds _ _ _ _ _ _ Hr) as (? & ? & _).
  apply (ph_receiving S ptx prx m dest total 0); [done | lia | constructor].
Qed.

Lemma phase_free_wp s :
  phase s -> wp BSocksClient_Free s (fun _ s' tr => freed (tx (en s)) (rx (en s)) s' /\ handler_events tr = []).
Proof.
  intros [d l n|S ptx prx msg d l n p k Hs _ _ _|S ptx prx m dest total l Hr _ _|ctx crx d l n _].
  - apply wp_free. by constructor.
  - destruct (sends_state _ _ _ _ Hs). apply wp_free. by constructor.
  - destruct (receives_bounds _ _ _ _ _ _ Hr) as (_ & _ & _ & ? & ?). apply wp_free. by constructor.
  - apply wp_free. constructor.
Qed.

(** ** Events *)

Definition gone (s : sys) : Prop := exists ctx crx, freed ctx crx s.

(** The client goes on, or is freed after an error was reported. *)
Definition goes_on (failed : Prop) (s' : sys) (tr : list out) : Prop :=
  (phase s' /\ handler_events tr = []) \/
  (failed /\ gone s' /\ handler_events tr = [BSOCKSCLIENT_EVENT_ERROR]).

Lemma sends_or_fails_goes_on mem S ptx prx msg s' tr :
  config_ok -> sends S ptx prx msg -> sends_or_fails mem S msg ptx prx s' tr -> goes_on (mem = None) s' tr.
Proof.
  intros C Hs [(Hm & HF & HE)|(HE & d & l & n & ->)]; [right; unfold gone; eauto|].
  left. split; [by apply phase_send | done].
Qed.

(** A field is read into a fresh buffer. *)
Lemma wp_read_field S S' b d l n mem size ptx prx total :
  S <> STATE_CONNECTING -> S <> STATE_UP -> 0 < total <= size ->
  receives S' ptx prx 0 total size ->
  wp (ok <- reserve_buffer (mk_bsize false size) mem ;;
      if negb ok then report_error BSOCKSCLIENT_EVENT_ERROR else
      start_receive 0 total ;; update (set_state S'))
    (mk_sys (mk S b d l n) true (ctl None None ptx prx))
    (fun _ s' tr => goes_on (mem = None) s' tr).
Proof.
  intros H1 H2 Ht Hr. wp_step. apply wp_reserve; [lia| |].
  { intros ->. cbn [negb]. eapply wp_mono; [apply wp_report; by constructor|].
    intros _ s' tr [HF HE]. right. rewrite handler_events_app, HE. unfold gone. eauto. }
  intros _ m Hm. cbn [negb]. wp_step. apply wp_start_receive; [lia|]. intros tr ->.
  apply sc_update. left. split; [|done]. apply phase_receive. by rewrite Hm.
Qed.

Lemma send_done_wp mem S ptx prx msg d l n :
  sends S ptx prx msg ->
  wp (send_handler_done mem) (mk_sys (mk S (Some msg) d l n) true (ctl None None (ptx ++ msg) prx))
    (fun _ s' tr => goes_on (mem = None) s' tr).
Proof.
  intros Hs. unfold send_handler_done. wp_step. apply wp_o. wp_step. wp_step; [done|].
  destruct Hs as [|method ai E Ht Hl|p r Ha]; cbn [state value].
  - apply (wp_read_field _ _ _ _ _ _ _ 2 _ _ 2); [done | done | lia | constructor].
  - apply (wp_read_field _ _ _ _ _ _ _ 2 _ _ 2); [done | done | lia | by econstructor].
  - apply (wp_read_field _ _ _ _ _ _ _ 22 _ _ 4); [done | done | lia | by constructor].
Qed.

Lemma wrote_wp s k mem :
  phase s -> enabled (E_wrote k mem) s = true ->
  wp (deliver (E_wrote k mem)) s (fun _ s' tr => goes_on (mem = None) s' tr).
Proof.
  intros Hp. unfold enabled. destruct Hp as [|S ptx prx msg d l n p k' Hs H1 H2 H3| |]; try done.
  cbn [alive en send_op ctl andb]. rewrite andb_true_iff. intros [Hk1 Hk2].
  unfold deliver. do 2 wp_step. cbn [en send_op ctl]. wp_step. apply wp_bread; [lia|]. do 2 wp_step.
  unfold set_en. cbn [o alive en ctl connector con recv_async send_async sender recv_op tx rx].
  rewrite <- app_assoc, (mread_join msg 0 p p k (p + k)) by lia.
  destruct (Z.ltb_spec k k') as [Hlt|Hge].
  - wp_step. left. split; [|done]. apply (ph_sending S); [done | lia..].
  - replace (p + k) with (zlen msg) by lia. rewrite mread_all.
    eapply wp_mono; [by apply send_done_wp|]. done.
Qed.

Lemma connected_wp s is_error con_ok mem :
  config_ok -> phase s -> enabled (E_connected is_error con_ok mem) s = true ->
  wp (deliver (E_connected is_error con_ok mem)) s (fun _ s' tr =>
    goes_on (is_error = true \/ con_ok = false \/ mem = None \/ ~ 1 <= zlen auths <= 255) s' tr).
Proof.
  intros C Hp. unfold enabled. destruct Hp as [d l n| | |]; try done. intros _. unfold deliver. do 2 wp_step.
  eapply wp_mono; [by apply wp_connector_handler|]. intros u s' tr [(HF & HE & Hwhy)|[Hn HS]].
  - right. unfold gone. eauto.
  - eapply sends_or_fails_goes_on in HS as [?|(? & ? & ?)]; [by left | right; tauto | done | constructor].
Qed.

Lemma connection_wp s ev :
  phase s -> enabled (E_connection ev) s = true ->
  wp (deliver (E_connection ev)) s (fun _ s' tr => gone s' /\ handler_events tr =
    [if bool_decide (state (o s) = STATE_UP) && (ev =? BCONNECTION_EVENT_RECVCLOSED)
     then BSOCKSCLIENT_EVENT_ERROR_CLOSED else BSOCKSCLIENT_EVENT_ERROR]).
Proof.
  intros Hp. unfold enabled.
  assert (Hgo : forall S b d l n e ctx crx, env_of ctx crx S e -> S <> STATE_CONNECTING ->
    wp (deliver (E_connection ev)) (mk_sys (mk S b d l n) true e) (fun _ s' tr => gone s' /\ handler_events tr =
      [if bool_decide (S = STATE_UP) && (ev =? BCONNECTION_EVENT_RECVCLOSED)
       then BSOCKSCLIENT_EVENT_ERROR_CLOSED else BSOCKSCLIENT_EVENT_ERROR])).
  { intros S b d l n e ctx crx He HS. unfold deliver, connection_handler. do 2 wp_step. wp_step. apply wp_o.
    wp_step. wp_step; [by rewrite bool_decide_false|]. cbn [state].
    destruct (bool_decide (S = STATE_UP) && _);
      (eapply wp_mono; [by apply wp_report|]; intros _ s' tr [HF HE]; cbn [app];
       rewrite HE; split; [unfold gone; eauto | done]). }
  destruct Hp as [d l n|S ptx prx msg d l n p k Hs _ _ _|S ptx prx m dest total l Hr _ _|ctx crx d l n _]; intros He.
  - done.
  - destruct (sends_state _ _ _ _ Hs). eapply Hgo; [by constructor | done].
  - destruct (receives_bounds _ _ _ _ _ _ Hr) as (_ & _ & _ & ? & ?). eapply Hgo; [by constructor | done].
  - eapply Hgo; [constructor | done].
Qed.

(** What has to happen when all bytes received so far are [crx]. *)
Definition outcome (crx : list Z) (mem : alloc) (user_frees : bool) (s' : sys) (tr : list out) : Prop :=
  rx (en s') = crx /\
  match handshake crx with
  | V_more _ => goes_on (mem = None) s' tr
  | V_up _ rest => rest = [] /\ handler_events tr = [BSOCKSCLIENT_EVENT_UP] /\
      if user_frees then gone s' else phase s' /\ state (o s') = STATE_UP
  | V_reject _ => gone s' /\ handler_events tr = [BSOCKSCLIENT_EVENT_ERROR]
  end.

Lemma freed_gone ctx crx s : freed ctx crx s -> gone s /\ rx (en s) = crx.
Proof. intros HF. split; [by exists ctx, crx|]. destruct HF as [_ ->]. done. Qed.

Lemma sends_or_fails_rx mem S msg ptx prx s' tr : sends_or_fails mem S msg ptx prx s' tr -> rx (en s') = prx.
Proof. intros [(_ & HF & _)|(_ & d & l & n & ->)]; [apply (freed_gone _ _ _ HF) | done]. Qed.

Lemma report_outcome mem uf S b d l n ctx crx tx0 :
  S <> STATE_CONNECTING -> S <> STATE_UP -> handshake crx = V_reject tx0 ->
  wp (report_error BSOCKSCLIENT_EVENT_ERROR) (mk_sys (mk S b d l n) true (ctl None None ctx crx))
    (fun _ s' tr => outcome crx mem uf s' tr).
Proof.
  intros H1 H2 Hv. eapply wp_mono; [apply wp_report; by constructor|]. intros _ s' tr [HF HE].
  destruct (freed_gone _ _ _ HF). unfold outcome. by rewrite Hv.
Qed.

(** The request is sent once authentication is finished. *)
Lemma auth_finished_outcome mem uf S b d l n ptx prx :
  config_ok -> S <> STATE_CONNECTING -> S <> STATE_UP -> authed ptx prx ->
  wp (auth_finished mem) (mk_sys (mk S b d l n) true (ctl None None ptx prx))
    (fun _ s' tr => outcome prx mem uf s' tr).
Proof.
  intros C H1 H2 Ha. eapply wp_mono; [by apply wp_auth_finished|]. intros u s' tr HR. cbn beta in HR.
  split; [by eapply sends_or_fails_rx|].
  pose proof (handshake_authed _ _ [] Ha) as Hv. rewrite app_nil_r in Hv. rewrite Hv. cbn [request_phase].
  eapply sends_or_fails_goes_on; [done | by constructor | done].
Qed.

Lemma hello_outcome mem uf m d l n S :
  config_ok -> zlen m = 2 -> bytes_ok m -> S <> STATE_CONNECTING -> S <> STATE_UP ->
  wp (received_hello mem) (mk_sys (mk S (Some m) d l n) true (ctl None None hello m))
    (fun _ s' tr => outcome m mem uf s' tr).
Proof.
  intros C Hm Hb HS1 HS2. eapply wp_mono; [by apply wp_received_hello|]. intros u s' tr HR. cbn beta in HR.
  unfold hello_result in HR. unfold outcome.
  destruct m as [|ver [|method [|? ?]]]; try (exfalso; unfold zlen in Hm; cbn in Hm; lia).
  cbn [nth] in HR. destruct (handshake [ver; method]) as [full| |tx0] eqn:Eh; [|done|].
  - destruct HR as (S' & msg & HR & _ & HS'). split; [by eapply sends_or_fails_rx|].
    assert (ver = 5) as ->.
    { cbn [handshake] in Eh. destruct (Z.eqb_spec ver 5); [done|]. done. }
    destruct HS' as [(-> & ai & E & Ht & Hl & ->)|(-> & -> & ai & E & Ht)];
      (eapply sends_or_fails_goes_on; [done | | done]).
    + by apply sends_password.
    + apply sends_request. by eapply authed_none.
  - destruct HR as [HF HE]. by destruct (freed_gone _ _ _ HF).
Qed.

Lemma password_outcome mem uf m d l n S method ai :
  config_ok -> zlen m = 2 -> bytes_ok m -> S <> STATE_CONNECTING -> S <> STATE_UP ->
  find_auth auths method = Some ai -> auth_type ai = 2 -> lengths_ok ai = true ->
  wp (received_password_reply mem)
    (mk_sys (mk S (Some m) d l n) true (ctl None None (hello ++ password_packet ai) ([5; method] ++ m)))
    (fun _ s' tr => outcome ([5; method] ++ m) mem uf s' tr).
Proof.
  intros C Hm Hb HS1 HS2 E Ht Hl. unfold received_password_reply.
  destruct m as [|ver [|status [|? ?]]]; try (exfalso; unfold zlen in Hm; cbn in Hm; lia).
  pose proof (handshake_password method ai [ver; status] E Ht Hl) as Hv. cbn [password_phase] in Hv.
  wp_step. apply wp_bread; [lia|]. change (mread [ver; status] 0 1) with [ver]. cbn [nth].
  destruct (Z.eqb_spec ver 1) as [->|]; cbn [negb andb] in *; [|by eapply report_outcome].
  wp_step. apply wp_bread; [lia|]. change (mread [1; status] 1 1) with [status]. cbn [nth].
  destruct (Z.eqb_spec status 0) as [->|]; cbn [negb andb] in *; [|by eapply report_outcome].
  eapply wp_mono; [apply (auth_finished_outcome mem uf); try done; by apply (authed_password _ ai)|]. done.
Qed.

Lemma reply_header_outcome mem uf m d l n S ptx prx f :
  zlen m = 22 -> f = mread m 0 4 -> bytes_ok f -> S <> STATE_CONNECTING -> S <> STATE_UP ->
  authed ptx prx ->
  wp received_reply_header
    (mk_sys (mk S (Some m) d l n) true (ctl None None (ptx ++ request) (prx ++ f)))
    (fun _ s' tr => outcome (prx ++ f) mem uf s' tr).
Proof.
  intros Hm Hf Hb HS1 HS2 Ha. unfold received_reply_header. pose proof (handshake_authed _ _ f Ha) as Hv.
  assert (Hz : zlen f = 4) by (subst f; zl).
  wp_step. apply wp_bread; [unfold sizeof_socks_reply_header; lia|]. change sizeof_socks_reply_header with 4.
  rewrite <- Hf.
  destruct f as [|ver [|rep [|rsv [|atyp [|? ?]]]]]; try (exfalso; unfold zlen in Hz; cbn in Hz; lia).
  clear Hf Hz. unfold bytes_ok in Hb. rewrite !Forall_cons in Hb. destruct Hb as (B1 & B2 & _ & B4 & _).
  unfold byte_ok in B1, B2, B4. cbn [nth]. unfold ntoh8, hton8. rewrite !u8_id by lia.
  cbn [request_phase] in Hv. unfold SOCKS_VERSION, SOCKS_REP_SUCCEEDED, SOCKS_ATYP_IPV4, SOCKS_ATYP_IPV6.
  destruct (Z.eqb_spec ver 5) as [->|]; cbn [negb andb] in *; [|by eapply report_outcome].
  destruct (Z.eqb_spec rep 0) as [->|]; cbn [negb andb] in *; [|by eapply report_outcome].
  assert (Hgo : forall k, reply_len atyp = Some k -> 0 < k -> k <= 18 ->
    wp (start_receive 4 k ;; update (set_state STATE_RECEIVED_REPLY_HEADER))
      (mk_sys (mk S (Some m) d l n) true (ctl None None (ptx ++ request) (prx ++ [5; 0; rsv; atyp])))
      (fun _ s' tr => outcome (prx ++ [5; 0; rsv; atyp]) mem uf s' tr)).
  { intros k Hk H0 H18. wp_step. apply wp_start_receive; [lia|]. intros tr ->. apply sc_update.
    split; [done|]. rewrite Hv, Hk. change (zlen (@nil Z)) with 0. replace (0 <? k) with true by lia.
    left. split; [|done]. apply phase_receive. rewrite Hm. by apply receives_reply. }
  unfold reply_len in *. destruct (atyp =? 1); [by apply Hgo|]. destruct (atyp =? 4); [by apply Hgo|].
  by eapply report_outcome.
Qed.

Lemma reply_rest_outcome mem uf b d l n S ctx crx :
  S <> STATE_CONNECTING -> S <> STATE_UP -> handshake crx = V_up ctx [] ->
  wp (received_reply_rest uf) (mk_sys (mk S b d l n) true (ctl None None ctx crx))
    (fun _ s' tr => outcome crx mem uf s' tr).
Proof.
  intros HS1 HS2 Hv. unfold received_reply_rest, free_control_io, init_up_io.
  wp_step. eapply sc_call; [done|]. wp_step. apply sc_update.
  do 2 wp_step. eapply sc_call; [done|]. wp_step. eapply sc_call; [done|]. eapply sc_call; [done|].
  do 2 wp_step. eapply sc_call; [done|]. eapply sc_call; [done|]. wp_step. apply sc_update.
  wp_step. eapply sc_call; [done|].
  change (wp (when uf do BSocksClient_Free) (mk_sys (mk STATE_UP None d l n) true (up_env ctx crx))
    (fun _ s' tr => outcome crx mem uf s' ([Realloc; Sender_Free; SendAsync_Free; RecvAsync_Free;
       RecvAsync_Init; SendAsync_Init; Handler BSOCKSCLIENT_EVENT_UP] ++ tr))).
  unfold outcome. rewrite Hv. destruct uf.
  - eapply wp_mono; [apply wp_free; constructor|]. intros _ s' tr [HF HE].
    destruct (freed_gone _ _ _ HF). by rewrite handler_events_app, HE.
  - wp_step. split_and!; try done. by constructor.
Qed.

Lemma recv_wp s c mem uf :
  config_ok -> phase s -> enabled (E_recv c mem uf) s = true ->
  wp (deliver (E_recv c mem uf)) s (fun _ s' tr => outcome (rx (en s) ++ c) mem uf s' tr).
Proof.
  intros C Hp. unfold enabled. destruct Hp as [| |S ptx prx m dest total l Hr Hl Hb|]; try done.
  cbn [alive en recv_op ctl andb rx]. rewrite !andb_true_iff. intros [[Hc1 Hc2] Hc3].
  apply bool_decide_eq_true in Hc3. destruct (receives_bounds _ _ _ _ _ _ Hr) as (? & ? & ? & HS1 & HS2).
  unfold deliver. do 2 wp_step. cbn [en recv_op ctl]. wp_step. apply wp_bwrite; [lia|]. do 2 wp_step.
  unfold set_en. cbn [o alive en ctl connector con recv_async send_async sender send_op tx rx].
  set (m' := mwrite m (dest + l) c). assert (Hm' : zlen m' = zlen m) by (unfold m'; rewrite zlen_mwrite; lia).
  set (f := mread m' dest (l + zlen c)).
  assert (Hf : mread m dest l ++ c = f).
  { unfold f, m'. rewrite mread_split, mread_mwrite_before, mread_mwrite_same by lia. done. }
  rewrite <- app_assoc, Hf. rewrite <- Hm' in Hr.
  assert (Hfb : bytes_ok f) by (rewrite <- Hf; by apply Forall_app).
  assert (Hfl : zlen f = l + zlen c) by (unfold f; rewrite zlen_mread; lia).
  clearbody m'. clear Hf Hb.
  unfold recv_handler_done. wp_step. apply wp_o. cbn [recv_total recv_len recv_dest].
  wp_step. wp_step; [lia|]. wp_step. wp_step; [lia|]. wp_step. apply sc_update. wp_step. apply wp_o.
  unfold set_recv. cbn [state buffer recv_total recv_len recv_dest].
  destruct (Z.ltb_spec (l + zlen c) total) as [Hlt|Hge].
  - unfold do_receive. wp_step. apply wp_o. wp_step. wp_step; [cbn [recv_len recv_total]; lia|].
    unfold recv. cbn [recv_dest recv_len recv_total]. wp_step. apply wp_buffer. wp_step. wp_step; [lia|].
    eapply sc_call; [cbn; by replace (0 <? total - (l + zlen c)) with true by lia|].
    split; [done|]. rewrite (handshake_receives S ptx prx dest total (zlen m')) by (done || lia).
    left. split; [|done]. apply (ph_receiving S ptx prx m' dest total (l + zlen c)); (done || lia).
  - assert (Hlen : l + zlen c = total) by lia. rewrite Hlen in *.
    assert (Ef : f = mread m' dest total) by (unfold f; by rewrite Hlen). clearbody f.
    remember (zlen m') as size eqn:Hsize. symmetry in Hsize.
    destruct Hr as [| method ai E Ht Hlo | p r Ha | p r rsv atyp k Ha Hk].
    + assert (f = m') as -> by (rewrite Ef, <- Hsize; apply mread_all).
      eapply wp_mono; [by apply (hello_outcome mem uf)|]. done.
    + assert (f = m') as -> by (rewrite Ef, <- Hsize; apply mread_all).
      eapply wp_mono; [by apply (password_outcome mem uf _ _ _ _ _ method ai)|]. done.
    + eapply wp_mono; [by apply (reply_header_outcome mem uf)|]. done.
    + eapply wp_mono; [apply (reply_rest_outcome mem uf); [done | done|]|done].
      rewrite <- app_assoc, (handshake_authed p) by done. cbn [request_phase app].
      change ((5 =? 5) && (0 =? 0)) with true. cbn iota. rewrite Hk, Hfl.
      replace (k <? k) with false by lia. do 2 f_equal. unfold zlen in Hfl. rewrite drop_ge; [done | lia].
Qed.

Lemma phase_alive s : phase s -> alive s = true.
Proof. by intros []. Qed.

Lemma deliver_good_wp s ev :
  config_ok -> phase s -> enabled ev s = true ->
  wp (deliver ev) s (fun _ s' _ => phase s' \/ gone s').
Proof.
  intros C Hp He. destruct ev as [is_error con_ok mem|ev|k mem|c mem uf|].
  - eapply wp_mono; [by apply connected_wp|]. intros u s' tr [[? _]|(_ & ? & _)]; tauto.
  - eapply wp_mono; [by apply connection_wp|]. intros u s' tr [? _]. by right.
  - eapply wp_mono; [by apply wrote_wp|]. intros u s' tr [[? _]|(_ & ? & _)]; tauto.
  - eapply wp_mono; [by apply recv_wp|]. intros u s' tr [_ HO].
    destruct (handshake _); [destruct HO as [[? _]|(_ & ? & _)] | destruct uf | ]; tauto.
  - unfold deliver. do 2 wp_step. eapply wp_mono; [by apply phase_free_wp|].
    intros u s' tr [HF _]. right. by eexists _, _.
Qed.

Section Runs.
Context (server_addr : BAddr) (connector_ok : bool) (o0 : t) (evs : list event).
Context (Hserver : BAddr_IsInvalid server_addr = false) (C : config_ok).

Lemma init_wp :
  wp (BSocksClient_Init server_addr connector_ok) (mk_sys o0 false env_none) (fun _ s _ => phase s \/ gone s).
Proof.
  unfold BSocksClient_Init. wp_step. wp_step; [by rewrite Hserver|].
  wp_step. wp_step; [destruct C as [_ _ [-> | ->]]; done|].
  wp_step. wp_step.
  { apply forallb_forall. intros ai Hin. apply list_elem_of_In in Hin.
    pose proof (cfg_auths C) as Ha. rewrite Forall_forall in Ha.
    destruct (Ha ai Hin) as [-> | [-> _]]; done. }
  do 2 wp_step. destruct connector_ok; cbn [negb].
  - wp_step. eapply sc_call; [done|]. wp_step. apply sc_update. wp_step. left. apply ph_connecting.
  - do 2 wp_step. wp_step. right. by exists [], [].
Qed.

Lemma run_phase : exists s, run server_addr connector_ok o0 evs = Some s /\ (phase s \/ gone s).
Proof.
  unfold run. destruct (wp_ok _ _ _ init_wp) as (x & s & tr & -> & HG). clear x tr. revert s HG.
  induction evs as [|ev evs' IH]; intros s HG; cbn [run_events]; [eauto|].
  destruct (enabled ev s) eqn:E; [|eauto]. destruct HG as [Hp|(c1 & c2 & Ha & _)].
  - destruct (wp_ok _ _ _ (deliver_good_wp s ev C Hp E)) as (x & s' & tr & -> & HG). by apply IH.
  - unfold enabled in E. by rewrite Ha in E.
Qed.

Lemma run_phase_of s : run server_addr connector_ok o0 evs = Some s -> alive s = true -> phase s.
Proof.
  intros E Ha. destruct run_phase as (s' & E' & HG). simplify_eq.
  destruct HG as [?|(c1 & c2 & Hd & _)]; [done | congruence].
Qed.

(** C34. For every server, every chunking of the bytes, every outcome of
    connecting and of memory allocation, and whenever the user frees the client:
    no handler fails an assertion, accesses memory outside the buffer, uses the
    client after an error was reported, or breaks the protocol of an interface.
    While the handshake runs exactly one operation is in progress, so it never
    stalls, and a freed client leaves no connection and no operation behind. *)
Theorem socks_client_safe :
  exists s, run server_addr connector_ok o0 evs = Some s /\
    if alive s then
      connector (en s) = true /\ con (en s) = negb (bool_decide (state (o s) = STATE_CONNECTING)) /\
      (state (o s) <> STATE_CONNECTING -> state (o s) <> STATE_UP ->
         (is_Some (send_op (en s)) /\ recv_op (en s) = None) \/
         (send_op (en s) = None /\ is_Some (recv_op (en s))))
    else
      connector (en s) = false /\ con (en s) = false /\ recv_async (en s) = false /\
      send_async (en s) = false /\ sender (en s) = false /\
      send_op (en s) = None /\ recv_op (en s) = None.
Proof.
  destruct run_phase as (s & E & HG). exists s. split; [done|].
  destruct HG as [Hp|(c1 & c2 & -> & ->)]; [|done]. rewrite (phase_alive s Hp).
  destruct Hp as [d l n|S ptx prx msg d l n p k Hs _ _ _|S ptx prx m dest total l Hr _ _|ctx crx d l n _];
    cbn; split_and!; try done.
  - by destruct (sends_state _ _ _ _ Hs), S.
  - intros _ _. left. split; [by eexists | done].
  - destruct (receives_bounds _ _ _ _ _ _ Hr) as (_ & _ & _ & ? & ?). by destruct S.
  - intros _ _. right. split; [done | by eexists].
Qed.

(** C5. The client follows the SOCKS5 protocol: at every moment the bytes it has
    sent are a prefix of what the protocol prescribes after the bytes received
    so far (hello, password packet if chosen, request), all of it once nothing is
    being sent; and it is up exactly when the received bytes are a complete
    successful handshake, of which no byte was left and none belonging to the
    user's stream was taken. *)
Theorem socks_handshake_state (s : sys) (Hrun : run server_addr connector_ok o0 evs = Some s)
    (Ha : alive s = true) :
  match state (o s) with
  | STATE_CONNECTING => tx (en s) = [] /\ rx (en s) = []
  | STATE_UP => handshake (rx (en s)) = V_up (tx (en s)) []
  | _ => exists full, handshake (rx (en s)) = V_more full /\ tx (en s) `prefix_of` full /\
           (send_op (en s) = None -> tx (en s) = full)
  end.
Proof.
  destruct (run_phase_of s Hrun Ha) as
    [d l n|S ptx prx msg d l n p k Hs H1 H2 H3|S ptx prx m dest total l Hr Hl _|ctx crx d l n Hv]; cbn; try done.
  - pose proof (handshake_sends _ _ _ _ Hs) as Hv. destruct (sends_state _ _ _ _ Hs).
    assert (HX : exists full, handshake prx = V_more full /\ (ptx ++ mread msg 0 p) `prefix_of` full /\
      (Some (p, k) = None -> ptx ++ mread msg 0 p = full)); [|by destruct S].
    exists (ptx ++ msg). split_and!; [done | | done].
    apply prefix_app. exists (mread msg p k).
    by rewrite (mread_join msg 0 p p k (zlen msg)), mread_all by lia.
  - destruct (receives_bounds _ _ _ _ _ _ Hr) as (? & ? & ? & ? & ?).
    assert (HX : exists full, handshake (prx ++ mread m dest l) = V_more full /\ ptx `prefix_of` full /\
      (@None (Z * Z) = None -> ptx = full)); [|by destruct S].
    exists ptx. split_and!; [|done|done]. eapply handshake_receives; [exact Hr|]. rewrite zlen_mread; lia.
Qed.

(** When bytes arrive and memory is available, the client does what the
    bytes received so far demand: it goes on silently while the handshake is
    incomplete, reports "up" when it is complete and acceptable, and otherwise
    reports an error, after which nothing is left of it. *)
Theorem socks_handshake_verdict (s : sys) (c : list Z) (fill : nat -> Z) (user_frees : bool)
    (Hrun : run server_addr connector_ok o0 evs = Some s)
    (He : enabled (E_recv c (Some fill) user_frees) s = true) :
  exists s' tr, deliver (E_recv c (Some fill) user_frees) s = Ok tt s' tr /\
    rx (en s') = rx (en s) ++ c /\
    match handshake (rx (en s) ++ c) with
    | V_more _ => handler_events tr = [] /\ alive s' = true
    | V_up _ rest => rest = [] /\ handler_events tr = [BSOCKSCLIENT_EVENT_UP] /\
        (user_frees = false -> alive s' = true /\ state (o s') = STATE_UP)
    | V_reject _ => handler_events tr = [BSOCKSCLIENT_EVENT_ERROR] /\ alive s' = false
    end.
Proof.
  assert (Ha : alive s = true) by (unfold enabled in He; by destruct (alive s)).
  pose proof (run_phase_of s Hrun Ha) as Hp.
  destruct (wp_ok _ _ _ (recv_wp s c (Some fill) user_frees C Hp He)) as ([] & s' & tr & -> & Hrx & HO).
  exists s', tr. split_and!; [done..|]. destruct (handshake _).
  - destruct HO as [[Hp' HE]|(? & _)]; [|done]. by rewrite (phase_alive _ Hp').
  - destruct HO as (Hrest & HE & HO). split_and!; [done..|]. intros ->. destruct HO as [Hp' ?].
    by rewrite (phase_alive _ Hp').
  - destruct HO as [(c1 & c2 & Hd & _) HE]. by rewrite Hd.
Qed.
End Runs.

End Client.

(** ** A concrete handshake

    The client offers no authentication and password "ab"/"c"; the server chooses
    the password and accepts, in chunks of odd sizes. *)

Definition auths_demo : list auth_info :=
  [BSocksClient_auth_none; BSocksClient_auth_password [97; 98] 2 [99] 1].
Definition dest_demo : BAddr := BADDR_IPV4 67305985 20480.
Definition server_demo : BAddr := BADDR_IPV4 16777343 14340.
Definition o_demo : t := mk STATE_UP None 0 0 0.
Definition mem_demo : alloc := Some (fun _ => 0).
Definition evs_demo : list event :=
  [ E_connected false true mem_demo; E_wrote 3 mem_demo; E_wrote 1 mem_demo;
    E_recv [5] mem_demo false; E_recv [2] mem_demo false; E_wrote 6 mem_demo;
    E_recv [1; 0] mem_demo false; E_wrote 10 mem_demo; E_recv [5; 0; 0] mem_demo false;
    E_recv [1] mem_demo false; E_recv [127; 0; 0; 1] mem_demo false ].

Lemma config_demo : config_ok auths_demo dest_demo.
Proof.
  split; [|cbn; lia|by left].
  apply Forall_cons_2; [by left|]. apply Forall_cons_2; [|constructor]. right. split_and!; vm_compute; congruence.
Qed.

Definition s_demo : sys :=
  Eval vm_compute in
    default (mk_sys o_demo false env_none) (run auths_demo dest_demo server_demo true o_demo evs_demo).

Lemma socks_run_demo : run auths_demo dest_demo server_demo true o_demo evs_demo = Some s_demo.
Proof. vm_compute. reflexivity. Qed.

Example demo_tx :
  tx (en s_demo) = [5; 2; 0; 2] ++ [1; 2; 97; 98; 1; 99] ++ [5; 1; 0; 1; 1; 2; 3; 4; 0; 80].
Proof. vm_compute. reflexivity. Qed.

Lemma socks_client_safe_witness :
  exists s, run auths_demo dest_demo server_demo true o_demo evs_demo = Some s /\
    if alive s then
      connector (en s) = true /\ con (en s) = negb (bool_decide (state (o s) = STATE_CONNECTING)) /\
      (state (o s) <> STATE_CONNECTING -> state (o s) <> STATE_UP ->
         (is_Some (send_op (en s)) /\ recv_op (en s) = None) \/
         (send_op (en s) = None /\ is_Some (recv_op (en s))))
    else
      connector (en s) = false /\ con (en s) = false /\ recv_async (en s) = false /\
      send_async (en s) = false /\ sender (en s) = false /\
      send_op (en s) = None /\ recv_op (en s) = None.
Proof.
  apply (socks_client_safe auths_demo dest_demo server_demo true o_demo evs_demo);
    [reflexivity | apply config_demo].
Defined.

Lemma socks_handshake_state_witness :
  exists full, handshake auths_demo dest_demo (rx (en s_demo)) = V_more full /\
    tx (en s_demo) `prefix_of` full /\ (send_op (en s_demo) = None -> tx (en s_demo) = full).
Proof.
  apply (socks_handshake_state auths_demo dest_demo server_demo true o_demo evs_demo) with (s := s_demo);
    [reflexivity | apply config_demo | apply socks_run_demo | reflexivity].
Defined.

Lemma socks_handshake_verdict_witness :
  exists s' tr, deliver auths_demo dest_demo (E_recv [4; 57] mem_demo false) s_demo = Ok tt s' tr /\
    rx (en s') = rx (en s_demo) ++ [4; 57] /\
    match handshake auths_demo dest_demo (rx (en s_demo) ++ [4; 57]) with
    | V_more _ => handler_events tr = [] /\ alive s' = true
    | V_up _ rest => rest = [] /\ handler_events tr = [BSOCKSCLIENT_EVENT_UP] /\
        (false = false -> alive s' = true /\ state (o s') = STATE_UP)
    | V_reject _ => handler_events tr = [BSOCKSCLIENT_EVENT_ERROR] /\ alive s' = false
    end.
Proof.
  apply (socks_handshake_verdict auths_demo dest_demo server_demo true o_demo evs_demo);
    [reflexivity | apply config_demo | apply socks_run_demo | reflexivity].
Defined.

End BSocksClient.
