(* ===== verification/SearchTree.v ===== *)
(** * SearchTree: what the program expects of its intrusive collections

    The components of the program keep their objects in intrusive search trees
    ([BAVL], [badvpn/structure/BAVL.h]): nodes embedded in the objects, compared
    by a key inside the object.  The class [SearchTree] states the contract the
    users of these trees rely on; their theorems are proved against it.

    A tree holds nodes (addresses), each with the key its object had when it was
    inserted; the contract says nothing about a node whose key changes while it is
    in the tree, so a user has to keep the keys of its objects unchanged, and this
    shows in its invariant.  [sorted_list] is a simple implementation: an
    association list ordered by the comparator.  Linked lists of objects are lists
    of their addresses. *)

From Stdlib Require Export Sorting.Sorted.
From S2P Require Import Prelude.

Lemma NoDup_fmap_filter {A B} (f : A -> B) (P : A -> Prop) `{!forall x, Decision (P x)} (l : list A) :
  NoDup (f <$> l) -> NoDup (f <$> filter P l).
Proof.
  induction l as [|x l IH]; [done|]. rewrite fmap_cons, filter_cons. intros [Hn Hnd]%NoDup_cons.
  destruct (decide (P x)); [|by apply IH]. rewrite fmap_cons. constructor; [|by apply IH].
  intros (y & E & [_ Hy]%list_elem_of_filter)%list_elem_of_fmap. destruct Hn. rewrite E. by apply list_elem_of_fmap_2.
Qed.

(** ** Doubly linked lists

    A list of objects ([LinkedList1], [badvpn/structure/LinkedList1.h]) holds
    every object at most once, so removing a node is removing its address. *)

Definition list_remove (p : Z) (l : list Z) : list Z := filter (fun q => q <> p) l.

Lemma list_remove_notin p l : p ∉ l -> list_remove p l = l.
Proof.
  unfold list_remove. induction l as [|x l IH]; [done|]. intros [Hx Hl]%not_elem_of_cons.
  rewrite filter_cons_True by done. by rewrite IH.
Qed.

Lemma list_remove_split p l1 l2 : NoDup (l1 ++ p :: l2) -> list_remove p (l1 ++ p :: l2) = l1 ++ l2.
Proof.
  intros (_ & Hd & [Hn _]%NoDup_cons)%NoDup_app. unfold list_remove.
  rewrite filter_app, filter_cons_False by (intros ?; done). f_equal; apply list_remove_notin; [|done].
  intros Hp. destruct (Hd p Hp). by left.
Qed.

Lemma list_remove_head p l : NoDup (p :: l) -> list_remove p (p :: l) = l.
Proof. apply (list_remove_split p [] l). Qed.

Lemma elem_of_list_remove p q l : q ∈ list_remove p l <-> q <> p /\ q ∈ l.
Proof. unfold list_remove. by rewrite list_elem_of_filter. Qed.

Lemma NoDup_list_remove p l : NoDup l -> NoDup (list_remove p l).
Proof. apply NoDup_filter. Qed.

Lemma zlen_list_remove p l : NoDup l -> p ∈ l -> zlen (list_remove p l) = zlen l - 1.
Proof.
  intros Hnd (l1 & l2 & ->)%list_elem_of_split. rewrite list_remove_split by done. rewrite !zlen_app, zlen_cons. lia.
Qed.

Lemma fmap_ext_in {A B} (f g : A -> B) (l : list A) : (forall x, x ∈ l -> f x = g x) -> f <$> l = g <$> l.
Proof.
  induction l as [|x l IH]; intros H; [done|]. rewrite !fmap_cons. f_equal; [apply H; by left|].
  apply IH. intros y Hy. apply H. by right.
Qed.

(** Changing one object does not change what is read from the others. *)
Lemma fmap_insert_ne {V B} `{Inhabited V} (f : Z -> V -> B) (h : gmap Z V) p v (l : list Z) :
  p ∉ l -> (fun q => f q (<[p := v]> h !!! q)) <$> l = (fun q => f q (h !!! q)) <$> l.
Proof.
  intros Hp. apply fmap_ext_in. intros q Hq. f_equal. apply lookup_total_insert_ne. by intros ->.
Qed.

Lemma fmap_delete_ne {V B} `{Inhabited V} (f : Z -> V -> B) (h : gmap Z V) p (l : list Z) :
  p ∉ l -> (fun q => f q (delete p h !!! q)) <$> l = (fun q => f q (h !!! q)) <$> l.
Proof.
  intros Hp. apply fmap_ext_in. intros q Hq. f_equal. apply lookup_total_delete_ne. by intros ->.
Qed.

(** ** Orders of keys *)

(** The comparator of a tree orders the valid keys ([ok]) and gives -1, 0 or 1. *)
Record key_order {K} (ok : K -> Prop) (cmp : K -> K -> Z) : Prop := mk_key_order {
  ko_range x y : ok x -> ok y -> cmp x y = -1 \/ cmp x y = 0 \/ cmp x y = 1;
  ko_opp x y : ok x -> ok y -> cmp x y = - cmp y x;
  ko_eq x y : ok x -> ok y -> (cmp x y = 0 <-> x = y);
  ko_trans x y z : ok x -> ok y -> ok z -> cmp x y = -1 -> cmp y z = -1 -> cmp x z = -1;
}.

(** Two orders one after the other: pairs that are compared by [f] first. *)
Lemma key_order_pair {A B K} (okA : A -> Prop) (okB : B -> Prop) (ok : K -> Prop) ca cb (f : K -> A) (g : K -> B) :
  key_order okA ca -> key_order okB cb ->
  (forall x, ok x -> okA (f x) /\ okB (g x)) -> (forall x y, f x = f y -> g x = g y -> x = y) ->
  key_order ok (fun x y => let c := ca (f x) (f y) in if negb (c =? 0) then c else cb (g x) (g y)).
Proof.
  intros OA OB Hok Hinj.
  assert (EA : forall x y, ok x -> ok y -> ca (f x) (f y) = 0 -> f x = f y).
  { intros x y [Hx _]%Hok [Hy _]%Hok. by apply (ko_eq _ _ OA). }
  assert (RA : forall x, ok x -> ca (f x) (f x) = 0) by (intros x [Hx _]%Hok; by apply (ko_eq _ _ OA)).
  split.
  - intros x y [Hx Hx']%Hok [Hy Hy']%Hok. cbv zeta. destruct (_ =? 0); [by apply (ko_range _ _ OB) | by apply (ko_range _ _ OA)].
  - intros x y [Hx Hx']%Hok [Hy Hy']%Hok. cbv zeta. pose proof (ko_opp _ _ OA _ _ Hx Hy) as E.
    destruct (Z.eqb_spec (ca (f x) (f y)) 0), (Z.eqb_spec (ca (f y) (f x)) 0); cbn [negb]; try lia. by apply (ko_opp _ _ OB).
  - intros x y Hx Hy. cbv zeta. destruct (Z.eqb_spec (ca (f x) (f y)) 0) as [E|E]; cbn [negb].
    + rewrite (ko_eq _ _ OB) by (by apply Hok). split; [|by intros ->]. intros E'. apply Hinj; [by apply EA | done].
    + split; [done|]. intros ->. by rewrite RA in E.
  - intros x y z Hx Hy Hz. cbv zeta.
    destruct (Z.eqb_spec (ca (f x) (f y)) 0) as [E1|E1]; cbn [negb]; [|destruct (Z.eqb_spec (ca (f y) (f z)) 0) as [E2|E2]; cbn [negb]].
    + rewrite <- (EA _ _ Hx Hy E1). destruct (ca (f x) (f z) =? 0); cbn [negb]; [apply (ko_trans _ _ OB); by apply Hok | done].
    + intros H1 _. rewrite <- (EA _ _ Hy Hz E2), H1. done.
    + intros H1 H2. rewrite (ko_trans _ _ OA _ (f y)); [done | by apply Hok.. | done | done].
Qed.

(** ** Search trees *)

Class SearchTree {K : Type} (ok : K -> Prop) (cmp : K -> K -> Z) := {
  tree : Type;
  t_empty : tree;
  t_lookup : K -> tree -> option Z;              (** [BAVL_LookupExact] *)
  t_insert : K -> Z -> tree -> option tree;      (** [BAVL_Insert]; [None]: the key is there *)
  t_remove : Z -> tree -> tree;                  (** [BAVL_Remove] *)
  t_rep : tree -> list (K * Z) -> Prop;
  t_rep_perm t l l' : l ≡ₚ l' -> t_rep t l -> t_rep t l';
  t_rep_wf t l : t_rep t l -> NoDup l.*1 /\ NoDup l.*2 /\ Forall ok l.*1;
  t_empty_rep : t_rep t_empty [];
  t_lookup_rep t l k p : t_rep t l -> ok k -> (t_lookup k t = Some p <-> (k, p) ∈ l);
  t_insert_rep t l k p :
    t_rep t l -> ok k -> k ∉ l.*1 -> p ∉ l.*2 -> exists t', t_insert k p t = Some t' /\ t_rep t' ((k, p) :: l);
  t_remove_rep t l p : t_rep t l -> p ∈ l.*2 -> t_rep (t_remove p t) (filter (fun e => e.2 <> p) l);
}.

(** The comparator separates valid keys. *)
Class Separates {K : Type} (ok : K -> Prop) (cmp : K -> K -> Z) :=
  separates k k' : ok k -> ok k' -> (cmp k k' = 0 <-> k = k').

Section Laws.
Context {K : Type} {ok : K -> Prop} {cmp : K -> K -> Z} {ST : SearchTree ok cmp}.

Lemma t_lookup_none t l k : t_rep t l -> ok k -> (t_lookup k t = None <-> k ∉ l.*1).
Proof.
  intros R Hk. split.
  - intros E ([k' p] & Hke & Hin)%list_elem_of_fmap. cbn in Hke. subst k'.
    apply (t_lookup_rep _ _ k p R Hk) in Hin. congruence.
  - intros Hn. destruct (t_lookup k t) as [p|] eqn:E; [|done].
    apply (t_lookup_rep _ _ _ _ R Hk) in E. destruct Hn. by apply (list_elem_of_fmap_2 fst _ (k, p)).
Qed.
Lemma t_remove_keys (f : Z -> K) l t p :
  t_rep t ((fun q => (f q, q)) <$> l) -> p ∈ l -> t_rep (t_remove p t) (filter (fun e => e.2 <> p) ((fun q => (f q, q)) <$> l)).
Proof. intros R Hp. apply t_remove_rep; [done|]. rewrite <- list_fmap_compose. cbn. by rewrite list_fmap_id. Qed.
End Laws.

(** Looking up by a key finds the object that has it: [f] is the key of an object. *)
Lemma lookup_key {K} (ok : K -> Prop) (cmp : K -> K -> Z) {T : SearchTree ok cmp} (f : Z -> K) l t k p :
  t_rep t ((fun p => (f p, p)) <$> l) -> ok k -> (t_lookup k t = Some p <-> p ∈ l /\ f p = k).
Proof.
  intros R Hk. rewrite (t_lookup_rep _ _ _ _ R Hk), list_elem_of_fmap. split.
  - intros (q & [= -> ->] & Hq). done.
  - intros [Hp <-]. by exists p.
Qed.

Lemma lookup_key_none {K} (ok : K -> Prop) (cmp : K -> K -> Z) {T : SearchTree ok cmp} (f : Z -> K) l t k :
  t_rep t ((fun p => (f p, p)) <$> l) -> ok k -> (t_lookup k t = None <-> k ∉ f <$> l).
Proof.
  intros R Hk. rewrite (t_lookup_none _ _ _ R Hk), <- list_fmap_compose. done.
Qed.

Lemma filter_keys {K} (f : Z -> K) (p : Z) (l : list Z) :
  filter (fun e : K * Z => e.2 <> p) ((fun q => (f q, q)) <$> l) = (fun q => (f q, q)) <$> list_remove p l.
Proof.
  unfold list_remove. induction l as [|x l IH]; [done|]. rewrite fmap_cons, !filter_cons. cbn.
  destruct (decide (x <> p)); [by rewrite fmap_cons, IH | done].
Qed.

Lemma zlen_fmap {A B} (f : A -> B) (l : list A) : zlen (f <$> l) = zlen l.
Proof. unfold zlen. by rewrite length_fmap. Qed.

(** ** A simple implementation *)

Module SortedList.
Section Impl.
Context {K : Type} (ok : K -> Prop) (cmp : K -> K -> Z) {S : Separates ok cmp}.

Definition tree : Type := list (K * Z).

Fixpoint lookup (k : K) (t : tree) : option Z :=
  match t with
  | [] => None
  | (k', p) :: t' => if cmp k k' =? 0 then Some p else lookup k t'
  end.

(** Insertion before the first greater key. *)
Fixpoint insert_sorted (k : K) (p : Z) (t : tree) : tree :=
  match t with
  | [] => [(k, p)]
  | (k', p') :: t' => if cmp k k' <? 0 then (k, p) :: t else (k', p') :: insert_sorted k p t'
  end.

Definition insert (k : K) (p : Z) (t : tree) : option tree :=
  match lookup k t with Some _ => None | None => Some (insert_sorted k p t) end.

Definition remove (p : Z) (t : tree) : tree := filter (fun e => e.2 <> p) t.

Definition rep (t : tree) (l : list (K * Z)) : Prop :=
  t ≡ₚ l /\ NoDup l.*1 /\ NoDup l.*2 /\ Forall ok l.*1.

Lemma insert_sorted_perm k p t : insert_sorted k p t ≡ₚ (k, p) :: t.
Proof.
  induction t as [|[k' p'] t IH]; cbn; [done|]. destruct (cmp k k' <? 0); [done|].
  rewrite IH. constructor.
Qed.

Lemma lookup_spec t k p :
  NoDup t.*1 -> Forall ok t.*1 -> ok k -> (lookup k t = Some p <-> (k, p) ∈ t).
Proof.
  induction t as [|[k' p'] t IH]; cbn; intros Hnd Hok Hk.
  - split; [done|]. by intros ?%elem_of_nil.
  - apply NoDup_cons in Hnd as [Hn Hnd]. apply Forall_cons in Hok as [Hk' Hok]. rewrite elem_of_cons.
    destruct (Z.eqb_spec (cmp k k') 0) as [E|E].
    + apply separates in E as ->; [|done..]. split; [intros [= ->]; by left|].
      intros [[= ->]|Hin]; [done|]. destruct Hn. by apply (list_elem_of_fmap_2 fst _ (k', p)).
    + rewrite IH by done. split; [by right|]. intros [[= -> ->]|?]; [|done].
      destruct E. by apply separates.
Qed.

Lemma rep_perm t l l' : l ≡ₚ l' -> rep t l -> rep t l'.
Proof. intros Hp (H1 & H2 & H3 & H4). unfold rep. rewrite <- Hp. done. Qed.

Lemma rep_wf t l : rep t l -> NoDup l.*1 /\ NoDup l.*2 /\ Forall ok l.*1.
Proof. by intros (_ & ? & ? & ?). Qed.

Lemma empty_rep : rep [] [].
Proof. unfold rep. cbn. split_and!; constructor. Qed.

Lemma lookup_rep t l k p : rep t l -> ok k -> (lookup k t = Some p <-> (k, p) ∈ l).
Proof. intros (Hp & H1 & H2 & H3) Hk. rewrite <- Hp. apply lookup_spec; by rewrite ?Hp. Qed.

Lemma insert_rep t l k p :
  rep t l -> ok k -> k ∉ l.*1 -> p ∉ l.*2 -> exists t', insert k p t = Some t' /\ rep t' ((k, p) :: l).
Proof.
  intros R Hk Hn Hpn. unfold insert. destruct (lookup k t) as [q|] eqn:E.
  - apply (lookup_rep _ _ _ _ R Hk) in E. destruct Hn. by apply (list_elem_of_fmap_2 fst _ (k, q)).
  - destruct R as (Hp & H1 & H2 & H3). eexists. split; [done|]. unfold rep. rewrite insert_sorted_perm, Hp. cbn.
    split_and!; try constructor; done.
Qed.

Lemma remove_rep t l p : rep t l -> p ∈ l.*2 -> rep (remove p t) (filter (fun e => e.2 <> p) l).
Proof.
  intros (Hp & H1 & H2 & H3) _. unfold rep, remove. split_and!.
  - by rewrite Hp.
  - by apply NoDup_fmap_filter.
  - by apply NoDup_fmap_filter.
  - rewrite Forall_fmap in *. apply Forall_forall. intros e [_ He]%list_elem_of_filter.
    by apply (proj1 (Forall_forall _ _) H3).
Qed.

#[export] Instance sorted_list : SearchTree ok cmp := {|
  SearchTree.tree := tree; t_empty := []; t_lookup := lookup; t_insert := insert; t_remove := remove; t_rep := rep;
  t_rep_perm := rep_perm; t_rep_wf := rep_wf; t_empty_rep := empty_rep; t_lookup_rep := lookup_rep;
  t_insert_rep := insert_rep; t_remove_rep := remove_rep |}.
End Impl.
End SortedList.

(** ** Trees ordered by what is in the objects

    A tree without keys ([SAvl] with [SAVL_PARAM_FEATURE_NOKEYS]) compares objects;
    [cmp] reads them from the memory as it is at the call.  The objects may change
    while they are in the tree if their order stays the same.  [et_list] is the
    in-order sequence of the tree's objects. *)

Record total_cmp (cmp : Z -> Z -> Z) : Prop := mk_total_cmp {
  tc_eq x y : cmp x y = 0 <-> x = y;
  tc_opp x y : cmp x y < 0 <-> 0 < cmp y x;
  tc_trans x y z : cmp x y < 0 -> cmp y z < 0 -> cmp x z < 0;
}.

(** An order by a number, then by address. *)
Lemma total_cmp_by (key : Z -> Z) cmp :
  (forall x y, cmp x y < 0 <-> key x < key y \/ (key x = key y /\ x < y)) -> (forall x y, cmp x y = 0 <-> x = y) -> total_cmp cmp.
Proof.
  intros Hlt Heq. split; [done | |].
  - intros x y. rewrite Hlt. pose proof (Hlt y x) as Hn. pose proof (Heq y x) as He. split.
    + intros H. assert (y <> x) by (intros ->; lia). lia.
    + intros H. assert (y <> x) by (intros ->; lia). lia.
  - intros x y z. rewrite !Hlt. lia.
Qed.

Definition ordered (cmp : Z -> Z -> Z) (l : list Z) : Prop := StronglySorted (fun x y => cmp x y < 0) l.

Class EntryTree := {
  etree : Type;
  et_empty : etree;
  et_first : etree -> option Z;                                (** [GetFirst] *)
  et_insert : (Z -> Z -> Z) -> Z -> etree -> option etree;     (** [Insert] *)
  et_remove : Z -> etree -> etree;                             (** [Remove] *)
  et_list : etree -> list Z;
  et_empty_list : et_list et_empty = [];
  et_first_list t : et_first t = head (et_list t);
  et_insert_list cmp p t :
    total_cmp cmp -> ordered cmp (et_list t) -> p ∉ et_list t ->
    exists t', et_insert cmp p t = Some t' /\ et_list t' ≡ₚ p :: et_list t /\ ordered cmp (et_list t');
  et_remove_list p t : NoDup (et_list t) -> et_list (et_remove p t) = list_remove p (et_list t);
}.

Lemma ordered_filter cmp (P : Z -> Prop) `{!forall x, Decision (P x)} l : ordered cmp l -> ordered cmp (filter P l).
Proof.
  unfold ordered. induction 1 as [|x l Hs IH Hf]; [constructor|]. rewrite filter_cons.
  destruct (decide (P x)); [|done]. constructor; [done|]. rewrite Forall_forall in *. intros y [_ Hy]%list_elem_of_filter. by apply Hf.
Qed.

Lemma ordered_app cmp l k :
  ordered cmp (l ++ k) <-> ordered cmp l /\ ordered cmp k /\ forall x y, x ∈ l -> y ∈ k -> cmp x y < 0.
Proof.
  unfold ordered. induction l as [|x l IH]; cbn [app].
  - split; [|naive_solver]. intros H. split_and!; [constructor | done | by intros x y ?%elem_of_nil].
  - split.
    + intros [H Hf]%StronglySorted_inv. apply IH in H as (H1 & H2 & H3). apply Forall_app in Hf as [Hf1 Hf2].
      split_and!; [by constructor | done |]. intros y z [->|Hy]%elem_of_cons Hz; [|by apply H3].
      rewrite Forall_forall in Hf2. by apply Hf2.
    + intros ([H Hf]%StronglySorted_inv & H2 & H3). constructor.
      * apply IH. split_and!; try done. intros y z Hy Hz. apply H3; [by right | done].
      * apply Forall_app. split; [done|]. rewrite Forall_forall. intros z Hz. apply H3; [by left | done].
Qed.

(** The order of the objects is the same if the comparisons are. *)
Lemma ordered_ext cmp cmp' l :
  (forall x y, x ∈ l -> y ∈ l -> cmp x y < 0 -> cmp' x y < 0) -> ordered cmp l -> ordered cmp' l.
Proof.
  unfold ordered. intros He Hs. induction Hs as [|x l Hs IH Hf]; constructor.
  - apply IH. intros y z Hy Hz. apply He; by right.
  - rewrite Forall_forall in *. intros y Hy. apply He; [by left | by right | by apply Hf].
Qed.

Module EntryList.
Fixpoint insert (cmp : Z -> Z -> Z) (p : Z) (l : list Z) : option (list Z) :=
  match l with
  | [] => Some [p]
  | q :: l' =>
      if cmp p q =? 0 then None else
      if cmp p q <? 0 then Some (p :: l) else cons q <$> insert cmp p l'
  end.

Lemma insert_list cmp p l :
  total_cmp cmp -> ordered cmp l -> p ∉ l ->
  exists l', insert cmp p l = Some l' /\ l' ≡ₚ p :: l /\ ordered cmp l'.
Proof.
  intros Hc. unfold ordered. induction l as [|q l IH]; intros Hs Hp; cbn [insert].
  - eexists. split_and!; [done | done |]. repeat constructor.
  - apply StronglySorted_inv in Hs as [Hs Hf]. apply not_elem_of_cons in Hp as [Hpq Hp].
    destruct (Z.eqb_spec (cmp p q) 0) as [E|E]; [destruct Hpq; by apply (tc_eq _ Hc)|].
    destruct (Z.ltb_spec (cmp p q) 0) as [E'|E'].
    + eexists. split_and!; [done | done |]. constructor; [by constructor|]. constructor; [done|].
      eapply Forall_impl; [exact Hf|]. intros x. by apply tc_trans.
    + destruct (IH Hs Hp) as (l' & -> & Hl & Hs'). eexists. split_and!; [done | rewrite Hl; apply Permutation_swap |].
      constructor; [done|]. rewrite Hl. constructor; [|done]. apply (tc_opp _ Hc). lia.
Qed.

#[export] Instance entry_list : EntryTree.
Proof.
  refine {| etree := list Z; et_empty := []; et_first := head; et_insert := insert; et_remove := list_remove; et_list l := l |};
    try done. exact insert_list.
Defined.
End EntryList.
