(* ===== verification/AvlTree.v ===== *)
(** * AvlTree: balanced trees and their rebalancing

    The tree that the pointer structure of [BAVL] stands for, with contexts (the path
    from a node up to the root) and, on them, the rebalancing of [_BAVL_rebalance] as
    a function [reb]: the subtree in a context has changed its height by [delta].
    Proved here: [reb] gives balanced trees and keeps the in-order sequence; the
    context that a search ends in splits the sequence at the key.  [BAVL] shows that
    the C code computes these functions.

    A node has a value [x] (key and address) and a stored balance [b]. *)

From S2P Require Import Prelude SearchTree.

#[local] Arguments Z.add : simpl never.
#[local] Arguments Z.sub : simpl never.
#[local] Arguments Z.max : simpl never.
#[local] Arguments Z.mul : simpl never.
#[local] Arguments Z.opp : simpl never.

(** Concatenations to the right. *)
Ltac app_norm := cbn [negb]; repeat (rewrite <- app_assoc || rewrite <- app_comm_cons); cbn [app].

Module Avl.
Section Trees.
Context {K : Type}.

Inductive bt := L | N (l : bt) (x : K * Z) (b : Z) (r : bt).

Fixpoint height (t : bt) : Z := match t with L => 0 | N l _ _ r => 1 + Z.max (height l) (height r) end.
Fixpoint inorder (t : bt) : list (K * Z) := match t with L => [] | N l x _ r => inorder l ++ x :: inorder r end.

(** The stored balances are right, and the tree is balanced. *)
Fixpoint avl (t : bt) : Prop :=
  match t with
  | L => True
  | N l _ b r => b = height r - height l /\ -1 <= b <= 1 /\ avl l /\ avl r
  end.

(** A node with subtree [c] on side [s] (false: left, true: right) and [d] on the other. *)
Definition nd (s : bool) (x : K * Z) (b : Z) (c d : bt) : bt := if s then N d x b c else N c x b d.
Definition lnk (s : bool) (t : bt) : bt := match t with L => L | N l _ _ r => if s then r else l end.

(** Contexts, from the hole upwards: side of the hole, node, balance, other subtree. *)
Inductive frame := Fr (s : bool) (x : K * Z) (b : Z) (o : bt).
Definition fill (f : frame) (t : bt) : bt := let 'Fr s x b o := f in nd s x b t o.
Fixpoint plug (c : list frame) (t : bt) : bt := match c with [] => t | f :: c' => plug c' (fill f t) end.

Definition sgn (s : bool) : Z := if s then 1 else -1.
Definition BAVL_OPTNEG (a : Z) (neg : bool) : Z := if neg then - a else a.

(** ** Rebalancing *)

(** The node [x] with subtrees [child] on the heavy side [s] and [d] has balance
    [2] or [-2]. *)
Definition fixup (s : bool) (x : K * Z) (child d : bt) (delta : Z) : bt * Z :=
  match child with
  | L => (L, delta)
  | N _ cx cb _ =>
      let f := sgn s in
      let cc := lnk s child in
      let cd := lnk (negb s) child in
      if cb * f =? 1 then (nd s cx 0 cc (nd s x 0 cd d), delta - 1)
      else if cb * f =? 0 then (nd s cx (-1 * f) cc (nd s x (1 * f) cd d), delta)
      else
        match cd with
        | L => (L, delta)
        | N _ gx gb _ =>
            (nd s gx 0 (nd s cx (Z.max 0 (- gb * f) * f) cc (lnk s cd))
                       (nd s x (- Z.max 0 (gb * f) * f) (lnk (negb s) cd) d), delta - 1)
        end
  end.

(** One level of [_BAVL_rebalance], for a node whose subtree [t] on side [s] changed
    its height by [deltac] (not 0): the new subtree and the change of its height. *)
Definition step (s : bool) (x : K * Z) (b : Z) (o t : bt) (deltac : Z) : bt * Z :=
  let delta := Z.max deltac (BAVL_OPTNEG b s) - Z.max 0 (BAVL_OPTNEG b s) in
  let b := b - BAVL_OPTNEG deltac s in
  let n := nd s x b t o in
  if b =? 2 then fixup true x (lnk true n) (lnk false n) delta
  else if b =? -2 then fixup false x (lnk false n) (lnk true n) delta
  else (n, delta).

Fixpoint reb (c : list frame) (t : bt) (deltac : Z) : bt :=
  match c with
  | [] => t
  | Fr s x b o :: c' =>
      if deltac =? 0 then plug c t else
      let r := step s x b o t deltac in reb c' r.1 r.2
  end.

(** ** Balance *)

(** The context is balanced around a hole of height [h]. *)
Fixpoint ctx_avl (c : list frame) (h : Z) : Prop :=
  match c with
  | [] => True
  | Fr s _ b o :: c' => avl o /\ b * sgn s = h - height o /\ -1 <= b <= 1 /\ ctx_avl c' (1 + Z.max h (height o))
  end.

Lemma height_nonneg t : 0 <= height t.
Proof. induction t; cbn; lia. Qed.

Lemma height_nd s x b c d : height (nd s x b c d) = 1 + Z.max (height c) (height d).
Proof. destruct s; cbn; lia. Qed.

Lemma avl_nd s x b c d : avl (nd s x b c d) <-> b * sgn s = height c - height d /\ -1 <= b <= 1 /\ avl c /\ avl d.
Proof. destruct s; cbn; intuition lia. Qed.

Lemma lnk_nd s x b c d : lnk s (nd s x b c d) = c.
Proof. by destruct s. Qed.

Lemma lnk_nd_other s x b c d : lnk (negb s) (nd s x b c d) = d.
Proof. by destruct s. Qed.

Lemma nd_flip s x b c d : nd s x b c d = nd (negb s) x b d c.
Proof. by destruct s. Qed.

(** Every node has a subtree on a side. *)
Lemma nd_view s t : t = L \/ exists x b, t = nd s x b (lnk s t) (lnk (negb s) t).
Proof. destruct t as [|l x b r]; [by left|]. right. exists x, b. by destruct s. Qed.

Lemma inorder_nd s x b c d : inorder (nd s x b c d) = if s then inorder d ++ x :: inorder c else inorder c ++ x :: inorder d.
Proof. by destruct s. Qed.

Lemma fixup_nd s x cx cb cc cd d delta :
  fixup s x (nd s cx cb cc cd) d delta =
    if cb * sgn s =? 1 then (nd s cx 0 cc (nd s x 0 cd d), delta - 1)
    else if cb * sgn s =? 0 then (nd s cx (-1 * sgn s) cc (nd s x (1 * sgn s) cd d), delta)
    else match cd with
         | L => (L, delta)
         | N _ gx gb _ =>
            (nd s gx 0 (nd s cx (Z.max 0 (- gb * sgn s) * sgn s) cc (lnk s cd))
                       (nd s x (- Z.max 0 (gb * sgn s) * sgn s) (lnk (negb s) cd) d), delta - 1)
         end.
Proof. by destruct s. Qed.

Lemma fixup_ok s x child d delta h :
  avl child -> avl d -> height child - height d = 2 -> h + delta = 1 + height child ->
  let r := fixup s x child d delta in
  avl r.1 /\ height r.1 = h + r.2 /\ delta - 1 <= r.2 <= delta /\ inorder r.1 = inorder (nd s x 0 child d).
Proof.
  intros Hc Hd Hdiff Hh. cbv zeta. pose proof (height_nonneg d).
  destruct (nd_view s child) as [->|(cx & cb & E)]; [cbn in *; lia|].
  remember (lnk s child) as cc. remember (lnk (negb s) child) as cd. subst child.
  apply avl_nd in Hc as (Hcb & Hcr & Hcc & Hcd). rewrite height_nd in *.
  rewrite fixup_nd. assert (Hs : sgn s * sgn s = 1) by by destruct s.
  destruct (Z.eqb_spec (cb * sgn s) 1) as [E1|E1]; [|destruct (Z.eqb_spec (cb * sgn s) 0) as [E0|E0]]; cbn [fst snd].
  - rewrite !avl_nd, !height_nd, !inorder_nd. split_and!; try done; try lia. destruct s; by app_norm.
  - rewrite !avl_nd, !height_nd, !inorder_nd. split_and!; try done; try (destruct s; cbn in *; lia).
    destruct s; by app_norm.
  - assert (Em : cb * sgn s = -1) by (destruct s; cbn in *; lia). pose proof (height_nonneg cc).
    destruct (nd_view s cd) as [->|(gx & gb & E)]; [cbn in *; lia|].
    remember (lnk s cd) as gc. remember (lnk (negb s) cd) as gd. subst cd.
    apply avl_nd in Hcd as (Hgb & Hgr & Hgc & Hgd). rewrite height_nd in *.
    assert (Eg : match nd s gx gb gc gd with L => (L, delta) | N _ gx gb _ =>
        (nd s gx 0 (nd s cx (Z.max 0 (- gb * sgn s) * sgn s) cc gc) (nd s x (- Z.max 0 (gb * sgn s) * sgn s) gd d), delta - 1) end =
      (nd s gx 0 (nd s cx (Z.max 0 (- gb * sgn s) * sgn s) cc gc) (nd s x (- Z.max 0 (gb * sgn s) * sgn s) gd d), delta - 1)) by by destruct s.
    rewrite Eg. clear Eg. cbn [fst snd]. rewrite !avl_nd, !height_nd, !inorder_nd.
    split_and!; try done; try (destruct s; cbn [sgn] in *; lia).
    destruct s; by app_norm.
Qed.

Lemma step_ok s x b o t deltac h :
  avl t -> avl o -> height t = h + deltac -> -1 <= deltac <= 1 -> b * sgn s = h - height o -> -1 <= b <= 1 ->
  let r := step s x b o t deltac in
  avl r.1 /\ height r.1 = 1 + Z.max h (height o) + r.2 /\ -1 <= r.2 <= 1 /\ inorder r.1 = inorder (nd s x b t o).
Proof.
  intros Ht Ho Hh Hd Hb Hbr. pose proof (height_nonneg t). pose proof (height_nonneg o). unfold step. cbv zeta.
  set (delta := Z.max deltac (BAVL_OPTNEG b s) - Z.max 0 (BAVL_OPTNEG b s)).
  assert (Hdelta : 1 + Z.max h (height o) + delta = 1 + Z.max (height t) (height o)).
  { unfold delta, BAVL_OPTNEG. destruct s; cbn in *; lia. }
  set (b' := b - BAVL_OPTNEG deltac s). assert (Hb' : b' * sgn s = height t - height o).
  { unfold b', BAVL_OPTNEG. destruct s; cbn in *; lia. }
  assert (Hd1 : b' = 2 \/ b' = -2 -> 0 <= delta <= 1) by (intros [|]; destruct s; cbn in *; lia).
  assert (Hd2 : -1 <= delta <= 1) by lia. clearbody delta b'.
  destruct (Z.eqb_spec b' 2) as [E|E]; [|destruct (Z.eqb_spec b' (-2)) as [E'|E']].
  - destruct s; cbn [lnk nd sgn] in *.
    + destruct (fixup_ok true x t o delta (1 + Z.max h (height o)) Ht Ho ltac:(lia) ltac:(lia)) as (H1 & H2 & H3 & H4).
      by split_and!; try lia.
    + destruct (fixup_ok true x o t delta (1 + Z.max h (height o)) Ho Ht ltac:(lia) ltac:(lia)) as (H1 & H2 & H3 & H4).
      by split_and!; try lia.
  - destruct s; cbn [lnk nd sgn] in *.
    + destruct (fixup_ok false x o t delta (1 + Z.max h (height o)) Ho Ht ltac:(lia) ltac:(lia)) as (H1 & H2 & H3 & H4).
      by split_and!; try lia.
    + destruct (fixup_ok false x t o delta (1 + Z.max h (height o)) Ht Ho ltac:(lia) ltac:(lia)) as (H1 & H2 & H3 & H4).
      by split_and!; try lia.
  - cbn [fst snd]. rewrite avl_nd, height_nd, !inorder_nd. split_and!; try done; try lia; destruct s; cbn [sgn] in *; lia.
Qed.

(** What is before and after the hole, in order. *)
Fixpoint before (c : list frame) : list (K * Z) :=
  match c with [] => [] | Fr s x _ o :: c' => before c' ++ if s : bool then inorder o ++ [x] else [] end.
Fixpoint after (c : list frame) : list (K * Z) :=
  match c with [] => [] | Fr s x _ o :: c' => (if s : bool then [] else x :: inorder o) ++ after c' end.

Lemma inorder_ctx c t : inorder (plug c t) = before c ++ inorder t ++ after c.
Proof.
  revert t. induction c as [|[s x b o] c IH]; intros t; cbn [plug fill before after]; [by rewrite app_nil_r|].
  rewrite IH, inorder_nd. destruct s; by app_norm.
Qed.

Lemma avl_plug c t : avl t -> ctx_avl c (height t) -> avl (plug c t).
Proof.
  revert t. induction c as [|[s x b o] c IH]; intros t Ht Hc; cbn [plug fill]; [done|].
  destruct Hc as (Ho & Hb & Hr & Hc). apply IH; [by apply avl_nd | by rewrite height_nd].
Qed.

Lemma avl_unplug c t : avl (plug c t) -> avl t /\ ctx_avl c (height t).
Proof.
  revert t. induction c as [|[s x b o] c IH]; intros t Ha; cbn [plug fill ctx_avl] in *; [done|].
  apply IH in Ha as [Ht Hc]. apply avl_nd in Ht as (Hb & Hr & Ht & Ho). by rewrite height_nd in Hc.
Qed.

(** Rebalancing makes the tree balanced again and does not reorder it. *)
Lemma reb_ok c t deltac h :
  ctx_avl c h -> avl t -> height t = h + deltac -> -1 <= deltac <= 1 ->
  avl (reb c t deltac) /\ inorder (reb c t deltac) = inorder (plug c t).
Proof.
  revert t deltac h. induction c as [|[s x b o] c IH]; intros t deltac h Hc Ht Hh Hd; cbn [reb]; [done|].
  destruct (Z.eqb_spec deltac 0) as [->|E].
  - split; [|done]. apply avl_plug; [done|]. by rewrite Hh, Z.add_0_r.
  - destruct Hc as (Ho & Hb & Hr & Hc). cbv zeta. destruct (step_ok s x b o t deltac h) as (H1 & H2 & H3 & H4); try done.
    destruct (IH _ _ _ Hc H1 H2 H3) as [H5 H6]. split; [done|]. rewrite H6. cbn [plug fill]. by rewrite !inorder_ctx, H4.
Qed.

(** ** Sizes *)

Lemma height_size t : height t <= zlen (inorder t).
Proof.
  induction t as [|l IHl x b r IHr]; cbn [height inorder]; [done|]. rewrite zlen_app, zlen_cons.
  pose proof (zlen_nonneg (inorder l)). pose proof (zlen_nonneg (inorder r)). lia.
Qed.

Lemma ctx_size c t : Z.of_nat (length c) + height t <= zlen (inorder (plug c t)).
Proof.
  rewrite inorder_ctx, !zlen_app. pose proof (height_size t). enough (Z.of_nat (length c) <= zlen (before c) + zlen (after c)) by lia.
  induction c as [|[s x b o] c IH]; cbn [length before after]; [done|]. rewrite !zlen_app. pose proof (zlen_nonneg (inorder o)).
  destruct s; rewrite ?zlen_app, ?zlen_cons, ?zlen_nil; lia.
Qed.

(** The outermost node on a side. *)
Fixpoint end_of (s : bool) (t : bt) : option (K * Z) :=
  match t with
  | L => None
  | N l x _ r => match if s then end_of s r else end_of s l with Some y => Some y | None => Some x end
  end.

Lemma end_of_nd s x b c d : end_of s (nd s x b c d) = match end_of s c with Some y => Some y | None => Some x end.
Proof. by destruct s. Qed.

Lemma end_of_none s t : end_of s t = None -> t = L.
Proof. destruct t as [|l x b r]; [done|]. cbn. destruct s; by destruct (end_of _ _). Qed.

Lemma end_of_first t : end_of false t = head (inorder t).
Proof.
  induction t as [|l IHl x b r _]; cbn [end_of inorder]; [done|]. rewrite IHl. by destruct (inorder l).
Qed.

Lemma end_of_last t : end_of true t = last (inorder t).
Proof.
  induction t as [|l _ x b r IHr]; cbn [end_of inorder]; [done|]. rewrite IHr, last_app, last_cons.
  by destruct (last (inorder r)).
Qed.

(** The nearest node above that has the hole on the other side than [s]. *)
Fixpoint up (s : bool) (c : list frame) : option (K * Z) :=
  match c with
  | [] => None
  | Fr s' x _ _ :: c' => if eqb s s' then up s c' else Some x
  end.

(** The neighbour on a side of the node at the root of [nd s x b t o] in [c]. *)
Definition next (s : bool) (c : list frame) (t : bt) : option (K * Z) :=
  match end_of (negb s) t with Some y => Some y | None => up s c end.

Lemma next_after c t : next true c t = head (inorder t ++ after c).
Proof.
  unfold next. cbn [negb]. rewrite end_of_first. destruct (inorder t) as [|y l]; [|done]. cbn [app head].
  induction c as [|[[] x b o] c IH]; [done | exact IH | done].
Qed.

Lemma next_before c t : next false c t = last (before c ++ inorder t).
Proof.
  unfold next. cbn [negb]. rewrite end_of_last, last_app. destruct (last (inorder t)) as [y|]; [done|].
  induction c as [|[[] x b o] c IH]; cbn [up eqb before]; [done | | by rewrite app_nil_r, IH].
  by rewrite !last_app.
Qed.

(** ** Removing a node *)

(** The context of the greatest node of [N l x b r], above [c], and this node. *)
Fixpoint locate_max (l : bt) (x : K * Z) (b : Z) (r : bt) (c : list frame) : list frame * bt * (K * Z) * Z :=
  match r with
  | L => (c, l, x, b)
  | N l' x' b' r' => locate_max l' x' b' r' (Fr true x b l :: c)
  end.

(** Removing the node at the root of [t], which is in the context [c]. *)
Definition remove_at (c : list frame) (t : bt) : bt :=
  match t with
  | L => plug c L
  | N L _ _ r => reb c r (-1)
  | N l _ _ L => reb c l (-1)
  | N (N ll lx lb lr) x b r =>
      let '(c', l', x', _) := locate_max ll lx lb lr [] in
      reb (c' ++ Fr false x' b r :: c) l' (-1)
  end.

Lemma plug_app c c' t : plug (c ++ c') t = plug c' (plug c t).
Proof. revert t. induction c as [|f c IH]; intros t; cbn; [done | apply IH]. Qed.

Lemma locate_max_plug l x b r c c' l' x' b' :
  locate_max l x b r c = (c', l', x', b') -> plug c' (N l' x' b' L) = plug c (N l x b r).
Proof.
  revert l x b c. induction r as [|l1 _ x1 b1 r1 IH]; intros l x b c; cbn [locate_max].
  - by intros [= <- <- <- <-].
  - intros H. by rewrite (IH _ _ _ _ H).
Qed.

Lemma locate_max_app l x b r c c0 :
  locate_max l x b r (c ++ c0) = let '(c', l', x', b') := locate_max l x b r c in (c' ++ c0, l', x', b').
Proof.
  revert l x b c. induction r as [|l1 _ x1 b1 r1 IH]; intros l x b c; cbn [locate_max]; [done|].
  by rewrite <- (IH l1 x1 b1 (Fr true x b l :: c)).
Qed.

Lemma locate_max_end l x b r c c' l' x' b' : locate_max l x b r c = (c', l', x', b') -> end_of true (N l x b r) = Some x'.
Proof.
  revert l x b c. induction r as [|l1 _ x1 b1 r1 IH]; intros l x b c; cbn [locate_max].
  - by intros [= <- <- <- <-].
  - intros H. apply IH in H. change (end_of true (N l x b (N l1 x1 b1 r1))) with
      (match end_of true (N l1 x1 b1 r1) with Some y => Some y | None => Some x end). by rewrite H.
Qed.

Lemma locate_max_after l x b r c c' l' x' b' :
  locate_max l x b r c = (c', l', x', b') -> after c' = after c.
Proof.
  revert l x b c. induction r as [|l1 _ x1 b1 r1 IH]; intros l x b c; cbn [locate_max].
  - by intros [= <- <- <- <-].
  - intros H. by rewrite (IH _ _ _ _ H).
Qed.

Lemma before_app c c' : before (c ++ c') = before c' ++ before c.
Proof. induction c as [|[s x b o] c IH]; cbn; [by rewrite app_nil_r|]. rewrite IH. by app_norm. Qed.

Lemma after_app c c' : after (c ++ c') = after c ++ after c'.
Proof. induction c as [|[s x b o] c IH]; cbn; [done|]. rewrite IH. destruct s; by app_norm. Qed.

(** A context depends on its nodes only in the sequence, not in its balance. *)
Lemma ctx_avl_rename c s x x' b o c0 h :
  ctx_avl (c ++ Fr s x b o :: c0) h -> ctx_avl (c ++ Fr s x' b o :: c0) h.
Proof.
  revert h. induction c as [|[s1 x1 b1 o1] c IH]; intros h; cbn; [done|]. intros (? & ? & ? & ?). split_and!; try lia; try done.
  by apply IH.
Qed.

Lemma remove_at_ok c l x b r :
  avl (plug c (N l x b r)) ->
  avl (remove_at c (N l x b r)) /\ inorder (remove_at c (N l x b r)) = before c ++ inorder l ++ inorder r ++ after c.
Proof.
  intros Ha. pose proof (avl_unplug _ _ Ha) as [Ht Hc]. destruct Ht as (Hb & Hr & Hl & Hrr).
  pose proof (height_nonneg l). pose proof (height_nonneg r). destruct l as [|ll lx lb lr].
  - cbn [remove_at]. destruct (reb_ok c r (-1) _ Hc Hrr) as [H1 H2]; [cbn [height] in *; lia | lia |].
    split; [by destruct r|]. rewrite <- (app_nil_l (inorder r ++ _)). destruct r; rewrite H2; by rewrite inorder_ctx.
  - destruct r as [|rl rx rb rr].
    + cbn [remove_at]. destruct (reb_ok c (N ll lx lb lr) (-1) _ Hc Hl) as [H1 H2]; [cbn [height] in *; lia | lia |].
      split; [done|]. rewrite H2, inorder_ctx. done.
    + cbn [remove_at]. set (r := N rl rx rb rr) in *. destruct (locate_max ll lx lb lr []) as [[[c' l'] x'] b'] eqn:E.
      assert (E1 : locate_max ll lx lb lr (Fr false x b r :: c) = (c' ++ Fr false x b r :: c, l', x', b')).
      { pose proof (locate_max_app ll lx lb lr [] (Fr false x b r :: c)) as H1. by rewrite E in H1. }
      pose proof (locate_max_plug _ _ _ _ _ _ _ _ _ E1) as Ep. cbn [plug fill nd] in Ep. rewrite <- Ep in Ha.
      destruct (avl_unplug _ _ Ha) as [(Hb' & Hr' & Hl' & _) Hc']. apply (ctx_avl_rename _ _ _ x') in Hc'.
      pose proof (height_nonneg l') as Hn. destruct (reb_ok _ l' (-1) _ Hc' Hl') as [H1 H2]; [cbn [height]; lia | lia |].
      split; [exact H1|]. clearbody r. rewrite H2, inorder_ctx, before_app, after_app, (locate_max_after _ _ _ _ _ _ _ _ _ E). cbn [before after app].
      pose proof (locate_max_plug _ _ _ _ _ _ _ _ _ E) as Ep'. apply (f_equal inorder) in Ep'.
      rewrite !inorder_ctx, (locate_max_after _ _ _ _ _ _ _ _ _ E) in Ep'. cbn [before after app plug inorder] in Ep'.
      rewrite app_nil_r in Ep'. change (inorder (N ll lx lb lr)) with (inorder ll ++ lx :: inorder lr). rewrite !app_nil_r in Ep'.
      rewrite <- Ep'. by app_norm.
Qed.

(** ** Searching *)

Context (cmp : K -> K -> Z).

(** Where the search for [k] in [t] ends, below the context [c]. *)
Fixpoint locate (k : K) (t : bt) (c : list frame) : list frame * bt :=
  match t with
  | L => (c, L)
  | N l x b r =>
      let comp := cmp k x.1 in
      if comp =? 0 then (c, t)
      else if comp =? 1 then locate k r (Fr true x b l :: c) else locate k l (Fr false x b r :: c)
  end.

Lemma locate_plug k t c : let r := locate k t c in plug r.1 r.2 = plug c t.
Proof.
  cbv zeta. revert c. induction t as [|l IHl x b r IHr]; intros c; cbn [locate]; [done|].
  destruct (_ =? 0); [done|]. destruct (_ =? 1); [by rewrite IHr | by rewrite IHl].
Qed.

(** Where a search ends in a node, the node has the key. *)
Lemma locate_found k t c c' l x b r : locate k t c = (c', N l x b r) -> cmp k x.1 = 0.
Proof.
  revert c. induction t as [|l1 IHl x1 b1 r1 IHr]; intros c; cbn [locate]; [done|].
  destruct (Z.eqb_spec (cmp k x1.1) 0) as [E|E]; [by intros [= _ <- <- <- <-]|]. destruct (_ =? 1); [apply IHr | apply IHl].
Qed.

Definition key_lt (x y : K * Z) : Prop := cmp x.1 y.1 = -1.
Definition sorted (l : list (K * Z)) : Prop := StronglySorted key_lt l.

Lemma sorted_app l1 l2 : sorted (l1 ++ l2) <-> sorted l1 /\ sorted l2 /\ forall x y, x ∈ l1 -> y ∈ l2 -> key_lt x y.
Proof.
  unfold sorted. induction l1 as [|x l1 IH]; cbn.
  - split; [|naive_solver]. intros. split_and!; try done; [constructor|]. by intros ? ? ?%elem_of_nil.
  - split.
    + intros [Hs Hf]%StronglySorted_inv. apply IH in Hs as (H1 & H2 & H3). rewrite Forall_app, !Forall_forall in Hf. destruct Hf as [Hf1 Hf2].
      split_and!; [constructor; [done | by rewrite Forall_forall] | done |]. intros a y [->|Ha]%elem_of_cons Hy; auto.
    + intros ([H1 Hf]%StronglySorted_inv & H2 & H3). constructor.
      * apply IH. split_and!; try done. intros a y Ha Hy. apply H3; [by right | done].
      * rewrite Forall_app. split; [done|]. rewrite Forall_forall. intros y Hy. apply H3; [by left | done].
Qed.

Section Order.
Context (ok : K -> Prop) (O : key_order ok cmp).

(** Where a search ends in a leaf, the key goes between what is before and after. *)
Lemma locate_split k t c c' :
  ok k -> Forall ok (inorder (plug c t)).*1 -> sorted (inorder (plug c t)) ->
  (forall x, x ∈ before c -> cmp x.1 k = -1) -> (forall x, x ∈ after c -> cmp k x.1 = -1) ->
  locate k t c = (c', L) ->
  (forall x, x ∈ before c' -> cmp x.1 k = -1) /\ (forall x, x ∈ after c' -> cmp k x.1 = -1).
Proof.
  intros Hk. revert c. induction t as [|l IHl x b r IHr]; intros c Hok Hs Hb Ha; cbn [locate].
  - by intros [= <-].
  - assert (Hokx : ok x.1 /\ (forall y, y ∈ inorder l \/ y ∈ inorder r -> ok y.1)).
    { rewrite inorder_ctx in Hok. cbn in Hok. rewrite Forall_fmap, Forall_forall in Hok. split.
      - apply Hok. rewrite !elem_of_app, elem_of_cons. tauto.
      - intros y Hy. apply Hok. rewrite !elem_of_app, elem_of_cons. tauto. }
    assert (Hlt : (forall y, y ∈ inorder l -> key_lt y x) /\ forall y, y ∈ inorder r -> key_lt x y).
    { rewrite inorder_ctx in Hs. cbn in Hs. apply sorted_app in Hs as (_ & Hs & _). apply sorted_app in Hs as (Hs & _ & _).
      apply sorted_app in Hs as (_ & Hs & Hl). split; [intros y Hy; apply Hl; [done | by left]|].
      apply StronglySorted_inv in Hs as [_ Hf]. by rewrite Forall_forall in Hf. }
    destruct Hokx as [Hx Hsub], Hlt as [Hll Hlr].
    destruct (Z.eqb_spec (cmp k x.1) 0); [done|]. destruct (ko_range _ _ O k x.1 Hk Hx) as [E|[E|E]]; [|done|].
    + rewrite E. cbn. intros H. apply (IHl (Fr false x b r :: c)); try done; cbn [before after].
      * intros y. rewrite app_nil_r. apply Hb.
      * intros y [[->|Hy]%elem_of_cons|Hy]%elem_of_app; [done | | by apply Ha].
        apply (ko_trans _ _ O k x.1); auto. by apply Hlr.
    + rewrite E. cbn. intros H. assert (E' : cmp x.1 k = -1) by (rewrite (ko_opp _ _ O), E by done; lia).
      apply (IHr (Fr true x b l :: c)); try done; cbn [before after app].
      intros y [Hy|[Hy|Hy]%elem_of_app]%elem_of_app; [by apply Hb | | by apply list_elem_of_singleton in Hy as ->].
      apply (ko_trans _ _ O y.1 x.1); auto. by apply Hll.
Qed.

End Order.
End Trees.
End Avl.
