(* ===== verification/BAVL.v ===== *)
(** * BAVL: the intrusive AVL tree

    Model of [badvpn/structure/BAVL.h] at the level of its pointers: nodes with parent
    and child links and a balance, in a heap.  A pointer is an [option Z], [NULL] is
    [None]; a node's [value] is the key in the object around it.  The loops have fuel,
    one step for every node of the heap and one more ([fuel_for]).

    A balance is an [int8_t]; the assertions keep it between -2 and 2, so it does not
    wrap.  [BAVL_COUNT] and [BAVL_AUTO_VERIFY] are not defined in this program.

    Ownership ([own]) splits the heap into the nodes of subtrees ([cells]) and of
    contexts ([ctx_cells]).  Every operation is shown to compute the function on trees
    of [AvlTree]; [BavlTree] then shows what the operations mean for their users. *)

From AAC_tactics Require Import AAC.
From AAC_tactics Require Instances.
From S2P Require Import Prelude SearchTree AvlTree.
Import Instances.Lists.
Open Scope mon_scope.

#[local] Arguments Z.add : simpl never.
#[local] Arguments Z.sub : simpl never.
#[local] Arguments Z.max : simpl never.
#[local] Arguments Z.mul : simpl never.
#[local] Arguments Z.opp : simpl never.

#[local] Instance perm_lift {A} : AAC_lift (@Permutation A) (@Permutation A).
Proof. constructor; [apply _|]. intros x x' Hx y y' Hy. by rewrite Hx, Hy. Defined.

Create Rewrite HintDb bnode.

Module Bavl.
Import Avl.
Section Tree.
Context {K : Type}.

Record BAVLNode := mk_node {
  parent : option Z;
  link0 : option Z;
  link1 : option Z;
  balance : Z;
  value : K;
}.

Record BAVL := mk_bavl { root : option Z; nodes : gmap Z BAVLNode }.

Definition set_root (r : option Z) (s : BAVL) : BAVL := mk_bavl r (nodes s).
Definition set_nodes (h : gmap Z BAVLNode) (s : BAVL) : BAVL := mk_bavl (root s) h.

Definition link (side : bool) (n : BAVLNode) : option Z := if side then link1 n else link0 n.
Definition set_parent (q : option Z) (n : BAVLNode) : BAVLNode := mk_node q (link0 n) (link1 n) (balance n) (value n).
Definition set_link (side : bool) (q : option Z) (n : BAVLNode) : BAVLNode :=
  if side then mk_node (parent n) (link0 n) q (balance n) (value n) else mk_node (parent n) q (link1 n) (balance n) (value n).
Definition set_balance (b : Z) (n : BAVLNode) : BAVLNode := mk_node (parent n) (link0 n) (link1 n) b (value n).

Abbreviation H := (M BAVL Empty_set).

Definition node_ (p : Z) : H BAVLNode := load nodes p.
Definition upd (p : Z) (g : BAVLNode -> BAVLNode) : H unit :=
  x <- node_ p ;; modify (fun s => set_nodes (<[p := g x]> (nodes s)) s).
Definition deref (x : option Z) : H Z := match x with Some p => ret p | None => fail F_bounds end.
Definition is_node (x : option Z) (p : Z) : bool := bool_decide (x = Some p).

(** [if (x) { x->parent = q; }] *)
Definition adopt (x q : option Z) : H unit :=
  match x with Some c => upd c (set_parent q) | None => ret tt end.

(** [if (q) { q->link[n == q->link[1]] = m; } else { tree->root = m; }] *)
Definition hang (q : option Z) (n : Z) (m : option Z) : H unit :=
  match q with
  | Some g => x <- node_ g ;; upd g (set_link (is_node (link1 x) n) m)
  | None => modify (set_root m)
  end.

(** ** The operations *)

Definition BAVL_MAX (a b : Z) : Z := if a >? b then a else b.

Definition _BAVL_rotate (r : Z) (dir : bool) : H unit :=
  x <- node_ r ;;
  nr <- deref (link (negb dir) x) ;;
  y <- node_ nr ;;
  upd r (set_link (negb dir) (link dir y)) ;;
  adopt (link dir y) (Some r) ;;
  upd nr (set_link dir (Some r)) ;;
  x <- node_ r ;;
  upd nr (set_parent (parent x)) ;;
  hang (parent x) r (Some nr) ;;
  upd r (set_parent (Some nr)).

(** [while (n->link[side]) { n = n->link[side]; }] *)
Fixpoint descend (fuel : nat) (side : bool) (n : Z) : H Z :=
  match fuel with
  | O => fail F_fuel
  | S fuel' => x <- node_ n ;; match link side x with Some n' => descend fuel' side n' | None => ret n end
  end.

Definition fuel_for (s : BAVL) : nat := S (size (nodes s)).

Definition _BAVL_subtree_max (n : Z) : H Z := s <- get ;; descend (fuel_for s) true n.

Definition _BAVL_replace_subtree (dest : Z) (n : option Z) : H unit :=
  x <- node_ dest ;;
  hang (parent x) dest n ;;
  adopt n (parent x).

(** Two directly connected nodes, [n1] above [n2]. *)
Definition swap_connected (n1 n2 : Z) : H unit :=
  x1 <- node_ n1 ;;
  let side := is_node (link1 x1) n2 in
  let c := link (negb side) x1 in
  x2 <- node_ n2 ;;
  upd n1 (set_link false (link0 x2)) ;;
  adopt (link0 x2) (Some n1) ;;
  x2 <- node_ n2 ;;
  upd n1 (set_link true (link1 x2)) ;;
  adopt (link1 x2) (Some n1) ;;
  x1 <- node_ n1 ;;
  upd n2 (set_parent (parent x1)) ;;
  hang (parent x1) n1 (Some n2) ;;
  upd n2 (set_link side (Some n1)) ;;
  upd n1 (set_parent (Some n2)) ;;
  upd n2 (set_link (negb side) c) ;;
  adopt c (Some n2).

(** Swap the children of the nodes on a side. *)
Definition swap_children (n1 n2 : Z) (side : bool) : H unit :=
  x1 <- node_ n1 ;;
  let temp := link side x1 in
  x2 <- node_ n2 ;;
  upd n1 (set_link side (link side x2)) ;;
  adopt (link side x2) (Some n1) ;;
  upd n2 (set_link side temp) ;;
  adopt temp (Some n2).

Definition swap_apart (n1 n2 : Z) : H unit :=
  x1 <- node_ n1 ;;
  let temp := parent x1 in
  x2 <- node_ n2 ;;
  upd n1 (set_parent (parent x2)) ;;
  hang (parent x2) n2 (Some n1) ;;
  upd n2 (set_parent temp) ;;
  hang temp n1 (Some n2) ;;
  swap_children n1 n2 false ;;
  swap_children n1 n2 true.

Definition _BAVL_swap_nodes (n1 n2 : Z) : H unit :=
  x1 <- node_ n1 ;;
  x2 <- node_ n2 ;;
  (if is_node (parent x2) n1 || is_node (parent x1) n2 then
     if is_node (parent x1) n2 then swap_connected n2 n1 else swap_connected n1 n2
   else swap_apart n1 n2) ;;
  x1 <- node_ n1 ;;
  x2 <- node_ n2 ;;
  upd n1 (set_balance (balance x2)) ;;
  upd n2 (set_balance (balance x1)).

Definition in_range (z : Z) : bool := (-1 <=? z) && (z <=? 1).

(** The transformations of a node whose balance is 2 or -2. *)
Definition transform (node : Z) (bside : bool) (delta : Z) : H (Z * Z) :=
  let bsidef := if bside then 1 else -1 in
  x <- node_ node ;;
  child <- deref (link bside x) ;;
  y <- node_ child ;;
  if balance y * bsidef =? 1 then
    _BAVL_rotate node (negb bside) ;;
    upd node (set_balance 0) ;;
    upd child (set_balance 0) ;;
    ret (child, delta - 1)
  else if balance y * bsidef =? 0 then
    _BAVL_rotate node (negb bside) ;;
    upd node (set_balance (1 * bsidef)) ;;
    upd child (set_balance (-1 * bsidef)) ;;
    ret (child, delta)
  else if balance y * bsidef =? -1 then
    gchild <- deref (link (negb bside) y) ;;
    _BAVL_rotate child bside ;;
    _BAVL_rotate node (negb bside) ;;
    z <- node_ gchild ;;
    upd node (set_balance (- BAVL_MAX 0 (balance z * bsidef) * bsidef)) ;;
    upd child (set_balance (BAVL_MAX 0 (- balance z * bsidef) * bsidef)) ;;
    upd gchild (set_balance 0) ;;
    ret (gchild, delta - 1)
  else fail F_assert.

Fixpoint _BAVL_rebalance (fuel : nat) (node : Z) (side : bool) (deltac : Z) : H unit :=
  match fuel with
  | O => fail F_fuel
  | S fuel' =>
      assert (in_range deltac) ;;
      x <- node_ node ;;
      assert (in_range (balance x)) ;;
      if deltac =? 0 then ret tt else
      let delta := BAVL_MAX deltac (BAVL_OPTNEG (balance x) side) - BAVL_MAX 0 (BAVL_OPTNEG (balance x) side) in
      assert (in_range delta) ;;
      let b := balance x - BAVL_OPTNEG deltac side in
      upd node (set_balance b) ;;
      r <- (if (b =? 2) || (b =? -2) then transform node (b =? 2) delta else ret (node, delta)) ;;
      assert (in_range r.2) ;;
      y <- node_ r.1 ;;
      match parent y with
      | Some p => z <- node_ p ;; _BAVL_rebalance fuel' p (is_node (link1 z) r.1) r.2
      | None => ret tt
      end
  end.

Definition BAVL_Init : BAVL -> BAVL := set_root None.

Definition init_node (q : option Z) (n : BAVLNode) : BAVLNode := mk_node q None None 0 (value n).

Definition BAVL_IsEmpty : H bool := s <- get ;; ret (if root s then false else true).

Section Operations.
Context (comparator : K -> K -> Z).

Definition _BAVL_compare_values (v1 v2 : K) : H Z :=
  let res := comparator v1 v2 in
  assert ((res =? -1) || (res =? 0) || (res =? 1)) ;;
  ret res.

Definition _BAVL_compare_nodes (n1 n2 : Z) : H Z :=
  x1 <- node_ n1 ;;
  x2 <- node_ n2 ;;
  _BAVL_compare_values (value x1) (value x2).

(** The loop that looks for [val], from the node [c]: the node where it ends, and
    [None] if its value is equal, or the side where there is no further node. *)
Fixpoint search_loop (fuel : nat) (compare : Z -> H Z) (c : Z) : H (Z * option bool) :=
  match fuel with
  | O => fail F_fuel
  | S fuel' =>
      comp <- compare c ;;
      if comp =? 0 then ret (c, None) else
      let side := comp =? 1 in
      x <- node_ c ;;
      match link side x with
      | None => ret (c, Some side)
      | Some c' => search_loop fuel' compare c'
      end
  end.

(** The result, and what is stored at [ref]. *)
Definition BAVL_Insert (node : Z) : H (bool * option Z) :=
  s <- get ;;
  match root s with
  | None =>
      modify (set_root (Some node)) ;;
      upd node (init_node None) ;;
      ret (true, None)
  | Some c =>
      r <- search_loop (fuel_for s) (_BAVL_compare_nodes node) c ;;
      match r.2 with
      | None => ret (false, Some r.1)
      | Some side =>
          upd r.1 (set_link side (Some node)) ;;
          upd node (init_node (Some r.1)) ;;
          _BAVL_rebalance (fuel_for s) r.1 side 1 ;;
          ret (true, Some r.1)
      end
  end.

(** Removing a node that has at most one child. *)
Definition remove_single (node : Z) : H unit :=
  s <- get ;;
  x <- node_ node ;;
  assert (negb (bool_decide (is_Some (link0 x)) && bool_decide (is_Some (link1 x)))) ;;
  let child := match link0 x with Some l => Some l | None => link1 x end in
  match parent x with
  | Some p =>
      y <- node_ p ;;
      let side := is_node (link1 y) node in
      _BAVL_replace_subtree node child ;;
      _BAVL_rebalance (fuel_for s) p side (-1)
  | None => _BAVL_replace_subtree node child
  end.

Definition BAVL_Remove (node : Z) : H unit :=
  x <- node_ node ;;
  (match link0 x, link1 x with
   | Some l, Some _ => max <- _BAVL_subtree_max l ;; _BAVL_swap_nodes node max
   | _, _ => ret tt
   end) ;;
  remove_single node.

Definition compare_with (val : K) (c : Z) : H Z := x <- node_ c ;; _BAVL_compare_values val (value x).

Definition BAVL_Lookup (val : K) : H (option Z) :=
  s <- get ;;
  match root s with
  | None => ret None
  | Some c => r <- search_loop (fuel_for s) (compare_with val) c ;; ret (Some r.1)
  end.

Definition BAVL_LookupExact (val : K) : H (option Z) :=
  s <- get ;;
  match root s with
  | None => ret None
  | Some c =>
      r <- search_loop (fuel_for s) (compare_with val) c ;;
      ret (match r.2 with None => Some r.1 | Some _ => None end)
  end.

(** [BAVL_GetFirst] and [BAVL_GetLast]: the end of the tree on a side. *)
Definition get_end (side : bool) : H (option Z) :=
  s <- get ;;
  match root s with None => ret None | Some n => m <- descend (fuel_for s) side n ;; ret (Some m) end.
Definition BAVL_GetFirst : H (option Z) := get_end false.
Definition BAVL_GetLast : H (option Z) := get_end true.

(** [while (n->parent && n == n->parent->link[side]) { n = n->parent; } n = n->parent;] *)
Fixpoint ascend (fuel : nat) (side : bool) (n : Z) : H (option Z) :=
  match fuel with
  | O => fail F_fuel
  | S fuel' =>
      x <- node_ n ;;
      match parent x with
      | None => ret None
      | Some p => y <- node_ p ;; if is_node (link side y) n then ascend fuel' side p else ret (Some p)
      end
  end.

(** The neighbour of a node on a side. *)
Definition neighbour (side : bool) (n : Z) : H (option Z) :=
  s <- get ;;
  x <- node_ n ;;
  match link side x with
  | Some n' => m <- descend (fuel_for s) (negb side) n' ;; ret (Some m)
  | None => ascend (fuel_for s) side n
  end.
Definition BAVL_GetNext (n : Z) : H (option Z) := neighbour true n.
Definition BAVL_GetPrev (n : Z) : H (option Z) := neighbour false n.

(** The checks of the child [c] of [n] on a side, and with [recurser] of its subtree. *)
Definition assert_child (recurser : Z -> H Z) (n : Z) (side : bool) (c : option Z) : H Z :=
  match c with
  | None => ret 0
  | Some m =>
      y <- node_ m ;;
      assert (is_node (parent y) n) ;;
      comp <- _BAVL_compare_nodes m n ;;
      assert (comp =? (if side then 1 else -1)) ;;
      recurser m
  end.

(** The checks of a subtree; the result is its height. *)
Fixpoint _BAVL_assert_recurser (fuel : nat) (n : Z) : H Z :=
  match fuel with
  | O => fail F_fuel
  | S fuel' =>
      x <- node_ n ;;
      assert (in_range (balance x)) ;;
      height_left <- assert_child (_BAVL_assert_recurser fuel') n false (link0 x) ;;
      height_right <- assert_child (_BAVL_assert_recurser fuel') n true (link1 x) ;;
      assert (balance x =? height_right - height_left) ;;
      ret (BAVL_MAX height_left height_right + 1)
  end.

Definition BAVL_Verify : H unit :=
  s <- get ;;
  match root s with
  | None => ret tt
  | Some n =>
      x <- node_ n ;;
      assert (if parent x then false else true) ;;
      _BAVL_assert_recurser (fuel_for s) n ;;
      ret tt
  end.

End Operations.
End Tree.

(** ** Ownership of nodes *)

Section Own.
Context {K : Type}.
Abbreviation cell := (Z * @BAVLNode K)%type.
Abbreviation H := (M (@BAVL K) Empty_set).

Definition own (h : gmap Z BAVLNode) (R : list cell) : Prop :=
  NoDup R.*1 /\ Forall (fun e => h !! e.1 = Some e.2) R.

(** [R] is [X] and the rest [F]. *)
Class Pull (X R F : list cell) := pull : R ≡ₚ X ++ F.

#[export] Instance pull_here X : Pull X X [] | 0.
Proof. red. by rewrite app_nil_r. Qed.

#[export] Instance pull_left X R1 R2 F : Pull X R1 F -> Pull X (R1 ++ R2) (F ++ R2) | 1.
Proof. unfold Pull. intros ->. aac_reflexivity. Qed.

#[export] Instance pull_right X R1 R2 F : Pull X R2 F -> Pull X (R1 ++ R2) (R1 ++ F) | 2.
Proof. unfold Pull. intros ->. aac_reflexivity. Qed.

#[export] Instance own_proper h : Proper (@Permutation cell ==> iff) (own h).
Proof. intros R R' E. unfold own. by rewrite E. Qed.

Lemma own_perm h R R' : own h R -> R ≡ₚ R' -> own h R'.
Proof. by intros ? <-. Qed.

Lemma own_app_r h R1 R2 : own h (R1 ++ R2) -> own h R2.
Proof. unfold own. rewrite fmap_app, NoDup_app, Forall_app. tauto. Qed.

Lemma own_lookup h p n R F : own h R -> Pull [(p, n)] R F -> h !! p = Some n.
Proof. intros Ho E. apply (own_perm _ _ _ Ho) in E as [_ Hf]. by apply Forall_cons in Hf as [? _]. Qed.

Lemma own_insert h p n n' R F : own h R -> Pull [(p, n)] R F -> own (<[p := n']> h) ([(p, n')] ++ F).
Proof.
  intros Ho1 E. apply (own_perm _ _ _ Ho1) in E as [Hnd Ho]. split; [done|]. cbn in *. apply NoDup_cons in Hnd as [Hp _].
  apply Forall_cons in Ho as [_ Ho]. constructor; [cbn; by rewrite lookup_insert_eq|].
  apply Forall_forall. intros e He. rewrite Forall_forall in Ho. rewrite lookup_insert_ne; [by apply Ho|].
  intros ->. destruct Hp. by apply list_elem_of_fmap_2.
Qed.

Lemma own_ne h p n q R F : own h R -> Pull [(p, n)] R F -> q ∈ F.*1 -> p <> q.
Proof. intros Ho E Hq. apply (own_perm _ _ _ Ho) in E as [Hnd _]. cbn in Hnd. apply NoDup_cons in Hnd as [Hp _]. by intros ->. Qed.

Lemma own_length h R : own h R -> (length R <= size h)%nat.
Proof.
  intros [Hnd Ho]. rewrite <- (length_fmap fst R), <- (size_dom h), <- (size_list_to_set (C := gset Z)) by done.
  apply subseteq_size. intros p (e & -> & He)%elem_of_list_to_set%list_elem_of_fmap.
  apply elem_of_dom. rewrite Forall_forall in Ho. eexists. by apply Ho.
Qed.

Lemma wp_node p n R F r h (Q : BAVLNode -> BAVL -> list Empty_set -> Prop) :
  own h R -> Pull [(p, n)] R F -> Q n (mk_bavl r h) [] -> wp (node_ p) (mk_bavl r h) Q.
Proof. intros Ho Hp HQ. by eapply wp_load; [eapply own_lookup|]. Qed.

Lemma wp_upd p g n R F r h (Q : unit -> BAVL -> list Empty_set -> Prop) :
  own h R -> Pull [(p, n)] R F ->
  (forall h', own h' ([(p, g n)] ++ F) -> Q tt (mk_bavl r h') []) -> wp (upd p g) (mk_bavl r h) Q.
Proof.
  intros Ho Hp HQ. apply wp_bind. eapply wp_node; [done..|]. wp_step. apply HQ. by eapply own_insert.
Qed.

(** *** Nodes by side *)

Definition rp (t : @bt K) : option Z := match t with L => None | N _ x _ _ => Some x.2 end.

(** A node with [a] on side [s] and [o] on the other. *)
Definition mkn (s : bool) (par a o : option Z) (b : Z) (k : K) : BAVLNode :=
  if s then mk_node par o a b k else mk_node par a o b k.

Lemma mkn_flip s par a o b k : mkn s par a o b k = mkn (negb s) par o a b k.
Proof. by destruct s. Qed.
Lemma link_mkn s par a o b k : link s (mkn s par a o b k) = a.
Proof. by destruct s. Qed.
Lemma link_mkn_other s par a o b k : link (negb s) (mkn s par a o b k) = o.
Proof. by destruct s. Qed.
Lemma link0_mkn par a o b k : link0 (mkn false par a o b k) = a.
Proof. done. Qed.
Lemma link1_mkn par a o b k : link1 (mkn false par a o b k) = o.
Proof. done. Qed.
Lemma link_true_mkn par a o b k : link true (mkn false par a o b k) = o.
Proof. done. Qed.
Lemma set_link1_mkn par a o b k o' : set_link true o' (mkn false par a o b k) = mkn false par a o' b k.
Proof. done. Qed.
Lemma set_link_mkn s par a o b k a' : set_link s a' (mkn s par a o b k) = mkn s par a' o b k.
Proof. by destruct s. Qed.
Lemma set_link_mkn_other s par a o b k o' : set_link (negb s) o' (mkn s par a o b k) = mkn s par a o' b k.
Proof. by destruct s. Qed.
Lemma set_parent_mkn s par a o b k par' : set_parent par' (mkn s par a o b k) = mkn s par' a o b k.
Proof. by destruct s. Qed.
Lemma set_balance_mkn s par a o b k b' : set_balance b' (mkn s par a o b k) = mkn s par a o b' k.
Proof. by destruct s. Qed.
Lemma parent_mkn s par a o b k : parent (mkn s par a o b k) = par.
Proof. by destruct s. Qed.
Lemma balance_mkn s par a o b k : balance (mkn s par a o b k) = b.
Proof. by destruct s. Qed.
Lemma value_mkn s par a o b k : value (mkn s par a o b k) = k.
Proof. by destruct s. Qed.

(** *** Trees and contexts in the heap *)

Fixpoint cells (par : option Z) (t : bt) : list cell :=
  match t with
  | L => []
  | N l x b r => [(x.2, mkn false par (rp l) (rp r) b x.1)] ++ cells (Some x.2) l ++ cells (Some x.2) r
  end.

(** The node above the hole; [top] is above the whole context. *)
Definition cparent (top : option Z) (c : list (@frame K)) : option Z :=
  match c with [] => top | Fr _ x _ _ :: _ => Some x.2 end.

Fixpoint ctx_cells (top : option Z) (c : list (@frame K)) (hole : option Z) : list cell :=
  match c with
  | [] => []
  | Fr s x b o :: c' =>
      [(x.2, mkn s (cparent top c') hole (rp o) b x.1)] ++ cells (Some x.2) o ++ ctx_cells top c' (Some x.2)
  end.

Fixpoint ctx_root (c : list (@frame K)) (hole : option Z) : option Z :=
  match c with [] => hole | Fr _ x _ _ :: c' => ctx_root c' (Some x.2) end.

Lemma rp_nd s x b c d : rp (nd s x b c d) = Some x.2.
Proof. by destruct s. Qed.

Lemma cells_nd par s x b c d :
  cells par (nd s x b c d) ≡ₚ [(x.2, mkn s par (rp c) (rp d) b x.1)] ++ cells (Some x.2) c ++ cells (Some x.2) d.
Proof. destruct s; cbn [nd cells]; unfold mkn; aac_reflexivity. Qed.

Lemma cells_addrs par t : (cells par t).*1 ≡ₚ (inorder t).*2.
Proof.
  revert par. induction t as [|l IHl x b r IHr]; intros par; [done|]. cbn [cells inorder].
  rewrite !fmap_app, fmap_cons, IHl, IHr. cbn. by rewrite Permutation_middle.
Qed.

Lemma rp_cells par t p : rp t = Some p -> p ∈ (cells par t).*1.
Proof. destruct t; [done|]. intros [= <-]. cbn. by left. Qed.

End Own.

#[export] Hint Rewrite @link0_mkn @link1_mkn @link_true_mkn @set_link1_mkn @link_mkn @link_mkn_other @set_link_mkn @set_link_mkn_other @set_parent_mkn @set_balance_mkn
  @parent_mkn @balance_mkn @value_mkn @rp_nd negb_involutive : bnode.

(** Ownership of the same nodes in another order. *)
Ltac own_perm_by := match goal with Ho : own _ _ |- own _ _ => eapply own_perm; [exact Ho|]; rewrite ?cells_nd; autorewrite with bnode; cbn [cells ctx_cells]; aac_reflexivity end.

Section Pointers.
Context {K : Type}.
Implicit Types (t : @bt K) (c : list (@frame K)) (F R : list (Z * @BAVLNode K)).
Abbreviation post := (unit -> @BAVL K -> list Empty_set -> Prop).

Lemma wp_adopt t q q' R F r h (Q : post) :
  own h R -> Pull (cells q t) R F ->
  (forall h, own h (cells q' t ++ F) -> Q tt (mk_bavl r h) []) -> wp (adopt (rp t) q') (mk_bavl r h) Q.
Proof.
  intros Ho E HQ. apply (own_perm _ _ _ Ho) in E as Ho'. clear Ho E. rename Ho' into Ho. destruct t as [|l x b d]; cbn [rp adopt].
  - apply wp_ret. by apply HQ.
  - cbn [cells] in Ho. eapply wp_upd; [exact Ho | apply _ |]. clear Ho h. intros h Ho. autorewrite with bnode in *. apply HQ. cbn [cells]. eapply own_perm; [exact Ho|].  aac_reflexivity.
Qed.

(** A link to one tree is not a link to another node. *)
Lemma rp_not h q o p R F : own h R -> Pull (cells q o) R F -> p ∈ F.*1 -> is_node (rp o) p = false.
Proof.
  intros Ho E Hp. apply (own_perm _ _ _ Ho) in E as [Hnd _]. rewrite fmap_app, NoDup_app in Hnd. destruct Hnd as (_ & Hd & _).
  apply bool_decide_false. intros E%(rp_cells q). by destruct (Hd p E).
Qed.

(** The links of the parent of [p], compared with [p]. *)
Lemma is_node_link side s par p o b (k : K) F h q :
  own h (cells q o ++ F) -> p ∈ F.*1 -> is_node (link side (mkn s par (Some p) (rp o) b k)) p = eqb side s.
Proof.
  intros Ho Hp. assert (E : is_node (rp o) p = false) by (eapply rp_not; [exact Ho | apply _ | by rewrite app_nil_l]).
  assert (E' : is_node (Some p) p = true) by by apply bool_decide_true. by destruct side, s.
Qed.

Lemma is_node_side s par p o b (k : K) F h q :
  own h (cells q o ++ F) -> p ∈ F.*1 -> is_node (link1 (mkn s par (Some p) (rp o) b k)) p = s.
Proof. intros Ho Hp. transitivity (eqb true s); [exact (is_node_link true s par p o b k F h q Ho Hp) | by destruct s]. Qed.

Lemma wp_hang top c p m R F r h (Q : post) :
  own h R -> Pull (ctx_cells top c (Some p)) R F -> p ∈ F.*1 -> (c = [] -> top = None) -> 
  (forall h, own h (ctx_cells top c m ++ F) -> Q tt (mk_bavl (if c then m else r) h) []) ->
  wp (hang (cparent top c) p m) (mk_bavl r h) Q.
Proof.
  intros Ho E Hp Ht HQ. apply (own_perm _ _ _ Ho) in E as Ho'. clear Ho E. rename Ho' into Ho. destruct c as [|[s x b o] c]; cbn [cparent hang].
  - rewrite Ht by done. cbn [hang]. wp_step. by apply HQ.
  - cbn [ctx_cells] in Ho. eapply wp_bind, wp_node; [exact Ho | apply _ |]. rewrite (is_node_side s _ p o b _ (ctx_cells top c (Some x.2) ++ F) h (Some x.2)).
    + eapply wp_upd; [exact Ho | apply _ |]. clear Ho h. intros h Ho. autorewrite with bnode in *. apply HQ. cbn [ctx_cells]. own_perm_by.
    + rewrite <- !app_assoc in Ho. by apply own_app_r in Ho.
    + rewrite fmap_app. by apply elem_of_app; right.
Qed.


(** A step of an operation, with the ownership in the hypothesis [own h _]. *)
Ltac own_in := rewrite ?fmap_app, ?elem_of_app; cbn [fmap list_fmap fst]; rewrite ?list_elem_of_singleton; tauto.
Ltac own_next Ho h := clear Ho; try clear h; let h' := fresh h in intros h' Ho; autorewrite with bnode in Ho.
Ltac own_step :=
  lazymatch goal with
  | |- wp (bind _ _) _ _ => apply wp_bind
  | |- wp (deref (Some _)) _ _ => apply wp_ret
  | |- wp (adopt None _) _ _ => apply wp_ret
  | |- wp (node_ _) _ _ => match goal with Ho : own _ _ |- _ => eapply wp_node; [exact Ho | apply _ |] end
  | |- wp (upd _ _) _ _ => match goal with Ho : own ?h _ |- _ => eapply wp_upd; [exact Ho | apply _ |]; own_next Ho h end
  | |- wp (adopt _ _) _ _ => match goal with Ho : own ?h _ |- _ => eapply wp_adopt; [exact Ho | apply _ |]; own_next Ho h end
  | |- wp (hang _ _ _) _ _ =>
      match goal with Ho : own ?h _ |- _ => eapply wp_hang; [exact Ho | apply _ | own_in | done || (intros ?; contradiction) |]; own_next Ho h end
  | |- _ => wp_step
  end; cbn beta iota; autorewrite with bnode.
Ltac own_run := repeat own_step.

(** The tree in a context, and other nodes [F]. *)
Definition holds (h : gmap Z BAVLNode) c t F : Prop := own h (cells (cparent None c) t ++ ctx_cells None c (rp t) ++ F).

Ltac own_norm Ho := unfold holds in Ho; rewrite ?cells_nd in Ho; autorewrite with bnode in Ho.

Lemma holds_fill h f c t F : holds h c (fill f t) F <-> holds h (f :: c) t F.
Proof.
  destruct f as [s x b o]. unfold holds. cbn [fill cparent ctx_cells]. apply own_proper. rewrite cells_nd, rp_nd. aac_reflexivity.
Qed.

Lemma wp_rotate s x b cx cb cc cd d c F r h (Q : post) :
  holds h c (nd s x b (nd s cx cb cc cd) d) F ->
  (forall h, holds h c (nd s cx cb cc (nd s x b cd d)) F -> Q tt (mk_bavl (if c then Some cx.2 else r) h) []) ->
  wp (_BAVL_rotate x.2 (negb s)) (mk_bavl r h) Q.
Proof.
  intros Ho HQ. own_norm Ho. unfold _BAVL_rotate. own_run. apply HQ. unfold holds. own_perm_by.
Qed.

Lemma BAVL_MAX_max a b : BAVL_MAX a b = Z.max a b.
Proof. unfold BAVL_MAX. destruct (Z.gtb_spec a b); lia. Qed.

Lemma wp_transform s x b child d delta c F r h (Q : Z * Z -> BAVL -> list Empty_set -> Prop) :
  holds h c (nd s x b child d) F -> avl child -> avl d -> height child - height d = 2 ->
  (forall h p, let f := fixup s x child d delta in
    rp f.1 = Some p -> holds h c f.1 F -> Q (p, f.2) (mk_bavl (if c then Some p else r) h) []) ->
  wp (transform x.2 s delta) (mk_bavl r h) Q.
Proof.
  intros Ho Hc Hd Hdiff HQ. pose proof (height_nonneg d). cbv zeta in HQ.
  destruct (nd_view s child) as [->|(cx & cb & E)]; [cbn in *; lia|].
  remember (lnk s child) as cc. remember (lnk (negb s) child) as cd. subst child.
  apply avl_nd in Hc as (Hcb & Hcr & Hcc & Hcd). rewrite height_nd in *.
  clear Heqcc Heqcd. rewrite fixup_nd in HQ. unfold transform. fold (sgn s). pose proof Ho as Hr. own_norm Hr. own_run. clear Hr.
  revert HQ. destruct (Z.eqb_spec (cb * sgn s) 1) as [E1|E1]; [|destruct (Z.eqb_spec (cb * sgn s) 0) as [E0|E0]]; intros HQ.
  - own_step. eapply wp_rotate; [exact Ho|]. clear Ho h. intros h Ho. own_norm Ho. own_run.
    apply HQ; [apply rp_nd|]. unfold holds. cbn [fst]. own_perm_by.
  - own_step. eapply wp_rotate; [exact Ho|]. clear Ho h. intros h Ho. own_norm Ho. own_run.
    apply HQ; [apply rp_nd|]. unfold holds. cbn [fst]. own_perm_by.
  - assert (Em : cb * sgn s = -1) by (destruct s; cbn in *; lia). rewrite Em. cbn [Z.eqb Pos.eqb]. pose proof (height_nonneg cc).
    destruct (nd_view s cd) as [->|(gx & gb & E)]; [cbn in *; lia|].
    remember (lnk s cd) as gc. remember (lnk (negb s) cd) as gd. subst cd.
    assert (HQ' : forall h p, let f := (nd s gx 0 (nd s cx (Z.max 0 (- gb * sgn s) * sgn s) cc gc) (nd s x (- Z.max 0 (gb * sgn s) * sgn s) gd d), delta - 1) in
      rp f.1 = Some p -> holds h c f.1 F -> Q (p, f.2) (mk_bavl (if c then Some p else r) h) []).
    { clear -HQ. by destruct s. }
    clear HQ Heqgc Heqgd. cbv zeta in HQ'. rewrite (nd_flip s cx), (nd_flip s gx) in Ho.
    apply (holds_fill h (Fr s x b d)) in Ho. own_run. rewrite <- (negb_involutive s) at 1.
    eapply wp_rotate; [exact Ho|]. clear Ho h. intros h Ho. apply holds_fill in Ho. cbn [fill] in Ho.
    own_step. eapply wp_rotate; [rewrite (nd_flip (negb s) gx), negb_involutive in Ho; exact Ho|]. clear Ho h. intros h Ho.
    own_norm Ho. own_run. rewrite !BAVL_MAX_max, (mkn_flip (negb s)), negb_involutive in Ho.
    apply HQ'; [apply rp_nd|]. unfold holds. cbn [fst]. own_perm_by.
Qed.


Lemma rp_plug c t : rp (plug c t) = ctx_root c (rp t).
Proof. revert t. induction c as [|[s x b o] c IH]; intros t; cbn [plug fill ctx_root]; [done|]. by rewrite IH, rp_nd. Qed.

Lemma holds_plug h c t F : holds h [] (plug c t) F <-> holds h c t F.
Proof. revert t. induction c as [|f c IH]; intros t; cbn [plug]; [done|]. by rewrite IH, holds_fill. Qed.

(** Comparing a node with its parent's links gives its side. *)
Lemma link_of side h s x b o c t F p par (k : K) :
  holds h (Fr s x b o :: c) t F -> rp t = Some p -> is_node (link side (mkn s par (Some p) (rp o) b k)) p = eqb side s.
Proof.
  intros Ho Hp. apply (is_node_link side s par p o b k (cells (Some x.2) t) h (Some x.2)); [|by eapply rp_cells].
  apply (own_app_r _ ([(x.2, mkn s (cparent None c) (rp t) (rp o) b x.1)] ++ ctx_cells None c (Some x.2) ++ F)).
  unfold holds in Ho. eapply own_perm; [exact Ho|]. cbn [ctx_cells cparent]. aac_reflexivity.
Qed.

Lemma side_of h s x b o c t F p par (k : K) :
  holds h (Fr s x b o :: c) t F -> rp t = Some p -> is_node (link1 (mkn s par (Some p) (rp o) b k)) p = s.
Proof. intros Ho Hp. transitivity (eqb true s); [exact (link_of true _ _ _ _ _ _ _ _ _ _ _ Ho Hp) | by destruct s]. Qed.

(** One level of rebalancing computes [step]. *)
Lemma wp_level s x b o t deltac h0 c F r h (Q : Z * Z -> BAVL -> list Empty_set -> Prop) :
  let delta := Z.max deltac (BAVL_OPTNEG b s) - Z.max 0 (BAVL_OPTNEG b s) in
  let b' := b - BAVL_OPTNEG deltac s in
  avl t -> avl o -> b * sgn s = h0 - height o -> height t = h0 + deltac ->
  holds h c (nd s x b' t o) F -> (c = [] -> r = Some x.2) ->
  (forall h p, let f := step s x b o t deltac in
    rp f.1 = Some p -> holds h c f.1 F -> Q (p, f.2) (mk_bavl (if c then Some p else r) h) []) ->
  wp (if (b' =? 2) || (b' =? -2) then transform x.2 (b' =? 2) delta else ret (x.2, delta)) (mk_bavl r h) Q.
Proof.
  intros delta b' Ht Ho Hb Hh Hn Hr HQ.
  assert (Hb' : b' * sgn s = height t - height o) by (unfold b', BAVL_OPTNEG; destruct s; cbn in *; lia).
  unfold step in HQ. cbv zeta in HQ. fold delta b' in HQ. clearbody delta b'. revert HQ. 
  destruct (Z.eqb_spec b' 2) as [->|E2]; [|destruct (Z.eqb_spec b' (-2)) as [->|E3]]; cbn [orb]; intros HQ.
  - eapply (wp_transform true _ 2 (lnk true (nd s x 2 t o)) (lnk false (nd s x 2 t o))); [by destruct s | | | | exact HQ];
      destruct s; cbn in *; try done; lia.
  - eapply (wp_transform false _ (-2) (lnk false (nd s x (-2) t o)) (lnk true (nd s x (-2) t o))); [by destruct s | | | | exact HQ];
      destruct s; cbn in *; try done; lia.
  - wp_step. assert (Er : r = if c then Some x.2 else r) by (destruct c; [by apply Hr | done]). rewrite Er.
    apply (HQ h x.2); [apply rp_nd | done].
Qed.

Lemma in_range_true z : -1 <= z <= 1 -> in_range z = true.
Proof. unfold in_range. lia. Qed.

(** [_BAVL_rebalance] computes [reb]; one step for every level is enough. *)
Lemma wp_rebalance c s x b o t deltac h0 fuel F r h (Q : post) :
  holds h (Fr s x b o :: c) t F -> r = ctx_root (Fr s x b o :: c) (rp t) ->
  avl t -> ctx_avl (Fr s x b o :: c) h0 -> height t = h0 + deltac -> -1 <= deltac <= 1 -> (length c < fuel)%nat ->
  (forall h, let t' := reb (Fr s x b o :: c) t deltac in holds h [] t' F -> Q tt (mk_bavl (rp t') h) []) ->
  wp (_BAVL_rebalance fuel x.2 s deltac) (mk_bavl r h) Q.
Proof.
  revert c s x b o t deltac h0 r h. induction fuel as [|fuel IH]; intros c s x b o t deltac h0 r h Ho -> Ht Hc Hh Hd Hf HQ; [lia|].
  cbn [_BAVL_rebalance]. destruct Hc as (Hto & Hb & Hbr & Hc).
  pose proof Ho as Hr. apply holds_fill in Hr. cbn [fill] in Hr. own_norm Hr.
  own_step. wp_step; [by apply in_range_true|]. own_step. own_step. own_step. wp_step; [by apply in_range_true|].
  cbv zeta in HQ. cbn [reb] in HQ. revert HQ. destruct (Z.eqb_spec deltac 0) as [->|Ed]; intros HQ.
  { wp_step. rewrite <- rp_plug. by apply HQ, holds_plug. }
  rewrite !BAVL_MAX_max. clear Ho. rename Hr into Ho.
  destruct (step_ok s x b o t deltac h0 Ht Hto Hh Hd Hb Hbr) as (Hta & Hth & Hr & _).
  own_step. wp_step. { apply in_range_true. unfold BAVL_OPTNEG. destruct s; cbn in *; lia. }
  own_step. own_step. own_step. eapply (wp_level s x b o t deltac h0 c F); try done.
  { unfold holds. own_perm_by. } { by intros ->. }
  clear Ho h. cbv zeta. intros h p Hp Ho. cbn [fst snd].
  own_step. wp_step; [by apply in_range_true|]. remember (step s x b o t deltac) as f eqn:Ef. destruct f as [t' d']. cbn [fst snd] in *.
  destruct t' as [|l' x' b' r']; [done|]. injection Hp as <-. pose proof Ho as Hn. unfold holds in Hn. cbn [cells] in Hn.
  own_step. own_step. clear Hn. destruct c as [|[s1 x1 b1 o1] c]; cbn [cparent].
  - wp_step. by apply HQ.
  - pose proof Ho as Hn. unfold holds in Hn. cbn [ctx_cells rp] in Hn. own_step. own_step.
    rewrite (side_of _ _ _ _ _ _ _ _ _ _ _ Ho) by done. eapply IH; try done. cbn in Hf. lia.
Qed.

(** *** Removal *)

Lemma cparent_app top c c' : cparent top (c ++ c') = cparent (cparent top c') c.
Proof. by destruct c as [|[] ?]. Qed.

Lemma ctx_root_app c c' hole : ctx_root (c ++ c') hole = ctx_root c' (ctx_root c hole).
Proof. revert hole. induction c as [|[] c IH]; intros hole; [done|]. cbn. apply IH. Qed.

Lemma ctx_root_ne c hole hole' : c <> [] -> ctx_root c hole = ctx_root c hole'.
Proof. by destruct c as [|[] c]. Qed.

Lemma cparent_ne c top top' : c <> [] -> cparent top c = cparent top' c.
Proof. by destruct c as [|[] c]. Qed.

Lemma ctx_cells_app top c c' hole :
  ctx_cells top (c ++ c') hole = ctx_cells (cparent top c') c hole ++ ctx_cells top c' (ctx_root c hole).
Proof.
  revert hole. induction c as [|[s x b o] c IH]; intros hole; [done|]. cbn [app ctx_cells ctx_root]. rewrite IH, cparent_app.
  by rewrite <- !app_assoc.
Qed.

(** Giving a context another parent. *)
Lemma wp_adopt_ctx c hole q q' R F r h (Q : post) :
  c <> [] -> own h R -> Pull (ctx_cells q c hole) R F ->
  (forall h, own h (ctx_cells q' c hole ++ F) -> Q tt (mk_bavl r h) []) -> wp (adopt (ctx_root c hole) q') (mk_bavl r h) Q.
Proof.
  revert hole R F h. induction c as [|[s x b o] c IH]; intros hole R F h Hne Ho E HQ; [done|].
  apply (own_perm _ _ _ Ho) in E as Ho'. clear Ho E. rename Ho' into Ho. cbn [ctx_cells ctx_root] in *.
  destruct c as [|f c]; [|eapply IH; [done | exact Ho | apply _ |]; clear Ho h; intros h Ho; apply HQ].
  - cbn [cparent ctx_cells ctx_root adopt] in *. own_run. apply HQ. own_perm_by.
  - replace (cparent q' (f :: c)) with (cparent q (f :: c)) by by destruct f. own_perm_by.
Qed.

Lemma wp_replace_subtree s x b t c F r h (Q : post) :
  holds h c (nd s x b t L) F ->
  (forall h n, holds h c t ([(x.2, n)] ++ F) -> Q tt (mk_bavl (if c then rp t else r) h) []) ->
  wp (_BAVL_replace_subtree x.2 (rp t)) (mk_bavl r h) Q.
Proof.
  intros Ho HQ. own_norm Ho. unfold _BAVL_replace_subtree. own_run. apply (HQ h (mkn s (cparent None c) (rp t) (rp (@L K)) b x.1)). unfold holds. own_perm_by.
Qed.

(** The context above a node has no node of the tree below. *)
Lemma cparent_not h c t F p : holds h c t F -> p ∈ (cells (cparent None c) t ++ F).*1 -> is_node (cparent None c) p = false.
Proof.
  intros Ho Hp. apply bool_decide_false. destruct c as [|[s x b o] c]; cbn [cparent]; [done|]. intros [= <-].
  assert (Hr : own h ([(x.2, mkn s (cparent None c) (rp t) (rp o) b x.1)] ++ (cells (Some x.2) o ++ ctx_cells None c (Some x.2)) ++
    cells (Some x.2) t ++ F)) by (unfold holds in Ho; eapply own_perm; [exact Ho|]; cbn [ctx_cells cparent]; aac_reflexivity).
  destruct Hr as [Hnd _]. rewrite fmap_app in Hnd. cbn in Hnd. apply NoDup_cons in Hnd as [Hn _]. destruct Hn.
  rewrite fmap_app. apply elem_of_app. by right.
Qed.

Lemma holds_app h c c' t F : holds h (c ++ c') t F <-> holds h c' (plug c t) F.
Proof. by rewrite <- holds_plug, plug_app, holds_plug. Qed.

(** Swapping a node with the greatest one of its left subtree. *)
Lemma wp_swap_nodes c' x b r0 l' x' b' c F r h (Q : post) :
  holds h (c' ++ Fr false x b r0 :: c) (N l' x' b' L) F ->
  (forall h, holds h (c' ++ Fr false x' b r0 :: c) (N l' x b' L) F -> Q tt (mk_bavl (if c then Some x'.2 else r) h) []) ->
  wp (_BAVL_swap_nodes x.2 x'.2) (mk_bavl r h) Q.
Proof.
  intros Ho HQ.
  assert (Hpar : is_node (cparent None c) x'.2 = false).
  { pose proof Ho as Hc. apply holds_app, holds_fill in Hc. apply (cparent_not _ _ _ _ _ Hc). rewrite fmap_app, cells_addrs.
    cbn [fill]. rewrite inorder_nd, inorder_ctx. cbn [inorder]. rewrite !fmap_app, !fmap_cons, !elem_of_app, elem_of_cons. tauto. }
  unfold holds in Ho. rewrite cparent_app, ctx_cells_app in Ho. cbn [cparent ctx_cells] in Ho.
  unfold _BAVL_swap_nodes.
  assert (Hr0 : is_node (rp r0) x'.2 = false) by (eapply rp_not; [exact Ho | apply _ | cbn [cells]; own_in]).
  destruct (decide (c' = [])) as [->|Hc'].
  - cbn [cparent ctx_root ctx_cells cells rp] in *. own_run. unfold is_node at 1. rewrite bool_decide_true by done. rewrite Hpar. cbn [orb].
    unfold swap_connected. own_step. own_step. rewrite Hr0. own_run. apply HQ. unfold holds. change ([] ++ ?l) with l.
    cbn [cparent ctx_cells cells rp]. own_perm_by.
  - assert (Hne : is_node (cparent (Some x.2) c') x.2 = false).
    { destruct c' as [|[s1 x1 b1 o1] c']; [done|]. apply bool_decide_false. intros [= E]. revert E.
      cbn [ctx_cells] in Ho. eapply own_ne; [exact Ho | apply _ | own_in]. }
    cbn [cells rp] in Ho. rewrite (ctx_root_ne c' (Some x'.2) (Some x.2)) in Ho by done.
    own_run. rewrite Hpar, Hne. cbn [orb]. unfold swap_apart, swap_children. own_run.
    eapply wp_adopt_ctx; [done | exact Ho | apply _ |]. clear Ho h. intros h Ho. own_run.
    replace (match c' with [] => Some x.2 | _ => r end) with r by by destruct c'.
    apply HQ. unfold holds. rewrite cparent_app, ctx_cells_app. cbn [cparent ctx_cells cells rp].
    rewrite (cparent_ne c' (Some x'.2) (Some x.2)) by done. own_perm_by.
Qed.

(** The heap has enough nodes for the fuel. *)
Lemma holds_size h c t F : holds h c t F -> Z.of_nat (length c) + height t <= Z.of_nat (size h).
Proof.
  intros Ho. apply holds_plug in Ho. pose proof (ctx_size c t). apply own_length in Ho.
  rewrite length_app, <- (length_fmap fst (cells _ _)), cells_addrs, length_fmap in Ho. unfold zlen in *. lia.
Qed.

Lemma wp_descend s t c fuel e n F r h (Q : Z -> BAVL -> list Empty_set -> Prop) :
  holds h c t F -> rp t = Some n -> end_of s t = Some e -> height t <= Z.of_nat fuel ->
  Q e.2 (mk_bavl r h) [] -> wp (descend fuel s n) (mk_bavl r h) Q.
Proof.
  revert t c n. induction fuel as [|fuel IH]; intros t c n Ho Hn He Hf HQ; cbn [descend].
  all: destruct (nd_view s t) as [->|(x & b & E)]; [done|]; rewrite E in *; clear E; rewrite rp_nd in Hn; injection Hn as <-.
  all: rewrite height_nd in Hf; pose proof (height_nonneg (lnk s t)); pose proof (height_nonneg (lnk (negb s) t)).
  { lia. }
  remember (lnk s t) as t1. remember (lnk (negb s) t) as t2. clear Heqt1 Heqt2 t. rewrite end_of_nd in He.
  pose proof Ho as Hr. own_norm Hr. own_step. own_step. clear Hr. destruct (rp t1) as [n'|] eqn:En.
  - destruct (end_of s t1) as [e'|] eqn:Ee; [|apply end_of_none in Ee; by subst]. injection He as ->.
    eapply (IH t1 (Fr s x b t2 :: c)); [by apply holds_fill | done | done | lia | done].
  - destruct t1; [|done]. injection He as <-. by wp_step.
Qed.

(** [remove_single] takes out a node that has at most one child. *)
Lemma wp_remove_single s x b t c F r h (Q : post) :
  holds h c (nd s x b t L) F -> r = ctx_root c (Some x.2) -> avl (plug c (nd s x b t L)) ->
  (forall h n, let t' := reb c t (-1) in holds h [] t' ([(x.2, n)] ++ F) -> Q tt (mk_bavl (rp t') h) []) ->
  wp (remove_single x.2) (mk_bavl r h) Q.
Proof.
  intros Ho -> Ha HQ. unfold remove_single. pose proof (holds_size _ _ _ _ Ho) as Hs.
  apply avl_unplug in Ha as [Ht Hc]. apply avl_nd in Ht as (Hb & Hbr & Ht & _). rewrite height_nd in *. pose proof (height_nonneg t).
  pose proof Ho as Hr. own_norm Hr. own_step. own_step. own_step. own_step. own_step.
  wp_step. { destruct s; cbn; destruct (rp t); done. }
  assert (Echild : match link0 (mkn s (cparent None c) (rp t) None b x.1) with Some l => Some l | None => link1 (mkn s (cparent None c) (rp t) None b x.1) end = rp t).
  { destruct s; cbn; by destruct (rp t). }
  cbn [rp]. rewrite Echild. clear Echild. destruct c as [|[s1 x1 b1 o1] c]; cbn [cparent].
  - eapply wp_replace_subtree; [exact Ho|]. intros h1 n H1. by eapply HQ.
  - cbn [ctx_cells cparent] in Hr. own_step. own_step.
    erewrite side_of; [|exact Ho | apply rp_nd]. own_step. eapply wp_replace_subtree; [exact Ho|]. clear Hr. intros h1 n H1. 
    eapply wp_rebalance; [exact H1 | | done | exact Hc | cbn [height]; lia | lia | | intros h2 t' H2; by apply (HQ h2 n)].
    + done.
    + unfold fuel_for. cbn [nodes length height] in *. lia.
Qed.

(** [BAVL_Remove] computes [remove_at]. *)
Lemma wp_remove c l x b r0 F r h (Q : post) :
  let t := N l x b r0 in
  holds h c t F -> r = rp (plug c t) -> avl (plug c t) ->
  (forall h n, let t' := remove_at c t in holds h [] t' ([(x.2, n)] ++ F) -> Q tt (mk_bavl (rp t') h) []) ->
  wp (BAVL_Remove x.2) (mk_bavl r h) Q.
Proof.
  intros t Ho -> Ha HQ. cbv zeta in HQ. pose proof Ho as Hr. subst t. own_norm Hr. cbn [cells] in Hr. unfold BAVL_Remove. own_step. own_step. clear Hr. own_step.
  destruct l as [|ll lx lb lr]; [|destruct r0 as [|rl rx rb rr]]; cbn [rp].
  - wp_step. eapply (wp_remove_single true x b r0); [exact Ho | apply rp_plug | exact Ha |]. intros h' n.
    replace (reb c r0 (-1)) with (remove_at c (N L x b r0)) by by destruct r0. apply HQ.
  - wp_step. eapply (wp_remove_single false x b (N ll lx lb lr)); [exact Ho | apply rp_plug | exact Ha | exact HQ].
  - cbn [remove_at] in HQ. remember (N rl rx rb rr) as r0 eqn:Er. clear Er rl rx rb rr.
    destruct (locate_max ll lx lb lr []) as [[[c' l'] x'] b'] eqn:E.
    pose proof (locate_max_app ll lx lb lr [] (Fr false x b r0 :: c)) as E1. rewrite E in E1. cbn [app] in E1.
    pose proof (locate_max_plug _ _ _ _ _ _ _ _ _ E1) as Ep. cbn [plug fill nd] in Ep.
    unfold _BAVL_subtree_max. own_step. own_step. own_step. pose proof (holds_size _ _ _ _ Ho) as Hs. cbn [height] in Hs.
    eapply (wp_descend true (N ll lx lb lr) (Fr false x b r0 :: c)); [by apply holds_fill | done | by eapply locate_max_end | |].
    { unfold fuel_for. cbn [nodes height]. lia. }
    eapply (wp_swap_nodes c' x b r0 l' x' b' c); [by apply holds_plug; rewrite Ep; apply holds_plug|].
    clear Ho h Hs. intros h Ho. rewrite <- Ep in Ha. apply avl_unplug in Ha as [(Hb & Hbr & Hl & _) Hc].
    apply (ctx_avl_rename _ _ _ x') in Hc.
    eapply (wp_remove_single false x b' l'); [exact Ho | | apply avl_plug; [by apply avl_nd; cbn in *; split_and!; try lia | exact Hc] | exact HQ].
    rewrite ctx_root_app, rp_plug. destruct c as [|[] c]; [done|]. done.
Qed.

(** *** Neighbours *)

Lemma wp_get_end s t F h (Q : option Z -> BAVL -> list Empty_set -> Prop) :
  holds h [] t F -> Q (snd <$> end_of s t) (mk_bavl (rp t) h) [] -> wp (get_end s) (mk_bavl (rp t) h) Q.
Proof.
  intros Ho HQ. unfold get_end. own_step. own_step. cbn [root]. pose proof (holds_size _ _ _ _ Ho) as Hs. destruct (rp t) as [n|] eqn:En.
  - own_step. destruct (end_of s t) as [e|] eqn:Ee; [|apply end_of_none in Ee; by subst].
    eapply wp_descend; [exact Ho | done | done | unfold fuel_for; cbn [nodes length] in *; lia |]. by own_step.
  - destruct t; [|done]. by own_step.
Qed.

Lemma wp_ascend s c t n F fuel r h (Q : option Z -> BAVL -> list Empty_set -> Prop) :
  holds h c t F -> rp t = Some n -> (length c < fuel)%nat ->
  Q (snd <$> up s c) (mk_bavl r h) [] -> wp (ascend fuel s n) (mk_bavl r h) Q.
Proof.
  revert c t n. induction fuel as [|fuel IH]; intros c t n Ho Hn Hf HQ; [lia|]. cbn [ascend].
  destruct t as [|l x b r0]; [done|]. injection Hn as <-. pose proof Ho as Hr. unfold holds in Hr. cbn [cells] in Hr. own_step. own_step.
  destruct c as [|[s1 x1 b1 o1] c]; cbn [cparent]; [by own_step|]. cbn [ctx_cells rp] in Hr. own_step. own_step.
  erewrite link_of; [|exact Ho | done]. cbn [up] in HQ. revert HQ. destruct (eqb s s1); intros HQ; [|by own_step].
  eapply (IH c (nd s1 x1 b1 (N l x b r0) o1)); [by apply (holds_fill h (Fr s1 x1 b1 o1)) | apply rp_nd | cbn in Hf; lia | done].
Qed.

Lemma wp_neighbour s x b t o c F r h (Q : option Z -> BAVL -> list Empty_set -> Prop) :
  holds h c (nd s x b t o) F -> Q (snd <$> next s c t) (mk_bavl r h) [] -> wp (neighbour s x.2) (mk_bavl r h) Q.
Proof.
  intros Ho HQ. unfold neighbour. pose proof (holds_size _ _ _ _ Ho) as Hs. rewrite height_nd in Hs. pose proof (height_nonneg t).
  pose proof Ho as Hr. own_norm Hr. own_step. own_step. own_step. own_step. unfold next in HQ. destruct (rp t) as [n|] eqn:En.
  - own_step. destruct (end_of (negb s) t) as [e|] eqn:Ee; [|apply end_of_none in Ee; by subst].
    eapply (wp_descend _ t (Fr s x b o :: c)); [by apply holds_fill | done | done | unfold fuel_for; cbn [nodes]; lia |]. by own_step.
  - destruct t; [|done]. eapply wp_ascend; [exact Ho | apply rp_nd | unfold fuel_for; cbn [nodes]; lia | done].
Qed.

(** *** Searching *)

Section Searching.
Context (cmp : K -> K -> Z).

(** What a search reports, from the context and the tree it ends in. *)
Definition found (z : list (@frame K) * @bt K) : Z * option bool :=
  match z.2 with
  | N _ x _ _ => (x.2, None)
  | L => match z.1 with Fr s x _ _ :: _ => (x.2, Some s) | [] => (0, None) end
  end.

(** [compare] compares the key [k] with those of the nodes. *)
Definition compares (compare : Z -> M (@BAVL K) Empty_set Z) (k : K) (s : BAVL) (t : @bt K) : Prop :=
  forall y (Q : Z -> BAVL -> list Empty_set -> Prop), y ∈ inorder t -> Q (cmp k y.1) s [] -> wp (compare y.2) s Q.

Lemma wp_search compare k t c fuel n F r h (Q : Z * option bool -> BAVL -> list Empty_set -> Prop) :
  compares compare k (mk_bavl r h) t -> holds h c t F -> rp t = Some n -> height t <= Z.of_nat fuel ->
  Q (found (locate cmp k t c)) (mk_bavl r h) [] -> wp (search_loop fuel compare n) (mk_bavl r h) Q.
Proof.
  revert t c n. induction fuel as [|fuel IH]; intros t c n Hcmp Ho Hn Hf HQ; (destruct t as [|l x b r0]; [done|]); injection Hn as <-.
  { pose proof (height_nonneg l). pose proof (height_nonneg r0). cbn [height] in Hf. lia. }
  cbn [search_loop locate height] in *. wp_step. apply Hcmp; [cbn [inorder]; rewrite elem_of_app; right; by left|].
  revert HQ. destruct (cmp k x.1 =? 0); intros HQ; [by wp_step|]. wp_step. pose proof Ho as Hr. unfold holds in Hr. cbn [cells] in Hr. own_step. clear Hr.
  revert HQ. destruct (cmp k x.1 =? 1); intros HQ.
  - rewrite link_true_mkn. destruct (rp r0) as [n'|] eqn:En.
    + eapply (IH r0); [| by apply (holds_fill h (Fr true x b l)) | done | lia | exact HQ].
      intros y Q' Hy. apply Hcmp. cbn. rewrite elem_of_app. right. by right.
    + destruct r0; [|done]. by wp_step.
  - rewrite link_mkn. destruct (rp l) as [n'|] eqn:En.
    + eapply (IH l); [| by apply (holds_fill h (Fr false x b r0)) | done | lia | exact HQ].
      intros y Q' Hy. apply Hcmp. cbn. rewrite elem_of_app. by left.
    + destruct l; [|done]. by wp_step.
Qed.

(** The assertion on the comparator's result holds for the keys of the tree. *)
Definition comparable (k : K) (t : @bt K) : Prop :=
  forall y, y ∈ inorder t -> cmp k y.1 = -1 \/ cmp k y.1 = 0 \/ cmp k y.1 = 1.

Lemma wp_compare_values k k' s (Q : Z -> BAVL -> list Empty_set -> Prop) :
  cmp k k' = -1 \/ cmp k k' = 0 \/ cmp k k' = 1 -> Q (cmp k k') s [] -> wp (_BAVL_compare_values cmp k k') s Q.
Proof. intros Hr HQ. unfold _BAVL_compare_values. wp_run. lia. Qed.

(** The node of an element. *)
Lemma holds_value h t y F : holds h [] t F -> y ∈ inorder t -> exists n, h !! y.2 = Some n /\ value n = y.1.
Proof.
  intros [_ Hf] Hy. apply Forall_app in Hf as [Hf _]. revert Hf Hy. cbn [cparent]. generalize (@None Z).
  induction t as [|l IHl x b r IHr]; intros par Hf Hy; cbn [cells inorder] in *; [by apply elem_of_nil in Hy|].
  apply Forall_app in Hf as [Hx Hf]. apply Forall_app in Hf as [Hl Hr]. apply elem_of_app in Hy as [Hy|[->|Hy]%elem_of_cons].
  - by eapply IHl.
  - apply Forall_cons in Hx as [Hx _]. eexists. split; [exact Hx | done].
  - by eapply IHr.
Qed.

Lemma compare_with_compares k t r h F : comparable k t -> holds h [] t F -> compares (compare_with cmp k) k (mk_bavl r h) t.
Proof.
  intros Hc Ho y Q Hy HQ. destruct (holds_value _ _ _ _ Ho Hy) as (n & Hn & Ev).
  unfold compare_with. wp_step. eapply wp_load; [exact Hn|]. rewrite Ev. apply wp_compare_values; [by apply Hc | done].
Qed.

Lemma compare_nodes_compares p np t r h F :
  h !! p = Some np -> comparable (value np) t -> holds h [] t F ->
  compares (_BAVL_compare_nodes cmp p) (value np) (mk_bavl r h) t.
Proof.
  intros Hp Hc Ho y Q Hy HQ. destruct (holds_value _ _ _ _ Ho Hy) as (n & Hn & Ev).
  unfold _BAVL_compare_nodes. wp_step. eapply wp_load; [exact Hp|]. wp_step. eapply wp_load; [exact Hn|]. rewrite Ev.
  apply wp_compare_values; [by apply Hc | done].
Qed.

Lemma init_node_mkn q (n : @BAVLNode K) : init_node q n = mkn false q None None 0 (value n).
Proof. done. Qed.

(** *** The operations compute the functions on trees *)

Lemma wp_insert p np t F h (Q : bool * option Z -> BAVL -> list Empty_set -> Prop) :
  holds h [] t ([(p, np)] ++ F) -> avl t -> comparable (value np) t ->
  (let r := locate cmp (value np) t [] in
   match r.2 with
   | L => forall h, let t' := reb r.1 (N L (value np, p) 0 L) 1 in
       holds h [] t' F -> Q (true, cparent None r.1) (mk_bavl (rp t') h) []
   | N _ x _ _ => Q (false, Some x.2) (mk_bavl (rp t) h) []
   end) ->
  wp (BAVL_Insert cmp p) (mk_bavl (rp t) h) Q.
Proof.
  intros Ho Ha Hc HQ. cbv zeta in HQ. unfold BAVL_Insert. own_step. own_step. cbn [root].
  destruct (rp t) as [n|] eqn:En; cycle 1.
  { destruct t; [|done]. cbn [locate fst snd reb] in HQ. own_step. wp_step. pose proof Ho as Hr. own_norm Hr. clear Ho.
    change (set_root (Some p) (mk_bavl None h)) with (mk_bavl (Some p) h). own_step. own_step. own_step. apply HQ. unfold holds. cbn [cparent cells ctx_cells rp fst snd reb locate].
    eapply own_perm; [exact Hr|]. cbn. done. }
  pose proof (locate_plug cmp (value np) t []) as Ep. cbv zeta in Ep. cbn [plug] in Ep.
  assert (Hp : h !! p = Some np) by (unfold holds in Ho; eapply own_lookup; [exact Ho | apply _]).
  pose proof (holds_size _ _ _ _ Ho) as Hs. own_step.
  eapply wp_search; [by eapply compare_nodes_compares | exact Ho | exact En | unfold fuel_for; cbn [nodes length] in *; lia |].
  destruct (locate cmp (value np) t []) as [c' t0]. unfold found. cbn [fst snd] in *.
  destruct t0 as [|l x b r0]; [|cbn [fst snd]; by wp_step].
  clear Hp. destruct c' as [|[s x b o] c]; [by subst t|]. cbn [fst snd]. rewrite <- Ep in Ha. apply avl_unplug in Ha as [_ Hctx].
  pose proof Ho as Hr. rewrite <- Ep in Hr. apply (holds_plug h (Fr s x b o :: c)) in Hr.
  pose proof (holds_size _ _ _ _ Hr) as Hs2. unfold holds in Hr. cbn [ctx_cells] in Hr. clear Ho. rename Hr into Ho.
  own_step. own_step. own_step. own_step. own_step.
  eapply (wp_rebalance c s x b o (N L (value np, p) 0 L) 1 0 _ F).
  - unfold holds. eapply own_perm; [exact Ho|]. cbn [cparent ctx_cells cells rp snd fst].
    rewrite init_node_mkn. aac_reflexivity.
  - rewrite <- En, <- Ep, rp_plug. done.
  - cbn. lia.
  - exact Hctx.
  - cbn. lia.
  - lia.
  - unfold fuel_for. cbn [nodes length height] in *. lia.
  - intros h1 t' H1. cbn [fst snd]. wp_step. by apply HQ.
Qed.

Lemma wp_lookup k t F h (Q : option Z -> BAVL -> list Empty_set -> Prop) :
  holds h [] t F -> comparable k t ->
  Q (if t then None else Some (found (locate cmp k t [])).1) (mk_bavl (rp t) h) [] -> wp (BAVL_Lookup cmp k) (mk_bavl (rp t) h) Q.
Proof.
  intros Ho Hc HQ. unfold BAVL_Lookup. own_step. own_step. cbn [root]. destruct t as [|l x b r0]; cbn [rp]; [by own_step|].
  own_step. pose proof (holds_size _ _ _ _ Ho) as Hs.
  eapply wp_search; [by eapply compare_with_compares | exact Ho | done | unfold fuel_for; cbn [nodes length] in *; lia |]. by own_step.
Qed.

Lemma wp_lookup_exact k t F h (Q : option Z -> BAVL -> list Empty_set -> Prop) :
  holds h [] t F -> comparable k t ->
  Q (match (locate cmp k t []).2 with N _ x _ _ => Some x.2 | L => None end) (mk_bavl (rp t) h) [] ->
  wp (BAVL_LookupExact cmp k) (mk_bavl (rp t) h) Q.
Proof.
  intros Ho Hc HQ. unfold BAVL_LookupExact. own_step. own_step. cbn [root].
  destruct (rp t) as [n|] eqn:En; [|destruct t; [by own_step | done]].
  own_step. pose proof (holds_size _ _ _ _ Ho) as Hs.
  eapply wp_search; [by eapply compare_with_compares | exact Ho | done | unfold fuel_for; cbn [nodes length] in *; lia |].
  pose proof (locate_plug cmp k t []) as Ep. cbv zeta in Ep. cbn [plug] in Ep.
  wp_step. unfold found. destruct (locate cmp k t []) as [[|[s x b o] c] [|l' x' b' r']]; try done. cbn in Ep. by subst t.
Qed.

(** The checks of [BAVL_Verify]. *)
Lemma wp_assert_child recurser s x b t o c F r h (Q : Z -> BAVL -> list Empty_set -> Prop) :
  holds h c (nd s x b t o) F ->
  (forall y, rp t = Some y.2 -> y ∈ inorder t -> cmp y.1 x.1 = if s then 1 else -1) ->
  (t = L -> Q 0 (mk_bavl r h) []) ->
  (forall n, rp t = Some n -> wp (recurser n) (mk_bavl r h) Q) ->
  wp (assert_child cmp recurser x.2 s (rp t)) (mk_bavl r h) Q.
Proof.
  intros Ho Hc HL HQ. unfold assert_child. destruct t as [|tl tx tb tr]; cbn [rp]; [wp_step; by apply HL|].
  pose proof Ho as Hr. own_norm Hr. cbn [cells] in Hr. own_step. own_step. own_step.
  wp_step; [by apply bool_decide_true|]. own_step. unfold _BAVL_compare_nodes. own_step. own_step. own_step. own_step.
  assert (E : cmp tx.1 x.1 = if s then 1 else -1) by (apply (Hc tx); [done | cbn; rewrite elem_of_app; right; by left]).
  apply wp_compare_values; rewrite E; [destruct s; lia|].
  own_step. wp_step; [by apply Z.eqb_refl|]. by apply HQ.
Qed.

Lemma wp_assert_recurser t c n F fuel r h (Q : Z -> BAVL -> list Empty_set -> Prop) :
  holds h c t F -> rp t = Some n -> avl t -> sorted cmp (inorder t) ->
  (forall y z, y ∈ inorder t -> z ∈ inorder t -> key_lt cmp y z -> cmp z.1 y.1 = 1) ->
  height t <= Z.of_nat fuel -> Q (height t) (mk_bavl r h) [] -> wp (_BAVL_assert_recurser cmp fuel n) (mk_bavl r h) Q.
Proof.
  revert t c n Q. induction fuel as [|fuel IH]; intros t c n Q Ho Hn Ha Hs Hopp Hf HQ; (destruct t as [|l x b r0]; [done|]); injection Hn as <-.
  { pose proof (height_nonneg l). pose proof (height_nonneg r0). cbn [height] in Hf. lia. }
  destruct Ha as (Hb & Hbr & Hal & Har). cbn [inorder] in *. apply sorted_app in Hs as (Hsl & Hsr & Hlt).
  apply StronglySorted_inv in Hsr as [Hsr Hgt]. rewrite Forall_forall in Hgt. cbn [height] in *.
  assert (Hin : forall y, y ∈ inorder l \/ y = x \/ y ∈ inorder r0 -> y ∈ inorder l ++ x :: inorder r0).
  { intros y. by rewrite elem_of_app, elem_of_cons. }
  pose proof Ho as Hr. unfold holds in Hr. cbn [cells] in Hr.
  cbn [_BAVL_assert_recurser]. own_step. own_step. own_step. wp_step; [by apply in_range_true|]. own_step.
  assert (Hright : forall hl, hl = height l ->
    wp (height_right <- assert_child cmp (_BAVL_assert_recurser cmp fuel) x.2 true (rp r0) ;; assert (b =? height_right - hl) ;;
      ret (BAVL_MAX hl height_right + 1)) (mk_bavl r h) Q).
  { intros hl ->. own_step. assert (Hend : forall hr, hr = height r0 ->
      wp (assert (b =? hr - height l) ;; ret (BAVL_MAX (height l) hr + 1)) (mk_bavl r h) Q).
    { intros hr ->. own_step. wp_step; [lia|]. wp_step. rewrite BAVL_MAX_max, Z.add_comm. exact HQ. }
    eapply (wp_assert_child _ true x b r0 l c); [exact Ho | | intros ->; by apply Hend |].
    - intros y _ Hy. apply Hopp; [apply Hin; tauto | apply Hin; tauto | by apply Hgt].
    - intros n Hn. eapply (IH r0 (Fr true x b l :: c)); try done; [by apply holds_fill | | lia | by apply Hend].
      intros y z Hy Hz. apply Hopp; apply Hin; tauto. }
  eapply (wp_assert_child _ false x b l r0 c); [exact Ho | | intros ->; by apply Hright |].
  - intros y _ Hy. apply Hlt; [done | by left].
  - intros n Hn. eapply (IH l (Fr false x b r0 :: c)); try done; [by apply holds_fill | | lia | by apply Hright].
    intros y z Hy Hz. apply Hopp; apply Hin; tauto.
Qed.

Lemma wp_verify t F h (Q : unit -> BAVL -> list Empty_set -> Prop) :
  holds h [] t F -> avl t -> sorted cmp (inorder t) ->
  (forall y z, y ∈ inorder t -> z ∈ inorder t -> key_lt cmp y z -> cmp z.1 y.1 = 1) ->
  Q tt (mk_bavl (rp t) h) [] -> wp (BAVL_Verify cmp) (mk_bavl (rp t) h) Q.
Proof.
  intros Ho Ha Hs Hopp HQ. unfold BAVL_Verify. own_step. own_step. cbn [root]. pose proof (holds_size _ _ _ _ Ho) as Hz.
  destruct t as [|l x b r0]; cbn [rp]; [by own_step|]. pose proof Ho as Hr. unfold holds in Hr. cbn [cells] in Hr.
  own_step. own_step. own_step. wp_step; [done|]. own_step.
  eapply wp_assert_recurser; [exact Ho | done | done | done | done | unfold fuel_for; cbn [nodes length] in *; lia |]. by own_step.
Qed.

End Searching.

End Pointers.
End Bavl.
