(* ===== verification/BavlTree.v ===== *)
(** * BavlTree: what the AVL tree does for its users

    [Bavl] computes the functions of [AvlTree] on pointers.  Here this becomes the
    contract of [badvpn/structure/BAVL.h]: a tree [represents] the list of its keys and
    nodes in the order of the comparator; inserting puts a node at its place, removing
    takes it out, looking up finds the key or a neighbour of it, and going through the
    tree gives the list.  All of it without a fault and in a number of steps that is
    logarithmic in the number of nodes ([height_log]).  The last part makes the tree an
    instance of [SearchTree], so that what is proved of the program's components against
    that class holds for this tree. *)

From S2P Require Import Prelude SearchTree AvlTree BAVL BAddr.
Open Scope mon_scope.

#[local] Arguments Z.add : simpl never.
#[local] Arguments Z.sub : simpl never.
#[local] Arguments Z.max : simpl never.
#[local] Arguments Z.mul : simpl never.

Module BavlTree.
Import Avl Bavl.

(** ** Heights *)

Section Height.
Context {K : Type}.

(** A balanced tree of height [2 * h] has at least [2 ^ h - 1] nodes. *)
Lemma height_pow (t : @bt K) h : avl t -> 2 * Z.of_nat h <= height t -> 2 ^ Z.of_nat h <= zlen (inorder t) + 1.
Proof.
  revert t. induction h as [|h IH]; intros t Ha Hh; [pose proof (zlen_nonneg (inorder t)); change (2 ^ Z.of_nat 0) with 1; lia|].
  rewrite Nat2Z.inj_succ, Z.pow_succ_r by lia. destruct t as [|l x b r]; [cbn in Hh; lia|]. destruct Ha as (Hb & Hbr & Hl & Hr).
  cbn [height inorder] in *. rewrite zlen_app, zlen_cons. pose proof (IH l Hl ltac:(lia)). pose proof (IH r Hr ltac:(lia)). lia.
Qed.

Lemma height_log (t : @bt K) : avl t -> height t <= 2 * Z.log2 (zlen (inorder t) + 1) + 1.
Proof.
  intros Ha. pose proof (height_nonneg t). pose proof (zlen_nonneg (inorder t)).
  pose proof (height_pow t (Z.to_nat (height t / 2)) Ha) as Hp. rewrite Z2Nat.id in Hp by dlia.
  assert (Hl : height t / 2 <= Z.log2 (zlen (inorder t) + 1)) by (apply Z.log2_le_pow2; [lia | apply Hp; dlia]). dlia.
Qed.
End Height.

Lemma split_unique {A} (x : A) (l1 l2 k1 k2 : list A) : NoDup (l1 ++ x :: l2) -> l1 ++ x :: l2 = k1 ++ x :: k2 -> l1 = k1 /\ l2 = k2.
Proof.
  revert k1. induction l1 as [|y l1 IH]; intros [|z k1]; cbn [app]; intros Hnd E; simplify_eq/=; apply NoDup_cons in Hnd as [Hy Hnd].
  - done.
  - destruct Hy. rewrite elem_of_app. right. by left.
  - destruct Hy. rewrite elem_of_app. right. by left.
  - by destruct (IH k1) as [-> ->].
Qed.

Lemma fst_unique {A B} (l : list (A * B)) k p q : NoDup l.*1 -> (k, p) ∈ l -> (k, q) ∈ l -> p = q.
Proof.
  induction l as [|[k' r] l IH]; [by intros _ ?%elem_of_nil|]. rewrite fmap_cons. cbn [fst]. intros [Hn Hnd]%NoDup_cons.
  assert (Hin : forall x, (k', x) ∈ l -> False) by (intros x Hx; destruct Hn; by apply (list_elem_of_fmap_2 fst _ (k', x))).
  rewrite !elem_of_cons. intros [[= -> ->]|Hp] [Hq|Hq]; [congruence | by destruct (Hin q) | | by apply IH].
  injection Hq as -> ->. by destruct (Hin p).
Qed.

Section Contract.
Context {K : Type} (ok : K -> Prop) (cmp : K -> K -> Z) (O : key_order ok cmp).
Implicit Types (s : @BAVL K) (l : list (K * Z)).

(** The tree holds the keys and nodes [l], in order. *)
Definition represents s l : Prop :=
  exists t, root s = rp t /\ own (nodes s) (cells None t) /\ avl t /\ inorder t = l /\ sorted cmp l /\ Forall ok l.*1.

Lemma own_holds h (t : @bt K) F : own h (cells None t ++ F) <-> holds h [] t F.
Proof. done. Qed.

Lemma represents_holds s l : represents s l <->
  exists t, s = mk_bavl (rp t) (nodes s) /\ holds (nodes s) [] t [] /\ avl t /\ inorder t = l /\ sorted cmp l /\ Forall ok l.*1.
Proof.
  unfold represents, holds. cbn [cparent ctx_cells]. setoid_rewrite app_nil_r. destruct s as [r h]; cbn.
  split; intros (t & Ht & Hr); exists t; (split; [congruence | done]).
Qed.

Lemma represents_nodup s l : represents s l -> NoDup l.*1 /\ NoDup l.*2.
Proof.
  intros (t & _ & [Hnd _] & _ & <- & Hs & Hok). split; [|by rewrite cells_addrs in Hnd]. clear Hnd.
  revert Hs Hok. generalize (inorder t). clear t. intros l Hs. induction Hs as [|x l Hs IH Hf]; [constructor|].
  rewrite fmap_cons. intros [Hx Hok]%Forall_cons. constructor; [|by apply IH].
  intros (y & E & Hy)%list_elem_of_fmap. rewrite Forall_forall in Hf. pose proof (Hf y Hy) as Hlt. unfold key_lt in Hlt.
  rewrite <- E, (proj2 (ko_eq _ _ O _ _ Hx Hx) eq_refl) in Hlt. done.
Qed.

Lemma represents_comparable k t : ok k -> Forall ok (inorder t).*1 -> comparable cmp k t.
Proof.
  intros Hk Hok y Hy. apply (ko_range _ _ O); [done|]. rewrite Forall_fmap, Forall_forall in Hok. by apply Hok.
Qed.

(** Where the search for a key ends. *)
Lemma locate_found_in k t c lt x b rt :
  ok k -> Forall ok (inorder t).*1 -> locate cmp k t [] = (c, N lt x b rt) -> x.1 = k /\ x ∈ inorder t.
Proof.
  intros Hk Hok E. pose proof (locate_plug cmp k t []) as Ep. cbv zeta in Ep. rewrite E in Ep. cbn in Ep.
  assert (Hx : x ∈ inorder t) by (rewrite <- Ep, inorder_ctx; cbn; rewrite !elem_of_app, elem_of_cons; tauto).
  split; [|done]. symmetry. rewrite Forall_fmap, Forall_forall in Hok. apply (ko_eq _ _ O); [done | by apply Hok | by eapply locate_found].
Qed.

Lemma locate_leaf k t c :
  ok k -> Forall ok (inorder t).*1 -> sorted cmp (inorder t) -> locate cmp k t [] = (c, L) ->
  inorder t = before c ++ after c /\ plug c L = t /\ (forall x, x ∈ before c -> cmp x.1 k = -1) /\ (forall x, x ∈ after c -> cmp k x.1 = -1).
Proof.
  intros Hk Hok Hs E. pose proof (locate_plug cmp k t []) as Ep. cbv zeta in Ep. rewrite E in Ep. cbn in Ep.
  split; [by rewrite <- Ep, inorder_ctx|]. split; [done|].
  apply (locate_split cmp ok O k t [] c); try done; cbn; by intros x ?%elem_of_nil.
Qed.

Lemma leaf_fresh k l1 l2 :
  ok k -> Forall ok (l1 ++ l2).*1 -> (forall x, x ∈ l1 -> cmp x.1 k = -1) -> (forall x, x ∈ l2 -> cmp k x.1 = -1) -> k ∉ (l1 ++ l2).*1.
Proof.
  intros Hk Hok H1 H2 (x & -> & Hx)%list_elem_of_fmap. pose proof (proj2 (ko_eq _ _ O _ _ Hk Hk) eq_refl).
  apply elem_of_app in Hx as [Hx|Hx]; [apply H1 in Hx | apply H2 in Hx]; lia.
Qed.

(** What is next to the hole. *)
Lemma hole_neighbour (c : list (@frame K)) :
  (cparent None c = None <-> c = []) /\ (cparent None c = None \/ cparent None c = snd <$> last (before c) \/ cparent None c = snd <$> head (after c)).
Proof.
  destruct c as [|[[] x b o] c]; cbn [cparent before after]; [by split; [|left] | |]; (split; [done|]).
  - right. left. by rewrite !last_app.
  - by right; right.
Qed.

(** The place of a node in the tree. *)
Lemma elem_plug (t : @bt K) x : x ∈ inorder t -> exists c lt b rt, t = plug c (N lt x b rt).
Proof.
  induction t as [|lt IHl y b rt IHr]; cbn [inorder]; [by intros ?%elem_of_nil|].
  intros [(c & l' & b' & r' & ->)%IHl|[->|(c & l' & b' & r' & ->)%IHr]%elem_of_cons]%elem_of_app.
  - exists (c ++ [Fr false y b rt]). do 3 eexists. by rewrite plug_app.
  - by exists [], lt, b, rt.
  - exists (c ++ [Fr true y b lt]). do 3 eexists. by rewrite plug_app.
Qed.

Lemma own_add h p n (t : @bt K) : own h (cells None t) -> h !! p = Some n -> p ∉ (inorder t).*2 -> holds h [] t ([(p, n)] ++ []).
Proof.
  intros [Hnd Hf] Hp Hn. unfold holds. cbn [cparent ctx_cells]. eapply (own_perm _ ((p, n) :: cells None t)).
  - split; [|by constructor]. rewrite fmap_cons. constructor; [by rewrite cells_addrs | done].
  - rewrite app_nil_r. cbn. by rewrite Permutation_cons_append.
Qed.

Lemma represents_intro h t F :
  holds h [] t F -> avl t -> sorted cmp (inorder t) -> Forall ok (inorder t).*1 -> represents (mk_bavl (rp t) h) (inorder t).
Proof.
  intros Ho Ha Hs Hok. exists t. split_and!; try done. unfold holds in Ho. cbn [cparent ctx_cells nodes app] in *.
  rewrite (Permutation_app_comm (cells None t)) in Ho. by apply own_app_r in Ho.
Qed.

Lemma sorted_insert k p l1 l2 :
  sorted cmp (l1 ++ l2) -> ok k -> (forall x, x ∈ l1 -> cmp x.1 k = -1) -> (forall x, x ∈ l2 -> cmp k x.1 = -1) -> sorted cmp (l1 ++ (k, p) :: l2).
Proof.
  intros Hs Hk H1 H2. apply sorted_app in Hs as (Hs1 & Hs2 & H12). apply sorted_app. split_and!; [done | |].
  - constructor; [done|]. rewrite Forall_forall. exact H2.
  - intros x y Hx [->|Hy]%elem_of_cons; [by apply H1 | by apply H12].
Qed.

Lemma sorted_remove x l1 l2 : sorted cmp (l1 ++ x :: l2) -> sorted cmp (l1 ++ l2).
Proof.
  intros (Hs1 & Hs2 & H12)%sorted_app. apply StronglySorted_inv in Hs2 as [Hs2 _]. apply sorted_app. split_and!; try done.
  intros a b Ha Hb. apply H12; [done | by right].
Qed.

Lemma ctx_nil_inorder (c : list (@frame K)) l : l = before c ++ after c -> (c = [] <-> l = []).
Proof.
  intros ->. split; [by intros ->|]. intros [Hb Ha]%app_eq_nil.
  by destruct c as [|[[] x b o] c]; [| cbn in Hb; by destruct (before c), (inorder o) |].
Qed.

(** The result of a lookup that ends in a leaf. *)
Lemma lookup_leaf (c : list (@frame K)) : (if plug c L then None else Some (found (c, L)).1) = cparent None c.
Proof.
  destruct c as [|[s x b o] c]; [done|]. cbn [cparent]. destruct (plug (Fr s x b o :: c) L) eqn:E; [|done].
  pose proof (inorder_ctx (Fr s x b o :: c) L) as Ei. rewrite E in Ei. symmetry in Ei. cbn [inorder app] in Ei.
  by apply (ctx_nil_inorder (Fr s x b o :: c) _ eq_refl) in Ei.
Qed.

(** Where [k] is missing: between [l1] and [l2], and [ref] is next to it. *)
Definition missing (k : K) (l1 l2 : list (K * Z)) (ref : option Z) : Prop :=
  (forall x, x ∈ l1 -> cmp x.1 k = -1) /\ (forall x, x ∈ l2 -> cmp k x.1 = -1) /\
  (ref = None <-> l1 ++ l2 = []) /\ (ref = None \/ ref = snd <$> last l1 \/ ref = snd <$> head l2).

(** ** Operations *)

Lemma insert_represents s l p n :
  represents s l -> nodes s !! p = Some n -> p ∉ l.*2 -> ok (value n) ->
  (exists q, (value n, q) ∈ l /\ BAVL_Insert cmp p s = Ok (false, Some q) s []) \/
  (exists l1 l2 ref s', l = l1 ++ l2 /\ missing (value n) l1 l2 ref /\
     BAVL_Insert cmp p s = Ok (true, ref) s' [] /\ represents s' (l1 ++ (value n, p) :: l2)).
Proof.
  intros R Hp Hn Hk. apply represents_holds in R as (t & -> & Ho & Ha & <- & Hs & Hok). cbn [nodes] in *.
  assert (Ho' : holds (nodes s) [] t ([(p, n)] ++ [])).
  { apply own_add; [|done..]. unfold holds in Ho. cbn in Ho. by rewrite app_nil_r in Ho. }
  pose proof (represents_comparable _ t Hk Hok) as Hc.
  destruct (locate cmp (value n) t []) as [c [|lt x b rt]] eqn:E.
  - right. destruct (locate_leaf _ _ _ Hk Hok Hs E) as (Ei & Ep & H1 & H2).
    pose proof Ha as Hctx. rewrite <- Ep in Hctx. apply avl_unplug in Hctx as [_ Hctx].
    destruct (reb_ok c (N L (value n, p) 0 L) 1 0 Hctx) as [Ha' Hi']; [cbn; lia | cbn; lia | lia |].
    rewrite inorder_ctx in Hi'. cbn [inorder app] in Hi'.
    edestruct (wp_ok (BAVL_Insert cmp p) (mk_bavl (rp t) (nodes s))) as (r & s' & tr & Er & HQ).
    { eapply (wp_insert cmp p n t [] _ (fun r s' tr => tr = [] /\ r = (true, cparent None c) /\
        represents s' (before c ++ (value n, p) :: after c))); [exact Ho' | done | done |]. cbv zeta. rewrite E. cbn [fst snd].
      intros h H. split_and!; try done. rewrite <- Hi'. eapply represents_intro; [exact H | done | |]; rewrite Hi'.
      - apply sorted_insert; try done. by rewrite <- Ei.
      - rewrite Ei, fmap_app, Forall_app in Hok. rewrite fmap_app, Forall_app, fmap_cons, Forall_cons. tauto. }
    destruct HQ as (-> & -> & HR). exists (before c), (after c), (cparent None c), s'. split; [done|].
    split; [|done]. destruct (hole_neighbour c) as [Hnone Hor]. split_and!; try done. rewrite Hnone. by apply ctx_nil_inorder.
  - left. destruct (locate_found_in _ _ _ _ _ _ _ Hk Hok E) as [Ex Hx]. exists x.2. split; [by rewrite <- Ex; destruct x|].
    edestruct (wp_ok (BAVL_Insert cmp p) (mk_bavl (rp t) (nodes s))) as (r & s' & tr & Er & HQ).
    { eapply (wp_insert cmp p n t [] _ (fun r s' tr => tr = [] /\ r = (false, Some x.2) /\ s' = mk_bavl (rp t) (nodes s))); [exact Ho' | done | done |].
      cbv zeta. rewrite E. cbn [fst snd]. done. }
    destruct HQ as (-> & -> & ->). done.
Qed.

Lemma filter_out (x : K * Z) l1 l2 : NoDup (l1 ++ x :: l2).*2 -> filter (fun e : K * Z => e.2 <> x.2) (l1 ++ x :: l2) = l1 ++ l2.
Proof.
  rewrite fmap_app, fmap_cons. intros (_ & Hd & [Hx _]%NoDup_cons)%NoDup_app.
  assert (Hid : forall l, x.2 ∉ l.*2 -> filter (fun e : K * Z => e.2 <> x.2) l = l).
  { clear. intros l. induction l as [|e l IH]; [done|]. rewrite fmap_cons. intros [He Hl]%not_elem_of_cons.
    rewrite filter_cons_True by done. by rewrite IH. }
  rewrite filter_app, filter_cons_False by (intros []; done). rewrite !Hid; [done | done |].
  intros H. destruct (Hd _ H). by left.
Qed.

Lemma remove_represents s l x :
  represents s l -> x ∈ l ->
  exists s', BAVL_Remove x.2 s = Ok tt s' [] /\ represents s' (filter (fun e => e.2 <> x.2) l).
Proof.
  intros R Hx. pose proof (represents_nodup _ _ R) as [_ Hnd].
  apply represents_holds in R as (t & -> & Ho & Ha & <- & Hs & Hok). cbn [nodes] in *.
  destruct (elem_plug t x Hx) as (c & lt & b & rt & ->). apply (holds_plug _ c) in Ho.
  destruct (remove_at_ok c lt x b rt Ha) as [Ha' Hi']. rewrite inorder_ctx in *. cbn [inorder] in *.
  rewrite <- app_assoc, <- app_comm_cons, app_assoc in Hs, Hok, Hnd |- *. rewrite filter_out by done. rewrite app_assoc in Hi'.
  edestruct (wp_ok (BAVL_Remove x.2) (mk_bavl (rp (plug c (N lt x b rt))) (nodes s))) as (r & s' & tr & Er & HQ).
  { eapply (wp_remove c lt x b rt [] _ _ (fun r s' tr => tr = [] /\ represents s' ((before c ++ inorder lt) ++ inorder rt ++ after c)));
      [exact Ho | done | exact Ha |].
    intros h n t' H. subst t'. split; [done|]. rewrite <- Hi'. eapply represents_intro; [exact H | done | |]; rewrite Hi'.
    - by eapply sorted_remove.
    - rewrite fmap_app, Forall_app in Hok |- *. rewrite fmap_cons, Forall_cons in Hok. tauto. }
  destruct r, HQ as (-> & HR). by exists s'.
Qed.

(** A search below [root s] ends at the key or next to its place. *)
Lemma lookup_represents s l k :
  represents s l -> ok k ->
  (exists r, BAVL_LookupExact cmp k s = Ok r s [] /\ forall p, r = Some p <-> (k, p) ∈ l) /\
  (exists r, BAVL_Lookup cmp k s = Ok r s [] /\
     ((exists p, r = Some p /\ (k, p) ∈ l) \/
      (exists l1 l2, l = l1 ++ l2 /\ missing k l1 l2 r))).
Proof.
  intros R Hk. pose proof (represents_nodup _ _ R) as [Hnd _].
  apply represents_holds in R as (t & -> & Ho & Ha & <- & Hs & Hok). cbn [nodes] in *.
  pose proof (represents_comparable _ t Hk Hok) as Hc. split.
  - edestruct (wp_ok (BAVL_LookupExact cmp k) (mk_bavl (rp t) (nodes s))) as (r & s' & tr & Er & HQ).
    { eapply (wp_lookup_exact cmp k t _ _ (fun r s' tr => tr = [] /\ s' = mk_bavl (rp t) (nodes s) /\ r = _)); [exact Ho | done | done]. }
    destruct HQ as (-> & -> & ->). eexists. split; [exact Er|]. intros p.
    destruct (locate cmp k t []) as [c [|lt x b rt]] eqn:E; cbn [snd].
    + destruct (locate_leaf _ _ _ Hk Hok Hs E) as (Ei & _ & H1 & H2). split; [done|]. intros Hin. rewrite Ei in Hok, Hin.
      destruct (leaf_fresh _ _ _ Hk Hok H1 H2). by apply (list_elem_of_fmap_2 fst _ (k, p)).
    + destruct (locate_found_in _ _ _ _ _ _ _ Hk Hok E) as [<- Hx]. split; [intros [= <-]; by destruct x|].
      intros Hin. f_equal. apply (fst_unique (inorder t) x.1); [done | by destruct x | done].
  - edestruct (wp_ok (BAVL_Lookup cmp k) (mk_bavl (rp t) (nodes s))) as (r & s' & tr & Er & HQ).
    { eapply (wp_lookup cmp k t _ _ (fun r s' tr => tr = [] /\ s' = mk_bavl (rp t) (nodes s) /\ r = _)); [exact Ho | done | done]. }
    destruct HQ as (-> & -> & ->). eexists. split; [exact Er|].
    destruct (locate cmp k t []) as [c [|lt x b rt]] eqn:E.
    + destruct (locate_leaf _ _ _ Hk Hok Hs E) as (Ei & Ep & H1 & H2). right. exists (before c), (after c). split; [done|]. split_and!; try done.
      all: rewrite <- Ep, lookup_leaf.
      * rewrite (proj1 (hole_neighbour c)). apply ctx_nil_inorder. done.
      * apply hole_neighbour.
    + left. destruct (locate_found_in _ _ _ _ _ _ _ Hk Hok E) as [Ex Hx]. exists x.2. unfold found. cbn [fst snd].
      split; [by destruct t|]. rewrite <- Ex. by destruct x.
Qed.

Lemma iterates_represents s l :
  represents s l ->
  BAVL_GetFirst s = Ok (snd <$> head l) s [] /\ BAVL_GetLast s = Ok (snd <$> last l) s [] /\
  forall l1 x l2, l = l1 ++ x :: l2 ->
    BAVL_GetNext x.2 s = Ok (snd <$> head l2) s [] /\ BAVL_GetPrev x.2 s = Ok (snd <$> last l1) s [].
Proof.
  intros R. pose proof (represents_nodup _ _ R) as [_ Hnd]. apply NoDup_fmap_1 in Hnd.
  apply represents_holds in R as (t & -> & Ho & Ha & <- & Hs & Hok). cbn [nodes] in *.
  set (P := fun (v r : option Z) (s' : @BAVL K) (tr : list Empty_set) => tr = [] /\ s' = mk_bavl (rp t) (nodes s) /\ r = v).
  assert (Hw : forall (m : M (@BAVL K) Empty_set (option Z)) v, wp m (mk_bavl (rp t) (nodes s)) (P v) ->
    m (mk_bavl (rp t) (nodes s)) = Ok v (mk_bavl (rp t) (nodes s)) []).
  { intros m v Hm. destruct (wp_ok _ _ _ Hm) as (r & s' & tr & -> & -> & -> & ->). done. }
  split_and!.
  - apply Hw, (wp_get_end false t [] (nodes s)); [done|]. unfold P. by rewrite end_of_first.
  - apply Hw, (wp_get_end true t [] (nodes s)); [done|]. unfold P. by rewrite end_of_last.
  - intros l1 x l2 E. assert (Hx : x ∈ inorder t) by (rewrite E, elem_of_app; right; by left).
    destruct (elem_plug t x Hx) as (c & lt & b & rt & ->). apply (holds_plug _ c) in Ho.
    rewrite inorder_ctx in E, Hnd. cbn [inorder] in E, Hnd. rewrite <- app_assoc, <- app_comm_cons, app_assoc in E, Hnd.
    destruct (split_unique _ _ _ _ _ Hnd E) as [<- <-]. split.
    + apply Hw, (wp_neighbour true x b rt lt c [] _ (nodes s)); [done|]. unfold P. by rewrite next_after.
    + apply Hw, (wp_neighbour false x b lt rt c [] _ (nodes s)); [done|]. unfold P. by rewrite next_before.
Qed.

(** ** Refinement of the sorted list *)

Inductive op := Op_Insert (k : K) (p : Z) | Op_Remove (p : Z) | Op_Lookup (k : K) | Op_LookupExact (k : K)
  | Op_GetFirst | Op_GetLast | Op_GetNext (p : Z) | Op_GetPrev (p : Z).

(** The success of an insertion, and a node or [NULL]. *)
Definition result : Type := bool * option Z.

(** An object that is going to be inserted: its key, and a node with any contents. *)
Definition new_node (k : K) (p : Z) s : BAVL := set_nodes (<[p := mk_node None None None 0 k]> (nodes s)) s.

Definition node_result (m : M (@BAVL K) Empty_set (option Z)) : M BAVL Empty_set result := r <- m ;; ret (true, r).
Definition exec (o : op) : M BAVL Empty_set result :=
  match o with
  | Op_Insert k p => modify (new_node k p) ;; BAVL_Insert cmp p
  | Op_Remove p => BAVL_Remove p ;; ret (true, None)
  | Op_Lookup k => node_result (BAVL_Lookup cmp k)
  | Op_LookupExact k => node_result (BAVL_LookupExact cmp k)
  | Op_GetFirst => node_result BAVL_GetFirst
  | Op_GetLast => node_result BAVL_GetLast
  | Op_GetNext p => node_result (BAVL_GetNext p)
  | Op_GetPrev p => node_result (BAVL_GetPrev p)
  end.

(** When the header allows the operation. *)
Definition legal l (o : op) : Prop :=
  match o with
  | Op_Insert k p => ok k /\ p ∉ l.*2
  | Op_Lookup k | Op_LookupExact k => ok k
  | Op_Remove p | Op_GetNext p | Op_GetPrev p => p ∈ l.*2
  | Op_GetFirst | Op_GetLast => True
  end.

Inductive spec : list (K * Z) -> op -> result -> list (K * Z) -> Prop :=
  | S_insert k p l1 l2 ref : missing k l1 l2 ref -> spec (l1 ++ l2) (Op_Insert k p) (true, ref) (l1 ++ (k, p) :: l2)
  | S_insert_equal k p q l : (k, q) ∈ l -> spec l (Op_Insert k p) (false, Some q) l
  | S_remove l1 x l2 : spec (l1 ++ x :: l2) (Op_Remove x.2) (true, None) (l1 ++ l2)
  | S_lookup k p l : (k, p) ∈ l -> spec l (Op_Lookup k) (true, Some p) l
  | S_lookup_missing k l1 l2 ref : missing k l1 l2 ref -> spec (l1 ++ l2) (Op_Lookup k) (true, ref) (l1 ++ l2)
  | S_lookup_exact k p l : (k, p) ∈ l -> spec l (Op_LookupExact k) (true, Some p) l
  | S_lookup_exact_missing k l : k ∉ l.*1 -> spec l (Op_LookupExact k) (true, None) l
  | S_first l : spec l Op_GetFirst (true, snd <$> head l) l
  | S_last l : spec l Op_GetLast (true, snd <$> last l) l
  | S_next l1 x l2 : spec (l1 ++ x :: l2) (Op_GetNext x.2) (true, snd <$> head l2) (l1 ++ x :: l2)
  | S_prev l1 x l2 : spec (l1 ++ x :: l2) (Op_GetPrev x.2) (true, snd <$> last l1) (l1 ++ x :: l2).

Lemma empty_represents : represents (mk_bavl None ∅) [].
Proof. exists L. split_and!; try done; repeat constructor. Qed.

Lemma represents_new s l k p : represents s l -> p ∉ l.*2 -> represents (new_node k p s) l.
Proof.
  intros (t & Hr & [Hnd Hf] & Ha & <- & Hs) Hp. exists t. split; [done|]. split; [|done]. split; [done|].
  rewrite Forall_forall in *. intros e He. cbn. rewrite lookup_insert_ne; [by apply Hf|]. intros ->. destruct Hp.
  rewrite <- cells_addrs. by apply list_elem_of_fmap_2.
Qed.

Lemma exec_ok {A} (m : M (@BAVL K) Empty_set A) (g : A -> result) s a s' :
  m s = Ok a s' [] -> (x <- m ;; ret (g x)) s = Ok (g a) s' [].
Proof. intros E. unfold bind. by rewrite E. Qed.

(** C32. The pointer tree refines the sorted list of its keys: from a state that
    represents a list, every operation of [BAVL.h] that its header allows runs without
    a fault or a failed assertion, gives a result the specification allows for that
    list, and leaves a tree that represents the new list.  In particular the reference
    an insertion gives is next to the new node, removal keeps all others in order, and
    [GetNext] and [GetPrev] go through the list. *)
Theorem bavl_refines :
  represents (BAVL_Init (mk_bavl None ∅)) [] /\
  forall s l o, represents s l -> legal l o -> exists r s' l', exec o s = Ok r s' [] /\ spec l o r l' /\ represents s' l'.
Proof.
  split; [exact empty_represents|]. intros s l o R Ho.
  assert (Hsplit : forall p, p ∈ l.*2 -> exists l1 x l2, l = l1 ++ x :: l2 /\ p = x.2).
  { intros p (x & -> & (l1 & l2 & ->)%list_elem_of_split)%list_elem_of_fmap. by exists l1, x, l2. }
  pose proof (iterates_represents _ _ R) as (Hfirst & Hlast & Hnext).
  destruct o as [k p|p|k|k| | |p|p]; cbn [exec legal] in *.
  - destruct Ho as [Hk Hp]. pose proof (represents_new _ _ k p R Hp) as R'.
    destruct (insert_represents _ _ p (mk_node None None None 0 k) R') as [(q & Hq & E)|(l1 & l2 & ref & s' & -> & Hm & E & R2)];
      [by cbn; rewrite lookup_insert_eq | done | done | |].
    + exists (false, Some q), (new_node k p s), l. split; [unfold bind, modify; by rewrite E|]. split; [by constructor | done].
    + exists (true, ref), s'. eexists. split; [unfold bind, modify; by rewrite E|]. split; [by constructor | done].
  - destruct (Hsplit p Ho) as (l1 & x & l2 & -> & ->).
    destruct (remove_represents _ _ x R) as (s' & E & R'); [rewrite elem_of_app; right; by left|].
    rewrite filter_out in R' by by eapply represents_nodup.
    exists (true, None), s', (l1 ++ l2). split; [by apply (exec_ok _ (fun _ => (true, None)) _ tt)|]. by split; [constructor|].
  - destruct (lookup_represents _ _ k R Ho) as [_ (r & E & Hr)]. exists (true, r), s, l. split; [by apply (exec_ok _ (pair true))|].
    split; [|done]. destruct Hr as [(p & -> & Hin)|(l1 & l2 & -> & Hm)]; by constructor.
  - destruct (lookup_represents _ _ k R Ho) as [(r & E & Hr) _]. exists (true, r), s, l. split; [by apply (exec_ok _ (pair true))|].
    split; [|done]. destruct r as [p|]; constructor; [by apply Hr|]. intros ([k' p] & -> & Hin)%list_elem_of_fmap. by apply Hr in Hin.
  - exists (true, snd <$> head l), s, l. split; [by apply (exec_ok _ (pair true))|]. by split; [constructor|].
  - exists (true, snd <$> last l), s, l. split; [by apply (exec_ok _ (pair true))|]. by split; [constructor|].
  - destruct (Hsplit p Ho) as (l1 & x & l2 & -> & ->). destruct (Hnext _ _ _ eq_refl) as [E _].
    exists (true, snd <$> head l2), s, (l1 ++ x :: l2). split; [by apply (exec_ok _ (pair true))|]. by split; [constructor|].
  - destruct (Hsplit p Ho) as (l1 & x & l2 & -> & ->). destruct (Hnext _ _ _ eq_refl) as [_ E].
    exists (true, snd <$> last l1), s, (l1 ++ x :: l2). split; [by apply (exec_ok _ (pair true))|]. by split; [constructor|].
Qed.

(** C33. Every tree that represents a list is well formed: [BAVL_Verify], which checks
    the links to parents, the order, and every stored balance against the heights of
    the subtrees, passes and changes nothing. *)
Theorem bavl_verify s l : represents s l -> BAVL_Verify cmp s = Ok tt s [].
Proof.
  intros R. apply represents_holds in R as (t & -> & Ho & Ha & <- & Hs & Hok). cbn [nodes] in *.
  edestruct (wp_ok (BAVL_Verify cmp) (mk_bavl (rp t) (nodes s))) as ([] & s' & tr & -> & HQ).
  { eapply (wp_verify cmp t _ _ (fun _ s' tr => tr = [] /\ s' = mk_bavl (rp t) (nodes s))); [exact Ho | done | done | | done].
    intros y z Hy Hz Hlt. rewrite Forall_fmap, Forall_forall in Hok. rewrite (ko_opp _ _ O) by (by apply Hok).
    unfold key_lt in Hlt. lia. }
  by destruct HQ as [-> ->].
Qed.

(** The number of comparisons a search may make. *)
Definition search_bound (l : list (K * Z)) : nat := Z.to_nat (2 * Z.log2 (zlen l + 1) + 1).

(** The trees stay flat: a search in a tree of [n] nodes makes at most
    [2 * log2 (n + 1) + 1] comparisons. *)
Theorem bavl_search_cost s l k c :
  represents s l -> ok k -> root s = Some c ->
  exists r, search_loop (search_bound l) (compare_with cmp k) c s = Ok r s [].
Proof.
  intros R Hk Hc. apply represents_holds in R as (t & Es & Ho & Ha & <- & Hs & Hok). rewrite Es in Hc |- *. cbn [root] in Hc.
  edestruct (wp_ok (search_loop (search_bound (inorder t)) (compare_with cmp k) c) (mk_bavl (rp t) (nodes s))) as (r & s' & tr & Er & HQ).
  { eapply (wp_search cmp (compare_with cmp k)) with (Q := fun r s' tr => tr = [] /\ s' = mk_bavl (rp t) (nodes s));
      [| exact Ho | done | | done].
    - eapply compare_with_compares; [by apply represents_comparable | exact Ho].
    - unfold search_bound. pose proof (height_log t Ha). pose proof (height_nonneg t). lia. }
  destruct HQ as [-> ->]. by exists r.
Qed.

(** ** The tree as a [SearchTree] *)

Definition insert (k : K) (p : Z) (s : @BAVL K) : option (@BAVL K) :=
  match BAVL_Insert cmp p (new_node k p s) with Ok (true, _) s' _ => Some s' | _ => None end.
Definition remove (p : Z) (s : @BAVL K) : @BAVL K := match BAVL_Remove p s with Ok _ s' _ => s' | Fault _ => s end.
Definition lookup (k : K) (s : @BAVL K) : option Z := match BAVL_LookupExact cmp k s with Ok r _ _ => r | Fault _ => None end.
Definition rep s l : Prop := exists l', represents s l' /\ l' ≡ₚ l.

Definition bavl_tree : SearchTree ok cmp.
Proof using O.
  refine {| tree := @BAVL K; t_empty := mk_bavl None ∅; t_lookup := lookup; t_insert := insert; t_remove := remove; t_rep := rep |}.
  - intros t l l' Hp (l0 & R & Hl). exists l0. split; [done|]. by rewrite <- Hp.
  - intros t l (l0 & R & <-). destruct (represents_nodup _ _ R) as [H1 H2]. split_and!; [done | done |].
    by destruct R as (? & _ & _ & _ & <- & _ & ?).
  - exists []. split; [exact empty_represents | done].
  - intros t l k p (l0 & R & <-) Hk. unfold lookup. destruct (lookup_represents _ _ k R Hk) as [(r & -> & Hr) _]. apply Hr.
  - intros t l k p (l0 & R & Hl) Hk Hkn Hpn. rewrite <- Hl in Hkn, Hpn.
    pose proof (represents_new _ _ k p R Hpn) as R'. unfold insert.
    destruct (insert_represents (new_node k p t) l0 p (mk_node None None None 0 k) R') as [(q & Hq & _)|(l1 & l2 & ref & s' & -> & _ & -> & R2)];
      [by cbn; rewrite lookup_insert_eq | done | done | |].
    + destruct Hkn. by apply (list_elem_of_fmap_2 fst _ (k, q)).
    + exists s'. split; [done|]. eexists. split; [exact R2|]. cbn. by rewrite <- Hl, Permutation_middle.
  - intros t l p (l0 & R & Hl) Hp. rewrite <- Hl in Hp. apply list_elem_of_fmap in Hp as (x & -> & Hx).
    unfold remove. destruct (remove_represents _ _ _ R Hx) as (s' & -> & R'). eexists. split; [exact R'|]. by rewrite Hl.
Defined.

End Contract.
(** ** The orders of the program *)

Lemma b_compare_order (ok : Z -> Prop) : key_order ok B_COMPARE.
Proof.
  split; intros x y; [| | |intros z]; intros _ _; [| | |intros _]; b_compare x y; try b_compare y x; try lia.
  b_compare y z; b_compare x z; lia.
Qed.

Lemma lex_range l k : lex l k = -1 \/ lex l k = 0 \/ lex l k = 1.
Proof. revert k. induction l as [|x l IH]; intros [|y k]; cbn [lex]; try tauto. b_compare x y; [tauto | apply IH | tauto]. Qed.

Lemma baddr_order : key_order baddr_ok BAddr_CompareOrder.
Proof.
  split.
  - intros a b Ha Hb. rewrite compare_order_key by done. apply lex_range.
  - intros a b Ha Hb. rewrite !compare_order_key by done. apply lex_antisym.
  - apply compare_order_eq.
  - intros a b c Ha Hb Hc. rewrite !compare_order_key by done. intros H1 H2.
    pose proof (lex_trans (baddr_key a) (baddr_key b) (baddr_key c) ltac:(lia) ltac:(lia)).
    destruct (lex_range (baddr_key a) (baddr_key c)) as [E|[E|E]]; [done | | lia].
    apply lex_eq in E. rewrite E, lex_antisym in H1. lia.
Qed.

(** ** A concrete tree *)

Definition port_ok (i : Z) : Prop := 0 <= i < 65536.

(** Three keys, the last insertion rotates. *)
Definition tree_demo : BAVL :=
  mk_bavl (Some 20) {[10 := mk_node (Some 20) None None 0 1; 20 := mk_node None (Some 10) (Some 30) 0 2; 30 := mk_node (Some 20) None None 0 3]}.
Definition list_demo : list (Z * Z) := [(1, 10); (2, 20); (3, 30)].

Lemma tree_demo_built :
  (r <- exec B_COMPARE (Op_Insert 1 10) ;; r <- exec B_COMPARE (Op_Insert 2 20) ;; exec B_COMPARE (Op_Insert 3 30)) (mk_bavl None ∅)
  = Ok (true, Some 20) tree_demo [].
Proof. vm_cast_no_check (eq_refl (Ok (S := BAVL) (O := Empty_set) (true, Some 20) tree_demo [])). Qed.

Lemma tree_demo_represents : represents port_ok B_COMPARE tree_demo list_demo.
Proof.
  exists (N (N L (1, 10) 0 L) (2, 20) 0 (N L (3, 30) 0 L)). split; [done|]. split.
  - split; [apply (bool_decide_unpack _); vm_compute; exact I | repeat constructor].
  - cbn [avl height]. split_and!; try done. all: repeat constructor; unfold port_ok; cbn; lia.
Qed.

Lemma bavl_refines_witness :
  key_order port_ok B_COMPARE /\ legal port_ok list_demo (Op_Remove 20) /\
  exists r s' l', exec B_COMPARE (Op_Remove 20) tree_demo = Ok r s' [] /\ spec B_COMPARE list_demo (Op_Remove 20) r l'.
Proof.
  split; [apply b_compare_order|]. assert (Hl : legal port_ok list_demo (Op_Remove 20)) by (cbn; right; left). split; [exact Hl|].
  destruct (proj2 (bavl_refines port_ok B_COMPARE (b_compare_order _)) _ _ _ tree_demo_represents Hl) as (r & s' & l' & E & H & _).
  exact (ex_intro _ r (ex_intro _ s' (ex_intro _ l' (conj E H)))).
Defined.

Lemma bavl_verify_witness :
  represents port_ok B_COMPARE tree_demo list_demo /\ BAVL_Verify B_COMPARE tree_demo = Ok tt tree_demo [].
Proof.
  split; [exact tree_demo_represents|].
  exact (bavl_verify port_ok B_COMPARE (b_compare_order _) _ _ tree_demo_represents).
Defined.

Lemma bavl_search_cost_witness :
  search_bound list_demo = 5%nat /\ exists r, search_loop 5 (compare_with B_COMPARE 3) 20 tree_demo = Ok r tree_demo [].
Proof.
  split; [vm_compute; reflexivity|].
  exact (bavl_search_cost port_ok B_COMPARE (b_compare_order _) tree_demo list_demo 3 20 tree_demo_represents
    ltac:(unfold port_ok; lia) eq_refl).
Defined.

End BavlTree.
