(* ===== verification/UdpgwProto.v ===== *)
(** * UdpgwProto: the packet formats of the UDP relays

    Model of [badvpn/protocol/udpgw_proto.h]: the headers in front of relayed
    datagrams, shared by [UdpGwClient] (a stream to a udpgw server) and
    [SocksUdpGwClient] (SOCKS5 UDP relaying): the address that follows the header,
    how it is written and how it is read back. *)

From S2P Require Import Prelude ByteOrder BSize BAddr.
Open Scope mon_scope.

#[local] Arguments mread : simpl never.
#[local] Arguments Z.add : simpl never.
#[local] Arguments Z.sub : simpl never.

(** ** [udpgw_proto.h] *)

Definition UDPGW_CLIENT_FLAG_KEEPALIVE : Z := 1.
Definition UDPGW_CLIENT_FLAG_REBIND : Z := 2.
Definition UDPGW_CLIENT_FLAG_DNS : Z := 4.
Definition UDPGW_CLIENT_FLAG_IPV6 : Z := 8.

(** The bytes of [struct udpgw_header], [udpgw_addr_ipv4], [udpgw_addr_ipv6]. *)
Definition header_bytes (flags conid : Z) : list Z := le_bytes 1 (ltoh8 flags) ++ le_bytes 2 (ltoh16 conid).
Definition addr_ipv4_bytes (ip port : Z) : list Z := le_bytes 4 ip ++ le_bytes 2 port.
Definition addr_ipv6_bytes (ip : list Z) (port : Z) : list Z := mread ip 0 16 ++ le_bytes 2 port.

(** Reading the address structure at offset [off] of a packet, [data_len] bytes being
    left; [None]: it is cut short. *)
Definition read_addr {S O} (v6 : bool) (data : list Z) (off data_len : Z) : M S O (option (BAddr * Z)) :=
  if v6 then
    if data_len <? sizeof_udpgw_addr_ipv6 then ret None else
    a <- get_bytes data off sizeof_udpgw_addr_ipv6 ;;
    ret (Some (BAddr_MakeIPv6 (mread a 0 16) (le_val (mread a 16 2)), sizeof_udpgw_addr_ipv6))
  else
    if data_len <? sizeof_udpgw_addr_ipv4 then ret None else
    a <- get_bytes data off sizeof_udpgw_addr_ipv4 ;;
    ret (Some (BAddr_MakeIPv4 (le_val (mread a 0 4)) (le_val (mread a 4 2)), sizeof_udpgw_addr_ipv4)).

(** Internet addresses, IPv4 or IPv6. *)
Definition inet (a : BAddr) : Prop := baddr_ok a /\ (baddr_type a = 1 \/ baddr_type a = 2).

#[export] Instance baddr_ok_dec a : Decision (baddr_ok a).
Proof. destruct a; cbn; apply _. Defined.
Definition inet_b (a : BAddr) : bool := bool_decide (baddr_ok a /\ (baddr_type a = 1 \/ baddr_type a = 2)).

Lemma inet_b_ok a : inet_b a = true -> inet a.
Proof. apply bool_decide_eq_true. Qed.

Lemma inet_ok a : inet a -> baddr_ok a.
Proof. by intros []. Qed.

(** The address as it is in a packet. *)
Definition addr_part (a : BAddr) : list Z :=
  match a with
  | BADDR_IPV4 ip port => addr_ipv4_bytes ip port
  | BADDR_IPV6 ip port => addr_ipv6_bytes ip port
  | _ => []
  end.

(** The address at the start of [rest], and its size. *)
Definition parse_addr (v6 : bool) (rest : list Z) : option (BAddr * Z) :=
  if v6 then
    if zlen rest <? 18 then None else Some (BADDR_IPV6 (mread rest 0 16) (le_val (mread rest 16 2)), 18)
  else
    if zlen rest <? 6 then None else Some (BADDR_IPV4 (le_val (mread rest 0 4)) (le_val (mread rest 4 2)), 6).

Lemma zlen_addr_part a : inet a -> zlen (addr_part a) = if baddr_type a =? 1 then 6 else 18.
Proof.
  intros [Ha Ht]. destruct a as [|ip p|ip p|]; cbn in Ht; try lia; cbn [addr_part baddr_type].
  - done.
  - destruct Ha as (_ & Hi & _). unfold addr_ipv6_bytes. rewrite zlen_app, zlen_mread, zlen_le_bytes by lia. done.
Qed.

Lemma addr_part_ok a : inet a -> bytes_ok (addr_part a).
Proof.
  intros [Ho Ht]. destruct a as [|ip p|ip p|]; cbn in Ht; try lia.
  - apply Forall_app_2; apply le_bytes_ok.
  - destruct Ho as (Hb & _). apply Forall_app_2; [by apply mread_bytes_ok | apply le_bytes_ok].
Qed.

Lemma le_val_2_range l : bytes_ok l -> zlen l = 2 -> 0 <= le_val l < 65536.
Proof. intros Hb Hl. pose proof (le_val_range l Hb) as H. by rewrite Hl in H. Qed.

Lemma le_val_4_range l : bytes_ok l -> zlen l = 4 -> 0 <= le_val l < 4294967296.
Proof. intros Hb Hl. pose proof (le_val_range l Hb) as H. by rewrite Hl in H. Qed.

Lemma le_val_1 x : le_val [x] = x.
Proof. cbn. lia. Qed.

Lemma mread_drop l off n : 0 <= off <= zlen l -> n = zlen l - off -> mread l off n = drop (Z.to_nat off) l.
Proof. intros H ->. unfold mread, zlen in *. rewrite take_ge; [done|]. rewrite length_drop. lia. Qed.

Lemma parse_addr_ok v6 rest a n :
  bytes_ok rest -> parse_addr v6 rest = Some (a, n) -> baddr_ok a /\ 0 <= n <= zlen rest.
Proof.
  intros Hb. unfold parse_addr. destruct v6.
  - destruct (Z.ltb_spec (zlen rest) 18); [done|]. intros [= <- <-]. split; [|lia]. split_and!.
    + by apply mread_bytes_ok.
    + rewrite zlen_mread; lia.
    + apply le_val_2_range; [by apply mread_bytes_ok | rewrite zlen_mread; lia].
    + apply le_val_2_range; [by apply mread_bytes_ok | rewrite zlen_mread; lia].
  - destruct (Z.ltb_spec (zlen rest) 6); [done|]. intros [= <- <-]. split; [|lia]. split.
    + apply le_val_4_range; [by apply mread_bytes_ok | rewrite zlen_mread; lia].
    + apply le_val_2_range; [by apply mread_bytes_ok | rewrite zlen_mread; lia].
Qed.

Lemma parse_addr_part a d :
  inet a -> exists n, parse_addr (baddr_type a =? 2) (addr_part a ++ d) = Some (a, n) /\
    drop (Z.to_nat n) (addr_part a ++ d) = d.
Proof.
  intros Ha. pose proof (zlen_addr_part _ Ha) as Hz. pose proof (zlen_nonneg d). destruct Ha as [Ho Ht].
  destruct a as [|ip p|ip p|]; cbn in Ht; try lia; cbn [baddr_type addr_part] in *.
  - exists 6. change (1 =? 2) with false. change (1 =? 1) with true in Hz. unfold parse_addr. rewrite zlen_app, Hz.
    replace (6 + zlen d <? 6) with false by lia. destruct Ho as [Hi Hp]. unfold addr_ipv4_bytes. split.
    + rewrite <- app_assoc, (mread_app_at (le_bytes 4 ip) (le_bytes 2 p) d 4 2) by done.
      rewrite (mread_app_front (le_bytes 4 ip)) by done. by rewrite !le_val_bytes.
    + by rewrite drop_app_length' by done.
  - exists 18. change (2 =? 2) with true. change (2 =? 1) with false in Hz. unfold parse_addr. rewrite zlen_app, Hz.
    replace (18 + zlen d <? 18) with false by lia. destruct Ho as (Hb & Hi & Hp). unfold addr_ipv6_bytes in *.
    assert (Ei : mread ip 0 16 = ip) by (rewrite <- Hi; apply mread_all). rewrite Ei. split.
    + rewrite <- app_assoc, (mread_app_at ip (le_bytes 2 p) d 16 2) by done. rewrite (mread_app_front ip) by done. by rewrite !le_val_bytes.
    + rewrite drop_app_length'; [done|]. rewrite length_app, length_le_bytes. unfold zlen in Hi. lia.
Qed.


Lemma read_addr_wp {S O} (s : S) v6 data off n (Q : option (BAddr * Z) -> S -> list O -> Prop) :
  0 <= off <= zlen data -> n = zlen data - off ->
  Q (parse_addr v6 (drop (Z.to_nat off) data)) s [] -> wp (read_addr v6 data off n) s Q.
Proof.
  intros Ho ->. unfold read_addr, sizeof_udpgw_addr_ipv4, sizeof_udpgw_addr_ipv6, parse_addr.
  assert (Hz : zlen (drop (Z.to_nat off) data) = zlen data - off) by (unfold zlen in *; rewrite length_drop; lia).
  rewrite Hz. assert (Hrd : forall a k m, 0 <= a -> 0 <= k -> a + k <= m ->
    mread (mread data off m) a k = mread (drop (Z.to_nat off) data) a k).
  { intros a k m ? ? ?. rewrite mread_mread by lia. unfold mread. rewrite drop_drop. do 2 f_equal. lia. }
  destruct v6.
  - destruct (Z.ltb_spec (zlen data - off) 18); intros HQ; [by wp_step|]. wp_step. apply wp_get_bytes; [lia|]. wp_step.
    rewrite !Hrd by lia. unfold BAddr_MakeIPv6. rewrite take_ge; [done|].
    pose proof (zlen_mread (drop (Z.to_nat off) data) 0 16) as E. unfold zlen in *. lia.
  - destruct (Z.ltb_spec (zlen data - off) 6); intros HQ; [by wp_step|]. wp_step. apply wp_get_bytes; [lia|]. wp_step.
    by rewrite !Hrd by lia.
Qed.
