(* ===== verification/UdpGwClient.v ===== *)
(** * UdpGwClient: UDP datagrams over a stream to a udpgw server

    Model of [badvpn/udpgw_client/UdpGwClient.c]; packets are in the format of
    [UdpgwProto].  The client keeps a table of connections, each with
    a pair of addresses and a 16-bit connection id; a datagram for a new pair
    takes an unused id, or, when the table is full, the id of the least recently
    used connection, and tells the server to rebind it.

    A handler runs in the state [sys]: the object [o], the heap of connections
    (an access to a freed connection is a fault), the memory [pkt] of the datagram
    being submitted, to which [first_data] of a new connection points, and
    [prepared], whether the send queue allows flows to be freed while they hold
    packets.  Calls on other components are outputs; results of allocations and
    the buffers handed out by a connection's [BufferWriter] are arguments. *)

From S2P Require Import Prelude ByteOrder BSize BAddr UdpgwProto PacketProto SearchTree BAVL BavlTree.
Open Scope mon_scope.

#[local] Arguments mread : simpl never.
#[local] Arguments mwrite : simpl never.
#[local] Arguments Z.add : simpl never.
#[local] Arguments Z.sub : simpl never.
#[local] Arguments Z.lor : simpl never.
#[local] Arguments Z.land : simpl never.

Module UdpGwClient.

(** ** State *)

Record conaddr := mk_conaddr { local_addr : BAddr; remote_addr : BAddr }.

#[export] Instance conaddr_eq_dec : EqDecision conaddr.
Proof. solve_decision. Defined.

Definition uint16_comparator (v1 v2 : Z) : Z := B_COMPARE v1 v2.
Definition conaddr_comparator (v1 v2 : conaddr) : Z :=
  let r := BAddr_CompareOrder (remote_addr v1) (remote_addr v2) in
  if negb (r =? 0) then r else BAddr_CompareOrder (local_addr v1) (local_addr v2).

(** Keys of the two trees. *)
Definition conaddr_ok (c : conaddr) : Prop := baddr_ok (local_addr c) /\ baddr_ok (remote_addr c).
Definition conid_ok (i : Z) : Prop := 0 <= i < 65536.

(** [first_data] points to [pkt]; [first_job]: the job is set. *)
Record connection := mk_con {
  con_conaddr : conaddr;
  con_first_flags : Z;
  con_first_data_len : Z;
  con_conid : Z;
  con_first_job : bool;
}.

#[export] Instance connection_inhabited : Inhabited connection :=
  populate (mk_con (mk_conaddr BADDR_NONE BADDR_NONE) 0 0 0 false).

(** Fields that [Init] sets for good. *)
Record config := mk_config {
  udp_mtu : Z;
  max_connections : Z;
  send_buffer_size : Z;
  udpgw_mtu : Z;
  pp_mtu : Z;
  keepalive_packet : list Z;
}.

Section Client.
Context {TA : SearchTree conaddr_ok conaddr_comparator} {TI : SearchTree conid_ok uint16_comparator}.

Record t := mk {
  cfg : config;
  by_conaddr : tree (SearchTree := TA);
  by_conid : tree (SearchTree := TI);
  connections_list : list Z;          (** least recently used first *)
  num_connections : Z;
  next_conid : Z;
  keepalive_sending : bool;
  have_server : bool;
}.

Record sys := mk_sys { o : t; heap : gmap Z connection; pkt : list Z; prepared : bool }.

Inductive out :=
  | Job_Set (con : Z) | Job_Free (con : Z)
  | Qflow_Init (con : Z) | Qflow_Free (con : Z)
  | Ppflow_Init (con mtu size : Z) | Ppflow_Free (con : Z)
  | Submit (con : Z) (packet : list Z)                     (** [BufferWriter_EndPacket] *)
  | Recv_Done                                              (** [PacketPassInterface_Done] *)
  | Received (local remote : BAddr) (data : list Z)        (** [handler_received] *)
  | Server_Error                                           (** [handler_servererror] *)
  | Keepalive_Send (packet : list Z)
  | Recv_If_Init (mtu : Z) | Recv_If_Free | Decoder_Init | Decoder_Free
  | Sender_Init (mtu : Z) | Sender_Free | Connect_Output | Disconnect_Output
  | Queue_PrepareFree | Keepalive_Flow_Free | Queue_Free | Monitor_Free | Connector_Free.

Abbreviation H := (M sys out).

Definition set_tables (ta : tree (SearchTree := TA)) (ti : tree (SearchTree := TI)) (l : list Z) (n nx : Z)
    (s : sys) : sys :=
  let x := o s in mk_sys (mk (cfg x) ta ti l n nx (keepalive_sending x) (have_server x)) (heap s) (pkt s) (prepared s).
Definition set_next_conid (nx : Z) (s : sys) : sys :=
  let x := o s in set_tables (by_conaddr x) (by_conid x) (connections_list x) (num_connections x) nx s.
Definition set_flags (ks hs : bool) (s : sys) : sys :=
  let x := o s in
  mk_sys (mk (cfg x) (by_conaddr x) (by_conid x) (connections_list x) (num_connections x) (next_conid x) ks hs)
    (heap s) (pkt s) (prepared s).
Definition set_heap (h : gmap Z connection) (s : sys) : sys := mk_sys (o s) h (pkt s) (prepared s).
Definition set_prepared (s : sys) : sys := mk_sys (o s) (heap s) (pkt s) true.
Definition set_pkt (d : list Z) (s : sys) : sys := mk_sys (o s) (heap s) d (prepared s).

Definition con_ (p : Z) : H connection := load heap p.

(** ** Lookups *)

Definition find_connection_by_conaddr (c : conaddr) : H (option Z) :=
  s <- get ;; ret (t_lookup c (by_conaddr (o s))).
Definition find_connection_by_conid (conid : Z) : H (option Z) :=
  s <- get ;; ret (t_lookup conid (by_conid (o s))).

(** The loop of [find_unused_conid]. *)
Fixpoint find_unused_loop (fuel : nat) : H Z :=
  match fuel with
  | O => fail F_fuel
  | S fuel =>
      s <- get ;;
      c <- find_connection_by_conid (next_conid (o s)) ;;
      match c with
      | None => ret (u16 (next_conid (o s)))
      | Some _ =>
          (if next_conid (o s) =? max_connections (cfg (o s)) - 1
           then modify (set_next_conid 0)
           else modify (set_next_conid (next_conid (o s) + 1))) ;;
          find_unused_loop fuel
      end
  end.

Definition find_unused_conid : H Z :=
  s <- get ;;
  assert (num_connections (o s) <? max_connections (cfg (o s))) ;;
  find_unused_loop (Z.to_nat (max_connections (cfg (o s)))).

(** ** Connections *)

(** [buf]: what [BufferWriter_StartPacket] gives, [None] when it is out of
    buffer; [data]: the memory the payload is read from. *)
Definition connection_send (con flags : Z) (data : list Z) (data_len : Z) (buf : option (list Z)) : H unit :=
  c <- con_ con ;;
  s <- get ;;
  assert (data_len >=? 0) ;;
  assert (data_len <=? udp_mtu (cfg (o s))) ;;
  match buf with
  | None => ret tt
  | Some m =>
      let remote := remote_addr (con_conaddr c) in
      let flags := if baddr_type remote =? 2 then u8 (Z.lor flags UDPGW_CLIENT_FLAG_IPV6) else flags in
      m <- put m 0 (header_bytes flags (con_conid c)) ;;
      let out_pos := sizeof_udpgw_header in
      mp <- (match remote with
        | BADDR_IPV4 ip port =>
            m <- put m out_pos (addr_ipv4_bytes ip port) ;; ret (m, out_pos + sizeof_udpgw_addr_ipv4)
        | BADDR_IPV6 ip port =>
            m <- put m out_pos (addr_ipv6_bytes ip port) ;; ret (m, out_pos + sizeof_udpgw_addr_ipv6)
        | _ => ret (m, out_pos)
        end) ;;
      check_block (zlen data) 0 data_len ;;
      m <- put mp.1 mp.2 (mread data 0 data_len) ;;
      let out_pos := mp.2 + data_len in
      emit (Submit con (mread m 0 out_pos))
  end.

Definition connection_first_job_handler (con : Z) (buf : option (list Z)) : H unit :=
  c <- con_ con ;;
  s <- get ;;
  connection_send con (u8 (Z.lor UDPGW_CLIENT_FLAG_REBIND (con_first_flags c))) (pkt s) (con_first_data_len c) buf.

(** [ptr]: the result of [malloc]; [ppflow_ok]: whether [PacketProtoFlow_Init]
    succeeds. *)
Definition connection_init (c : conaddr) (flags data_len : Z) (ptr : option Z) (ppflow_ok : bool) : H unit :=
  s <- get ;;
  assert (num_connections (o s) <? max_connections (cfg (o s))) ;;
  x <- find_connection_by_conaddr c ;;
  assert (if x then false else true) ;;
  assert (data_len >=? 0) ;;
  assert (data_len <=? udp_mtu (cfg (o s))) ;;
  match ptr with
  | None => ret tt
  | Some con =>
      conid <- find_unused_conid ;;
      modify (fun s => set_heap (<[con := mk_con c flags data_len conid true]> (heap s)) s) ;;
      emit (Job_Set con) ;;
      emit (Qflow_Init con) ;;
      if negb ppflow_ok then
        emit (Qflow_Free con) ;;
        emit (Job_Free con) ;;
        modify (fun s => set_heap (delete con (heap s)) s)
      else
      emit (Ppflow_Init con (udpgw_mtu (cfg (o s))) (send_buffer_size (cfg (o s)))) ;;
      s <- get ;;
      let x := o s in
      match t_insert c con (by_conaddr x), t_insert conid con (by_conid x) with
      | Some ta, Some ti =>
          modify (set_tables ta ti (connections_list x ++ [con]) (num_connections x + 1) (next_conid x))
      | _, _ => fail F_assert                    (** [ASSERT_EXECUTE(BAVL_Insert(...))] *)
      end
  end.

Definition connection_free (con : Z) : H unit :=
  c <- con_ con ;;
  s <- get ;;
  assert (prepared s) ;;                         (** [PacketPassFairQueueFlow_AssertFree] *)
  let x := o s in
  modify (set_tables (t_remove con (by_conaddr x)) (t_remove con (by_conid x))
            (list_remove con (connections_list x)) (num_connections x - 1) (next_conid x)) ;;
  emit (Ppflow_Free con) ;;
  emit (Qflow_Free con) ;;
  emit (Job_Free con) ;;
  modify (fun s => set_heap (delete con (heap s)) s).

Definition reuse_connection (c : conaddr) : H Z :=
  x <- find_connection_by_conaddr c ;;
  assert (if x then false else true) ;;
  s <- get ;;
  assert (num_connections (o s) >? 0) ;;
  match connections_list (o s) with
  | [] => fail F_bounds                          (** the first node of an empty list *)
  | con :: _ =>
      old <- con_ con ;;
      let x := o s in
      let ta := t_remove con (by_conaddr x) in
      modify (fun s => set_heap (<[con := mk_con c (con_first_flags old) (con_first_data_len old)
                                            (con_conid old) (con_first_job old)]> (heap s)) s) ;;
      match t_insert c con ta with
      | Some ta =>
          modify (set_tables ta (by_conid x) (connections_list x) (num_connections x) (next_conid x)) ;;
          ret con
      | None => fail F_assert
      end
  end.

Definition move_to_end (con : Z) : H unit :=
  modify (fun s => let x := o s in
    set_tables (by_conaddr x) (by_conid x) (list_remove con (connections_list x) ++ [con])
      (num_connections x) (next_conid x) s).

(** ** The user's side *)

(** The arguments of one call: addresses, DNS flag, results of allocations. *)
Definition UdpGwClient_SubmitPacket (local remote : BAddr) (is_dns : bool) (data_len : Z)
    (ptr : option Z) (ppflow_ok : bool) (buf : option (list Z)) : H unit :=
  s <- get ;;
  assert ((baddr_type local =? 1) || (baddr_type local =? 2)) ;;
  assert ((baddr_type remote =? 1) || (baddr_type remote =? 2)) ;;
  assert (data_len >=? 0) ;;
  assert (data_len <=? udp_mtu (cfg (o s))) ;;
  let c := mk_conaddr local remote in
  con <- find_connection_by_conaddr c ;;
  let flags := 0 in
  let flags := if is_dns then u8 (Z.lor flags UDPGW_CLIENT_FLAG_DNS) else flags in
  cf <- (match con with
    | None =>
        if num_connections (o s) =? max_connections (cfg (o s)) then
          con <- reuse_connection c ;; ret (Some con, u8 (Z.lor flags UDPGW_CLIENT_FLAG_REBIND))
        else ret (None, flags)
    | Some con => ret (Some con, flags)
    end) ;;
  match cf with
  | (None, flags) => connection_init c flags data_len ptr ppflow_ok
  | (Some con, flags) =>
      move_to_end con ;;
      connection_send con flags (pkt s) data_len buf
  end.

(** ** The server's side *)

Definition recv_interface_handler_send (data : list Z) : H unit :=
  s <- get ;;
  let data_len := zlen data in
  assert (have_server (o s)) ;;
  assert (data_len >=? 0) ;;
  assert (data_len <=? udpgw_mtu (cfg (o s))) ;;
  emit Recv_Done ;;
  if data_len <? sizeof_udpgw_header then ret tt else
  header <- get_bytes data 0 sizeof_udpgw_header ;;
  let off := sizeof_udpgw_header in
  let data_len := data_len - sizeof_udpgw_header in
  let flags := ltoh8 (le_val (mread header 0 1)) in
  let conid := ltoh16 (le_val (mread header 1 2)) in
  addr <- read_addr (negb (Z.land flags UDPGW_CLIENT_FLAG_IPV6 =? 0)) data off data_len ;;
  match addr with
  | None => ret tt
  | Some (remote, n) =>
      let off := off + n in
      let data_len := data_len - n in
      if data_len >? udp_mtu (cfg (o s)) then ret tt else
      con <- find_connection_by_conid conid ;;
      match con with
      | None => ret tt
      | Some con =>
          c <- con_ con ;;
          if negb (BAddr_CompareOrder (remote_addr (con_conaddr c)) remote =? 0) then ret tt else
          move_to_end con ;;
          d <- get_bytes data off data_len ;;
          emit (Received (local_addr (con_conaddr c)) (remote_addr (con_conaddr c)) d)
      end
  end.

Definition free_server : H unit :=
  emit Disconnect_Output ;; emit Sender_Free ;; emit Decoder_Free ;; emit Recv_If_Free.

Definition UdpGwClient_ConnectServer (decoder_ok : bool) : H bool :=
  s <- get ;;
  assert (negb (have_server (o s))) ;;
  emit (Recv_If_Init (udpgw_mtu (cfg (o s)))) ;;
  if negb decoder_ok then emit Recv_If_Free ;; ret false else
  emit Decoder_Init ;;
  emit (Sender_Init (pp_mtu (cfg (o s)))) ;;
  emit Connect_Output ;;
  modify (set_flags (keepalive_sending (o s)) true) ;;
  ret true.

Definition UdpGwClient_DisconnectServer : H unit :=
  s <- get ;;
  assert (have_server (o s)) ;;
  free_server ;;
  modify (set_flags (keepalive_sending (o s)) false).

(** [disconnects]: the user disconnects the server from its handler. *)
Definition decoder_handler_error (disconnects : bool) : H unit :=
  s <- get ;;
  assert (have_server (o s)) ;;
  emit Server_Error ;;
  when disconnects do UdpGwClient_DisconnectServer.

Definition send_monitor_handler : H unit :=
  s <- get ;;
  if keepalive_sending (o s) then ret tt else
  emit (Keepalive_Send (keepalive_packet (cfg (o s)))) ;;
  modify (set_flags true (have_server (o s))).

Definition keepalive_if_handler_done : H unit :=
  s <- get ;;
  assert (keepalive_sending (o s)) ;;
  modify (set_flags false (have_server (o s))).

(** ** Init and Free *)

Definition keepalive_bytes : list Z := packetproto_header_bytes sizeof_udpgw_header ++ header_bytes UDPGW_CLIENT_FLAG_KEEPALIVE 0.

(** [android]: the build variant, which selects the header of [udpgw_compute_mtu].
    [queue_ok]: whether [PacketPassFairQueue_Init] succeeds. *)
Definition UdpGwClient_Init (android : bool) (udp_mtu max_connections send_buffer_size : Z) (queue_ok : bool)
    : option (option t) :=
  let mtu := udpgw_compute_mtu android udp_mtu in
  if (udp_mtu >=? 0) && (mtu >=? 0) && (mtu <=? PACKETPROTO_MAXPAYLOAD) && (max_connections >? 0) &&
     (send_buffer_size >? 0)
  then
    let max := if max_connections >? UINT16_MAX + 1 then UINT16_MAX + 1 else max_connections in
    let c := mk_config udp_mtu max send_buffer_size mtu (mtu + sizeof_packetproto_header) keepalive_bytes in
    if queue_ok then Some (Some (mk c t_empty t_empty [] 0 0 false false)) else Some None
  else None.                                     (** a failed [ASSERT] *)

Fixpoint free_connections (fuel : nat) : H unit :=
  match fuel with
  | O => fail F_fuel
  | S fuel =>
      s <- get ;;
      match connections_list (o s) with
      | [] => ret tt
      | con :: _ => connection_free con ;; free_connections fuel
      end
  end.

Definition UdpGwClient_Free : H unit :=
  s <- get ;;
  emit Queue_PrepareFree ;;
  modify set_prepared ;;
  free_connections (S (length (connections_list (o s)))) ;;
  (if have_server (o s) then free_server else ret tt) ;;
  emit Keepalive_Flow_Free ;;
  emit Queue_Free ;;
  emit Monitor_Free ;;
  emit Connector_Free.

(** ** Events

    [E_submit]: the datagram is in memory [pkt] from the call until the first job
    of a new connection, if one is set, has run; jobs run before anything else. *)

Inductive event :=
  | E_submit (local remote : BAddr) (is_dns : bool) (data : list Z) (ptr : option Z) (ppflow_ok : bool)
      (buf : option (list Z))
  | E_first_job (con : Z) (buf : option (list Z))
  | E_recv (data : list Z)                       (** the decoder has a packet *)
  | E_connect (decoder_ok : bool) | E_disconnect
  | E_decoder_error (disconnects : bool)
  | E_monitor | E_keepalive_done.

Definition jobs_done (s : sys) : bool :=
  forallb (fun e => negb (con_first_job e.2)) (map_to_list (heap s)).
Definition buf_fits (s : sys) (buf : option (list Z)) : bool :=
  match buf with Some m => zlen m =? udpgw_mtu (cfg (o s)) | None => true end.

Definition enabled (ev : event) (s : sys) : bool :=
  match ev with
  | E_submit local remote _ data ptr _ buf =>
      jobs_done s && inet_b local && inet_b remote && (zlen data <=? udp_mtu (cfg (o s))) && buf_fits s buf &&
      match ptr with Some p => negb (bool_decide (is_Some (heap s !! p))) | None => true end
  | E_first_job p buf => match heap s !! p with Some c => con_first_job c && buf_fits s buf | None => false end
  | E_recv data => have_server (o s) && (zlen data <=? udpgw_mtu (cfg (o s))) && bool_decide (bytes_ok data)
  | E_connect _ => negb (have_server (o s))
  | E_disconnect | E_decoder_error _ => have_server (o s)
  | E_monitor => true
  | E_keepalive_done => keepalive_sending (o s)
  end.

Definition job_taken (c : connection) : connection :=
  mk_con (con_conaddr c) (con_first_flags c) (con_first_data_len c) (con_conid c) false.

Definition deliver (ev : event) : H unit :=
  match ev with
  | E_submit local remote is_dns data ptr ppflow_ok buf =>
      modify (set_pkt data) ;; UdpGwClient_SubmitPacket local remote is_dns (zlen data) ptr ppflow_ok buf
  | E_first_job p buf =>
      c <- con_ p ;;
      modify (fun s => set_heap (<[p := job_taken c]> (heap s)) s) ;;
      connection_first_job_handler p buf
  | E_recv data => recv_interface_handler_send data
  | E_connect decoder_ok => UdpGwClient_ConnectServer decoder_ok ;; ret tt
  | E_disconnect => UdpGwClient_DisconnectServer
  | E_decoder_error disconnects => decoder_handler_error disconnects
  | E_monitor => send_monitor_handler
  | E_keepalive_done => keepalive_if_handler_done
  end.

Fixpoint run_events (evs : list event) (s : sys) : option sys :=
  match evs with
  | [] => Some s
  | ev :: evs' =>
      if enabled ev s then
        match deliver ev s with Ok _ s' _ => run_events evs' s' | Fault _ => None end
      else Some s
  end.

(** Initialisation, then the events. *)
Definition run (android : bool) (udp_mtu max_connections send_buffer_size : Z) (evs : list event) : option sys :=
  match UdpGwClient_Init android udp_mtu max_connections send_buffer_size true with
  | Some (Some x) => run_events evs (mk_sys x ∅ [] false)
  | _ => None
  end.

(** ** Specification *)

(** The packet format: flags (with the address family), connection id, address,
    payload. *)
Definition family_flags (flags : Z) (a : BAddr) : Z :=
  if baddr_type a =? 2 then u8 (Z.lor flags UDPGW_CLIENT_FLAG_IPV6) else flags.
Definition udpgw_packet (flags conid : Z) (remote : BAddr) (data : list Z) : list Z :=
  header_bytes (family_flags flags remote) conid ++ addr_part remote ++ data.

(** The table of connections: address pairs and ids, least recently used first. *)
Definition entry_of (h : gmap Z connection) (p : Z) : conaddr * Z :=
  (con_conaddr (h !!! p), con_conid (h !!! p)).
Definition table (s : sys) : list (conaddr * Z) := entry_of (heap s) <$> connections_list (o s).

(** Submitting a datagram for [c]: the table afterwards, and flags and id of the
    packet sent at once. *)
Inductive submits (max : Z) (c : conaddr) (flags : Z) (l : list (conaddr * Z)) :
    list (conaddr * Z) -> option (Z * Z) -> Prop :=
  | sub_known l1 id l2 :
      l = l1 ++ (c, id) :: l2 -> submits max c flags l (l1 ++ l2 ++ [(c, id)]) (Some (flags, id))
  | sub_reuse c0 id l' :
      c ∉ l.*1 -> zlen l = max -> l = (c0, id) :: l' ->
      submits max c flags l (l' ++ [(c, id)]) (Some (u8 (Z.lor flags UDPGW_CLIENT_FLAG_REBIND), id))
  | sub_new id :
      c ∉ l.*1 -> zlen l < max -> id ∉ l.*2 -> 0 <= id < max -> submits max c flags l (l ++ [(c, id)]) None
  | sub_none : c ∉ l.*1 -> zlen l < max -> submits max c flags l l None.

(** The packets handed to the send queue, the datagrams handed to the user. *)
Definition packets (tr : list out) : list (list Z) :=
  omap (fun x => match x with Submit _ d => Some d | _ => None end) tr.
Definition received (tr : list out) : list (BAddr * BAddr * list Z) :=
  omap (fun x => match x with Received l r d => Some (l, r, d) | _ => None end) tr.

(** ** Invariant *)

Record config_ok (c : config) : Prop := mk_config_ok {
  c_max : 0 < max_connections c <= 65536;
  c_udp : 0 <= udp_mtu c;
  c_mtu : 21 + udp_mtu c <= udpgw_mtu c;
}.

(** The entry of a connection is well formed. *)
Record con_ok (max mtu : Z) (data : list Z) (c : connection) : Prop := mk_con_ok {
  co_local : inet (local_addr (con_conaddr c));
  co_remote : inet (remote_addr (con_conaddr c));
  co_conid : 0 <= con_conid c < max;
  co_flags : 0 <= con_first_flags c < 256;
  co_first : con_first_job c = true -> 0 <= con_first_data_len c <= mtu /\ con_first_data_len c <= zlen data;
}.

Record inv (s : sys) : Prop := mk_inv {
  i_cfg : config_ok (cfg (o s));
  i_nodup : NoDup (connections_list (o s));
  i_heap p : is_Some (heap s !! p) <-> p ∈ connections_list (o s);
  i_con p c : heap s !! p = Some c -> con_ok (max_connections (cfg (o s))) (udp_mtu (cfg (o s))) (pkt s) c;
  i_num : num_connections (o s) = zlen (connections_list (o s));
  i_max : num_connections (o s) <= max_connections (cfg (o s));
  i_next : 0 <= next_conid (o s) < max_connections (cfg (o s));
  i_ca : t_rep (by_conaddr (o s)) ((fun p => (con_conaddr (heap s !!! p), p)) <$> connections_list (o s));
  i_id : t_rep (by_conid (o s)) ((fun p => (con_conid (heap s !!! p), p)) <$> connections_list (o s));
}.

Lemma inv_con s p : inv s -> p ∈ connections_list (o s) -> heap s !! p = Some (heap s !!! p).
Proof.
  intros I Hp. apply (i_heap _ I) in Hp as [c Hc]. by rewrite (lookup_total_correct _ _ _ Hc).
Qed.

Lemma inv_con_ok s p :
  inv s -> p ∈ connections_list (o s) ->
  con_ok (max_connections (cfg (o s))) (udp_mtu (cfg (o s))) (pkt s) (heap s !!! p).
Proof. intros I Hp. eapply (i_con _ I), inv_con; done. Qed.

Lemma find_conaddr s c p :
  inv s -> conaddr_ok c ->
  (t_lookup c (by_conaddr (o s)) = Some p <-> p ∈ connections_list (o s) /\ con_conaddr (heap s !!! p) = c).
Proof. intros I Hc. by apply (lookup_key _ _ (fun p => con_conaddr (heap s !!! p)) _ _ _ _ (i_ca _ I)). Qed.

Lemma find_conaddr_none s c :
  inv s -> conaddr_ok c -> (t_lookup c (by_conaddr (o s)) = None <-> c ∉ (table s).*1).
Proof.
  intros I Hc. rewrite (lookup_key_none _ _ (fun p => con_conaddr (heap s !!! p)) _ _ _ (i_ca _ I) Hc).
  unfold table. by rewrite <- list_fmap_compose.
Qed.

Lemma find_conid s i p :
  inv s -> conid_ok i ->
  (t_lookup i (by_conid (o s)) = Some p <-> p ∈ connections_list (o s) /\ con_conid (heap s !!! p) = i).
Proof. intros I Hi. by apply (lookup_key _ _ (fun p => con_conid (heap s !!! p)) _ _ _ _ (i_id _ I)). Qed.

Lemma find_conid_none s i :
  inv s -> conid_ok i -> (t_lookup i (by_conid (o s)) = None <-> i ∉ (table s).*2).
Proof.
  intros I Hi. rewrite (lookup_key_none _ _ (fun p => con_conid (heap s !!! p)) _ _ _ (i_id _ I) Hi).
  unfold table. by rewrite <- list_fmap_compose.
Qed.

Lemma table_nodup s : inv s -> NoDup (table s).*1 /\ NoDup (table s).*2.
Proof.
  intros I. unfold table. rewrite <- !list_fmap_compose. split.
  - destruct (t_rep_wf _ _ (i_ca _ I)) as [H _]. by rewrite <- list_fmap_compose in H.
  - destruct (t_rep_wf _ _ (i_id _ I)) as [H _]. by rewrite <- list_fmap_compose in H.
Qed.

(** ** Finding an unused id *)

(** The [i]-th id after [a], counting cyclically. *)
Definition cyc (max a i : Z) : Z := if a + i <? max then a + i else a + i - max.

Lemma cyc_step max a i :
  0 <= a < max -> 0 <= i < max ->
  cyc max a (i + 1) = if cyc max a i =? max - 1 then 0 else cyc max a i + 1.
Proof.
  intros. unfold cyc. destruct (Z.ltb_spec (a + i) max), (Z.ltb_spec (a + (i + 1)) max); try lia.
  - replace (a + i =? max - 1) with false by lia. lia.
  - replace (a + i =? max - 1) with true by lia. lia.
  - replace (a + i - max =? max - 1) with false by lia. lia.
Qed.

(** Fewer than [max] ids cannot cover a full cycle. *)
Lemma cyc_unused max a (ids : list Z) :
  0 <= a < max -> zlen ids < max -> (forall i, 0 <= i < max -> cyc max a i ∈ ids) -> False.
Proof.
  intros Ha Hlen Hall. set (l := (fun i => cyc max a (Z.of_nat i)) <$> seq 0 (Z.to_nat max)).
  assert (Hnd : NoDup l).
  { apply NoDup_fmap_2_strong; [|apply NoDup_seq]. intros x y Hx%elem_of_seq Hy%elem_of_seq E.
    unfold cyc in E. destruct (Z.ltb_spec (a + Z.of_nat x) max), (Z.ltb_spec (a + Z.of_nat y) max); lia. }
  assert (Hsub : l ⊆+ ids).
  { apply NoDup_submseteq; [done|]. intros x (i & -> & Hi%elem_of_seq)%list_elem_of_fmap. apply Hall. lia. }
  apply submseteq_length in Hsub. unfold l in Hsub. rewrite length_fmap, length_seq in Hsub.
  unfold zlen in Hlen. lia.
Qed.

Lemma set_next_twice n1 n2 s : set_next_conid n1 (set_next_conid n2 s) = set_next_conid n1 s.
Proof. done. Qed.

(** [id] is the first id after [a] in cyclic order that is not in use. *)
Definition first_unused (max a : Z) (ids : list Z) (id : Z) : Prop :=
  0 <= id < max /\ id ∉ ids /\
  exists j, 0 <= j < max /\ id = cyc max a j /\ forall i, 0 <= i < j -> cyc max a i ∈ ids.

Lemma find_unused_loop_wp s a j fuel :
  inv s -> 0 <= a < max_connections (cfg (o s)) -> num_connections (o s) < max_connections (cfg (o s)) ->
  0 <= j -> j + Z.of_nat fuel = max_connections (cfg (o s)) ->
  (forall i, 0 <= i < j -> cyc (max_connections (cfg (o s))) a i ∈ (table s).*2) ->
  next_conid (o s) = cyc (max_connections (cfg (o s))) a j \/ fuel = 0%nat ->
  wp (find_unused_loop fuel) s (fun id s' tr => tr = [] /\ s' = set_next_conid id s /\
    first_unused (max_connections (cfg (o s))) a (table s).*2 id).
Proof.
  revert s j. induction fuel as [|fuel IH]; intros s j I Ha Hn Hj Hf Hall Hnext.
  - exfalso. apply (cyc_unused (max_connections (cfg (o s))) a (table s).*2); [done | |].
    + unfold table. rewrite !zlen_fmap. rewrite <- (i_num _ I). done.
    + intros i Hi. apply Hall. lia.
  - destruct Hnext as [Hnext|]; [|done]. pose proof (i_next _ I) as Hr. pose proof (c_max _ (i_cfg _ I)) as Hm.
    cbn [find_unused_loop]. do 2 wp_step. wp_step. unfold find_connection_by_conid. do 2 wp_step. wp_step.
    assert (Hok : conid_ok (next_conid (o s))) by (unfold conid_ok; lia).
    destruct (t_lookup (next_conid (o s)) (by_conid (o s))) as [p|] eqn:E.
    + apply (find_conid _ _ _ I Hok) in E as [Hp Hid].
      pose proof (cyc_step (max_connections (cfg (o s))) a j Ha ltac:(lia)) as Hstep. rewrite <- Hnext in Hstep.
      set (nx := if next_conid (o s) =? max_connections (cfg (o s)) - 1 then 0 else next_conid (o s) + 1).
      assert (Hnx : 0 <= nx < max_connections (cfg (o s))).
      { unfold nx. destruct (Z.eqb_spec (next_conid (o s)) (max_connections (cfg (o s)) - 1)); lia. }
      wp_step. apply (wp_mono _ _ (fun _ s1 tr => s1 = set_next_conid nx s /\ tr = [])).
      { unfold nx. by destruct (next_conid (o s) =? _); wp_step. }
      intros _ s1 tr [-> ->]. eapply wp_mono.
      { apply (IH (set_next_conid nx s) (j + 1)).
        - by destruct I. - done. - done. - lia. - cbn. lia.
        - intros i Hi. change (cyc (max_connections (cfg (o s))) a i ∈ (table s).*2).
          destruct (decide (i = j)) as [->|]; [|apply Hall; lia].
          rewrite <- Hnext, <- Hid. apply list_elem_of_fmap. exists (entry_of (heap s) p). split; [done|].
          by apply list_elem_of_fmap_2.
        - left. exact (eq_sym Hstep). }
      intros id s' tr (-> & -> & Hfu). by rewrite set_next_twice.
    + wp_step. rewrite u16_id by lia. split_and!; [done | by destruct s as [[]] |].
      split_and!; [lia | lia | by apply find_conid_none | exists j; split_and!; [lia | lia | done | done]].
Qed.

Lemma find_unused_wp s :
  inv s -> num_connections (o s) < max_connections (cfg (o s)) ->
  wp find_unused_conid s (fun id s' tr => tr = [] /\ s' = set_next_conid id s /\
    first_unused (max_connections (cfg (o s))) (next_conid (o s)) (table s).*2 id).
Proof.
  intros I Hn. pose proof (i_next _ I) as Hr. unfold find_unused_conid. do 3 wp_step. wp_step; [lia|].
  eapply wp_mono; [apply (find_unused_loop_wp s (next_conid (o s)) 0); try done; try lia|].
  - left. unfold cyc. rewrite Z.add_0_r. by replace (next_conid (o s) <? _) with true by lia.
  - by intros id s' tr (-> & ?).
Qed.

(** ** Sending *)

Lemma zlen_header_bytes flags conid : zlen (header_bytes flags conid) = 3.
Proof. unfold header_bytes. zl. Qed.

(** A buffer handed out by a connection's [BufferWriter]. *)
Definition buf_ok (s : sys) (buf : option (list Z)) : Prop :=
  match buf with Some m => zlen m = udpgw_mtu (cfg (o s)) | None => True end.

Lemma connection_send_wp s p c flags data n buf :
  heap s !! p = Some c -> inet (remote_addr (con_conaddr c)) -> config_ok (cfg (o s)) ->
  0 <= n <= udp_mtu (cfg (o s)) -> n <= zlen data -> buf_ok s buf ->
  wp (connection_send p flags data n buf) s (fun _ s' tr => s' = s /\
    tr = match buf with
         | Some _ => [Submit p (udpgw_packet flags (con_conid c) (remote_addr (con_conaddr c)) (mread data 0 n))]
         | None => []
         end).
Proof.
  intros Hc Ha [Hm Hu Hg] Hn Hd Hb. unfold connection_send. wp_step. eapply wp_load; [exact Hc|].
  do 2 wp_step. wp_step. wp_step; [lia|]. wp_step. wp_step; [lia|].
  destruct buf as [m|]; [|by wp_step]. cbn in Hb.
  pose proof (zlen_header_bytes (family_flags flags (remote_addr (con_conaddr c))) (con_conid c)) as Hh.
  pose proof (zlen_addr_part _ Ha) as Hal. unfold udpgw_packet.
  change (if baddr_type (remote_addr (con_conaddr c)) =? 2 then _ else flags)
    with (family_flags flags (remote_addr (con_conaddr c))).
  unfold sizeof_udpgw_header, sizeof_udpgw_addr_ipv4, sizeof_udpgw_addr_ipv6.
  assert (Hgo : forall a k m1, addr_part (remote_addr (con_conaddr c)) = a -> zlen a = k -> k <= 18 ->
    zlen m1 = zlen m -> mread m1 0 3 = header_bytes (family_flags flags (remote_addr (con_conaddr c))) (con_conid c) ->
    wp (mp <- (m <- put m1 3 a ;; ret (m, 3 + k)) ;;
        check_block (zlen data) 0 n ;;
        m <- put mp.1 mp.2 (mread data 0 n) ;;
        emit (Submit p (mread m 0 (mp.2 + n)))) s
      (fun _ s' tr => s' = s /\ tr = [Submit p (header_bytes (family_flags flags (remote_addr (con_conaddr c)))
         (con_conid c) ++ a ++ mread data 0 n)])).
  { intros a k m1 Ea Hk Hk18 Hm1 Hr1. pose proof (zlen_nonneg a). do 2 wp_step.
    apply wp_put; [lia|lia|]. intros m2 Hm2 Hr2. wp_step. cbn [fst snd]. wp_step. wp_step; [lia|].
    wp_step. apply wp_put; [lia | rewrite zlen_mread by lia; lia |]. intros m3 Hm3 Hr3.
    rewrite zlen_mread in Hr3 by lia. wp_step. split; [done|]. cbn [app].
    rewrite Hr3. rewrite Hk in Hr2. rewrite Hr2, Hr1. by rewrite <- app_assoc. }
  wp_step. apply wp_put; [lia | lia |]. intros m1 Hm1 Hr1. rewrite Hh in Hr1.
  destruct Ha as [Hao Ht]. destruct (remote_addr (con_conaddr c)) as [|ip q|ip q|] eqn:Er; cbn in Ht; try lia.
  - eapply wp_mono; [apply (Hgo (addr_ipv4_bytes ip q) 6 m1); try done; lia|]. by intros _ s' tr [-> ->].
  - eapply wp_mono; [apply (Hgo (addr_ipv6_bytes ip q) 18 m1); try done; lia|]. by intros _ s' tr [-> ->].
Qed.

(** ** Changes of the table *)

Lemma table_split s l1 p l2 :
  connections_list (o s) = l1 ++ p :: l2 ->
  table s = (entry_of (heap s) <$> l1) ++ entry_of (heap s) p :: (entry_of (heap s) <$> l2).
Proof. intros E. unfold table. by rewrite E, fmap_app, fmap_cons. Qed.

(** What is left unchanged by all table operations. *)
Definition frame (s s' : sys) : Prop :=
  cfg (o s') = cfg (o s) /\ pkt s' = pkt s /\ prepared s' = prepared s /\
  have_server (o s') = have_server (o s) /\ keepalive_sending (o s') = keepalive_sending (o s).

Lemma frame_refl s : frame s s.
Proof. done. Qed.

Lemma frame_trans s1 s2 s3 : frame s1 s2 -> frame s2 s3 -> frame s1 s3.
Proof. unfold frame. intros (-> & -> & -> & -> & ->). done. Qed.

(** Moving a connection to the end keeps everything but the order. *)
Lemma move_to_end_wp s p l1 l2 (Q : unit -> sys -> list out -> Prop) :
  inv s -> connections_list (o s) = l1 ++ p :: l2 ->
  (forall s', inv s' -> heap s' = heap s -> frame s s' ->
     table s' = (entry_of (heap s) <$> l1) ++ (entry_of (heap s) <$> l2) ++ [entry_of (heap s) p] -> Q tt s' []) ->
  wp (move_to_end p) s Q.
Proof.
  intros I E HQ. unfold move_to_end. wp_step. pose proof (i_nodup _ I) as Hnd. rewrite E in Hnd.
  rewrite E, (list_remove_split p l1 l2 Hnd).
  assert (Hp : l1 ++ p :: l2 ≡ₚ (l1 ++ l2) ++ [p]) by solve_Permutation.
  apply HQ; try done.
  - destruct I. split; cbn in *; try done.
    + by rewrite <- Hp.
    + intros q. by rewrite i_heap0, E, Hp.
    + rewrite i_num0, E. unfold zlen. by rewrite Hp.
    + rewrite E in i_ca0. eapply t_rep_perm; [|exact i_ca0]. by rewrite Hp.
    + rewrite E in i_id0. eapply t_rep_perm; [|exact i_id0]. by rewrite Hp.
  - unfold table. cbn. by rewrite !fmap_app, app_assoc.
Qed.

(** [<[p := c]> h] for a connection that is not in the list. *)
Lemma keys_insert {B} (f : connection -> B) (h : gmap Z connection) p c (l : list Z) :
  p ∉ l -> (fun q => (f (<[p := c]> h !!! q), q)) <$> l = (fun q => (f (h !!! q), q)) <$> l.
Proof. apply (fmap_insert_ne (fun q c => (f c, q))). Qed.

Lemma entries_insert (h : gmap Z connection) p c (l : list Z) : p ∉ l -> entry_of (<[p := c]> h) <$> l = entry_of h <$> l.
Proof. apply (fmap_insert_ne (fun _ c => (con_conaddr c, con_conid c))). Qed.

Lemma entry_insert (h : gmap Z connection) p c : entry_of (<[p := c]> h) p = (con_conaddr c, con_conid c).
Proof. unfold entry_of. by rewrite lookup_total_insert_eq. Qed.

Definition renamed (c : conaddr) (x : connection) : connection :=
  mk_con c (con_first_flags x) (con_first_data_len x) (con_conid x) (con_first_job x).

(** Reusing the least recently used connection. *)
Lemma reuse_wp s c p l' (Q : Z -> sys -> list out -> Prop) :
  inv s -> inet (local_addr c) -> inet (remote_addr c) -> c ∉ (table s).*1 ->
  connections_list (o s) = p :: l' ->
  (forall s', inv s' -> connections_list (o s') = p :: l' -> frame s s' -> heap s' = <[p := renamed c (heap s !!! p)]> (heap s) -> Q p s' []) ->
  wp (reuse_connection c) s Q.
Proof.
  intros I Hl Hr Hnew E HQ.
  assert (Hok : conaddr_ok c) by (split; by apply inet_ok).
  assert (Hp : p ∈ connections_list (o s)) by (rewrite E; left).
  pose proof (inv_con s p I Hp) as Hc. pose proof (i_nodup _ I) as Hnd. rewrite E in Hnd.
  apply NoDup_cons in Hnd as [Hpn Hnd].
  unfold reuse_connection, find_connection_by_conaddr. do 3 wp_step. wp_step.
  rewrite (proj2 (find_conaddr_none s c I Hok) Hnew). wp_step. wp_step; [done|]. do 2 wp_step. wp_step.
  wp_step. { rewrite (i_num _ I), E, zlen_cons. pose proof (zlen_nonneg l'). lia. }
  rewrite E. wp_step. eapply wp_load; [exact Hc|]. wp_step.
  wp_step. change (mk_con c _ _ _ _) with (renamed c (heap s !!! p)).
  pose proof (t_remove_keys _ _ _ p (i_ca _ I) Hp) as Hrem. rewrite E, fmap_cons in Hrem.
  rewrite filter_cons_False in Hrem by (cbn; intros ?; done).
  assert (Hf : filter (fun e : conaddr * Z => e.2 <> p) ((fun q => (con_conaddr (heap s !!! q), q)) <$> l')
    = (fun q => (con_conaddr (heap s !!! q), q)) <$> l').
  { clear -Hpn. induction l' as [|x l' IH]; [done|]. apply not_elem_of_cons in Hpn as [Hx Hpn].
    rewrite fmap_cons, filter_cons_True by done. by rewrite IH. }
  rewrite Hf in Hrem.
  destruct (t_insert_rep _ _ c p Hrem Hok) as (ta & Hins & Hrep).
  { rewrite <- list_fmap_compose. unfold table in Hnew. rewrite E, fmap_cons, fmap_cons, <- list_fmap_compose in Hnew.
    by apply not_elem_of_cons in Hnew as [_ ?]. }
  { rewrite <- list_fmap_compose. intros (q & -> & Hq)%list_elem_of_fmap. done. }
  cbn [o set_heap]. rewrite Hins. wp_step. wp_step. wp_step. apply HQ; try done.
  destruct I. split; cbn in *; try done.
  - by constructor.
  - intros q. rewrite lookup_insert_is_Some, i_heap0, E, elem_of_cons. naive_solver.
  - intros q c'. destruct (decide (q = p)) as [->|Hq].
    + rewrite lookup_insert_eq. intros [= <-]. destruct (i_con0 _ _ Hc). by split.
    + rewrite lookup_insert_ne by done. apply i_con0.
  - by rewrite i_num0, E.
  - rewrite keys_insert, lookup_total_insert_eq by done. exact Hrep.
  - rewrite keys_insert, lookup_total_insert_eq by done. by rewrite E in i_id0.
Qed.

Definition ptr_ok (s : sys) (ptr : option Z) : Prop :=
  match ptr with Some p => heap s !! p = None | None => True end.

Lemma inv_set_next s nx :
  inv s -> 0 <= nx < max_connections (cfg (o s)) -> inv (set_next_conid nx s).
Proof. intros [] Hn. by split. Qed.

(** A new connection is entered with an unused id and its first job set, or the
    table stays as it is. *)
Definition entered (c : conaddr) (flags n : Z) (s s' : sys) : Prop :=
  (table s' = table s /\ heap s' = heap s) \/
  exists p id, heap s !! p = None /\ heap s' = <[p := mk_con c flags n id true]> (heap s) /\
    connections_list (o s') = connections_list (o s) ++ [p] /\
    id ∉ (table s).*2 /\ 0 <= id < max_connections (cfg (o s)) /\ table s' = table s ++ [(c, id)].

Lemma fresh_notin s p : inv s -> heap s !! p = None -> p ∉ connections_list (o s).
Proof. intros I Hp Hin. apply (i_heap _ I) in Hin as [? ?]. congruence. Qed.

Lemma inv_insert s c flags n p id ta ti :
  inv s -> inet (local_addr c) -> inet (remote_addr c) -> 0 <= flags < 256 ->
  0 <= n <= udp_mtu (cfg (o s)) -> n <= zlen (pkt s) ->
  num_connections (o s) < max_connections (cfg (o s)) ->
  heap s !! p = None -> 0 <= id < max_connections (cfg (o s)) ->
  t_rep ta ((c, p) :: ((fun q => (con_conaddr (heap s !!! q), q)) <$> connections_list (o s))) ->
  t_rep ti ((id, p) :: ((fun q => (con_conid (heap s !!! q), q)) <$> connections_list (o s))) ->
  inv (set_tables ta ti (connections_list (o s) ++ [p]) (num_connections (o s) + 1) id
         (set_heap (<[p := mk_con c flags n id true]> (heap s)) s)).
Proof.
  intros I Hl Hr Hfl Hn Hd Hnum Hp Hid Ra Ri. pose proof (fresh_notin s p I Hp) as Hpn.
  destruct I. split; cbn in *; try done.
  - apply NoDup_app. split_and!; [done | | apply NoDup_singleton].
    intros x Hx ->%list_elem_of_singleton. done.
  - intros q. rewrite lookup_insert_is_Some, i_heap0, elem_of_app, list_elem_of_singleton.
    destruct (decide (p = q)); naive_solver.
  - intros q c'. destruct (decide (q = p)) as [->|Hq].
    + rewrite lookup_insert_eq. intros [= <-]. by split.
    + rewrite lookup_insert_ne by done. apply i_con0.
  - rewrite zlen_app. change (zlen [p]) with 1. lia.
  - lia.
  - rewrite fmap_app, keys_insert by done. cbn. rewrite lookup_total_insert_eq. cbn.
    eapply t_rep_perm; [|exact Ra]. by rewrite Permutation_app_comm.
  - rewrite fmap_app, keys_insert by done. cbn. rewrite lookup_total_insert_eq. cbn.
    eapply t_rep_perm; [|exact Ri]. by rewrite Permutation_app_comm.
Qed.

Lemma connection_init_wp s c flags n ptr ppflow_ok :
  inv s -> inet (local_addr c) -> inet (remote_addr c) -> 0 <= flags < 256 ->
  0 <= n <= udp_mtu (cfg (o s)) -> n <= zlen (pkt s) ->
  num_connections (o s) < max_connections (cfg (o s)) -> c ∉ (table s).*1 -> ptr_ok s ptr ->
  wp (connection_init c flags n ptr ppflow_ok) s (fun _ s' tr =>
    inv s' /\ frame s s' /\ packets tr = [] /\ entered c flags n s s' /\
    (ptr <> None -> ppflow_ok = true -> table s' <> table s)).
Proof.
  intros I Hl Hr Hfl Hn Hd Hnum Hnew Hptr. assert (Hok : conaddr_ok c) by (split; by apply inet_ok).
  unfold connection_init, find_connection_by_conaddr. do 3 wp_step. wp_step; [lia|]. do 3 wp_step. wp_step.
  rewrite (proj2 (find_conaddr_none s c I Hok) Hnew). wp_step. wp_step; [done|]. wp_step. wp_step; [lia|].
  wp_step. wp_step; [lia|].
  destruct ptr as [p|]; cbn in Hptr; [|wp_step; split_and!; try done; by left].
  wp_step. eapply wp_mono; [by apply find_unused_wp|]. intros id s1 tr1 (-> & -> & Hid & Hun & _). cbn beta.
  pose proof (inv_set_next s id I Hid) as I1.
  do 6 wp_step. destruct ppflow_ok; cbn [negb].
  - do 4 wp_step.
    destruct (t_insert_rep _ _ c p (i_ca _ I) Hok) as (ta & Ea & Ra).
    { unfold table in Hnew. by rewrite <- !list_fmap_compose in *. }
    { rewrite <- list_fmap_compose. intros (q & -> & Hq)%list_elem_of_fmap. by apply (fresh_notin s q I). }
    assert (Hio : conid_ok id) by (pose proof (c_max _ (i_cfg _ I)); unfold conid_ok; lia).
    destruct (t_insert_rep _ _ id p (i_id _ I) Hio) as (ti & Ei & Ri).
    { unfold table in Hun. by rewrite <- !list_fmap_compose in *. }
    { rewrite <- list_fmap_compose. intros (q & -> & Hq)%list_elem_of_fmap. by apply (fresh_notin s q I). }
    cbn [o set_heap set_next_conid set_tables by_conaddr by_conid connections_list num_connections next_conid].
    rewrite Ea, Ei. wp_step.
    set (s' := set_tables ta ti (connections_list (o s) ++ [p]) (num_connections (o s) + 1) id
        (set_heap (<[p := mk_con c flags n id true]> (heap s)) s)).
    match goal with |- inv ?st /\ _ => change st with s' end.
    assert (Htab : table s' = table s ++ [(c, id)]).
    { unfold table, s'. cbn. rewrite fmap_app, entries_insert by (by apply fresh_notin).
      cbn. by rewrite entry_insert. }
    split_and!; try done.
    + by apply inv_insert.
    + right. exists p, id. split_and!; try done; lia.
    + intros _ _. rewrite Htab. intros E%(f_equal length). rewrite length_app in E. cbn in E. lia.
  - do 4 wp_step. wp_step. unfold set_heap. cbn [heap o pkt prepared set_next_conid set_tables].
    rewrite delete_insert_eq, delete_id by done. split_and!; try done.
    by left.
Qed.

(** ** Submitting a datagram *)

Definition dns_flags (is_dns : bool) : Z := if is_dns then UDPGW_CLIENT_FLAG_DNS else 0.

(** The packet sent at once, if a buffer is available. *)
Definition sent_packets (sent : option (Z * Z)) (remote : BAddr) (data : list Z) (buf : option (list Z)) :
    list (list Z) :=
  match sent, buf with
  | Some (f, id), Some _ => [udpgw_packet f id remote data]
  | _, _ => []
  end.

Definition submit_post (c : conaddr) (is_dns : bool) (n : Z) (ptr : option Z) (ppflow_ok : bool)
    (buf : option (list Z)) (s s' : sys) (tr : list out) : Prop :=
  inv s' /\ frame s s' /\ exists sent,
    submits (max_connections (cfg (o s))) c (dns_flags is_dns) (table s) (table s') sent /\
    packets tr = sent_packets sent (remote_addr c) (mread (pkt s) 0 n) buf /\
    (sent = None -> entered c (dns_flags is_dns) n s s' /\
       (ptr <> None -> ppflow_ok = true -> table s' <> table s)).

Lemma table_split_entry s p :
  inv s -> p ∈ connections_list (o s) ->
  exists l1 l2, connections_list (o s) = l1 ++ p :: l2 /\
    table s = (entry_of (heap s) <$> l1) ++ entry_of (heap s) p :: (entry_of (heap s) <$> l2).
Proof.
  intros I Hp. apply list_elem_of_split in Hp as (l1 & l2 & E). exists l1, l2. split; [done|].
  by apply table_split.
Qed.

(** Sending on the connection that was just moved to the end. *)
Lemma move_and_send_wp s p flags buf (n := zlen (pkt s)) (Q : unit -> sys -> list out -> Prop) :
  inv s -> p ∈ connections_list (o s) -> n <= udp_mtu (cfg (o s)) -> buf_ok s buf ->
  (forall s' l1 l2 tr, inv s' -> frame s s' -> connections_list (o s) = l1 ++ p :: l2 ->
     table s' = (entry_of (heap s) <$> l1) ++ (entry_of (heap s) <$> l2) ++ [entry_of (heap s) p] ->
     packets tr = sent_packets (Some (flags, con_conid (heap s !!! p)))
       (remote_addr (con_conaddr (heap s !!! p))) (mread (pkt s) 0 n) buf ->
     received tr = [] -> Q tt s' tr) ->
  wp (move_to_end p ;; connection_send p flags (pkt s) n buf) s Q.
Proof.
  intros I Hp Hn Hb HQ. destruct (table_split_entry s p I Hp) as (l1 & l2 & E & _).
  wp_step. eapply move_to_end_wp; [done | exact E |].
  intros s1 I1 Hh HF Ht. pose proof HF as (Hcf & Hpk & _). pose proof (inv_con_ok s p I Hp) as [_ Hr _ _ _].
  eapply wp_mono.
  - apply (connection_send_wp s1 p (heap s !!! p)).
    + rewrite Hh. by apply inv_con.
    + done.
    + rewrite Hcf. apply I.
    + rewrite Hcf. pose proof (zlen_nonneg (pkt s)). lia.
    + done.
    + unfold buf_ok in *. by rewrite Hcf.
  - intros [] s' tr [-> ->]. by apply (HQ s1 l1 l2); try done; destruct buf.
Qed.

Lemma dns_flags_range b : 0 <= dns_flags b < 256.
Proof. by destruct b. Qed.

Lemma submit_wp s local remote is_dns ptr ppflow_ok buf (n := zlen (pkt s)) :
  inv s -> inet local -> inet remote -> n <= udp_mtu (cfg (o s)) -> ptr_ok s ptr -> buf_ok s buf ->
  wp (UdpGwClient_SubmitPacket local remote is_dns n ptr ppflow_ok buf) s
    (fun _ s' tr => submit_post (mk_conaddr local remote) is_dns n ptr ppflow_ok buf s s' tr).
Proof.
  intros I Hl Hr Hn Hptr Hb. pose proof (zlen_nonneg (pkt s)) as Hz. pose proof (dns_flags_range is_dns) as Hfl.
  set (c := mk_conaddr local remote). assert (Hok : conaddr_ok c) by (split; by apply inet_ok).
  unfold UdpGwClient_SubmitPacket, find_connection_by_conaddr. do 3 wp_step. wp_step; [by destruct Hl as [_ [-> | ->]]|].
  wp_step. wp_step; [by destruct Hr as [_ [-> | ->]]|]. wp_step. wp_step; [unfold n; lia|].
  wp_step. wp_step; [unfold n; lia|]. fold c. do 3 wp_step. wp_step.
  change (if is_dns then _ else 0) with (dns_flags is_dns).
  destruct (t_lookup c (by_conaddr (o s))) as [p|] eqn:E.
  - apply (find_conaddr s c p I Hok) in E as [Hp Hc]. do 2 wp_step.
    apply move_and_send_wp; try done. intros s' l1 l2 tr I' HF El Ht Hpk _.
    rewrite Hc in Hpk. split_and!; [done..|]. exists (Some (dns_flags is_dns, con_conid (heap s !!! p))).
    split_and!; [|done|done]. rewrite Ht. unfold entry_of at 3. rewrite Hc.
    apply sub_known. rewrite (table_split s l1 p l2 El). unfold entry_of at 2. by rewrite Hc.
  - apply (find_conaddr_none s c I Hok) in E. pose proof (i_num _ I) as Hnum. pose proof (i_max _ I) as Hmax.
    destruct (Z.eqb_spec (num_connections (o s)) (max_connections (cfg (o s)))) as [Hfull|Hroom].
    + destruct (connections_list (o s)) as [|p l'] eqn:El.
      { pose proof (c_max _ (i_cfg _ I)). rewrite zlen_nil in Hnum. lia. }
      do 2 wp_step. apply (reuse_wp s c p l'); try done. intros s1 I1 El1 HF1 Hh1. wp_step. cbn iota.
      pose proof HF1 as (Hcf & Hpk & _). rewrite <- Hpk. unfold n. rewrite <- Hpk.
      assert (Hp : p ∈ connections_list (o s1)) by (rewrite El1; left).
      assert (Hpn : p ∉ l').
      { pose proof (i_nodup _ I1) as Hnd. rewrite El1 in Hnd. by apply NoDup_cons in Hnd as [? _]. }
      apply move_and_send_wp; [done | done | by rewrite Hpk, Hcf | unfold buf_ok in *; by rewrite Hcf |].
      intros s' l1 l2 tr I' HF El2 Ht Hpks _. rewrite El1 in El2.
      assert (l1 = [] /\ l2 = l') as [-> ->].
      { destruct l1 as [|x l1]; [by injection El2|]. injection El2 as -> ->. destruct Hpn.
        apply elem_of_app. right. left. }
      rewrite Hh1, fmap_nil, app_nil_l, entries_insert in Ht by done. rewrite entry_insert in Ht.
      rewrite Hh1, lookup_total_insert_eq in Hpks. cbn in Ht, Hpks. rewrite Hpk in Hpks |- *.
      split_and!; [done | by eapply frame_trans |].
      exists (Some (u8 (Z.lor (dns_flags is_dns) UDPGW_CLIENT_FLAG_REBIND), con_conid (heap s !!! p))).
      split_and!; [|done|done].
      assert (Htab : table s = entry_of (heap s) p :: (entry_of (heap s) <$> l')) by (unfold table; by rewrite El).
      rewrite Ht. apply (sub_reuse _ _ _ _ (con_conaddr (heap s !!! p))); [done | | by rewrite Htab].
      unfold table. rewrite zlen_fmap. by rewrite El, <- Hnum.
    + do 2 wp_step. eapply wp_mono; [apply connection_init_wp; try done; unfold n; lia|].
      intros [] s' tr (I' & HF & Hpk & Hent & Hgrow). split_and!; [done..|]. exists None.
      split_and!; [|done|done]. assert (Hlen : zlen (table s) < max_connections (cfg (o s))).
      { unfold table. rewrite zlen_fmap. lia. }
      destruct Hent as [[-> _]|(p & id & _ & _ & _ & Hid & Hir & ->)]; [by apply sub_none | by apply sub_new].
Qed.

(** ** Receiving from the server *)

(** Connection id, remote address and payload of a well-formed packet. *)
Definition parse_packet (mtu : Z) (data : list Z) : option (Z * BAddr * list Z) :=
  match data with
  | flags :: c0 :: c1 :: rest =>
      match parse_addr (Z.testbit flags 3) rest with
      | Some (a, n) =>
          let payload := drop (Z.to_nat n) rest in
          if mtu <? zlen payload then None else Some (le_val [c0; c1], a, payload)
      | None => None
      end
  | _ => None
  end.

(** What becomes of a packet: it is delivered on the connection with its id and
    remote address, which becomes the most recently used, or it is dropped. *)
Inductive delivers (l : list (conaddr * Z)) (p : option (Z * BAddr * list Z)) :
    list (conaddr * Z) -> list (BAddr * BAddr * list Z) -> Prop :=
  | del_ok l1 c id l2 d :
      l = l1 ++ (c, id) :: l2 -> p = Some (id, remote_addr c, d) ->
      delivers l p (l1 ++ l2 ++ [(c, id)]) [(local_addr c, remote_addr c, d)]
  | del_drop :
      (forall id a d c, p = Some (id, a, d) -> (c, id) ∈ l -> remote_addr c <> a) -> delivers l p l [].

Definition recv_post (data : list Z) (s s' : sys) (tr : list out) : Prop :=
  inv s' /\ frame s s' /\ packets tr = [] /\
  delivers (table s) (parse_packet (udp_mtu (cfg (o s))) data) (table s') (received tr).

Lemma land_8 x : negb (Z.land x 8 =? 0) = Z.testbit x 3.
Proof.
  change 8 with (2 ^ 3). destruct (Z.testbit x 3) eqn:E.
  - apply negb_true_iff, Z.eqb_neq. intros H. apply (f_equal (fun z => Z.testbit z 3)) in H.
    rewrite Z.land_spec, E, Z.pow2_bits_true in H by lia. done.
  - apply negb_false_iff, Z.eqb_eq. apply Z.bits_inj'. intros n Hn. rewrite Z.land_spec, Z.pow2_bits_eqb, Z.bits_0 by lia.
    destruct (Z.eqb_spec 3 n) as [<-|]; [by rewrite E | by rewrite andb_false_r].
Qed.

(** Delivery on the connection that has the packet's id. *)
Lemma recv_deliver_wp s id a off n data (d := mread data off n) :
  inv s -> conid_ok id -> baddr_ok a -> 0 <= off -> 0 <= n -> off + n <= zlen data ->
  wp (con <- find_connection_by_conid id ;;
      match con with
      | None => ret tt
      | Some con =>
          c <- con_ con ;;
          if negb (BAddr_CompareOrder (remote_addr (con_conaddr c)) a =? 0) then ret tt else
          move_to_end con ;;
          d <- get_bytes data off n ;;
          emit (Received (local_addr (con_conaddr c)) (remote_addr (con_conaddr c)) d)
      end) s
    (fun _ s' tr => inv s' /\ frame s s' /\ packets tr = [] /\
       delivers (table s) (Some (id, a, d)) (table s') (received tr)).
Proof.
  intros I Hid Ha Hoff Hn Hlen. unfold find_connection_by_conid. do 3 wp_step. wp_step.
  destruct (t_lookup id (by_conid (o s))) as [p|] eqn:E.
  - apply (find_conid s id p I Hid) in E as [Hp Hpid]. pose proof (inv_con_ok s p I Hp) as [_ Hr _ _ _].
    wp_step. eapply wp_load; [by apply inv_con|].
    destruct (table_split_entry s p I Hp) as (l1 & l2 & El & Et).
    assert (Ee : entry_of (heap s) p = (con_conaddr (heap s !!! p), id)) by (unfold entry_of; by rewrite Hpid).
    destruct (Z.eqb_spec (BAddr_CompareOrder (remote_addr (con_conaddr (heap s !!! p))) a) 0) as [Hc|Hc]; cbn [negb].
    + apply compare_order_eq in Hc; [|by apply inet_ok|done].
      wp_step. eapply move_to_end_wp; [done | exact El |]. intros s' I' Hh HF Ht.
      wp_step. apply wp_get_bytes; [lia|]. wp_step. split_and!; try done.
      rewrite Ht, Et, Ee. cbn. rewrite <- Hc. by apply (del_ok _ _ _ _ id).
    + wp_step. split_and!; try done. apply del_drop. intros id' a' d' c [= <- <- <-] Hin Hra.
      rewrite compare_order_eq in Hc by (done || by apply inet_ok). destruct Hc.
      destruct (table_nodup s I) as [_ Hnd]. rewrite Et, Ee, fmap_app, fmap_cons in Hnd. cbn in Hnd.
      rewrite Et, Ee in Hin. apply NoDup_app in Hnd as (_ & Hd1 & [Hd2 _]%NoDup_cons).
      apply elem_of_app in Hin as [Hin|[Hin|Hin]%elem_of_cons].
      * destruct (Hd1 id); [by apply (list_elem_of_fmap_2 snd _ (c, id)) | by left].
      * injection Hin as ->. done.
      * destruct Hd2. by apply (list_elem_of_fmap_2 snd _ (c, id)).
  - apply (find_conid_none s id I Hid) in E. wp_step. split_and!; try done. apply del_drop.
    intros id' a' d' c [= <- <- <-] Hin _. destruct E. by apply (list_elem_of_fmap_2 snd _ (c, id)).
Qed.

Lemma mread_cons3 (a b c : Z) l off n :
  0 <= off -> mread (a :: b :: c :: l) (3 + off) n = mread l off n.
Proof. intros. unfold mread. by replace (Z.to_nat (3 + off)) with (S (S (S (Z.to_nat off)))) by lia. Qed.

Lemma recv_packet_wp s data :
  inv s -> have_server (o s) = true -> bytes_ok data -> zlen data <= udpgw_mtu (cfg (o s)) ->
  wp (recv_interface_handler_send data) s (fun _ s' tr => recv_post data s s' tr).
Proof.
  intros I Hs Hb Hlen. pose proof (zlen_nonneg data). unfold recv_interface_handler_send, recv_post.
  do 3 wp_step. wp_step; [done|]. wp_step. wp_step; [lia|]. wp_step. wp_step; [lia|]. do 2 wp_step.
  unfold sizeof_udpgw_header. destruct (Z.ltb_spec (zlen data) 3) as [Hshort|Hhdr].
  { wp_step. split_and!; try done. replace (parse_packet _ _) with (@None (Z * BAddr * list Z)); [by apply del_drop|].
    destruct data as [|? [|? [|? l]]]; try done. rewrite !zlen_cons in Hshort. pose proof (zlen_nonneg l). lia. }
  destruct data as [|f [|c0 [|c1 rest]]]; try (rewrite ?zlen_cons, zlen_nil in Hhdr; lia).
  pose proof (zlen_nonneg rest).
  apply Forall_cons in Hb as [Hf Hb]. apply Forall_cons in Hb as [Hc0 Hb]. apply Forall_cons in Hb as [Hc1 Hb].
  assert (Hid : conid_ok (le_val [c0; c1])) by (unfold conid_ok, byte_ok in *; cbn; lia).
  wp_step. apply wp_get_bytes; [lia|].
  change (mread (mread (f :: c0 :: c1 :: rest) 0 3) 0 1) with [f].
  change (mread (mread (f :: c0 :: c1 :: rest) 0 3) 1 2) with [c0; c1].
  unfold ltoh8, ltoh16, htol8, htol16. rewrite u16_id, (u8_id (le_val [f])), le_val_1 by (rewrite ?le_val_1; apply Hf || apply Hid).
  unfold UDPGW_CLIENT_FLAG_IPV6. rewrite land_8.
  wp_step. apply read_addr_wp; [lia | done |]. cbn [parse_packet]. change (drop (Z.to_nat 3) (f :: c0 :: c1 :: rest)) with rest.
  destruct (parse_addr (Z.testbit f 3) rest) as [[a n]|] eqn:E.
  - apply parse_addr_ok in E as [Ha Hn]; [|done].
    assert (Hz : zlen (drop (Z.to_nat n) rest) = zlen rest - n) by (unfold zlen in *; rewrite length_drop; lia).
    assert (Hl3 : zlen (f :: c0 :: c1 :: rest) = 3 + zlen rest) by (rewrite !zlen_cons; lia).
    rewrite Hz, Hl3. rewrite Z.gtb_ltb. replace (3 + zlen rest - 3 - n) with (zlen rest - n) by lia.
    destruct (Z.ltb_spec (udp_mtu (cfg (o s))) (zlen rest - n)); [wp_step; split_and!; try done; by apply del_drop|].
    eapply wp_mono; [apply (recv_deliver_wp s (le_val [c0; c1]) a); try done; lia|].
    intros u s' tr HR. cbn beta in HR. rewrite mread_cons3, mread_drop in HR by lia. done.
  - wp_step. split_and!; try done. by apply del_drop.
Qed.

(** ** The packet format *)

(** The server tells the address family by bit 3 of the flags. *)
Lemma family_flags_bit flags a :
  0 <= flags < 256 -> inet a -> (baddr_type a = 1 -> Z.testbit flags 3 = false) ->
  0 <= family_flags flags a < 256 /\ Z.testbit (family_flags flags a) 3 = (baddr_type a =? 2).
Proof.
  intros Hf [_ Ht] H3. unfold family_flags. destruct (Z.eqb_spec (baddr_type a) 2) as [E|E].
  - split; [apply u8_range|]. unfold u8. change 256 with (2 ^ 8).
    by rewrite Z.mod_pow2_bits_low, Z.lor_spec, orb_true_r by lia.
  - split; [done|]. apply H3. lia.
Qed.

Lemma parse_udpgw_packet mtu flags id remote d :
  inet remote -> 0 <= flags < 256 -> (baddr_type remote = 1 -> Z.testbit flags 3 = false) -> conid_ok id ->
  zlen d <= mtu -> parse_packet mtu (udpgw_packet flags id remote d) = Some (id, remote, d).
Proof.
  intros Ha Hf H3 Hid Hd. destruct (family_flags_bit flags remote Hf Ha H3) as [Hff Hbit].
  unfold udpgw_packet, header_bytes, ltoh8, ltoh16, htol8, htol16.
  rewrite (u8_id (family_flags _ _)), (u16_id id) by done.
  cbn [le_bytes app parse_packet]. unfold conid_ok in Hid.
  rewrite (Z.mod_small (family_flags _ _) 256), Hbit by done.
  destruct (parse_addr_part remote d Ha) as (n & -> & ->).
  replace (mtu <? zlen d) with false by lia. do 3 f_equal. cbn [le_val]. dlia.
Qed.

(** ** The other handlers *)

Lemma set_pkt_inv s d : inv s -> jobs_done s = true -> inv (set_pkt d s).
Proof.
  intros I Hj. destruct I. split; cbn in *; try done. intros p c Hc.
  destruct (i_con0 p c Hc) as [H1 H2 H3 H4 _]. split; try done. intros Hf.
  unfold jobs_done in Hj. rewrite forallb_forall in Hj.
  assert (Hin : In (p, c) (map_to_list (heap s))) by (by apply list_elem_of_In, elem_of_map_to_list).
  apply Hj in Hin. cbn in Hin. by rewrite Hf in Hin.
Qed.

(** Reading the connections through a heap where one entry kept its keys. *)
Lemma fmap_same_keys {B} (f : connection -> Z -> B) (h : gmap Z connection) p c c' (l : list Z) :
  h !! p = Some c -> (forall q, f c' q = f c q) ->
  (fun q => f (<[p := c']> h !!! q) q) <$> l = (fun q => f (h !!! q) q) <$> l.
Proof.
  intros Hp Hf. apply fmap_ext_in. intros q _. destruct (decide (q = p)) as [->|Hq].
  - by rewrite lookup_total_insert_eq, (lookup_total_correct _ _ _ Hp), Hf.
  - by rewrite lookup_total_insert_ne.
Qed.

Lemma inv_job_taken s p c (s' := set_heap (<[p := job_taken c]> (heap s)) s) :
  inv s -> heap s !! p = Some c -> inv s' /\ table s' = table s.
Proof.
  intros I Hc. split.
  - destruct I. split; cbn; try done.
    + intros q. rewrite lookup_insert_is_Some, <- i_heap0. destruct (decide (p = q)) as [<-|]; naive_solver.
    + intros q c1. destruct (decide (q = p)) as [->|Hq].
      * rewrite lookup_insert_eq. intros [= <-]. by destruct (i_con0 p c Hc).
      * rewrite lookup_insert_ne by done. apply i_con0.
    + by rewrite (fmap_same_keys (fun c q => (con_conaddr c, q)) _ _ c).
    + by rewrite (fmap_same_keys (fun c q => (con_conid c, q)) _ _ c).
  - unfold table, entry_of, s'. cbn. by rewrite (fmap_same_keys (fun c _ => (con_conaddr c, con_conid c)) _ _ c).
Qed.

Lemma buf_fits_ok s buf : buf_fits s buf = true -> buf_ok s buf.
Proof. unfold buf_fits, buf_ok. destruct buf; [apply Z.eqb_eq | done]. Qed.

(** The job of a new connection sends the datagram with the REBIND flag. *)
Lemma first_job_wp s p c buf :
  inv s -> heap s !! p = Some c -> con_first_job c = true -> buf_ok s buf ->
  wp (deliver (E_first_job p buf)) s (fun _ s' tr => inv s' /\ frame s s' /\ table s' = table s /\
    s' = set_heap (<[p := job_taken c]> (heap s)) s /\
    packets tr = sent_packets (Some (u8 (Z.lor UDPGW_CLIENT_FLAG_REBIND (con_first_flags c)), con_conid c))
      (remote_addr (con_conaddr c)) (mread (pkt s) 0 (con_first_data_len c)) buf).
Proof.
  intros I Hc Hj Hb. destruct (inv_job_taken s p c I Hc) as [I' Ht]. destruct (i_con _ I _ _ Hc) as [H1 H2 H3 H4 H5].
  destruct (H5 Hj) as [H6 H7]. unfold deliver, connection_first_job_handler, con_. wp_step. eapply wp_load; [exact Hc|].
  do 2 wp_step. wp_step. eapply wp_load; [apply lookup_insert_eq|]. do 2 wp_step. cbn [pkt set_heap job_taken con_first_flags con_first_data_len].
  eapply wp_mono.
  { apply (connection_send_wp _ p (job_taken c)); [apply lookup_insert_eq | done | apply I | done | done | by destruct buf]. }
  intros u s' tr [-> ->]. split_and!; try done. by destruct buf.
Qed.

(** ** Freeing *)

Definition free_trace (l : list Z) : list out := mbind (fun p => [Ppflow_Free p; Qflow_Free p; Job_Free p]) l.

Lemma keys_delete {B} (f : connection -> B) (h : gmap Z connection) p (l : list Z) :
  p ∉ l -> (fun q => (f (delete p h !!! q), q)) <$> l = (fun q => (f (h !!! q), q)) <$> l.
Proof. apply (fmap_delete_ne (fun q c => (f c, q))). Qed.

Lemma connection_free_wp s p (Q : unit -> sys -> list out -> Prop) :
  inv s -> p ∈ connections_list (o s) -> prepared s = true ->
  (forall s', inv s' -> frame s s' -> connections_list (o s') = list_remove p (connections_list (o s)) ->
     Q tt s' [Ppflow_Free p; Qflow_Free p; Job_Free p]) ->
  wp (connection_free p) s Q.
Proof.
  intros I Hp Hpr HQ. unfold connection_free. wp_step. eapply wp_load; [by apply inv_con|].
  do 2 wp_step. wp_step. wp_step; [done|]. do 9 wp_step. apply HQ; try done.
  destruct I. split; cbn; try done.
  - by apply NoDup_list_remove.
  - intros q. rewrite elem_of_list_remove, <- i_heap0, lookup_delete_is_Some. naive_solver.
  - intros q c [_ Hq]%lookup_delete_Some. by apply (i_con0 q).
  - rewrite zlen_list_remove by done. lia.
  - lia.
  - rewrite keys_delete by (by intros []%elem_of_list_remove). rewrite <- filter_keys. by apply (t_remove_keys (fun q => _)).
  - rewrite keys_delete by (by intros []%elem_of_list_remove). rewrite <- filter_keys. by apply (t_remove_keys (fun q => _)).
Qed.

Lemma free_connections_wp s fuel (Q : unit -> sys -> list out -> Prop) :
  inv s -> prepared s = true -> (length (connections_list (o s)) < fuel)%nat ->
  (forall s', inv s' -> frame s s' -> connections_list (o s') = [] -> Q tt s' (free_trace (connections_list (o s)))) ->
  wp (free_connections fuel) s Q.
Proof.
  revert s Q. induction fuel as [|fuel IH]; intros s Q I Hp Hf HQ; [lia|]. cbn [free_connections].
  do 2 wp_step. pose proof (i_nodup _ I) as Hnd. destruct (connections_list (o s)) as [|p l] eqn:E; [wp_step; by apply HQ|].
  wp_step. apply connection_free_wp; [done | by rewrite E; left | done |]. intros s' I' HF El.
  rewrite E in El. rewrite (list_remove_split p [] l Hnd : list_remove p (p :: l) = l) in El. apply IH; [done | | |].
  - destruct HF as (_ & _ & -> & _). done.
  - rewrite El. cbn in Hf. lia.
  - intros s2 I2 HF2 El2. rewrite El. apply HQ; [done | by eapply frame_trans | done].
Qed.

Definition server_trace (hs : bool) : list out :=
  if hs then [Disconnect_Output; Sender_Free; Decoder_Free; Recv_If_Free] else [].

(** Freeing releases every connection and then the rest, in order. *)
Lemma free_wp s :
  inv s -> wp UdpGwClient_Free s (fun _ s' tr => heap s' = ∅ /\
    tr = Queue_PrepareFree :: free_trace (connections_list (o s)) ++ server_trace (have_server (o s)) ++
         [Keepalive_Flow_Free; Queue_Free; Monitor_Free; Connector_Free]).
Proof.
  intros I. unfold UdpGwClient_Free. do 7 wp_step. apply free_connections_wp.
  - by destruct I.
  - done.
  - cbn. lia.
  - intros s' I' (_ & _ & _ & Hs & _) El. wp_step.
    assert (Hh : heap s' = ∅).
    { apply map_empty. intros p. apply eq_None_not_Some. rewrite (i_heap _ I'), El. by apply not_elem_of_nil. }
    apply (wp_mono _ _ (fun _ s2 tr => s2 = s' /\ tr = server_trace (have_server (o s)))).
    { cbn in Hs. destruct (have_server (o s)); [unfold free_server|]; by wp_run. }
    intros u s2 tr [-> ->]. wp_run.
Qed.

(** ** Reachable states *)

Lemma inv_set_flags s ks hs : inv s -> inv (set_flags ks hs s).
Proof. by intros []. Qed.

(** The handlers that only touch the server and the keepalive. *)
Lemma server_wp s ev :
  inv s -> enabled ev s = true ->
  match ev with E_connect _ | E_disconnect | E_decoder_error _ | E_monitor | E_keepalive_done => True | _ => False end ->
  wp (deliver ev) s (fun _ s' _ => exists ks hs, s' = set_flags ks hs s).
Proof.
  intros I He. assert (Hid : exists ks hs, s = set_flags ks hs s).
  { exists (keepalive_sending (o s)), (have_server (o s)). by destruct s as [[]]. }
  destruct ev as [| | |ok| |b| |]; try done; intros _; cbn [deliver enabled] in *.
  - unfold UdpGwClient_ConnectServer. do 4 wp_step. wp_step; [done|]. do 2 wp_step.
    destruct ok; cbn [negb]; wp_run; eauto.
  - unfold UdpGwClient_DisconnectServer, free_server. do 2 wp_step. wp_step. wp_step; [done|]. wp_run; eauto.
  - unfold decoder_handler_error, UdpGwClient_DisconnectServer, free_server. do 2 wp_step. wp_step. wp_step; [done|].
    do 2 wp_step. destruct b; [|by wp_step]. do 2 wp_step. wp_step. wp_step; [done|]. wp_run; eauto.
  - unfold send_monitor_handler. do 2 wp_step. destruct (keepalive_sending (o s)); wp_run; eauto.
  - unfold keepalive_if_handler_done. do 2 wp_step. wp_step. wp_step; [done|]. wp_run; eauto.
Qed.

Lemma deliver_submit_wp s local remote is_dns data ptr ppflow_ok buf :
  inv s -> enabled (E_submit local remote is_dns data ptr ppflow_ok buf) s = true ->
  wp (deliver (E_submit local remote is_dns data ptr ppflow_ok buf)) s (fun _ s' tr =>
    inet local /\ inet remote /\ zlen data <= udp_mtu (cfg (o s)) /\
    submit_post (mk_conaddr local remote) is_dns (zlen data) ptr ppflow_ok buf (set_pkt data s) s' tr).
Proof.
  intros I He. cbn [enabled] in He. rewrite !andb_true_iff in He. destruct He as [[[[[Hj Hl] Hr] Hd] Hb] Hp].
  apply inet_b_ok in Hl, Hr. apply buf_fits_ok in Hb. cbn [deliver]. do 2 wp_step.
  eapply wp_mono; [apply (submit_wp (set_pkt data s)); try done|].
  - by apply set_pkt_inv.
  - cbn. lia.
  - destruct ptr as [q|]; [|done]. cbn. apply negb_true_iff, bool_decide_eq_false in Hp. by apply eq_None_not_Some.
  - intros u s' tr HP. cbn beta in HP. split_and!; try done. lia.
Qed.

Lemma deliver_packet_wp s data :
  inv s -> enabled (E_recv data) s = true ->
  wp (deliver (E_recv data)) s (fun _ s' tr => recv_post data s s' tr).
Proof.
  intros I He. cbn [enabled] in He. rewrite !andb_true_iff in He. destruct He as [[Hs Hd] Hb].
  apply bool_decide_eq_true in Hb. cbn [deliver]. apply recv_packet_wp; try done. lia.
Qed.

Lemma deliver_inv s ev : inv s -> enabled ev s = true -> wp (deliver ev) s (fun _ s' _ => inv s' /\ cfg (o s') = cfg (o s)).
Proof.
  intros I He.
  assert (Hserver : match ev with E_connect _ | E_disconnect | E_decoder_error _ | E_monitor | E_keepalive_done => True | _ => False end ->
    wp (deliver ev) s (fun _ s' _ => inv s' /\ cfg (o s') = cfg (o s))).
  { intros Hev. eapply wp_mono; [by apply server_wp|]. intros u s' tr (ks & hs & ->). split; [by apply inv_set_flags | done]. }
  destruct ev as [local remote is_dns data ptr ppflow_ok buf|p buf|data|ok| |b| |]; try by apply Hserver.
  - eapply wp_mono; [by apply deliver_submit_wp|]. by intros u s' tr (_ & _ & _ & ? & (? & _) & _).
  - cbn [enabled] in He. destruct (heap s !! p) as [c|] eqn:Hc; [|done]. apply andb_true_iff in He as [Hj Hb].
    eapply wp_mono; [apply (first_job_wp s p c); try done; by apply buf_fits_ok|]. by intros u s' tr (? & (? & _) & _).
  - eapply wp_mono; [by apply deliver_packet_wp|]. by intros u s' tr (? & (? & _) & _).
Qed.

(** The arguments of [UdpGwClient_Init] that its assertions allow. *)
Definition init_ok (android : bool) (udp_mtu max_connections send_buffer_size : Z) : Prop :=
  0 <= udp_mtu <= INT_MAX /\ 0 <= udpgw_compute_mtu android udp_mtu <= PACKETPROTO_MAXPAYLOAD /\
  0 < max_connections <= INT_MAX /\ 0 < send_buffer_size.

Lemma init_inv android udp_mtu max sbs :
  init_ok android udp_mtu max sbs ->
  exists x, UdpGwClient_Init android udp_mtu max sbs true = Some (Some x) /\ inv (mk_sys x ∅ [] false) /\
    max_connections (cfg x) = Z.min max 65536.
Proof.
  intros (Hu & Hc & Hm & Hs). unfold UdpGwClient_Init.
  replace (_ && _ && _ && _ && _) with true by (symmetry; rewrite !andb_true_iff; lia). cbn iota.
  eexists. split; [done|].
  assert (Hmax : (if max >? UINT16_MAX + 1 then UINT16_MAX + 1 else max) = Z.min max 65536).
  { unfold UINT16_MAX. destruct (Z.gtb_spec max (65535 + 1)); lia. }
  rewrite Hmax. split; [|done]. split; cbn; try done.
  - split; cbn; [lia | lia |]. rewrite udpgw_compute_mtu_val in * by done. cbn zeta in *.
    destruct android; destruct (_ <=? INT_MAX); lia.
  - constructor.
  - intros p. rewrite lookup_empty. split; [by intros [] | by intros ?%elem_of_nil].
  - lia.
  - lia.
  - apply t_empty_rep.
  - apply t_empty_rep.
Qed.

Lemma run_events_inv evs s :
  inv s -> exists s', run_events evs s = Some s' /\ inv s' /\ cfg (o s') = cfg (o s).
Proof.
  revert s. induction evs as [|ev evs IH]; intros s I; cbn [run_events]; [by eauto|].
  destruct (enabled ev s) eqn:E; [|by eauto].
  destruct (wp_ok _ _ _ (deliver_inv s ev I E)) as (u & s1 & tr & -> & I1 & Hc).
  rewrite <- Hc. by apply IH.
Qed.

(** Only one entry has a given id. *)
Lemma NoDup_snd_inj {A} (l1 : list (A * Z)) x i l2 y :
  NoDup (l1 ++ (x, i) :: l2).*2 -> (y, i) ∈ l1 ++ (x, i) :: l2 -> x = y.
Proof.
  rewrite fmap_app, fmap_cons. cbn. intros (_ & Hd & [Hn _]%NoDup_cons)%NoDup_app
    [Hin|[[= ->]|Hin]%elem_of_cons]%elem_of_app; [| done |].
  - destruct (Hd i); [by apply (list_elem_of_fmap_2 snd _ (y, i)) | by left].
  - destruct Hn. by apply (list_elem_of_fmap_2 snd _ (y, i)).
Qed.

(** ** Properties *)

Section Properties.
Context (android : bool) (mtu max sbs : Z) (evs : list event).
Context (Hinit : init_ok android mtu max sbs).

Lemma udpgw_run_inv :
  exists s, run android mtu max sbs evs = Some s /\ inv s /\ max_connections (cfg (o s)) = Z.min max 65536.
Proof.
  destruct (init_inv android mtu max sbs Hinit) as (x & E & I & Hm). unfold run. rewrite E.
  destruct (run_events_inv evs _ I) as (s & -> & I' & Hc). exists s. split_and!; [done | done |]. by rewrite Hc.
Qed.

Lemma run_inv_of s : run android mtu max sbs evs = Some s -> inv s /\ max_connections (cfg (o s)) = Z.min max 65536.
Proof. intros E. destruct udpgw_run_inv as (s' & E' & I). simplify_eq. done. Qed.

Lemma table_ok s :
  inv s -> Forall (fun e => inet (local_addr e.1) /\ inet (remote_addr e.1) /\ 0 <= e.2 < max_connections (cfg (o s))) (table s).
Proof.
  intros I. apply Forall_fmap, Forall_forall. intros p Hp. by destruct (inv_con_ok s p I Hp).
Qed.

(** C22. Whatever datagrams, packets and failures come, no handler of the client
    fails an assertion, uses a freed connection, or accesses memory outside a
    packet or a buffer.  Connections always have distinct address pairs and
    distinct ids below the limit, there are never more than the limit (at most
    65536), and freeing the client at any moment releases every connection
    before the queue, the server objects if present, and leaves no object. *)
Theorem udpgw_client_safe :
  exists s, run android mtu max sbs evs = Some s /\
    NoDup (table s).*1 /\ NoDup (table s).*2 /\ num_connections (o s) = zlen (table s) /\
    zlen (table s) <= Z.min max 65536 /\
    Forall (fun e => inet (local_addr e.1) /\ inet (remote_addr e.1) /\ 0 <= e.2 < Z.min max 65536) (table s) /\
    exists s' tr, UdpGwClient_Free s = Ok tt s' tr /\ heap s' = ∅ /\
      tr = Queue_PrepareFree :: free_trace (connections_list (o s)) ++ server_trace (have_server (o s)) ++
           [Keepalive_Flow_Free; Queue_Free; Monitor_Free; Connector_Free].
Proof.
  destruct udpgw_run_inv as (s & E & I & Hm). exists s. rewrite <- Hm. destruct (table_nodup s I).
  destruct (wp_ok _ _ _ (free_wp s I)) as ([] & s' & tr & HF & Hh & Ht).
  assert (Hn : zlen (table s) = num_connections (o s)) by (unfold table; by rewrite zlen_fmap, (i_num _ I)).
  split_and!; try done; [by rewrite Hn; apply I | by apply table_ok | eauto].
Qed.

(** C21. Submitting a datagram changes the table of connections as specified (the
    connection becomes the most recently used; a full table rebinds the least
    recently used id) and sends exactly the packet for it at once; or, for a new
    connection, its job is set and sends exactly the packet with the REBIND flag.
    A datagram is lost only if memory or a buffer is missing. *)
Theorem udpgw_submit (s : sys) local remote is_dns data ptr ppflow_ok buf
    (Hrun : run android mtu max sbs evs = Some s)
    (He : enabled (E_submit local remote is_dns data ptr ppflow_ok buf) s = true) :
  exists s' tr sent, deliver (E_submit local remote is_dns data ptr ppflow_ok buf) s = Ok tt s' tr /\
    submits (Z.min max 65536) (mk_conaddr local remote) (dns_flags is_dns) (table s) (table s') sent /\
    packets tr = sent_packets sent remote data buf /\
    (sent = None -> ptr <> None -> ppflow_ok = true ->
      exists con id, table s' = table s ++ [(mk_conaddr local remote, id)] /\
        forall buf', buf_fits s' buf' = true ->
        enabled (E_first_job con buf') s' = true /\
        exists s'' tr', deliver (E_first_job con buf') s' = Ok tt s'' tr' /\ table s'' = table s' /\
          packets tr' = sent_packets (Some (u8 (Z.lor UDPGW_CLIENT_FLAG_REBIND (dns_flags is_dns)), id)) remote data buf').
Proof.
  destruct (run_inv_of s Hrun) as [I Hm]. rewrite <- Hm.
  destruct (wp_ok _ _ _ (deliver_submit_wp _ _ _ _ _ _ _ _ I He)) as ([] & s' & tr & E & Hl & Hr & Hd & I' & HF & sent & Hs & Hp & Hn).
  exists s', tr, sent. rewrite mread_all in Hp. split_and!; [done | exact Hs | exact Hp |].
  intros Hsent Hptr Hpp. destruct (Hn Hsent) as [[[Ht _]|(con & id & Hfr & Hh & _ & _ & _ & Ht)] Hgrow].
  { by destruct (Hgrow Hptr Hpp). }
  exists con, id. split; [exact Ht|]. intros buf' Hb.
  assert (Hc : heap s' !! con = Some (mk_con (mk_conaddr local remote) (dns_flags is_dns) (zlen data) id true)).
  { rewrite Hh. apply lookup_insert_eq. }
  split; [cbn [enabled]; rewrite Hc; exact Hb|].
  destruct (wp_ok _ _ _ (first_job_wp s' con _ buf' I' Hc eq_refl (buf_fits_ok _ _ Hb))) as ([] & s'' & tr' & E' & _ & _ & Ht' & _ & Hp').
  exists s'', tr'. split_and!; [done | done |]. rewrite Hp'. destruct HF as (_ & -> & _). cbn. by rewrite mread_all.
Qed.

(** C27. A packet from the server is delivered to the user exactly if it parses,
    its id is in use and its address is the one of that connection; the payload
    is what the packet carries.  Any other packet is dropped without effect. *)
Theorem udpgw_receive (s : sys) data (Hrun : run android mtu max sbs evs = Some s)
    (He : enabled (E_recv data) s = true) :
  exists s' tr, deliver (E_recv data) s = Ok tt s' tr /\ packets tr = [] /\
    delivers (table s) (parse_packet (udp_mtu (cfg (o s))) data) (table s') (received tr).
Proof.
  destruct (run_inv_of s Hrun) as [I _].
  destruct (wp_ok _ _ _ (deliver_packet_wp s data I He)) as ([] & s' & tr & E & _ & _ & Hp & Hd). by exists s', tr.
Qed.

(** Round trip of the packet format through the table: a packet that the
    client's own encoder makes for a connection comes back as a datagram with the
    same payload on that connection, which becomes the most recently used. *)
Theorem udpgw_echo (s : sys) (c : conaddr) (id flags : Z) (d : list Z)
    (Hrun : run android mtu max sbs evs = Some s) (Hs : have_server (o s) = true) (Hin : (c, id) ∈ table s)
    (Hf : 0 <= flags < 256) (H3 : baddr_type (remote_addr c) = 1 -> Z.testbit flags 3 = false)
    (Hd : bytes_ok d) (Hlen : zlen d <= udp_mtu (cfg (o s))) :
  exists s' tr l1 l2, deliver (E_recv (udpgw_packet flags id (remote_addr c) d)) s = Ok tt s' tr /\
    table s = l1 ++ (c, id) :: l2 /\ table s' = l1 ++ l2 ++ [(c, id)] /\
    received tr = [(local_addr c, remote_addr c, d)].
Proof.
  destruct (run_inv_of s Hrun) as [I _]. pose proof (table_ok s I) as Hok. rewrite Forall_forall in Hok.
  destruct (Hok _ Hin) as (Hl & Hr & Hid). cbn [fst snd] in *. pose proof (c_max _ (i_cfg _ I)) as Hmax.
  assert (Hio : conid_ok id) by (unfold conid_ok; lia).
  assert (He : enabled (E_recv (udpgw_packet flags id (remote_addr c) d)) s = true).
  { cbn [enabled]. rewrite Hs, andb_true_l, andb_true_iff, bool_decide_eq_true. unfold udpgw_packet. split.
    - rewrite !zlen_app, zlen_header_bytes, zlen_addr_part by done.
      pose proof (c_mtu _ (i_cfg _ I)). destruct (_ =? 1); lia.
    - apply Forall_app_2; [apply Forall_app_2; apply le_bytes_ok|]. apply Forall_app_2; [by apply addr_part_ok | done]. }
  destruct (wp_ok _ _ _ (deliver_packet_wp s _ I He)) as ([] & s' & tr & E & _ & _ & _ & HD).
  rewrite parse_udpgw_packet in HD by done. inversion HD as [l1 c' id' l2 d' El Ep Et Er|Hdrop Et Er].
  - injection Ep as -> Hra ->. exists s', tr, l1, l2.
    assert (c' = c) as ->; [|split_and!; try done; by rewrite Hra].
    destruct (table_nodup s I) as [_ Hnd]. rewrite El in Hin, Hnd. by apply (NoDup_snd_inj l1 c' id' l2 c).
  - by destruct (Hdrop id (remote_addr c) d c).
Qed.

(** C40. The search for an unused connection id ends after at most one round, and
    finds the first id after the last one given that is not in use. *)
Theorem find_unused_conid_terminates (s : sys) (Hrun : run android mtu max sbs evs = Some s)
    (Hn : num_connections (o s) < max_connections (cfg (o s))) :
  exists id, find_unused_conid s = Ok id (set_next_conid id s) [] /\
    first_unused (max_connections (cfg (o s))) (next_conid (o s)) (table s).*2 id.
Proof.
  destruct (run_inv_of s Hrun) as [I _].
  destruct (wp_ok _ _ _ (find_unused_wp s I Hn)) as (id & s' & tr & E & -> & -> & Hf). by exists id.
Qed.

End Properties.

End Client.

(** ** A concrete client *)

(** The trees are the AVL trees of the program; their orders: *)
Lemma conaddr_order : key_order conaddr_ok conaddr_comparator.
Proof.
  apply (key_order_pair baddr_ok baddr_ok conaddr_ok _ _ remote_addr local_addr BavlTree.baddr_order BavlTree.baddr_order).
  - by intros x [].
  - intros [] []; cbn. by intros -> ->.
Qed.

Lemma conid_order : key_order conid_ok uint16_comparator.
Proof. apply BavlTree.b_compare_order. Qed.

Definition local_demo : BAddr := BADDR_IPV4 33554442 20480.
Definition remote_demo (port : Z) : BAddr := BADDR_IPV4 134744072 port.
Definition evs_demo : list event :=
  [E_connect true; E_submit local_demo (remote_demo 13568) true [1; 2] (Some 1) true None;
   E_first_job 1 (Some (replicate 37 0))].
Definition submit_demo : event := E_submit local_demo (remote_demo 80) false [7] (Some 2) true (Some (replicate 37 0)).

Lemma init_demo : init_ok true 15 1 8.
Proof. vm_compute. intuition congruence. Qed.

#[export] Instance conaddr_tree : SearchTree conaddr_ok conaddr_comparator :=
  BavlTree.bavl_tree conaddr_ok conaddr_comparator conaddr_order.
#[export] Instance conid_tree : SearchTree conid_ok uint16_comparator :=
  BavlTree.bavl_tree conid_ok uint16_comparator conid_order.

Definition config_demo : config := mk_config 15 1 8 37 39 keepalive_bytes.
Definition conaddr_demo : conaddr := mk_conaddr local_demo (remote_demo 13568).
Definition one_node {K} (k : K) (p : Z) : Bavl.BAVL := Bavl.mk_bavl (Some p) {[p := Bavl.mk_node None None None 0 k]}.
Definition s_demo : sys :=
  mk_sys (mk config_demo (one_node conaddr_demo 1) (one_node 0 1) [1] 1 0 false true)
    {[1 := mk_con conaddr_demo 4 2 0 false]} [1; 2] false.

Lemma udpgw_run_demo : run true 15 1 8 evs_demo = Some s_demo.
Proof. vm_cast_no_check (eq_refl (Some s_demo)). Qed.

Lemma udpgw_client_safe_witness :
  init_ok true 15 1 8 /\ exists s, run true 15 1 8 evs_demo = Some s /\ NoDup (table s).*1.
Proof.
  split; [exact init_demo|]. destruct (udpgw_client_safe true 15 1 8 evs_demo init_demo) as (s & E & H & _).
  exact (ex_intro _ s (conj E H)).
Defined.

Lemma udpgw_submit_witness :
  enabled submit_demo s_demo = true /\ exists s' tr sent, deliver submit_demo s_demo = Ok tt s' tr /\
    submits 1 (mk_conaddr local_demo (remote_demo 80)) 0 (table s_demo) (table s') sent.
Proof.
  assert (He : enabled submit_demo s_demo = true) by (vm_compute; reflexivity). split; [exact He|].
  destruct (udpgw_submit true 15 1 8 evs_demo init_demo s_demo _ _ _ _ _ _ _ udpgw_run_demo He)
    as (s' & tr & sent & E & Hs & _).
  exact (ex_intro _ s' (ex_intro _ tr (ex_intro _ sent (conj E Hs)))).
Defined.

(** A reply from the DNS server. *)
Definition reply_demo : list Z := udpgw_packet 0 0 (remote_demo 13568) [9; 9; 9].

Lemma udpgw_receive_witness :
  enabled (E_recv reply_demo) s_demo = true /\ exists s' tr, deliver (E_recv reply_demo) s_demo = Ok tt s' tr /\
    packets tr = [].
Proof.
  assert (He : enabled (E_recv reply_demo) s_demo = true) by (vm_compute; reflexivity). split; [exact He|].
  destruct (udpgw_receive true 15 1 8 evs_demo init_demo s_demo _ udpgw_run_demo He) as (s' & tr & E & Hp & _).
  exact (ex_intro _ s' (ex_intro _ tr (conj E Hp))).
Defined.

Lemma udpgw_echo_witness :
  (conaddr_demo, 0) ∈ table s_demo /\ exists s' tr, deliver (E_recv reply_demo) s_demo = Ok tt s' tr /\
    received tr = [(local_demo, remote_demo 13568, [9; 9; 9])].
Proof.
  assert (Hin : (conaddr_demo, 0) ∈ table s_demo).
  { change (table s_demo) with [(conaddr_demo, 0)]. by left. }
  split; [exact Hin|].
  destruct (udpgw_echo true 15 1 8 evs_demo init_demo s_demo conaddr_demo 0 0 [9; 9; 9] udpgw_run_demo eq_refl Hin)
    as (s' & tr & l1 & l2 & E & _ & _ & Hr).
  - lia.
  - reflexivity.
  - repeat constructor; done.
  - vm_compute. congruence.
  - exact (ex_intro _ s' (ex_intro _ tr (conj E Hr))).
Defined.

(** The same client with room for a second connection. *)
Definition s_room : sys :=
  mk_sys (mk (mk_config 15 2 8 37 39 keepalive_bytes) (one_node conaddr_demo 1) (one_node 0 1) [1] 1 0 false true)
    {[1 := mk_con conaddr_demo 4 2 0 false]} [1; 2] false.

Lemma udpgw_run_room : run true 15 2 8 evs_demo = Some s_room.
Proof. vm_cast_no_check (eq_refl (Some s_room)). Qed.

Lemma find_unused_conid_terminates_witness :
  num_connections (o s_room) < max_connections (cfg (o s_room)) /\
  exists id, find_unused_conid s_room = Ok id (set_next_conid id s_room) [].
Proof.
  assert (Hn : num_connections (o s_room) < max_connections (cfg (o s_room))) by (vm_compute; reflexivity).
  split; [exact Hn|]. assert (Hi : init_ok true 15 2 8) by (vm_compute; intuition congruence).
  destruct (find_unused_conid_terminates true 15 2 8 evs_demo Hi s_room udpgw_run_room Hn) as (id & E & _).
  exact (ex_intro _ id E).
Defined.

End UdpGwClient.
