(* ===== verification/TunDevice.v ===== *)
(** * TunDevice: packets between the TUN device, lwIP and the UDP relay

    Model of the part of [badvpn/tun2socks/tun2socks.c] between the device and the
    two stacks behind it.  A packet read from the device is either a UDP datagram,
    whose payload goes to the UDP relay, or goes to lwIP; lwIP's output and the
    datagrams coming back from the relay are written to the device, the latter in
    IP and UDP headers built here.  Also the start of lwIP and its timers.

    Handlers run in the global state [t]; calls on the device, lwIP, the relay and
    the reactor are outputs, and the results of lwIP calls are arguments.  A [pbuf]
    is the list of its chunks' contents.  Logging is left out. *)

From S2P Require Import Prelude ByteOrder BSize BAddr IpProto PacketProto.
Open Scope mon_scope.

#[local] Arguments mread : simpl never.
#[local] Arguments mwrite : simpl never.
#[local] Arguments Z.add : simpl never.
#[local] Arguments Z.sub : simpl never.
#[local] Arguments Z.land : simpl never.
#[local] Arguments Z.shiftr : simpl never.
#[local] Arguments Z.mul : simpl never.

Module TunDevice.

(** Command-line options and the values computed from them. *)
Record options := mk_options {
  udpgw_remote_server_addr : bool;               (** a relay is configured *)
  netif_ip6addr : bool;                          (** IPv6 is enabled *)
  dnsgw : bool;                                  (** transparent DNS *)
}.

Record t := mk {
  device_mtu : Z;                                (** [BTap_GetMTU(&device)] *)
  device_write_buf : list Z;
  udp_mtu : Z;
  quitting : bool;
  tcp_timer_mod4 : Z;
  have_netif : bool;
  listener : bool;
  listener_ip6 : bool;
}.

Inductive out :=
  | Read_Done                                              (** [PacketPassInterface_Done] *)
  | Udpgw_SubmitPacket (local remote : BAddr) (is_dns : bool) (data : list Z)
  | BTap_Send (packet : list Z)
  | Pbuf_Alloc (len : Z) | Pbuf_Take (data : list Z) | Pbuf_Free
  | Ip_Input (p : list (list Z)) | Ip6_Input (p : list (list Z))
  | Set_Timer | Tcp_Tmr | Ip_Reass_Tmr | Nd6_Tmr | Ip6_Reass_Tmr
  | Lwip_Init | Netif_Add | Netif_Set_Up | Netif_Set_Link_Up | Netif_Set_Pretend_Tcp | Netif_Set_Default
  | Netif_Ip6_Addr_Set
  | Tcp_New (ok : bool) | Tcp_Bind_To_Netif | Tcp_Bind_Netif | Tcp_Listen | Tcp_Accept | Tcp_Close
  | Netif_Remove | Tcp_Remove | Remove_Timer | Buf_Free
  | Reactor_Quit.

Abbreviation H := (M t out).

Definition set_buf (b : list Z) (s : t) : t :=
  mk (device_mtu s) b (udp_mtu s) (quitting s) (tcp_timer_mod4 s) (have_netif s) (listener s) (listener_ip6 s).
Definition set_quitting (s : t) : t :=
  mk (device_mtu s) (device_write_buf s) (udp_mtu s) true (tcp_timer_mod4 s) (have_netif s) (listener s) (listener_ip6 s).
Definition set_mod4 (n : Z) (s : t) : t :=
  mk (device_mtu s) (device_write_buf s) (udp_mtu s) (quitting s) n (have_netif s) (listener s) (listener_ip6 s).
Definition set_lwip (n l l6 : bool) (s : t) : t :=
  mk (device_mtu s) (device_write_buf s) (udp_mtu s) (quitting s) (tcp_timer_mod4 s) n l l6.

(** The part of [main] that computes the size of UDP payloads; [None]: the device
    MTU is too large for UDP. *)
Definition compute_udp_mtu (android ip6 : bool) (mtu : Z) : option Z :=
  let udp_mtu := mtu - (sizeof_ipv4_header + sizeof_udp_header) in
  let udp_mtu :=
    if ip6 then
      let udp_ip6_mtu := mtu - (sizeof_ipv6_header + sizeof_udp_header) in
      if udp_mtu <? udp_ip6_mtu then udp_ip6_mtu else udp_mtu
    else udp_mtu in
  let udp_mtu := if udp_mtu <? 0 then 0 else udp_mtu in
  let udpgw_mtu := udpgw_compute_mtu android udp_mtu in
  if (udpgw_mtu <? 0) || (udpgw_mtu >? PACKETPROTO_MAXPAYLOAD) then None else Some udp_mtu.

Section Handlers.
Context (opts : options).

(** ** Termination *)

Definition terminate : H unit :=
  s <- get ;;
  assert (negb (quitting s)) ;;
  modify set_quitting ;;
  emit Reactor_Quit.

Definition signal_handler : H unit :=
  s <- get ;; assert (negb (quitting s)) ;; terminate.

Definition device_error_handler : H unit :=
  s <- get ;; assert (negb (quitting s)) ;; terminate.

(** ** From the device *)

(** A byte of a packet. *)
Definition byte_at (data : list Z) (off : Z) : H Z :=
  b <- get_bytes data off 1 ;; ret (nth 0 b 0).

(** A checksum loop of [IpProto]; it always ends. *)
Definition sum (c : option Z) : H Z :=
  match c with Some x => ret x | None => fail F_fuel end.

(** Fields of [DnsHeader] ([SocksUdpGwClient.h]): [qr], [rcode], [ans_count],
    [auth_count]; little-endian bit fields. *)
Definition sizeof_DnsHeader : Z := 12.
Definition dns_qr (h : list Z) : Z := Z.shiftr (nth 2 h 0) 7.
Definition dns_rcode (h : list Z) : Z := Z.land (nth 3 h 0) 15.
Definition dns_ans_count (h : list Z) : Z := le_val (mread h 6 2).
Definition dns_auth_count (h : list Z) : Z := le_val (mread h 8 2).

(** Whether a datagram to the DNS port is a query. *)
Definition is_dns_query (dest_port : Z) (data : list Z) (data_len : Z) : H bool :=
  let is_dns := dnsgw opts && (dest_port =? hton16 53) in
  if is_dns then
    if data_len <? sizeof_DnsHeader then ret false else
    header <- get_bytes data 0 sizeof_DnsHeader ;;
    ret ((dns_qr header =? 0) && (dns_rcode header =? 0) && (dns_ans_count header =? 0) &&
         (dns_auth_count header =? 0))
  else ret is_dns.

(** Case 4 of the [switch]: addresses, DNS flag and payload. *)
Definition udp_from_ipv4 (data : list Z) : H (option (BAddr * BAddr * bool * list Z * Z)) :=
  let data_len := zlen data in
  if data_len <? sizeof_ipv4_header then ret None else
  proto <- byte_at data 9 ;;
  if negb (proto =? IPV4_PROTOCOL_UDP) then ret None else
  match ipv4_check data data_len with
  | None => ret None
  | Some (iph, data, data_len) =>
      match udp_check data data_len with
      | None => ret None
      | Some (udph, data, data_len) =>
          let checksum_in_packet := udp_cksum udph in
          let udph := udp_with_checksum 0 udph in
          checksum_computed <- sum (udp_checksum udph data data_len (source_address iph) (destination_address iph)) ;;
          if negb (checksum_in_packet =? checksum_computed) then ret None else
          let local_addr := BAddr_MakeIPv4 (source_address iph) (source_port udph) in
          let remote_addr := BAddr_MakeIPv4 (destination_address iph) (dest_port udph) in
          is_dns <- is_dns_query (dest_port udph) data data_len ;;
          ret (Some (local_addr, remote_addr, is_dns, data, data_len))
      end
  end.

(** Case 6 of the [switch]. *)
Definition udp_from_ipv6 (data : list Z) : H (option (BAddr * BAddr * bool * list Z * Z)) :=
  let data_len := zlen data in
  if negb (netif_ip6addr opts) then ret None else
  if data_len <? sizeof_ipv6_header then ret None else
  next <- byte_at data 6 ;;
  if negb (next =? IPV6_NEXT_UDP) then ret None else
  match ipv6_check data data_len with
  | None => ret None
  | Some (iph, data, data_len) =>
      match udp_check data data_len with
      | None => ret None
      | Some (udph, data, data_len) =>
          let checksum_in_packet := udp_cksum udph in
          let udph := udp_with_checksum 0 udph in
          checksum_computed <- sum (udp_ip6_checksum udph data data_len (source_address6 iph) (destination_address6 iph)) ;;
          if negb (checksum_in_packet =? checksum_computed) then ret None else
          let local_addr := BAddr_MakeIPv6 (source_address6 iph) (source_port udph) in
          let remote_addr := BAddr_MakeIPv6 (destination_address6 iph) (dest_port udph) in
          ret (Some (local_addr, remote_addr, false, data, data_len))
      end
  end.

Definition process_device_udp_packet (data : list Z) : H bool :=
  let data_len := zlen data in
  assert (data_len >=? 0) ;;
  if negb (udpgw_remote_server_addr opts) then ret false else
  b <- (if data_len >? 0 then byte_at data 0 else ret 0) ;;
  let ip_version := Z.shiftr b 4 in
  r <- (if ip_version =? 4 then udp_from_ipv4 data
        else if ip_version =? 6 then udp_from_ipv6 data
        else ret None) ;;
  match r with
  | None => ret false
  | Some (local_addr, remote_addr, is_dns, data, data_len) =>
      s <- get ;;
      if data_len >? udp_mtu s then ret false else
      d <- get_bytes data 0 data_len ;;
      emit (Udpgw_SubmitPacket local_addr remote_addr is_dns d) ;;
      ret true
  end.

(** [ok]: what [ip_input] or [ip6_input] returns ([ERR_OK]). *)
Definition netif_input_func (p : list (list Z)) (ok : bool) : H bool :=
  match p with
  | [] => fail F_bounds                          (** there is no empty [pbuf] *)
  | c :: _ =>
      b <- (if zlen c >? 0 then byte_at c 0 else ret 0) ;;
      let ip_version := Z.shiftr b 4 in
      if ip_version =? 4 then emit (Ip_Input p) ;; ret ok
      else if (ip_version =? 6) && netif_ip6addr opts then emit (Ip6_Input p) ;; ret ok
      else emit Pbuf_Free ;; ret true
  end.

(** [p]: the chunks of the [pbuf] that [pbuf_alloc] gives, filled by [pbuf_take];
    [None] when it fails. *)
Definition device_read_handler_send (data : list Z) (p : option (list (list Z))) (ok : bool) : H unit :=
  let data_len := zlen data in
  s <- get ;;
  assert (negb (quitting s)) ;;
  assert (data_len >=? 0) ;;
  emit Read_Done ;;
  r <- process_device_udp_packet data ;;
  if r then ret tt else
  if data_len >? UINT16_MAX then ret tt else
  emit (Pbuf_Alloc data_len) ;;
  match p with
  | None => ret tt
  | Some p =>
      emit (Pbuf_Take data) ;;
      r <- netif_input_func p ok ;;
      if negb r then emit Pbuf_Free else ret tt
  end.

(** ** To the device *)

(** A [memcpy] into [device_write_buf]. *)
Definition write_buf (off : Z) (d : list Z) : H unit :=
  s <- get ;;
  check_block (zlen (device_write_buf s)) off (zlen d) ;;
  modify (set_buf (mwrite (device_write_buf s) off d)).

(** [BTap_Send] of the first bytes of [device_write_buf]. *)
Definition send_buf (len : Z) : H unit :=
  s <- get ;;
  check_block (zlen (device_write_buf s)) 0 len ;;
  emit (BTap_Send (mread (device_write_buf s) 0 len)).

(** The [do ... while] loop over the chunks; [None]: no space left. *)
Fixpoint copy_chunks (p : list (list Z)) (len : Z) : H (option Z) :=
  match p with
  | [] => ret (Some len)
  | c :: p' =>
      s <- get ;;
      if zlen c >? device_mtu s - len then ret None else
      write_buf len c ;;
      copy_chunks p' (len + zlen c)
  end.

Definition common_netif_output (p : list (list Z)) : H unit :=
  s <- get ;;
  if quitting s then ret tt else
  match p with
  | [] => fail F_bounds
  | [c] => if zlen c >? device_mtu s then ret tt else emit (BTap_Send c)
  | _ =>
      r <- copy_chunks p 0 ;;
      match r with
      | None => ret tt
      | Some len => send_buf len
      end
  end.

Definition netif_output_func (p : list (list Z)) : H unit := common_netif_output p.
Definition netif_output_ip6_func (p : list (list Z)) : H unit := common_netif_output p.

(** The headers of a datagram from the relay, as they are before the checksums. *)
Definition reply_ipv4_header (src dst data_len : Z) : ipv4_header :=
  mk_ipv4_header (IPV4_MAKE_VERSION_IHL sizeof_ipv4_header) (hton8 0)
    (hton16 (sizeof_ipv4_header + sizeof_udp_header + data_len)) (hton16 0) (hton16 0) (hton8 64)
    (hton8 IPV4_PROTOCOL_UDP) (hton16 0) src dst.
Definition reply_udp_header (src_port dst_port data_len : Z) : udp_header :=
  mk_udp_header src_port dst_port (hton16 (sizeof_udp_header + data_len)) (hton16 0).
Definition reply_ipv6_header (src dst : list Z) (data_len : Z) : ipv6_header :=
  mk_ipv6_header (hton8 (Z.shiftl 6 4)) (hton8 0) (hton16 0) (hton16 (sizeof_udp_header + data_len))
    (hton8 IPV6_NEXT_UDP) (hton8 64) (mread src 0 16) (mread dst 0 16).

(** [data]: the payload; [udpgw_client_handler_received]. *)
Definition udpgw_client_handler_received (local remote : BAddr) (data : list Z) : H unit :=
  let data_len := zlen data in
  assert (udpgw_remote_server_addr opts) ;;
  assert ((baddr_type local =? 1) || (baddr_type local =? 2)) ;;
  assert (baddr_type local =? baddr_type remote) ;;
  assert (data_len >=? 0) ;;
  s <- get ;;
  match local, remote with
  | BADDR_IPV4 lip lport, BADDR_IPV4 rip rport =>
      if (data_len >? UINT16_MAX - (sizeof_ipv4_header + sizeof_udp_header)) ||
         (data_len >? device_mtu s - (sizeof_ipv4_header + sizeof_udp_header)) then ret tt else
      let iph := reply_ipv4_header rip lip data_len in
      c <- sum (ipv4_checksum iph [] 0) ;;
      let iph := ipv4_with_checksum c iph in
      let udph := reply_udp_header rport lport data_len in
      c <- sum (udp_checksum udph data data_len (source_address iph) (destination_address iph)) ;;
      let udph := udp_with_checksum c udph in
      write_buf 0 (ipv4_header_bytes iph) ;;
      write_buf sizeof_ipv4_header (udp_header_bytes udph) ;;
      write_buf (sizeof_ipv4_header + sizeof_udp_header) data ;;
      send_buf (sizeof_ipv4_header + sizeof_udp_header + data_len)
  | BADDR_IPV6 lip lport, BADDR_IPV6 rip rport =>
      if negb (netif_ip6addr opts) then ret tt else
      if (data_len >? UINT16_MAX - sizeof_udp_header) ||
         (data_len >? device_mtu s - (sizeof_ipv6_header + sizeof_udp_header)) then ret tt else
      let iph := reply_ipv6_header rip lip data_len in
      let udph := reply_udp_header rport lport data_len in
      c <- sum (udp_ip6_checksum udph data data_len (source_address6 iph) (destination_address6 iph)) ;;
      let udph := udp_with_checksum c udph in
      write_buf 0 (ipv6_header_bytes iph) ;;
      write_buf sizeof_ipv6_header (udp_header_bytes udph) ;;
      write_buf (sizeof_ipv6_header + sizeof_udp_header) data ;;
      send_buf (sizeof_ipv6_header + sizeof_udp_header + data_len)
  | _, _ => send_buf 0                           (** no case of the [switch] *)
  end.

(** ** lwIP *)

Definition tcp_timer_handler : H unit :=
  s <- get ;;
  assert (negb (quitting s)) ;;
  emit Set_Timer ;;
  emit Tcp_Tmr ;;
  modify (set_mod4 ((tcp_timer_mod4 s + 1) mod 4)) ;;
  s <- get ;;
  if tcp_timer_mod4 s =? 0 then emit Ip_Reass_Tmr ;; emit Nd6_Tmr ;; emit Ip6_Reass_Tmr else ret tt.

(** Results of the lwIP calls that make a listener. *)
Record listen_results := mk_listen_results { new_ok : bool; bind_ok : bool; listen_ok : bool }.

(** The statements that make a listener, which occur for IPv4 and for IPv6; the
    result is whether there is a listener, otherwise [goto fail]. *)
Definition init_listener (r : listen_results) : H bool :=
  emit (Tcp_New (new_ok r)) ;;
  if negb (new_ok r) then ret false else
  emit Tcp_Bind_To_Netif ;;
  if negb (bind_ok r) then emit Tcp_Close ;; ret false else
  emit Tcp_Bind_Netif ;;
  emit Tcp_Listen ;;
  if negb (listen_ok r) then emit Tcp_Close ;; ret false else
  emit Tcp_Accept ;;
  ret true.

(** Label [fail]. *)
Definition lwip_init_fail : H unit :=
  s <- get ;; if negb (quitting s) then terminate else ret tt.

Definition lwip_init_job_hadler (netif_type : Z) (netif_ok : bool) (r r6 : listen_results) : H unit :=
  s <- get ;;
  assert (negb (quitting s)) ;;
  assert (netif_type =? 1) ;;
  assert (negb (have_netif s)) ;;
  assert (negb (listener s)) ;;
  assert (negb (listener_ip6 s)) ;;
  emit Lwip_Init ;;
  emit Netif_Add ;;
  if negb netif_ok then lwip_init_fail else
  modify (set_lwip true false false) ;;
  emit Netif_Set_Up ;;
  emit Netif_Set_Link_Up ;;
  emit Netif_Set_Pretend_Tcp ;;
  emit Netif_Set_Default ;;
  (if netif_ip6addr opts then emit Netif_Ip6_Addr_Set else ret tt) ;;
  l <- init_listener r ;;
  if negb l then lwip_init_fail else
  modify (set_lwip true true false) ;;
  if netif_ip6addr opts then
    l <- init_listener r6 ;;
    if negb l then lwip_init_fail else
    modify (set_lwip true true true)
  else ret tt.

(** The end of [main] after the event loop, the clients having been murdered. *)
Definition main_free : H unit :=
  s <- get ;;
  (if listener_ip6 s then emit Tcp_Close else ret tt) ;;
  (if listener s then emit Tcp_Close else ret tt) ;;
  (if have_netif s then emit Netif_Remove else ret tt) ;;
  emit Tcp_Remove ;; emit Tcp_Remove ;; emit Tcp_Remove ;;
  emit Remove_Timer ;;
  emit Buf_Free.

End Handlers.

(** ** Specification

    The UDP datagrams in IPv4 and IPv6 packets: source and destination address and
    payload. *)

Definition udp4_datagram (data : list Z) (local remote : BAddr) (payload : list Z) : Prop :=
  exists h ip_opts u rest,
    data = ipv4_header_bytes h ++ ip_opts ++ udp_header_bytes u ++ payload ++ rest /\
    ipv4_packet h ip_opts (udp_header_bytes u ++ payload ++ rest) /\ protocol h = 17 /\
    udp_header_ok u /\ ntoh16 (udp_len u) = 8 + zlen payload /\
    20 + zlen ip_opts + 8 + zlen payload <= ntoh16 (total_length h) /\
    udp_cksum u = udp_cksum4 (source_address h) (destination_address h) (udp_with_checksum 0 u) payload /\
    local = BADDR_IPV4 (source_address h) (source_port u) /\
    remote = BADDR_IPV4 (destination_address h) (dest_port u).

Definition udp6_datagram (data : list Z) (local remote : BAddr) (payload : list Z) : Prop :=
  exists h u rest,
    data = ipv6_header_bytes h ++ udp_header_bytes u ++ payload ++ rest /\
    ipv6_header_ok h /\ Z.shiftr (version4_tc4 h) 4 = 6 /\ next_header h = 17 /\
    udp_header_ok u /\ ntoh16 (udp_len u) = 8 + zlen payload /\
    8 + zlen payload <= ntoh16 (payload_length h) <= 8 + zlen payload + zlen rest /\
    udp_cksum u = udp_cksum6 (source_address6 h) (destination_address6 h) (udp_with_checksum 0 u) payload /\
    local = BADDR_IPV6 (source_address6 h) (source_port u) /\
    remote = BADDR_IPV6 (destination_address6 h) (dest_port u).

Definition udp_datagram (ip6 : bool) (data : list Z) (local remote : BAddr) (payload : list Z) : Prop :=
  udp4_datagram data local remote payload \/ (ip6 = true /\ udp6_datagram data local remote payload).

(** A DNS query to the intercepted port: query bit, no error code, no answers. *)
Definition dns_query (on : bool) (remote : BAddr) (payload : list Z) : bool :=
  on && match remote with BADDR_IPV4 _ port => port =? hton16 53 | _ => false end &&
  (12 <=? zlen payload) && (dns_qr payload =? 0) && (dns_rcode payload =? 0) &&
  (dns_ans_count payload =? 0) && (dns_auth_count payload =? 0).

(** ** Reading a datagram *)

Lemma byte_fld data off : 0 <= off -> off + 1 <= zlen data -> nth 0 (mread data off 1) 0 = fld data off 1.
Proof.
  intros. unfold fld. pose proof (zlen_mread data off 1 ltac:(lia) ltac:(lia) ltac:(lia)) as Hl.
  destruct (mread data off 1) as [|x [|y l]]; [done | cbn; lia |]. rewrite !zlen_cons in Hl. pose proof (zlen_nonneg l). lia.
Qed.

(** The same, by the checks of the code. *)
Lemma udp4_datagram_iff data local remote payload :
  bytes_ok data ->
  (udp4_datagram data local remote payload <->
   20 <= zlen data /\ fld data 9 1 = 17 /\ exists h r1 n1 u r2 n2,
     ipv4_check data (zlen data) = Some (h, r1, n1) /\ udp_check r1 n1 = Some (u, r2, n2) /\
     0 <= n1 <= zlen r1 /\ 0 <= n2 <= zlen r2 /\ bytes_ok r2 /\ n2 <= 65527 /\ payload = mread r2 0 n2 /\
     udp_cksum u = udp_cksum4 (source_address h) (destination_address h) (udp_with_checksum 0 u) payload /\
     local = BADDR_IPV4 (source_address h) (source_port u) /\
     remote = BADDR_IPV4 (destination_address h) (dest_port u)).
Proof.
  intros Hd. split.
  - intros (h & opts & u & rest & -> & Hp & Hpr & Hu & Hul & Ht & Hc & -> & ->).
    pose proof (zlen_nonneg opts). pose proof (zlen_nonneg payload). pose proof (zlen_nonneg rest).
    pose proof (ntoh16_range (udp_len u)). pose proof Hp as (Hok & _ & _ & Htl & _).
    split; [rewrite zlen_app, zlen_ipv4_header_bytes, !zlen_app; pose proof (zlen_nonneg (udp_header_bytes u)); lia|].
    assert (Hb : bytes_ok (udp_header_bytes u ++ payload ++ rest)) by (by do 2 apply Forall_app in Hd as [_ Hd]).
    split; [by rewrite <- (ipv4_header_read_bytes h (opts ++ udp_header_bytes u ++ payload ++ rest) Hok) in Hpr|].
    exists h, (udp_header_bytes u ++ payload ++ rest), (ntoh16 (total_length h) - (20 + zlen opts)), u, (payload ++ rest), (zlen payload).
    split; [apply ipv4_check_iff; [done|]; by exists opts|].
    split; [apply udp_check_iff; [done | lia |]; split_and!; try done; lia|].
    rewrite !zlen_app in Htl. split_and!; try done; rewrite ?zlen_app; try lia.
    + by apply Forall_app in Hb as [_ Hb].
    + symmetry. by apply mread_app_front.
  - intros (_ & Hf & h & r1 & n1 & u & r2 & n2 & H1 & H2 & Hn1 & Hn2 & Hb & Hn & -> & Hc & -> & ->).
    apply ipv4_check_iff in H1 as (opts & -> & Hp & ->); [|done].
    assert (Hb1 : bytes_ok r1) by (by do 2 apply Forall_app in Hd as [_ Hd]).
    apply udp_check_iff in H2 as (-> & Hu & Hul & _ & Hle); [|done|done].
    exists h, opts, u, (drop (Z.to_nat n2) r2).
    assert (E : mread r2 0 n2 ++ drop (Z.to_nat n2) r2 = r2) by apply take_drop.
    assert (Hz : zlen (mread r2 0 n2) = n2) by (rewrite zlen_mread; lia). rewrite E, Hz.
    split_and!; try done; [|lia]. destruct Hp as (Hok & _). rewrite <- Hf.
    by rewrite <- (ipv4_header_read_bytes h (opts ++ udp_header_bytes u ++ r2) Hok) at 1.
Qed.

Lemma udp6_datagram_iff data local remote payload :
  bytes_ok data ->
  (udp6_datagram data local remote payload <->
   40 <= zlen data /\ fld data 6 1 = 17 /\ exists h r1 n1 u r2 n2,
     ipv6_check data (zlen data) = Some (h, r1, n1) /\ ipv6_header_ok h /\
     udp_check r1 n1 = Some (u, r2, n2) /\
     0 <= n1 <= zlen r1 /\ 0 <= n2 <= zlen r2 /\ bytes_ok r2 /\ n2 <= 65527 /\ payload = mread r2 0 n2 /\
     udp_cksum u = udp_cksum6 (source_address6 h) (destination_address6 h) (udp_with_checksum 0 u) payload /\
     local = BADDR_IPV6 (source_address6 h) (source_port u) /\
     remote = BADDR_IPV6 (destination_address6 h) (dest_port u)).
Proof.
  intros Hd. split.
  - intros (h & u & rest & -> & Hok & Hv & Hpr & Hu & Hul & Ht & Hc & -> & ->).
    pose proof (zlen_nonneg payload). pose proof (zlen_nonneg rest). pose proof (zlen_udp_header_bytes u).
    pose proof (ntoh16_range (udp_len u)). pose proof (zlen_ipv6_header_bytes h Hok) as Hz.
    split; [rewrite zlen_app, Hz, !zlen_app; lia|].
    assert (Hb : bytes_ok (udp_header_bytes u ++ payload ++ rest)) by (by apply Forall_app in Hd as [_ Hd]).
    split; [by rewrite <- (ipv6_header_read_bytes h (udp_header_bytes u ++ payload ++ rest) Hok) in Hpr|].
    exists h, (udp_header_bytes u ++ payload ++ rest), (ntoh16 (payload_length h)), u, (payload ++ rest), (zlen payload).
    split; [apply ipv6_check_iff; [done|]; split_and!; try done; rewrite !zlen_app; lia|].
    split; [done|].
    split; [apply udp_check_iff; [done | rewrite !zlen_app; lia |]; split_and!; try done; lia|].
    split_and!; try done; rewrite ?zlen_app; try lia.
    + by apply Forall_app in Hb as [_ Hb].
    + symmetry. by apply mread_app_front.
  - intros (_ & Hf & h & r1 & n1 & u & r2 & n2 & H1 & _ & H2 & Hn1 & Hn2 & Hb & Hn & -> & Hc & -> & ->).
    apply ipv6_check_iff in H1 as (-> & Hok & Hv & -> & Hle1); [|done].
    assert (Hb1 : bytes_ok r1) by (by apply Forall_app in Hd as [_ Hd]).
    apply udp_check_iff in H2 as (-> & Hu & Hul & _ & Hle); [|done|done].
    exists h, u, (drop (Z.to_nat n2) r2). rewrite zlen_app, zlen_udp_header_bytes in Hle1.
    assert (E : mread r2 0 n2 ++ drop (Z.to_nat n2) r2 = r2) by apply take_drop.
    assert (Hz : zlen (mread r2 0 n2) = n2) by (rewrite zlen_mread; lia).
    assert (Hz2 : zlen (drop (Z.to_nat n2) r2) = zlen r2 - n2) by (unfold zlen in *; rewrite length_drop; lia).
    rewrite E, Hz, Hz2. split_and!; try done; try lia. rewrite <- Hf.
    by rewrite <- (ipv6_header_read_bytes h (udp_header_bytes u ++ r2) Hok) at 1.
Qed.

(** Executing a handler that only reads. *)
Lemma wp_byte_at data off (s : t) (Q : Z -> t -> list out -> Prop) :
  0 <= off -> off + 1 <= zlen data -> Q (fld data off 1) s [] -> wp (byte_at data off) s Q.
Proof.
  intros H1 H2 HQ. unfold byte_at. wp_step. apply wp_get_bytes; [lia|]. wp_step. by rewrite byte_fld.
Qed.

Lemma udp4_datagram_det data l rm d l' rm' d' :
  bytes_ok data -> udp4_datagram data l rm d -> udp4_datagram data l' rm' d' -> l' = l /\ rm' = rm /\ d' = d.
Proof.
  intros Hd (_ & _ & h & r1 & n1 & u & r2 & n2 & E1 & E2 & _ & _ & _ & _ & -> & _ & -> & ->)%udp4_datagram_iff
    (_ & _ & h' & r1' & n1' & u' & r2' & n2' & E1' & E2' & _ & _ & _ & _ & -> & _ & -> & ->)%udp4_datagram_iff; [|done|done].
  by simplify_eq.
Qed.

Lemma udp6_datagram_det data l rm d l' rm' d' :
  bytes_ok data -> udp6_datagram data l rm d -> udp6_datagram data l' rm' d' -> l' = l /\ rm' = rm /\ d' = d.
Proof.
  intros Hd (_ & _ & h & r1 & n1 & u & r2 & n2 & E1 & _ & E2 & _ & _ & _ & _ & -> & _ & -> & ->)%udp6_datagram_iff
    (_ & _ & h' & r1' & n1' & u' & r2' & n2' & E1' & _ & E2' & _ & _ & _ & _ & -> & _ & -> & ->)%udp6_datagram_iff; [|done|done].
  by simplify_eq.
Qed.

(** The version nibble tells the two kinds apart. *)
Lemma udp4_version data l rm d :
  bytes_ok data -> udp4_datagram data l rm d -> 0 < zlen data /\ Z.shiftr (fld data 0 1) 4 = 4.
Proof.
  intros Hd (? & _ & h & r1 & n1 & u & r2 & n2 & E1 & _)%udp4_datagram_iff; [|done].
  apply ipv4_check_iff in E1 as (opts & E & (Hok & Hv & _) & _); [|done]. split; [lia|].
  assert (Hh : version4_ihl4 h = fld data 0 1).
  { rewrite <- (ipv4_header_read_bytes h (opts ++ r1) Hok). by rewrite <- E. }
  rewrite <- Hh. transitivity (IPV4_GET_VERSION h); [|exact Hv]. unfold IPV4_GET_VERSION.
  destruct Hok as (Hb & _). rewrite Z.shiftr_land.
  change (Z.shiftr 240 4) with (Z.ones 4). rewrite Z.land_ones, Z.shiftr_div_pow2 by lia.
  change (2 ^ 4) with 16. dlia.
Qed.

Lemma udp6_version data l rm d :
  bytes_ok data -> udp6_datagram data l rm d -> 0 < zlen data /\ Z.shiftr (fld data 0 1) 4 = 6.
Proof.
  intros Hd (? & _ & h & r1 & n1 & u & r2 & n2 & E1 & _)%udp6_datagram_iff; [|done].
  apply ipv6_check_iff in E1 as (E & Hok & Hv & _); [|done]. split; [lia|].
  rewrite <- Hv. f_equal. rewrite <- (ipv6_header_read_bytes h r1 Hok). by rewrite <- E.
Qed.

Section Reading.
Context (opts : options).

Lemma is_dns_query_wp s port ip data n (Q : bool -> t -> list out -> Prop) :
  0 <= n <= zlen data -> Q (dns_query (dnsgw opts) (BADDR_IPV4 ip port) (mread data 0 n)) s [] ->
  wp (is_dns_query opts port data n) s Q.
Proof.
  intros Hn. unfold is_dns_query, dns_query, sizeof_DnsHeader. destruct (dnsgw opts && (port =? hton16 53)); cbn [andb].
  - assert (Hz : zlen (mread data 0 n) = n) by (rewrite zlen_mread; lia). rewrite Hz.
    destruct (Z.ltb_spec n 12), (Z.leb_spec 12 n); try lia; cbn [andb]; intros HQ; [by wp_step|].
    wp_step. apply wp_get_bytes; [lia|]. wp_step.
    assert (Hnth : forall i, (i < 12)%nat -> nth i (mread data 0 12) 0 = nth i (mread data 0 n) 0).
    { intros i Hi. replace (mread data 0 12) with (mread (mread data 0 n) 0 12) by (by rewrite mread_mread by lia).
      rewrite (mread_take _ 12).
      rewrite <- (take_drop (Z.to_nat 12) (mread data 0 n)) at 2.
      rewrite app_nth1; [done|]. rewrite length_take. unfold zlen in Hz. lia. }
    unfold dns_qr, dns_rcode, dns_ans_count, dns_auth_count in *. rewrite !Hnth by lia.
    by rewrite !mread_mread in * by lia.
  - intros HQ. by wp_step.
Qed.

Lemma udp_from_ipv4_wp s data :
  bytes_ok data ->
  wp (udp_from_ipv4 opts data) s (fun r s' tr => s' = s /\ tr = [] /\
    match r with
    | Some (l, rm, dns, d, n) => 0 <= n <= zlen d /\ udp4_datagram data l rm (mread d 0 n) /\
        dns = dns_query (dnsgw opts) rm (mread d 0 n)
    | None => forall l rm d, ~ udp4_datagram data l rm d
    end).
Proof.
  intros Hd. pose proof (zlen_nonneg data). unfold udp_from_ipv4, sizeof_ipv4_header.
  destruct (Z.ltb_spec (zlen data) 20).
  { wp_step. split_and!; [done..|]. intros l rm d (? & _)%udp4_datagram_iff; [lia | done]. }
  wp_step. apply wp_byte_at; [lia | lia |]. unfold IPV4_PROTOCOL_UDP.
  destruct (Z.eqb_spec (fld data 9 1) 17) as [Hpr|Hpr]; cbn [negb];
    [|wp_step; split_and!; [done..|]; intros l rm d (_ & ? & _)%udp4_datagram_iff; done].
  destruct (ipv4_check data (zlen data)) as [[[h r1] n1]|] eqn:E1;
    [|wp_step; split_and!; [done..|]; intros l rm d (_ & _ & ? & ? & ? & ? & ? & ? & ? & _)%udp4_datagram_iff; congruence].
  destruct (udp_check r1 n1) as [[[u r2] n2]|] eqn:E2; cycle 1.
  { wp_step. split_and!; [done..|]. intros l rm d (_ & _ & ? & ? & ? & ? & ? & ? & ? & ? & _)%udp4_datagram_iff; congruence. }
  assert (Hn1 : bytes_ok r1 /\ 0 <= n1 <= zlen r1).
  { apply ipv4_check_iff in E1 as (o & -> & (_ & _ & _ & ? & _) & ->); [|done]. split; [by do 2 apply Forall_app in Hd as [_ Hd] | lia]. }
  destruct Hn1 as [Hb1 Hn1].
  assert (Hn2 : bytes_ok r2 /\ 0 <= n2 <= zlen r2 /\ n2 <= 65527).
  { pose proof (proj1 (udp_check_iff _ _ _ _ _ Hb1 Hn1) E2) as (-> & _ & Hl & ? & ?).
    pose proof (ntoh16_range (udp_len u)). rewrite zlen_app, zlen_udp_header_bytes in Hn1.
    split_and!; [by apply Forall_app in Hb1 as [_ Hb1] | lia..]. }
  destruct Hn2 as (Hb2 & Hn2 & Hn3). rewrite udp_checksum_prefix by done. wp_step. cbn [sum]. wp_step.
  destruct (Z.eqb_spec (udp_cksum u) (udp_cksum4 (source_address h) (destination_address h) (udp_with_checksum 0 u) (mread r2 0 n2)))
    as [Hc|Hc]; cbn [negb].
  - wp_step. apply (is_dns_query_wp _ _ (destination_address h)); [done|]. wp_step.
    split_and!; try done; try lia. apply udp4_datagram_iff; [done|]. split_and!; try done.
    by exists h, r1, n1, u, r2, n2.
  - wp_step. split_and!; [done..|]. intros l rm d (_ & _ & h' & r1' & n1' & u' & r2' & n2' & E1' & E2' & _ & _ & _ & _ & -> & Hc' & _)%udp4_datagram_iff; [|done].
    simplify_eq.
Qed.

Lemma udp_from_ipv6_wp s data :
  bytes_ok data ->
  wp (udp_from_ipv6 opts data) s (fun r s' tr => s' = s /\ tr = [] /\
    match r with
    | Some (l, rm, dns, d, n) => 0 <= n <= zlen d /\ netif_ip6addr opts = true /\
        udp6_datagram data l rm (mread d 0 n) /\ dns = dns_query (dnsgw opts) rm (mread d 0 n)
    | None => netif_ip6addr opts = true -> forall l rm d, ~ udp6_datagram data l rm d
    end).
Proof.
  intros Hd. pose proof (zlen_nonneg data). unfold udp_from_ipv6, sizeof_ipv6_header.
  destruct (netif_ip6addr opts); cbn [negb]; [|by wp_step].
  destruct (Z.ltb_spec (zlen data) 40).
  { wp_step. split_and!; [done..|]. intros _ l rm d (? & _)%udp6_datagram_iff; [lia | done]. }
  wp_step. apply wp_byte_at; [lia | lia |]. unfold IPV6_NEXT_UDP.
  destruct (Z.eqb_spec (fld data 6 1) 17) as [Hpr|Hpr]; cbn [negb];
    [|wp_step; split_and!; [done..|]; intros _ l rm d (_ & ? & _)%udp6_datagram_iff; done].
  destruct (ipv6_check data (zlen data)) as [[[h r1] n1]|] eqn:E1;
    [|wp_step; split_and!; [done..|]; intros _ l rm d (_ & _ & ? & ? & ? & ? & ? & ? & ? & _)%udp6_datagram_iff; congruence].
  destruct (udp_check r1 n1) as [[[u r2] n2]|] eqn:E2; cycle 1.
  { wp_step. split_and!; [done..|]. intros _ l rm d (_ & _ & ? & ? & ? & ? & ? & ? & ? & ? & ? & _)%udp6_datagram_iff; congruence. }
  assert (Hn1 : bytes_ok r1 /\ 0 <= n1 <= zlen r1 /\ ipv6_header_ok h).
  { apply ipv6_check_iff in E1 as (-> & ? & _ & -> & ?); [|done]. pose proof (ntoh16_range (payload_length h)).
    split_and!; [by apply Forall_app in Hd as [_ Hd] | lia | lia | done]. }
  destruct Hn1 as (Hb1 & Hn1 & Hok).
  assert (Hn2 : bytes_ok r2 /\ 0 <= n2 <= zlen r2 /\ n2 <= 65527).
  { pose proof (proj1 (udp_check_iff _ _ _ _ _ Hb1 Hn1) E2) as (-> & _ & Hl & ? & ?).
    pose proof (ntoh16_range (udp_len u)). rewrite zlen_app, zlen_udp_header_bytes in Hn1.
    split_and!; [by apply Forall_app in Hb1 as [_ Hb1] | lia..]. }
  destruct Hn2 as (Hb2 & Hn2 & Hn3). pose proof Hok as (_ & _ & _ & _ & _ & _ & Hs & Hsl & Hdd & Hdl).
  rewrite udp_ip6_checksum_prefix by done. wp_step. cbn [sum]. wp_step.
  destruct (Z.eqb_spec (udp_cksum u) (udp_cksum6 (source_address6 h) (destination_address6 h) (udp_with_checksum 0 u) (mread r2 0 n2)))
    as [Hc|Hc]; cbn [negb].
  - wp_step. unfold BAddr_MakeIPv6. rewrite !take_ge by (unfold zlen in *; lia).
    split_and!; try done; try lia.
    + apply udp6_datagram_iff; [done|]. split_and!; try done. by exists h, r1, n1, u, r2, n2.
    + unfold dns_query. by rewrite andb_false_r.
  - wp_step. split_and!; [done..|]. intros _ l rm d (_ & _ & h' & r1' & n1' & u' & r2' & n2' & E1' & _ & E2' & _ & _ & _ & _ & -> & Hc' & _)%udp6_datagram_iff; [|done].
    simplify_eq.
Qed.

Definition process_post (data : list Z) (mtu : Z) (r : bool) (tr : list out) : Prop :=
  (r = true /\ exists l rm d, udpgw_remote_server_addr opts = true /\
     udp_datagram (netif_ip6addr opts) data l rm d /\ zlen d <= mtu /\
     tr = [Udpgw_SubmitPacket l rm (dns_query (dnsgw opts) rm d) d]) \/
  (r = false /\ tr = [] /\ (udpgw_remote_server_addr opts = true -> forall l rm d,
     udp_datagram (netif_ip6addr opts) data l rm d -> mtu < zlen d)).

(** The end of [process_device_udp_packet], with what was read. *)
Lemma submit_or_fail_wp s data l rm d n dns :
  0 <= n <= zlen d -> udpgw_remote_server_addr opts = true ->
  udp_datagram (netif_ip6addr opts) data l rm (mread d 0 n) ->
  (forall l' rm' d', udp_datagram (netif_ip6addr opts) data l' rm' d' -> l' = l /\ rm' = rm /\ d' = mread d 0 n) ->
  dns = dns_query (dnsgw opts) rm (mread d 0 n) ->
  wp (s0 <- get ;;
      if n >? udp_mtu s0 then ret false else
      d <- get_bytes d 0 n ;;
      emit (Udpgw_SubmitPacket l rm dns d) ;;
      ret true) s (fun r s' tr => s' = s /\ process_post data (udp_mtu s) r tr).
Proof.
  intros Hn Hg Hdg Hdet ->. assert (Hz : zlen (mread d 0 n) = n) by (rewrite zlen_mread; lia).
  do 2 wp_step. destruct (Z.gtb_spec n (udp_mtu s)).
  - wp_step. split; [done|]. right. split_and!; try done. intros _ l' rm' d' (_ & _ & ->)%Hdet. lia.
  - wp_step. apply wp_get_bytes; [lia|]. wp_run. split; [done|]. left. split; [done|].
    exists l, rm, (mread d 0 n). split_and!; try done. lia.
Qed.

Lemma process_wp s data :
  bytes_ok data -> wp (process_device_udp_packet opts data) s (fun r s' tr => s' = s /\ process_post data (udp_mtu s) r tr).
Proof.
  intros Hd. pose proof (zlen_nonneg data). unfold process_device_udp_packet. wp_step. wp_step; [lia|].
  destruct (udpgw_remote_server_addr opts) eqn:Hg; cbn [negb]; [|wp_step; split; [done | right; by rewrite Hg]].
  wp_step. apply (wp_mono _ _ (fun b s' tr => s' = s /\ tr = [] /\ b = if zlen data >? 0 then fld data 0 1 else 0)).
  { destruct (Z.gtb_spec (zlen data) 0); [apply wp_byte_at; try lia; done | by wp_step]. }
  intros b s' tr (-> & -> & ->).
  assert (H4 : forall l rm d, udp4_datagram data l rm d -> Z.shiftr (if zlen data >? 0 then fld data 0 1 else 0) 4 = 4).
  { intros l rm d [? Hv]%udp4_version; [|done]. by replace (zlen data >? 0) with true by lia. }
  assert (H6 : forall l rm d, udp6_datagram data l rm d -> Z.shiftr (if zlen data >? 0 then fld data 0 1 else 0) 4 = 6).
  { intros l rm d [? Hv]%udp6_version; [|done]. by replace (zlen data >? 0) with true by lia. }
  set (b := if zlen data >? 0 then fld data 0 1 else 0) in *. clearbody b. wp_step.
  destruct (Z.eqb_spec (Z.shiftr b 4) 4) as [E4|E4]; [|destruct (Z.eqb_spec (Z.shiftr b 4) 6) as [E6|E6]].
  - eapply wp_mono; [by apply udp_from_ipv4_wp|]. intros [[[[[l rm] dns] d] n]|] s' tr (-> & -> & HR).
    + destruct HR as (Hn & Hdg & ->). apply (submit_or_fail_wp s data); try done; [by left|].
      intros l' rm' d' [Hdg'|[_ Hdg']]; [by apply (udp4_datagram_det data) | apply H6 in Hdg'; lia].
    + wp_step. split; [done|]. right. split_and!; try done.
      intros _ l rm d [Hdg|[_ Hdg]]; [by destruct (HR l rm d) | apply H6 in Hdg; lia].
  - eapply wp_mono; [by apply udp_from_ipv6_wp|]. intros [[[[[l rm] dns] d] n]|] s' tr (-> & -> & HR).
    + destruct HR as (Hn & Hi & Hdg & ->). apply (submit_or_fail_wp s data); try done; [by right|].
      intros l' rm' d' [Hdg'|[_ Hdg']]; [apply H4 in Hdg'; lia | by apply (udp6_datagram_det data)].
    + wp_step. split; [done|]. right. split_and!; try done.
      intros _ l rm d [Hdg|[Hi Hdg]]; [apply H4 in Hdg; lia | by destruct (HR Hi l rm d)].
  - do 2 wp_step. split; [done|]. right. split_and!; try done.
    intros _ l rm d [Hdg|[_ Hdg]]; [apply H4 in Hdg | apply H6 in Hdg]; done.
Qed.

(** ** Writing a datagram *)

Definition buf_ok (s : t) : Prop := zlen (device_write_buf s) = device_mtu s.

Lemma wp_write_buf s off d pre (Q : unit -> t -> list out -> Prop) :
  0 <= off -> off + zlen d <= zlen (device_write_buf s) -> mread (device_write_buf s) 0 off = pre ->
  (forall b, zlen b = zlen (device_write_buf s) -> mread b 0 (off + zlen d) = pre ++ d -> Q tt (set_buf b s) []) ->
  wp (write_buf off d) s Q.
Proof.
  intros Ho Hl Hp HQ. pose proof (zlen_nonneg d). unfold write_buf. do 2 wp_step. wp_step. wp_step; [lia|]. wp_step.
  apply HQ; [rewrite zlen_mwrite; lia | by apply mread_mwrite_extend].
Qed.

(** Two headers and a payload copied to the start of the buffer and sent. *)
Lemma write_packet_wp s hdr udph data n1 n2 :
  zlen hdr = n1 -> zlen udph = n2 -> n1 + n2 + zlen data <= zlen (device_write_buf s) ->
  wp (write_buf 0 hdr ;; write_buf n1 udph ;; write_buf (n1 + n2) data ;; send_buf (n1 + n2 + zlen data)) s
    (fun _ s' tr => exists b, s' = set_buf b s /\ zlen b = zlen (device_write_buf s) /\
       tr = [BTap_Send (hdr ++ udph ++ data)]).
Proof.
  intros H1 H2 Hl. pose proof (zlen_nonneg hdr). pose proof (zlen_nonneg udph). pose proof (zlen_nonneg data).
  wp_step. apply (wp_write_buf _ _ _ []); [lia | lia | done |]. intros b1 Hb1 E1. rewrite H1 in E1.
  wp_step. apply (wp_write_buf _ _ _ hdr); cbn [device_write_buf set_buf]; [lia | lia | done |].
  intros b2 Hb2 E2. rewrite H2 in E2. cbn [device_write_buf set_buf] in Hb2.
  wp_step. apply (wp_write_buf _ _ _ (hdr ++ udph)); cbn [device_write_buf set_buf]; [lia | lia | done |].
  intros b3 Hb3 E3. cbn [device_write_buf set_buf] in Hb3.
  unfold send_buf. do 2 wp_step. wp_step. wp_step; [cbn; lia|]. wp_step. exists b3. split_and!; [done | lia |].
  cbn [app device_write_buf set_buf]. by rewrite E3, <- app_assoc.
Qed.

Lemma ntoh16_hton16_id x : 0 <= x < 65536 -> ntoh16 (hton16 x) = x.
Proof. apply ntoh16_hton16. Qed.

Lemma reply4_datagram lip lport rip rport data c cu
    (h := ipv4_with_checksum c (reply_ipv4_header rip lip (zlen data)))
    (u := udp_with_checksum cu (reply_udp_header rport lport (zlen data))) :
  baddr_ok (BADDR_IPV4 lip lport) -> baddr_ok (BADDR_IPV4 rip rport) -> zlen data <= 65507 ->
  c = ipv4_cksum h [] -> cu = udp_cksum4 rip lip (udp_with_checksum 0 u) data ->
  udp4_datagram (ipv4_header_bytes h ++ udp_header_bytes u ++ data) (BADDR_IPV4 rip rport) (BADDR_IPV4 lip lport) data.
Proof.
  intros [Hl1 Hl2] [Hr1 Hr2] Hn Hc Hcu. pose proof (zlen_nonneg data).
  assert (0 <= c < 65536) by (rewrite Hc; apply hton16_range).
  assert (0 <= cu < 65536) by (rewrite Hcu; apply hton16_range).
  exists h, [], u, []. rewrite app_nil_r, app_nil_l.
  assert (Htl : ntoh16 (total_length h) = 28 + zlen data) by (apply (ntoh16_hton16_id (20 + 8 + zlen data)); lia).
  assert (Hul : ntoh16 (udp_len u) = 8 + zlen data) by (apply (ntoh16_hton16_id (8 + zlen data)); lia).
  split_and!; try done.
  - split_and!; try done.
    + unfold h. unfold ipv4_header_ok, ipv4_with_checksum, reply_ipv4_header. hdr_cbn.
      split_and!; first [lia | apply hton16_range | vm_compute; congruence].
    + rewrite Htl, zlen_nil. lia.
    + rewrite Htl, !zlen_app, zlen_udp_header_bytes, zlen_nil. lia.
  - unfold u, udp_header_ok, udp_with_checksum, reply_udp_header. hdr_cbn.
    split_and!; first [lia | apply hton16_range].
  - rewrite Htl, zlen_nil. lia.
Qed.

Lemma reply6_datagram lip lport rip rport data cu
    (h := reply_ipv6_header rip lip (zlen data))
    (u := udp_with_checksum cu (reply_udp_header rport lport (zlen data))) :
  baddr_ok (BADDR_IPV6 lip lport) -> baddr_ok (BADDR_IPV6 rip rport) -> zlen data <= 65527 ->
  cu = udp_cksum6 rip lip (udp_with_checksum 0 u) data ->
  udp6_datagram (ipv6_header_bytes h ++ udp_header_bytes u ++ data) (BADDR_IPV6 rip rport) (BADDR_IPV6 lip lport) data.
Proof.
  intros (Hl1 & Hl2 & Hl3) (Hr1 & Hr2 & Hr3) Hn Hcu. pose proof (zlen_nonneg data).
  assert (E1 : mread rip 0 16 = rip) by (rewrite <- Hr2; apply mread_all).
  assert (E2 : mread lip 0 16 = lip) by (rewrite <- Hl2; apply mread_all).
  assert (0 <= cu < 65536) by (rewrite Hcu; apply hton16_range).
  exists h, u, []. rewrite app_nil_r.
  assert (Htl : ntoh16 (payload_length h) = 8 + zlen data) by (apply (ntoh16_hton16_id (8 + zlen data)); lia).
  assert (Hul : ntoh16 (udp_len u) = 8 + zlen data) by (apply (ntoh16_hton16_id (8 + zlen data)); lia).
  unfold h, reply_ipv6_header in *. rewrite E1, E2 in *. hdr_cbn.
  split_and!; try done; try lia.
  - unfold ipv6_header_ok. hdr_cbn. split_and!; first [assumption | apply hton16_range | vm_compute; congruence].
  - unfold u, udp_header_ok, udp_with_checksum, reply_udp_header. hdr_cbn.
    split_and!; first [lia | apply hton16_range].
  - rewrite Htl, zlen_nil. lia.
Qed.

Definition received_post (local remote : BAddr) (data : list Z) (s s' : t) (tr : list out) : Prop :=
  exists b, s' = set_buf b s /\ zlen b = zlen (device_write_buf s) /\
    (if (baddr_type local =? 1) then
       if zlen data <=? Z.min 65507 (device_mtu s - 28) then
         exists p, tr = [BTap_Send p] /\ zlen p = 28 + zlen data /\ bytes_ok p /\ udp4_datagram p remote local data
       else tr = []
     else
       if netif_ip6addr opts && (zlen data <=? Z.min 65527 (device_mtu s - 48)) then
         exists p, tr = [BTap_Send p] /\ zlen p = 48 + zlen data /\ bytes_ok p /\ udp6_datagram p remote local data
       else tr = []).

Lemma received_wp s local remote data :
  udpgw_remote_server_addr opts = true -> baddr_ok local -> baddr_ok remote ->
  baddr_type local = 1 \/ baddr_type local = 2 -> baddr_type local = baddr_type remote ->
  bytes_ok data -> buf_ok s ->
  wp (udpgw_client_handler_received opts local remote data) s (fun _ s' tr => received_post local remote data s s' tr).
Proof.
  intros Hg Hl Hr Ht Hsame Hd Hb. pose proof (zlen_nonneg data). unfold udpgw_client_handler_received, buf_ok, received_post in *.
  assert (Heta : s = set_buf (device_write_buf s) s) by (by destruct s).
  wp_step. wp_step; [done|]. wp_step. wp_step; [by destruct Ht as [-> | ->]|].
  wp_step. wp_step; [by apply Z.eqb_eq|]. wp_step. wp_step; [lia|]. do 2 wp_step.
  unfold sizeof_ipv4_header, sizeof_udp_header, sizeof_ipv6_header, UINT16_MAX.
  destruct local as [|lip lport|lip lport|], remote as [|rip rport|rip rport|]; cbn [baddr_type] in *; try lia.
  - change (1 =? 1) with true. cbn iota.
    destruct (Z.leb_spec (zlen data) (Z.min 65507 (device_mtu s - 28))).
    + replace (_ || _) with false by lia. wp_step. rewrite ipv4_checksum_val by (done || lia || constructor).
      cbn [sum]. do 2 wp_step.
      set (h := reply_ipv4_header rip lip (zlen data)). change (Z.to_nat 0) with 0%nat. rewrite take_0.
      set (c := hton16 (65535 - oc16 (be_sum (ipv4_header_bytes h) + be_sum []))).
      change (source_address (ipv4_with_checksum c h)) with rip. change (destination_address (ipv4_with_checksum c h)) with lip.
      rewrite udp_checksum_val by (done || lia). cbn [sum]. wp_step.
      set (u := reply_udp_header rport lport (zlen data)). set (cu := hton16 _).
      eapply wp_mono; [apply (write_packet_wp _ _ _ _ 20 8); [apply zlen_ipv4_header_bytes | apply zlen_udp_header_bytes | lia]|].
      intros _ s' tr (b & -> & Hbl & ->). exists b. split_and!; [done | done |]. eexists. split; [done|].
      split; [rewrite !zlen_app, zlen_ipv4_header_bytes, zlen_udp_header_bytes; lia|].
      split; [|apply reply4_datagram; try done; lia].
      apply Forall_app_2; [apply ipv4_header_bytes_ok|]. apply Forall_app_2; [apply udp_header_bytes_ok | done].
    + replace (_ || _) with true by lia. wp_step. by eexists.
  - change (2 =? 1) with false. cbn iota. destruct (netif_ip6addr opts); cbn [negb andb]; [|wp_step; by eexists].
    destruct (Z.leb_spec (zlen data) (Z.min 65527 (device_mtu s - 48))).
    + replace (_ || _) with false by lia. wp_step.
      set (h := reply_ipv6_header rip lip (zlen data)).
      pose proof Hl as (Hl1 & Hl2 & Hl3). pose proof Hr as (Hr1 & Hr2 & Hr3).
      assert (E1 : source_address6 h = rip) by (unfold h; cbn; rewrite <- Hr2; apply mread_all).
      assert (E2 : destination_address6 h = lip) by (unfold h; cbn; rewrite <- Hl2; apply mread_all). rewrite E1, E2.
      rewrite udp_ip6_checksum_val by (done || lia). cbn [sum]. wp_step.
      set (u := reply_udp_header rport lport (zlen data)). set (cu := hton16 _).
      assert (Hz : zlen (ipv6_header_bytes h) = 40).
      { unfold ipv6_header_bytes. rewrite !zlen_app, !zlen_le_bytes, E1, E2. lia. }
      eapply wp_mono; [apply (write_packet_wp _ _ _ _ 40 8); [exact Hz | apply zlen_udp_header_bytes | lia]|].
      intros _ s' tr (b & -> & Hbl & ->). exists b. split_and!; [done | done |]. eexists. split; [done|].
      split; [rewrite !zlen_app, Hz, zlen_udp_header_bytes; lia|].
      split; [|apply reply6_datagram; try done; lia].
      apply Forall_app_2; [|apply Forall_app_2; [apply udp_header_bytes_ok | done]].
      unfold ipv6_header_bytes. rewrite E1, E2. repeat apply Forall_app_2; (apply le_bytes_ok || done).
    + replace (_ || _) with true by lia. wp_step. by eexists.
Qed.

(** ** lwIP's packets *)

Lemma copy_chunks_wp s p off pre (Q : option Z -> t -> list out -> Prop) :
  buf_ok s -> 0 <= off <= device_mtu s -> mread (device_write_buf s) 0 off = pre ->
  (forall b, zlen b = zlen (device_write_buf s) ->
     if off + zlen (concat p) <=? device_mtu s
     then mread b 0 (off + zlen (concat p)) = pre ++ concat p -> Q (Some (off + zlen (concat p))) (set_buf b s) []
     else Q None (set_buf b s) []) ->
  wp (copy_chunks p off) s Q.
Proof.
  unfold buf_ok. revert s off pre Q. induction p as [|c p IH]; intros s off pre Q Hb Ho Hp HQ; cbn [copy_chunks].
  - wp_step. specialize (HQ (device_write_buf s) eq_refl). cbn [concat] in HQ. rewrite zlen_nil, Z.add_0_r, app_nil_r in HQ.
    replace (off <=? device_mtu s) with true in HQ by lia. destruct s. by apply HQ.
  - pose proof (zlen_nonneg c). pose proof (zlen_nonneg (concat p)) as Hcp. cbn [concat] in HQ. rewrite zlen_app in HQ.
    do 2 wp_step. destruct (Z.gtb_spec (zlen c) (device_mtu s - off)).
    + wp_step. specialize (HQ (device_write_buf s) eq_refl).
      replace (off + (zlen c + zlen (concat p)) <=? device_mtu s) with false in HQ by lia. by destruct s.
    + wp_step. apply (wp_write_buf _ _ _ pre); [lia | lia | done |]. intros b Hbl Hrd.
      apply (IH (set_buf b s) (off + zlen c) (pre ++ c)); cbn [device_write_buf device_mtu set_buf]; [lia | lia | done |].
      intros b' Hb'. cbn [device_write_buf device_mtu set_buf] in *. specialize (HQ b' ltac:(lia)). rewrite Z.add_assoc, app_assoc in HQ. exact HQ.
Qed.

Lemma netif_output_wp s p :
  p <> [] -> buf_ok s -> 0 <= device_mtu s ->
  wp (common_netif_output p) s (fun _ s' tr => exists b, s' = set_buf b s /\ buf_ok s' /\
    tr = if negb (quitting s) && (zlen (concat p) <=? device_mtu s) then [BTap_Send (concat p)] else []).
Proof.
  intros Hp Hb Hm. assert (Heta : s = set_buf (device_write_buf s) s) by (by destruct s).
  unfold common_netif_output. do 2 wp_step. destruct (quitting s); cbn [negb andb]; [wp_step; by eexists|].
  destruct p as [|c [|c2 p]]; [done | |].
  - cbn [concat]. rewrite app_nil_r. destruct (Z.gtb_spec (zlen c) (device_mtu s)), (Z.leb_spec (zlen c) (device_mtu s));
      try lia; wp_step; by eexists.
  - wp_step. apply (copy_chunks_wp _ _ _ []); [done | lia | done |]. intros b Hbl.
    pose proof (zlen_nonneg (concat (c :: c2 :: p))). rewrite Z.add_0_l.
    destruct (Z.leb_spec (zlen (concat (c :: c2 :: p))) (device_mtu s)).
    + intros Hrd. unfold send_buf. do 2 wp_step. wp_step. wp_step; [cbn [device_write_buf set_buf]; unfold buf_ok in *; lia|]. wp_step.
      exists b. split_and!; [done | unfold buf_ok in *; cbn [device_write_buf device_mtu set_buf]; lia |]. cbn [app device_write_buf set_buf]. by rewrite Hrd.
    + wp_step. exists b. split_and!; [done | unfold buf_ok in *; cbn [device_write_buf device_mtu set_buf]; lia | done].
Qed.

(** What becomes of a packet that is not for the relay. *)
Definition version (data : list Z) : Z := if zlen data >? 0 then Z.shiftr (fld data 0 1) 4 else 0.
Definition to_lwip (data : list Z) (p : option (list (list Z))) (ok : bool) : list out :=
  if zlen data >? UINT16_MAX then [] else
  Pbuf_Alloc (zlen data) ::
  match p with
  | None => []
  | Some p =>
      Pbuf_Take data ::
      (if version data =? 4 then Ip_Input p :: (if ok then [] else [Pbuf_Free])
       else if (version data =? 6) && netif_ip6addr opts then Ip6_Input p :: (if ok then [] else [Pbuf_Free])
       else [Pbuf_Free])
  end.

(** A [pbuf] that holds the packet; only an empty packet has an empty first chunk. *)
Definition pbuf_of (data : list Z) (p : list (list Z)) : Prop :=
  concat p = data /\ match p with c :: _ => c = [] -> data = [] | [] => False end.

Lemma netif_input_wp s data p ok :
  pbuf_of data p ->
  wp (netif_input_func opts p ok) s (fun r s' tr => s' = s /\
    tr = (if version data =? 4 then [Ip_Input p]
          else if (version data =? 6) && netif_ip6addr opts then [Ip6_Input p] else [Pbuf_Free]) /\
    r = if version data =? 4 then ok else if (version data =? 6) && netif_ip6addr opts then ok else true).
Proof.
  intros [<- Hc]. destruct p as [|c p]; [done|]. unfold netif_input_func. pose proof (zlen_nonneg c).
  assert (Hv : Z.shiftr (if zlen c >? 0 then fld c 0 1 else 0) 4 = version (concat (c :: p))).
  { unfold version. cbn [concat]. rewrite zlen_app. pose proof (zlen_nonneg (concat p)).
    destruct (Z.gtb_spec (zlen c) 0) as [Hp|Hz].
    - replace (zlen c + zlen (concat p) >? 0) with true by lia. f_equal. unfold fld. f_equal.
      destruct c as [|x c]; [done|]. reflexivity.
    - assert (c = []) as -> by (apply zlen_0_nil; lia). specialize (Hc eq_refl). cbn [concat app] in Hc. rewrite Hc. done. }
  wp_step. apply (wp_mono _ _ (fun b s' tr => s' = s /\ tr = [] /\ b = if zlen c >? 0 then fld c 0 1 else 0)).
  { destruct (Z.gtb_spec (zlen c) 0); [apply wp_byte_at; try lia; done | by wp_step]. }
  intros b s' tr (-> & -> & ->). rewrite Hv.
  destruct (version (concat (c :: p)) =? 4); [by wp_run|].
  by destruct ((version (concat (c :: p)) =? 6) && netif_ip6addr opts); wp_run.
Qed.

Lemma device_read_wp s data p ok :
  quitting s = false -> bytes_ok data -> match p with Some p => pbuf_of data p | None => True end ->
  wp (device_read_handler_send opts data p ok) s (fun _ s' tr => s' = s /\
    exists r tr', process_post data (udp_mtu s) r tr' /\
      tr = Read_Done :: tr' ++ (if r then [] else to_lwip data p ok)).
Proof.
  intros Hq Hd Hp. pose proof (zlen_nonneg data). unfold device_read_handler_send. do 2 wp_step.
  wp_step. wp_step; [by rewrite Hq|]. wp_step. wp_step; [lia|]. do 3 wp_step.
  eapply wp_mono; [by apply process_wp|]. intros r s' tr [-> HP]. unfold to_lwip. destruct r.
  { wp_step. split; [done|]. exists true, tr. split; [done|]. by rewrite app_nil_r. }
  destruct (Z.gtb_spec (zlen data) UINT16_MAX).
  { wp_step. split; [done|]. exists false, tr. split; [done|]. by rewrite app_nil_r. }
  do 2 wp_step. destruct p as [p|]; [|wp_step; split; [done|]; by exists false, tr].
  do 3 wp_step. eapply wp_mono; [by apply (netif_input_wp _ data)|]. intros r s' tr1 (-> & -> & ->).
  assert (Hin : wp (if negb ok then emit Pbuf_Free else ret tt) s (fun _ s' tr' => s' = s /\
      tr' = if ok then [] else [Pbuf_Free])) by (destruct ok; cbn [negb]; by wp_step).
  assert (Hd2 : forall x, wp (if negb ok then emit Pbuf_Free else ret tt) s (fun _ s' tr' => s' = s /\ exists r tr'0,
      process_post data (udp_mtu s) r tr'0 /\ Read_Done :: tr ++ Pbuf_Alloc (zlen data) :: Pbuf_Take data :: x :: tr' =
        Read_Done :: tr'0 ++ (if r then [] else Pbuf_Alloc (zlen data) :: Pbuf_Take data :: x :: (if ok then [] else [Pbuf_Free])))).
  { intros x. eapply wp_mono; [exact Hin|]. intros _ s' tr' [-> ->]. split; [done|]. by exists false, tr. }
  destruct (version data =? 4); [apply Hd2|]. destruct ((version data =? 6) && netif_ip6addr opts); [apply Hd2|].
  cbn [negb]. wp_step. split; [done|]. by exists false, tr.
Qed.

(** ** The start of lwIP *)

Fixpoint total (f : out -> Z) (tr : list out) : Z :=
  match tr with [] => 0 | x :: tr' => f x + total f tr' end.
(** TCP control blocks opened minus those closed; stops of the event loop;
    network interfaces removed. *)
Definition pcbs (tr : list out) : Z := total (fun x => match x with Tcp_New true => 1 | Tcp_Close => -1 | _ => 0 end) tr.
Definition quits (tr : list out) : Z := total (fun x => match x with Reactor_Quit => 1 | _ => 0 end) tr.
Definition removes (tr : list out) : Z := total (fun x => match x with Netif_Remove => 1 | _ => 0 end) tr.

Definition listens (r : listen_results) : bool := new_ok r && bind_ok r && listen_ok r.
Definition fresh (s : t) : Prop :=
  quitting s = false /\ have_netif s = false /\ listener s = false /\ listener_ip6 s = false.

(** What the job leaves behind, by the results of the lwIP calls. *)
Definition init_post (netif_ok : bool) (r r6 : listen_results) (s s' : t) (tr : list out) : Prop :=
  let l := netif_ok && listens r in
  let l6 := l && netif_ip6addr opts && listens r6 in
  let ok := l && (negb (netif_ip6addr opts) || listens r6) in
  s' = (if ok then set_lwip netif_ok l l6 s else set_quitting (set_lwip netif_ok l l6 s)) /\
  pcbs tr = Z.b2z l + Z.b2z l6 /\ quits tr = Z.b2z (negb ok) /\ removes tr = 0.

Lemma lwip_init_wp s netif_ok r r6 :
  fresh s -> wp (lwip_init_job_hadler opts 1 netif_ok r r6) s (fun _ s' tr => init_post netif_ok r r6 s s' tr).
Proof.
  intros (Hq & Hn & Hl & Hl6). destruct s as [dm b um q m n l l6]. cbn in *. subst.
  unfold init_post. destruct (netif_ip6addr opts) eqn:E; unfold wp, lwip_init_job_hadler; rewrite E;
    destruct netif_ok; destruct r as [[] [] []]; try destruct r6 as [[] [] []]; by cbv -[Z.add Z.eqb].
Qed.
Lemma total_app f tr1 tr2 : total f (tr1 ++ tr2) = total f tr1 + total f tr2.
Proof. induction tr1 as [|x tr1 IH]; cbn [total app]; lia. Qed.

Lemma main_free_wp s :
  wp main_free s (fun _ s' tr => s' = s /\ pcbs tr = - (Z.b2z (listener s) + Z.b2z (listener_ip6 s)) /\
    quits tr = 0 /\ removes tr = Z.b2z (have_netif s)).
Proof. destruct s as [dm b um q m [] [] []]; by cbv -[Z.add]. Qed.

(** ** Properties *)

(** C3. A packet read from the device is first accepted from the interface, and
    then has exactly one fate.  If it is a well-formed UDP datagram over IPv4 or
    (enabled) IPv6 with right checksums and a payload that fits, exactly its
    addresses and payload go to the relay, as a DNS query exactly if it is one.
    Otherwise the whole packet goes to lwIP's input for its IP version or is
    dropped, and the [pbuf] is either taken by lwIP or freed, once. *)
Theorem device_packet_dispatch (s : t) (data : list Z) (p : option (list (list Z))) (ok : bool)
    (Hq : quitting s = false) (Hd : bytes_ok data)
    (Hp : match p with Some p => pbuf_of data p | None => True end) :
  exists (r : bool) tr, device_read_handler_send opts data p ok s = Ok tt s (Read_Done :: tr ++ (if r then [] else to_lwip data p ok)) /\
    if r then
      exists local remote payload, udp_datagram (netif_ip6addr opts) data local remote payload /\
        zlen payload <= udp_mtu s /\
        tr = [Udpgw_SubmitPacket local remote (dns_query (dnsgw opts) remote payload) payload]
    else tr = [] /\ (udpgw_remote_server_addr opts = true -> forall local remote payload,
      udp_datagram (netif_ip6addr opts) data local remote payload -> udp_mtu s < zlen payload).
Proof.
  destruct (wp_ok _ _ _ (device_read_wp s data p ok Hq Hd Hp)) as ([] & s' & tr & -> & -> & r & tr' & HP & ->).
  exists r, tr'. split; [done|]. destruct HP as [(-> & l & rm & d & _ & ? & ? & ->)|(-> & -> & ?)]; [|done].
  by exists l, rm, d.
Qed.

(** C4. A datagram from the relay that fits into an IP packet and the device is
    written to the device as one packet, of exactly the length of its headers and
    payload; the device's own reader takes that packet for a datagram from the
    remote to the local address with the same payload, so all its lengths and
    checksums are right.  A datagram that does not fit, or an IPv6 one when IPv6
    is disabled, is dropped; nothing is written outside the buffer. *)
Theorem relay_reply_reads_back (s : t) (local remote : BAddr) (data : list Z)
    (Hg : udpgw_remote_server_addr opts = true) (Hl : baddr_ok local) (Hr : baddr_ok remote)
    (Ht : baddr_type local = 1 \/ baddr_type local = 2) (Hsame : baddr_type local = baddr_type remote)
    (Hd : bytes_ok data) (Hb : buf_ok s) :
  let hdrs := if baddr_type local =? 1 then 28 else 48 in
  exists s' tr, udpgw_client_handler_received opts local remote data s = Ok tt s' tr /\ buf_ok s' /\
    (if (if baddr_type local =? 1 then zlen data <=? 65507 else netif_ip6addr opts && (zlen data <=? 65527)) &&
        (hdrs + zlen data <=? device_mtu s) then
       exists p, tr = [BTap_Send p] /\ zlen p = hdrs + zlen data /\
         forall s2, zlen data <= udp_mtu s2 ->
           process_device_udp_packet opts p s2 =
             Ok true s2 [Udpgw_SubmitPacket remote local (dns_query (dnsgw opts) local data) data]
     else tr = []).
Proof.
  destruct (wp_ok _ _ _ (received_wp s local remote data Hg Hl Hr Ht Hsame Hd Hb)) as ([] & s' & tr & -> & b & -> & Hbl & HR).
  cbn zeta. exists (set_buf b s), tr. split; [done|].
  split; [unfold buf_ok in *; cbn [device_write_buf device_mtu set_buf]; lia|].
  assert (Hread : forall p, bytes_ok p -> udp_datagram (netif_ip6addr opts) p remote local data ->
    forall s2, zlen data <= udp_mtu s2 -> process_device_udp_packet opts p s2 =
      Ok true s2 [Udpgw_SubmitPacket remote local (dns_query (dnsgw opts) local data) data]).
  { intros p Hpb Hdg s2 Hm.
    destruct (wp_ok _ _ _ (process_wp s2 p Hpb)) as (r & s3 & tr3 & -> & -> & [(-> & l & rm & d & _ & Hdg' & _ & ->)|(_ & _ & Hno)]).
    - destruct Hdg as [Hdg|[_ Hdg]], Hdg' as [Hdg'|[_ Hdg']].
      + by destruct (udp4_datagram_det p _ _ _ _ _ _ Hpb Hdg Hdg') as (-> & -> & ->).
      + apply udp4_version in Hdg as [_ ?]; [|done]. apply udp6_version in Hdg' as [_ ?]; [|done]. congruence.
      + apply udp6_version in Hdg as [_ ?]; [|done]. apply udp4_version in Hdg' as [_ ?]; [|done]. congruence.
      + by destruct (udp6_datagram_det p _ _ _ _ _ _ Hpb Hdg Hdg') as (-> & -> & ->).
    - specialize (Hno Hg _ _ _ Hdg). lia. }
  destruct Ht as [Ht|Ht]; rewrite Ht in *; cbn [Z.eqb Pos.eqb] in *.
  - destruct (Z.leb_spec (zlen data) (Z.min 65507 (device_mtu s - 28))).
    + destruct HR as (p & -> & Hz & Hpb & Hdg). replace (_ && _) with true by lia. exists p. split_and!; try done.
      apply Hread; [done | by left].
    + by replace (_ && _) with false by lia.
  - destruct (netif_ip6addr opts) eqn:E6; cbn [andb] in *; [|done].
    destruct (Z.leb_spec (zlen data) (Z.min 65527 (device_mtu s - 48))).
    + destruct HR as (p & -> & Hz & Hpb & Hdg). replace (_ && _) with true by lia. exists p. split_and!; try done.
      apply Hread; [done | by right].
    + by replace (_ && _) with false by lia.
Qed.

(** lwIP's packets reach the device whole or not at all: the chunks of a packet
    that fits the MTU are sent as one packet, in order; a larger one is dropped,
    as is any packet after termination has begun; the buffer is never overrun. *)
Theorem netif_output_whole_packets (s : t) (p : list (list Z))
    (Hp : p <> []) (Hb : buf_ok s) (Hm : 0 <= device_mtu s) :
  exists b, common_netif_output p s = Ok tt (set_buf b s)
      (if negb (quitting s) && (zlen (concat p) <=? device_mtu s) then [BTap_Send (concat p)] else []) /\
    buf_ok (set_buf b s).
Proof.
  destruct (wp_ok _ _ _ (netif_output_wp s p Hp Hb Hm)) as ([] & s' & tr & -> & b & -> & Hb' & ->). by exists b.
Qed.

(** Whichever lwIP calls fail, the init job ends with lwIP fully set up, or
    stops the event loop, exactly once; and together with the end of [main] every
    TCP control block that was opened is closed exactly once and the network
    interface is removed if it was added. *)
Theorem lwip_start_and_stop (s : t) (netif_ok : bool) (r r6 : listen_results) (Hs : fresh s) :
  let l := netif_ok && listens r in
  let l6 := l && netif_ip6addr opts && listens r6 in
  exists s' tr1 tr2, lwip_init_job_hadler opts 1 netif_ok r r6 s = Ok tt s' tr1 /\
    main_free s' = Ok tt s' tr2 /\
    have_netif s' = netif_ok /\ listener s' = l /\ listener_ip6 s' = l6 /\
    quitting s' = negb (l && (negb (netif_ip6addr opts) || l6)) /\
    quits (tr1 ++ tr2) = Z.b2z (quitting s') /\ pcbs (tr1 ++ tr2) = 0 /\ removes (tr1 ++ tr2) = Z.b2z netif_ok.
Proof.
  destruct (wp_ok _ _ _ (lwip_init_wp s netif_ok r r6 Hs)) as ([] & s' & tr1 & E1 & -> & Hp1 & Hq1 & Hr1).
  match type of E1 with _ = Ok _ ?s1 _ =>
    destruct (wp_ok _ _ _ (main_free_wp s1)) as ([] & s2 & tr2 & E2 & -> & Hp2 & Hq2 & Hr2) end.
  cbn zeta in *. eexists _, tr1, tr2. split; [exact E1|]. split; [exact E2|]. unfold pcbs, quits, removes in *.
  rewrite !total_app, Hp1, Hp2, Hq1, Hq2, Hr1, Hr2. destruct Hs as (Hq & _).
  destruct netif_ok, (listens r), (listens r6), (netif_ip6addr opts); cbn; rewrite ?Hq; split_and!; reflexivity.
Qed.

End Reading.

Lemma udp4_size data l rm d : bytes_ok data -> udp4_datagram data l rm d -> 28 + zlen d <= zlen data.
Proof.
  intros Hd (h & opts & u & rest & -> & _). pose proof (zlen_nonneg opts). pose proof (zlen_nonneg rest).
  rewrite !zlen_app, zlen_ipv4_header_bytes, zlen_udp_header_bytes. lia.
Qed.

Lemma udp6_size data l rm d : bytes_ok data -> udp6_datagram data l rm d -> 48 + zlen d <= zlen data.
Proof.
  intros Hd (h & u & rest & -> & Hok & _). pose proof (zlen_nonneg rest).
  rewrite !zlen_app, (zlen_ipv6_header_bytes h Hok), zlen_udp_header_bytes. lia.
Qed.

(** The payload size that [main] computes from the device MTU is enough for
    every datagram a packet of the device can hold, and leaves the size of udpgw
    packets within what the framing can carry; when it does not, [main] refuses
    to start the relay. *)
Theorem udp_mtu_sufficient (android ip6 : bool) (mtu m : Z) (Hmtu : 0 <= mtu <= INT_MAX)
    (Hm : compute_udp_mtu android ip6 mtu = Some m) :
  0 <= m <= Z.max 0 (mtu - 28) /\ 0 <= udpgw_compute_mtu android m <= PACKETPROTO_MAXPAYLOAD /\
  forall data local remote payload, bytes_ok data -> zlen data <= mtu ->
    udp_datagram ip6 data local remote payload -> zlen payload <= m.
Proof.
  unfold compute_udp_mtu, sizeof_ipv4_header, sizeof_udp_header, sizeof_ipv6_header in Hm.
  replace (if ip6 then _ else _) with (mtu - (20 + 8)) in Hm.
  2: { destruct ip6; [|done]. by replace (mtu - (20 + 8) <? mtu - (40 + 8)) with false by lia. }
  destruct (_ || _) eqn:E in Hm; [done|]. injection Hm as Hm. apply orb_false_iff in E as [E1 E2].
  rewrite Hm in *. assert (m = Z.max 0 (mtu - 28)).
  { rewrite <- Hm. destruct (Z.ltb_spec (mtu - (20 + 8)) 0); lia. }
  split; [lia|]. split; [lia|].
  intros data l rm d Hd Hz [Hdg|[_ Hdg]]; [apply udp4_size in Hdg | apply udp6_size in Hdg]; try done; lia.
Qed.

(** ** A concrete device *)

Definition opts_demo : options := mk_options true true true.
Definition s_demo : t := mk 1500 (replicate 1500 0) 1472 false 0 false false false.
Definition local_demo : BAddr := BADDR_IPV4 33554442 20480.
Definition remote_demo : BAddr := BADDR_IPV4 134744072 13568.

Definition reply_demo : list Z :=
  [69; 0; 0; 31; 0; 0; 0; 0; 64; 17; 96; 189; 8; 8; 8; 8; 10; 0; 0; 2; 0; 53; 0; 80; 0; 11; 225; 63; 1; 2; 3].

Lemma demo_bytes_ok : bytes_ok reply_demo.
Proof. repeat constructor; done. Qed.

Lemma device_packet_dispatch_witness :
  quitting s_demo = false /\ bytes_ok reply_demo /\ pbuf_of reply_demo [reply_demo] /\
  exists (r : bool) tr, device_read_handler_send opts_demo reply_demo (Some [reply_demo]) true s_demo =
    Ok tt s_demo (Read_Done :: tr ++ (if r then [] else to_lwip opts_demo reply_demo (Some [reply_demo]) true)).
Proof.
  split; [reflexivity|]. split; [exact demo_bytes_ok|].
  assert (Hp : pbuf_of reply_demo [reply_demo]) by (split; [reflexivity | discriminate]). split; [exact Hp|].
  destruct (device_packet_dispatch opts_demo s_demo reply_demo (Some [reply_demo]) true eq_refl demo_bytes_ok Hp)
    as (r & tr & E & _).
  exact (ex_intro _ r (ex_intro _ tr E)).
Defined.

Lemma relay_reply_reads_back_witness :
  buf_ok s_demo /\ exists s' tr, udpgw_client_handler_received opts_demo local_demo remote_demo [1; 2; 3] s_demo =
    Ok tt s' tr /\ exists p, tr = [BTap_Send p] /\ zlen p = 31.
Proof.
  split; [reflexivity|].
  destruct (relay_reply_reads_back opts_demo s_demo local_demo remote_demo [1; 2; 3]) as (s' & tr & E & _ & HR);
    try reflexivity; try (cbn; lia).
  - repeat constructor; done.
  - exists s', tr. split; [exact E|]. change (_ && _) with true in HR. destruct HR as (p & Ht & Hz & _).
    exact (ex_intro _ p (conj Ht Hz)).
Defined.

Lemma netif_output_whole_packets_witness :
  buf_ok s_demo /\ exists b, common_netif_output [[1; 2]; [3]] s_demo = Ok tt (set_buf b s_demo) [BTap_Send [1; 2; 3]].
Proof.
  split; [reflexivity|].
  destruct (netif_output_whole_packets s_demo [[1; 2]; [3]]) as (b & E & _); [done | reflexivity | cbn; lia |].
  exact (ex_intro _ b E).
Defined.

Lemma lwip_start_and_stop_witness (r6 := mk_listen_results true false true) :
  fresh s_demo /\ exists s' tr1 tr2, lwip_init_job_hadler opts_demo 1 true (mk_listen_results true true true) r6 s_demo = Ok tt s' tr1 /\
    main_free s' = Ok tt s' tr2 /\ quitting s' = true.
Proof.
  assert (Hs : fresh s_demo) by (repeat split). split; [exact Hs|].
  destruct (lwip_start_and_stop opts_demo s_demo true (mk_listen_results true true true) r6 Hs)
    as (s' & tr1 & tr2 & E1 & E2 & _ & _ & _ & Hq & _).
  exact (ex_intro _ s' (ex_intro _ tr1 (ex_intro _ tr2 (conj E1 (conj E2 Hq))))).
Defined.

Lemma udp_mtu_sufficient_witness :
  compute_udp_mtu true true 1500 = Some 1472 /\ 0 <= 1472 <= 1472.
Proof.
  assert (E : compute_udp_mtu true true 1500 = Some 1472) by (vm_compute; reflexivity). split; [exact E|].
  destruct (udp_mtu_sufficient true true 1500 1472) as (H & _); [vm_compute; split; congruence | exact E | exact H].
Defined.

End TunDevice.
