(* ===== verification/SocksUdpGwClient.v ===== *)
(** * SocksUdpGwClient: UDP datagrams through the SOCKS server

    Model of [badvpn/tun2socks/SocksUdpGwClient.c] in the [__ANDROID__] variant, the
    one built into the app ([UdpGwReconnect] has the other): every local address
    has a UDP socket of its own, which sends to the SOCKS server with a SOCKS5 UDP
    header, or, for DNS queries, to the DNS gateway without one.  Connections are
    found by their local address; when the table is full the least recently used
    one is freed.

    A connection's [BDatagram], writer and buffers are outputs; the results of
    their initialisation, of [malloc], and the buffer a writer hands out are
    arguments.  [con_peer] is the address its socket sends to.  An access to a
    freed connection is a fault; [jobs] are the pending first jobs, which hold a
    pointer to their connection. *)

From S2P Require Import Prelude ByteOrder BSize BAddr BSocksClient UdpgwProto PacketProto SearchTree BAVL BavlTree TunDevice.
Open Scope mon_scope.

#[local] Arguments mread : simpl never.
#[local] Arguments mwrite : simpl never.
#[local] Arguments Z.add : simpl never.
#[local] Arguments Z.sub : simpl never.

Module SocksUdp.

Abbreviation SOCKS_ATYP_IPV4 := BSocksClient.SOCKS_ATYP_IPV4.
Abbreviation SOCKS_ATYP_IPV6 := BSocksClient.SOCKS_ATYP_IPV6.

(** [struct socks_udp_header]: [rsv], [frag], [atyp]. *)
Definition socks_udp_header_bytes (rsv frag atyp : Z) : list Z := le_bytes 2 rsv ++ le_bytes 1 frag ++ le_bytes 1 atyp.

Record conaddr := mk_conaddr { local_addr : BAddr; remote_addr : BAddr }.

(** Only the local address is compared. *)
Definition conaddr_comparator (v1 v2 : conaddr) : Z := BAddr_CompareOrder (local_addr v1) (local_addr v2).

Record connection := mk_con {
  con_conaddr : conaddr;
  con_first_data_len : Z;
  con_is_dns : bool;
  con_peer : BAddr;
}.

#[export] Instance connection_inhabited : Inhabited connection :=
  populate (mk_con (mk_conaddr BADDR_NONE BADDR_NONE) 0 false BADDR_NONE).

Record config := mk_config {
  udp_mtu : Z;
  udpgw_mtu : Z;
  max_connections : Z;
  socks_server_addr : BAddr;
  dnsgw : BAddr;
}.

(** Keys of the tree: the local addresses. *)
Definition local_comparator (a b : BAddr) : Z := BAddr_CompareOrder a b.

Section Client.
Context {TA : SearchTree baddr_ok local_comparator}.

Record t := mk {
  cfg : config;
  connections_tree : tree (SearchTree := TA);
  connections_list : list Z;          (** least recently used first *)
  num_connections : Z;
}.

Record sys := mk_sys { o : t; heap : gmap Z connection; jobs : list Z; pkt : list Z }.

Inductive out :=
  | Job_Init_Set (con : Z) | Job_Free (con : Z)
  | Dgram_Init (con type : Z) | Dgram_SetReuseAddr (con : Z) | Dgram_SetSendAddrs (con : Z) (peer : BAddr)
  | Dgram_Free (con : Z)
  | SendAsync_Init (con mtu : Z) | SendAsync_Free (con : Z) | RecvAsync_Init (con mtu : Z) | RecvAsync_Free (con : Z)
  | Writer_Init (con mtu : Z) | Writer_Free (con : Z) | Send_Buffer_Init (con size : Z) | Send_Buffer_Free (con : Z)
  | Recv_If_Init (con mtu : Z) | Recv_If_Free (con : Z) | Recv_Buffer_Init (con : Z) | Recv_Buffer_Free (con : Z)
  | Submit (con : Z) (peer : BAddr) (packet : list Z)      (** [BufferWriter_EndPacket] *)
  | Recv_Done (con : Z)                                    (** [PacketPassInterface_Done] *)
  | Received (local remote : BAddr) (data : list Z).       (** [handler_received] *)

Abbreviation H := (M sys out).

Definition set_tables (ta : tree (SearchTree := TA)) (l : list Z) (n : Z) (s : sys) : sys :=
  mk_sys (mk (cfg (o s)) ta l n) (heap s) (jobs s) (pkt s).
Definition set_heap (h : gmap Z connection) (s : sys) : sys := mk_sys (o s) h (jobs s) (pkt s).
Definition set_jobs (j : list Z) (s : sys) : sys := mk_sys (o s) (heap s) j (pkt s).
Definition set_pkt (d : list Z) (s : sys) : sys := mk_sys (o s) (heap s) (jobs s) d.

Definition con_ (p : Z) : H connection := load heap p.
Definition set_con (p : Z) (c : connection) : H unit := modify (fun s => set_heap (<[p := c]> (heap s)) s).

Definition CONNECTION_UDP_BUFFER_SIZE : Z := 64.

(** ** Lookup *)

(** [if (!con && con->is_dns != is_dns) return NULL;]: [con] is not NULL here, so
    the second operand is not evaluated. *)
Definition find_connection (c : conaddr) (is_dns : bool) : H (option Z) :=
  s <- get ;;
  match t_lookup (local_addr c) (connections_tree (o s)) with
  | None => ret None
  | Some con =>
      let con_is_null := false in
      other <- (if con_is_null then x <- con_ con ;; ret (negb (Bool.eqb (con_is_dns x) is_dns)) else ret false) ;;
      if other then ret None else ret (Some con)
  end.

(** ** Sending *)

(** [buf]: what [BufferWriter_StartPacket] gives; the result is 1 when it is out
    of buffer. *)
Definition connection_send (con : Z) (data : list Z) (data_len : Z) (buf : option (list Z)) : H Z :=
  c <- con_ con ;;
  match buf with
  | None => ret 1
  | Some m =>
      let out_pos := 0 in
      mp <- (if negb (con_is_dns c) then
        let remote := remote_addr (con_conaddr c) in
        let atyp := if baddr_type remote =? 1 then SOCKS_ATYP_IPV4 else SOCKS_ATYP_IPV6 in
        m <- put m out_pos (socks_udp_header_bytes 0 0 atyp) ;;
        let out_pos := out_pos + sizeof_socks_udp_header in
        match remote with
        | BADDR_IPV4 ip port =>
            m <- put m out_pos (addr_ipv4_bytes ip port) ;; ret (m, out_pos + sizeof_udpgw_addr_ipv4)
        | BADDR_IPV6 ip port =>
            m <- put m out_pos (addr_ipv6_bytes ip port) ;; ret (m, out_pos + sizeof_udpgw_addr_ipv6)
        | _ => ret (m, out_pos)
        end
      else ret (m, out_pos)) ;;
      d <- get_bytes data 0 data_len ;;
      m <- put mp.1 mp.2 d ;;
      let out_pos := mp.2 + data_len in
      s <- get ;;
      assert (out_pos >=? 0) ;;                  (** in [BufferWriter_EndPacket] *)
      assert (out_pos <=? udp_mtu (cfg (o s))) ;;
      emit (Submit con (con_peer c) (mread m 0 out_pos)) ;;
      ret 0
  end.

Definition connection_first_job_handler (con : Z) (buf : option (list Z)) : H unit :=
  c <- con_ con ;;
  s <- get ;;
  connection_send con (pkt s) (con_first_data_len c) buf ;;
  ret tt.

(** ** Connections *)

(** Results of [malloc] and of the initialisations that can fail. *)
Record alloc := mk_alloc { ptr : option Z; dgram_ok : bool; reuse_ok : bool; send_buffer_ok : bool; recv_buffer_ok : bool }.

Definition connection_init (c : conaddr) (data_len : Z) (is_dns : bool) (a : alloc) : H (option Z) :=
  match ptr a with
  | None => ret None
  | Some con =>
      s <- get ;;
      let g := cfg (o s) in
      let peer := if is_dns then dnsgw g else socks_server_addr g in
      modify (fun s => set_heap (<[con := mk_con c data_len is_dns peer]> (heap s)) s) ;;
      modify (fun s => set_jobs (con :: jobs s) s) ;;
      emit (Job_Init_Set con) ;;
      (** labels [fail0], [fail1], [fail2], [fail3] *)
      let fail0 : H (option Z) :=
        modify (fun s => set_jobs (list_remove con (jobs s)) s) ;;
        emit (Job_Free con) ;;
        modify (fun s => set_heap (delete con (heap s)) s) ;;
        ret None in
      let fail1 := emit (Dgram_Free con) ;; fail0 in
      let fail2 := emit (Writer_Free con) ;; emit (RecvAsync_Free con) ;; emit (SendAsync_Free con) ;; fail1 in
      let fail3 := emit (Recv_If_Free con) ;; emit (Send_Buffer_Free con) ;; fail2 in
      if negb (dgram_ok a) then fail0 else
      emit (Dgram_Init con (baddr_type (socks_server_addr g))) ;;
      if negb (reuse_ok a) then fail1 else
      emit (Dgram_SetReuseAddr con) ;;
      emit (Dgram_SetSendAddrs con peer) ;;
      emit (SendAsync_Init con (udp_mtu g)) ;;
      emit (RecvAsync_Init con (udp_mtu g)) ;;
      emit (Writer_Init con (udp_mtu g)) ;;
      if negb (send_buffer_ok a) then fail2 else
      emit (Send_Buffer_Init con CONNECTION_UDP_BUFFER_SIZE) ;;
      emit (Recv_If_Init con (udp_mtu g)) ;;
      if negb (recv_buffer_ok a) then fail3 else
      emit (Recv_Buffer_Init con) ;;
      s <- get ;;
      match t_insert (local_addr c) con (connections_tree (o s)) with
      | None => fail F_assert                    (** [ASSERT_EXECUTE(BAVL_Insert(...))] *)
      | Some ta =>
          modify (set_tables ta (connections_list (o s) ++ [con]) (num_connections (o s) + 1)) ;;
          ret (Some con)
      end
  end.

Definition connection_free (con : Z) : H unit :=
  c <- con_ con ;;
  s <- get ;;
  modify (set_tables (t_remove con (connections_tree (o s))) (list_remove con (connections_list (o s)))
            (num_connections (o s) - 1)) ;;
  emit (Recv_Buffer_Free con) ;;
  emit (Recv_If_Free con) ;;
  emit (Send_Buffer_Free con) ;;
  emit (Writer_Free con) ;;
  emit (RecvAsync_Free con) ;;
  emit (SendAsync_Free con) ;;
  emit (Dgram_Free con) ;;
  modify (fun s => set_heap (delete con (heap s)) s).

Definition remove_lru_connection (c : conaddr) (is_dns : bool) : H unit :=
  x <- find_connection c is_dns ;;
  assert (if x then false else true) ;;
  s <- get ;;
  assert (num_connections (o s) >? 0) ;;
  match connections_list (o s) with
  | [] => fail F_bounds                          (** the first node of an empty list *)
  | con :: _ => connection_free con
  end.

Definition reset_connection (con : Z) (c : conaddr) (is_dns : bool) : H unit :=
  x <- con_ con ;;
  set_con con (mk_con c (con_first_data_len x) is_dns (con_peer x)).

Definition move_to_end (con : Z) : H unit :=
  modify (fun s => set_tables (connections_tree (o s)) (list_remove con (connections_list (o s)) ++ [con])
                     (num_connections (o s)) s).

Definition SocksUdpGwClient_SubmitPacket (local remote : BAddr) (is_dns : bool) (data_len : Z)
    (a : alloc) (buf : option (list Z)) : H unit :=
  s <- get ;;
  assert ((baddr_type local =? 1) || (baddr_type local =? 2)) ;;
  assert ((baddr_type remote =? 1) || (baddr_type remote =? 2)) ;;
  assert (data_len >=? 0) ;;
  assert (data_len <=? udp_mtu (cfg (o s))) ;;
  let c := mk_conaddr local remote in
  con <- find_connection c is_dns ;;
  (if (if con then false else true) && (num_connections (o s) =? max_connections (cfg (o s)))
   then remove_lru_connection c is_dns else ret tt) ;;
  match con with
  | None => connection_init c data_len is_dns a ;; ret tt
  | Some con =>
      reset_connection con c is_dns ;;
      res <- connection_send con (pkt s) data_len buf ;;
      if res =? 1 then ret tt else move_to_end con
  end.

(** ** Receiving *)

Definition dgram_handler_received (con : Z) (data : list Z) : H unit :=
  let data_len := zlen data in
  c <- con_ con ;;
  s <- get ;;
  assert (data_len >=? 0) ;;
  assert (data_len <=? udpgw_mtu (cfg (o s))) ;;
  emit (Recv_Done con) ;;
  (** submits what is left at [off], unless it is too much *)
  let submit (off data_len : Z) : H unit :=
    if data_len >? udp_mtu (cfg (o s)) then ret tt else
    d <- get_bytes data off data_len ;;
    c <- con_ con ;;
    emit (Received (local_addr (con_conaddr c)) (remote_addr (con_conaddr c)) d) in
  if negb (con_is_dns c) then
    if data_len <? sizeof_socks_udp_header then ret tt else
    header <- get_bytes data 0 sizeof_socks_udp_header ;;
    let off := sizeof_socks_udp_header in
    let data_len := data_len - sizeof_socks_udp_header in
    let frag := le_val (mread header 2 1) in
    let atyp := le_val (mread header 3 1) in
    if negb (frag =? 0) then ret tt else
    addr <- read_addr (atyp =? SOCKS_ATYP_IPV6) data off data_len ;;
    match addr with
    | None => ret tt
    | Some (remote, n) =>
        set_con con (mk_con (mk_conaddr (local_addr (con_conaddr c)) remote) (con_first_data_len c) (con_is_dns c) (con_peer c)) ;;
        submit (off + n) (data_len - n)
    end
  else submit 0 data_len.

(** ** Init and Free *)

(** [o0]: the object's memory; [num_connections] is not set. *)
Definition SocksUdpGwClient_Init (udp_mtu max_connections : Z) (socks_server_addr dnsgw : BAddr) (o0 : t) : option t :=
  if negb (BAddr_IsInvalid socks_server_addr) then
    let max := if max_connections >? UINT16_MAX + 1 then UINT16_MAX + 1 else max_connections in
    let c := mk_config udp_mtu (udpgw_compute_mtu true udp_mtu) max socks_server_addr dnsgw in
    Some (mk c t_empty [] (num_connections o0))
  else None.                                     (** a failed [ASSERT] *)

Fixpoint free_connections (fuel : nat) : H unit :=
  match fuel with
  | O => fail F_fuel
  | S fuel =>
      s <- get ;;
      match connections_list (o s) with
      | [] => ret tt
      | con :: _ => connection_free con ;; free_connections fuel
      end
  end.

Definition SocksUdpGwClient_Free : H unit :=
  s <- get ;; free_connections (S (length (connections_list (o s)))).

(** ** Events

    [E_submit]: the datagram is in [pkt] until the first job of a new connection has
    run; jobs run before anything else happens. *)

Inductive event :=
  | E_submit (local remote : BAddr) (is_dns : bool) (data : list Z) (a : alloc) (buf : option (list Z))
  | E_first_job (con : Z) (buf : option (list Z))
  | E_recv (con : Z) (data : list Z).            (** a datagram on the connection's socket *)

Definition buf_fits (s : sys) (buf : option (list Z)) : bool :=
  match buf with Some m => zlen m =? udp_mtu (cfg (o s)) | None => true end.
(** The connection a new one replaces; [malloc] may give its memory again. *)
Definition lru (local : BAddr) (s : sys) : option Z :=
  match t_lookup local (connections_tree (o s)) with
  | None => if num_connections (o s) =? max_connections (cfg (o s)) then head (connections_list (o s)) else None
  | Some _ => None
  end.
Definition no_jobs (s : sys) : bool := match jobs s with [] => true | _ => false end.

Definition enabled (ev : event) (s : sys) : bool :=
  match ev with
  | E_submit local remote _ data a buf =>
      no_jobs s && inet_b local && inet_b remote && (zlen data <=? udp_mtu (cfg (o s))) && buf_fits s buf &&
      match ptr a with Some p => bool_decide (heap s !! p = None) || bool_decide (Some p = lru local s) | None => true end
  | E_first_job p buf => bool_decide (p ∈ jobs s) && buf_fits s buf
  | E_recv p data =>
      no_jobs s && bool_decide (is_Some (heap s !! p)) && (zlen data <=? udp_mtu (cfg (o s))) && bool_decide (bytes_ok data)
  end.

Definition deliver (ev : event) : H unit :=
  match ev with
  | E_submit local remote is_dns data a buf =>
      modify (set_pkt data) ;; SocksUdpGwClient_SubmitPacket local remote is_dns (zlen data) a buf
  | E_first_job p buf => modify (fun s => set_jobs (list_remove p (jobs s)) s) ;; connection_first_job_handler p buf
  | E_recv p data => dgram_handler_received p data
  end.

Fixpoint run_events (evs : list event) (s : sys) : option sys :=
  match evs with
  | [] => Some s
  | ev :: evs' =>
      if enabled ev s then
        match deliver ev s with Ok _ s' _ => run_events evs' s' | Fault _ => None end
      else Some s
  end.

(** Initialisation of an object in zeroed memory, then the events. *)
Definition run (udp_mtu max_connections : Z) (server dns : BAddr) (evs : list event) : option sys :=
  match SocksUdpGwClient_Init udp_mtu max_connections server dns
          (mk (mk_config 0 0 0 BADDR_NONE BADDR_NONE) t_empty [] 0) with
  | Some x => run_events evs (mk_sys x ∅ [] [])
  | None => None
  end.

(** ** Specification *)

Definition header_part (is_dns : bool) (remote : BAddr) : list Z :=
  if is_dns then [] else
  socks_udp_header_bytes 0 0 (if baddr_type remote =? 1 then SOCKS_ATYP_IPV4 else SOCKS_ATYP_IPV6) ++ addr_part remote.
Definition relay_packet (is_dns : bool) (remote : BAddr) (data : list Z) : list Z := header_part is_dns remote ++ data.

(** The datagrams whose packets fit into a buffer of the connection's writer. *)
Definition header_len (is_dns : bool) (remote : BAddr) : Z :=
  if is_dns then 0 else if baddr_type remote =? 1 then 10 else 22.
Definition fits (mtu : Z) (ev : event) : Prop :=
  match ev with
  | E_submit _ remote is_dns data _ _ => header_len is_dns remote + zlen data <= mtu
  | _ => True
  end.

(** The table of connections: local and remote address, DNS flag. *)
Definition entry_of (h : gmap Z connection) (p : Z) : BAddr * BAddr * bool :=
  let c := h !!! p in (local_addr (con_conaddr c), remote_addr (con_conaddr c), con_is_dns c).
Definition table (s : sys) : list (BAddr * BAddr * bool) := entry_of (heap s) <$> connections_list (o s).
Definition locals (l : list (BAddr * BAddr * bool)) : list BAddr := (fun e => e.1.1) <$> l.

(** Submitting a datagram: the table afterwards, and whether it is sent at once. *)
Inductive submits (max : Z) (e : BAddr * BAddr * bool) (l : list (BAddr * BAddr * bool)) (have_buf : bool) :
    list (BAddr * BAddr * bool) -> bool -> Prop :=
  | sub_sent l1 e0 l2 : l = l1 ++ e0 :: l2 -> e0.1.1 = e.1.1 -> have_buf = true ->
      submits max e l have_buf (l1 ++ l2 ++ [e]) true
  | sub_dropped l1 e0 l2 : l = l1 ++ e0 :: l2 -> e0.1.1 = e.1.1 -> have_buf = false ->
      submits max e l have_buf (l1 ++ e :: l2) false
  | sub_new : e.1.1 ∉ locals l -> submits max e l have_buf ((if zlen l =? max then tail l else l) ++ [e]) false
  | sub_none : e.1.1 ∉ locals l -> submits max e l have_buf (if zlen l =? max then tail l else l) false.

(** What a packet on a socket carries: the remote address, if it has a header, and
    the payload; [None]: it is malformed. *)
Definition relay_parse (is_dns : bool) (data : list Z) : option (option BAddr * list Z) :=
  if is_dns then Some (None, data) else
  match data with
  | _ :: _ :: frag :: atyp :: rest =>
      if negb (frag =? 0) then None else
      match parse_addr (atyp =? SOCKS_ATYP_IPV6) rest with
      | Some (a, n) => Some (Some a, drop (Z.to_nat n) rest)
      | None => None
      end
  | _ => None
  end.

Definition packets (tr : list out) : list (BAddr * list Z) :=
  omap (fun x => match x with Submit _ peer d => Some (peer, d) | _ => None end) tr.
Definition received (tr : list out) : list (BAddr * BAddr * list Z) :=
  omap (fun x => match x with Received l r d => Some (l, r, d) | _ => None end) tr.

(** ** Invariant *)

Record con_ok (c : connection) : Prop := mk_con_ok {
  co_local : inet (local_addr (con_conaddr c));
  co_remote : inet (remote_addr (con_conaddr c));
}.

(** The first job of [c] can run. *)
Definition job_ok (mtu : Z) (data : list Z) (c : connection) : Prop :=
  0 <= con_first_data_len c <= zlen data /\
  header_len (con_is_dns c) (remote_addr (con_conaddr c)) + con_first_data_len c <= mtu.

Record inv (s : sys) : Prop := mk_inv {
  i_mtu : 0 <= udp_mtu (cfg (o s)) <= udpgw_mtu (cfg (o s));
  i_pos : 0 < max_connections (cfg (o s));
  i_nodup : NoDup (connections_list (o s));
  i_heap p : is_Some (heap s !! p) <-> p ∈ connections_list (o s);
  i_con p c : heap s !! p = Some c -> con_ok c;
  i_num : num_connections (o s) = zlen (connections_list (o s));
  i_max : num_connections (o s) <= max_connections (cfg (o s));
  i_jobs p : p ∈ jobs s -> exists c, heap s !! p = Some c /\ job_ok (udp_mtu (cfg (o s))) (pkt s) c;
  i_tree : t_rep (connections_tree (o s)) ((fun p => (local_addr (con_conaddr (heap s !!! p)), p)) <$> connections_list (o s));
}.

Lemma relay_inv_con s p : inv s -> p ∈ connections_list (o s) -> heap s !! p = Some (heap s !!! p).
Proof. intros I Hp. apply (i_heap _ I) in Hp as [c Hc]. by rewrite (lookup_total_correct _ _ _ Hc). Qed.

Lemma relay_inv_con_ok s p : inv s -> p ∈ connections_list (o s) -> con_ok (heap s !!! p).
Proof. intros I Hp. eapply (i_con _ I), relay_inv_con; done. Qed.

Lemma find_local s a p :
  inv s -> baddr_ok a ->
  (t_lookup a (connections_tree (o s)) = Some p <-> p ∈ connections_list (o s) /\ local_addr (con_conaddr (heap s !!! p)) = a).
Proof. intros I Ha. by apply (lookup_key _ _ (fun p => local_addr (con_conaddr (heap s !!! p))) _ _ _ _ (i_tree _ I)). Qed.

Lemma find_local_none s a :
  inv s -> baddr_ok a -> (t_lookup a (connections_tree (o s)) = None <-> a ∉ locals (table s)).
Proof.
  intros I Ha. rewrite (lookup_key_none _ _ (fun p => local_addr (con_conaddr (heap s !!! p))) _ _ _ (i_tree _ I) Ha).
  unfold table, locals. by rewrite <- list_fmap_compose.
Qed.

Lemma find_connection_wp s c is_dns (Q : option Z -> sys -> list out -> Prop) :
  Q (t_lookup (local_addr c) (connections_tree (o s))) s [] -> wp (find_connection c is_dns) s Q.
Proof. intros HQ. unfold find_connection. do 2 wp_step. destruct (t_lookup _ _); cbn zeta; by wp_run. Qed.

Lemma relay_table_split s l1 p l2 :
  connections_list (o s) = l1 ++ p :: l2 ->
  table s = (entry_of (heap s) <$> l1) ++ entry_of (heap s) p :: (entry_of (heap s) <$> l2).
Proof. intros E. unfold table. by rewrite E, fmap_app, fmap_cons. Qed.

(** What no operation changes. *)
Definition frame (s s' : sys) : Prop := cfg (o s') = cfg (o s) /\ pkt s' = pkt s.

Lemma relay_keys_insert {B} (f : connection -> B) (h : gmap Z connection) p c (l : list Z) :
  p ∉ l -> (fun q => (f (<[p := c]> h !!! q), q)) <$> l = (fun q => (f (h !!! q), q)) <$> l.
Proof. apply (fmap_insert_ne (fun q c => (f c, q))). Qed.

Lemma relay_entries_insert (h : gmap Z connection) p c (l : list Z) : p ∉ l -> entry_of (<[p := c]> h) <$> l = entry_of h <$> l.
Proof. apply (fmap_insert_ne (fun _ c => (local_addr (con_conaddr c), remote_addr (con_conaddr c), con_is_dns c))). Qed.

Lemma relay_entry_insert (h : gmap Z connection) p c :
  entry_of (<[p := c]> h) p = (local_addr (con_conaddr c), remote_addr (con_conaddr c), con_is_dns c).
Proof. unfold entry_of. by rewrite lookup_total_insert_eq. Qed.

(** ** Sending *)

Lemma zlen_header_part is_dns remote : inet remote -> zlen (header_part is_dns remote) = header_len is_dns remote.
Proof.
  intros Hr. unfold header_part, header_len. destruct is_dns; [done|].
  rewrite zlen_app, (zlen_addr_part _ Hr). change (zlen (socks_udp_header_bytes _ _ _)) with 4.
  by destruct (baddr_type remote =? 1).
Qed.

Definition buf_ok (s : sys) (buf : option (list Z)) : Prop :=
  match buf with Some m => zlen m = udp_mtu (cfg (o s)) | None => True end.

(** The header in front of the payload. *)
Lemma write_header_wp (s : sys) is_dns remote m :
  inet remote -> header_len is_dns remote <= zlen m ->
  wp (if negb is_dns then
        m <- put m 0 (socks_udp_header_bytes 0 0 (if baddr_type remote =? 1 then SOCKS_ATYP_IPV4 else SOCKS_ATYP_IPV6)) ;;
        match remote with
        | BADDR_IPV4 ip port =>
            m <- put m (0 + sizeof_socks_udp_header) (addr_ipv4_bytes ip port) ;;
            ret (m, 0 + sizeof_socks_udp_header + sizeof_udpgw_addr_ipv4)
        | BADDR_IPV6 ip port =>
            m <- put m (0 + sizeof_socks_udp_header) (addr_ipv6_bytes ip port) ;;
            ret (m, 0 + sizeof_socks_udp_header + sizeof_udpgw_addr_ipv6)
        | _ => ret (m, 0 + sizeof_socks_udp_header)
        end
      else ret (m, 0)) s
    (fun mp s' (tr : list out) => s' = s /\ tr = [] /\ zlen mp.1 = zlen m /\ mp.2 = header_len is_dns remote /\
       mread mp.1 0 mp.2 = header_part is_dns remote).
Proof.
  intros Hr Hl. pose proof (zlen_addr_part _ Hr) as Ha. unfold header_part, header_len in *.
  destruct is_dns; cbn [negb]; [by wp_step|].
  unfold sizeof_socks_udp_header, sizeof_udpgw_addr_ipv4, sizeof_udpgw_addr_ipv6. destruct Hr as [_ Ht].
  destruct remote as [|ip q|ip q|]; cbn [baddr_type] in *; try lia; cbn [Z.eqb Pos.eqb] in *.
  - wp_step. apply wp_put; [lia | change (zlen (socks_udp_header_bytes _ _ _)) with 4; lia |].
    intros m1 Hm1 Hr1. change (zlen (socks_udp_header_bytes _ _ _)) with 4 in Hr1. wp_step.
    cbn [addr_part] in *. apply wp_put; [lia | lia |]. intros m2 Hm2 Hr2. rewrite Ha in Hr2. wp_step. cbn [fst snd].
    split_and!; try done; [congruence|]. rewrite Hr1 in Hr2. exact Hr2.
  - wp_step. apply wp_put; [lia | change (zlen (socks_udp_header_bytes _ _ _)) with 4; lia |].
    intros m1 Hm1 Hr1. change (zlen (socks_udp_header_bytes _ _ _)) with 4 in Hr1. wp_step.
    cbn [addr_part] in *. apply wp_put; [lia | lia |]. intros m2 Hm2 Hr2. rewrite Ha in Hr2. wp_step. cbn [fst snd].
    split_and!; try done; [congruence|]. rewrite Hr1 in Hr2. exact Hr2.
Qed.

Lemma header_len_nonneg is_dns remote : 0 <= header_len is_dns remote.
Proof. unfold header_len. destruct is_dns; [done|]. by destruct (_ =? 1). Qed.

Lemma relay_connection_send_wp s p c data n buf :
  heap s !! p = Some c -> inet (remote_addr (con_conaddr c)) -> 0 <= n <= zlen data ->
  header_len (con_is_dns c) (remote_addr (con_conaddr c)) + n <= udp_mtu (cfg (o s)) -> buf_ok s buf ->
  wp (connection_send p data n buf) s (fun r s' tr => s' = s /\
    match buf with
    | Some _ => r = 0 /\ tr = [Submit p (con_peer c) (relay_packet (con_is_dns c) (remote_addr (con_conaddr c)) (mread data 0 n))]
    | None => r = 1 /\ tr = []
    end).
Proof.
  intros Hc Hr Hn Hl Hb. pose proof (header_len_nonneg (con_is_dns c) (remote_addr (con_conaddr c))) as Hh.
  unfold connection_send. wp_step. eapply wp_load; [exact Hc|]. destruct buf as [m|]; [|by wp_step]. cbn in Hb.
  wp_step. eapply wp_mono; [apply write_header_wp; [done | lia]|].
  intros mp s' tr (-> & -> & Hm & Hp & Hrd). wp_step. apply wp_get_bytes; [lia|].
  assert (Hz : zlen (mread data 0 n) = n) by (rewrite zlen_mread; lia).
  wp_step. apply wp_put; [lia | lia |]. intros m1 Hm1 Hr1. rewrite Hz, Hrd in Hr1.
  do 2 wp_step. wp_step. wp_step; [lia|]. wp_step. wp_step; [lia|]. wp_run. split_and!; try done.
  cbn [app]. by rewrite Hr1.
Qed.

(** ** Changes of the table *)

Lemma relay_move_to_end_wp s p l1 l2 (Q : unit -> sys -> list out -> Prop) :
  inv s -> connections_list (o s) = l1 ++ p :: l2 ->
  (forall s', inv s' -> frame s s' -> heap s' = heap s -> jobs s' = jobs s ->
     table s' = (entry_of (heap s) <$> l1) ++ (entry_of (heap s) <$> l2) ++ [entry_of (heap s) p] -> Q tt s' []) ->
  wp (move_to_end p) s Q.
Proof.
  intros I E HQ. unfold move_to_end. wp_step. pose proof (i_nodup _ I) as Hnd. rewrite E in Hnd.
  rewrite E, (list_remove_split p l1 l2 Hnd).
  assert (Hp : l1 ++ p :: l2 ≡ₚ (l1 ++ l2) ++ [p]) by solve_Permutation.
  apply HQ; try done.
  - destruct I. split; cbn in *; try done.
    + by rewrite <- Hp.
    + intros q. by rewrite i_heap0, E, Hp.
    + rewrite i_num0, E. unfold zlen. by rewrite Hp.
    + rewrite E in i_tree0. eapply t_rep_perm; [|exact i_tree0]. by rewrite Hp.
  - unfold table. cbn. by rewrite !fmap_app, app_assoc.
Qed.

(** Replacing the data of a connection whose job is not pending, same local address. *)
Lemma inv_set_con s p c c' :
  inv s -> heap s !! p = Some c -> con_ok c' -> local_addr (con_conaddr c') = local_addr (con_conaddr c) -> p ∉ jobs s ->
  inv (set_heap (<[p := c']> (heap s)) s).
Proof.
  intros I Hc Hok Hl Hj. destruct I. split; cbn; try done.
  - intros q. rewrite lookup_insert_is_Some, <- i_heap0. destruct (decide (p = q)) as [<-|]; naive_solver.
  - intros q c1. destruct (decide (q = p)) as [->|Hq].
    + rewrite lookup_insert_eq. by intros [= <-].
    + rewrite lookup_insert_ne by done. apply i_con0.
  - intros q Hq. destruct (decide (q = p)) as [->|]; [done|]. rewrite lookup_insert_ne by done. by apply i_jobs0.
  - replace (_ <$> _) with ((fun q => (local_addr (con_conaddr (heap s !!! q)), q)) <$> connections_list (o s)); [done|].
    apply fmap_ext_in. intros q _. destruct (decide (q = p)) as [->|].
    + by rewrite lookup_total_insert_eq, Hl, (lookup_total_correct _ _ _ Hc).
    + by rewrite lookup_total_insert_ne.
Qed.

Lemma relay_connection_free_wp s p (Q : unit -> sys -> list out -> Prop) :
  inv s -> p ∈ connections_list (o s) -> p ∉ jobs s ->
  (forall s', inv s' -> frame s s' -> jobs s' = jobs s -> heap s' = delete p (heap s) ->
     connections_list (o s') = list_remove p (connections_list (o s)) ->
     Q tt s' [Recv_Buffer_Free p; Recv_If_Free p; Send_Buffer_Free p; Writer_Free p; RecvAsync_Free p; SendAsync_Free p; Dgram_Free p]) ->
  wp (connection_free p) s Q.
Proof.
  intros I Hp Hj HQ. unfold connection_free. wp_step. eapply wp_load; [by apply relay_inv_con|].
  do 19 wp_step. apply HQ; try done. destruct I. split; cbn; try done.
  - by apply NoDup_list_remove.
  - intros q. rewrite elem_of_list_remove, <- i_heap0, lookup_delete_is_Some. naive_solver.
  - intros q c [_ Hq]%lookup_delete_Some. by apply (i_con0 q).
  - rewrite zlen_list_remove by done. lia.
  - lia.
  - intros q Hq. destruct (decide (q = p)) as [->|]; [done|]. rewrite lookup_delete_ne by done. by apply i_jobs0.
  - rewrite (fmap_delete_ne (fun q c => (local_addr (con_conaddr c), q))) by (by intros []%elem_of_list_remove).
    rewrite <- filter_keys. by apply (t_remove_keys (fun q => _)).
Qed.

(** What a successful [malloc] returns is not in use. *)
Definition ptr_ok (s : sys) (a : alloc) : Prop := match ptr a with Some p => heap s !! p = None | None => True end.
Definition alloc_ok (a : alloc) : bool :=
  match ptr a with Some _ => dgram_ok a && reuse_ok a && send_buffer_ok a && recv_buffer_ok a | None => false end.

(** The address a new connection sends to. *)
Definition peer_of (s : sys) (is_dns : bool) : BAddr := if is_dns then dnsgw (cfg (o s)) else socks_server_addr (cfg (o s)).

Lemma undone s p c : heap s !! p = None -> p ∉ jobs s ->
  set_heap (delete p (<[p := c]> (heap s))) (set_jobs (list_remove p (p :: jobs s)) (set_heap (<[p := c]> (heap s)) s)) = s.
Proof.
  intros Hp Hj. unfold list_remove. rewrite filter_cons_False by (intros ?; done). change (filter _ (jobs s)) with (list_remove p (jobs s)).
  rewrite list_remove_notin, delete_insert_eq, delete_id by done. by destruct s.
Qed.

Lemma relay_fresh_notin s p : inv s -> heap s !! p = None -> p ∉ connections_list (o s) /\ p ∉ jobs s.
Proof.
  intros I Hp. split.
  - intros Hin. apply (i_heap _ I) in Hin as [? ?]. congruence.
  - intros Hin. apply (i_jobs _ I) in Hin as (? & ? & _). congruence.
Qed.

Lemma inv_new s p c n is_dns peer ta :
  inv s -> inet (local_addr c) -> inet (remote_addr c) -> 0 <= n <= zlen (pkt s) ->
  header_len is_dns (remote_addr c) + n <= udp_mtu (cfg (o s)) ->
  num_connections (o s) < max_connections (cfg (o s)) -> heap s !! p = None ->
  t_rep ta ((local_addr c, p) :: ((fun q => (local_addr (con_conaddr (heap s !!! q)), q)) <$> connections_list (o s))) ->
  inv (set_tables ta (connections_list (o s) ++ [p]) (num_connections (o s) + 1)
         (set_jobs (p :: jobs s) (set_heap (<[p := mk_con c n is_dns peer]> (heap s)) s))).
Proof.
  intros I Hl Hr Hn Hh Hnum Hp R. destruct (relay_fresh_notin s p I Hp) as [Hpn Hpj]. destruct I. split; cbn; try done.
  - apply NoDup_app. split_and!; [done | | apply NoDup_singleton]. intros x Hx ->%list_elem_of_singleton. done.
  - intros q. rewrite lookup_insert_is_Some, i_heap0, elem_of_app, list_elem_of_singleton.
    destruct (decide (p = q)); naive_solver.
  - intros q c'. destruct (decide (q = p)) as [->|Hq].
    + rewrite lookup_insert_eq. intros [= <-]. by split.
    + rewrite lookup_insert_ne by done. apply i_con0.
  - rewrite zlen_app. change (zlen [p]) with 1. lia.
  - lia.
  - intros q Hq. destruct (decide (q = p)) as [->|Hne].
    + rewrite lookup_insert_eq. by eexists.
    + rewrite lookup_insert_ne by done. apply elem_of_cons in Hq as [?|Hq]; [done|]. by apply i_jobs0.
  - rewrite fmap_app, (relay_keys_insert (fun c => local_addr (con_conaddr c))) by done. cbn.
    rewrite lookup_total_insert_eq. cbn. eapply t_rep_perm; [|exact R]. by rewrite Permutation_app_comm.
Qed.

Lemma relay_connection_init_wp s c n is_dns a (Q : option Z -> sys -> list out -> Prop) :
  inv s -> inet (local_addr c) -> inet (remote_addr c) -> 0 <= n <= zlen (pkt s) ->
  header_len is_dns (remote_addr c) + n <= udp_mtu (cfg (o s)) ->
  num_connections (o s) < max_connections (cfg (o s)) -> local_addr c ∉ locals (table s) -> ptr_ok s a ->
  (alloc_ok a = false -> forall tr, packets tr = [] -> received tr = [] -> Q None s tr) ->
  (alloc_ok a = true -> forall p s' tr, inv s' -> frame s s' -> jobs s' = p :: jobs s -> heap s !! p = None ->
     heap s' = <[p := mk_con c n is_dns (peer_of s is_dns)]> (heap s) ->
     connections_list (o s') = connections_list (o s) ++ [p] -> packets tr = [] -> received tr = [] -> Q (Some p) s' tr) ->
  wp (connection_init c n is_dns a) s Q.
Proof.
  intros I Hl Hr Hn Hh Hnum Hnew Hptr HN HS. unfold connection_init, ptr_ok in *.
  destruct (ptr a) as [p|] eqn:Ep; [|wp_step; apply HN; [by unfold alloc_ok; rewrite Ep | done | done]]. destruct (relay_fresh_notin s p I Hptr) as [Hpl Hpj].
  assert (HF : forall st tr, alloc_ok a = false -> st = s -> packets tr = [] -> received tr = [] -> Q None st tr).
  { intros st tr ? -> ? ?. by apply HN. }
  unfold alloc_ok in *. rewrite Ep in *.
  do 8 wp_step. cbn zeta. destruct (dgram_ok a); cbn [negb andb] in *; [|wp_run; apply HF; (exact (undone s p _ Hptr Hpj) || done)].
  do 2 wp_step. destruct (reuse_ok a); cbn [negb andb] in *; [|wp_run; apply HF; (exact (undone s p _ Hptr Hpj) || done)].
  do 10 wp_step. destruct (send_buffer_ok a); cbn [negb andb] in *; [|wp_run; apply HF; (exact (undone s p _ Hptr Hpj) || done)].
  do 4 wp_step. destruct (recv_buffer_ok a); cbn [negb andb] in *; [|wp_run; apply HF; (exact (undone s p _ Hptr Hpj) || done)].
  do 4 wp_step. destruct (t_insert_rep _ _ (local_addr c) p (i_tree _ I) (inet_ok _ Hl)) as (ta & Ea & Ra).
  { unfold table, locals in Hnew. by rewrite <- !list_fmap_compose in *. }
  { rewrite <- list_fmap_compose. intros (q & -> & Hq)%list_elem_of_fmap. done. }
  cbn [o set_jobs set_heap]. rewrite Ea. do 3 wp_step.
  apply (HS eq_refl p); try done. by apply (inv_new s).
Qed.

Lemma remove_lru_connection_wp s c is_dns (Q : unit -> sys -> list out -> Prop) :
  inv s -> jobs s = [] -> baddr_ok (local_addr c) -> local_addr c ∉ locals (table s) -> 0 < num_connections (o s) ->
  (forall p s' tr, inv s' -> frame s s' -> jobs s' = [] -> head (connections_list (o s)) = Some p ->
     heap s' = delete p (heap s) -> table s' = tail (table s) -> packets tr = [] -> received tr = [] -> Q tt s' tr) ->
  wp (remove_lru_connection c is_dns) s Q.
Proof.
  intros I Hj Hc Hl Hn HQ. unfold remove_lru_connection. wp_step. apply find_connection_wp.
  apply (find_local_none _ _ I Hc) in Hl as ->. do 2 wp_step; [done|]. do 4 wp_step; [lia|].
  pose proof (i_num _ I) as Hnum. pose proof (i_nodup _ I) as Hnd.
  destruct (connections_list (o s)) as [|p l] eqn:E; [change (zlen []) with 0 in Hnum; lia|].
  apply relay_connection_free_wp; [done | rewrite E; by left | rewrite Hj; by intros ?%elem_of_nil |].
  intros s' I' Hf Hj' Hh El. rewrite E, (list_remove_split p [] l Hnd : list_remove p (p :: l) = l) in El.
  eapply (HQ p); try done; [congruence|]. unfold table. rewrite El, E, Hh. cbn [fmap list_fmap tail].
  apply NoDup_cons in Hnd as [Hnp _].
  by apply (fmap_delete_ne (fun _ c => (local_addr (con_conaddr c), remote_addr (con_conaddr c), con_is_dns c))).
Qed.

Lemma table_new (s s' : sys) p c :
  connections_list (o s') = connections_list (o s) ++ [p] -> heap s' = <[p := c]> (heap s) -> p ∉ connections_list (o s) ->
  table s' = table s ++ [(local_addr (con_conaddr c), remote_addr (con_conaddr c), con_is_dns c)].
Proof.
  intros El Eh Hp. unfold table. rewrite El, Eh, fmap_app, relay_entries_insert by done. cbn. by rewrite relay_entry_insert.
Qed.

Lemma zlen_table s : inv s -> zlen (table s) = num_connections (o s).
Proof. intros I. unfold table. by rewrite zlen_fmap, (i_num _ I). Qed.

Definition is_some {A} (x : option A) : bool := if x then true else false.

(** What a submit with a new connection leaves. *)
Definition new_job (s s' : sys) (is_dns : bool) (local remote : BAddr) (n : Z) : Prop :=
  exists p, jobs s' = [p] /\ heap s' !! p = Some (mk_con (mk_conaddr local remote) n is_dns (peer_of s is_dns)).

(** A connection that is there is used again. *)
Lemma resubmit_wp s p c local remote is_dns n buf (Q : unit -> sys -> list out -> Prop) :
  inv s -> jobs s = [] -> heap s !! p = Some c -> local_addr (con_conaddr c) = local -> inet remote ->
  n = zlen (pkt s) -> header_len is_dns remote + n <= udp_mtu (cfg (o s)) -> buf_ok s buf ->
  (forall s' tr sent, inv s' -> frame s s' -> jobs s' = [] -> received tr = [] ->
     submits (max_connections (cfg (o s))) (local, remote, is_dns) (table s) (is_some buf) (table s') sent ->
     packets tr = (if sent then [(con_peer c, relay_packet is_dns remote (pkt s))] else []) -> Q tt s' tr) ->
  wp (reset_connection p (mk_conaddr local remote) is_dns ;;
      res <- connection_send p (pkt s) n buf ;;
      if res =? 1 then ret tt else move_to_end p) s Q.
Proof.
  intros I Hj Hc Hl Hr -> Hh Hb HQ. pose proof (zlen_nonneg (pkt s)) as Hn0.
  unfold reset_connection, set_con, con_. do 2 wp_step. eapply wp_load; [exact Hc|]. wp_step.
  set (c' := mk_con (mk_conaddr local remote) (con_first_data_len c) is_dns (con_peer c)).
  assert (Hco : con_ok c) by by eapply i_con.
  assert (I1 : inv (set_heap (<[p := c']> (heap s)) s)).
  { apply (inv_set_con s p c); try done; [|by rewrite Hj; intros ?%elem_of_nil]. split; [|done]. cbn. rewrite <- Hl. apply Hco. }
  assert (Hp : p ∈ connections_list (o s)) by by apply (i_heap _ I); exists c.
  pose proof (i_nodup _ I) as Hnd. apply list_elem_of_split in Hp as (l1 & l2 & E).
  assert (Hns : p ∉ l1 /\ p ∉ l2).
  { rewrite E in Hnd. apply NoDup_app in Hnd as (_ & Hd & [? _]%NoDup_cons). split; [|done]. intros H1. apply (Hd p H1). by left. }
  assert (He : entry_of (heap s) p = (local, remote_addr (con_conaddr c), con_is_dns c)).
  { unfold entry_of. by rewrite (lookup_total_correct _ _ _ Hc), Hl. }
  wp_step. eapply wp_mono.
    apply (relay_connection_send_wp _ p c'); cbn; try done; try apply lookup_insert_eq; try lia.
  intros r s1 tr [-> Ht]. cbn [con_is_dns con_peer con_conaddr remote_addr c'] in Ht. destruct buf as [m|].
  - destruct Ht as [-> ->]. cbn [Z.eqb]. rewrite mread_all. apply (relay_move_to_end_wp _ p l1 l2 _ I1 E).
    intros s' I' Hf _ Hj' Ht. cbn [heap set_heap] in Ht. rewrite !relay_entries_insert, relay_entry_insert in Ht by apply Hns.
    apply (HQ _ _ true); try done; [by rewrite Hj'|]. rewrite Ht. by eapply sub_sent; [by apply relay_table_split | rewrite He |].
  - destruct Ht as [-> ->]. change (1 =? 1) with true. cbn iota. wp_step. apply (HQ _ _ false); try done.
    rewrite (relay_table_split (set_heap _ s) l1 p l2 E). cbn [heap set_heap]. rewrite !relay_entries_insert, relay_entry_insert by apply Hns.
    by eapply sub_dropped; [by apply relay_table_split | rewrite He |].
Qed.

Definition room (max : Z) (l : list (BAddr * BAddr * bool)) : list (BAddr * BAddr * bool) :=
  if zlen l =? max then tail l else l.

Definition submit_post (s : sys) (local remote : BAddr) (is_dns : bool) (data : list Z) (a : alloc) (have_buf : bool)
    (s' : sys) (tr : list out) : Prop :=
  exists sent, submits (max_connections (cfg (o s))) (local, remote, is_dns) (table s) have_buf (table s') sent /\
    received tr = [] /\
    (if sent then exists p c, heap s !! p = Some c /\ local_addr (con_conaddr c) = local /\
       packets tr = [(con_peer c, relay_packet is_dns remote data)]
     else packets tr = []) /\
    (if bool_decide (local ∈ locals (table s)) then jobs s' = []
     else if alloc_ok a
     then new_job s s' is_dns local remote (zlen data) /\
          table s' = room (max_connections (cfg (o s))) (table s) ++ [(local, remote, is_dns)]
     else jobs s' = []).

Definition ptr_free (s : sys) (local : BAddr) (a : alloc) : Prop :=
  match ptr a with Some p => heap s !! p = None \/ Some p = lru local s | None => True end.

Lemma relay_submit_wp s local remote is_dns a buf :
  inv s -> jobs s = [] -> inet local -> inet remote -> zlen (pkt s) <= udp_mtu (cfg (o s)) ->
  header_len is_dns remote + zlen (pkt s) <= udp_mtu (cfg (o s)) -> buf_ok s buf -> ptr_free s local a ->
  wp (SocksUdpGwClient_SubmitPacket local remote is_dns (zlen (pkt s)) a buf) s
    (fun _ s' tr => inv s' /\ frame s s' /\ submit_post s local remote is_dns (pkt s) a (is_some buf) s' tr).
Proof.
  intros I Hj Hl Hr Hd Hh Hb Hp. pose proof (zlen_nonneg (pkt s)) as Hn0. pose proof (inet_ok _ Hl) as Hlo.
  unfold SocksUdpGwClient_SubmitPacket. wp_step. wp_step.
  wp_step. wp_step; [destruct Hl as [_ [-> | ->]]; done|]. wp_step. wp_step; [destruct Hr as [_ [-> | ->]]; done|].
  wp_step. wp_step; [lia|]. wp_step. wp_step; [lia|]. wp_step. apply find_connection_wp. cbn [local_addr].
  pose proof (find_local s local) as Hfind. pose proof (find_local_none s local I Hlo) as Hnone.
  unfold ptr_free, lru in Hp.
  destruct (t_lookup local (connections_tree (o s))) as [p|] eqn:Et.
  - destruct (Hfind p I Hlo) as [[Hpl Hpa] _]; [done|]. cbn [andb]. do 2 wp_step.
    eapply (resubmit_wp s p (heap s !!! p) local); try done; [by apply relay_inv_con|].
    intros s' tr sent I' Hf Hj' Hrt Hs Ht. split_and!; try done. exists sent. split_and!; try done.
    + destruct sent; [|done]. exists p, (heap s !!! p). split_and!; try done. by apply relay_inv_con.
    + rewrite bool_decide_true; [done|]. unfold table, locals. rewrite <- list_fmap_compose. apply list_elem_of_fmap. by exists p.
  - destruct Hnone as [Hnew _]. specialize (Hnew eq_refl). cbn [andb]. rewrite <- (zlen_table s I) in Hp.
    pose proof (zlen_table s I) as Hz.
    assert (Hgo : forall s1 tr1, inv s1 -> frame s s1 -> jobs s1 = [] -> table s1 = room (max_connections (cfg (o s))) (table s) ->
      num_connections (o s1) < max_connections (cfg (o s1)) -> local ∉ locals (table s1) -> ptr_ok s1 a ->
      packets tr1 = [] -> received tr1 = [] ->
      wp (connection_init (mk_conaddr local remote) (zlen (pkt s)) is_dns a ;; ret tt) s1
        (fun _ s' tr => inv s' /\ frame s s' /\ submit_post s local remote is_dns (pkt s) a (is_some buf) s' (tr1 ++ tr))).
    { intros s1 tr1 I1 [Ec Ep] Hj1 Ht1 Hn1 Hl1 Hp1 Hk1 Hr1. wp_step.
      apply relay_connection_init_wp; cbn [local_addr remote_addr]; rewrite ?Ec, ?Ep in *; try done; try lia.
      - intros Ha tr Hk Hrt. wp_step. split_and!; [done | done |]. exists false. rewrite app_nil_r.
        unfold packets, received in *. rewrite !omap_app, Hk1, Hr1, Hk, Hrt. split_and!; try done.
        + rewrite Ht1. by apply sub_none.
        + by rewrite bool_decide_false, Ha by done.
      - intros Ha p s2 tr I2 Hf2 Hj2 Hfree Hh2 Hl2 Hk Hrt. wp_step.
        destruct (relay_fresh_notin s1 p I1 Hfree) as [Hpn _].
        assert (Ht2 : table s2 = room (max_connections (cfg (o s))) (table s) ++ [(local, remote, is_dns)]).
        { rewrite (table_new s1 s2 p _ Hl2 Hh2 Hpn), Ht1. done. }
        split_and!; [done | destruct Hf2; split; congruence |]. exists false. rewrite app_nil_r.
        unfold packets, received in *. rewrite !omap_app, Hk1, Hr1, Hk, Hrt. split_and!; try done.
        + rewrite Ht2. by apply sub_new.
        + rewrite bool_decide_false, Ha by done. split; [|congruence]. exists p. split; [by rewrite Hj2, Hj1|].
          rewrite Hh2, lookup_insert_eq. unfold peer_of. by rewrite Ec. }
    unfold room in Hgo. rewrite Hz in *. wp_step.
    destruct (Z.eqb_spec (num_connections (o s)) (max_connections (cfg (o s)))) as [Em|Em].
    + pose proof (i_pos _ I). apply remove_lru_connection_wp; try done; [lia|].
      intros p s1 tr1 I1 Hf1 Hj1 Hhd Hh1 Ht1 Hk1 Hr1. apply Hgo; try done.
      * rewrite <- (zlen_table s1 I1), Ht1. destruct Hf1 as [-> _]. rewrite <- Em, <- Hz.
        destruct (table s); [change (zlen []) with 0 in *; lia|]. cbn [tail]. rewrite zlen_cons. lia.
      * rewrite Ht1. intros Hin. apply Hnew. destruct (table s); [done|]. by right.
      * unfold ptr_ok. destruct (ptr a) as [q|]; [|done]. rewrite Hh1. destruct Hp as [Hp|Hp].
        -- rewrite lookup_delete_None. by right.
        -- assert (q = p) as -> by congruence. apply lookup_delete_eq.
    + wp_step. apply (Hgo s []); try done; [pose proof (i_max _ I); lia|].
      unfold ptr_ok. destruct (ptr a); [|done]. by destruct Hp.
Qed.

(** ** First jobs *)

Definition first_job_post (s : sys) (p : Z) (have_buf : bool) (s' : sys) (tr : list out) : Prop :=
  inv s' /\ frame s s' /\ heap s' = heap s /\ table s' = table s /\ jobs s' = list_remove p (jobs s) /\ received tr = [] /\
  forall c, heap s !! p = Some c ->
    packets tr = (if have_buf then
      [(con_peer c, relay_packet (con_is_dns c) (remote_addr (con_conaddr c)) (mread (pkt s) 0 (con_first_data_len c)))]
      else []).

Lemma relay_first_job_wp s p buf :
  inv s -> p ∈ jobs s -> buf_ok s buf ->
  wp (deliver (E_first_job p buf)) s (fun _ s' tr => first_job_post s p (is_some buf) s' tr).
Proof.
  intros I Hp Hb. destruct (i_jobs _ I p Hp) as (c & Hc & Hn & Hh). cbn [deliver]. do 2 wp_step.
  assert (I1 : inv (set_jobs (list_remove p (jobs s)) s)).
  { destruct I. split; cbn; try done. intros q [_ Hq]%elem_of_list_remove. by apply i_jobs0. }
  unfold connection_first_job_handler. wp_step. eapply wp_load; [exact Hc|]. do 3 wp_step. eapply wp_mono.
  { apply (relay_connection_send_wp _ p c); try done. by apply (i_con _ I p). }
  intros r s' tr [-> Ht]. wp_step. split_and!; try done; destruct buf; destruct Ht as [_ ->]; try done;
    intros c' Hc'; assert (c' = c) as -> by congruence; done.
Qed.

(** ** Receiving *)

Definition recv_post (s : sys) (p : Z) (data : list Z) (s' : sys) (tr : list out) : Prop :=
  exists c, heap s !! p = Some c /\ packets tr = [] /\
    match relay_parse (con_is_dns c) data with
    | None => s' = s /\ received tr = []
    | Some (ra, d) =>
        let remote := default (remote_addr (con_conaddr c)) ra in
        received tr = [(local_addr (con_conaddr c), remote, d)] /\ inet remote /\ zlen d <= udp_mtu (cfg (o s)) /\
        heap s' = <[p := mk_con (mk_conaddr (local_addr (con_conaddr c)) remote) (con_first_data_len c) (con_is_dns c) (con_peer c)]> (heap s) /\
        connections_list (o s') = connections_list (o s)
    end.

Lemma con_eta c : mk_con (mk_conaddr (local_addr (con_conaddr c)) (remote_addr (con_conaddr c))) (con_first_data_len c)
  (con_is_dns c) (con_peer c) = c.
Proof. by destruct c as [[] ? ? ?]. Qed.

Lemma relay_parse_ok is_dns data ra d : bytes_ok data -> relay_parse is_dns data = Some (ra, d) ->
  zlen d <= zlen data /\ match ra with Some a => inet a | None => True end.
Proof.
  intros Hb. unfold relay_parse. destruct is_dns; [by intros [= <- <-]|].
  destruct data as [|b0 [|b1 [|b2 [|b3 rest]]]]; try done. destruct (negb _); [done|].
  destruct (parse_addr _ rest) as [[a n]|] eqn:E; [|done]. intros [= <- <-].
  assert (Hr : bytes_ok rest) by (apply (Forall_drop _ 4) in Hb; exact Hb).
  pose proof (parse_addr_ok _ _ _ _ Hr E) as [Ha Hn]. split.
  - unfold zlen. rewrite length_drop. cbn [length]. lia.
  - split; [done|]. unfold parse_addr in E. destruct (b3 =? _); destruct (_ <? _); try done; injection E as <- _; cbn; lia.
Qed.

Lemma relay_recv_wp s p data :
  inv s -> jobs s = [] -> is_Some (heap s !! p) -> zlen data <= udp_mtu (cfg (o s)) -> bytes_ok data ->
  wp (dgram_handler_received p data) s (fun _ s' tr => inv s' /\ frame s s' /\ jobs s' = [] /\ recv_post s p data s' tr).
Proof.
  intros I Hj [c Hc] Hz Hb. pose proof (zlen_nonneg data) as Hn0. pose proof (i_mtu _ I) as Hm.
  assert (Hco : con_ok c) by by eapply i_con.
  unfold dgram_handler_received, con_. cbn zeta. wp_step. eapply wp_load; [exact Hc|]. wp_step. wp_step. wp_step. wp_step; [lia|].
  wp_step. wp_step; [lia|]. do 2 wp_step. destruct (con_is_dns c) eqn:Ed; cbn [negb].
  - replace (zlen data >? _) with false by lia. wp_step. apply wp_get_bytes; [lia|]. wp_step. eapply wp_load; [exact Hc|].
    wp_step. split_and!; try done. exists c. rewrite Ed. cbn [relay_parse]. rewrite mread_all. split_and!; try done.
    + cbn. apply Hco.
    + cbn. rewrite <- Ed, con_eta. by rewrite insert_id.
  - unfold sizeof_socks_udp_header. destruct (Z.ltb_spec (zlen data) 4).
    { wp_step. split_and!; try done. exists c. rewrite Ed. split_and!; try done.
      destruct data as [|? [|? [|? [|? ?]]]]; try done. unfold zlen in *. cbn [length] in *. lia. }
    destruct data as [|b0 [|b1 [|b2 [|b3 rest]]]]; try (unfold zlen in *; cbn [length] in *; lia).
    wp_step. apply wp_get_bytes; [lia|]. change (le_val (mread (mread _ 0 4) 2 1)) with (le_val [b2]).
    change (le_val (mread (mread _ 0 4) 3 1)) with (le_val [b3]). rewrite !le_val_1.
    pose proof (relay_parse_ok false (b0 :: b1 :: b2 :: b3 :: rest)) as Hpo.
    assert (Hrp : relay_parse (con_is_dns c) (b0 :: b1 :: b2 :: b3 :: rest) = relay_parse false (b0 :: b1 :: b2 :: b3 :: rest)) by by rewrite Ed.
    cbn [relay_parse] in Hpo, Hrp.
    destruct (negb (b2 =? 0)) eqn:Ef.
    { wp_step. split_and!; try done. exists c. by rewrite Hrp. }
    wp_step. apply read_addr_wp; [lia | lia |]. change (drop (Z.to_nat 4) _) with rest.
    destruct (parse_addr (b3 =? SOCKS_ATYP_IPV6) rest) as [[remote n]|] eqn:Ep.
    2: { wp_step. split_and!; try done. exists c. by rewrite Hrp. }
    destruct (Hpo _ _ Hb eq_refl) as [Hd Hr].
    assert (Hrb : bytes_ok rest) by (apply (Forall_drop _ 4) in Hb; exact Hb).
    pose proof (parse_addr_ok _ _ _ _ Hrb Ep) as [_ Hn].
    assert (Hzr : zlen (b0 :: b1 :: b2 :: b3 :: rest) = 4 + zlen rest) by (unfold zlen; cbn [length]; lia).
    unfold set_con. do 2 wp_step. rewrite Hzr in *. replace (4 + zlen rest - 4 - n >? _) with false by lia.
    wp_step. apply wp_get_bytes; [lia|]. wp_step. eapply wp_load; [apply lookup_insert_eq|]. wp_step.
    assert (Hdd : mread (b0 :: b1 :: b2 :: b3 :: rest) (4 + n) (4 + zlen rest - 4 - n) = drop (Z.to_nat n) rest).
    { rewrite mread_drop by lia. by rewrite Z2Nat.inj_add by lia. }
    split_and!; try done.
    + apply (inv_set_con s p c); try done; [|by rewrite Hj; intros ?%elem_of_nil]. split; [apply Hco | exact Hr].
    + exists c. rewrite Hrp. cbv zeta. split_and!; try done.
      * cbn. rewrite Hdd. done.
      * lia.
      * cbn. by rewrite Ed.
Qed.

(** ** Runs *)

Lemma relay_buf_fits_ok s buf : buf_fits s buf = true -> buf_ok s buf.
Proof. unfold buf_fits, buf_ok. destruct buf; [|done]. by intros ?%Z.eqb_eq. Qed.

Lemma no_jobs_ok s : no_jobs s = true -> jobs s = [].
Proof. unfold no_jobs. by destruct (jobs s). Qed.

Lemma inv_set_pkt s d : inv s -> jobs s = [] -> inv (set_pkt d s).
Proof. intros I Hj. destruct I. split; cbn; try done. intros p. rewrite Hj. by intros ?%elem_of_nil. Qed.

Lemma submit_enabled s local remote is_dns data a buf :
  enabled (E_submit local remote is_dns data a buf) s = true ->
  jobs s = [] /\ inet local /\ inet remote /\ zlen data <= udp_mtu (cfg (o s)) /\ buf_ok s buf /\ ptr_free s local a.
Proof.
  cbn [enabled]. rewrite !andb_true_iff, Z.leb_le.
  intros (((((Hj%no_jobs_ok & Hl%inet_b_ok) & Hr%inet_b_ok) & Hd) & Hb%relay_buf_fits_ok) & Hp). split_and!; try done.
  unfold ptr_free. destruct (ptr a); [|done]. apply orb_true_iff in Hp. by rewrite !bool_decide_eq_true in Hp.
Qed.

Lemma relay_deliver_submit_wp s local remote is_dns data a buf :
  inv s -> enabled (E_submit local remote is_dns data a buf) s = true ->
  header_len is_dns remote + zlen data <= udp_mtu (cfg (o s)) ->
  wp (deliver (E_submit local remote is_dns data a buf)) s (fun _ s' tr => inv s' /\ cfg (o s') = cfg (o s) /\ pkt s' = data /\
    submit_post s local remote is_dns data a (is_some buf) s' tr).
Proof.
  intros I (Hj & Hl & Hr & Hd & Hb & Hp)%submit_enabled Hh. cbn [deliver]. do 2 wp_step. eapply wp_mono.
  { by apply (relay_submit_wp (set_pkt data s)); [apply inv_set_pkt|..]. }
  intros ? s' tr (I' & [Hc Hk] & Hs). done.
Qed.

Lemma relay_deliver_inv s ev :
  inv s -> enabled ev s = true -> fits (udp_mtu (cfg (o s))) ev ->
  wp (deliver ev) s (fun _ s' _ => inv s' /\ cfg (o s') = cfg (o s)).
Proof.
  intros I He Hf. destruct ev as [local remote is_dns data a buf | p buf | p data].
  - eapply wp_mono; [by apply relay_deliver_submit_wp | naive_solver].
  - cbn [enabled] in He. apply andb_true_iff in He as [Hp%bool_decide_eq_true Hb%relay_buf_fits_ok].
    eapply wp_mono; [by apply relay_first_job_wp|]. by intros ? s' tr (? & [? _] & _).
  - cbn [enabled] in He. rewrite !andb_true_iff, !bool_decide_eq_true, Z.leb_le in He. destruct He as (((Hj%no_jobs_ok & Hp) & Hz) & Hb).
    eapply wp_mono; [by apply relay_recv_wp|]. by intros ? s' tr (? & [? _] & _).
Qed.

Lemma relay_run_events_inv evs s :
  inv s -> Forall (fits (udp_mtu (cfg (o s)))) evs -> exists s', run_events evs s = Some s' /\ inv s' /\ cfg (o s') = cfg (o s).
Proof.
  revert s. induction evs as [|ev evs IH]; intros s I Hf; cbn [run_events]; [eauto|].
  apply Forall_cons in Hf as [Hf1 Hf]. destruct (enabled ev s) eqn:He; [|eauto].
  destruct (wp_ok _ _ _ (relay_deliver_inv s ev I He Hf1)) as ([] & s1 & tr & -> & I1 & Ec).
  rewrite <- Ec in Hf. destruct (IH s1 I1 Hf) as (s' & -> & I' & E'). rewrite Ec in E'. eauto.
Qed.

(** ** Freeing *)

Definition con_free_trace (p : Z) : list out :=
  [Recv_Buffer_Free p; Recv_If_Free p; Send_Buffer_Free p; Writer_Free p; RecvAsync_Free p; SendAsync_Free p; Dgram_Free p].

Lemma relay_free_connections_wp fuel s :
  inv s -> jobs s = [] -> (length (connections_list (o s)) < fuel)%nat ->
  wp (free_connections fuel) s (fun _ s' tr => heap s' = ∅ /\ connections_list (o s') = [] /\ num_connections (o s') = 0 /\
    tr = connections_list (o s) ≫= con_free_trace).
Proof.
  revert s. induction fuel as [|fuel IH]; intros s I Hj Hl; [lia|]. cbn [free_connections]. do 2 wp_step.
  pose proof (i_nodup _ I) as Hnd. destruct (connections_list (o s)) as [|p l] eqn:E.
  - wp_step. split_and!; try done.
    + apply map_empty. intros p. apply eq_None_not_Some. rewrite (i_heap _ I), E. by intros ?%elem_of_nil.
    + by rewrite (i_num _ I), E.
  - wp_step. apply relay_connection_free_wp; [done | rewrite E; by left | rewrite Hj; by intros ?%elem_of_nil |].
    intros s' I' _ Hj' _ El. rewrite E, (list_remove_split p [] l Hnd : list_remove p (p :: l) = l) in El.
    eapply wp_mono; [apply IH; [done | congruence | rewrite El; cbn in Hl; lia]|].
    intros ? s2 tr (Hh & Hc & Hn & ->). split_and!; try done. by rewrite El.
Qed.

Lemma relay_free_wp s : inv s -> jobs s = [] ->
  wp SocksUdpGwClient_Free s (fun _ s' tr => heap s' = ∅ /\ connections_list (o s') = [] /\ num_connections (o s') = 0 /\
    tr = connections_list (o s) ≫= con_free_trace).
Proof. intros. unfold SocksUdpGwClient_Free. do 2 wp_step. apply relay_free_connections_wp; [done | done | lia]. Qed.

(** ** The connections are distinct *)

Lemma locals_table s : locals (table s) = (fun p => local_addr (con_conaddr (heap s !!! p))) <$> connections_list (o s).
Proof. unfold table, locals. by rewrite <- list_fmap_compose. Qed.

Lemma relay_table_nodup s : inv s -> NoDup (locals (table s)).
Proof. intros I. destruct (t_rep_wf _ _ (i_tree _ I)) as (Hnd & _). rewrite locals_table. by rewrite <- list_fmap_compose in Hnd. Qed.

Lemma relay_table_ok s : inv s -> Forall (fun e => inet e.1.1 /\ inet e.1.2) (table s).
Proof. intros I. apply Forall_fmap, Forall_forall. intros p Hp. by destruct (relay_inv_con_ok s p I Hp). Qed.

(** The arguments of [SocksUdpGwClient_Init]. *)
Definition init_ok (mtu max : Z) (server : BAddr) : Prop :=
  0 <= mtu <= udpgw_compute_mtu true mtu /\ 0 < max /\ BAddr_IsInvalid server = false.

Lemma relay_run_inv mtu max server dns evs :
  init_ok mtu max server -> Forall (fits mtu) evs ->
  exists s, run mtu max server dns evs = Some s /\ inv s /\ udp_mtu (cfg (o s)) = mtu /\
    max_connections (cfg (o s)) = Z.min max 65536 /\ socks_server_addr (cfg (o s)) = server /\ SocksUdp.dnsgw (cfg (o s)) = dns.
Proof.
  intros (Hm & Hmax & Hs) Hf. unfold run, SocksUdpGwClient_Init. rewrite Hs. cbn [negb]. unfold UINT16_MAX.
  replace (if max >? 65535 + 1 then _ else _) with (Z.min max 65536) by (destruct (Z.gtb_spec max (65535 + 1)); lia).
  edestruct relay_run_events_inv as (s & -> & I & Hc); [| |exists s; rewrite Hc; split_and!; done].
  - split; cbn; try done; try lia.
    + constructor.
    + intros p. rewrite lookup_empty, elem_of_nil, is_Some_alt. done.
    + intros p ?%elem_of_nil. done.
    + apply t_empty_rep.
  - done.
Qed.

Lemma relay_run_inv_of mtu max server dns evs s :
  init_ok mtu max server -> Forall (fits mtu) evs -> run mtu max server dns evs = Some s ->
  inv s /\ udp_mtu (cfg (o s)) = mtu /\ max_connections (cfg (o s)) = Z.min max 65536 /\
  socks_server_addr (cfg (o s)) = server /\ SocksUdp.dnsgw (cfg (o s)) = dns.
Proof. intros Hi Hf E. destruct (relay_run_inv mtu max server dns evs Hi Hf) as (s' & E' & I). simplify_eq. done. Qed.

(** A packet of the relay's format is read back. *)
Lemma relay_parse_packet is_dns remote d :
  inet remote -> relay_parse is_dns (relay_packet is_dns remote d) = Some (if is_dns then None else Some remote, d).
Proof.
  intros Hr. unfold relay_parse, relay_packet, header_part. destruct is_dns; [done|]. rewrite <- app_assoc.
  set (atyp := if baddr_type remote =? 1 then SOCKS_ATYP_IPV4 else SOCKS_ATYP_IPV6).
  change (socks_udp_header_bytes 0 0 atyp ++ addr_part remote ++ d) with
    (0 :: 0 :: 0 :: (atyp mod 256) :: addr_part remote ++ d).
  cbn [negb Z.eqb]. destruct (parse_addr_part remote d Hr) as (n & E & Ed).
  replace (atyp mod 256 =? SOCKS_ATYP_IPV6) with (baddr_type remote =? 2).
  2: { subst atyp. destruct Hr as [_ [-> | ->]]; done. }
  by rewrite E, Ed.
Qed.

Section Theorems.
Context (mtu max : Z) (server dns : BAddr) (evs : list event).
Context (Hinit : init_ok mtu max server) (Hfits : Forall (fits mtu) evs).

(** C24. The relay through the SOCKS server, for datagrams whose packets fit its
    buffers: whatever comes, no handler fails an assertion, uses a freed
    connection or accesses memory outside a packet or a buffer.  The connections
    have distinct internet local addresses, there are never more than the limit
    (at most 65536).  Freeing the relay when no connection's first job is pending releases
    every socket, buffer and connection (a pending one dangles, see
    [relay_dangling_job]). *)
Theorem relay_safe :
  exists s, run mtu max server dns evs = Some s /\
    NoDup (locals (table s)) /\ num_connections (o s) = zlen (table s) /\ zlen (table s) <= Z.min max 65536 /\
    Forall (fun e => inet e.1.1 /\ inet e.1.2) (table s) /\
    (jobs s = [] -> exists s' tr, SocksUdpGwClient_Free s = Ok tt s' tr /\ heap s' = ∅ /\ num_connections (o s') = 0 /\
       tr = connections_list (o s) ≫= con_free_trace).
Proof.
  destruct (relay_run_inv mtu max server dns evs Hinit Hfits) as (s & E & I & _ & Hm & _). exists s.
  rewrite (zlen_table s I), <- Hm. split_and!; [done | by apply relay_table_nodup | done | by apply I | by apply relay_table_ok |].
  intros Hj. destruct (wp_ok _ _ _ (relay_free_wp s I Hj)) as ([] & s' & tr & HF & ? & ? & ? & ?). eauto 10.
Qed.

(** C23. Submitting a datagram whose packet, with the SOCKS5 UDP header unless it is a
    DNS query, fits the writer's [udp_mtu] bytes, as those before it did (others overflow
    the buffer, see [relay_buffer_overflow]): a connection with its local address is used,
    with the new remote address, and becomes the most recently used if its buffer takes
    the packet; otherwise one is made, in place of the least recently used if the
    table is full, whose job sends the packet to the DNS gateway or the SOCKS
    server.  The packet is the payload, after a SOCKS5 UDP header unless it is a
    DNS query. *)
Theorem relay_submit (s : sys) local remote is_dns data a buf
    (Hrun : run mtu max server dns evs = Some s)
    (He : enabled (E_submit local remote is_dns data a buf) s = true)
    (Hfit : fits mtu (E_submit local remote is_dns data a buf)) :
  exists s' tr, deliver (E_submit local remote is_dns data a buf) s = Ok tt s' tr /\
    submit_post s local remote is_dns data a (is_some buf) s' tr /\
    (local ∉ locals (table s) -> alloc_ok a = true -> exists p, jobs s' = [p] /\
       forall buf', buf_fits s' buf' = true -> exists s'' tr', deliver (E_first_job p buf') s' = Ok tt s'' tr' /\
         jobs s'' = [] /\ table s'' = table s' /\
         packets tr' = if is_some buf' then [(if is_dns then dns else server, relay_packet is_dns remote data)] else []).
Proof.
  destruct (relay_run_inv_of _ _ _ _ _ _ Hinit Hfits Hrun) as (I & Hm & _ & Hs & Hd). rewrite <- Hm in Hfit.
  destruct (wp_ok _ _ _ (relay_deliver_submit_wp s local remote is_dns data a buf I He Hfit)) as ([] & s' & tr & E & I' & Hc & Hk & HP).
  exists s', tr. split_and!; [done | done |]. intros Hnew Ha. destruct HP as (sent & _ & _ & _ & HJ).
  rewrite bool_decide_false, Ha in HJ by done. destruct HJ as [(p & Hj & Hh) _]. exists p. split; [done|].
  intros buf' Hb%relay_buf_fits_ok. assert (Hp : p ∈ jobs s') by (rewrite Hj; by left).
  destruct (wp_ok _ _ _ (relay_first_job_wp s' p buf' I' Hp Hb)) as ([] & s'' & tr' & E' & _ & _ & _ & Ht & Hj' & _ & HQ).
  specialize (HQ _ Hh). cbn in HQ. rewrite Hk, mread_all in HQ. unfold peer_of in HQ. rewrite Hs, Hd in HQ.
  exists s'', tr'. split_and!; try done. rewrite Hj', Hj. unfold list_remove. by rewrite filter_cons_False by (intros ?; done).
Qed.

(** C25. Receiving on a connection's socket: a packet with a complete header of one
    fragment, or any packet of a DNS connection, is given to the user with the
    connection's local address and the remote address of the header, which the
    connection keeps; others are ignored.  The payload is never larger than the
    UDP MTU, and the packets the relay sends would be read back exactly. *)
Theorem relay_receive (s : sys) p data
    (Hrun : run mtu max server dns evs = Some s) (He : enabled (E_recv p data) s = true) :
  exists s' tr, deliver (E_recv p data) s = Ok tt s' tr /\ recv_post s p data s' tr /\
    forall c remote d, heap s !! p = Some c -> inet remote -> data = relay_packet (con_is_dns c) remote d ->
      received tr = [(local_addr (con_conaddr c), (if con_is_dns c then remote_addr (con_conaddr c) else remote), d)].
Proof.
  destruct (relay_run_inv_of _ _ _ _ _ _ Hinit Hfits Hrun) as (I & Hm & _).
  cbn [enabled] in He. rewrite !andb_true_iff, !bool_decide_eq_true, Z.leb_le in He.
  destruct He as (((Hj%no_jobs_ok & Hp) & Hz) & Hb).
  destruct (wp_ok _ _ _ (relay_recv_wp s p data I Hj Hp Hz Hb)) as ([] & s' & tr & E & _ & _ & _ & HP).
  exists s', tr. split_and!; [done | done |]. intros c remote d Hc Hr ->. destruct HP as (c' & Hc' & _ & HP).
  assert (c' = c) as -> by congruence. rewrite (relay_parse_packet _ _ _ Hr) in HP. destruct HP as [-> _].
  by destruct (con_is_dns c).
Qed.

End Theorems.
End Client.

(** ** A concrete relay *)

#[export] Instance local_tree : SearchTree baddr_ok local_comparator := BavlTree.bavl_tree baddr_ok local_comparator BavlTree.baddr_order.

Definition server_demo : BAddr := BADDR_IPV4 16777343 14340.
Definition gateway_demo : BAddr := BADDR_IPV4 16777343 13568.
Definition local_demo : BAddr := BADDR_IPV4 33554442 20480.
Definition remote_demo (port : Z) : BAddr := BADDR_IPV4 134744072 port.
Definition alloc_demo (p : Z) : alloc := mk_alloc (Some p) true true true true.

(** A DNS query, then its job. *)
Definition evs_demo : list event :=
  [E_submit local_demo (remote_demo 13568) true [1; 2] (alloc_demo 1) None; E_first_job 1 (Some (replicate 20 0))].
Definition con_demo : connection :=
  mk_con (mk_conaddr local_demo (remote_demo 13568)) 2 true gateway_demo.
Definition s_demo : sys :=
  mk_sys (mk (mk_config 20 42 1 server_demo gateway_demo) (Bavl.mk_bavl (Some 1) {[1 := Bavl.mk_node None None None 0 local_demo]}) [1] 1) {[1 := con_demo]} [] [1; 2].

Lemma relay_init_demo : init_ok 20 1 server_demo.
Proof. vm_compute. intuition congruence. Qed.

Lemma relay_fits_demo : Forall (fits 20) evs_demo.
Proof. repeat constructor; vm_compute; congruence. Qed.

Lemma relay_run_demo : run 20 1 server_demo gateway_demo evs_demo = Some s_demo.
Proof. vm_cast_no_check (eq_refl (Some s_demo)). Qed.

Lemma relay_safe_witness :
  init_ok 20 1 server_demo /\ exists s : sys, run 20 1 server_demo gateway_demo evs_demo = Some s /\ NoDup (locals (table s)).
Proof.
  split; [exact relay_init_demo|].
  destruct (relay_safe 20 1 server_demo gateway_demo evs_demo relay_init_demo relay_fits_demo) as (s & E & H & _).
  exact (ex_intro _ s (conj E H)).
Defined.

(** A datagram of another program, in place of the first one. *)
Definition submit_demo : event :=
  E_submit (BADDR_IPV4 33554442 20736) (remote_demo 80) false [7] (alloc_demo 1) (Some (replicate 20 0)).

Lemma relay_submit_witness :
  enabled submit_demo s_demo = true /\ exists (s' : sys) tr, deliver submit_demo s_demo = Ok tt s' tr /\
    submit_post s_demo (BADDR_IPV4 33554442 20736) (remote_demo 80) false [7] (alloc_demo 1) true s' tr.
Proof.
  assert (He : enabled submit_demo s_demo = true) by (vm_compute; reflexivity). split; [exact He|].
  assert (Hf : fits 20 submit_demo) by (vm_compute; congruence).
  destruct (relay_submit 20 1 server_demo gateway_demo evs_demo relay_init_demo relay_fits_demo s_demo _ _ _ _ _ _ relay_run_demo He Hf)
    as (s' & tr & E & Hs & _).
  exact (ex_intro _ s' (ex_intro _ tr (conj E Hs))).
Defined.

Lemma relay_receive_witness :
  enabled (E_recv 1 [9; 9; 9]) s_demo = true /\ exists (s' : sys) tr, deliver (E_recv 1 [9; 9; 9]) s_demo = Ok tt s' tr /\
    received tr = [(local_demo, remote_demo 13568, [9; 9; 9])].
Proof.
  assert (He : enabled (E_recv 1 [9; 9; 9]) s_demo = true) by (vm_compute; reflexivity). split; [exact He|].
  destruct (relay_receive 20 1 server_demo gateway_demo evs_demo relay_init_demo relay_fits_demo s_demo _ _ relay_run_demo He)
    as (s' & tr & E & _ & H).
  assert (Hc : heap s_demo !! 1 = Some con_demo) by (vm_compute; reflexivity).
  assert (Hr : inet (remote_demo 13568)) by (split; [vm_compute; intuition congruence | left; reflexivity]).
  exact (ex_intro _ s' (ex_intro _ tr (conj E (H con_demo (remote_demo 13568) [9; 9; 9] Hc Hr eq_refl)))).
Defined.

(** ** Where the code does not do what it should *)

Definition fault_of {S O A} (r : res S O A) : option fault := match r with Fault f => Some f | _ => None end.

(** Run an event after others. *)
Definition after (s : option sys) (ev : event) : option (bool * option fault) :=
  s ← s; Some (enabled ev s, fault_of (deliver ev s)).

(** The writer's buffers have [udp_mtu] bytes, but a datagram with a header may need
    [udpgw_mtu]: the user may submit one of [udp_mtu] bytes, and the copy of it ends
    behind the buffer. *)
Lemma relay_buffer_overflow :
  after (run 20 1 server_demo gateway_demo [E_submit local_demo (remote_demo 80) false (replicate 15 7) (alloc_demo 1) None])
    (E_first_job 1 (Some (replicate 20 0))) = Some (true, Some F_bounds).
Proof. vm_cast_no_check (eq_refl (Some (true, Some F_bounds))). Qed.

(** A local address that sent a DNS query and then sends other datagrams: they get
    the SOCKS header, but the socket still sends to the DNS gateway. *)
Lemma relay_wrong_peer :
  match deliver (E_submit local_demo (remote_demo 80) false [7] (alloc_demo 2) (Some (replicate 20 0))) s_demo with
  | Ok _ _ tr => packets tr
  | Fault _ => []
  end = [(gateway_demo, relay_packet false (remote_demo 80) [7])].
Proof. vm_cast_no_check (eq_refl [(gateway_demo, relay_packet false (remote_demo 80) [7])]). Qed.

(** [connection_free] leaves the first job of the connection in the job queue. *)
Lemma relay_dangling_job :
  after (s ← run 20 1 server_demo gateway_demo [E_submit local_demo (remote_demo 80) false [7] (alloc_demo 1) None];
         match SocksUdpGwClient_Free s with Ok _ s' _ => Some s' | Fault _ => None end)
    (E_first_job 1 None) = Some (true, Some F_bounds).
Proof. vm_cast_no_check (eq_refl (Some (true, Some F_bounds))). Qed.

(** A reply whose header names an address of the other family is given to the
    receiver of [TunDevice], which asserts that both families are the same. *)
Definition s_family : sys :=
  mk_sys (mk (mk_config 30 52 1 server_demo gateway_demo) (Bavl.mk_bavl (Some 1) {[1 := Bavl.mk_node None None None 0 local_demo]}) [1] 1)
    {[1 := mk_con (mk_conaddr local_demo (remote_demo 80)) 1 false server_demo]} [] [7].
Definition remote6_demo : BAddr := BADDR_IPV6 (replicate 16 1) 80.

Lemma relay_family_mismatch :
  match deliver (E_recv 1 (relay_packet false remote6_demo [9])) s_family with
  | Ok _ _ tr => received tr
  | Fault _ => []
  end = [(local_demo, remote6_demo, [9])] /\
  fault_of (TunDevice.udpgw_client_handler_received TunDevice.opts_demo local_demo remote6_demo [9] TunDevice.s_demo) = Some F_assert.
Proof.
  split; [vm_cast_no_check (eq_refl [(local_demo, remote6_demo, [9])]) | vm_cast_no_check (eq_refl (Some F_assert))].
Qed.

End SocksUdp.
