(* ===== verification/UdpGwReconnect.v ===== *)
(** * UdpGwReconnect: the relay over a connection that is made again

    Model of the other variant of [badvpn/tun2socks/SocksUdpGwClient.c], without
    [__ANDROID__]: a [UdpGwClient] whose server is reached through a [BSocksClient];
    when the connection fails it is freed, and made again when a timer expires.

    The [UdpGwClient] is the one of its own file, run inside the state [sys] with
    [lift]; calls on the SOCKS client and on the timer are outputs, the events of
    the SOCKS client and the timer come from the environment. *)

From S2P Require Import Prelude BAddr UdpgwProto SearchTree UdpGwClient.
Import UdpGwClient.
Open Scope mon_scope.

Module Reconnect.

Section Client.
Context {TA : SearchTree conaddr_ok conaddr_comparator} {TI : SearchTree conid_ok uint16_comparator}.

Abbreviation gw := (UdpGwClient.sys (TA := TA) (TI := TI)).

(** [reconnect_timer]: it is running. *)
Record sys := mk_sys { udpgw_client : gw; have_socks : bool; socks_up : bool; reconnect_timer : bool }.

Inductive out :=
  | Gw (x : UdpGwClient.out)
  | Received (local remote : BAddr) (data : list Z)        (** [handler_received] *)
  | Socks_Init | Socks_Free
  | Set_Timer | Remove_Timer.

Abbreviation H := (M sys out).

Definition set_gw (g : gw) (s : sys) : sys := mk_sys g (have_socks s) (socks_up s) (reconnect_timer s).
Definition set_have (b : bool) (s : sys) : sys := mk_sys (udpgw_client s) b (socks_up s) (reconnect_timer s).
Definition set_up (b : bool) (s : sys) : sys := mk_sys (udpgw_client s) (have_socks s) b (reconnect_timer s).
Definition set_timer (b : bool) (s : sys) : sys := mk_sys (udpgw_client s) (have_socks s) (socks_up s) b.

(** [BReactor_SetTimer], [BReactor_RemoveTimer]. *)
Definition BReactor_SetTimer : H unit := emit Set_Timer ;; modify (set_timer true).
Definition BReactor_RemoveTimer : H unit := emit Remove_Timer ;; modify (set_timer false).

(** What a call of [UdpGwClient]'s handlers does here: [udpgw_handler_received]
    passes the datagram on. *)
Definition udpgw_handler_received (local remote : BAddr) (data : list Z) : out := Received local remote data.
Definition up_out (x : UdpGwClient.out) : out :=
  match x with UdpGwClient.Received l r d => udpgw_handler_received l r d | _ => Gw x end.

(** A handler of the [UdpGwClient]. *)
Definition lift {A} (m : M gw UdpGwClient.out A) : H A := fun s =>
  match m (udpgw_client s) with
  | Ok a g tr => Ok a (set_gw g s) (map up_out tr)
  | Fault f => Fault f
  end.

(** ** Connecting *)

Definition free_socks : H unit :=
  s <- get ;;
  assert (have_socks s) ;;
  (if socks_up s then lift UdpGwClient_DisconnectServer else ret tt) ;;
  emit Socks_Free ;;
  modify (set_have false).

(** [socks_ok]: whether [BSocksClient_Init] succeeds. *)
Definition try_connect (socks_ok : bool) : H unit :=
  s <- get ;;
  assert (negb (have_socks s)) ;;
  assert (negb (reconnect_timer s)) ;;
  if negb socks_ok then BReactor_SetTimer else
  emit Socks_Init ;;
  modify (set_have true) ;;
  modify (set_up false).

Definition reconnect_timer_handler (socks_ok : bool) : H unit :=
  s <- get ;;
  assert (negb (have_socks s)) ;;
  try_connect socks_ok.

Inductive socks_event := SOCKS_UP | SOCKS_ERROR | SOCKS_ERROR_CLOSED.

(** [decoder_ok]: whether the decoder of [UdpGwClient_ConnectServer] can be made. *)
Definition socks_client_handler (event : socks_event) (decoder_ok : bool) : H unit :=
  s <- get ;;
  assert (have_socks s) ;;
  match event with
  | SOCKS_UP =>
      assert (negb (socks_up s)) ;;
      connected <- lift (UdpGwClient_ConnectServer decoder_ok) ;;
      if negb connected then free_socks ;; BReactor_SetTimer else
      modify (set_up true)
  | SOCKS_ERROR | SOCKS_ERROR_CLOSED => free_socks ;; BReactor_SetTimer
  end.

Definition udpgw_handler_servererror : H unit :=
  s <- get ;;
  assert (have_socks s) ;;
  assert (socks_up s) ;;
  free_socks ;;
  BReactor_SetTimer.

(** ** Init, Free, SubmitPacket *)

(** [None]: a failed assertion; [Some None]: failure. *)
Definition SocksUdpGwClient_Init (android : bool) (udp_mtu max_connections send_buffer_size : Z)
    (server remote_udpgw_addr : BAddr) (queue_ok socks_ok : bool) : option (option (sys * list out)) :=
  if negb (BAddr_IsInvalid server) && ((baddr_type remote_udpgw_addr =? 1) || (baddr_type remote_udpgw_addr =? 2)) then
    match UdpGwClient_Init android udp_mtu max_connections send_buffer_size queue_ok with
    | None => None
    | Some None => Some None
    | Some (Some x) =>
        match try_connect socks_ok (mk_sys (UdpGwClient.mk_sys x ∅ [] false) false false false) with
        | Ok _ s tr => Some (Some (s, tr))
        | Fault _ => None
        end
    end
  else None.

Definition SocksUdpGwClient_Free : H unit :=
  s <- get ;;
  (if have_socks s then free_socks else ret tt) ;;
  BReactor_RemoveTimer ;;
  lift UdpGwClient_Free.

Definition SocksUdpGwClient_SubmitPacket (local remote : BAddr) (is_dns : bool) (data_len : Z)
    (ptr : option Z) (ppflow_ok : bool) (buf : option (list Z)) : H unit :=
  lift (UdpGwClient_SubmitPacket local remote is_dns data_len ptr ppflow_ok buf).

(** ** Events

    [E_gw]: an event of the [UdpGwClient] other than those this client causes; when
    its decoder fails, its handler [udpgw_handler_servererror] is called last. *)

Inductive event :=
  | E_submit (local remote : BAddr) (is_dns : bool) (data : list Z) (ptr : option Z) (ppflow_ok : bool) (buf : option (list Z))
  | E_gw (ev : UdpGwClient.event)
  | E_server_error
  | E_socks (ev : socks_event) (decoder_ok : bool)
  | E_timer (socks_ok : bool).

Definition own_event (ev : UdpGwClient.event) : bool :=
  match ev with
  | UdpGwClient.E_first_job _ _ | UdpGwClient.E_recv _ | UdpGwClient.E_monitor | UdpGwClient.E_keepalive_done => true
  | _ => false
  end.

Definition enabled (ev : event) (s : sys) : bool :=
  match ev with
  | E_submit local remote is_dns data ptr ppflow_ok buf =>
      UdpGwClient.enabled (UdpGwClient.E_submit local remote is_dns data ptr ppflow_ok buf) (udpgw_client s)
  | E_gw ev => own_event ev && UdpGwClient.enabled ev (udpgw_client s)
  | E_server_error => UdpGwClient.enabled (UdpGwClient.E_decoder_error false) (udpgw_client s)
  | E_socks ev _ => have_socks s && match ev with SOCKS_UP => negb (socks_up s) | _ => true end
  | E_timer _ => reconnect_timer s
  end.

Definition deliver (ev : event) : H unit :=
  match ev with
  | E_submit local remote is_dns data ptr ppflow_ok buf =>
      lift (modify (set_pkt data)) ;;
      SocksUdpGwClient_SubmitPacket local remote is_dns (zlen data) ptr ppflow_ok buf
  | E_gw ev => lift (UdpGwClient.deliver ev)
  | E_server_error => lift (UdpGwClient.deliver (UdpGwClient.E_decoder_error false)) ;; udpgw_handler_servererror
  | E_socks ev decoder_ok => socks_client_handler ev decoder_ok
  | E_timer socks_ok => modify (set_timer false) ;; reconnect_timer_handler socks_ok
  end.

Fixpoint run_events (evs : list event) (s : sys) : option sys :=
  match evs with
  | [] => Some s
  | ev :: evs' =>
      if enabled ev s then
        match deliver ev s with Ok _ s' _ => run_events evs' s' | Fault _ => None end
      else Some s
  end.

Definition run (android : bool) (mtu max sbs : Z) (server remote_udpgw_addr : BAddr) (socks_ok : bool) (evs : list event)
    : option sys :=
  match SocksUdpGwClient_Init android mtu max sbs server remote_udpgw_addr true socks_ok with
  | Some (Some (s, _)) => run_events evs s
  | _ => None
  end.

(** ** Invariant *)

Record inv (s : sys) : Prop := mk_inv {
  i_gw : UdpGwClient.inv (udpgw_client s);
  i_server : have_server (o (udpgw_client s)) = have_socks s && socks_up s;
  i_timer : reconnect_timer s = negb (have_socks s);
}.

Lemma wp_lift {A} (m : M gw UdpGwClient.out A) s (Q : A -> sys -> list out -> Prop) :
  wp m (udpgw_client s) (fun a g tr => Q a (set_gw g s) (map up_out tr)) -> wp (lift m) s Q.
Proof. unfold wp, lift. by destruct (m (udpgw_client s)). Qed.

(** Freeing the SOCKS client and starting the timer. *)
Definition freed (s : sys) : sys :=
  mk_sys (if socks_up s then set_flags (keepalive_sending (o (udpgw_client s))) false (udpgw_client s) else udpgw_client s)
    false (socks_up s) (reconnect_timer s).

Lemma reconnect_free_socks_wp s (Q : unit -> sys -> list out -> Prop) :
  have_socks s = true -> have_server (o (udpgw_client s)) = have_socks s && socks_up s ->
  (forall tr, Q tt (freed s) tr) -> wp free_socks s Q.
Proof.
  intros Hh Hs HQ. unfold free_socks. do 4 wp_step; [done|]. wp_step. rewrite Hh in Hs. unfold freed in HQ.
  destruct (socks_up s) eqn:Eu.
  - apply wp_lift. unfold UdpGwClient_DisconnectServer, free_server. wp_step. wp_step. wp_step. wp_step; [done|]. wp_run.
    unfold set_have, set_gw. cbn. rewrite Eu. apply HQ.
  - wp_run. unfold set_have. rewrite Eu. apply HQ.
Qed.

Lemma inv_freed s : inv s -> have_socks s = true -> inv (set_timer true (freed s)).
Proof.
  intros [I Hs Ht] Hh. rewrite Hh in Hs. unfold freed, set_timer. split; cbn; [|by destruct (socks_up s)|done].
  destruct (socks_up s); [by apply inv_set_flags | done].
Qed.

Definition same_table (s s' : sys) : Prop :=
  table (udpgw_client s') = table (udpgw_client s) /\ cfg (o (udpgw_client s')) = cfg (o (udpgw_client s)).

Lemma freed_table s : same_table s (set_timer true (freed s)).
Proof. unfold freed, same_table. by destruct (socks_up s). Qed.

Lemma restart_wp s : inv s -> have_socks s = true ->
  wp (free_socks ;; BReactor_SetTimer) s (fun _ s' _ => inv s' /\ have_socks s' = false /\ same_table s s').
Proof.
  intros I Hh. wp_step. apply reconnect_free_socks_wp; [done | apply (i_server _ I) |]. intros tr. unfold BReactor_SetTimer. wp_run.
  split_and!; [by apply inv_freed | done | apply freed_table].
Qed.

Lemma try_connect_wp s socks_ok :
  UdpGwClient.inv (udpgw_client s) -> have_server (o (udpgw_client s)) = false -> have_socks s = false -> reconnect_timer s = false ->
  wp (try_connect socks_ok) s (fun _ s' _ => inv s' /\ have_socks s' = socks_ok /\ (socks_ok = true -> socks_up s' = false) /\ same_table s s').
Proof.
  intros I Hs Hh Ht. unfold try_connect. do 4 wp_step; [by rewrite Hh|]. do 2 wp_step; [by rewrite Ht|].
  destruct socks_ok; cbn [negb]; [|unfold BReactor_SetTimer]; wp_run; split_and!; try done; split; cbn; try done.
  all: by rewrite Hh.
Qed.

Lemma socks_client_handler_wp s ev decoder_ok :
  inv s -> have_socks s = true -> (ev = SOCKS_UP -> socks_up s = false) ->
  wp (socks_client_handler ev decoder_ok) s (fun _ s' _ => inv s' /\ same_table s s' /\
    have_server (o (udpgw_client s')) = match ev with SOCKS_UP => decoder_ok | _ => false end).
Proof.
  intros I Hh Hu. assert (Hr : wp (free_socks ;; BReactor_SetTimer) s (fun _ s' _ => inv s' /\ same_table s s' /\
      have_server (o (udpgw_client s')) = false)).
  { eapply wp_mono; [by apply restart_wp|]. intros ? s' tr (I' & Hh' & ?). split_and!; try done. by rewrite (i_server _ I'), Hh'. }
  unfold socks_client_handler. do 4 wp_step; [done|]. destruct ev; [|exact Hr|exact Hr]. specialize (Hu eq_refl).
  wp_step. wp_step; [by rewrite Hu|]. wp_step. apply wp_lift. unfold UdpGwClient_ConnectServer.
  assert (Hs : have_server (o (udpgw_client s)) = false) by by rewrite (i_server _ I), Hh, Hu.
  wp_step. wp_step. wp_step. wp_step; [by rewrite Hs|]. do 2 wp_step. destruct decoder_ok; cbn [negb].
  - wp_run. split; [|split]; try done. split; cbn; try done; [apply inv_set_flags, I | by rewrite Hh | apply I].
  - wp_run. replace (set_gw _ s) with s by by destruct s. eapply wp_mono; [apply (restart_wp s I Hh)|].
    intros ? s' tr (I' & Hh' & ?). split_and!; try done. by rewrite (i_server _ I'), Hh'.
Qed.

Lemma wp_modify_bind {S O A} (f : S -> S) (m : M S O A) s Q : wp (modify f ;; m) s Q -> wp m (f s) Q.
Proof. unfold wp, bind, modify. by destruct (m (f s)). Qed.

(** A handler of the [UdpGwClient] that does not touch the server. *)
Lemma lift_wp {A} (m : M gw UdpGwClient.out A) s :
  inv s -> wp m (udpgw_client s) (fun _ g _ => UdpGwClient.inv g /\ have_server (o g) = have_server (o (udpgw_client s))) ->
  wp (lift m) s (fun _ s' _ => inv s').
Proof.
  intros [I Hs Ht] Hm. apply wp_lift. eapply wp_mono; [exact Hm|]. intros ? g tr [I' Hs']. split; cbn; [done | congruence | done].
Qed.

Lemma own_event_wp g ev : UdpGwClient.inv g -> own_event ev = true -> UdpGwClient.enabled ev g = true ->
  wp (UdpGwClient.deliver ev) g (fun _ g' _ => UdpGwClient.inv g' /\ have_server (o g') = have_server (o g)).
Proof.
  intros I Ho He. destruct ev as [| p buf | data | | | | |]; try done.
  - cbn [UdpGwClient.enabled] in He. destruct (heap g !! p) as [c|] eqn:Hc; [|done]. apply andb_true_iff in He as [Hj Hb].
    eapply wp_mono; [apply (first_job_wp g p c); try done; by apply buf_fits_ok|]. by intros u s' tr (? & (_ & _ & _ & ? & _) & _).
  - eapply wp_mono; [by apply deliver_packet_wp|]. by intros u s' tr (? & (_ & _ & _ & ? & _) & _).
  - cbn [UdpGwClient.deliver]. unfold send_monitor_handler. do 2 wp_step. destruct (keepalive_sending _); wp_run; split; try done.
    by apply inv_set_flags.
  - cbn [UdpGwClient.deliver UdpGwClient.enabled] in *. unfold keepalive_if_handler_done. do 4 wp_step; [done|]. wp_run.
    split; [by apply inv_set_flags | done].
Qed.

Lemma reconnect_deliver_inv s ev : inv s -> enabled ev s = true -> wp (deliver ev) s (fun _ s' _ => inv s').
Proof.
  intros I He. destruct ev as [local remote is_dns data ptr ppok buf | ev | | ev ok | ok]; cbn [deliver enabled] in *.
  - pose proof (deliver_submit_wp _ _ _ _ _ _ _ _ (i_gw _ I) He) as Hw. cbn [UdpGwClient.deliver] in Hw.
    unfold SocksUdpGwClient_SubmitPacket. wp_step. apply wp_lift. wp_step. apply wp_lift.
    apply wp_modify_bind in Hw. eapply wp_mono; [exact Hw|].
    intros ? g tr (_ & _ & _ & I' & (_ & _ & _ & Hs & _) & _). destruct I as [_ Hs0 Ht]. cbn in Hs.
    split; cbn; [done | congruence | done].
  - apply andb_true_iff in He as [Ho He]. apply lift_wp; [done|]. by apply own_event_wp; [apply I|..].
  - cbn [UdpGwClient.enabled] in He. pose proof (i_server _ I) as Hs. rewrite He in Hs. symmetry in Hs. apply andb_true_iff in Hs as [Hh Hu].
    wp_step. apply wp_lift. cbn [UdpGwClient.deliver]. unfold decoder_handler_error. do 4 wp_step; [done|]. wp_run.
    replace (set_gw _ s) with s by by destruct s. unfold udpgw_handler_servererror. do 4 wp_step; [done|]. do 2 wp_step; [done|].
    eapply wp_mono; [by apply restart_wp|]. by intros ? s' tr (? & _).
  - apply andb_true_iff in He as [Hh Hu]. eapply wp_mono; [apply socks_client_handler_wp; try done|].
    + intros ->. by apply negb_true_iff.
    + by intros ? s' tr (? & _).
  - wp_step. wp_step. pose proof (i_timer _ I) as Ht. rewrite He in Ht. symmetry in Ht. apply negb_true_iff in Ht.
    unfold reconnect_timer_handler. do 4 wp_step; [cbn; by rewrite Ht|].
    eapply wp_mono; [apply try_connect_wp; cbn; try done; [apply I | by rewrite (i_server _ I), Ht]|]. by intros ? s' tr (? & _).
Qed.

Lemma reconnect_run_events_inv evs s : inv s -> exists s', run_events evs s = Some s' /\ inv s'.
Proof.
  revert s. induction evs as [|ev evs IH]; intros s I; cbn [run_events]; [eauto|].
  destruct (enabled ev s) eqn:E; [|eauto].
  destruct (wp_ok _ _ _ (reconnect_deliver_inv s ev I E)) as (u & s1 & tr & -> & I1). by apply IH.
Qed.

(** The arguments of [SocksUdpGwClient_Init] that its assertions allow. *)
Definition init_ok (android : bool) (mtu max sbs : Z) (server remote_udpgw_addr : BAddr) : Prop :=
  UdpGwClient.init_ok android mtu max sbs /\ BAddr_IsInvalid server = false /\
  (baddr_type remote_udpgw_addr = 1 \/ baddr_type remote_udpgw_addr = 2).

Lemma reconnect_run_inv android mtu max sbs server remote socks_ok evs :
  init_ok android mtu max sbs server remote ->
  exists s, run android mtu max sbs server remote socks_ok evs = Some s /\ inv s.
Proof.
  intros (Hi & Hs & Hr). unfold run, SocksUdpGwClient_Init. rewrite Hs.
  replace (_ || _) with true by (destruct Hr as [-> | ->]; done). cbn [negb andb].
  destruct (init_inv android mtu max sbs Hi) as (x & E & I & _). rewrite E.
  assert (Hx : have_server x = false).
  { unfold UdpGwClient_Init in E. destruct (_ && _) in E; [|done]. by injection E as <-. }
  destruct (wp_ok _ _ _ (try_connect_wp (mk_sys (UdpGwClient.mk_sys x ∅ [] false) false false false) socks_ok I Hx eq_refl eq_refl))
    as (u & s & tr & -> & I' & _). by apply reconnect_run_events_inv.
Qed.

(** The whole client is freed. *)
Lemma reconnect_free_wp s : inv s -> wp SocksUdpGwClient_Free s (fun _ s' tr =>
  have_socks s' = false /\ reconnect_timer s' = false /\ heap (udpgw_client s') = ∅).
Proof.
  intros I. unfold SocksUdpGwClient_Free. do 3 wp_step.
  assert (Hgo : forall s1, UdpGwClient.inv (udpgw_client s1) -> have_socks s1 = false ->
    wp (BReactor_RemoveTimer ;; lift UdpGwClient_Free) s1 (fun _ s' tr =>
      have_socks s' = false /\ reconnect_timer s' = false /\ heap (udpgw_client s') = ∅)).
  { intros s1 I1 Hh1. unfold BReactor_RemoveTimer. do 4 wp_step. apply wp_lift. cbn.
    eapply wp_mono; [by apply UdpGwClient.free_wp|]. intros ? g tr [Hg _]. done. }
  destruct (have_socks s) eqn:Eh.
  - apply reconnect_free_socks_wp; [done | apply (i_server _ I) |]. intros tr. apply (Hgo (freed s)); [|done].
    pose proof (inv_freed s I Eh) as [HI _ _]. exact HI.
  - wp_step. apply (Hgo s); [apply I | done].
Qed.

(** Connecting again, whatever the state: the timer, the SOCKS client, the server. *)
Definition recovery (s : sys) : list event :=
  if have_server (o (udpgw_client s)) then []
  else (if have_socks s then [] else [E_timer true]) ++ [E_socks SOCKS_UP true].

Lemma up_again s : inv s -> have_socks s = true -> socks_up s = false ->
  exists s', run_events [E_socks SOCKS_UP true] s = Some s' /\ have_server (o (udpgw_client s')) = true /\ same_table s s'.
Proof.
  intros I Hh Hu. cbn [run_events enabled deliver]. rewrite Hh, Hu. cbn [negb andb].
  destruct (wp_ok _ _ _ (socks_client_handler_wp s SOCKS_UP true I Hh (fun _ => Hu))) as (u & s' & tr & -> & _ & Ht & Hs). eauto.
Qed.

Lemma recovers s : inv s ->
  exists s', run_events (recovery s) s = Some s' /\ have_server (o (udpgw_client s')) = true /\ same_table s s'.
Proof.
  intros I. unfold recovery. pose proof (i_server _ I) as Hs. pose proof (i_timer _ I) as Ht.
  destruct (have_server (o (udpgw_client s))) eqn:Es; [by exists s|]. destruct (have_socks s) eqn:Eh.
  - cbn [app]. by apply up_again.
  - cbn [app]. change (run_events (E_timer true :: [E_socks SOCKS_UP true]) s) with
      (if reconnect_timer s then match deliver (E_timer true) s with Ok _ s' _ => run_events [E_socks SOCKS_UP true] s' | Fault _ => None end
       else Some s). rewrite Ht. cbn [negb].
    assert (Hw : wp (deliver (E_timer true)) s (fun _ s' _ => inv s' /\ have_socks s' = true /\ socks_up s' = false /\ same_table s s')).
    { cbn [deliver]. do 2 wp_step. unfold reconnect_timer_handler. do 4 wp_step; [cbn; by rewrite Eh|].
      eapply wp_mono; [apply (try_connect_wp _ true); cbn; try done; apply I|].
      intros ? s' tr (? & ? & Hu & ?). split_and!; try done. by apply Hu. }
    destruct (wp_ok _ _ _ Hw) as (u & s1 & tr & -> & I1 & Hh1 & Hu1 & [Ht1 Hc1]).
    destruct (up_again s1 I1 Hh1 Hu1) as (s' & -> & Hs' & [Ht' Hc']). exists s'. split_and!; try done. split; congruence.
Qed.

(** C26. The relay over a udpgw server, whatever happens to the SOCKS client and the
    server: no handler fails an assertion, also inside the [UdpGwClient]; there is
    always either a SOCKS client or the running reconnect timer, never both; the
    [UdpGwClient] has a server exactly when the SOCKS client is up.  Freeing
    releases everything.  From every state, the timer and a successful SOCKS
    connection bring the server back, with the same table of connections. *)
Theorem reconnect_safe_live android mtu max sbs server remote socks_ok evs
    (Hinit : init_ok android mtu max sbs server remote) :
  exists s, run android mtu max sbs server remote socks_ok evs = Some s /\
    reconnect_timer s = negb (have_socks s) /\
    have_server (o (udpgw_client s)) = have_socks s && socks_up s /\
    (exists s' tr, SocksUdpGwClient_Free s = Ok tt s' tr /\
       have_socks s' = false /\ reconnect_timer s' = false /\ heap (udpgw_client s') = ∅) /\
    exists s', run_events (recovery s) s = Some s' /\ have_server (o (udpgw_client s')) = true /\
      table (udpgw_client s') = table (udpgw_client s).
Proof.
  destruct (reconnect_run_inv android mtu max sbs server remote socks_ok evs Hinit) as (s & E & I). exists s.
  split_and!; [done | apply I | apply I | |].
  - destruct (wp_ok _ _ _ (reconnect_free_wp s I)) as ([] & s' & tr & HF & ?). eauto.
  - destruct (recovers s I) as (s' & ? & ? & [? _]). eauto.
Qed.

End Client.

(** The server fails and the timer has expired. *)
Definition server_demo : BAddr := BADDR_IPV4 16777343 14340.
Definition evs_demo : list event := [E_socks SOCKS_UP true; E_server_error; E_timer false; E_timer true].

Lemma reconnect_safe_live_witness :
  init_ok false 15 1 8 server_demo server_demo /\
  exists s : sys, run false 15 1 8 server_demo server_demo true evs_demo = Some s /\ reconnect_timer s = negb (have_socks s).
Proof.
  assert (Hi : init_ok false 15 1 8 server_demo server_demo).
  { split; [vm_compute; intuition congruence | split; [reflexivity | left; reflexivity]]. }
  split; [exact Hi|].
  destruct (reconnect_safe_live false 15 1 8 server_demo server_demo true evs_demo Hi) as (s & E & Ht & _).
  exact (ex_intro _ s (conj E Ht)).
Defined.

End Reconnect.
