(* ===== verification/PacketPassFairQueue.v ===== *)
(** * PacketPassFairQueue: fair sharing of one output by many flows

    Model of [badvpn/flow/PacketPassFairQueue.c].  Every flow has a time, the weight
    of what it has sent; of the flows that have a packet the one with the least time
    is sent.  Times are 64-bit; before one would overflow, time is subtracted from
    all flows.

    The queue's tree orders the flows by what is in them, so it is an [EntryTree].
    A handler runs in [sys]; the output, the inputs of the flows and the users are
    the environment.  [output_busy] and [input_busy] record where the operations of
    these interfaces stand: a call that the interface does not allow is a fault. *)

From S2P Require Import Prelude BAddr SearchTree.
Open Scope mon_scope.

#[local] Arguments Z.add : simpl never.
#[local] Arguments Z.sub : simpl never.
#[local] Arguments Z.max : simpl never.

Module FairQueue.

Definition FAIRQUEUE_MAX_TIME : Z := UINT64_MAX.

Record flow := mk_flow {
  time : Z;
  is_queued : bool;
  queued_data : list Z;              (** [queued.data], [queued.data_len] *)
  handler_busy : bool;               (** not [NULL] *)
  input_busy : bool;
}.

#[export] Instance flow_inhabited : Inhabited flow := populate (mk_flow 0 false [] false false).

Definition set_time (n : Z) (x : flow) : flow := mk_flow n (is_queued x) (queued_data x) (handler_busy x) (input_busy x).
Definition set_queued (b : bool) (x : flow) : flow := mk_flow (time x) b (queued_data x) (handler_busy x) (input_busy x).
Definition set_data (d : list Z) (x : flow) : flow := mk_flow (time x) (is_queued x) d (handler_busy x) (input_busy x).
Definition set_handler (b : bool) (x : flow) : flow := mk_flow (time x) (is_queued x) (queued_data x) b (input_busy x).
Definition set_input (b : bool) (x : flow) : flow := mk_flow (time x) (is_queued x) (queued_data x) (handler_busy x) b.

Record config := mk_config { output_mtu : Z; use_cancel : bool; packet_weight : Z }.

Section Queue.
Context {ET : EntryTree}.

Record sys := mk_sys {
  cfg : config;
  sending_flow : option Z;
  sending_len : Z;
  previous_flow : option Z;
  queued_tree : etree;
  flows_list : list Z;
  freeing : bool;
  schedule_job : bool;               (** it is set *)
  heap : gmap Z flow;
  output_busy : bool;
}.

Inductive out :=
  | Sender_Init | Job_Init | Job_Free
  | Sender_Send (flow : Z) (data : list Z)       (** on the output *)
  | Sender_RequestCancel
  | Input_Init (flow mtu : Z) | Input_Free (flow : Z)
  | Input_Done (flow : Z)                        (** [PacketPassInterface_Done] *)
  | Busy (flow : Z).                             (** the busy handler *)

Abbreviation H := (M sys out).

Definition set_sending (f : option Z) (n : Z) (s : sys) : sys :=
  mk_sys (cfg s) f n (previous_flow s) (queued_tree s) (flows_list s) (freeing s) (schedule_job s) (heap s) (output_busy s).
Definition set_previous (f : option Z) (s : sys) : sys :=
  mk_sys (cfg s) (sending_flow s) (sending_len s) f (queued_tree s) (flows_list s) (freeing s) (schedule_job s) (heap s) (output_busy s).
Definition set_tree (t : etree) (s : sys) : sys :=
  mk_sys (cfg s) (sending_flow s) (sending_len s) (previous_flow s) t (flows_list s) (freeing s) (schedule_job s) (heap s) (output_busy s).
Definition set_flows (l : list Z) (s : sys) : sys :=
  mk_sys (cfg s) (sending_flow s) (sending_len s) (previous_flow s) (queued_tree s) l (freeing s) (schedule_job s) (heap s) (output_busy s).
Definition set_freeing (s : sys) : sys :=
  mk_sys (cfg s) (sending_flow s) (sending_len s) (previous_flow s) (queued_tree s) (flows_list s) true (schedule_job s) (heap s) (output_busy s).
Definition set_job (b : bool) (s : sys) : sys :=
  mk_sys (cfg s) (sending_flow s) (sending_len s) (previous_flow s) (queued_tree s) (flows_list s) (freeing s) b (heap s) (output_busy s).
Definition set_heap (h : gmap Z flow) (s : sys) : sys :=
  mk_sys (cfg s) (sending_flow s) (sending_len s) (previous_flow s) (queued_tree s) (flows_list s) (freeing s) (schedule_job s) h (output_busy s).
Definition set_output (b : bool) (s : sys) : sys :=
  mk_sys (cfg s) (sending_flow s) (sending_len s) (previous_flow s) (queued_tree s) (flows_list s) (freeing s) (schedule_job s) (heap s) b.

Definition flow_ (p : Z) : H flow := load heap p.
Definition upd_flow (p : Z) (g : flow -> flow) : H unit :=
  x <- flow_ p ;; modify (fun s => set_heap (<[p := g x]> (heap s)) s).

Definition is_none {A} (x : option A) : bool := if x then false else true.
Definition is_flow (p : Z) (x : option Z) : bool := bool_decide (x = Some p).

(** The operations of the interfaces, with their assertions. *)
Definition PacketPassInterface_Sender_Send (f : Z) (data : list Z) : H unit :=
  s <- get ;;
  assert (zlen data <=? output_mtu (cfg s)) ;;
  assert (negb (output_busy s)) ;;
  emit (Sender_Send f data) ;;
  modify (set_output true).
Definition PacketPassInterface_Done (f : Z) : H unit :=
  x <- flow_ f ;;
  assert (input_busy x) ;;
  emit (Input_Done f) ;;
  upd_flow f (set_input false).

(** ** Times *)

Definition compare_flows (h : gmap Z flow) (f1 f2 : Z) : Z :=
  let cmp := B_COMPARE (time (h !!! f1)) (time (h !!! f2)) in
  if negb (cmp =? 0) then cmp else B_COMPARE f1 f2.

Definition get_current_time : H Z :=
  s <- get ;;
  match sending_flow s with
  | Some f => x <- flow_ f ;; ret (time x)
  | None =>
      first <- (match et_first (queued_tree s) with
                | Some f => x <- flow_ f ;; assert (is_queued x) ;; ret (Some (time x))
                | None => ret None
                end) ;;
      best <- (match previous_flow s with
               | Some p =>
                   x <- flow_ p ;;
                   ret (match first with
                        | None => Some (time x)
                        | Some t => if time x <? t then Some (time x) else first
                        end)
               | None => ret first
               end) ;;
      ret (match best with Some t => t | None => 0 end)
  end.

(** The loop over all flows, for the flow [f] that just finished. *)
Fixpoint subtract_times (subtract f : Z) (l : list Z) : H unit :=
  match l with
  | [] => ret tt
  | someflow :: l' =>
      x <- flow_ someflow ;;
      (if (subtract >? time x) && negb (someflow =? f) then
         assert (negb (is_queued x)) ;; upd_flow someflow (set_time 0)
       else upd_flow someflow (set_time (u64 (time x - subtract)))) ;;
      subtract_times subtract f l'
  end.

Definition increment_sent_flow (f amount : Z) : H unit :=
  assert (amount <=? FAIRQUEUE_MAX_TIME) ;;
  x <- flow_ f ;;
  assert (negb (is_queued x)) ;;
  s <- get ;;
  assert (is_none (sending_flow s)) ;;
  (if amount >? FAIRQUEUE_MAX_TIME - time x then
     subtract <- (match et_first (queued_tree s) with
                  | None => ret (time x)
                  | Some g => y <- flow_ g ;; assert (is_queued y) ;; ret (time y)
                  end) ;;
     subtract_times subtract f (flows_list s)
   else ret tt) ;;
  x <- flow_ f ;;
  upd_flow f (set_time (u64 (time x + amount))).

(** ** Scheduling *)

Definition schedule : H unit :=
  s <- get ;;
  assert (is_none (sending_flow s)) ;;
  assert (is_none (previous_flow s)) ;;
  assert (negb (freeing s)) ;;
  match et_first (queued_tree s) with
  | None => fail F_assert
  | Some qflow =>
      x <- flow_ qflow ;;
      assert (is_queued x) ;;
      modify (set_tree (et_remove qflow (queued_tree s))) ;;
      upd_flow qflow (set_queued false) ;;
      PacketPassInterface_Sender_Send qflow (queued_data x) ;;
      modify (set_sending (Some qflow) (zlen (queued_data x)))
  end.

Definition schedule_job_handler : H unit :=
  s <- get ;;
  assert (is_none (sending_flow s)) ;;
  assert (negb (freeing s)) ;;
  modify (set_previous None) ;;
  if negb (is_none (et_first (queued_tree s))) then schedule else ret tt.

Definition input_handler_send (f : Z) (data : list Z) : H unit :=
  s <- get ;;
  assert (negb (is_flow f (sending_flow s))) ;;
  x <- flow_ f ;;
  assert (negb (is_queued x)) ;;
  assert (negb (freeing s)) ;;
  (if is_flow f (previous_flow s) then modify (set_previous None)
   else
     current <- get_current_time ;;
     upd_flow f (set_time (Z.max (time x) current))) ;;
  upd_flow f (set_data data) ;;
  s <- get ;;
  match et_insert (compare_flows (heap s)) f (queued_tree s) with
  | None => fail F_assert
  | Some t =>
      modify (set_tree t) ;;
      upd_flow f (set_queued true) ;;
      s <- get ;;
      if is_none (sending_flow s) && negb (schedule_job s) then schedule else ret tt
  end.

Definition output_handler_done : H unit :=
  s <- get ;;
  match sending_flow s with
  | None => fail F_assert
  | Some f =>
      assert (is_none (previous_flow s)) ;;
      assert (negb (schedule_job s)) ;;
      assert (negb (freeing s)) ;;
      x <- flow_ f ;;
      assert (negb (is_queued x)) ;;
      modify (set_sending None (sending_len s)) ;;
      modify (set_previous (Some f)) ;;
      increment_sent_flow f (u64 (packet_weight (cfg s) + sending_len s)) ;;
      modify (set_job true) ;;
      PacketPassInterface_Done f ;;
      x <- flow_ f ;;
      if handler_busy x then upd_flow f (set_handler false) ;; emit (Busy f) else ret tt
  end.

(** ** Init and Free *)

Definition PacketPassFairQueue_Init (mtu : Z) (use_cancel has_cancel : bool) (packet_weight : Z)
    : option (option (sys * list out)) :=
  if (packet_weight >? 0) && (negb use_cancel || has_cancel) then
    if negb ((mtu <=? FAIRQUEUE_MAX_TIME) && (packet_weight <=? FAIRQUEUE_MAX_TIME - mtu)) then Some None else
    Some (Some (mk_sys (mk_config mtu use_cancel packet_weight) None 0 None et_empty [] false false ∅ false,
                [Sender_Init; Job_Init]))
  else None.                                     (** a failed [ASSERT] *)

Definition PacketPassFairQueue_Free : H unit :=
  s <- get ;;
  assert (if flows_list s then true else false) ;;
  assert (is_none (et_first (queued_tree s))) ;;
  assert (is_none (previous_flow s)) ;;
  assert (is_none (sending_flow s)) ;;
  modify (set_job false) ;;
  emit Job_Free.

Definition PacketPassFairQueue_PrepareFree : H unit := modify set_freeing.

(** [f]: the address of the flow. *)
Definition PacketPassFairQueueFlow_Init (f : Z) : H unit :=
  s <- get ;;
  assert (negb (freeing s)) ;;
  emit (Input_Init f (output_mtu (cfg s))) ;;
  modify (set_heap (<[f := mk_flow 0 false [] false false]> (heap s))) ;;
  modify (set_flows (flows_list s ++ [f])).

Definition PacketPassFairQueueFlow_Free (f : Z) : H unit :=
  s <- get ;;
  x <- flow_ f ;;
  assert (freeing s || negb (is_flow f (sending_flow s))) ;;
  (if is_flow f (sending_flow s) then modify (set_sending None (sending_len s)) else ret tt) ;;
  (if is_flow f (previous_flow s) then modify (set_previous None) else ret tt) ;;
  (if is_queued x then modify (set_tree (et_remove f (queued_tree s))) else ret tt) ;;
  modify (set_flows (list_remove f (flows_list s))) ;;
  emit (Input_Free f) ;;
  modify (set_heap (delete f (heap s))).

Definition PacketPassFairQueueFlow_AssertFree (f : Z) : H unit :=
  s <- get ;; assert (freeing s || negb (is_flow f (sending_flow s))).

Definition PacketPassFairQueueFlow_IsBusy (f : Z) : H bool :=
  s <- get ;; assert (negb (freeing s)) ;; ret (is_flow f (sending_flow s)).

Definition PacketPassFairQueueFlow_RequestCancel (f : Z) : H unit :=
  s <- get ;;
  assert (is_flow f (sending_flow s)) ;;
  assert (use_cancel (cfg s)) ;;
  assert (negb (freeing s)) ;;
  assert (negb (schedule_job s)) ;;
  emit Sender_RequestCancel.

Definition PacketPassFairQueueFlow_SetBusyHandler (f : Z) : H unit :=
  s <- get ;;
  assert (is_flow f (sending_flow s)) ;;
  assert (negb (freeing s)) ;;
  upd_flow f (set_handler true).

(** ** Events *)

Inductive event :=
  | E_init (f : Z)
  | E_send (f : Z) (data : list Z)               (** by the user of the flow *)
  | E_done                                       (** by the output *)
  | E_job                                        (** the schedule job runs *)
  | E_set_busy (f : Z) | E_cancel (f : Z)
  | E_prepare_free
  | E_free_flow (f : Z).

(** After [PrepareFree] there is only freeing. *)
Definition enabled (ev : event) (s : sys) : bool :=
  match ev with
  | E_init f => negb (freeing s) && bool_decide (heap s !! f = None)
  | E_send f data =>
      negb (freeing s) && (zlen data <=? output_mtu (cfg s)) &&
      match heap s !! f with Some x => negb (input_busy x) | None => false end
  | E_done => negb (freeing s) && output_busy s
  | E_job => negb (freeing s) && schedule_job s
  | E_set_busy f => negb (freeing s) && is_flow f (sending_flow s)
  | E_cancel f => negb (freeing s) && is_flow f (sending_flow s) && use_cancel (cfg s)
  | E_prepare_free => true
  | E_free_flow f => bool_decide (is_Some (heap s !! f)) && (freeing s || negb (is_flow f (sending_flow s)))
  end.

Definition deliver (ev : event) : H unit :=
  match ev with
  | E_init f => PacketPassFairQueueFlow_Init f
  | E_send f data => upd_flow f (set_input true) ;; input_handler_send f data
  | E_done => modify (set_output false) ;; output_handler_done
  | E_job => modify (set_job false) ;; schedule_job_handler
  | E_set_busy f => PacketPassFairQueueFlow_SetBusyHandler f
  | E_cancel f => PacketPassFairQueueFlow_RequestCancel f
  | E_prepare_free => PacketPassFairQueue_PrepareFree
  | E_free_flow f => PacketPassFairQueueFlow_Free f
  end.

(** The state and the outputs after the events. *)
Fixpoint run_events (evs : list event) (s : sys) : option (sys * list out) :=
  match evs with
  | [] => Some (s, [])
  | ev :: evs' =>
      if enabled ev s then
        match deliver ev s with
        | Ok _ s' tr => r ← run_events evs' s'; Some (r.1, tr ++ r.2)
        | Fault _ => None
        end
      else Some (s, [])
  end.

Definition run (mtu packet_weight : Z) (use_cancel : bool) (evs : list event) : option (sys * list out) :=
  match PacketPassFairQueue_Init mtu use_cancel use_cancel packet_weight with
  | Some (Some (s, _)) => run_events evs s
  | _ => None
  end.

(** ** Invariant *)

Definition queued (s : sys) : list Z := et_list (queued_tree s).

Record flow_ok (mtu : Z) (sending : option Z) (p : Z) (x : flow) : Prop := mk_flow_ok {
  fo_time : 0 <= time x <= FAIRQUEUE_MAX_TIME;
  fo_data : is_queued x = true -> zlen (queued_data x) <= mtu;
  fo_busy : input_busy x = is_queued x || is_flow p sending;
}.

(** Nothing queued is before the flow that is being sent. *)
Record sending_ok (s : sys) (f : Z) : Prop := mk_sending_ok {
  so_flow : exists x, heap s !! f = Some x /\ is_queued x = false /\ forall p, p ∈ queued s -> time x <= time (heap s !!! p);
  so_len : 0 <= sending_len s <= output_mtu (cfg s);
  so_previous : previous_flow s = None;
  so_job : schedule_job s = false;
}.

Record core (s : sys) : Prop := mk_core {
  i_cfg : 0 <= output_mtu (cfg s) /\ 0 < packet_weight (cfg s) /\ output_mtu (cfg s) + packet_weight (cfg s) <= FAIRQUEUE_MAX_TIME;
  i_flows : NoDup (flows_list s);
  i_heap p : is_Some (heap s !! p) <-> p ∈ flows_list s;
  i_flow p x : heap s !! p = Some x -> flow_ok (output_mtu (cfg s)) (sending_flow s) p x;
  i_nodup : NoDup (queued s);
  i_queued p : p ∈ queued s <-> exists x, heap s !! p = Some x /\ is_queued x = true;
  i_ordered : ordered (compare_flows (heap s)) (queued s);
  i_sending f : sending_flow s = Some f -> sending_ok s f;
  i_previous f : previous_flow s = Some f ->
    schedule_job s = true /\ exists x, heap s !! f = Some x /\ is_queued x = false;
  i_output : freeing s = false -> output_busy s = negb (is_none (sending_flow s));
}.

(** Queued flows do not wait for nothing. *)
Definition progress (s : sys) : Prop :=
  freeing s = false -> sending_flow s = None -> schedule_job s = false -> queued s = [].
Definition inv (s : sys) : Prop := core s /\ progress s.

Lemma is_flow_true p x : is_flow p x = true <-> x = Some p.
Proof. apply bool_decide_eq_true. Qed.

Lemma is_flow_false p x : is_flow p x = false <-> x <> Some p.
Proof. apply bool_decide_eq_false. Qed.

Lemma is_none_true {A} (x : option A) : is_none x = true <-> x = None.
Proof. by destruct x. Qed.

(** What the comparator decides: less time, or equal time and lower address. *)
Lemma compare_flows_lt h p q :
  compare_flows h p q < 0 <->
  time (h !!! p) < time (h !!! q) \/ (time (h !!! p) = time (h !!! q) /\ p < q).
Proof.
  unfold compare_flows. b_compare (time (h !!! p)) (time (h !!! q)); cbn; try lia. b_compare p q; lia.
Qed.

Lemma compare_flows_eq h p q : compare_flows h p q = 0 <-> p = q.
Proof.
  unfold compare_flows. split; [|intros ->; b_compare (time (h !!! q)) (time (h !!! q)); cbn; try lia; b_compare q q; lia].
  b_compare (time (h !!! p)) (time (h !!! q)); cbn; try lia. b_compare p q; lia.
Qed.

Lemma compare_flows_total h : total_cmp (compare_flows h).
Proof. apply (total_cmp_by (fun p => time (h !!! p))); [apply compare_flows_lt | apply compare_flows_eq]. Qed.

(** The first flow of the tree. *)
Lemma first_queued s f : core s -> et_first (queued_tree s) = Some f ->
  exists x l, heap s !! f = Some x /\ is_queued x = true /\ queued s = f :: l /\
    forall p, p ∈ l -> compare_flows (heap s) f p < 0.
Proof.
  intros I Hf. rewrite et_first_list in Hf. pose proof (i_ordered _ I) as Ho. pose proof (i_queued _ I f) as [Hq _].
  unfold queued in *. destruct (et_list (queued_tree s)) as [|p l] eqn:E; [done|]. injection Hf as ->.
  destruct Hq as (x & Hx & Hq); [by left|]. exists x, l. split_and!; try done.
  apply StronglySorted_inv in Ho as [_ Ho]. by rewrite Forall_forall in Ho.
Qed.

Lemma first_none s : et_first (queued_tree s) = None <-> queued s = [].
Proof. rewrite et_first_list. unfold queued. by destruct (et_list _). Qed.

(** Changing one flow that is not queued. *)
Lemma compare_insert h f x p q :
  p <> f -> q <> f -> compare_flows (<[f := x]> h) p q = compare_flows h p q.
Proof. intros. unfold compare_flows. by rewrite !lookup_total_insert_ne. Qed.

Lemma ordered_insert h f x l : f ∉ l -> ordered (compare_flows h) l -> ordered (compare_flows (<[f := x]> h)) l.
Proof.
  intros Hf. apply ordered_ext. intros p q Hp Hq. rewrite compare_insert; [done | by intros -> | by intros ->].
Qed.

Lemma wp_upd_flow f g s x (Q : unit -> sys -> list out -> Prop) :
  heap s !! f = Some x -> Q tt (set_heap (<[f := g x]> (heap s)) s) [] -> wp (upd_flow f g) s Q.
Proof. intros Hx HQ. unfold upd_flow, flow_. wp_step. eapply wp_load; [exact Hx|]. by wp_run. Qed.

(** ** Scheduling *)

Definition scheduled (f : Z) (x : flow) (s : sys) : sys :=
  set_sending (Some f) (zlen (queued_data x)) (set_output true
    (set_heap (<[f := set_queued false x]> (heap s)) (set_tree (et_remove f (queued_tree s)) s))).

Lemma queued_scheduled s f x l : core s -> queued s = f :: l -> queued (scheduled f x s) = l.
Proof.
  intros I E. pose proof (i_nodup _ I) as Hnd. unfold queued in *. cbn. rewrite et_remove_list by done. rewrite E in *.
  exact (list_remove_split f [] l Hnd).
Qed.

Lemma core_scheduled s f x l :
  core s -> sending_flow s = None -> previous_flow s = None -> schedule_job s = false ->
  heap s !! f = Some x -> is_queued x = true -> queued s = f :: l ->
  (forall p, p ∈ l -> compare_flows (heap s) f p < 0) -> core (scheduled f x s).
Proof.
  intros I Hs Hp Hj Hx Hq E Hmin. pose proof (queued_scheduled s f x l I E) as El.
  pose proof (i_nodup _ I) as Hnd. rewrite E in Hnd. apply NoDup_cons in Hnd as [Hfl Hnd].
  pose proof (i_flow _ I f x Hx) as [Ht Hd Hb].
  split; rewrite ?El; try (cbn; apply I).
  - intros p. cbn. rewrite lookup_insert_is_Some, (i_heap _ I).
    destruct (decide (f = p)) as [->|]; [|naive_solver]. rewrite <- (i_heap _ I). naive_solver.
  - intros p y. cbn. destruct (decide (p = f)) as [->|Hpf].
    + rewrite lookup_insert_eq. intros [= <-]. split; cbn; [done | done |].
      rewrite Hb, Hq. symmetry. by apply is_flow_true.
    + rewrite lookup_insert_ne by done. intros Hy. pose proof (i_flow _ I p y Hy) as [? ? Hby]. split; try done.
      rewrite Hby, Hs. f_equal. unfold is_flow. rewrite !bool_decide_false by naive_solver. done.
  - done.
  - intros p. cbn. destruct (decide (p = f)) as [->|Hpf].
    + rewrite lookup_insert_eq. naive_solver.
    + rewrite lookup_insert_ne by done. rewrite <- (i_queued _ I p), E, elem_of_cons. naive_solver.
  - cbn. apply ordered_insert; [done|]. pose proof (i_ordered _ I) as Ho. rewrite E in Ho.
    by apply StronglySorted_inv in Ho as [? _].
  - intros g [= <-]. split; cbn; try done.
    + exists (set_queued false x). rewrite lookup_insert_eq. split_and!; try done.
      intros p. fold (queued (scheduled f x s)). rewrite El. intros Hpl. rewrite lookup_total_insert_ne by (by intros ->).
      apply Hmin, compare_flows_lt in Hpl. rewrite (lookup_total_correct _ _ _ Hx) in Hpl. cbn. lia.
    + split; [apply zlen_nonneg | by apply Hd].
  - intros g. cbn. congruence.
  - done.
Qed.

Lemma schedule_wp s (Q : unit -> sys -> list out -> Prop) :
  core s -> sending_flow s = None -> previous_flow s = None -> freeing s = false -> schedule_job s = false -> queued s <> [] ->
  (forall f x, heap s !! f = Some x -> is_queued x = true -> (forall p, p ∈ queued s -> p <> f -> compare_flows (heap s) f p < 0) ->
     inv (scheduled f x s) -> Q tt (scheduled f x s) [Sender_Send f (queued_data x)]) ->
  wp schedule s Q.
Proof.
  intros I Hs Hp Hf Hj Hne HQ. unfold schedule. wp_step. wp_step. wp_step. wp_step; [by rewrite Hs|].
  wp_step. wp_step; [by rewrite Hp|]. wp_step. wp_step; [by rewrite Hf|].
  destruct (et_first (queued_tree s)) as [f|] eqn:Ef; [|by apply first_none in Ef].
  destruct (first_queued s f I Ef) as (x & l & Hx & Hq & El & Hmin). pose proof (i_flow _ I f x Hx) as [Ht Hd Hb].
  wp_step. eapply wp_load; [exact Hx|]. wp_step. wp_step; [done|]. do 2 wp_step.
  wp_step. eapply wp_upd_flow; [exact Hx|]. unfold PacketPassInterface_Sender_Send. wp_step. do 3 wp_step.
  wp_step; [apply Z.leb_le; by apply Hd|]. wp_step. wp_step; [cbn; by rewrite (i_output _ I Hf), Hs|]. wp_run.
  apply (HQ f x); try done.
  - intros p. rewrite El, elem_of_cons. naive_solver.
  - split; [by apply (core_scheduled s f x l)|]. intros _. done.
Qed.

(** ** A packet from a flow *)

Definition enqueued (f : Z) (x : flow) (n : Z) (data : list Z) (t : etree) (s : sys) : sys :=
  set_tree t (set_heap (<[f := mk_flow n true data (handler_busy x) true]> (heap s))
    (if is_flow f (previous_flow s) then set_previous None s else s)).

(** The heap may differ in what [get_current_time] does not read. *)
Definition same_times (h h' : gmap Z flow) : Prop :=
  forall p y, h !! p = Some y -> exists y', h' !! p = Some y' /\ time y' = time y /\ is_queued y' = is_queued y.

Lemma get_current_time_wp s h (Q : Z -> sys -> list out -> Prop) :
  core s -> same_times (heap s) h ->
  (forall n, 0 <= n <= FAIRQUEUE_MAX_TIME ->
     (forall g, sending_flow s = Some g -> n = time (heap s !!! g)) -> Q n (set_heap h s) []) ->
  wp get_current_time (set_heap h s) Q.
Proof.
  intros I Hh HQ. assert (Hmax : 0 <= FAIRQUEUE_MAX_TIME) by done. unfold get_current_time, flow_. do 2 wp_step. cbn.
  destruct (sending_flow s) as [g|] eqn:Es.
  - destruct (so_flow _ _ (i_sending _ I g Es)) as (x & Hx & _). destruct (Hh g x Hx) as (x' & Hx' & Et & _).
    wp_step. eapply wp_load; [exact Hx'|]. wp_step. rewrite Et. apply HQ; [by destruct (i_flow _ I g x Hx)|].
    intros g' Hg'. assert (g' = g) as -> by congruence. by rewrite (lookup_total_correct _ _ _ Hx).
  - wp_step. apply (wp_mono _ _ (fun first s' tr => s' = set_heap h s /\ tr = [] /\
      match first with Some n => 0 <= n <= FAIRQUEUE_MAX_TIME | None => True end)).
    { destruct (et_first (queued_tree s)) as [f|] eqn:Ef; [|by wp_step].
      destruct (first_queued s f I Ef) as (x & l & Hx & Hq & _). destruct (Hh f x Hx) as (x' & Hx' & Et & Eq).
      wp_step. eapply wp_load; [exact Hx'|]. wp_step. wp_step; [congruence|]. wp_step. rewrite Et.
      pose proof (fo_time _ _ _ _ (i_flow _ I f x Hx)). by split_and!; try lia. }
    intros first s' tr (-> & -> & Hfirst). wp_step.
    apply (wp_mono _ _ (fun best s' tr => s' = set_heap h s /\ tr = [] /\
      match best with Some n => 0 <= n <= FAIRQUEUE_MAX_TIME | None => True end)).
    { destruct (previous_flow s) as [p|] eqn:Ep; [|by wp_step]. destruct (i_previous _ I p Ep) as (_ & x & Hx & _).
      destruct (Hh p x Hx) as (x' & Hx' & Et & _). wp_step. eapply wp_load; [exact Hx'|]. wp_step. rewrite Et.
      split; [done|]. split; [done|]. pose proof (fo_time _ _ _ _ (i_flow _ I p x Hx)).
      destruct first as [n|]; [|done]. by destruct (time x <? n). }
    intros best s' tr (-> & -> & Hbest). wp_step. apply HQ; [|done]. by destruct best.
Qed.

Lemma core_enqueued s f x n data t :
  core s -> freeing s = false -> heap s !! f = Some x -> is_queued x = false -> sending_flow s <> Some f ->
  0 <= n <= FAIRQUEUE_MAX_TIME -> (forall g, sending_flow s = Some g -> time (heap s !!! g) <= n) ->
  zlen data <= output_mtu (cfg s) -> et_list t ≡ₚ f :: queued s ->
  ordered (compare_flows (<[f := mk_flow n true data (handler_busy x) true]> (heap s))) (et_list t) ->
  core (enqueued f x n data t s).
Proof.
  intros I Hfr Hx Hq Hs Hn Hcur Hd Hl Ho.
  assert (Hfq : f ∉ queued s) by (intros (y & Hy & ?)%(i_queued _ I); congruence).
  assert (E : exists p, enqueued f x n data t s =
    mk_sys (cfg s) (sending_flow s) (sending_len s) p t (flows_list s) (freeing s) (schedule_job s)
      (<[f := mk_flow n true data (handler_busy x) true]> (heap s)) (output_busy s) /\
    (previous_flow s = None -> p = None) /\ forall g, p = Some g -> g <> f /\ previous_flow s = Some g).
  { unfold enqueued. destruct (is_flow f (previous_flow s)) eqn:E; [by exists None|]. exists (previous_flow s).
    split_and!; try done. intros g Hg. apply is_flow_false in E. naive_solver. }
  destruct E as (p & -> & Hp0 & Hp). split; unfold queued; cbn; try apply I; try done.
  - intros q. rewrite lookup_insert_is_Some, (i_heap _ I). destruct (decide (f = q)) as [->|]; [|naive_solver].
    rewrite <- (i_heap _ I). naive_solver.
  - intros q y. destruct (decide (q = f)) as [->|Hqf].
    + rewrite lookup_insert_eq. by intros [= <-].
    + rewrite lookup_insert_ne by done. apply (i_flow _ I).
  - rewrite Hl. constructor; [done | apply I].
  - intros q. rewrite Hl, elem_of_cons. destruct (decide (q = f)) as [->|Hqf].
    + rewrite lookup_insert_eq. naive_solver.
    + rewrite lookup_insert_ne by done. rewrite (i_queued _ I). naive_solver.
  - intros g Hg. pose proof (i_sending _ I g Hg) as [(y & Hy & Hyq & Hmin) Hlen Hpr Hj]. split; cbn; try done; [|by apply Hp0].
    exists y. assert (g <> f) by congruence. rewrite lookup_insert_ne by done. split_and!; try done.
    intros q. unfold queued. cbn. rewrite Hl. intros [->|Hqq]%elem_of_cons.
    + rewrite lookup_total_insert_eq. cbn. specialize (Hcur g Hg). by rewrite (lookup_total_correct _ _ _ Hy) in Hcur.
    + rewrite lookup_total_insert_ne by (by intros ->). by apply Hmin.
  - intros g Hg. destruct (Hp g Hg) as [Hgf Hg']. destruct (i_previous _ I g Hg') as [? ?]. by rewrite lookup_insert_ne.
Qed.

Lemma compare_flows_time h h' p q :
  (forall r, time (h !!! r) = time (h' !!! r)) -> compare_flows h p q = compare_flows h' p q.
Proof. intros E. unfold compare_flows. by rewrite !E. Qed.

(** The time of a flow that has a packet, and the previous flow. *)
Lemma raise_wp s f x :
  core s -> same_times (heap s) (<[f := set_input true x]> (heap s)) -> 0 <= time x <= FAIRQUEUE_MAX_TIME ->
  wp (if is_flow f (previous_flow (set_heap (<[f := set_input true x]> (heap s)) s)) then modify (set_previous None)
      else
        current <- get_current_time ;;
        upd_flow f (set_time (Z.max (time (set_input true x)) current))) (set_heap (<[f := set_input true x]> (heap s)) s)
    (fun _ s' tr => tr = [] /\ exists n, time x <= n <= FAIRQUEUE_MAX_TIME /\
      (forall g, sending_flow s = Some g -> time (heap s !!! g) <= n) /\
      s' = set_heap (<[f := set_time n (set_input true x)]> (heap s)) (if is_flow f (previous_flow s) then set_previous None s else s)).
Proof.
  intros I Hsame Ht. cbn [previous_flow set_heap]. destruct (is_flow f (previous_flow s)) eqn:Ef.
  - wp_step. split; [done|]. exists (time x). split_and!; try lia; [|done].
    intros g Hg. apply is_flow_true in Ef. pose proof (so_previous _ _ (i_sending _ I g Hg)). congruence.
  - wp_step. apply get_current_time_wp; [done | done |]. intros n Hn Hcur. eapply wp_upd_flow; [apply lookup_insert_eq|].
    split; [done|]. exists (Z.max (time x) n). split_and!; [lia | lia | intros g Hg; rewrite <- (Hcur g Hg); lia |].
    unfold set_heap. cbn. by rewrite insert_insert_eq.
Qed.

(** Sending on a flow: it is queued, with its time raised unless it sent last, and,
    if nothing is in the way, the first flow is sent. *)
Lemma send_wp s f x data (Q : unit -> sys -> list out -> Prop) :
  inv s -> freeing s = false -> heap s !! f = Some x -> input_busy x = false -> zlen data <= output_mtu (cfg s) ->
  (forall n t (s1 := enqueued f x n data t s), time x <= n -> core s1 -> queued s1 ≡ₚ f :: queued s ->
     ((sending_flow s1 <> None \/ schedule_job s1 = true) -> Q tt s1 []) /\
     (forall g y, sending_flow s1 = None -> schedule_job s1 = false -> heap s1 !! g = Some y -> is_queued y = true ->
        (forall p, p ∈ queued s1 -> p <> g -> compare_flows (heap s1) g p < 0) ->
        inv (scheduled g y s1) -> Q tt (scheduled g y s1) [Sender_Send g (queued_data y)])) ->
  wp (deliver (E_send f data)) s Q.
Proof.
  intros [I Hp] Hfr Hx Hb Hd HQ. pose proof (fo_busy _ _ _ _ (i_flow _ I f x Hx)) as Hbusy. rewrite Hb in Hbusy.
  symmetry in Hbusy. apply orb_false_iff in Hbusy as [Hq Hs]. pose proof (fo_time _ _ _ _ (i_flow _ I f x Hx)) as Ht.
  cbn [deliver]. wp_step. eapply wp_upd_flow; [exact Hx|]. set (h1 := <[f := set_input true x]> (heap s)).
  unfold input_handler_send. wp_step. wp_step. wp_step. wp_step; [cbn; by rewrite Hs|].
  unfold flow_. wp_step. eapply wp_load; [apply lookup_insert_eq|]. wp_step. wp_step; [cbn; by rewrite Hq|].
  wp_step. wp_step; [cbn; by rewrite Hfr|]. apply is_flow_false in Hs.
  assert (Hsame : same_times (heap s) h1).
  { intros p y Hy. destruct (decide (p = f)) as [->|].
    - exists (set_input true x). unfold h1. rewrite lookup_insert_eq. by assert (y = x) as -> by congruence.
    - exists y. by unfold h1; rewrite lookup_insert_ne. }
  wp_step. eapply wp_mono; [by apply raise_wp|].
  intros _ s' tr (-> & n & Hn & Hcur & ->). wp_step. eapply wp_upd_flow; [apply lookup_insert_eq|].
  cbn [heap set_heap]. rewrite insert_insert_eq. do 2 wp_step.
  set (h2 := <[f := set_data data (set_time n (set_input true x))]> (heap s)).
  set (h3 := <[f := mk_flow n true data (handler_busy x) true]> (heap s)).
  assert (Et : queued_tree (if is_flow f (previous_flow s) then set_previous None s else s) = queued_tree s) by by destruct (is_flow f _).
  assert (Hfq : f ∉ queued s) by (intros (y & Hy & ?)%(i_queued _ I); congruence).
  destruct (et_insert_list (compare_flows h2) f (queued_tree s)) as (t & Ei & Hl & Ho); [apply compare_flows_total | | done |].
  { by apply ordered_insert, I. }
  cbn [heap set_heap queued_tree] in *. rewrite Et, Ei. do 2 wp_step. wp_step. eapply wp_upd_flow; [apply lookup_insert_eq|]. cbn [heap set_heap set_tree].
  unfold h2. rewrite insert_insert_eq.
  assert (Ho3 : ordered (compare_flows h3) (et_list t)).
  { revert Ho. apply ordered_ext. intros p q _ _. rewrite (compare_flows_time h2 h3); [done|]. intros r. unfold h2, h3.
    destruct (decide (r = f)) as [->|]; [by rewrite !lookup_total_insert_eq | by rewrite !lookup_total_insert_ne]. }
  assert (Hcore : core (enqueued f x n data t s)) by (apply core_enqueued; try done; lia).
  match goal with |- wp _ ?st _ => change st with (enqueued f x n data t s) end. do 2 wp_step.
  destruct (HQ n t) as [H1 H2]; [lia | done | done |]. set (s1 := enqueued f x n data t s) in *.
  destruct (sending_flow s1) as [g|] eqn:Es; cbn [is_none andb]; [wp_step; by apply H1; left|].
  destruct (schedule_job s1) eqn:Ej; cbn [negb]; [wp_step; by apply H1; right|].
  apply schedule_wp; try done.
  - destruct (previous_flow s1) as [g|] eqn:Epr; [|done]. destruct (i_previous _ Hcore g Epr). congruence.
  - unfold s1, enqueued. by destruct (is_flow f _).
  - intros En. change (queued s1) with (et_list t) in En. rewrite En in Hl. by apply Permutation_nil_cons in Hl.
  - intros g y Hy Hyq Hmin Hi. by apply H2.
Qed.

(** ** The end of a packet *)

(** All times lowered; the flow [f] that was sent may go below zero, which wraps. *)
Definition lowered (sub f : Z) (l : list Z) (h : gmap Z flow) : gmap Z flow :=
  map_imap (fun p y => Some (if bool_decide (p ∈ l)
    then set_time (if p =? f then u64 (time y - sub) else Z.max 0 (time y - sub)) y else y)) h.

(** All times lowered by [sub] and [f]'s raised by [amount], as integers. *)
Definition bumped (sub amount f : Z) (h : gmap Z flow) : gmap Z flow :=
  map_imap (fun p y => Some (set_time (if p =? f then time y - sub + amount else Z.max 0 (time y - sub)) y)) h.

Lemma lookup_bumped sub amount f h p y : h !! p = Some y ->
  bumped sub amount f h !! p = Some (set_time (if p =? f then time y - sub + amount else Z.max 0 (time y - sub)) y).
Proof. intros Hy. unfold bumped. by rewrite map_lookup_imap, Hy. Qed.

Lemma bumped_some sub amount f h p : is_Some (bumped sub amount f h !! p) <-> is_Some (h !! p).
Proof. unfold bumped. rewrite map_lookup_imap. destruct (h !! p); cbn; split; intros []; eauto; done. Qed.

Lemma lowered_cons sub f p l h y :
  p ∉ l -> h !! p = Some y ->
  lowered sub f l (<[p := set_time (if p =? f then u64 (time y - sub) else Z.max 0 (time y - sub)) y]> h) = lowered sub f (p :: l) h.
Proof.
  intros Hp Hy. apply map_eq. intros q. unfold lowered. rewrite !map_lookup_imap. destruct (decide (q = p)) as [->|Hqp].
  - rewrite lookup_insert_eq, Hy. cbn. rewrite bool_decide_false by done. rewrite bool_decide_true by (by left). done.
  - rewrite lookup_insert_ne by done. destruct (h !! q); [|done]. cbn. do 2 f_equal.
    by rewrite (bool_decide_ext (q ∈ l) (q ∈ p :: l)) by (rewrite elem_of_cons; naive_solver).
Qed.

Lemma u64_sub a b : 0 <= b <= a -> a <= FAIRQUEUE_MAX_TIME -> u64 (a - b) = a - b.
Proof. intros. apply u64_id. unfold FAIRQUEUE_MAX_TIME, UINT64_MAX in *. lia. Qed.

Lemma subtract_times_wp sub f l s :
  NoDup l -> 0 <= sub ->
  (forall p, p ∈ l -> exists y, heap s !! p = Some y /\ 0 <= time y <= FAIRQUEUE_MAX_TIME /\
     (is_queued y = true -> p = f \/ sub <= time y)) ->
  wp (subtract_times sub f l) s (fun _ s' tr => s' = set_heap (lowered sub f l (heap s)) s /\ tr = []).
Proof.
  intros Hnd Hsub. revert s. induction Hnd as [|p l Hp Hnd IH]; intros s Hl; cbn [subtract_times].
  - wp_step. split; [|done]. replace (lowered sub f [] (heap s)) with (heap s); [by destruct s|].
    apply map_eq. intros q. unfold lowered. rewrite map_lookup_imap. by destruct (heap s !! q).
  - destruct (Hl p) as (y & Hy & Ht & Hq); [by left|]. unfold flow_. wp_step. eapply wp_load; [exact Hy|]. wp_step.
    set (v := if p =? f then u64 (time y - sub) else Z.max 0 (time y - sub)).
    apply (wp_mono _ _ (fun _ s' tr => s' = set_heap (<[p := set_time v y]> (heap s)) s /\ tr = [])).
    { destruct (Z.gtb_spec sub (time y)), (Z.eqb_spec p f) as [Ef|Ef]; cbn [negb andb]; unfold v.
      - eapply wp_upd_flow; [exact Hy|]. done.
      - wp_step. wp_step; [destruct (is_queued y); [by destruct (Hq eq_refl); [|lia]|done]|].
        eapply wp_upd_flow; [exact Hy|]. by replace (Z.max 0 (time y - sub)) with 0 by lia.
      - eapply wp_upd_flow; [exact Hy|]. done.
      - eapply wp_upd_flow; [exact Hy|]. rewrite u64_sub by lia. by replace (Z.max 0 (time y - sub)) with (time y - sub) by lia. }
    intros _ s' tr [-> ->]. eapply wp_mono; [apply IH|].
    + intros q Hql. cbn. rewrite lookup_insert_ne by (by intros ->). apply Hl. by right.
    + intros _ s' tr [-> ->]. cbn. unfold v. by rewrite lowered_cons.
Qed.

(** The state at the end of the flow's packet, before its time is raised. *)
Definition sent (f : Z) (s : sys) : sys := set_previous (Some f) (set_sending None (sending_len s) (set_output false s)).

(** What the overflow branch leaves, and the other one with [sub] 0. *)
Definition lowered_or_same (sub f : Z) (s : sys) : gmap Z flow :=
  if decide (sub = 0) then heap s else lowered sub f (flows_list s) (heap s).

Definition lower_post (s : sys) (f : Z) (x : flow) (amount : Z) (s' : sys) (tr : list out) : Prop :=
  tr = [] /\ exists sub, 0 <= sub /\ (forall p, p ∈ queued s -> sub <= time (heap s !!! p)) /\
    0 <= time x - sub + amount <= FAIRQUEUE_MAX_TIME /\ s' = set_heap (lowered_or_same sub f s) (sent f s).

Lemma lower_all_wp s f x amount sub :
  core s -> 0 <= time x -> 0 <= amount <= FAIRQUEUE_MAX_TIME -> FAIRQUEUE_MAX_TIME - time x < amount ->
  time x <= sub <= FAIRQUEUE_MAX_TIME -> (forall p, p ∈ queued s -> sub <= time (heap s !!! p)) ->
  wp (subtract_times sub f (flows_list s)) (sent f s) (fun _ s' tr => lower_post s f x amount s' tr).
Proof.
  intros I Ht Ha Hov Hsub Hall. eapply wp_mono; [apply subtract_times_wp; [apply I | lia |]|].
  - intros p Hp. apply (i_heap _ I) in Hp as [y Hy]. exists y. split_and!; try done; try apply (i_flow _ I p y Hy).
    intros Hyq. right. rewrite <- (lookup_total_correct _ _ _ Hy). apply Hall, (i_queued _ I). eauto.
  - intros _ s' tr [-> ->]. split; [done|]. exists sub. split_and!; try done; try lia.
    unfold lowered_or_same. rewrite decide_False by lia. done.
Qed.

Lemma lower_wp s f x amount :
  core s -> sending_flow s = Some f -> heap s !! f = Some x -> 0 <= amount <= FAIRQUEUE_MAX_TIME ->
  (forall p, p ∈ queued s -> time x <= time (heap s !!! p)) ->
  wp (if amount >? FAIRQUEUE_MAX_TIME - time x then
        subtract <- (match et_first (queued_tree s) with
                     | None => ret (time x)
                     | Some g => y <- load heap g ;; assert (is_queued y) ;; ret (time y)
                     end) ;;
        subtract_times subtract f (flows_list s)
      else ret tt) (sent f s) (fun _ s' tr => lower_post s f x amount s' tr).
Proof.
  intros I Hs Hx Ha Hmin. pose proof (fo_time _ _ _ _ (i_flow _ I f x Hx)) as Ht.
  destruct (Z.gtb_spec amount (FAIRQUEUE_MAX_TIME - time x)) as [Hov|Hov].
  - wp_step. destruct (et_first (queued_tree s)) as [g|] eqn:Eg.
    + destruct (first_queued s g I Eg) as (y & l & Hy & Hyq & El & Hlt). wp_step. eapply wp_load; [exact Hy|].
      wp_step. wp_step; [done|]. wp_step. assert (Hg : g ∈ queued s) by (rewrite El; by left).
      specialize (Hmin g Hg). rewrite (lookup_total_correct _ _ _ Hy) in Hmin. pose proof (i_flow _ I g y Hy) as [Hyt _ _].
      apply lower_all_wp; try done; try lia. intros p. rewrite El. intros [->|Hp]%elem_of_cons; [by rewrite (lookup_total_correct _ _ _ Hy)|].
      apply Hlt, compare_flows_lt in Hp. rewrite (lookup_total_correct _ _ _ Hy) in Hp. lia.
    + wp_step. apply lower_all_wp; try done; lia.
  - wp_step. split; [done|]. exists 0. split_and!; try lia; try done.
    intros p Hp. apply (i_queued _ I) in Hp as (y & Hy & _). rewrite (lookup_total_correct _ _ _ Hy).
    apply (fo_time _ _ _ _ (i_flow _ I p y Hy)).
Qed.

(** Lowering and then raising [f]'s time modulo [2^64] is [bumped]. *)
Lemma lookup_lowered s f sub x :
  core s -> heap s !! f = Some x ->
  lowered_or_same sub f s !! f = Some (set_time (if decide (sub = 0) then time x else u64 (time x - sub)) x).
Proof.
  intros I Hx. unfold lowered_or_same. destruct (decide (sub = 0)); [rewrite Hx; by destruct x|].
  unfold lowered. rewrite map_lookup_imap, Hx. cbn. rewrite bool_decide_true by (apply (i_heap _ I); eauto). by rewrite Z.eqb_refl.
Qed.

Lemma bumped_lowered s f sub x amount n :
  core s -> heap s !! f = Some x -> 0 <= sub -> n = time x - sub + amount ->
  <[f := set_time n (set_time (if decide (sub = 0) then time x else u64 (time x - sub)) x)]> (lowered_or_same sub f s) =
  bumped sub amount f (heap s).
Proof.
  intros I Hx H0 ->. apply map_eq. intros p. destruct (decide (p = f)) as [->|Hpf].
  - rewrite lookup_insert_eq, (lookup_bumped _ _ _ _ _ x Hx), Z.eqb_refl. done.
  - rewrite lookup_insert_ne by done. unfold lowered_or_same, bumped. rewrite map_lookup_imap. destruct (heap s !! p) as [y|] eqn:Hy.
    + cbn. pose proof (i_flow _ I p y Hy) as [Hyt _ _]. rewrite (proj2 (Z.eqb_neq p f) Hpf). destruct (decide (sub = 0)) as [->|].
      * rewrite Hy. replace (Z.max 0 (time y - 0)) with (time y) by lia. by destruct y.
      * unfold lowered. rewrite map_lookup_imap, Hy. cbn. rewrite bool_decide_true by (apply (i_heap _ I); eauto).
        by rewrite (proj2 (Z.eqb_neq p f) Hpf).
    + cbn. destruct (decide (sub = 0)); [done|]. unfold lowered. by rewrite map_lookup_imap, Hy.
Qed.

Lemma increment_wp s f x amount :
  core s -> sending_flow s = Some f -> heap s !! f = Some x -> 0 <= amount <= FAIRQUEUE_MAX_TIME ->
  wp (increment_sent_flow f amount) (sent f s) (fun _ s' tr => tr = [] /\ exists sub,
    0 <= sub /\ (forall p, p ∈ queued s -> sub <= time (heap s !!! p)) /\ 0 <= time x - sub + amount <= FAIRQUEUE_MAX_TIME /\
    s' = set_heap (bumped sub amount f (heap s)) (sent f s)).
Proof.
  intros I Hs Hx Ha. pose proof (i_sending _ I f Hs) as [(x' & Hx' & Hq & Hmin) _ _ _]. assert (x' = x) as -> by congruence.
  pose proof (fo_time _ _ _ _ (i_flow _ I f x Hx)) as Ht. assert (Hmax : FAIRQUEUE_MAX_TIME = 18446744073709551615) by done.
  unfold increment_sent_flow, flow_. wp_step. wp_step; [lia|]. wp_step. eapply wp_load; [exact Hx|]. wp_step.
  wp_step; [by rewrite Hq|]. wp_step. wp_step. wp_step. wp_step; [done|]. wp_step.
  eapply wp_mono; [by apply (lower_wp s f x amount)|]. intros _ s' tr (-> & sub & H0 & Hall & Hr & ->).
  pose proof (lookup_lowered s f sub x I Hx) as Hhf. wp_step. eapply wp_load; [exact Hhf|]. eapply wp_upd_flow; [exact Hhf|].
  split; [done|]. exists sub. split_and!; try done; try lia. cbn [heap set_heap]. rewrite (bumped_lowered _ _ _ _ amount); try done.
  cbn [time set_time]. destruct (decide (sub = 0)) as [->|]; [rewrite u64_id by lia; lia|].
  unfold u64. rewrite Zplus_mod_idemp_l, Z.mod_small by lia. lia.
Qed.

Definition finished (f : Z) (x : flow) (sub amount : Z) (s : sys) : sys :=
  set_heap (<[f := mk_flow (time x - sub + amount) false (queued_data x) false false]> (bumped sub amount f (heap s)))
    (set_job true (sent f s)).

Lemma finished_lookup f x sub amount s p y :
  p <> f -> heap s !! p = Some y ->
  heap (finished f x sub amount s) !! p = Some (set_time (Z.max 0 (time y - sub)) y).
Proof.
  intros Hp Hy. cbn. rewrite lookup_insert_ne by done. rewrite (lookup_bumped _ _ _ _ _ y Hy).
  by rewrite (proj2 (Z.eqb_neq p f) Hp).
Qed.

Lemma finished_inv f x sub amount s :
  core s -> sending_flow s = Some f -> heap s !! f = Some x -> 0 <= sub ->
  (forall p, p ∈ queued s -> sub <= time (heap s !!! p)) -> 0 <= time x - sub + amount <= FAIRQUEUE_MAX_TIME ->
  inv (finished f x sub amount s).
Proof.
  intros I Hs Hx Hsub Hall Hr. pose proof (i_sending _ I f Hs) as [(x' & Hx' & Hq & _) _ _ _].
  assert (x' = x) as -> by congruence. set (s' := finished f x sub amount s).
  assert (Hback : forall p y, heap s' !! p = Some y -> p <> f ->
    exists y0, heap s !! p = Some y0 /\ y = set_time (Z.max 0 (time y0 - sub)) y0).
  { intros p y Hy Hp. assert (Hi : is_Some (heap s !! p)).
    { apply (bumped_some sub amount f). cbn in Hy. rewrite lookup_insert_ne in Hy by done. eauto. }
    destruct Hi as [y0 Hy0]. exists y0. split; [done|]. unfold s' in Hy. rewrite (finished_lookup _ _ _ _ _ _ _ Hp Hy0) in Hy. congruence. }
  assert (Hsf : heap s' !! f = Some (mk_flow (time x - sub + amount) false (queued_data x) false false)) by apply lookup_insert_eq.
  split; [|by intros _ _ ?]. split; try apply I.
  - intros p. change (flows_list s') with (flows_list s). rewrite <- (i_heap _ I p). cbn. rewrite lookup_insert_is_Some, bumped_some. destruct (decide (f = p)) as [->|]; naive_solver.
  - intros p y Hy. destruct (decide (p = f)) as [->|Hp].
    + rewrite Hsf in Hy. injection Hy as <-. by split.
    + destruct (Hback p y Hy Hp) as (y0 & Hy0 & ->). pose proof (i_flow _ I p y0 Hy0) as [Ht Hd Hb]. split; cbn; [lia | done |].
      rewrite Hb, Hs. f_equal. unfold is_flow. rewrite !bool_decide_false by congruence. done.
  - intros p. change (queued s') with (queued s). rewrite (i_queued _ I p). destruct (decide (p = f)) as [->|Hp].
    + rewrite Hsf, Hx. naive_solver congruence.
    + split.
      * intros (y & Hy & Hyq). eexists. split; [by apply finished_lookup|]. done.
      * intros (y & Hy & Hyq). destruct (Hback p y Hy Hp) as (y0 & Hy0 & ->). eauto.
  - change (queued s') with (queued s). eapply ordered_ext; [|apply (i_ordered _ I)]. intros p q Hp Hq'.
    pose proof (Hall p Hp). pose proof (Hall q Hq').
    apply (i_queued _ I) in Hp as (y & Hy & Hyq). apply (i_queued _ I) in Hq' as (z & Hz & Hzq).
    assert (p <> f) by congruence. assert (q <> f) by congruence.
    rewrite !compare_flows_lt. rewrite (lookup_total_correct _ _ _ (finished_lookup f x sub amount s p y ltac:(done) Hy)).
    rewrite (lookup_total_correct _ _ _ (finished_lookup f x sub amount s q z ltac:(done) Hz)).
    rewrite (lookup_total_correct _ _ _ Hy), (lookup_total_correct _ _ _ Hz) in *. cbn. lia.
  - intros g. done.
  - intros g [= <-]. split; [done|]. eauto.
  - intros _. done.
Qed.

Lemma done_wp s f x (Q : unit -> sys -> list out -> Prop) :
  inv s -> freeing s = false -> sending_flow s = Some f -> heap s !! f = Some x ->
  (forall sub (amount := packet_weight (cfg s) + sending_len s), 0 <= sub ->
     (forall p, p ∈ queued s -> sub <= time (heap s !!! p)) ->
     inv (finished f x sub amount s) ->
     Q tt (finished f x sub amount s) (Input_Done f :: if handler_busy x then [Busy f] else [])) ->
  wp (deliver E_done) s Q.
Proof.
  intros [I Hp] Hfr Hs Hx HQ. pose proof (i_sending _ I f Hs) as [(x' & Hx' & Hq & _) Hlen Hpr Hj].
  assert (x' = x) as -> by congruence. pose proof (i_cfg _ I) as (Hc1 & Hc2 & Hc3).
  pose proof (fo_busy _ _ _ _ (i_flow _ I f x Hx)) as Hb. rewrite Hq, Hs in Hb. cbn in Hb.
  rewrite (proj2 (is_flow_true f (Some f)) eq_refl) in Hb.
  cbn [deliver]. wp_step. wp_step. unfold output_handler_done. wp_step. wp_step. cbn [sending_flow set_output]. rewrite Hs.
  wp_step. wp_step; [cbn; by rewrite Hpr|]. wp_step. wp_step; [cbn; by rewrite Hj|]. wp_step. wp_step; [cbn; by rewrite Hfr|].
  unfold flow_. wp_step. eapply wp_load; [exact Hx|]. wp_step. wp_step; [by rewrite Hq|]. wp_step. wp_step. wp_step. wp_step.
  assert (Hu : u64 (packet_weight (cfg s) + sending_len s) = packet_weight (cfg s) + sending_len s).
  { apply u64_id. unfold FAIRQUEUE_MAX_TIME, UINT64_MAX in *. lia. }
  wp_step. cbn [cfg sending_len set_output]. rewrite Hu. eapply wp_mono; [apply (increment_wp s f x); try done; lia|].
  intros _ s' tr (-> & sub & H0 & Hall & Hr & ->). do 2 wp_step. unfold PacketPassInterface_Done, flow_.
  wp_step. wp_step. eapply wp_load; [by apply (lookup_bumped _ _ _ _ _ x)|]. wp_step. wp_step; [done|]. do 2 wp_step.
  eapply wp_upd_flow; [by apply (lookup_bumped _ _ _ _ _ x)|]. wp_step. eapply wp_load; [apply lookup_insert_eq|].
  rewrite Z.eqb_refl. cbn [handler_busy set_input set_time]. pose proof (finished_inv f x sub _ s I Hs Hx H0 Hall Hr) as Hi.
  assert (E : mk_flow (time x - sub + (packet_weight (cfg s) + sending_len s)) false (queued_data x) false false =
    set_handler false (set_input false (set_time (time x - sub + (packet_weight (cfg s) + sending_len s)) x))).
  { unfold set_handler, set_input, set_time. cbn. by rewrite Hq. }
  specialize (HQ sub H0 Hall Hi). unfold finished in HQ. rewrite E in HQ. destruct (handler_busy x) eqn:Eh.
  - wp_step. eapply wp_upd_flow; [apply lookup_insert_eq|]. wp_step. cbn [heap set_heap]. rewrite insert_insert_eq. exact HQ.
  - wp_step. assert (E' : forall y, handler_busy y = false -> set_handler false y = y) by (intros [] ?; cbn in *; by subst).
    rewrite E' in HQ by done. exact HQ.
Qed.

(** ** The schedule job *)

Definition unscheduled (s : sys) : sys := set_previous None (set_job false s).

Lemma job_pending_idle s : core s -> schedule_job s = true -> sending_flow s = None.
Proof. intros I Hj. destruct (sending_flow s) as [f|] eqn:E; [|done]. destruct (i_sending _ I f E). congruence. Qed.

Lemma core_unscheduled s : core s -> schedule_job s = true -> core (unscheduled s).
Proof.
  intros I Hj. pose proof (job_pending_idle s I Hj) as Hs. split; try apply I.
  - intros g. cbn. congruence.
  - done.
Qed.

Lemma job_wp s (Q : unit -> sys -> list out -> Prop) :
  inv s -> freeing s = false -> schedule_job s = true ->
  (queued s = [] -> inv (unscheduled s) -> Q tt (unscheduled s) []) ->
  (forall f x, heap s !! f = Some x -> is_queued x = true -> (forall p, p ∈ queued s -> p <> f -> compare_flows (heap s) f p < 0) ->
     inv (scheduled f x (unscheduled s)) -> Q tt (scheduled f x (unscheduled s)) [Sender_Send f (queued_data x)]) ->
  wp (deliver E_job) s Q.
Proof.
  intros [I Hp] Hfr Hj H1 H2. pose proof (job_pending_idle s I Hj) as Hs. pose proof (core_unscheduled s I Hj) as I1.
  cbn [deliver]. wp_step. wp_step. unfold schedule_job_handler. wp_step. wp_step. wp_step. wp_step; [cbn; by rewrite Hs|].
  wp_step. wp_step; [cbn; by rewrite Hfr|]. wp_step. wp_step. cbn [queued_tree set_job].
  change (set_previous None (set_job false s)) with (unscheduled s).
  destruct (et_first (queued_tree s)) as [g|] eqn:Eg; cbn [is_none negb].
  - apply schedule_wp; try done. change (queued (unscheduled s)) with (queued s). intros Hq. apply first_none in Hq. congruence.
  - wp_step. apply first_none in Eg. apply H1; [done|]. split; [done|]. intros _ _ _. exact Eg.
Qed.

(** ** Flows *)

Lemma fq_init_wp s f (Q : unit -> sys -> list out -> Prop) (s' := set_flows (flows_list s ++ [f]) (set_heap (<[f := mk_flow 0 false [] false false]> (heap s)) s)) :
  inv s -> freeing s = false -> heap s !! f = None -> (inv s' -> Q tt s' [Input_Init f (output_mtu (cfg s))]) ->
  wp (deliver (E_init f)) s Q.
Proof.
  intros [I Hp] Hfr Hf HQ. cbn [deliver]. unfold PacketPassFairQueueFlow_Init. wp_step. wp_step. wp_step. wp_step; [by rewrite Hfr|].
  wp_run. apply HQ. assert (Hfl : f ∉ flows_list s) by (intros [? ?]%(i_heap _ I); congruence).
  assert (Hfq : f ∉ queued s) by (intros (? & ? & _)%(i_queued _ I); congruence). split; [|exact Hp]. split; try apply I.
  - cbn. apply NoDup_app. split_and!; [apply I | | apply NoDup_singleton]. by intros p Hpl ->%list_elem_of_singleton.
  - intros p. cbn. rewrite lookup_insert_is_Some, elem_of_app, list_elem_of_singleton, (i_heap _ I p).
    destruct (decide (f = p)); naive_solver.
  - intros p y. cbn. destruct (decide (p = f)) as [->|Hpf].
    + rewrite lookup_insert_eq. intros [= <-]. split; cbn; [done | done |]. symmetry. apply is_flow_false. intros Hs.
      destruct (so_flow _ _ (i_sending _ I f Hs)) as (? & ? & _). congruence.
    + rewrite lookup_insert_ne by done. apply (i_flow _ I).
  - intros p. change (queued s') with (queued s). cbn. destruct (decide (p = f)) as [->|Hpf].
    + rewrite lookup_insert_eq. naive_solver.
    + rewrite lookup_insert_ne by done. apply (i_queued _ I).
  - by apply ordered_insert, I.
  - intros g Hg. pose proof (i_sending _ I g Hg) as [(y & Hy & Hyq & Hmin) ? ? ?]. split; try done. exists y. cbn.
    assert (g <> f) by congruence. rewrite lookup_insert_ne by done. split_and!; try done.
    intros p Hpq. rewrite lookup_total_insert_ne by (by intros ->). by apply Hmin.
  - intros g Hg. pose proof (i_previous _ I g Hg) as (? & y & Hy & ?). split; [done|]. exists y. cbn.
    by rewrite lookup_insert_ne by congruence.
Qed.

Definition freed (f : Z) (x : flow) (s : sys) : sys :=
  mk_sys (cfg s) (if is_flow f (sending_flow s) then None else sending_flow s) (sending_len s)
    (if is_flow f (previous_flow s) then None else previous_flow s)
    (if is_queued x then et_remove f (queued_tree s) else queued_tree s)
    (list_remove f (flows_list s)) (freeing s) (schedule_job s) (delete f (heap s)) (output_busy s).

Lemma queued_freed s f x : core s -> heap s !! f = Some x -> queued (freed f x s) = list_remove f (queued s).
Proof.
  intros I Hx. unfold queued, freed. cbn. destruct (is_queued x) eqn:Eq; [apply et_remove_list, I|].
  rewrite list_remove_notin; [done|]. intros (y & Hy & ?)%(i_queued _ I). congruence.
Qed.

Lemma free_flow_wp s f x (Q : unit -> sys -> list out -> Prop) :
  inv s -> heap s !! f = Some x -> freeing s = true \/ sending_flow s <> Some f ->
  (inv (freed f x s) -> Q tt (freed f x s) [Input_Free f]) -> wp (deliver (E_free_flow f)) s Q.
Proof.
  intros [I Hp] Hx Hfr HQ. cbn [deliver]. unfold PacketPassFairQueueFlow_Free, flow_. wp_step. wp_step. wp_step.
  eapply wp_load; [exact Hx|]. wp_step. wp_step.
  { destruct Hfr as [-> | Hfr]; [done|]. apply is_flow_false in Hfr as ->. apply orb_true_r. }
  wp_step. apply (wp_mono _ _ (fun _ s' tr => tr = [] /\
    s' = set_sending (if is_flow f (sending_flow s) then None else sending_flow s) (sending_len s) s)).
  { destruct (is_flow f (sending_flow s)); wp_step; split; try done. by destruct s. }
  intros _ s1 tr [-> ->]. wp_step. apply (wp_mono _ _ (fun _ s' tr => tr = [] /\
    s' = set_previous (if is_flow f (previous_flow s) then None else previous_flow s)
          (set_sending (if is_flow f (sending_flow s) then None else sending_flow s) (sending_len s) s))).
  { destruct (is_flow f (previous_flow s)); wp_step; by split. }
  intros _ s2 tr [-> ->]. wp_step. apply (wp_mono _ _ (fun _ s' tr => tr = [] /\
    s' = set_tree (if is_queued x then et_remove f (queued_tree s) else queued_tree s)
          (set_previous (if is_flow f (previous_flow s) then None else previous_flow s)
          (set_sending (if is_flow f (sending_flow s) then None else sending_flow s) (sending_len s) s)))).
  { destruct (is_queued x); wp_step; by split. }
  intros _ s3 tr [-> ->]. wp_run. apply HQ. clear HQ. pose proof (queued_freed s f x I Hx) as Eq.
  assert (Hsend : forall g, sending_flow (freed f x s) = Some g -> g <> f /\ sending_flow s = Some g).
  { cbn. intros g. destruct (is_flow f (sending_flow s)) eqn:E; [done|]. apply is_flow_false in E. naive_solver. }
  split; [split; rewrite ?Eq; try apply I|].
  - cbn. apply NoDup_list_remove, I.
  - intros p. cbn. rewrite lookup_delete_is_Some, elem_of_list_remove, (i_heap _ I p). naive_solver.
  - intros p y Hy0. cbn in Hy0. apply lookup_delete_Some in Hy0 as [Hpf Hy]. pose proof (i_flow _ I p y Hy) as [? ? Hb]. split; try done. rewrite Hb. f_equal. cbn.
    destruct (is_flow f (sending_flow s)) eqn:E; [|done]. apply is_flow_true in E. rewrite E. unfold is_flow.
    rewrite !bool_decide_false by congruence. done.
  - apply NoDup_list_remove, I.
  - intros p. rewrite elem_of_list_remove, (i_queued _ I p). cbn. split.
    + intros (? & y & ? & ?). exists y. by rewrite lookup_delete_ne.
    + intros (y & [? ?]%lookup_delete_Some & ?). split; [done|]. eauto.
  - eapply ordered_ext; [|apply ordered_filter, (i_ordered _ I)]. intros p q Hpq Hqq.
    apply elem_of_list_remove in Hpq as [? _], Hqq as [? _]. rewrite !compare_flows_lt. cbn. by rewrite !lookup_total_delete_ne.
  - intros g Hg. destruct (Hsend g Hg) as [Hgf Hg']. pose proof (i_sending _ I g Hg') as [(y & Hy & Hyq & Hmin) ? Hpr ?].
    split; try done; [|cbn; by rewrite Hpr]. exists y. cbn. rewrite lookup_delete_ne by done. split_and!; try done.
    intros p. rewrite Eq. intros [? ?]%elem_of_list_remove. rewrite lookup_total_delete_ne by done. by apply Hmin.
  - intros g. cbn. destruct (is_flow f (previous_flow s)) eqn:E; [done|]. intros Hg. apply is_flow_false in E.
    destruct (i_previous _ I g Hg) as (? & y & ? & ?). split; [done|]. exists y. rewrite lookup_delete_ne by congruence. done.
  - cbn. intros Hfr'. destruct Hfr as [Hfr|Hfr]; [congruence|]. apply is_flow_false in Hfr as ->. by apply I.
  - intros Hfr' Hs Hj. rewrite Eq. cbn in *. destruct Hfr as [Hfr|Hfr]; [congruence|]. apply is_flow_false in Hfr. rewrite Hfr in Hs.
    by rewrite (Hp Hfr' Hs Hj).
Qed.

(** ** Fairness

    [lead]: by how much the waiting flow [q] is ahead of [f] in time, the packet of
    [f] that is being sent counted. *)

Definition weight_of (s : sys) (n : Z) : Z := packet_weight (cfg s) + n.
Definition lead (q f : Z) (s : sys) : Z :=
  time (heap s !!! q) - time (heap s !!! f) - (if is_flow f (sending_flow s) then weight_of s (sending_len s) else 0).

(** The weight of what [f] sent. *)
Definition sent_by (w f : Z) (tr : list out) : Z :=
  foldr (fun x n => match x with Sender_Send g d => if g =? f then w + zlen d + n else n | _ => n end) 0 tr.

Definition is_send (q : Z) (x : out) : bool := match x with Sender_Send g _ => g =? q | _ => false end.
Definition sends (q : Z) (tr : list out) : bool := existsb (is_send q) tr.

Definition fair_step (ev : event) (s s' : sys) (tr : list out) : Prop := forall q f,
  q ∈ queued s -> is_Some (heap s !! f) -> ev <> E_free_flow q -> ev <> E_free_flow f -> sends q tr = false ->
  q ∈ queued s' /\ is_Some (heap s' !! f) /\
  lead q f s' + sent_by (packet_weight (cfg s)) f tr <= lead q f s /\
  (0 < sent_by (packet_weight (cfg s)) f tr -> - weight_of s (output_mtu (cfg s)) <= lead q f s').

(** Steps that send nothing. *)
Lemma fair_quiet ev s s' tr :
  (forall f, sent_by (packet_weight (cfg s)) f tr = 0) ->
  (forall q f, q ∈ queued s -> is_Some (heap s !! f) -> ev <> E_free_flow q -> ev <> E_free_flow f ->
     q ∈ queued s' /\ is_Some (heap s' !! f) /\ lead q f s' <= lead q f s) -> fair_step ev s s' tr.
Proof. intros Hn H q f Hq Hf H1 H2 _. destruct (H q f Hq Hf H1 H2) as (? & ? & ?). rewrite Hn. split_and!; try done; lia. Qed.

(** A step that sends the first flow of [s1]. *)
Lemma fair_scheduled ev s s1 g y :
  core s1 -> cfg s1 = cfg s -> sending_flow s1 = None -> heap s1 !! g = Some y -> is_queued y = true ->
  (forall p, p ∈ queued s1 -> p <> g -> compare_flows (heap s1) g p < 0) ->
  (forall q f, q ∈ queued s -> is_Some (heap s !! f) -> ev <> E_free_flow q -> ev <> E_free_flow f ->
     q ∈ queued s1 /\ is_Some (heap s1 !! f) /\ lead q f s1 <= lead q f s) ->
  fair_step ev s (scheduled g y s1) [Sender_Send g (queued_data y)].
Proof.
  intros I Hc Hs Hy Hyq Hmin H q f Hq Hf H1 H2 Hsend. destruct (H q f Hq Hf H1 H2) as (Hq1 & Hf1 & Hle).
  cbn in Hsend. rewrite orb_false_r in Hsend. apply Z.eqb_neq in Hsend.
  pose proof (fo_data _ _ _ _ (i_flow _ I g y Hy) Hyq) as Hd. pose proof (i_cfg _ I) as (_ & Hw & _). rewrite Hc in *.
  assert (Htime : forall p, time (heap (scheduled g y s1) !!! p) = time (heap s1 !!! p)).
  { intros p. cbn. destruct (decide (p = g)) as [->|]; [|by rewrite lookup_total_insert_ne].
    by rewrite lookup_total_insert_eq, (lookup_total_correct _ _ _ Hy). }
  assert (Hl : lead q f (scheduled g y s1) = lead q f s1 - sent_by (packet_weight (cfg s)) f [Sender_Send g (queued_data y)]).
  { unfold lead, weight_of. rewrite !Htime. cbn [sending_flow sending_len scheduled set_sending cfg set_output set_heap set_tree].
    rewrite Hs, Hc. cbn [sent_by foldr]. unfold is_flow. rewrite (bool_decide_false (None = Some f)) by done.
    destruct (Z.eqb_spec g f) as [->|Hgf]; [rewrite bool_decide_true by done | rewrite bool_decide_false by congruence]; lia. }
  split_and!.
  - unfold queued. cbn. rewrite et_remove_list by apply (i_nodup _ I). apply elem_of_list_remove. split; [congruence | exact Hq1].
  - cbn. apply lookup_insert_is_Some. destruct (decide (g = f)); [by left | by right].
  - lia.
  - intros Hpos. rewrite Hl. unfold lead. rewrite Hs. unfold is_flow. rewrite (bool_decide_false (None = Some f)) by done.
    cbn [sent_by foldr] in *. destruct (Z.eqb_spec g f) as [->|]; [|lia].
    specialize (Hmin q Hq1 ltac:(congruence)). apply compare_flows_lt in Hmin. unfold weight_of. lia.
Qed.

Lemma fair_enqueued s f x n data t q g :
  core s -> heap s !! f = Some x -> is_queued x = false -> time x <= n -> queued (enqueued f x n data t s) ≡ₚ f :: queued s ->
  q ∈ queued s -> is_Some (heap s !! g) ->
  q ∈ queued (enqueued f x n data t s) /\ is_Some (heap (enqueued f x n data t s) !! g) /\
  lead q g (enqueued f x n data t s) <= lead q g s.
Proof.
  intros I Hx Hxq Hn Hl Hq Hg. assert (Hqf : q <> f) by (intros ->; apply (i_queued _ I) in Hq as (? & ? & ?); congruence).
  split_and!.
  - rewrite Hl. by right.
  - cbn. apply lookup_insert_is_Some. destruct (decide (f = g)); [by left | by right].
  - unfold lead, weight_of, enqueued.
    replace (sending_flow _) with (sending_flow s) by by destruct (is_flow f _).
    replace (cfg _) with (cfg s) by by destruct (is_flow f _). replace (sending_len _) with (sending_len s) by by destruct (is_flow f _).
    cbn. rewrite lookup_total_insert_ne by done. destruct (decide (g = f)) as [->|].
    + rewrite lookup_total_insert_eq, (lookup_total_correct _ _ _ Hx). cbn. lia.
    + by rewrite lookup_total_insert_ne.
Qed.

Lemma fair_finished s f x sub (amount := packet_weight (cfg s) + sending_len s) q g :
  core s -> sending_flow s = Some f -> heap s !! f = Some x -> (forall p, p ∈ queued s -> sub <= time (heap s !!! p)) ->
  q ∈ queued s -> is_Some (heap s !! g) ->
  q ∈ queued (finished f x sub amount s) /\ is_Some (heap (finished f x sub amount s) !! g) /\
  lead q g (finished f x sub amount s) <= lead q g s.
Proof.
  intros I Hs Hx Hall Hq [z Hz]. split; [exact Hq|]. specialize (Hall q Hq).
  destruct (so_flow _ _ (i_sending _ I f Hs)) as (x' & Hx' & Hxq & _). apply (i_queued _ I) in Hq as (y & Hy & Hyq).
  assert (Hqf : q <> f) by congruence. split.
  - cbn. apply lookup_insert_is_Some. destruct (decide (f = g)); [by left|]. right. split; [done|]. apply bumped_some. eauto.
  - unfold lead. rewrite Hs. cbn [sending_flow finished set_heap set_job sent set_previous set_sending]. unfold is_flow.
    rewrite (bool_decide_false (None = Some g)) by done. rewrite (lookup_total_correct _ _ _ Hy) in *.
    rewrite (lookup_total_correct _ _ _ (finished_lookup f x sub amount s q y Hqf Hy)). cbn [time set_time].
    rewrite (lookup_total_correct _ _ _ Hz). destruct (decide (g = f)) as [->|Hgf].
    + rewrite bool_decide_true by done. cbn. rewrite lookup_total_insert_eq. cbn. unfold weight_of, amount.
      assert (z = x) as -> by congruence. lia.
    + rewrite bool_decide_false by congruence. rewrite (lookup_total_correct _ _ _ (finished_lookup f x sub amount s g z Hgf Hz)).
      cbn. lia.
Qed.

(** Steps that change no time of the flows that stay. *)
Lemma fair_same ev s s' tr :
  core s -> (forall f, sent_by (packet_weight (cfg s)) f tr = 0) -> cfg s' = cfg s -> sending_len s' = sending_len s ->
  (forall q, q ∈ queued s -> ev <> E_free_flow q -> q ∈ queued s') ->
  (forall p, ev <> E_free_flow p -> is_flow p (sending_flow s') = is_flow p (sending_flow s)) ->
  (forall p y, heap s !! p = Some y -> ev <> E_free_flow p -> exists y', heap s' !! p = Some y' /\ time y' = time y) ->
  fair_step ev s s' tr.
Proof.
  intros I Hn Ec El Eq Es Hh. apply fair_quiet; [done|]. intros q f Hq [y Hy] H1 H2. split; [by apply Eq|].
  destruct (Hh f y Hy H2) as (y' & Hy' & Et). split; [eauto|]. apply (i_queued _ I) in Hq as (z & Hz & _).
  destruct (Hh q z Hz H1) as (z' & Hz' & Ez). unfold lead, weight_of. rewrite Ec, El, (Es f H2).
  rewrite (lookup_total_correct _ _ _ Hy'), (lookup_total_correct _ _ _ Hy), (lookup_total_correct _ _ _ Hz'), (lookup_total_correct _ _ _ Hz). lia.
Qed.

(** ** Every event *)

Lemma inv_set_handler s f x b : inv s -> heap s !! f = Some x -> inv (set_heap (<[f := set_handler b x]> (heap s)) s).
Proof.
  intros [I Hp] Hx. split; [|exact Hp].
  assert (Ht : forall p, time (<[f := set_handler b x]> (heap s) !!! p) = time (heap s !!! p)).
  { intros p. destruct (decide (p = f)) as [->|]; [|by rewrite lookup_total_insert_ne].
    by rewrite lookup_total_insert_eq, (lookup_total_correct _ _ _ Hx). }
  assert (Hh : forall p y, heap s !! p = Some y -> exists y', <[f := set_handler b x]> (heap s) !! p = Some y' /\ is_queued y' = is_queued y /\ time y' = time y).
  { intros p y Hy. destruct (decide (p = f)) as [->|]; [rewrite lookup_insert_eq; naive_solver | rewrite lookup_insert_ne by done; naive_solver]. }
  split; try apply I.
  - intros p. cbn. rewrite lookup_insert_is_Some, <- (i_heap _ I p). destruct (decide (f = p)) as [->|]; naive_solver.
  - intros p y. cbn. destruct (decide (p = f)) as [->|].
    + rewrite lookup_insert_eq. intros [= <-]. by destruct (i_flow _ I f x Hx).
    + rewrite lookup_insert_ne by done. apply (i_flow _ I).
  - intros p. change (queued (set_heap _ s)) with (queued s). cbn. rewrite (i_queued _ I p). destruct (decide (p = f)) as [->|].
    + rewrite lookup_insert_eq, Hx. naive_solver.
    + by rewrite lookup_insert_ne.
  - eapply ordered_ext; [|apply (i_ordered _ I)]. intros p q _ _. by rewrite (compare_flows_time _ (<[f := set_handler b x]> (heap s))) by done.
  - intros g Hg. pose proof (i_sending _ I g Hg) as [(y & Hy & Hyq & Hmin) ? ? ?]. split; try done.
    destruct (Hh g y Hy) as (y' & Hy' & Eq & Et). exists y'. split_and!; [done | congruence |]. intros p Hpq. cbn. rewrite Et, Ht. by apply Hmin.
  - intros g Hg. destruct (i_previous _ I g Hg) as (? & y & Hy & Hyq). split; [done|]. destruct (Hh g y Hy) as (y' & ? & ? & _).
    exists y'. split; [done | congruence].
Qed.

Lemma fq_deliver_wp s ev :
  inv s -> enabled ev s = true -> wp (deliver ev) s (fun _ s' tr => inv s' /\ cfg s' = cfg s /\ fair_step ev s s' tr).
Proof.
  intros I He. pose proof I as [Ic Hpr]. destruct ev as [f | f data | | | f | f | | f]; cbn [enabled] in He.
  - apply andb_true_iff in He as [Hf Hn%bool_decide_eq_true]. apply negb_true_iff in Hf. apply fq_init_wp; [done..|]. intros I'.
    split_and!; try done. apply fair_same; try done. intros p y Hy _. cbn. exists y. by rewrite lookup_insert_ne by congruence.
  - apply andb_true_iff in He as [He Hx]. apply andb_true_iff in He as [Hf Hd%Z.leb_le]. apply negb_true_iff in Hf.
    destruct (heap s !! f) as [x|] eqn:Ex; [|done]. apply negb_true_iff in Hx.
    pose proof (fo_busy _ _ _ _ (i_flow _ Ic f x Ex)) as Hb. rewrite Hx in Hb. symmetry in Hb. apply orb_false_iff in Hb as [Hxq _].
    apply (send_wp s f x); try done. intros n t s1 Hn I1 Hl.
    assert (Ec : cfg s1 = cfg s) by (unfold s1, enqueued; by destruct (is_flow f _)).
    assert (Hfair : forall q g, q ∈ queued s -> is_Some (heap s !! g) -> E_send f data <> E_free_flow q -> E_send f data <> E_free_flow g ->
      q ∈ queued s1 /\ is_Some (heap s1 !! g) /\ lead q g s1 <= lead q g s) by (intros; by apply fair_enqueued).
    split.
    + intros Hor. split; [|split; [done | by apply fair_quiet]]. split; [done|]. intros _ H1 H2. destruct Hor; congruence.
    + intros g y Hs Hj Hy Hyq Hmin Hi. split_and!; [done | done |]. by apply fair_scheduled.
  - apply andb_true_iff in He as [Hf Ho]. apply negb_true_iff in Hf. rewrite (i_output _ Ic Hf) in Ho.
    destruct (sending_flow s) as [f|] eqn:Es; [|done]. destruct (so_flow _ _ (i_sending _ Ic f Es)) as (x & Hx & _).
    apply (done_wp s f x); try done. intros sub amount H0 Hall I'. split_and!; [done | done |]. apply fair_quiet.
    + intros g. by destruct (handler_busy x).
    + intros q g Hq Hg _ _. by apply fair_finished.
  - apply andb_true_iff in He as [Hf Hj]. apply negb_true_iff in Hf. apply job_wp; try done.
    + intros _ I'. split_and!; try done. apply fair_same; try done. eauto.
    + intros f x Hx Hq Hmin I'. split_and!; try done. apply fair_scheduled; try done; [by apply core_unscheduled | by apply (job_pending_idle s)].
  - apply andb_true_iff in He as [Hf Hs]. apply negb_true_iff in Hf. cbn [deliver]. unfold PacketPassFairQueueFlow_SetBusyHandler.
    do 4 wp_step; [done|]. do 2 wp_step; [by rewrite Hf|]. apply is_flow_true in Hs.
    destruct (so_flow _ _ (i_sending _ Ic f Hs)) as (x & Hx & _). eapply wp_upd_flow; [exact Hx|].
    split_and!; [by apply inv_set_handler | done |]. apply fair_same; try done. intros p y Hy _. cbn.
    destruct (decide (p = f)) as [->|]; [rewrite lookup_insert_eq; naive_solver | rewrite lookup_insert_ne by done; eauto].
  - apply andb_true_iff in He as [He Hu]. apply andb_true_iff in He as [Hf Hs]. apply negb_true_iff in Hf. cbn [deliver].
    unfold PacketPassFairQueueFlow_RequestCancel. do 4 wp_step; [done|]. do 2 wp_step; [done|]. do 2 wp_step; [by rewrite Hf|].
    apply is_flow_true in Hs. do 2 wp_step; [by rewrite (so_job _ _ (i_sending _ Ic f Hs))|]. wp_run. split_and!; try done.
    apply fair_same; try done. eauto.
  - cbn [deliver]. unfold PacketPassFairQueue_PrepareFree. wp_step. split_and!; [|done|].
    + split; [|by intros ?]. split; try apply Ic; [|done]. intros g Hg. by destruct (i_sending _ Ic g Hg).
    + apply fair_same; try done. eauto.
  - apply andb_true_iff in He as [[x Hx]%bool_decide_eq_true Hf].
    assert (Hor : freeing s = true \/ sending_flow s <> Some f).
    { apply orb_true_iff in Hf as [?|Hs]; [by left|]. right. by apply is_flow_false, negb_true_iff. }
    apply (free_flow_wp s f x); try done. intros I'. split_and!; [done | done |]. apply fair_same; try done.
    + intros q Hq Hne. rewrite (queued_freed s f x Ic Hx). apply elem_of_list_remove. split; [congruence | done].
    + intros p Hne. cbn. destruct (is_flow f (sending_flow s)) eqn:E; [|done]. apply is_flow_true in E. rewrite E.
      unfold is_flow. rewrite !bool_decide_false by congruence. done.
    + intros p y Hy Hne. exists y. cbn. by rewrite lookup_delete_ne by congruence.
Qed.

(** ** Runs *)

Lemma fq_run_events evs s : inv s ->
  exists s' tr, run_events evs s = Some (s', tr) /\ inv s' /\ cfg s' = cfg s.
Proof.
  revert s. induction evs as [|ev evs IH]; intros s I; cbn [run_events]; [eauto|].
  destruct (enabled ev s) eqn:He; [|eauto].
  destruct (wp_ok _ _ _ (fq_deliver_wp s ev I He)) as (u & s1 & tr & -> & I1 & Ec & _).
  destruct (IH s1 I1) as (s' & tr' & -> & I' & Ec'). cbn. rewrite <- Ec. eauto.
Qed.

(** The arguments of [PacketPassFairQueue_Init]. *)
Definition init_ok (mtu weight : Z) : Prop := 0 <= mtu /\ 0 < weight /\ mtu + weight <= FAIRQUEUE_MAX_TIME.

Lemma fq_run mtu weight uc evs : init_ok mtu weight ->
  exists s tr, run mtu weight uc evs = Some (s, tr) /\ inv s /\ cfg s = mk_config mtu uc weight.
Proof.
  intros (Hm & Hw & Hs). unfold run, PacketPassFairQueue_Init.
  replace ((weight >? 0) && _) with true by (destruct uc; lia). replace (negb _) with false by lia.
  edestruct fq_run_events as (s & tr & -> & I & Ec); [|eauto]. split; [|intros _ _ _; apply et_empty_list]. split; unfold queued; cbn; rewrite ?et_empty_list; try done.
  - constructor.
  - intros p. rewrite lookup_empty, is_Some_alt. by rewrite elem_of_nil.
  - constructor.
  - intros p. rewrite lookup_empty, elem_of_nil. naive_solver.
  - constructor.
Qed.

Lemma fq_run_of mtu weight uc evs s tr : init_ok mtu weight -> run mtu weight uc evs = Some (s, tr) ->
  inv s /\ cfg s = mk_config mtu uc weight.
Proof. intros Hi E. destruct (fq_run mtu weight uc evs Hi) as (s' & tr' & E' & ? & ?). simplify_eq. done. Qed.

(** Freeing all flows, in the order of the list. *)
Lemma free_all s : inv s -> freeing s = true ->
  exists s' tr, run_events (E_free_flow <$> flows_list s) s = Some (s', tr) /\ inv s' /\ flows_list s' = [] /\
    tr = Input_Free <$> flows_list s.
Proof.
  remember (flows_list s) as l eqn:El. revert s El. induction l as [|f l IH]; intros s El I Hf.
  - exists s, []. cbn. by rewrite <- El.
  - destruct (proj2 (i_heap _ (proj1 I) f)) as [x Hx]; [rewrite <- El; by left|].
    pose proof (i_flows _ (proj1 I)) as Hnd. rewrite <- El in Hnd.
    change (run_events (E_free_flow <$> f :: l) s) with
      (if enabled (E_free_flow f) s then
         match deliver (E_free_flow f) s with
         | Ok _ s' tr => r ← run_events (E_free_flow <$> l) s'; Some (r.1, tr ++ r.2)
         | Fault _ => None
         end
       else Some (s, [])).
    replace (enabled (E_free_flow f) s) with true by (cbn; rewrite Hx, Hf; by rewrite bool_decide_true by done).
    destruct (wp_ok _ _ _ (free_flow_wp s f x (fun _ s' tr => inv s' /\ s' = freed f x s /\ tr = [Input_Free f]) I Hx
      (or_introl Hf) (fun I' => conj I' (conj eq_refl eq_refl)))) as (u & s1 & tr1 & -> & I1 & -> & ->).
    destruct (IH (freed f x s)) as (s' & tr & -> & I' & E' & ->); [|done|done|].
    { cbn. rewrite <- El. symmetry. exact (list_remove_split f [] l Hnd). }
    cbn. eauto 10.
Qed.

Lemma queue_free_wp s : inv s -> flows_list s = [] ->
  wp PacketPassFairQueue_Free s (fun _ s' tr => heap s' = ∅ /\ schedule_job s' = false /\ tr = [Job_Free]).
Proof.
  intros [I Hp] El. assert (Hh : heap s = ∅).
  { apply map_empty. intros p. apply eq_None_not_Some. rewrite (i_heap _ I), El. by intros ?%elem_of_nil. }
  unfold PacketPassFairQueue_Free. do 4 wp_step; [by rewrite El|]. wp_step. wp_step.
  { destruct (et_first (queued_tree s)) as [f|] eqn:Ef; [|done]. destruct (first_queued s f I Ef) as (x & l & Hx & _).
    by rewrite Hh, lookup_empty in Hx. }
  wp_step. wp_step.
  { destruct (previous_flow s) as [f|] eqn:Ef; [|done]. destruct (i_previous _ I f Ef) as (_ & x & Hx & _). by rewrite Hh, lookup_empty in Hx. }
  wp_step. wp_step.
  { destruct (sending_flow s) as [f|] eqn:Ef; [|done]. destruct (so_flow _ _ (i_sending _ I f Ef)) as (x & Hx & _). by rewrite Hh, lookup_empty in Hx. }
  wp_run.
Qed.

Lemma sent_by_app w f tr tr' : sent_by w f (tr ++ tr') = sent_by w f tr + sent_by w f tr'.
Proof. unfold sent_by. induction tr as [|x tr IH]; cbn; [done|]. rewrite IH. destruct x; try lia. destruct (_ =? f); lia. Qed.

Lemma sent_by_nonneg w f tr : 0 <= w -> 0 <= sent_by w f tr.
Proof. unfold sent_by. intros. induction tr as [|x tr IH]; cbn; [done|]. destruct x; try done. pose proof (zlen_nonneg data). destruct (_ =? f); lia. Qed.

(** What [f] sends while [q] waits. *)
Lemma waits_bounded evs s s' tr q f :
  inv s -> run_events evs s = Some (s', tr) -> q ∈ queued s -> is_Some (heap s !! f) ->
  E_free_flow q ∉ evs -> E_free_flow f ∉ evs -> sends q tr = false ->
  sent_by (packet_weight (cfg s)) f tr <= Z.max 0 (lead q f s + weight_of s (output_mtu (cfg s))).
Proof.
  revert s tr. induction evs as [|ev evs IH]; intros s tr I Hrun Hq Hf H1 H2 Hs; cbn [run_events] in Hrun.
  - injection Hrun as _ <-. cbn. lia.
  - destruct (enabled ev s) eqn:He; [|injection Hrun as _ <-; cbn; lia].
    destruct (wp_ok _ _ _ (fq_deliver_wp s ev I He)) as (u & s1 & tr1 & E & I1 & Ec & Hfair). rewrite E in Hrun.
    destruct (run_events evs s1) as [[s2 tr2]|] eqn:E2; [|done]. cbn in Hrun. injection Hrun as -> <-.
    apply not_elem_of_cons in H1 as [H1 H1'], H2 as [H2 H2']. unfold sends in Hs. rewrite existsb_app in Hs.
    apply orb_false_iff in Hs as [Hs1 Hs2].
    destruct (Hfair q f Hq Hf ltac:(congruence) ltac:(congruence) Hs1) as (Hq1 & Hf1 & Hle & Hpos).
    specialize (IH s1 tr2 I1 E2 Hq1 Hf1 H1' H2' Hs2). unfold weight_of in *. rewrite Ec in IH.
    rewrite sent_by_app. pose proof (i_cfg _ (proj1 I)) as (? & ? & _).
    pose proof (sent_by_nonneg (packet_weight (cfg s)) f tr1 ltac:(lia)). lia.
Qed.

(** ** Properties *)

(** The flow [f] with packet [d] is the first: least time, then lowest address. *)
Definition first_flow (s : sys) (f : Z) (d : list Z) : Prop :=
  exists x, heap s !! f = Some x /\ is_queued x = true /\ queued_data x = d /\
    forall p, p ∈ queued s -> p <> f ->
      time x < time (heap s !!! p) \/ (time x = time (heap s !!! p) /\ f < p).

Lemma least_first s f x : heap s !! f = Some x -> is_queued x = true ->
  (forall p, p ∈ queued s -> p <> f -> compare_flows (heap s) f p < 0) -> first_flow s f (queued_data x).
Proof.
  intros Hx Hq Hmin. exists x. split_and!; try done. intros p Hp Hne. specialize (Hmin p Hp Hne).
  apply compare_flows_lt in Hmin. by rewrite (lookup_total_correct _ _ _ Hx) in Hmin.
Qed.

(** The clocks after [f] has sent [amount]: as integers, all are lowered by the same
    [sub], which is 0 unless [f]'s would overflow, and [f]'s is raised. *)
Definition clocks (s s' : sys) (f amount : Z) : Prop :=
  exists sub, 0 <= sub /\ time (heap s' !!! f) = time (heap s !!! f) - sub + amount /\
    0 <= time (heap s' !!! f) <= FAIRQUEUE_MAX_TIME /\
    (forall p, p ∈ queued s -> sub <= time (heap s !!! p) /\ time (heap s' !!! p) = time (heap s !!! p) - sub) /\
    forall p, p <> f -> is_Some (heap s !! p) -> time (heap s' !!! p) = Z.max 0 (time (heap s !!! p) - sub).

Lemma clocks_finished s f x sub amount : inv (finished f x sub amount s) -> core s -> sending_flow s = Some f ->
  heap s !! f = Some x -> 0 <= sub -> (forall p, p ∈ queued s -> sub <= time (heap s !!! p)) ->
  clocks s (finished f x sub amount s) f amount.
Proof.
  intros I' I Hs Hx H0 Hall. destruct (so_flow _ _ (i_sending _ I f Hs)) as (x' & Hx' & Hxq & _).
  set (s' := finished f x sub amount s) in *.
  assert (Hf : heap s' !! f = Some (mk_flow (time x - sub + amount) false (queued_data x) false false)) by apply lookup_insert_eq.
  assert (Hother : forall p, p <> f -> is_Some (heap s !! p) -> time (heap s' !!! p) = Z.max 0 (time (heap s !!! p) - sub)).
  { intros p Hp [y Hy]. rewrite (lookup_total_correct _ _ _ (finished_lookup f x sub amount s p y Hp Hy)).
    by rewrite (lookup_total_correct _ _ _ Hy). }
  pose proof (fo_time _ _ _ _ (i_flow _ (proj1 I') f _ Hf)) as Ht. cbn in Ht.
  exists sub. rewrite (lookup_total_correct _ _ _ Hf), (lookup_total_correct _ _ _ Hx). cbn [time]. split_and!; try done; try lia.
  intros p Hp. pose proof (Hall p Hp). split; [done|]. apply (i_queued _ I) in Hp as (y & Hy & Hyq).
  rewrite Hother by (congruence || eauto). lia.
Qed.

Section Theorems.
Context (mtu weight : Z) (use_cancel : bool) (evs : list event) (Hinit : init_ok mtu weight).

(** Whatever flows come and go, send, and finish, no handler of the fair queue
    fails an assertion, calls the output while it is busy, finishes a packet of an
    idle flow, or uses a freed flow.  The tree holds exactly the queued flows; a
    queued flow always has something to wait for, the output or the schedule job;
    and after [PrepareFree], all flows and the queue can be freed at any moment,
    also while the output is busy. *)
Theorem fair_queue_safe :
  exists s tr, run mtu weight use_cancel evs = Some (s, tr) /\
    NoDup (queued s) /\ (forall p, p ∈ queued s <-> exists x, heap s !! p = Some x /\ is_queued x = true) /\
    (freeing s = false -> queued s <> [] -> output_busy s = true \/ schedule_job s = true) /\
    exists s1 tr1 s2, run_events (E_prepare_free :: (E_free_flow <$> flows_list s)) s = Some (s1, tr1) /\
      tr1 = Input_Free <$> flows_list s /\
      PacketPassFairQueue_Free s1 = Ok tt s2 [Job_Free] /\ heap s2 = ∅ /\ schedule_job s2 = false.
Proof.
  destruct (fq_run mtu weight use_cancel evs Hinit) as (s & tr & E & [I Hp] & _). exists s, tr.
  split_and!; [done | apply I | apply I | |].
  - intros Hf Hq. destruct (schedule_job s) eqn:Ej; [by right|]. left. rewrite (i_output _ I Hf).
    destruct (sending_flow s) eqn:Es; [done|]. destruct Hq. by apply Hp.
  - destruct (wp_ok _ _ _ (fq_deliver_wp s E_prepare_free (conj I Hp) eq_refl)) as (u & s0 & tr0 & E0 & I0 & _).
    injection E0 as _ <- <-. destruct (free_all (set_freeing s) I0 eq_refl) as (s1 & tr1 & E1 & I1 & El & Etr).
    destruct (wp_ok _ _ _ (queue_free_wp s1 I1 El)) as ([] & s2 & tr2 & E2 & Hh & Hj & ->).
    exists s1, tr1, s2. split_and!; try done. cbn in *. change (flows_list (set_freeing s)) with (flows_list s) in E1. by rewrite E1.
Qed.

(** The queue serves the flow with the least time, ties by address.  When the
    schedule job runs, it sends exactly this flow's packet, or nothing if none is
    queued; a flow's packet that comes while the queue is idle is sent at once.
    When the output is done, the flow whose packet it was is told, and its time is
    raised by the packet's size and weight: no time overflows, and the differences
    between the times of the flows that wait are kept. *)
Theorem fair_queue_serves s tr0 (Hrun : run mtu weight use_cancel evs = Some (s, tr0)) :
  (enabled E_job s = true -> exists s' tr, deliver E_job s = Ok tt s' tr /\
     ((queued s = [] /\ tr = []) \/ exists f d, first_flow s f d /\ tr = [Sender_Send f d] /\ sending_flow s' = Some f)) /\
  (enabled E_done s = true -> exists f x s' tr, deliver E_done s = Ok tt s' tr /\
     sending_flow s = Some f /\ heap s !! f = Some x /\ tr = Input_Done f :: (if handler_busy x then [Busy f] else []) /\
     clocks s s' f (weight + sending_len s) /\ schedule_job s' = true) /\
  (forall f d, enabled (E_send f d) s = true -> exists s' tr, deliver (E_send f d) s = Ok tt s' tr /\
     ((tr = [] /\ queued s' ≡ₚ f :: queued s) \/
      (tr = [Sender_Send f d] /\ queued s = [] /\ queued s' = [] /\ sending_flow s' = Some f))).
Proof.
  destruct (fq_run_of _ _ _ _ _ _ Hinit Hrun) as [I Ec]. pose proof I as [Ic Hpr]. split_and!.
  - intros He. cbn in He. apply andb_true_iff in He as [Hf Hj]. apply negb_true_iff in Hf.
    assert (Hw : wp (deliver E_job) s (fun _ s' tr => (queued s = [] /\ tr = []) \/
      exists f d, first_flow s f d /\ tr = [Sender_Send f d] /\ sending_flow s' = Some f)).
    { apply job_wp; try done; [by left|]. intros f x Hx Hq Hmin _. right. exists f, (queued_data x). by split; [apply least_first|]. }
    destruct (wp_ok _ _ _ Hw) as ([] & s' & tr & E & H). eauto.
  - intros He. cbn in He. apply andb_true_iff in He as [Hf Ho]. apply negb_true_iff in Hf. rewrite (i_output _ Ic Hf) in Ho.
    destruct (sending_flow s) as [f|] eqn:Es; [|done]. destruct (so_flow _ _ (i_sending _ Ic f Es)) as (x & Hx & _).
    assert (Hw : wp (deliver E_done) s (fun _ s' tr => tr = Input_Done f :: (if handler_busy x then [Busy f] else []) /\
      clocks s s' f (weight + sending_len s) /\ schedule_job s' = true)).
    { apply (done_wp s f x); try done. rewrite Ec. cbn. intros sub H0 Hall I'. split_and!; try done. by apply clocks_finished. }
    destruct (wp_ok _ _ _ Hw) as ([] & s' & tr & E & ? & ? & ?). exists f, x, s', tr. by split_and!.
  - intros f d He. cbn in He. apply andb_true_iff in He as [He Hx]. apply andb_true_iff in He as [Hf Hd%Z.leb_le]. apply negb_true_iff in Hf.
    destruct (heap s !! f) as [x|] eqn:Ex; [|done]. apply negb_true_iff in Hx.
    assert (Hw : wp (deliver (E_send f d)) s (fun _ s' tr => (tr = [] /\ queued s' ≡ₚ f :: queued s) \/
      (tr = [Sender_Send f d] /\ queued s = [] /\ queued s' = [] /\ sending_flow s' = Some f))).
    { apply (send_wp s f x); try done. intros n t s1 Hn I1 Hl. split; [by left|]. intros g y Hs Hj Hy Hyq Hmin Hi. right.
      assert (Hq0 : queued s = []) by (apply Hpr; [done | unfold s1, enqueued in Hs, Hj; by destruct (is_flow f _)..]).
      rewrite Hq0 in Hl. apply Permutation_singleton_r in Hl. assert (Hg : g ∈ queued s1) by (apply (i_queued _ I1); eauto).
      rewrite Hl in Hg. apply list_elem_of_singleton in Hg as ->. cbn in Hy. rewrite lookup_insert_eq in Hy. injection Hy as <-.
      split_and!; try done. exact (queued_scheduled s1 f _ [] I1 Hl). }
    destruct (wp_ok _ _ _ Hw) as ([] & s' & tr & E & H). eauto.
Qed.

(** C36. Fairness: while a flow [q] waits, another flow [f] sends no more than the
    time [f] is behind [q] and one packet, sizes and weights counted, in any
    sequence of events, time overflows included.  Flows that start to wait at the
    same time therefore never differ by more than one packet. *)
Theorem fair_queue_bounded_wait s tr0 evs' s' tr q f
    (Hrun : run mtu weight use_cancel evs = Some (s, tr0)) (Hrun' : run_events evs' s = Some (s', tr))
    (Hq : q ∈ queued s) (Hf : is_Some (heap s !! f)) (Hfq : E_free_flow q ∉ evs') (Hff : E_free_flow f ∉ evs')
    (Hwait : sends q tr = false) :
  sent_by weight f tr <= Z.max 0 (time (heap s !!! q) - time (heap s !!! f) + (weight + mtu)).
Proof.
  destruct (fq_run_of _ _ _ _ _ _ Hinit Hrun) as [I Ec].
  pose proof (waits_bounded evs' s s' tr q f I Hrun' Hq Hf Hfq Hff Hwait) as H. unfold weight_of, lead in H.
  pose proof (i_cfg _ (proj1 I)) as (_ & Hw & _). rewrite Ec in *. cbn in *.
  destruct (is_flow f (sending_flow s)) eqn:Es; [|lia]. apply is_flow_true in Es.
  pose proof (so_len _ _ (i_sending _ (proj1 I) f Es)). unfold weight_of in H. rewrite Ec in H. cbn in H. lia.
Qed.

End Theorems.
End Queue.

(** ** A concrete queue *)

#[export] Instance queue_tree : EntryTree := EntryList.entry_list.

Definition evs_demo : list event := [E_init 1; E_init 2; E_send 1 [5]; E_send 2 [6; 7]].
Definition s_demo : sys (ET := queue_tree) :=
  mk_sys (ET := queue_tree) (mk_config 10 false 1) (Some 1) 1 None [2] [1; 2] false false
    {[1 := mk_flow 0 false [5] false true; 2 := mk_flow 0 true [6; 7] false true]} true.

Lemma fq_init_demo : init_ok 10 1.
Proof. vm_compute. intuition congruence. Qed.

Lemma fq_run_demo : run 10 1 false evs_demo = Some (s_demo, [Input_Init 1 10; Input_Init 2 10; Sender_Send 1 [5]]).
Proof. vm_compute. reflexivity. Qed.

Lemma fair_queue_safe_witness : init_ok 10 1 /\ exists (s : sys) tr, run 10 1 false evs_demo = Some (s, tr) /\ NoDup (queued s).
Proof.
  split; [exact fq_init_demo|]. destruct (fair_queue_safe 10 1 false evs_demo fq_init_demo) as (s & tr & E & H & _).
  exact (ex_intro _ s (ex_intro _ tr (conj E H))).
Defined.

Lemma fair_queue_serves_witness :
  enabled E_done s_demo = true /\ exists f x (s' : sys) tr, deliver E_done s_demo = Ok tt s' tr /\
    sending_flow s_demo = Some f /\ heap s_demo !! f = Some x.
Proof.
  assert (He : enabled E_done s_demo = true) by reflexivity. split; [exact He|].
  destruct (fair_queue_serves 10 1 false evs_demo fq_init_demo s_demo _ fq_run_demo) as (_ & H & _).
  destruct (H He) as (f & x & s' & tr & E & Hs & Hx & _).
  exact (ex_intro _ f (ex_intro _ x (ex_intro _ s' (ex_intro _ tr (conj E (conj Hs Hx)))))).
Defined.

(** Flow 1 sends three packets; then the queue is idle and flow 2 is made; both have
    packets. *)
Definition d10 : list Z := replicate 10 0.
Definition turn (f : Z) : list event := [E_send f d10; E_done; E_job].
Definition evs_old : list event := [E_init 1] ++ turn 1 ++ turn 1 ++ turn 1 ++ [E_init 2; E_send 2 d10; E_send 1 [1]].
Definition s_old : sys (ET := queue_tree) :=
  mk_sys (ET := queue_tree) (mk_config 10 false 1) (Some 2) 10 None [1] [1; 2] false false
    {[1 := mk_flow 33 true [1] false true; 2 := mk_flow 0 false d10 false true]} true.
Definition evs_new : list event := [E_done; E_send 2 d10; E_job; E_done; E_send 2 d10; E_job].
Definition tr_old : list out :=
  [Input_Init 1 10; Sender_Send 1 d10; Input_Done 1; Sender_Send 1 d10; Input_Done 1; Sender_Send 1 d10; Input_Done 1;
   Input_Init 2 10; Sender_Send 2 d10].
Definition s_new : sys (ET := queue_tree) :=
  mk_sys (ET := queue_tree) (mk_config 10 false 1) (Some 2) 10 None [1] [1; 2] false false
    {[1 := mk_flow 33 true [1] false true; 2 := mk_flow 22 false d10 false true]} true.
Definition tr_new : list out := [Input_Done 2; Sender_Send 2 d10; Input_Done 2; Sender_Send 2 d10].

Lemma fq_run_old : run 10 1 false evs_old = Some (s_old, tr_old).
Proof. vm_compute. reflexivity. Qed.

Lemma fair_queue_bounded_wait_witness :
  run_events evs_new s_old = Some (s_new, tr_new) /\
  sent_by 1 2 tr_new <= Z.max 0 (time (heap s_old !!! 1) - time (heap s_old !!! 2) + (1 + 10)).
Proof.
  assert (E : run_events evs_new s_old = Some (s_new, tr_new)) by (vm_compute; reflexivity). split; [exact E|].
  apply (fair_queue_bounded_wait 10 1 false evs_old fq_init_demo s_old tr_old evs_new s_new tr_new 1 2 fq_run_old E).
  - change (queued s_old) with [1]. left.
  - exists (mk_flow 0 false d10 false true). vm_compute. reflexivity.
  - intros H. unfold evs_new in H. repeat (apply elem_of_cons in H as [H|H]; [discriminate H|]). exact (not_elem_of_nil _ H).
  - intros H. unfold evs_new in H. repeat (apply elem_of_cons in H as [H|H]; [discriminate H|]). exact (not_elem_of_nil _ H).
  - vm_compute. reflexivity.
Defined.

(** A flow keeps its time when it is idle, while a new flow starts from 0 if nothing
    is active: flow 1, which sent three packets once, waits until flow 2 has sent as
    much; two more packets of flow 2 are sent before its single byte. *)
Lemma old_flow_waits :
  exists s1 s2 tr, run 10 1 false (evs_old ++ evs_new ++ [E_done; E_send 2 d10]) = Some (s1, tr_old ++ tr_new ++ [Input_Done 2]) /\
    queued s1 = [1; 2] /\ run_events [E_job] s1 = Some (s2, tr) /\ tr = [Sender_Send 1 [1]].
Proof. eexists _, _, _. split_and!; [vm_compute; reflexivity | vm_compute; reflexivity | vm_compute; reflexivity | reflexivity]. Qed.

End FairQueue.
