(* ===== verification/BReactor.v ===== *)
(** * BReactor: the event loop

    Model of [badvpn/system/BReactor_badvpn.c] as the app builds it (epoll), with the
    clock arithmetic of [badvpn/system/BTime.h].  The reactor runs jobs, then expired
    timers, then file descriptors, and waits when there is nothing to do.

    The handlers it calls are the users' code: [BReactor_Exec] is cut at these calls.
    [E_exec] is one round of its loop, which ends with the call of a handler ([phase]
    [P_user]), with the next round ([P_loop]), with a call of [epoll_wait] ([P_wait]) or
    at the end ([P_done]); [E_wake] is the return from [epoll_wait].  In [P_user] the
    users' code uses the interface: timers, jobs, file descriptors, limits, [Quit].

    The job queue is any [JobQueue], the tree of timers any [EntryTree].  Every event
    that reads the clock has the time it reads; [clock] is the last one.  The results
    that [epoll_wait] returned and are not dispatched yet are the list [epoll_results]
    ([epoll_results_num] is its length) from [epoll_results_pos]. *)

From S2P Require Import Prelude BAddr SearchTree BPending.
Open Scope mon_scope.

#[local] Arguments Z.add : simpl never.
#[local] Arguments Z.sub : simpl never.
#[local] Arguments Z.land : simpl never.
#[local] Arguments Z.lor : simpl never.

Module Reactor.

Definition INT64_MAX : Z := 9223372036854775807.
Definition INT64_MIN : Z := -9223372036854775808.
Definition int64 (z : Z) : bool := (INT64_MIN <=? z) && (z <=? INT64_MAX).

(** 0: no overflow, 1 or -1: the sum is too large or too small. *)
Definition add_int64_overflows (a b : Z) : Z :=
  if xorb (a <? 0) (b <? 0) then 0 else
  if a <? 0 then - Z.b2z (a <? INT64_MIN - b) else Z.b2z (a >? INT64_MAX - b).

Definition btime_add (t1 t2 : Z) : Z :=
  let overflows := add_int64_overflows t1 t2 in
  if negb (overflows =? 0) then (if overflows >? 0 then INT64_MAX else INT64_MIN) else t1 + t2.

(** ** Data *)

Definition TIMER_STATE_INACTIVE : Z := 1.
Definition TIMER_STATE_RUNNING : Z := 2.
Definition TIMER_STATE_EXPIRED : Z := 3.
Definition BTIMER_SET_ABSOLUTE : Z := 1.
Definition BTIMER_SET_RELATIVE : Z := 2.
Definition BREACTOR_READ : Z := 1.
Definition BREACTOR_WRITE : Z := 2.
Definition BREACTOR_ERROR : Z := 4.
Definition BREACTOR_HUP : Z := 8.
Definition BSYSTEM_MAX_RESULTS : Z := 64.

(** The bits of [struct epoll_event] on Linux. *)
Definition EPOLLIN : Z := 1.
Definition EPOLLOUT : Z := 4.
Definition EPOLLERR : Z := 8.
Definition EPOLLHUP : Z := 16.

(** A [BSmallTimer] ([is_small]), or the one in a [BTimer] with its default time. *)
Record timer := mk_timer { absTime : Z; state : Z; is_small : bool; msTime : Z }.

(** [epoll_returned_ptr] is the index of the entry it points to. *)
Record descriptor := mk_fd { fd : Z; active : bool; waitEvents : Z; epoll_returned_ptr : option Z }.
Record epoll_event := mk_event { ev_ptr : option Z; ev_events : Z }.
Record limit_object := mk_limit { limit : Z; count : Z }.

#[export] Instance timer_inhabited : Inhabited timer := populate (mk_timer 0 TIMER_STATE_INACTIVE true 0).

Definition set_absTime (t : Z) (x : timer) : timer := mk_timer t (state x) (is_small x) (msTime x).
Definition set_state (n : Z) (x : timer) : timer := mk_timer (absTime x) n (is_small x) (msTime x).
Definition set_active (b : bool) (x : descriptor) : descriptor := mk_fd (fd x) b (waitEvents x) (epoll_returned_ptr x).
Definition set_wait (e : Z) (x : descriptor) : descriptor := mk_fd (fd x) (active x) e (epoll_returned_ptr x).
Definition set_returned (i : option Z) (x : descriptor) : descriptor := mk_fd (fd x) (active x) (waitEvents x) i.
Definition set_count (n : Z) (x : limit_object) : limit_object := mk_limit (limit x) n.

Inductive phase :=
  | P_user                                              (** the users' code runs *)
  | P_loop                                              (** a round of the loop ended without a call *)
  | P_wait (timeout_abs : option Z) (rel trunc : Z)     (** in [epoll_wait] *)
  | P_done.                                             (** [BReactor_Exec] has returned *)

(** [compare_timers] on the timers as they are in the heap. *)
Definition compare_timers (h : gmap Z timer) (t1 t2 : Z) : Z :=
  let cmp := B_COMPARE (absTime (h !!! t1)) (absTime (h !!! t2)) in
  if negb (cmp =? 0) then cmp else B_COMPARE t1 t2.

Section Reactor.
Context {G : Type} {JQ : JobQueue G} {ET : EntryTree}.

(** [jobs_init]: the handlers of the jobs that are initialised. *)
Record sys := mk_sys {
  exiting : bool;
  exit_code : Z;
  pending_jobs : G;
  jobs_init : gmap Z (Z * Z);
  timers_tree : etree;
  timers_expired_list : list Z;
  active_limits_list : list Z;
  epoll_results : list epoll_event;
  epoll_results_pos : Z;
  timers : gmap Z timer;
  fds : gmap Z descriptor;
  limits : gmap Z limit_object;
  d_fds_counter : Z;
  d_limits_ctr : Z;
  at_phase : phase;
  clock : Z;
}.

Inductive out :=
  | Call_Job (job : Z) (handler : Z * Z)
  | Call_Timer (t : Z) (small : bool)
  | Call_Fd (p events : Z)
  | Sync_Return (reached : bool)                        (** [BReactor_Synchronize] returns *)
  | Epoll_Create | Epoll_Close
  | Epoll_Wait (timeout : Z)
  | Epoll_Add (fd : Z) | Epoll_Mod (fd events : Z) | Epoll_Del (fd : Z)
  | Exit (code : Z).

Abbreviation H := (M sys out).

Definition set_exit (code : Z) (s : sys) : sys :=
  mk_sys true code (pending_jobs s) (jobs_init s) (timers_tree s) (timers_expired_list s) (active_limits_list s)
    (epoll_results s) (epoll_results_pos s) (timers s) (fds s) (limits s) (d_fds_counter s) (d_limits_ctr s) (at_phase s) (clock s).
Definition set_jobs (g : G) (s : sys) : sys :=
  mk_sys (exiting s) (exit_code s) g (jobs_init s) (timers_tree s) (timers_expired_list s) (active_limits_list s)
    (epoll_results s) (epoll_results_pos s) (timers s) (fds s) (limits s) (d_fds_counter s) (d_limits_ctr s) (at_phase s) (clock s).
Definition set_init (m : gmap Z (Z * Z)) (s : sys) : sys :=
  mk_sys (exiting s) (exit_code s) (pending_jobs s) m (timers_tree s) (timers_expired_list s) (active_limits_list s)
    (epoll_results s) (epoll_results_pos s) (timers s) (fds s) (limits s) (d_fds_counter s) (d_limits_ctr s) (at_phase s) (clock s).
Definition set_tree (t : etree) (s : sys) : sys :=
  mk_sys (exiting s) (exit_code s) (pending_jobs s) (jobs_init s) t (timers_expired_list s) (active_limits_list s)
    (epoll_results s) (epoll_results_pos s) (timers s) (fds s) (limits s) (d_fds_counter s) (d_limits_ctr s) (at_phase s) (clock s).
Definition set_expired (l : list Z) (s : sys) : sys :=
  mk_sys (exiting s) (exit_code s) (pending_jobs s) (jobs_init s) (timers_tree s) l (active_limits_list s)
    (epoll_results s) (epoll_results_pos s) (timers s) (fds s) (limits s) (d_fds_counter s) (d_limits_ctr s) (at_phase s) (clock s).
Definition set_limits_list (l : list Z) (s : sys) : sys :=
  mk_sys (exiting s) (exit_code s) (pending_jobs s) (jobs_init s) (timers_tree s) (timers_expired_list s) l
    (epoll_results s) (epoll_results_pos s) (timers s) (fds s) (limits s) (d_fds_counter s) (d_limits_ctr s) (at_phase s) (clock s).
Definition set_results (l : list epoll_event) (pos : Z) (s : sys) : sys :=
  mk_sys (exiting s) (exit_code s) (pending_jobs s) (jobs_init s) (timers_tree s) (timers_expired_list s) (active_limits_list s)
    l pos (timers s) (fds s) (limits s) (d_fds_counter s) (d_limits_ctr s) (at_phase s) (clock s).
Definition set_timers (h : gmap Z timer) (s : sys) : sys :=
  mk_sys (exiting s) (exit_code s) (pending_jobs s) (jobs_init s) (timers_tree s) (timers_expired_list s) (active_limits_list s)
    (epoll_results s) (epoll_results_pos s) h (fds s) (limits s) (d_fds_counter s) (d_limits_ctr s) (at_phase s) (clock s).
Definition set_fds (h : gmap Z descriptor) (s : sys) : sys :=
  mk_sys (exiting s) (exit_code s) (pending_jobs s) (jobs_init s) (timers_tree s) (timers_expired_list s) (active_limits_list s)
    (epoll_results s) (epoll_results_pos s) (timers s) h (limits s) (d_fds_counter s) (d_limits_ctr s) (at_phase s) (clock s).
Definition set_limits (h : gmap Z limit_object) (s : sys) : sys :=
  mk_sys (exiting s) (exit_code s) (pending_jobs s) (jobs_init s) (timers_tree s) (timers_expired_list s) (active_limits_list s)
    (epoll_results s) (epoll_results_pos s) (timers s) (fds s) h (d_fds_counter s) (d_limits_ctr s) (at_phase s) (clock s).
Definition set_counter (n : Z) (s : sys) : sys :=
  mk_sys (exiting s) (exit_code s) (pending_jobs s) (jobs_init s) (timers_tree s) (timers_expired_list s) (active_limits_list s)
    (epoll_results s) (epoll_results_pos s) (timers s) (fds s) (limits s) n (d_limits_ctr s) (at_phase s) (clock s).
Definition set_limits_ctr (n : Z) (s : sys) : sys :=
  mk_sys (exiting s) (exit_code s) (pending_jobs s) (jobs_init s) (timers_tree s) (timers_expired_list s) (active_limits_list s)
    (epoll_results s) (epoll_results_pos s) (timers s) (fds s) (limits s) (d_fds_counter s) n (at_phase s) (clock s).
Definition set_phase (p : phase) (s : sys) : sys :=
  mk_sys (exiting s) (exit_code s) (pending_jobs s) (jobs_init s) (timers_tree s) (timers_expired_list s) (active_limits_list s)
    (epoll_results s) (epoll_results_pos s) (timers s) (fds s) (limits s) (d_fds_counter s) (d_limits_ctr s) p (clock s).
Definition set_clock (t : Z) (s : sys) : sys :=
  mk_sys (exiting s) (exit_code s) (pending_jobs s) (jobs_init s) (timers_tree s) (timers_expired_list s) (active_limits_list s)
    (epoll_results s) (epoll_results_pos s) (timers s) (fds s) (limits s) (d_fds_counter s) (d_limits_ctr s) (at_phase s) t.

Definition timer_ (t : Z) : H timer := load timers t.
Definition upd_timer (t : Z) (g : timer -> timer) : H unit :=
  x <- timer_ t ;; modify (fun s => set_timers (<[t := g x]> (timers s)) s).
Definition fd_ (p : Z) : H descriptor := load fds p.
Definition upd_fd (p : Z) (g : descriptor -> descriptor) : H unit :=
  x <- fd_ p ;; modify (fun s => set_fds (<[p := g x]> (fds s)) s).
Definition limit_ (p : Z) : H limit_object := load limits p.
Definition upd_limit (p : Z) (g : limit_object -> limit_object) : H unit :=
  x <- limit_ p ;; modify (fun s => set_limits (<[p := g x]> (limits s)) s).
Definition on_jobs {A} (m : M G out A) : H A := zoom pending_jobs set_jobs m.

Definition is_none {A} (x : option A) : bool := if x then false else true.

(** ** Timers *)

Definition assert_timer (t : Z) : H unit :=
  x <- timer_ t ;;
  assert ((state x =? TIMER_STATE_INACTIVE) || (state x =? TIMER_STATE_RUNNING) || (state x =? TIMER_STATE_EXPIRED)).

(** From the tree of running timers to the end of the expired list. *)
Definition move_timer (t : Z) : H unit :=
  modify (fun s => set_tree (et_remove t (timers_tree s)) s) ;;
  modify (fun s => set_expired (timers_expired_list s ++ [t]) s) ;;
  upd_timer t (set_state TIMER_STATE_EXPIRED).

Fixpoint move_expired_loop (fuel : nat) (now : Z) (moved : bool) : H bool :=
  match fuel with
  | O => fail F_fuel
  | S fuel' =>
      s <- get ;;
      match et_first (timers_tree s) with
      | None => ret moved
      | Some t =>
          x <- timer_ t ;;
          assert (state x =? TIMER_STATE_RUNNING) ;;
          if absTime x >? now then ret moved else
          move_timer t ;;
          move_expired_loop fuel' now true
      end
  end.

(** One step for every timer and one more. *)
Definition timers_fuel (s : sys) : nat := S (length (et_list (timers_tree s))).

Definition move_expired_timers (now : Z) : H bool := s <- get ;; move_expired_loop (timers_fuel s) now false.

Fixpoint move_first_loop (fuel : nat) (first_time : Z) : H unit :=
  match fuel with
  | O => fail F_fuel
  | S fuel' =>
      s <- get ;;
      match et_first (timers_tree s) with
      | None => ret tt
      | Some t =>
          x <- timer_ t ;;
          assert (state x =? TIMER_STATE_RUNNING) ;;
          assert (absTime x >=? first_time) ;;
          if absTime x >? first_time then ret tt else
          move_timer t ;;
          move_first_loop fuel' first_time
      end
  end.

Definition move_first_timers : H unit :=
  s <- get ;;
  match et_first (timers_tree s) with
  | None => fail F_assert
  | Some t =>
      x <- timer_ t ;;
      assert (state x =? TIMER_STATE_RUNNING) ;;
      move_timer t ;;
      move_first_loop (timers_fuel s) (absTime x)
  end.

(** [old] is what the memory of [absTime], which is not set, holds. *)
Definition BSmallTimer_Init (t old : Z) : H unit :=
  modify (fun s => set_timers (<[t := mk_timer old TIMER_STATE_INACTIVE true 0]> (timers s)) s).
Definition BTimer_Init (t ms old : Z) : H unit :=
  modify (fun s => set_timers (<[t := mk_timer old TIMER_STATE_INACTIVE false ms]> (timers s)) s).
Definition BSmallTimer_IsRunning (t : Z) : H bool :=
  assert_timer t ;; x <- timer_ t ;; ret (negb (state x =? TIMER_STATE_INACTIVE)).

Definition BReactor_RemoveSmallTimer (t : Z) : H unit :=
  assert_timer t ;;
  x <- timer_ t ;;
  if state x =? TIMER_STATE_INACTIVE then ret tt else
  (if state x =? TIMER_STATE_EXPIRED then
     modify (fun s => set_expired (list_remove t (timers_expired_list s)) s)
   else
     modify (fun s => set_tree (et_remove t (timers_tree s)) s)) ;;
  upd_timer t (set_state TIMER_STATE_INACTIVE).

(** [now] is what [btime_gettime] returns. *)
Definition BReactor_SetSmallTimer (t mode time now : Z) : H unit :=
  assert_timer t ;;
  assert ((mode =? BTIMER_SET_ABSOLUTE) || (mode =? BTIMER_SET_RELATIVE)) ;;
  BReactor_RemoveSmallTimer t ;;
  let time := if mode =? BTIMER_SET_RELATIVE then btime_add now time else time in
  upd_timer t (set_absTime time) ;;
  upd_timer t (set_state TIMER_STATE_RUNNING) ;;
  s <- get ;;
  match et_insert (compare_timers (timers s)) t (timers_tree s) with
  | None => fail F_assert
  | Some tree => modify (set_tree tree)
  end.

Definition BTimer_IsRunning (t : Z) : H bool := BSmallTimer_IsRunning t.

Definition BReactor_SetTimer (t now : Z) : H unit :=
  x <- timer_ t ;; BReactor_SetSmallTimer t BTIMER_SET_RELATIVE (msTime x) now.
Definition BReactor_SetTimerAfter (t after now : Z) : H unit := BReactor_SetSmallTimer t BTIMER_SET_RELATIVE after now.
Definition BReactor_SetTimerAbsolute (t time now : Z) : H unit := BReactor_SetSmallTimer t BTIMER_SET_ABSOLUTE time now.
Definition BReactor_RemoveTimer (t : Z) : H unit := BReactor_RemoveSmallTimer t.

(** ** File descriptors *)

Definition count_ctr (pr : sys -> Z) (up : Z -> sys -> sys) (f : Z -> option Z) : H unit :=
  s <- get ;;
  match f (pr s) with Some c => modify (up c) | None => fail F_assert end.

(** [junk]: the fields that are not set yet. *)
Definition BFileDescriptor_Init (p fd : Z) (junk : Z * option Z) : H unit :=
  modify (fun s => set_fds (<[p := mk_fd fd false junk.1 junk.2]> (fds s)) s).

(** [added]: [epoll_ctl] succeeds. *)
Definition BReactor_AddFileDescriptor (p : Z) (added : bool) : H bool :=
  x <- fd_ p ;;
  assert (negb (active x)) ;;
  emit (Epoll_Add (fd x)) ;;
  if negb added then ret false else
  upd_fd p (set_returned None) ;;
  upd_fd p (set_active true) ;;
  upd_fd p (set_wait 0) ;;
  count_ctr d_fds_counter set_counter BPending.DebugCounter_Increment ;;
  ret true.

(** [*bs->epoll_returned_ptr = NULL] *)
Definition null_result (i : Z) : H unit :=
  s <- get ;;
  match epoll_results s !! Z.to_nat i with
  | None => fail F_bounds
  | Some e => modify (set_results (<[Z.to_nat i := mk_event None (ev_events e)]> (epoll_results s)) (epoll_results_pos s))
  end.

Definition BReactor_RemoveFileDescriptor (p : Z) : H unit :=
  x <- fd_ p ;;
  assert (active x) ;;
  count_ctr d_fds_counter set_counter BPending.DebugCounter_Decrement ;;
  upd_fd p (set_active false) ;;
  emit (Epoll_Del (fd x)) ;;
  match epoll_returned_ptr x with
  | Some i => null_result i
  | None => ret tt
  end.

Definition epoll_events (events : Z) : Z :=
  let eevents := 0 in
  let eevents := if negb (Z.land events BREACTOR_READ =? 0) then Z.lor eevents EPOLLIN else eevents in
  if negb (Z.land events BREACTOR_WRITE =? 0) then Z.lor eevents EPOLLOUT else eevents.

Definition BReactor_SetFileDescriptorEvents (p events : Z) : H unit :=
  x <- fd_ p ;;
  assert (active x) ;;
  assert (Z.land events (Z.lnot (Z.lor BREACTOR_READ BREACTOR_WRITE)) =? 0) ;;
  if waitEvents x =? events then ret tt else
  emit (Epoll_Mod (fd x) (epoll_events events)) ;;
  upd_fd p (set_wait events).

Fixpoint set_epoll_fd_pointers (i : Z) (l : list epoll_event) : H unit :=
  match l with
  | [] => ret tt
  | event :: l' =>
      match ev_ptr event with
      | None => fail F_assert
      | Some p =>
          x <- fd_ p ;;
          assert (active x) ;;
          assert (is_none (epoll_returned_ptr x)) ;;
          upd_fd p (set_returned (Some i)) ;;
          set_epoll_fd_pointers (i + 1) l'
      end
  end.

(** ** Limits *)

Definition BReactorLimit_Init (p n : Z) : H unit :=
  assert (n >? 0) ;;
  modify (fun s => set_limits (<[p := mk_limit n 0]> (limits s)) s) ;;
  count_ctr d_limits_ctr set_limits_ctr BPending.DebugCounter_Increment.

Definition BReactorLimit_Free (p : Z) : H unit :=
  x <- limit_ p ;;
  count_ctr d_limits_ctr set_limits_ctr BPending.DebugCounter_Decrement ;;
  (when count x >? 0 do modify (fun s => set_limits_list (list_remove p (active_limits_list s)) s)) ;;
  modify (fun s => set_limits (delete p (limits s)) s).

Definition BReactorLimit_Increment (p : Z) : H bool :=
  x <- limit_ p ;;
  if count x >=? limit x then ret false else
  upd_limit p (set_count (count x + 1)) ;;
  (when count x + 1 =? 1 do modify (fun s => set_limits_list (active_limits_list s ++ [p]) s)) ;;
  ret true.

Definition BReactorLimit_SetLimit (p n : Z) : H unit :=
  assert (n >? 0) ;; upd_limit p (fun x => mk_limit n (count x)).

Fixpoint reset_limits_loop (l : list Z) : H unit :=
  match l with
  | [] => ret tt
  | p :: l' =>
      x <- limit_ p ;;
      assert (count x >? 0) ;;
      upd_limit p (set_count 0) ;;
      modify (fun s => set_limits_list (list_remove p (active_limits_list s)) s) ;;
      reset_limits_loop l'
  end.

Definition reset_limits : H unit := s <- get ;; reset_limits_loop (active_limits_list s).

(** ** Waiting *)

(** What [epoll_wait] returns: interrupted by a signal, or results. *)
Inductive waitres := W_intr | W_ready (l : list epoll_event).

Definition wait_call (timeout_abs : option Z) (now : Z) : H unit :=
  match timeout_abs with
  | Some abs =>
      let timeout_rel := abs - now in
      let trunc := if timeout_rel >? INT_MAX then INT_MAX else timeout_rel in
      modify (set_phase (P_wait timeout_abs timeout_rel trunc)) ;;
      emit (Epoll_Wait trunc)
  | None =>
      modify (set_phase (P_wait None 0 0)) ;;
      emit (Epoll_Wait (-1))
  end.

(** [wait_for_events] until it waits, or returns because timers have expired. *)
Definition wait_begin (now : Z) : H unit :=
  has <- on_jobs jq_has ;;
  assert (negb has) ;;
  s <- get ;;
  assert (is_none (head (timers_expired_list s))) ;;
  assert (epoll_results_pos s =? zlen (epoll_results s)) ;;
  modify (set_results [] 0) ;;
  match et_first (timers_tree s) with
  | None => wait_call None now
  | Some first_timer =>
      x <- timer_ first_timer ;;
      assert (state x =? TIMER_STATE_RUNNING) ;;
      moved <- move_expired_timers now ;;
      if moved then modify (set_phase P_loop) else
      x <- timer_ first_timer ;;
      wait_call (Some (absTime x)) now
  end.

(** Its end, after the loop. *)
Definition wait_return : H unit := reset_limits ;; modify (set_phase P_loop).

Definition try_again (timeout_abs : option Z) (now : Z) : H unit :=
  match timeout_abs with
  | Some abs => if now >=? abs then move_first_timers ;; wait_return else wait_call timeout_abs now
  | None => wait_call None now
  end.

(** A round of its loop, from the return of [epoll_wait]. *)
Definition wait_end (timeout_abs : option Z) (timeout_rel trunc : Z) (w : waitres) (now : Z) : H unit :=
  match w with
  | W_intr => try_again timeout_abs now
  | W_ready l =>
      assert (negb (zlen l =? 0) || negb (is_none timeout_abs)) ;;
      assert (zlen l <=? BSYSTEM_MAX_RESULTS) ;;
      if negb (zlen l =? 0) then
        modify (set_results l 0) ;; set_epoll_fd_pointers 0 l ;; wait_return
      else if trunc =? timeout_rel then move_first_timers ;; wait_return
      else try_again timeout_abs now
  end.

(** ** The loop *)

Definition report_events (wait events : Z) : Z :=
  let r := 0 in
  let r := if negb (Z.land wait BREACTOR_READ =? 0) && negb (Z.land events EPOLLIN =? 0) then Z.lor r BREACTOR_READ else r in
  let r := if negb (Z.land wait BREACTOR_WRITE =? 0) && negb (Z.land events EPOLLOUT =? 0) then Z.lor r BREACTOR_WRITE else r in
  let r := if negb (Z.land events EPOLLERR =? 0) then Z.lor r BREACTOR_ERROR else r in
  if negb (Z.land events EPOLLHUP =? 0) then Z.lor r BREACTOR_HUP else r.

Definition dispatch_job : H unit :=
  j <- on_jobs jq_execute ;;
  modify (set_phase P_user) ;;
  emit (Call_Job j.1 j.2).

Definition dispatch_timer (t : Z) : H unit :=
  x <- timer_ t ;;
  assert (state x =? TIMER_STATE_EXPIRED) ;;
  modify (fun s => set_expired (list_remove t (timers_expired_list s)) s) ;;
  upd_timer t (set_state TIMER_STATE_INACTIVE) ;;
  modify (set_phase P_user) ;;
  emit (Call_Timer t (is_small x)).

Definition dispatch_fd : H unit :=
  s <- get ;;
  let pos := epoll_results_pos s in
  match epoll_results s !! Z.to_nat pos with
  | None => fail F_bounds
  | Some event =>
      modify (set_results (epoll_results s) (pos + 1)) ;;
      match ev_ptr event with
      | None => modify (set_phase P_loop)
      | Some p =>
          x <- fd_ p ;;
          assert (active x) ;;
          assert (bool_decide (epoll_returned_ptr x = Some pos)) ;;
          upd_fd p (set_returned None) ;;
          let events := report_events (waitEvents x) (ev_events event) in
          if events =? 0 then modify (set_phase P_loop) else
          modify (set_phase P_user) ;;
          emit (Call_Fd p events)
      end
  end.

(** A round of the loop of [BReactor_Exec]. *)
Definition exec_round (now : Z) : H unit :=
  s <- get ;;
  if exiting s then modify (set_phase P_done) ;; emit (Exit (exit_code s)) else
  has <- on_jobs jq_has ;;
  if has then dispatch_job else
  match timers_expired_list s with
  | t :: _ => dispatch_timer t
  | [] => if epoll_results_pos s <? zlen (epoll_results s) then dispatch_fd else wait_begin now
  end.

(** A round of the loop of [BReactor_Synchronize], until it calls a job or returns. *)
Definition synchronize_round (ref : Z) : H unit :=
  s <- get ;;
  if exiting s then emit (Sync_Return false) else
  has <- on_jobs jq_has ;;
  assert has ;;
  job <- on_jobs jq_peek ;;
  if bool_decide (job = Some ref) then emit (Sync_Return true) else
  dispatch_job.

Definition BReactor_Quit (code : Z) : H unit := modify (set_exit code).

(** ** Starting and stopping *)

Definition set_not_exiting (s : sys) : sys :=
  mk_sys false (exit_code s) (pending_jobs s) (jobs_init s) (timers_tree s) (timers_expired_list s) (active_limits_list s)
    (epoll_results s) (epoll_results_pos s) (timers s) (fds s) (limits s) (d_fds_counter s) (d_limits_ctr s) (at_phase s) (clock s).

(** [created]: [epoll_create] succeeds. *)
Definition BReactor_Init (created : bool) : H bool :=
  modify set_not_exiting ;;
  on_jobs jq_start ;;
  modify (set_tree et_empty) ;;
  modify (set_expired []) ;;
  modify (set_limits_list []) ;;
  emit Epoll_Create ;;
  if negb created then on_jobs jq_stop ;; ret false else
  modify (set_results [] 0) ;;
  modify (set_counter 0) ;;
  modify (set_limits_ctr 0) ;;
  ret true.

Definition BReactor_Free : H unit :=
  has <- on_jobs jq_has ;;
  assert (negb has) ;;
  s <- get ;;
  assert (is_none (et_first (timers_tree s))) ;;
  assert (is_none (head (timers_expired_list s))) ;;
  assert (is_none (head (active_limits_list s))) ;;
  assert (BPending.DebugCounter_Free (d_fds_counter s)) ;;
  assert (BPending.DebugCounter_Free (d_limits_ctr s)) ;;
  emit Epoll_Close ;;
  on_jobs jq_stop.

(** ** Events *)

Inductive event :=
  | E_exec (now : Z)
  | E_wake (w : waitres) (now : Z)
  | E_synchronize (ref : Z)
  | E_quit (code : Z)
  | E_job_init (o : Z) (h : Z * Z) | E_job_free (o : Z) | E_job_set (o : Z) | E_job_unset (o : Z)
  | E_small_init (t old : Z) | E_timer_init (t ms old : Z)
  | E_set_small (t mode time now : Z) | E_set (t now : Z) | E_set_after (t after now : Z) | E_set_absolute (t time now : Z)
  | E_remove_timer (t : Z)
  | E_fd_init (p fd : Z) (junk : Z * option Z) | E_fd_add (p : Z) (added : bool) | E_fd_remove (p : Z) | E_fd_events (p events : Z)
  | E_limit_init (p n : Z) | E_limit_free (p : Z) | E_limit_increment (p : Z) | E_limit_set (p n : Z).

Definition in_user (s : sys) : bool := match at_phase s with P_user | P_done => true | _ => false end.

(** The clock is monotone. *)
Definition clock_ok (now : Z) (s : sys) : bool := (clock s <=? now) && (now <=? INT64_MAX).

Definition has_jobs (s : sys) : bool :=
  match jq_has (O:=out) (pending_jobs s) with Ok b _ _ => b | Fault _ => false end.

Definition is_active (p : Z) (s : sys) : bool := match fds s !! p with Some x => active x | None => false end.
Definition is_unused (p : Z) (s : sys) : bool := match fds s !! p with Some x => negb (active x) | None => true end.
Definition has_timer (t : Z) (s : sys) : bool := bool_decide (is_Some (timers s !! t)).
Definition is_heavy (t : Z) (s : sys) : bool := match timers s !! t with Some x => negb (is_small x) | None => false end.
Definition is_stopped (t : Z) (s : sys) : bool :=
  match timers s !! t with Some x => state x =? TIMER_STATE_INACTIVE | None => true end.

Definition event_ok (s : sys) (e : epoll_event) : bool :=
  match ev_ptr e with Some p => is_active p s | None => false end.

(** What [epoll_wait] promises: not more results than there is room for, every one of
    a descriptor that is registered, with the pointer that was registered, and only
    one of each; and without results it waits as long as it should. *)
Definition wait_ok (timeout_abs : option Z) (trunc : Z) (w : waitres) (now : Z) (s : sys) : bool :=
  match w with
  | W_intr => true
  | W_ready l =>
      (zlen l <=? BSYSTEM_MAX_RESULTS) && forallb (event_ok s) l && bool_decide (NoDup (ev_ptr <$> l)) &&
      (negb (zlen l =? 0) || (negb (is_none timeout_abs) && (clock s + trunc <=? now)))
  end.

Definition enabled (ev : event) (s : sys) : bool :=
  match ev with
  | E_exec now => match at_phase s with P_user | P_loop => clock_ok now s | _ => false end
  | E_wake w now => match at_phase s with P_wait abs _ trunc => clock_ok now s && wait_ok abs trunc w now s | _ => false end
  | E_synchronize _ => in_user s && (exiting s || has_jobs s)
  | E_quit _ => in_user s
  | E_job_init o _ => in_user s && bool_decide (jobs_init s !! o = None)
  | E_job_free o | E_job_set o | E_job_unset o => in_user s && bool_decide (is_Some (jobs_init s !! o))
  | E_small_init t old => in_user s && is_stopped t s && int64 old
  | E_timer_init t ms old => in_user s && is_stopped t s && int64 ms && int64 old
  | E_set_small t mode time now =>
      in_user s && has_timer t s && ((mode =? BTIMER_SET_ABSOLUTE) || (mode =? BTIMER_SET_RELATIVE)) && int64 time && clock_ok now s
  | E_set t now => in_user s && is_heavy t s && clock_ok now s
  | E_set_after t time now | E_set_absolute t time now => in_user s && is_heavy t s && int64 time && clock_ok now s
  | E_remove_timer t => in_user s && has_timer t s
  | E_fd_init p _ _ => in_user s && is_unused p s
  | E_fd_add p _ => in_user s && bool_decide (is_Some (fds s !! p)) && is_unused p s
  | E_fd_remove p => in_user s && is_active p s
  | E_fd_events p events => in_user s && is_active p s && (0 <=? events) && (events <=? 3)
  | E_limit_init p n => in_user s && bool_decide (limits s !! p = None) && (n >? 0)
  | E_limit_free p | E_limit_increment p => in_user s && bool_decide (is_Some (limits s !! p))
  | E_limit_set p n => in_user s && bool_decide (is_Some (limits s !! p)) && (n >? 0)
  end.

Definition with_clock {A} (now : Z) (m : H A) : H unit := modify (set_clock now) ;; m ;; ret tt.

Definition deliver (ev : event) : H unit :=
  match ev with
  | E_exec now => with_clock now (exec_round now)
  | E_wake w now =>
      s <- get ;;
      match at_phase s with
      | P_wait abs rel trunc => with_clock now (wait_end abs rel trunc w now)
      | _ => ret tt
      end
  | E_synchronize ref => synchronize_round ref
  | E_quit code => BReactor_Quit code
  | E_job_init o h => on_jobs (jq_init o h) ;; modify (fun s => set_init (<[o := h]> (jobs_init s)) s)
  | E_job_free o => on_jobs (jq_free o) ;; modify (fun s => set_init (delete o (jobs_init s)) s)
  | E_job_set o => on_jobs (jq_set o)
  | E_job_unset o => on_jobs (jq_unset o)
  | E_small_init t old => BSmallTimer_Init t old
  | E_timer_init t ms old => BTimer_Init t ms old
  | E_set_small t mode time now => with_clock now (BReactor_SetSmallTimer t mode time now)
  | E_set t now => with_clock now (BReactor_SetTimer t now)
  | E_set_after t after now => with_clock now (BReactor_SetTimerAfter t after now)
  | E_set_absolute t time now => with_clock now (BReactor_SetTimerAbsolute t time now)
  | E_remove_timer t => BReactor_RemoveTimer t
  | E_fd_init p fd junk => BFileDescriptor_Init p fd junk
  | E_fd_add p added => BReactor_AddFileDescriptor p added ;; ret tt
  | E_fd_remove p => BReactor_RemoveFileDescriptor p
  | E_fd_events p events => BReactor_SetFileDescriptorEvents p events
  | E_limit_init p n => BReactorLimit_Init p n
  | E_limit_free p => BReactorLimit_Free p
  | E_limit_increment p => BReactorLimit_Increment p ;; ret tt
  | E_limit_set p n => BReactorLimit_SetLimit p n
  end.

(** The state and the outputs after the events. *)
Fixpoint run_events (evs : list event) (s : sys) : option (sys * list out) :=
  match evs with
  | [] => Some (s, [])
  | ev :: evs' =>
      if enabled ev s then
        match deliver ev s with
        | Ok _ s' tr => r ← run_events evs' s'; Some (r.1, tr ++ r.2)
        | Fault _ => None
        end
      else Some (s, [])
  end.

(** From the memory [mem]: what the reactor's own fields hold does not matter. *)
Definition run (created : bool) (mem : sys) (evs : list event) : option (sys * list out) :=
  match BReactor_Init created mem with
  | Ok true s tr => r ← run_events evs s; Some (r.1, tr ++ r.2)
  | Ok false s tr => Some (s, tr)
  | Fault _ => None
  end.

(** No object of the reactor exists yet. *)
Definition fresh (mem : sys) : Prop :=
  jobs_init mem = ∅ /\ timers mem = ∅ /\ fds mem = ∅ /\ limits mem = ∅ /\ at_phase mem = P_user /\ 0 <= clock mem <= INT64_MAX.

(** ** Timers: what holds of the tree and the list *)

Definition has_state (h : gmap Z timer) (n t : Z) : Prop := exists x, h !! t = Some x /\ state x = n.

Record timer_ok (now : Z) (x : timer) : Prop := mk_timer_ok {
  t_state : state x = TIMER_STATE_INACTIVE \/ state x = TIMER_STATE_RUNNING \/ state x = TIMER_STATE_EXPIRED;
  t_range : int64 (absTime x) = true /\ int64 (msTime x) = true;
  t_due : state x = TIMER_STATE_EXPIRED -> absTime x <= now;
}.

(** [run] and [exp] are the sequences of the tree and of the expired list. *)
Record timers_ok (now : Z) (h : gmap Z timer) (run exp : list Z) : Prop := mk_timers_ok {
  ts_run : ordered (compare_timers h) run;
  ts_exp : ordered (compare_timers h) exp;
  ts_running t : t ∈ run <-> has_state h TIMER_STATE_RUNNING t;
  ts_expired t : t ∈ exp <-> has_state h TIMER_STATE_EXPIRED t;
  ts_timer t x : h !! t = Some x -> timer_ok now x;
}.

Lemma compare_timers_lt h t u :
  compare_timers h t u < 0 <-> absTime (h !!! t) < absTime (h !!! u) \/ (absTime (h !!! t) = absTime (h !!! u) /\ t < u).
Proof.
  unfold compare_timers. b_compare (absTime (h !!! t)) (absTime (h !!! u)); cbn; try lia. b_compare t u; lia.
Qed.

Lemma compare_timers_eq h t u : compare_timers h t u = 0 <-> t = u.
Proof.
  unfold compare_timers. split; [|intros ->; b_compare (absTime (h !!! u)) (absTime (h !!! u)); cbn; try lia; b_compare u u; lia].
  b_compare (absTime (h !!! t)) (absTime (h !!! u)); cbn; try lia. b_compare t u; lia.
Qed.

Lemma compare_timers_total h : total_cmp (compare_timers h).
Proof. apply (total_cmp_by (fun t => absTime (h !!! t))); [apply compare_timers_lt | apply compare_timers_eq]. Qed.

(** Changing a timer that is not in the sequence, or not its time. *)
Lemma ordered_timers h t x l :
  t ∉ l \/ absTime x = absTime (h !!! t) -> ordered (compare_timers h) l -> ordered (compare_timers (<[t := x]> h)) l.
Proof.
  intros Hor. apply ordered_ext. intros p q Hp Hq. rewrite !compare_timers_lt. destruct Hor as [Hn|E].
  - rewrite !lookup_total_insert_ne by (by intros ->). done.
  - assert (Hs : forall r, absTime (<[t:=x]> h !!! r) = absTime (h !!! r)); [|by rewrite !Hs].
    intros r. destruct (decide (t = r)) as [->|]; [by rewrite lookup_total_insert_eq | by rewrite lookup_total_insert_ne].
Qed.

Lemma ordered_nodup h l : ordered (compare_timers h) l -> NoDup l.
Proof.
  unfold ordered. induction 1 as [|x l Hs IH Hf]; constructor; [|done]. intros Hx.
  rewrite Forall_forall in Hf. specialize (Hf _ Hx). assert (compare_timers h x x = 0) by (by apply compare_timers_eq). lia.
Qed.

Lemma has_state_insert h n t x u :
  has_state (<[t := x]> h) n u <-> (u = t /\ state x = n) \/ (u <> t /\ has_state h n u).
Proof.
  unfold has_state. destruct (decide (u = t)) as [->|Hu].
  - rewrite lookup_insert_eq. naive_solver.
  - rewrite lookup_insert_ne by done. naive_solver.
Qed.

Lemma has_state_of h t x n : h !! t = Some x -> has_state h n t <-> state x = n.
Proof. intros Hx. unfold has_state. rewrite Hx. naive_solver. Qed.

Lemma timers_later now now' h run exp : now <= now' -> timers_ok now h run exp -> timers_ok now' h run exp.
Proof.
  intros Hn [H1 H2 H3 H4 H5]. split; try done. intros t x Hx. destruct (H5 t x Hx) as [? ? Hd]. split; [done..|].
  intros Hs. specialize (Hd Hs). lia.
Qed.

(** Removing a timer: from both sequences, since it is in at most one. *)
Lemma timers_remove now h run exp t x :
  timers_ok now h run exp -> h !! t = Some x ->
  timers_ok now (<[t := set_state TIMER_STATE_INACTIVE x]> h) (list_remove t run) (list_remove t exp).
Proof.
  intros [H1 H2 H3 H4 H5] Hx. split.
  - apply ordered_timers; [right; by rewrite (lookup_total_correct _ _ _ Hx)|]. by apply ordered_filter.
  - apply ordered_timers; [right; by rewrite (lookup_total_correct _ _ _ Hx)|]. by apply ordered_filter.
  - intros u. rewrite elem_of_list_remove, has_state_insert, H3. cbn. unfold TIMER_STATE_INACTIVE, TIMER_STATE_RUNNING. naive_solver lia.
  - intros u. rewrite elem_of_list_remove, has_state_insert, H4. cbn. unfold TIMER_STATE_INACTIVE, TIMER_STATE_EXPIRED. naive_solver lia.
  - intros u y [[<- <-]|[_ Hy]]%lookup_insert_Some; [|by eapply H5]. destruct (H5 t x Hx) as [_ Hr _]. split; [by left | done | done].
Qed.

(** A timer that is not running starts, with the time [time]. *)
Lemma timers_start now h run exp t x time run' :
  timers_ok now h run exp -> h !! t = Some x -> state x = TIMER_STATE_INACTIVE -> int64 time = true ->
  run' ≡ₚ t :: run -> ordered (compare_timers (<[t := set_state TIMER_STATE_RUNNING (set_absTime time x)]> h)) run' ->
  timers_ok now (<[t := set_state TIMER_STATE_RUNNING (set_absTime time x)]> h) run' exp.
Proof.
  intros [H1 H2 H3 H4 H5] Hx Hs Ht Hp Ho. split; [done | | | |].
  - apply ordered_timers; [left; rewrite H4, (has_state_of _ _ _ _ Hx), Hs; done | done].
  - intros u. rewrite Hp, elem_of_cons, H3, has_state_insert. cbn. destruct (decide (u = t)) as [->|]; naive_solver.
  - intros u. rewrite H4, has_state_insert. cbn. split; [|naive_solver]. intros Hu. right. split; [|done]. intros ->.
    by apply (has_state_of _ _ _ _ Hx) in Hu; rewrite Hs in Hu.
  - intros u y [[<- <-]|[_ Hy]]%lookup_insert_Some; [|by eapply H5]. destruct (H5 t x Hx) as [_ Hr _].
    split; [by right; left | cbn; naive_solver | done].
Qed.

(** A new timer, or one that is stopped and initialised again. *)
Lemma timers_init now h run exp t x :
  timers_ok now h run exp -> (forall y, h !! t = Some y -> state y = TIMER_STATE_INACTIVE) ->
  state x = TIMER_STATE_INACTIVE -> int64 (absTime x) = true -> int64 (msTime x) = true -> timers_ok now (<[t := x]> h) run exp.
Proof.
  intros [H1 H2 H3 H4 H5] Hy Hs Ha Hm.
  assert (Hr : t ∉ run) by (rewrite H3; intros (y & Ey & E); by rewrite (Hy y Ey) in E).
  assert (He : t ∉ exp) by (rewrite H4; intros (y & Ey & E); by rewrite (Hy y Ey) in E).
  split; try (apply ordered_timers; [by left | done]).
  - intros u. rewrite has_state_insert, Hs, H3. split; [|naive_solver]. intros Hu. right. split; [|done].
    intros ->. by apply H3 in Hu.
  - intros u. rewrite has_state_insert, Hs, H4. split; [|naive_solver]. intros Hu. right. split; [|done].
    intros ->. by apply H4 in Hu.
  - intros u y [[<- <-]|[_ Hu]]%lookup_insert_Some; [|by eapply H5]. split; [by left | done | by rewrite Hs].
Qed.

(** The first timer expires: the order of all does not change. *)
Lemma timers_move now h run exp t x :
  timers_ok now h (t :: run) exp -> h !! t = Some x -> absTime x <= now -> ordered (compare_timers h) (exp ++ t :: run) ->
  let h' := <[t := set_state TIMER_STATE_EXPIRED x]> h in
  timers_ok now h' run (exp ++ [t]) /\ ordered (compare_timers h') ((exp ++ [t]) ++ run).
Proof.
  intros [H1 H2 H3 H4 H5] Hx Ha Ho. cbv zeta.
  assert (Ho' : ordered (compare_timers (<[t := set_state TIMER_STATE_EXPIRED x]> h)) ((exp ++ [t]) ++ run)).
  { apply ordered_timers; [right; by rewrite (lookup_total_correct _ _ _ Hx)|]. by rewrite <- app_assoc. }
  split; [|done]. apply ordered_app in Ho' as (Ho1 & Ho2 & _). split; try done.
  - intros u. rewrite has_state_insert. cbn. pose proof (ordered_nodup _ _ H1) as [Hn _]%NoDup_cons.
    pose proof (H3 u) as Hu. rewrite elem_of_cons in Hu. destruct (decide (u = t)) as [->|].
    + split; [done|]. intros [[_ E]|[? _]]; done.
    + naive_solver.
  - intros u. rewrite elem_of_app, list_elem_of_singleton, has_state_insert, H4. cbn.
    destruct (decide (u = t)) as [->|]; naive_solver.
  - intros u y [[<- <-]|[_ Hy]]%lookup_insert_Some; [|by eapply H5]. destruct (H5 t x Hx) as [_ Hr _].
    split; [by right; right | done | done].
Qed.

(** ** Timers: operations *)

Lemma wp_upd_timer t g s x (Q : unit -> sys -> list out -> Prop) :
  timers s !! t = Some x -> Q tt (set_timers (<[t := g x]> (timers s)) s) [] -> wp (upd_timer t g) s Q.
Proof. intros Hx HQ. unfold upd_timer, timer_. wp_step. eapply wp_load; [exact Hx|]. by wp_run. Qed.

Definition running (s : sys) : list Z := et_list (timers_tree s).

(** The state with other timers. *)
Definition with_timers (h : gmap Z timer) (t : etree) (l : list Z) (s : sys) : sys := set_expired l (set_tree t (set_timers h s)).

Lemma with_timers_same s : with_timers (timers s) (timers_tree s) (timers_expired_list s) s = s.
Proof. by destruct s. Qed.

Definition s_timers_ok (s : sys) : Prop := timers_ok (clock s) (timers s) (running s) (timers_expired_list s).

Lemma assert_timer_wp s t x (Q : unit -> sys -> list out -> Prop) :
  s_timers_ok s -> timers s !! t = Some x -> Q tt s [] -> wp (assert_timer t) s Q.
Proof.
  intros T Hx HQ. unfold assert_timer, timer_. wp_step. eapply wp_load; [exact Hx|]. wp_step; [|done].
  destruct (t_state _ _ (ts_timer _ _ _ _ T t x Hx)) as [-> | [-> | ->]]; done.
Qed.

(** [RemoveSmallTimer]: out of the tree and the list, inactive. *)
Lemma remove_timer_wp s t x (Q : unit -> sys -> list out -> Prop) :
  s_timers_ok s -> timers s !! t = Some x ->
  (forall tree, et_list tree = list_remove t (running s) ->
    timers_ok (clock s) (<[t := set_state TIMER_STATE_INACTIVE x]> (timers s)) (list_remove t (running s)) (list_remove t (timers_expired_list s)) ->
    Q tt (with_timers (<[t := set_state TIMER_STATE_INACTIVE x]> (timers s)) tree (list_remove t (timers_expired_list s)) s) []) ->
  wp (BReactor_RemoveSmallTimer t) s Q.
Proof.
  intros T Hx HQ. pose proof (timers_remove _ _ _ _ t x T Hx) as T'. pose proof T as [H1 H2 H3 H4 H5].
  pose proof (has_state_of _ _ _ TIMER_STATE_RUNNING Hx) as Hr. pose proof (has_state_of _ _ _ TIMER_STATE_EXPIRED Hx) as He.
  unfold BReactor_RemoveSmallTimer. wp_step. eapply assert_timer_wp; [done..|]. unfold timer_. wp_step. eapply wp_load; [exact Hx|].
  destruct (t_state _ _ (H5 t x Hx)) as [E|[E|E]]; rewrite E; cbn [Z.eqb Pos.eqb TIMER_STATE_INACTIVE TIMER_STATE_EXPIRED TIMER_STATE_RUNNING].
  - wp_step. specialize (HQ (timers_tree s)). rewrite !list_remove_notin in HQ by (rewrite ?H3, ?H4, ?Hr, ?He, E; done).
    rewrite insert_id in HQ by (destruct x; cbn in *; by subst). rewrite with_timers_same in HQ. apply HQ; [done|].
    rewrite !list_remove_notin in T' by (rewrite ?H3, ?H4, ?Hr, ?He, E; done). rewrite insert_id in T' by (destruct x; cbn in *; by subst). done.
  - do 2 wp_step. eapply wp_upd_timer; [exact Hx|]. specialize (HQ (et_remove t (timers_tree s))).
    rewrite (list_remove_notin t (timers_expired_list s)) in HQ, T' by (rewrite H4, He, E; done).
    apply HQ; [|done]. apply et_remove_list. by eapply ordered_nodup.
  - do 2 wp_step. eapply wp_upd_timer; [exact Hx|]. specialize (HQ (timers_tree s)).
    rewrite (list_remove_notin t (running s)) in HQ, T' by (rewrite H3, Hr, E; done). by apply HQ.
Qed.

(** The time a timer is set to. *)
Definition set_time (mode time now : Z) : Z := if mode =? BTIMER_SET_RELATIVE then btime_add now time else time.

Lemma btime_add_clamp t u : int64 t = true -> int64 u = true -> btime_add t u = Z.max INT64_MIN (Z.min INT64_MAX (t + u)).
Proof.
  unfold btime_add, add_int64_overflows, int64, INT64_MIN, INT64_MAX. rewrite !andb_true_iff, !Z.leb_le. intros Ht Hu.
  destruct (Z.ltb_spec t 0), (Z.ltb_spec u 0); cbn [xorb negb Z.eqb Z.b2z Z.opp]; [|lia..|].
  - destruct (Z.ltb_spec t (-9223372036854775808 - u)); cbn [Z.b2z]; [|change (negb (- 0 =? 0)) with false; cbv iota; lia].
    change (negb (- (1) =? 0)) with true. change (- (1) >? 0) with false. cbv iota. lia.
  - destruct (Z.gtb_spec t (9223372036854775807 - u)); cbn [Z.b2z]; [|change (negb (0 =? 0)) with false; cbv iota; lia].
    change (negb (1 =? 0)) with true. change (1 >? 0) with true. cbv iota. lia.
Qed.

Lemma btime_add_range t u : int64 t = true -> int64 u = true -> int64 (btime_add t u) = true.
Proof. intros Ht Hu. rewrite btime_add_clamp by done. unfold int64, INT64_MIN, INT64_MAX. lia. Qed.

Lemma set_timer_wp s t x mode time now (Q : unit -> sys -> list out -> Prop) (x' := set_state TIMER_STATE_RUNNING (set_absTime (set_time mode time now) x)) :
  s_timers_ok s -> timers s !! t = Some x -> mode = BTIMER_SET_ABSOLUTE \/ mode = BTIMER_SET_RELATIVE ->
  int64 time = true -> int64 now = true ->
  (forall tree, et_list tree ≡ₚ t :: list_remove t (running s) ->
    timers_ok (clock s) (<[t := x']> (timers s)) (et_list tree) (list_remove t (timers_expired_list s)) ->
    Q tt (with_timers (<[t := x']> (timers s)) tree (list_remove t (timers_expired_list s)) s) []) ->
  wp (BReactor_SetSmallTimer t mode time now) s Q.
Proof.
  intros T Hx Hm Ht Hn HQ. unfold BReactor_SetSmallTimer. wp_step. eapply assert_timer_wp; [done..|].
  do 2 wp_step; [by destruct Hm as [-> | ->]|]. wp_step. eapply remove_timer_wp; [done..|]. intros tree1 Hl T1.
  fold (set_time mode time now). set (x1 := set_state TIMER_STATE_INACTIVE x) in *.
  do 2 (wp_step; eapply wp_upd_timer; [apply lookup_insert_eq|]).
  unfold with_timers, set_timers, set_tree, set_expired in *. cbn in *. rewrite !insert_insert_eq. change (set_state _ (set_absTime _ x1)) with x'.
  do 2 wp_step.
  assert (Hn1 : t ∉ list_remove t (running s)) by (rewrite elem_of_list_remove; tauto).
  destruct (et_insert_list (compare_timers (<[t:=x']> (timers s))) t tree1 (compare_timers_total _)) as (tree2 & E & Hp & Ho).
  - rewrite Hl. replace (<[t:=x']> (timers s)) with (<[t:=x']> (<[t:=x1]> (timers s))) by (by rewrite insert_insert_eq).
    apply ordered_timers; [by left | apply T1].
  - by rewrite Hl.
  - cbn. rewrite E. wp_step. apply HQ; [by rewrite Hp, Hl|].
    replace (<[t:=x']> (timers s)) with (<[t:=x']> (<[t:=x1]> (timers s))) in * by (by rewrite insert_insert_eq).
    apply (timers_start _ (<[t:=x1]> (timers s)) (list_remove t (running s)) _ t x1); try done; [apply lookup_insert_eq | | by rewrite Hp, Hl].
    unfold set_time. destruct (mode =? _); [by apply btime_add_range | done].
Qed.

(** ** Timers: moving to the expired list *)

(** The first timer of the tree. *)
Lemma first_timer s t : s_timers_ok s -> et_first (timers_tree s) = Some t ->
  exists x l, timers s !! t = Some x /\ state x = TIMER_STATE_RUNNING /\ running s = t :: l.
Proof.
  intros T Hf. rewrite et_first_list in Hf. pose proof (ts_running _ _ _ _ T t) as [Hr _]. fold (running s) in Hf.
  destruct (running s) as [|u l] eqn:E; [done|]. injection Hf as ->. destruct Hr as (x & Hx & Hs); [by left|]. by exists x, l.
Qed.

Lemma first_timer_none s : et_first (timers_tree s) = None <-> running s = [].
Proof. rewrite et_first_list. unfold running. by destruct (et_list _). Qed.

Lemma ordered_head h t l : ordered (compare_timers h) (t :: l) -> Forall (fun u => absTime (h !!! t) <= absTime (h !!! u)) l.
Proof.
  intros [_ Hf]%StronglySorted_inv. eapply Forall_impl; [exact Hf|]. intros u. cbn. rewrite compare_timers_lt. lia.
Qed.

Lemma move_timer_wp s t x l (Q : unit -> sys -> list out -> Prop) (h' := <[t := set_state TIMER_STATE_EXPIRED x]> (timers s)) :
  s_timers_ok s -> running s = t :: l -> timers s !! t = Some x -> absTime x <= clock s ->
  ordered (compare_timers (timers s)) (timers_expired_list s ++ running s) ->
  (forall tree, et_list tree = l -> let s' := with_timers h' tree (timers_expired_list s ++ [t]) s in
    s_timers_ok s' -> ordered (compare_timers h') (timers_expired_list s' ++ l) -> Q tt s' []) ->
  wp (move_timer t) s Q.
Proof.
  intros T Hr Hx Ha Ho HQ. unfold s_timers_ok in T. rewrite Hr in *. destruct (timers_move _ _ _ _ t x T Hx Ha Ho) as [T' Ho'].
  assert (Hl : et_list (et_remove t (timers_tree s)) = l).
  { pose proof (ordered_nodup _ _ (ts_run _ _ _ _ T)) as Hn. rewrite et_remove_list; fold (running s); rewrite Hr; [|done].
    by apply list_remove_head. }
  unfold move_timer. do 4 wp_step. eapply wp_upd_timer; [exact Hx|]. cbn. apply (HQ _ Hl); [|done].
  unfold s_timers_ok, running. cbn. by rewrite Hl.
Qed.

(** The timers [l], all those until [lim], have moved. *)
Record moved (lim : Z) (s : sys) (l : list Z) (s' : sys) : Prop := mk_moved {
  mv_state : exists h tree, s' = with_timers h tree (timers_expired_list s ++ l) s;
  mv_none : l = [] -> s' = s;
  mv_ok : s_timers_ok s';
  mv_running : running s = l ++ running s';
  mv_times t : absTime (timers s' !!! t) = absTime (timers s !!! t);
  mv_before : Forall (fun t => absTime (timers s !!! t) <= lim) l;
  mv_after : Forall (fun t => lim < absTime (timers s !!! t)) (running s');
}.

Lemma moved_nothing lim s : s_timers_ok s -> Forall (fun t => lim < absTime (timers s !!! t)) (running s) -> moved lim s [] s.
Proof.
  intros T Hf. split; try done. exists (timers s), (timers_tree s). rewrite app_nil_r. by rewrite with_timers_same.
Qed.

(** Nothing of [t :: l] has a time up to [lim] if [t] has not. *)
Lemma later_all lim s t x l : s_timers_ok s -> timers s !! t = Some x -> running s = t :: l -> lim < absTime x ->
  Forall (fun u => lim < absTime (timers s !!! u)) (running s).
Proof.
  intros T Hx Hr Hl. pose proof (ts_run _ _ _ _ T) as Ho. rewrite Hr in *. pose proof (ordered_head _ _ _ Ho) as Hf.
  rewrite (lookup_total_correct _ _ _ Hx) in Hf. constructor; [by rewrite (lookup_total_correct _ _ _ Hx)|].
  eapply Forall_impl; [exact Hf|]. cbn. lia.
Qed.

Lemma times_set_state (h : gmap Z timer) t x n u : h !! t = Some x -> absTime (<[t := set_state n x]> h !!! u) = absTime (h !!! u).
Proof.
  intros Hx. destruct (decide (t = u)) as [->|]; [|by rewrite lookup_total_insert_ne].
  by rewrite lookup_total_insert_eq, (lookup_total_correct _ _ _ Hx).
Qed.

Lemma moved_step lim s t x tree l s' (s1 := with_timers (<[t := set_state TIMER_STATE_EXPIRED x]> (timers s)) tree (timers_expired_list s ++ [t]) s) :
  running s = t :: et_list tree -> timers s !! t = Some x -> absTime x <= lim -> moved lim s1 l s' -> moved lim s (t :: l) s'.
Proof.
  intros Hr Hx Hl [(h & tree' & ->) _ H1 H2 H3 H4 H5].
  assert (Ht : forall u, absTime (timers s1 !!! u) = absTime (timers s !!! u)).
  { intros u. by apply times_set_state. }
  assert (Hf : forall P, (forall u, P (absTime (timers s1 !!! u)) -> P (absTime (timers s !!! u)))) by (intros P u; by rewrite Ht).
  split; [exists h, tree'; unfold s1, with_timers; cbn; by rewrite <- app_assoc | done | done | | | |].
  - rewrite Hr. cbn [app]. f_equal. exact H2.
  - intros u. rewrite H3. apply Ht.
  - constructor; [by rewrite (lookup_total_correct _ _ _ Hx)|]. eapply Forall_impl; [exact H4|]. intros u. apply (Hf (fun z => z <= lim)).
  - eapply Forall_impl; [exact H5|]. intros u. apply (Hf (fun z => lim < z)).
Qed.

Lemma move_expired_loop_wp fuel now b s :
  s_timers_ok s -> (length (running s) < fuel)%nat -> now <= clock s ->
  ordered (compare_timers (timers s)) (timers_expired_list s ++ running s) ->
  wp (move_expired_loop fuel now b) s (fun r s' tr => tr = [] /\ exists l, moved now s l s' /\ r = b || negb (is_none (head l))).
Proof.
  revert b s. induction fuel as [|fuel IH]; intros b s T Hl Hn Ho; [lia|]. cbn [move_expired_loop]. do 2 wp_step.
  destruct (et_first (timers_tree s)) as [t|] eqn:Ef.
  - destruct (first_timer s t T Ef) as (x & l & Hx & Hs & Hr). unfold timer_. wp_step. eapply wp_load; [exact Hx|].
    do 2 wp_step; [by rewrite Hs|]. destruct (Z.gtb_spec (absTime x) now) as [Hg|Hg]; wp_step.
    + split; [done|]. exists []. split; [|by rewrite orb_false_r]. apply moved_nothing; [done|]. by eapply later_all.
    + eapply move_timer_wp; [done..|lia|done|]. intros tree El s1 T1 Ho1. subst l.
      eapply wp_mono; [apply IH; [done | rewrite Hr in Hl; cbn in *; unfold s1, running; cbn; lia | done | done]|].
      intros r s' tr (-> & l & Hm & ->). split; [done|]. exists (t :: l). split; [by eapply moved_step | by rewrite orb_true_r].
  - apply first_timer_none in Ef. wp_step. split; [done|]. exists []. split; [|by rewrite orb_false_r].
    apply moved_nothing; [done|]. by rewrite Ef.
Qed.

Lemma move_expired_wp now s :
  s_timers_ok s -> now <= clock s -> timers_expired_list s = [] ->
  wp (move_expired_timers now) s (fun r s' tr => tr = [] /\ exists l, moved now s l s' /\ r = negb (is_none (head l))).
Proof.
  intros T Hn He. unfold move_expired_timers, timers_fuel. do 2 wp_step.
  apply move_expired_loop_wp; [done | unfold running; lia | done | rewrite He; apply T].
Qed.

Lemma move_first_loop_wp fuel lim s :
  s_timers_ok s -> (length (running s) < fuel)%nat -> lim <= clock s ->
  Forall (fun t => lim <= absTime (timers s !!! t)) (running s) ->
  ordered (compare_timers (timers s)) (timers_expired_list s ++ running s) ->
  wp (move_first_loop fuel lim) s (fun _ s' tr => tr = [] /\ exists l, moved lim s l s').
Proof.
  revert s. induction fuel as [|fuel IH]; intros s T Hl Hn Hf Ho; [lia|]. cbn [move_first_loop]. do 2 wp_step.
  destruct (et_first (timers_tree s)) as [t|] eqn:Ef.
  - destruct (first_timer s t T Ef) as (x & l & Hx & Hs & Hr). unfold timer_. wp_step. eapply wp_load; [exact Hx|].
    do 2 wp_step; [by rewrite Hs|]. rewrite Hr in Hf. apply Forall_cons in Hf as [Hf Hfl]. rewrite (lookup_total_correct _ _ _ Hx) in Hf.
    do 2 wp_step; [lia|]. destruct (Z.gtb_spec (absTime x) lim) as [Hg|Hg]; wp_step.
    + split; [done|]. exists []. apply moved_nothing; [done|]. by eapply later_all.
    + eapply move_timer_wp; [done..|lia|done|]. intros tree El s1 T1 Ho1. subst l.
      eapply wp_mono; [apply IH; [done | rewrite Hr in Hl; cbn in *; unfold s1, running; cbn; lia | done | | done]|].
      { eapply Forall_impl; [exact Hfl|]. intros u. cbn beta. unfold s1. cbn. by rewrite times_set_state. }
      intros r s' tr (-> & l & Hm). split; [done|]. exists (t :: l). by eapply moved_step.
  - apply first_timer_none in Ef. wp_step. split; [done|]. exists []. apply moved_nothing; [done|]. by rewrite Ef.
Qed.

(** All timers with the time of the first move. *)
Lemma move_first_wp s t x l :
  s_timers_ok s -> running s = t :: l -> timers s !! t = Some x -> absTime x <= clock s -> timers_expired_list s = [] ->
  wp move_first_timers s (fun _ s' tr => tr = [] /\ exists k, moved (absTime x) s (t :: k) s').
Proof.
  intros T Hr Hx Hc He. unfold move_first_timers. do 2 wp_step. rewrite et_first_list. fold (running s). rewrite Hr. cbn [head].
  assert (Hs : state x = TIMER_STATE_RUNNING).
  { apply (has_state_of _ _ _ _ Hx), (ts_running _ _ _ _ T). rewrite Hr. by left. }
  unfold timer_. wp_step. eapply wp_load; [exact Hx|]. do 2 wp_step; [by rewrite Hs|]. wp_step.
  eapply move_timer_wp; [done..|rewrite He; apply T|]. intros tree El s1 T1 Ho1. subst l.
  assert (Hf : Forall (fun u => absTime x <= absTime (timers s1 !!! u)) (running s1)).
  { pose proof (ts_run _ _ _ _ T) as Ho. rewrite Hr in Ho. pose proof (ordered_nodup _ _ Ho) as [Hn _]%NoDup_cons.
    apply ordered_head in Ho. rewrite (lookup_total_correct _ _ _ Hx) in Ho. rewrite Forall_forall in *. intros u Hu. unfold s1. cbn.
    rewrite lookup_total_insert_ne by (by intros ->). by apply Ho. }
  eapply wp_mono; [apply move_first_loop_wp; try done|].
  - unfold timers_fuel, s1, running. cbn. fold (running s). rewrite Hr. cbn. lia.
  - intros r s' tr (-> & k & Hm). split; [done|]. exists k. by eapply moved_step.
Qed.


(** ** File descriptors: what holds of the results *)

Definition active_fds (h : gmap Z descriptor) : gmap Z descriptor := filter (fun kv => active kv.2 = true) h.

(** A descriptor points to the entry that has its result, and only then. *)
Record fds_ok (h : gmap Z descriptor) (results : list epoll_event) (pos ctr : Z) : Prop := mk_fds_ok {
  f_pos : 0 <= pos <= zlen results;
  f_ptr p i :
    (exists x, h !! p = Some x /\ active x = true /\ epoll_returned_ptr x = Some i) <->
    (pos <= i /\ exists e, results !! Z.to_nat i = Some e /\ ev_ptr e = Some p);
  f_wait p x : h !! p = Some x -> active x = true -> 0 <= waitEvents x <= 3;
  f_ctr : BPending.ctr_ok ctr (size (active_fds h));
}.

Definition s_fds_ok (s : sys) : Prop := fds_ok (fds s) (epoll_results s) (epoll_results_pos s) (d_fds_counter s).

Lemma size_active_insert h p x :
  size (active_fds (<[p := x]> h)) = (if active x then S (size (delete p (active_fds h))) else size (delete p (active_fds h))).
Proof.
  unfold active_fds. rewrite map_filter_insert. cbn. destruct (active x); cbn.
  - rewrite <- insert_delete_eq. apply map_size_insert_None, lookup_delete_eq.
  - by rewrite map_filter_delete.
Qed.

Lemma size_active h p x : h !! p = Some x ->
  size (active_fds h) = (if active x then S (size (delete p (active_fds h))) else size (delete p (active_fds h))).
Proof. intros Hx. rewrite <- (insert_id h p x) at 1 by done. apply size_active_insert. Qed.

Lemma size_active_none h p : h !! p = None -> size (delete p (active_fds h)) = size (active_fds h).
Proof. intros Hn. f_equal. apply delete_id. unfold active_fds. rewrite map_lookup_filter_None. by left. Qed.

(** Changing one descriptor: what there is to show. *)
Lemma fds_change h results pos ctr p x' results' pos' ctr' :
  fds_ok h results pos ctr -> 0 <= pos' <= zlen results' ->
  (active x' = true -> 0 <= waitEvents x' <= 3) ->
  BPending.ctr_ok ctr' (size (active_fds (<[p := x']> h))) ->
  (forall i, (active x' = true /\ epoll_returned_ptr x' = Some i) <->
    (pos' <= i /\ exists e, results' !! Z.to_nat i = Some e /\ ev_ptr e = Some p)) ->
  (forall q i, q <> p ->
    (pos <= i /\ exists e, results !! Z.to_nat i = Some e /\ ev_ptr e = Some q) <->
    (pos' <= i /\ exists e, results' !! Z.to_nat i = Some e /\ ev_ptr e = Some q)) ->
  fds_ok (<[p := x']> h) results' pos' ctr'.
Proof.
  intros [F1 F2 F3 F4] Hpos Hw Hc Hp Hq. split; try done.
  - intros q i. destruct (decide (q = p)) as [->|Hne].
    + rewrite lookup_insert_eq, <- Hp. naive_solver.
    + rewrite lookup_insert_ne by done. rewrite F2. by apply Hq.
  - intros q x [[<- <-]|[_ Hx]]%lookup_insert_Some Ha; [by apply Hw | by eapply F3].
Qed.

(** Inactive descriptors have no results. *)
Lemma no_result h results pos ctr p i e :
  fds_ok h results pos ctr -> (forall x, h !! p = Some x -> active x = true -> epoll_returned_ptr x <> Some i) ->
  pos <= i -> results !! Z.to_nat i = Some e -> ev_ptr e <> Some p.
Proof. intros F Hn Hi He Hp. destruct (proj2 (f_ptr _ _ _ _ F p i)) as (x & Hx & Ha & Hr); [eauto|]. by apply (Hn x). Qed.

Lemma fds_init h results pos ctr p x :
  fds_ok h results pos ctr -> (forall y, h !! p = Some y -> active y = false) -> active x = false ->
  fds_ok (<[p := x]> h) results pos ctr.
Proof.
  intros F Hy Hx. apply (fds_change h results pos ctr); try done.
  - apply F.
  - congruence.
  - rewrite size_active_insert, Hx. destruct (h !! p) as [y|] eqn:E.
    + pose proof (size_active _ _ _ E) as Hs. rewrite (Hy y) in Hs by done. rewrite <- Hs. apply F.
    + rewrite size_active_none by done. apply F.
  - intros i. split; [intros [? _]; congruence|]. intros (Hi & e & He & Hp).
    destruct (no_result _ _ _ _ p i e F); try done. intros y ->%Hy. done.
Qed.

Lemma fds_add h results pos ctr ctr' p x :
  fds_ok h results pos ctr -> h !! p = Some x -> active x = false -> BPending.ctr_ok ctr' (S (size (active_fds h))) ->
  fds_ok (<[p := set_wait 0 (set_active true (set_returned None x))]> h) results pos ctr'.
Proof.
  intros F Hx Ha Hc. apply (fds_change h results pos ctr); try done.
  - apply F.
  - rewrite size_active_insert. cbn. pose proof (size_active _ _ _ Hx) as Hs. rewrite Ha in Hs. by rewrite <- Hs.
  - intros i. split; [by intros [_ ?]|]. intros (Hi & e & He & Hp).
    destruct (no_result _ _ _ _ p i e F); try done. intros y Hy. congruence.
Qed.

Lemma fds_wait h results pos ctr p x n :
  fds_ok h results pos ctr -> h !! p = Some x -> active x = true -> 0 <= n <= 3 ->
  fds_ok (<[p := set_wait n x]> h) results pos ctr.
Proof.
  intros F Hx Ha Hn. apply (fds_change h results pos ctr); try done.
  - apply F.
  - rewrite size_active_insert. cbn. rewrite <- (size_active _ _ _ Hx). apply F.
  - intros i. rewrite <- (f_ptr _ _ _ _ F p i), Hx. cbn. naive_solver.
Qed.

(** The entry of a descriptor that is removed is cleared. *)
Lemma fds_remove h results results' pos ctr ctr' p x :
  fds_ok h results pos ctr -> h !! p = Some x -> active x = true -> zlen results' = zlen results ->
  (forall j, epoll_returned_ptr x <> Some j -> 0 <= j -> results' !! Z.to_nat j = results !! Z.to_nat j) ->
  (forall j e, epoll_returned_ptr x = Some j -> results' !! Z.to_nat j = Some e -> ev_ptr e = None) ->
  (forall n, size (active_fds h) = S n -> BPending.ctr_ok ctr' n) ->
  fds_ok (<[p := set_active false x]> h) results' pos ctr'.
Proof.
  intros F Hx Ha Hl Ho Hn Hc. pose proof (f_pos _ _ _ _ F) as Hpos. apply (fds_change h results pos ctr); try done.
  - by rewrite Hl.
  - rewrite size_active_insert. apply Hc. by rewrite (size_active _ _ _ Hx), Ha.
  - intros i. split; [by intros [? _]|]. intros (Hi & e & He & Hp).
    destruct (decide (epoll_returned_ptr x = Some i)) as [E|E]; [by rewrite (Hn _ _ E He) in Hp|].
    rewrite Ho in He by (done || lia). destruct (no_result _ _ _ _ p i e F); try done. intros y Hy _. congruence.
  - intros q i Hq. destruct (decide (epoll_returned_ptr x = Some i)) as [E|E].
    + split; intros (Hi & e & He & Hp); exfalso; [|by rewrite (Hn _ _ E He) in Hp].
      destruct (proj1 (f_ptr _ _ _ _ F p i)) as (_ & e' & He' & Hp'); [eauto|]. congruence.
    + split; intros (Hi & e & He & Hp); (split; [done|]); exists e; by rewrite Ho in * by (done || lia).
Qed.

(** The entry at [pos] is dispatched, or skipped if it is cleared. *)
Lemma fds_dispatch h results pos ctr p x e :
  fds_ok h results pos ctr -> results !! Z.to_nat pos = Some e -> ev_ptr e = Some p -> h !! p = Some x -> active x = true ->
  epoll_returned_ptr x = Some pos -> fds_ok (<[p := set_returned None x]> h) results (pos + 1) ctr.
Proof.
  intros F He Hp Hx Ha Hr. pose proof (f_pos _ _ _ _ F) as Hpos. apply lookup_lt_Some in He as Hlt.
  apply (fds_change h results pos ctr); try done.
  - unfold zlen in *. lia.
  - intros _. exact (f_wait _ _ _ _ F p x Hx Ha).
  - rewrite size_active_insert. cbn. rewrite <- (size_active _ _ _ Hx). apply F.
  - intros i. split; [by intros [_ ?]|]. intros (Hi & e' & He' & Hp').
    destruct (no_result _ _ _ _ p i e' F); try done; [|lia]. intros y Hy _. assert (i <> pos) by lia. congruence.
  - intros q i Hq. split; intros (Hi & e' & He' & Hp'); (split; [|by exists e']); [|lia].
    assert (i <> pos) by (intros ->; congruence). lia.
Qed.

Lemma fds_skip h results pos ctr e :
  fds_ok h results pos ctr -> results !! Z.to_nat pos = Some e -> ev_ptr e = None -> fds_ok h results (pos + 1) ctr.
Proof.
  intros [F1 F2 F3 F4] He Hp. apply lookup_lt_Some in He as Hlt. split; try done; [unfold zlen in *; lia|].
  intros p i. rewrite F2. split; intros (Hi & e' & He' & Hp'); (split; [|by exists e']); [|lia].
  assert (i <> pos) by (intros ->; congruence). lia.
Qed.

(** Nothing is left of the results: they can be forgotten. *)
Lemma fds_clear h results pos ctr : fds_ok h results pos ctr -> pos = zlen results -> fds_ok h [] 0 ctr.
Proof.
  intros [F1 F2 F3 F4] ->. split; try done. intros p i. rewrite F2. split; intros (Hi & e & He & _); [|done].
  apply lookup_lt_Some in He. unfold zlen in *. lia.
Qed.

(** One more result, of a descriptor that has none. *)
Lemma fds_returned h results ctr p x e :
  fds_ok h results 0 ctr -> h !! p = Some x -> active x = true -> ev_ptr e = Some p -> Some p ∉ ev_ptr <$> results ->
  epoll_returned_ptr x = None /\ fds_ok (<[p := set_returned (Some (zlen results)) x]> h) (results ++ [e]) 0 ctr.
Proof.
  intros F Hx Ha He Hn. split.
  - destruct (epoll_returned_ptr x) as [i|] eqn:E; [|done]. destruct (proj1 (f_ptr _ _ _ _ F p i)) as (_ & e' & He' & Hp'); [eauto|].
    destruct Hn. rewrite <- Hp'. apply list_elem_of_fmap_2. by eapply list_elem_of_lookup_2.
  - assert (Hz : Z.to_nat (zlen results) = length results) by (unfold zlen; lia).
    apply (fds_change h results 0 ctr); try done.
    + rewrite zlen_app. pose proof (zlen_nonneg results). unfold zlen at 2. cbn. lia.
    + intros _. exact (f_wait _ _ _ _ F p x Hx Ha).
    + rewrite size_active_insert. cbn. rewrite <- (size_active _ _ _ Hx). apply F.
    + intros i. cbn. rewrite Ha. split.
      * intros (_ & [= <-]). pose proof (zlen_nonneg results). split; [done|]. exists e. rewrite Hz, lookup_app_r, Nat.sub_diag by lia. done.
      * intros (Hi & e' & He' & Hp'). split; [done|]. apply lookup_app_Some in He' as [He'|[Hle He']].
        { destruct Hn. rewrite <- Hp'. apply list_elem_of_fmap_2. by eapply list_elem_of_lookup_2. }
        apply list_lookup_singleton_Some in He' as [E _]. f_equal. unfold zlen. lia.
    + intros q i Hq. split; intros (Hi & e' & He' & Hp'); (split; [done|]); exists e'; (split; [|done]).
      * by apply lookup_app_l_Some.
      * apply lookup_app_Some in He' as [He'|[_ He']]; [done|]. apply list_lookup_singleton_Some in He' as [_ <-]. congruence.
Qed.


(** ** File descriptors: operations *)

Lemma wp_upd_fd p g s x (Q : unit -> sys -> list out -> Prop) :
  fds s !! p = Some x -> Q tt (set_fds (<[p := g x]> (fds s)) s) [] -> wp (upd_fd p g) s Q.
Proof. intros Hx HQ. unfold upd_fd, fd_. wp_step. eapply wp_load; [exact Hx|]. by wp_run. Qed.

Lemma reactor_count_inc_wp pr up s n (Q : unit -> sys -> list out -> Prop) :
  BPending.ctr_ok (pr s) n -> (forall c, BPending.ctr_ok c (S n) -> Q tt (up c s) []) ->
  wp (count_ctr pr up BPending.DebugCounter_Increment) s Q.
Proof. intros (c & E & Hc)%BPending.counter_inc HQ. unfold count_ctr. do 2 wp_step. rewrite E. wp_step. by apply HQ. Qed.

Lemma reactor_count_dec_wp pr up s n (Q : unit -> sys -> list out -> Prop) :
  BPending.ctr_ok (pr s) (S n) -> (forall c, BPending.ctr_ok c n -> Q tt (up c s) []) ->
  wp (count_ctr pr up BPending.DebugCounter_Decrement) s Q.
Proof. intros (c & E & Hc)%BPending.counter_dec HQ. unfold count_ctr. do 2 wp_step. rewrite E. wp_step. by apply HQ. Qed.

(** The state with other descriptors. *)
Definition with_fds (h : gmap Z descriptor) (results : list epoll_event) (pos ctr : Z) (s : sys) : sys :=
  set_counter ctr (set_results results pos (set_fds h s)).

Lemma with_fds_same s : with_fds (fds s) (epoll_results s) (epoll_results_pos s) (d_fds_counter s) s = s.
Proof. by destruct s. Qed.

Lemma add_fd_wp s p x added (Q : bool -> sys -> list out -> Prop) :
  s_fds_ok s -> fds s !! p = Some x -> active x = false ->
  (added = false -> Q false s [Epoll_Add (fd x)]) ->
  (forall ctr, added = true ->
    let s' := with_fds (<[p := set_wait 0 (set_active true (set_returned None x))]> (fds s)) (epoll_results s) (epoll_results_pos s) ctr s in
    s_fds_ok s' -> Q true s' [Epoll_Add (fd x)]) ->
  wp (BReactor_AddFileDescriptor p added) s Q.
Proof.
  intros F Hx Ha Hno Hyes. unfold BReactor_AddFileDescriptor, fd_. wp_step. eapply wp_load; [exact Hx|].
  do 2 wp_step; [by rewrite Ha|]. do 2 wp_step. destruct added; cbn [negb]; [|wp_step; by apply Hno].
  wp_step. eapply wp_upd_fd; [exact Hx|]. do 2 (wp_step; eapply wp_upd_fd; [apply lookup_insert_eq|]). cbn. rewrite !insert_insert_eq.
  wp_step. eapply reactor_count_inc_wp; [apply F|]. intros c Hc. wp_step.
  apply (Hyes c eq_refl). by eapply fds_add.
Qed.

Lemma remove_fd_wp s p x (Q : unit -> sys -> list out -> Prop) :
  s_fds_ok s -> fds s !! p = Some x -> active x = true ->
  (forall results ctr, let s' := with_fds (<[p := set_active false x]> (fds s)) results (epoll_results_pos s) ctr s in
    s_fds_ok s' -> zlen results = zlen (epoll_results s) -> Q tt s' [Epoll_Del (fd x)]) ->
  wp (BReactor_RemoveFileDescriptor p) s Q.
Proof.
  intros F Hx Ha HQ. unfold BReactor_RemoveFileDescriptor, fd_. wp_step. eapply wp_load; [exact Hx|].
  do 2 wp_step; [done|]. pose proof (size_active _ _ _ Hx) as Hs. rewrite Ha in Hs.
  wp_step. eapply reactor_count_dec_wp; [rewrite <- Hs; apply F|]. intros c Hc.
  assert (Hc' : forall n, size (active_fds (fds s)) = S n -> BPending.ctr_ok c n) by (intros n E; rewrite Hs in E; by injection E as <-).
  wp_step. eapply wp_upd_fd; [exact Hx|]. do 2 wp_step.
  destruct (epoll_returned_ptr x) as [i|] eqn:Ei.
  - destruct (proj1 (f_ptr _ _ _ _ F p i)) as (Hi & e & He & Hp); [eauto|]. pose proof (f_pos _ _ _ _ F) as Hpos.
    unfold null_result. do 2 wp_step. change (epoll_results (set_fds _ _)) with (epoll_results s). rewrite He. wp_step.
    pose (r := <[Z.to_nat i := mk_event None (ev_events e)]> (epoll_results s)).
    assert (Hl : zlen r = zlen (epoll_results s)) by (unfold zlen, r; by rewrite length_insert).
    apply (HQ r c); [|done]. apply (fds_remove (fds s) (epoll_results s) r _ (d_fds_counter s)); [done.. | | | done]; unfold r.
    + intros j Hj Hj0. rewrite Ei in Hj. rewrite list_lookup_insert_ne; [done|]. intros E. apply Hj. f_equal. lia.
    + intros j e' [= <-]%(eq_trans (eq_sym Ei)) He'. apply lookup_lt_Some in He. by rewrite list_lookup_insert_eq in He' by done; injection He' as <-.
  - wp_step. apply HQ; [|done]. eapply fds_remove; try done. intros j e' Hj. congruence.
Qed.

Lemma land_events events : 0 <= events <= 3 -> Z.land events (Z.lnot (Z.lor BREACTOR_READ BREACTOR_WRITE)) = 0.
Proof. intros H. assert (events = 0 \/ events = 1 \/ events = 2 \/ events = 3) as [-> | [-> | [-> | ->]]] by lia; done. Qed.

Lemma set_events_wp s p x events (Q : unit -> sys -> list out -> Prop) :
  s_fds_ok s -> fds s !! p = Some x -> active x = true -> 0 <= events <= 3 ->
  (let s' := with_fds (<[p := set_wait events x]> (fds s)) (epoll_results s) (epoll_results_pos s) (d_fds_counter s) s in
    s_fds_ok s' -> Q tt s' (if waitEvents x =? events then [] else [Epoll_Mod (fd x) (epoll_events events)])) ->
  wp (BReactor_SetFileDescriptorEvents p events) s Q.
Proof.
  intros F Hx Ha He HQ. unfold BReactor_SetFileDescriptorEvents, fd_. wp_step. eapply wp_load; [exact Hx|].
  do 2 wp_step; [done|]. do 2 wp_step; [by rewrite land_events|].
  assert (F' : s_fds_ok (with_fds (<[p := set_wait events x]> (fds s)) (epoll_results s) (epoll_results_pos s) (d_fds_counter s) s)) by (by apply fds_wait).
  specialize (HQ F'). destruct (Z.eqb_spec (waitEvents x) events) as [E|E].
  - wp_step. rewrite insert_id in HQ by (destruct x; cbn in *; by subst). by rewrite with_fds_same in HQ.
  - do 2 wp_step. eapply wp_upd_fd; [exact Hx|]. by destruct s.
Qed.

(** Descriptors that differ in their pointers to results only. *)
Definition same_fds (h h' : gmap Z descriptor) : Prop := forall p, set_returned None <$> h' !! p = set_returned None <$> h !! p.

Lemma same_fds_insert h p x i h' : h !! p = Some x -> same_fds (<[p := set_returned i x]> h) h' -> same_fds h h'.
Proof.
  intros Hx Hs q. rewrite (Hs q). destruct (decide (q = p)) as [->|]; [by rewrite lookup_insert_eq, Hx | by rewrite lookup_insert_ne].
Qed.

Lemma set_pointers_wp l s dn :
  fds_ok (fds s) dn 0 (d_fds_counter s) -> Forall (fun e => event_ok s e = true) l -> NoDup (ev_ptr <$> dn ++ l) ->
  wp (set_epoll_fd_pointers (zlen dn) l) s
    (fun _ s' tr => tr = [] /\ exists h, s' = set_fds h s /\ fds_ok h (dn ++ l) 0 (d_fds_counter s) /\ same_fds (fds s) h).
Proof.
  revert s dn. induction l as [|e l IH]; intros s dn F Hl Hn; cbn [set_epoll_fd_pointers].
  - wp_step. split; [done|]. exists (fds s). rewrite app_nil_r. split_and!; [by destruct s | done | by intros p].
  - apply Forall_cons in Hl as [He Hl]. unfold event_ok, is_active in He. destruct (ev_ptr e) as [p|] eqn:Ep; [|done].
    destruct (fds s !! p) as [x|] eqn:Hx; [|done].
    destruct (fds_returned _ _ _ p x e F Hx He Ep) as [Hr F'].
    { rewrite fmap_app, fmap_cons, Ep in Hn. apply NoDup_app in Hn as (_ & Hd & _). intros Hp. destruct (Hd _ Hp). by left. }
    unfold fd_. wp_step. eapply wp_load; [exact Hx|]. do 2 wp_step; [done|]. do 2 wp_step; [by rewrite Hr|].
    wp_step. eapply wp_upd_fd; [exact Hx|]. replace (zlen dn + 1) with (zlen (dn ++ [e])) by (rewrite zlen_app; done).
    eapply wp_mono; [apply IH|].
    + done.
    + eapply Forall_impl; [exact Hl|]. intros e'. unfold event_ok, is_active. destruct (ev_ptr e') as [q|]; [|done]. cbn.
      destruct (decide (q = p)) as [->|]; [by rewrite lookup_insert_eq, Hx | by rewrite lookup_insert_ne].
    + by rewrite <- app_assoc.
    + intros _ s' tr (-> & h & -> & F2 & Hs). split; [done|]. exists h. rewrite <- app_assoc in F2. split_and!; [done | done |].
      exact (same_fds_insert _ p x _ h Hx Hs).
Qed.

(** ** Limits *)

Record limits_ok (h : gmap Z limit_object) (l : list Z) (ctr : Z) : Prop := mk_limits_ok {
  l_nodup : NoDup l;
  l_list p : p ∈ l <-> exists x, h !! p = Some x /\ 0 < count x;
  l_limit p x : h !! p = Some x -> 0 <= count x /\ 0 < limit x;
  l_ctr : BPending.ctr_ok ctr (size h);
}.

Definition s_limits_ok (s : sys) : Prop := limits_ok (limits s) (active_limits_list s) (d_limits_ctr s).

Definition with_limits (h : gmap Z limit_object) (l : list Z) (ctr : Z) (s : sys) : sys :=
  set_limits_ctr ctr (set_limits_list l (set_limits h s)).

Lemma wp_upd_limit p g s x (Q : unit -> sys -> list out -> Prop) :
  limits s !! p = Some x -> Q tt (set_limits (<[p := g x]> (limits s)) s) [] -> wp (upd_limit p g) s Q.
Proof. intros Hx HQ. unfold upd_limit, limit_. wp_step. eapply wp_load; [exact Hx|]. by wp_run. Qed.

(** Changing one limit object: in the list afterwards if it counts. *)
Lemma limits_change h l ctr p x' l' ctr' :
  limits_ok h l ctr -> 0 <= count x' -> 0 < limit x' -> BPending.ctr_ok ctr' (size (<[p := x']> h)) -> NoDup l' ->
  (p ∈ l' <-> 0 < count x') -> (forall q, q <> p -> q ∈ l' <-> q ∈ l) -> limits_ok (<[p := x']> h) l' ctr'.
Proof.
  intros [L1 L2 L3 L4] Hc Hl Hs Hn Hp Hq. split; try done.
  - intros q. destruct (decide (q = p)) as [->|].
    + rewrite Hp, lookup_insert_eq. naive_solver.
    + rewrite Hq, L2, lookup_insert_ne by done. done.
  - intros q x [[<- <-]|[_ Hx]]%lookup_insert_Some; [done | by eapply L3].
Qed.

Lemma size_insert_some {V} (h : gmap Z V) p x x' : h !! p = Some x -> size (<[p := x']> h) = size h.
Proof. intros Hx. apply map_size_insert_Some. by eexists. Qed.

Lemma limit_init_wp s p n (Q : unit -> sys -> list out -> Prop) :
  s_limits_ok s -> limits s !! p = None -> 0 < n ->
  (forall ctr, let s' := with_limits (<[p := mk_limit n 0]> (limits s)) (active_limits_list s) ctr s in s_limits_ok s' -> Q tt s' []) ->
  wp (BReactorLimit_Init p n) s Q.
Proof.
  intros L Hp Hn HQ. unfold BReactorLimit_Init. do 2 wp_step; [lia|]. do 2 wp_step. eapply reactor_count_inc_wp; [apply L|]. intros c Hc.
  apply (HQ c). eapply limits_change; cbn; try done; try apply L.
  - by rewrite map_size_insert_None.
  - split; [|lia]. intros (x & Hx & _)%L. congruence.
Qed.

Lemma limit_free_wp s p x (Q : unit -> sys -> list out -> Prop) :
  s_limits_ok s -> limits s !! p = Some x ->
  (forall l ctr, let s' := with_limits (delete p (limits s)) l ctr s in s_limits_ok s' -> Q tt s' []) ->
  wp (BReactorLimit_Free p) s Q.
Proof.
  intros L Hx HQ. unfold BReactorLimit_Free, limit_. wp_step. eapply wp_load; [exact Hx|].
  assert (Hs : size (limits s) = S (size (delete p (limits s)))).
  { rewrite <- (insert_delete_id (limits s) p x Hx) at 1. apply map_size_insert_None, lookup_delete_eq. }
  wp_step. eapply reactor_count_dec_wp; [rewrite <- Hs; apply L|]. intros c Hc. wp_step.
  assert (HL : forall l, NoDup l -> (forall q, q ∈ l <-> q <> p /\ q ∈ active_limits_list s) -> limits_ok (delete p (limits s)) l c).
  { intros l Hn Hl. split; [done | | | done].
    - intros q. rewrite Hl, (l_list _ _ _ L). split; [|by intros (y & [? ?]%lookup_delete_Some & ?); eauto].
      intros (Hq & y & Hy & ?). exists y. by rewrite lookup_delete_ne.
    - intros q y [_ Hy]%lookup_delete_Some. by eapply L. }
  pose proof (l_list _ _ _ L p) as Hp. rewrite Hx in Hp. destruct (Z.gtb_spec (count x) 0); do 2 wp_step.
  - refine (HQ (list_remove p (active_limits_list s)) c _). apply HL; [apply NoDup_list_remove, L|].
    intros q. apply elem_of_list_remove.
  - refine (HQ (active_limits_list s) c _). apply HL; [apply L|]. intros q. split; [|tauto].
    intros Hq. split; [|done]. intros ->. apply Hp in Hq as (? & [= <-] & ?). lia.
Qed.

Lemma limit_increment_wp s p x (Q : bool -> sys -> list out -> Prop) :
  s_limits_ok s -> limits s !! p = Some x -> (limit x <= count x -> Q false s []) ->
  (forall l, let s' := with_limits (<[p := set_count (count x + 1) x]> (limits s)) l (d_limits_ctr s) s in
    s_limits_ok s' -> count x < limit x -> Q true s' []) ->
  wp (BReactorLimit_Increment p) s Q.
Proof.
  intros L Hx Hno Hyes. destruct (l_limit _ _ _ L p x Hx) as [Hc Hl]. pose proof (l_list _ _ _ L p) as Hp. rewrite Hx in Hp.
  unfold BReactorLimit_Increment, limit_. wp_step. eapply wp_load; [exact Hx|].
  destruct (Z.geb_spec (count x) (limit x)); [wp_step; by apply Hno|]. wp_step. eapply wp_upd_limit; [exact Hx|].
  assert (HL : forall l, NoDup l -> p ∈ l -> (forall q, q <> p -> q ∈ l <-> q ∈ active_limits_list s) ->
    s_limits_ok (with_limits (<[p := set_count (count x + 1) x]> (limits s)) l (d_limits_ctr s) s)).
  { intros l Hn Hpl Hq. eapply limits_change; [exact L | cbn; try lia..| | |done]; try done.
    - cbn. erewrite size_insert_some by exact Hx. apply L.
    - cbn. split; [lia | done]. }
  wp_step. destruct (Z.eqb_spec (count x + 1) 1) as [E|E]; do 2 wp_step.
  - apply (Hyes (active_limits_list s ++ [p])); [|lia]. assert (Hpn : p ∉ active_limits_list s) by (rewrite Hp; intros (? & [= <-] & ?); lia).
    apply HL.
    + apply NoDup_app. split_and!; [apply L | | repeat constructor; by intros ?%elem_of_nil]. intros q Hq ->%list_elem_of_singleton. done.
    + apply elem_of_app. right. by left.
    + intros q Hq. rewrite elem_of_app, list_elem_of_singleton. tauto.
  - specialize (Hyes (active_limits_list s)). destruct s. apply Hyes; [|lia]. apply HL; [apply L | apply Hp; exists x; split; [done | lia] | done].
Qed.

Lemma limit_set_wp s p x n (Q : unit -> sys -> list out -> Prop) :
  s_limits_ok s -> limits s !! p = Some x -> 0 < n ->
  (forall h, let s' := with_limits h (active_limits_list s) (d_limits_ctr s) s in s_limits_ok s' -> Q tt s' []) ->
  wp (BReactorLimit_SetLimit p n) s Q.
Proof.
  intros L Hx Hn HQ. unfold BReactorLimit_SetLimit. do 2 wp_step; [lia|]. eapply wp_upd_limit; [exact Hx|].
  specialize (HQ (<[p := mk_limit n (count x)]> (limits s))). destruct s. apply HQ.
  eapply limits_change; cbn; try done; try apply L.
  - by eapply L.
  - erewrite size_insert_some by exact Hx. apply L.
  - rewrite (l_list _ _ _ L). cbn in *. rewrite Hx. naive_solver.
Qed.

(** Limit objects that differ in their counts only. *)
Definition same_limits (h h' : gmap Z limit_object) : Prop := forall p, set_count 0 <$> h' !! p = set_count 0 <$> h !! p.

Lemma same_limits_insert h p x n h' : h !! p = Some x -> same_limits (<[p := set_count n x]> h) h' -> same_limits h h'.
Proof.
  intros Hx Hs q. rewrite (Hs q). destruct (decide (q = p)) as [->|]; [by rewrite lookup_insert_eq, Hx | by rewrite lookup_insert_ne].
Qed.

Lemma reset_loop_wp l s : s_limits_ok s -> active_limits_list s = l ->
  wp (reset_limits_loop l) s
    (fun _ s' tr => tr = [] /\ exists h, s' = with_limits h [] (d_limits_ctr s) s /\ s_limits_ok s' /\ same_limits (limits s) h).
Proof.
  revert s. induction l as [|p l IH]; intros s L E; cbn [reset_limits_loop].
  - wp_step. split; [done|]. exists (limits s). split_and!; [destruct s; cbn in *; by subst | done | by intros p].
  - destruct (proj1 (l_list _ _ _ L p)) as (x & Hx & Hc); [rewrite E; by left|]. pose proof (l_nodup _ _ _ L) as Hn. rewrite E in Hn.
    unfold limit_. wp_step. eapply wp_load; [exact Hx|]. do 2 wp_step; [lia|].
    wp_step. eapply wp_upd_limit; [exact Hx|]. do 2 wp_step.
    eapply wp_mono; [apply IH|].
    + apply (limits_change (limits s) (active_limits_list s) (d_limits_ctr s) p _ (list_remove p (active_limits_list s)) (d_limits_ctr s)); try done.
      * cbn. by eapply L.
      * erewrite size_insert_some by exact Hx. apply L.
      * apply NoDup_list_remove, L.
      * rewrite elem_of_list_remove. cbn. split; [tauto | lia].
      * intros q Hq. rewrite elem_of_list_remove. tauto.
    + cbn. rewrite E. by apply list_remove_head.
    + intros _ s' tr (-> & h & -> & L' & Hs). split; [done|]. exists h. split_and!; [done | done | exact (same_limits_insert _ p x 0 h Hx Hs)].
Qed.


(** ** The invariant *)

Definition jobs_are (s : sys) (l : list Z) : Prop := jq_rep (pending_jobs s) (jobs_init s) l.

Record parts (s : sys) : Prop := mk_parts {
  p_timers : s_timers_ok s;
  p_fds : s_fds_ok s;
  p_limits : s_limits_ok s;
  p_jobs : exists l, jobs_are s l;
  p_clock : 0 <= clock s <= INT64_MAX;
}.

(** What [epoll_wait] is called with when the time is [now]. *)
Definition timeout_of (now : Z) (s : sys) : option Z * Z * Z * Z :=
  match running s with
  | t :: _ =>
      let abs := absTime (timers s !!! t) in
      (Some abs, abs - now, Z.min (abs - now) INT_MAX, Z.min (abs - now) INT_MAX)
  | [] => (None, 0, 0, -1)
  end.

Definition nothing_due (now : Z) (s : sys) : Prop := Forall (fun t => now < absTime (timers s !!! t)) (running s).

(** In [epoll_wait], since [since], there is nothing else to do. *)
Record waiting (since : Z) (s : sys) (timeout_abs : option Z) (rel trunc : Z) : Prop := mk_waiting {
  w_exiting : exiting s = false;
  w_expired : timers_expired_list s = [];
  w_results : epoll_results s = [] /\ epoll_results_pos s = 0;
  w_jobs : jobs_are s [];
  w_timeout : (timeout_abs, rel, trunc) = (timeout_of since s).1;
  w_due : nothing_due since s;
}.

Definition phase_ok (s : sys) : Prop :=
  match at_phase s with P_wait abs rel trunc => waiting (clock s) s abs rel trunc | _ => True end.

Definition inv (s : sys) : Prop := parts s /\ phase_ok s.

Lemma parts_clock now s : parts s -> clock s <= now <= INT64_MAX -> parts (set_clock now s).
Proof.
  intros [P1 P2 P3 P4 P5] Hn. split; try done; [|change (clock (set_clock now s)) with now; lia]. eapply timers_later; [|exact P1]. cbn. lia.
Qed.

Lemma parts_phase p s : parts s -> parts (set_phase p s).
Proof. intros [? ? ? ? ?]. by split. Qed.

(** ** One round of the loop *)

(** What a round does, at the time [now]: the first of these that is possible. *)
Inductive round (now : Z) (s : sys) : sys -> list out -> Prop :=
  | R_exit : exiting s = true -> round now s (set_phase P_done s) [Exit (exit_code s)]
  | R_job j h l g :
      exiting s = false -> jobs_are s (j :: l) ->
      jobs_init s !! j = Some h -> jq_rep g (jobs_init s) l ->
      round now s (set_phase P_user (set_jobs g s)) [Call_Job j h]
  | R_timer t x l :
      exiting s = false -> jobs_are s [] -> timers_expired_list s = t :: l ->
      timers s !! t = Some x -> absTime x <= now ->
      round now s (set_phase P_user (with_timers (<[t := set_state TIMER_STATE_INACTIVE x]> (timers s)) (timers_tree s) l s))
        [Call_Timer t (is_small x)]
  | R_removed e :
      exiting s = false -> jobs_are s [] -> timers_expired_list s = [] ->
      epoll_results s !! Z.to_nat (epoll_results_pos s) = Some e -> ev_ptr e = None ->
      round now s (set_phase P_loop (set_results (epoll_results s) (epoll_results_pos s + 1) s)) []
  | R_fd e p x (events := report_events (waitEvents x) (ev_events e)) :
      exiting s = false -> jobs_are s [] -> timers_expired_list s = [] ->
      epoll_results s !! Z.to_nat (epoll_results_pos s) = Some e -> ev_ptr e = Some p ->
      fds s !! p = Some x -> active x = true ->
      round now s
        (set_phase (if events =? 0 then P_loop else P_user)
           (with_fds (<[p := set_returned None x]> (fds s)) (epoll_results s) (epoll_results_pos s + 1) (d_fds_counter s) s))
        (if events =? 0 then [] else [Call_Fd p events])
  | R_expired l s1 :
      exiting s = false -> jobs_are s [] -> timers_expired_list s = [] -> epoll_results_pos s = zlen (epoll_results s) ->
      l <> [] -> moved now (set_results [] 0 s) l s1 ->
      round now s (set_phase P_loop s1) []
  | R_wait abs rel trunc n :
      exiting s = false -> jobs_are s [] -> timers_expired_list s = [] -> epoll_results_pos s = zlen (epoll_results s) ->
      nothing_due now s -> timeout_of now s = (abs, rel, trunc, n) ->
      round now s (set_phase (P_wait abs rel trunc) (set_results [] 0 s)) [Epoll_Wait n].

Lemma trunc_min rel : (if rel >? INT_MAX then INT_MAX else rel) = Z.min rel INT_MAX.
Proof. destruct (Z.gtb_spec rel INT_MAX); lia. Qed.

(** Calling [epoll_wait], with the time of the first timer. *)
Lemma wait_call_wp now s (Q : unit -> sys -> list out -> Prop) :
  (forall abs rel trunc n, timeout_of now s = (abs, rel, trunc, n) -> Q tt (set_phase (P_wait abs rel trunc) s) [Epoll_Wait n]) ->
  wp (wait_call (timeout_of now s).1.1.1 now) s Q.
Proof.
  intros HQ. unfold timeout_of in *. destruct (running s) as [|t l]; cbn [fst]; unfold wait_call.
  - do 3 wp_step. by apply HQ.
  - rewrite trunc_min. do 3 wp_step. by apply HQ.
Qed.

Lemma no_jobs_wp s l (Q : bool -> sys -> list out -> Prop) : jobs_are s l -> Q (bool_decide (l <> [])) s [] -> wp (on_jobs jq_has) s Q.
Proof. intros J HQ. unfold on_jobs. eapply embedded_has_wp; [by destruct s | exact J | done]. Qed.

Lemma wait_begin_wp s :
  parts s -> exiting s = false -> jobs_are s [] -> timers_expired_list s = [] -> epoll_results_pos s = zlen (epoll_results s) ->
  wp (wait_begin (clock s)) s (fun _ s' tr => round (clock s) s s' tr).
Proof.
  intros I Hx J He Hp. set (s0 := set_results [] 0 s). assert (T0 : s_timers_ok s0) by apply I.
  unfold wait_begin. wp_step. eapply no_jobs_wp; [exact J|]. do 2 wp_step; [done|]. do 2 wp_step.
  do 2 wp_step; [by rewrite He|]. do 2 wp_step; [lia|]. do 2 wp_step. fold s0.
  destruct (et_first (timers_tree s)) as [t|] eqn:Ef.
  - destruct (first_timer s t (p_timers _ I) Ef) as (x & l & Ht & Hs & Hr). unfold timer_. wp_step. eapply wp_load; [exact Ht|].
    do 2 wp_step; [by rewrite Hs|]. wp_step. eapply wp_mono; [apply move_expired_wp; [exact T0 | done | done]|].
    intros b s1 tr (-> & k & Hm & ->). destruct k as [|u k]; cbn [head is_none negb].
    + assert (s1 = s0) as -> by (by apply (mv_none _ _ _ _ Hm)). wp_step. eapply wp_load; [exact Ht|].
      pose proof (mv_after _ _ _ _ Hm) as Hd. cbn in Hd. change (running s0) with (running s) in Hd.
      replace (Some (absTime x)) with (timeout_of (clock s) s0).1.1.1
        by (unfold timeout_of; change (running s0) with (running s); rewrite Hr; cbn; by rewrite (lookup_total_correct _ _ _ Ht)).
      eapply wait_call_wp. intros abs rel trunc n E. by eapply R_wait.
    + wp_step. by eapply (R_expired _ _ (u :: k)).
  - apply first_timer_none in Ef. pose proof (wait_call_wp (clock s) s0) as W.
    assert (E0 : (timeout_of (clock s) s0).1.1.1 = None) by (unfold timeout_of; change (running s0) with (running s); by rewrite Ef).
    rewrite E0 in W. apply W. intros abs rel trunc n E. eapply R_wait; try done. unfold nothing_due. by rewrite Ef.
Qed.

Lemma exec_round_wp s : parts s -> wp (exec_round (clock s)) s (fun _ s' tr => round (clock s) s s' tr).
Proof.
  intros I. destruct (p_jobs _ I) as [l J]. unfold exec_round. do 2 wp_step. destruct (exiting s) eqn:Hx.
  { do 3 wp_step. by apply R_exit. }
  wp_step. eapply no_jobs_wp; [exact J|]. destruct l as [|j l].
  - rewrite bool_decide_false by (by intros []). destruct (timers_expired_list s) as [|t l] eqn:He.
    + destruct (Z.ltb_spec (epoll_results_pos s) (zlen (epoll_results s))) as [Hlt|Hge].
      * pose proof (f_pos _ _ _ _ (p_fds _ I)) as Hpos. unfold dispatch_fd. do 2 wp_step.
        destruct (lookup_lt_is_Some_2 (epoll_results s) (Z.to_nat (epoll_results_pos s))) as [e Ee]; [unfold zlen in *; lia|].
        rewrite Ee. do 2 wp_step. destruct (ev_ptr e) as [p|] eqn:Ep; [|wp_step; by eapply R_removed].
        destruct (proj2 (f_ptr _ _ _ _ (p_fds _ I) p (epoll_results_pos s))) as (x & Hx' & Ha & Hr); [split; [done | by exists e]|].
        unfold fd_. wp_step. eapply wp_load; [exact Hx'|]. do 2 wp_step; [done|]. do 2 wp_step; [by rewrite bool_decide_true|].
        wp_step. eapply wp_upd_fd; [exact Hx'|].
        pose proof (R_fd (clock s) s e p x Hx J He Ee Ep Hx' Ha) as R. cbv zeta in *.
        destruct (_ =? 0); wp_run; by destruct s.
      * apply wait_begin_wp; try done. pose proof (f_pos _ _ _ _ (p_fds _ I)). lia.
    + destruct (proj1 (ts_expired _ _ _ _ (p_timers _ I) t)) as (x & Ht & Hs); [rewrite He; by left|].
      pose proof (t_due _ _ (ts_timer _ _ _ _ (p_timers _ I) t x Ht) Hs) as Hd.
      pose proof (ordered_nodup _ _ (ts_exp _ _ _ _ (p_timers _ I))) as Hn. rewrite He in Hn.
      unfold dispatch_timer, timer_. wp_step. eapply wp_load; [exact Ht|]. do 2 wp_step; [by rewrite Hs|]. do 2 wp_step.
      wp_step. eapply wp_upd_timer; [exact Ht|]. do 2 wp_step. wp_step. rewrite He, list_remove_head by done.
      pose proof (R_timer (clock s) s t x l Hx J He Ht Hd) as R. by destruct s.
  - rewrite bool_decide_true by done. unfold dispatch_job. wp_step. unfold on_jobs. eapply embedded_execute_wp; [exact J|].
    intros g [j' h] J' Ej Eh. cbn in Ej, Eh. subst j'. do 3 wp_step. by eapply R_job.
Qed.


Lemma inv_user p s : parts s -> p = P_user \/ p = P_loop \/ p = P_done -> inv (set_phase p s).
Proof. intros I Hp. split; [by apply parts_phase|]. by destruct Hp as [-> | [-> | ->]]. Qed.

Lemma parts_results s : parts s -> epoll_results_pos s = zlen (epoll_results s) -> parts (set_results [] 0 s).
Proof. intros [I1 I2 I3 I4 I5] Hp. split; try done. by eapply fds_clear. Qed.

Lemma parts_moved lim s l s' : parts s -> moved lim s l s' -> parts s'.
Proof.
  intros [I1 I2 I3 [l' I4] I5] Hm. destruct (mv_state _ _ _ _ Hm) as (h & tree & E). pose proof (mv_ok _ _ _ _ Hm) as T. subst s'.
  split; try done. by exists l'.
Qed.

Lemma inv_wait s abs rel trunc n :
  parts s -> exiting s = false -> jobs_are s [] -> timers_expired_list s = [] -> epoll_results s = [] -> epoll_results_pos s = 0 ->
  nothing_due (clock s) s -> timeout_of (clock s) s = (abs, rel, trunc, n) -> inv (set_phase (P_wait abs rel trunc) s).
Proof.
  intros I Hx J He Hr Hp Hd Ht. split; [by apply parts_phase|]. split; try done. change (timeout_of _ _) with (timeout_of (clock s) s). by rewrite Ht.
Qed.

Lemma round_inv s s' tr : parts s -> round (clock s) s s' tr -> inv s'.
Proof.
  intros I Hr. pose proof I as [I1 I2 I3 [lj I4] I5].
  destruct Hr as [Hx|j h l g Hx J Hj J'|t x l Hx J He Ht Ha|e Hx J He Ee Ep|e p x events Hx J He Ee Ep Hf Ha|l s1 Hx J He Hp Hl Hm|abs rel trunc n Hx J He Hp Hd Hn].
  - apply inv_user; [done | tauto].
  - apply inv_user; [|tauto]. split; try done. by exists l.
  - apply inv_user; [|tauto]. split; try done; [|by exists lj].
    pose proof (timers_remove _ _ _ _ t x I1 Ht) as T. unfold s_timers_ok. cbn. fold (running s) in *.
    pose proof (ordered_nodup _ _ (ts_exp _ _ _ _ I1)) as Hn. rewrite He in Hn, T. rewrite list_remove_head in T by done.
    rewrite list_remove_notin in T; [done|]. rewrite (ts_running _ _ _ _ I1), (has_state_of _ _ _ _ Ht).
    assert (Hs : has_state (timers s) TIMER_STATE_EXPIRED t) by (apply (ts_expired _ _ _ _ I1); rewrite He; by left).
    apply (has_state_of _ _ _ _ Ht) in Hs. by rewrite Hs.
  - apply inv_user; [|tauto]. split; try done; [|by exists lj]. by eapply fds_skip.
  - destruct (proj2 (f_ptr _ _ _ _ I2 p (epoll_results_pos s))) as (x' & Hx' & _ & Hr); [split; [done | by exists e]|]. simplify_eq.
    apply inv_user; [|destruct (_ =? 0); tauto]. split; try done; [|by exists lj]. by eapply fds_dispatch.
  - apply inv_user; [|tauto]. eapply parts_moved; [|exact Hm]. by apply parts_results.
  - apply inv_wait with n; try done. by apply parts_results.
Qed.

(** ** The return from [epoll_wait] *)

Inductive wake (now : Z) (s : sys) : waitres -> sys -> list out -> Prop :=
  | K_results l h hl :
      l <> [] -> same_fds (fds s) h -> s_fds_ok (with_fds h l 0 (d_fds_counter s) s) ->
      limits_ok hl [] (d_limits_ctr s) -> same_limits (limits s) hl ->
      wake now s (W_ready l) (set_phase P_loop (with_limits hl [] (d_limits_ctr s) (with_fds h l 0 (d_fds_counter s) s))) []
  | K_timeout w t k s1 hl :
      w = W_intr \/ w = W_ready [] -> absTime (timers s !!! t) <= now ->
      moved (absTime (timers s !!! t)) s (t :: k) s1 ->
      limits_ok hl [] (d_limits_ctr s) -> same_limits (limits s) hl ->
      wake now s w (set_phase P_loop (with_limits hl [] (d_limits_ctr s) s1)) []
  | K_again w abs rel trunc n :
      w = W_intr \/ w = W_ready [] -> nothing_due now s -> timeout_of now s = (abs, rel, trunc, n) ->
      wake now s w (set_phase (P_wait abs rel trunc) s) [Epoll_Wait n].

Lemma wait_return_wp s (Q : unit -> sys -> list out -> Prop) :
  s_limits_ok s ->
  (forall hl, limits_ok hl [] (d_limits_ctr s) -> same_limits (limits s) hl -> Q tt (set_phase P_loop (with_limits hl [] (d_limits_ctr s) s)) []) ->
  wp wait_return s Q.
Proof.
  intros L HQ. unfold wait_return, reset_limits. do 2 wp_step. wp_step.
  eapply wp_mono; [by apply reset_loop_wp|]. intros _ s' tr (-> & h & -> & L' & Hs). wp_step. by apply HQ.
Qed.

(** The first timer is due: it is moved. *)
Lemma wait_timeout_wp s t l w (Q : unit -> sys -> list out -> Prop) :
  parts s -> running s = t :: l -> absTime (timers s !!! t) <= clock s -> timers_expired_list s = [] ->
  w = W_intr \/ w = W_ready [] -> (forall s' tr, wake (clock s) s w s' tr -> Q tt s' tr) -> wp (move_first_timers ;; wait_return) s Q.
Proof.
  intros I Hr Ha He Hw HQ.
  destruct (proj1 (ts_running _ _ _ _ (p_timers _ I) t)) as (x & Hx & _); [rewrite Hr; by left|].
  rewrite (lookup_total_correct _ _ _ Hx) in Ha.
  wp_step. eapply wp_mono; [eapply move_first_wp; try done; apply I|]. intros _ s1 tr (-> & k & Hm).
  apply wait_return_wp; [by apply (parts_moved _ _ _ _ I Hm)|]. intros hl Hl Hs.
  destruct (mv_state _ _ _ _ Hm) as (h & tree & E). assert (Ec : d_limits_ctr s1 = d_limits_ctr s) by (by rewrite E).
  assert (Eh : limits s1 = limits s) by (by rewrite E). rewrite Ec, ?Eh in *. apply HQ. eapply (K_timeout _ _ _ t k); rewrite ?(lookup_total_correct _ _ _ Hx); done.
Qed.

Lemma try_again_wp s w since rel trunc abs :
  parts s -> waiting since s abs rel trunc -> w = W_intr \/ w = W_ready [] ->
  wp (try_again abs (clock s)) s (fun _ s' tr => wake (clock s) s w s' tr).
Proof.
  intros I W Hw. pose proof (w_timeout _ _ _ _ _ W) as Et. pose proof (wait_call_wp (clock s) s) as Hc.
  unfold try_again, timeout_of in *. destruct (running s) as [|t l] eqn:Hr; cbn in Et; injection Et as -> -> ->; cbn [fst] in Hc.
  - apply Hc. intros a r c n E. eapply K_again; [done | unfold nothing_due; by rewrite Hr | unfold timeout_of; by rewrite Hr].
  - destruct (Z.geb_spec (clock s) (absTime (timers s !!! t))) as [Hg|Hg].
    + eapply wait_timeout_wp; try done. apply W.
    + apply Hc. intros a r c n E. eapply K_again; [done | | unfold timeout_of; by rewrite Hr].
      unfold nothing_due. pose proof (ts_run _ _ _ _ (p_timers _ I)) as Ho. rewrite Hr in Ho. apply ordered_head in Ho. rewrite Hr.
      constructor; [done|]. eapply Forall_impl; [exact Ho|]. cbn. lia.
Qed.

Lemma wait_end_wp s w since abs rel trunc :
  parts s -> waiting since s abs rel trunc -> wait_ok abs trunc w (clock s) (set_clock since s) = true ->
  wp (wait_end abs rel trunc w (clock s)) s (fun _ s' tr => wake (clock s) s w s' tr).
Proof.
  intros I W Hok. destruct w as [|l]; cbn [wait_end]; [eapply try_again_wp; eauto|].
  unfold wait_ok in Hok. rewrite !andb_true_iff in Hok. destruct Hok as [[[H64 Hev] Hn%bool_decide_eq_true] Hto].
  destruct (w_results _ _ _ _ _ W) as [Er Ep]. destruct l as [|e l].
  - change (negb (zlen [] =? 0)) with false in Hto. apply andb_true_iff in Hto as [Ha Hto%Z.leb_le]. do 2 wp_step; [by rewrite Ha, orb_true_r|].
    do 2 wp_step; [done|]. cbn [zlen length Z.of_nat Z.eqb negb]. destruct (Z.eqb_spec trunc rel) as [->|Hne].
    + pose proof (w_timeout _ _ _ _ _ W) as Et. unfold timeout_of in Et. destruct (running s) as [|t l] eqn:Hr; cbn in Et; injection Et as -> -> Et; [done|].
      eapply wait_timeout_wp; try done; [|apply W | by right]. cbn in Hto. lia.
    + eapply try_again_wp; eauto.
  - assert (Hz : zlen (e :: l) =? 0 = false) by (rewrite zlen_cons; pose proof (zlen_nonneg l); lia).
    rewrite Hz. do 2 wp_step; [done|]. do 2 wp_step; [done|]. cbn [negb]. do 2 wp_step.
    wp_step. eapply wp_mono; [apply (set_pointers_wp (e :: l) (set_results (e :: l) 0 s) [])|].
    + pose proof (p_fds _ I) as F. unfold s_fds_ok in F. by rewrite Er, Ep in F.
    + apply Forall_forall. intros e' He'. rewrite forallb_forall in Hev. apply Hev. by apply list_elem_of_In.
    + done.
    + intros _ s1 tr (-> & h & -> & F & Hs). apply wait_return_wp; [apply I|]. intros hl Hl Hsl.
      refine (eq_rect _ (fun s' => wake (clock s) s (W_ready (e :: l)) s' _) (K_results (clock s) s (e :: l) h hl _ Hs _ Hl Hsl) _ _); [done | exact F | done].
Qed.

Lemma wake_inv s w s' tr since abs rel trunc : parts s -> waiting since s abs rel trunc -> wake (clock s) s w s' tr -> inv s'.
Proof.
  intros I W Hk. pose proof I as [I1 I2 I3 [lj I4] I5]. destruct Hk as [l h hl Hl Hs F L Hsl|w t k s1 hl Hw Ha Hm L Hsl|w a r c n Hw Hd Hn].
  - apply inv_user; [|tauto]. split; try done. by exists lj.
  - apply inv_user; [|tauto]. destruct (parts_moved _ _ _ _ I Hm) as [J1 J2 J3 [l J4] J5].
    destruct (mv_state _ _ _ _ Hm) as (h & tree & ->). split; try done. by exists l.
  - apply inv_wait with n; try done; apply W.
Qed.


(** ** Calls of handlers *)

(** A timer is armed from when it is set until it is removed or its handler is called. *)
Definition armed (t : Z) (s : sys) : bool := negb (is_stopped t s).

Definition sets (t : Z) (ev : event) : bool :=
  match ev with E_set_small u _ _ _ | E_set u _ | E_set_after u _ _ | E_set_absolute u _ _ => u =? t | _ => false end.
Definition adds (p : Z) (ev : event) : bool := match ev with E_fd_add q true => q =? p | _ => false end.

Definition is_call (o : out) : bool := match o with Call_Timer _ _ | Call_Fd _ _ => true | _ => false end.

(** The users' calls: no handler runs, and nothing is armed or registered but by them. *)
Record quiet (ev : event) (s s' : sys) (tr : list out) : Prop := mk_quiet {
  q_timers t : armed t s' = true -> armed t s = true \/ sets t ev = true;
  q_fds p : is_active p s' = true -> is_active p s = true \/ adds p ev = true;
  q_calls : Forall (fun o => is_call o = false) tr;
}.

Lemma quiet_same ev s s' tr : timers s' = timers s -> fds s' = fds s -> Forall (fun o => is_call o = false) tr -> quiet ev s s' tr.
Proof.
  intros Et Ef Hc. split; [intros t; unfold armed, is_stopped; rewrite Et | intros p; unfold is_active; rewrite Ef | done]; by left.
Qed.

Lemma quiet_timers ev s s' t x : timers s' = <[t := x]> (timers s) -> fds s' = fds s ->
  (state x <> TIMER_STATE_INACTIVE -> sets t ev = true) -> quiet ev s s' [].
Proof.
  intros Et Ef Hx. split; [intros u; unfold armed, is_stopped; rewrite Et | intros p; unfold is_active; rewrite Ef; by left | constructor].
  destruct (decide (u = t)) as [->|]; [|rewrite lookup_insert_ne by done; by left]. rewrite lookup_insert_eq.
  intros H. right. apply Hx. lia.
Qed.

Lemma quiet_fds ev s s' p x tr : timers s' = timers s -> fds s' = <[p := x]> (fds s) ->
  (active x = true -> is_active p s = true \/ adds p ev = true) -> Forall (fun o => is_call o = false) tr -> quiet ev s s' tr.
Proof.
  intros Et Ef Hx Hc. split; [intros t; unfold armed, is_stopped; rewrite Et; by left | intros q | done].
  destruct (decide (q = p)) as [->|]; unfold is_active at 1; rewrite Ef; [rewrite lookup_insert_eq; done | rewrite lookup_insert_ne by done; by left].
Qed.

(** ** Events keep the invariant *)

Lemma with_clock_wp {A} now (m : H A) s (Q : unit -> sys -> list out -> Prop) :
  wp m (set_clock now s) (fun _ s' tr => Q tt s' tr) -> wp (with_clock now m) s Q.
Proof.
  intros Hm. unfold with_clock. do 2 wp_step. wp_step. eapply wp_mono; [exact Hm|]. intros a s' tr HQ. wp_step. by rewrite app_nil_r.
Qed.

Lemma inv_api s s' : parts s' -> in_user s = true -> at_phase s' = at_phase s -> inv s'.
Proof. intros I Hu Hp. split; [done|]. unfold phase_ok, in_user in *. rewrite Hp. by destruct (at_phase s). Qed.

Lemma clock_ok_spec now s : clock_ok now s = true <-> clock s <= now <= INT64_MAX.
Proof. unfold clock_ok. lia. Qed.

Lemma clock_int64 now s : parts s -> clock s <= now <= INT64_MAX -> int64 now = true.
Proof. intros I Hn. pose proof (p_clock _ I). unfold int64, INT64_MIN. lia. Qed.

(** What the events do to the timers. *)
Lemma set_event_wp s t x mode time now (Q : unit -> sys -> list out -> Prop) :
  inv s -> in_user s = true -> timers s !! t = Some x -> mode = BTIMER_SET_ABSOLUTE \/ mode = BTIMER_SET_RELATIVE ->
  int64 time = true -> clock s <= now <= INT64_MAX ->
  
  (forall s' x', inv s' -> timers s' = <[t := x']> (timers s) -> fds s' = fds s -> Q tt s' []) ->
  wp (BReactor_SetSmallTimer t mode time now) (set_clock now s) Q.
Proof.
  intros [I _] Hu Hx Hm Ht Hn HQ. pose proof (parts_clock now s I Hn) as I1.
  eapply set_timer_wp; [apply I1 | exact Hx | done | done | exact (clock_int64 now s I Hn) |]. intros tree _ T. eapply HQ; [|done..].
  apply (inv_api s); [|done..]. destruct I1 as [_ I2 I3 [l I4] I5]. split; try done. by exists l.
Qed.

Lemma heavy_timer s t : is_heavy t s = true -> exists x, timers s !! t = Some x.
Proof. unfold is_heavy. destruct (timers s !! t); [eauto | done]. Qed.

Lemma init_event s t x :
  inv s -> in_user s = true -> is_stopped t s = true -> state x = TIMER_STATE_INACTIVE ->
  int64 (absTime x) = true -> int64 (msTime x) = true -> inv (set_timers (<[t := x]> (timers s)) s).
Proof.
  intros [[I1 I2 I3 [l I4] I5] _] Hu Hs Hx Ha Hm. apply (inv_api s); [|done..]. split; try done; [|by exists l].
  apply timers_init; try done. intros y Hy. unfold is_stopped in Hs. rewrite Hy in Hs. lia.
Qed.

Lemma inv_with_fds s h results ctr : inv s -> in_user s = true -> fds_ok h results (epoll_results_pos s) ctr -> inv (with_fds h results (epoll_results_pos s) ctr s).
Proof. intros [[I1 I2 I3 [l I4] I5] _] Hu F. apply (inv_api s); [|done..]. split; try done. by exists l. Qed.

Lemma inv_with_limits s h l ctr : inv s -> in_user s = true -> limits_ok h l ctr -> inv (with_limits h l ctr s).
Proof. intros [[I1 I2 I3 [l' I4] I5] _] Hu L. apply (inv_api s); [|done..]. split; try done. by exists l'. Qed.

Lemma inv_with_jobs s g m l : inv s -> in_user s = true -> jq_rep g m l -> inv (set_init m (set_jobs g s)).
Proof. intros [[I1 I2 I3 I4 I5] _] Hu J. apply (inv_api s); [|done..]. split; try done. by exists l. Qed.

Lemma active_fd s p : is_active p s = true -> exists x, fds s !! p = Some x /\ active x = true.
Proof. unfold is_active. destruct (fds s !! p); [eauto | done]. Qed.

Lemma synchronize_wp s ref (Q : unit -> sys -> list out -> Prop) :
  inv s -> in_user s = true -> exiting s || has_jobs s = true -> 
  (forall s' tr, inv s' -> timers s' = timers s -> fds s' = fds s -> Forall (fun o => is_call o = false) tr -> Q tt s' tr) ->
  wp (synchronize_round ref) s Q.
Proof.
  intros I Hu He HQ. pose proof I as [[_ _ _ [l J] _] _]. unfold synchronize_round. do 2 wp_step.
  destruct (exiting s) eqn:Hx; [wp_step; apply HQ; [done.. | by repeat constructor]|]. cbn in He. unfold has_jobs in He.
  destruct (wp_ok _ _ _ (jq_has_spec (O:=out) _ _ _ J)) as (b & g & tr & E & -> & -> & ->). rewrite E in He. apply bool_decide_eq_true in He.
  wp_step. eapply no_jobs_wp; [exact J|]. do 2 wp_step; [by rewrite bool_decide_true|].
  wp_step. unfold on_jobs. eapply embedded_peek_wp; [by destruct s | exact J|]. cbn beta. destruct (bool_decide (head l = Some ref)); [wp_step; apply HQ; [done.. | by repeat constructor]|].
  destruct l as [|j l]; [done|]. unfold dispatch_job. wp_step. unfold on_jobs. eapply embedded_execute_wp; [exact J|].
  intros g r J' _ _. do 3 wp_step. apply HQ; [|done | done | by repeat constructor]. apply inv_user; [|tauto]. destruct I as [[I1 I2 I3 _ I5] _]. split; try done. by exists l.
Qed.

Lemma job_event_wp s ev (Q : unit -> sys -> list out -> Prop) :
  inv s -> in_user s = true -> enabled ev s = true ->
  (forall s', inv s' -> timers s' = timers s -> fds s' = fds s -> Q tt s' []) ->
  match ev with E_job_init _ _ | E_job_free _ | E_job_set _ | E_job_unset _ => wp (deliver ev) s Q | _ => True end.
Proof.
  intros I Hu He HQ. pose proof I as [[_ _ _ [l J] _] _]. destruct ev as [| | | |o h|o|o|o| | | | | | | | | | | | | | | ]; try done; cbn [enabled deliver] in *.
  all: apply andb_true_iff in He as [_ He%bool_decide_eq_true]; unfold on_jobs.
  - wp_step. eapply embedded_init_wp; [done..|]. intros g J'. wp_step. apply HQ; [by eapply inv_with_jobs | done..].
  - wp_step. eapply embedded_free_wp; [done..|]. intros g J'. wp_step. apply HQ; [by eapply inv_with_jobs | done..].
  - eapply embedded_set_wp; [done..|]. intros g J'. apply HQ; [|done..]. pose proof (inv_with_jobs _ _ _ _ I Hu J') as I'. by destruct s.
  - eapply embedded_unset_wp; [done..|]. intros g J'. apply HQ; [|done..]. pose proof (inv_with_jobs _ _ _ _ I Hu J') as I'. by destruct s.
Qed.

(** What an event does. *)
Definition step_ok (ev : event) (s s' : sys) (tr : list out) : Prop :=
  match ev with
  | E_exec now => round now (set_clock now s) s' tr
  | E_wake w now => wake now (set_clock now s) w s' tr
  | _ => quiet ev s s' tr
  end.

Ltac set_quiet t := intros s' x' I' Et Ef; split; [done|]; apply (quiet_timers _ _ _ t x'); [done | done | intros _; cbn; lia].

Lemma reactor_deliver_wp ev s : inv s -> enabled ev s = true -> wp (deliver ev) s (fun _ s' tr => inv s' /\ step_ok ev s s' tr).
Proof.
  intros I He. pose proof I as [Ip Hph].
  assert (Hu : match ev with E_exec _ | E_wake _ _ => True | _ => in_user s = true end).
  { destruct ev; try done; cbn [enabled] in He; repeat (apply andb_true_iff in He as [He ?]); done. }
  destruct ev as [now|w now|ref|code|o h|o|o|o|t old|t ms old|t mode time now|t now|t after now|t time now|t|p fd0 junk|p added|p|p events|p n|p|p|p n].
  5-8: match goal with |- wp (deliver ?e) _ _ => refine (job_event_wp s e _ I Hu He _); intros s' I' Et Ef; split; [done | by apply quiet_same] end.
  all: cbn [enabled deliver step_ok] in *; repeat (apply andb_true_iff in He as [He ?]).
  - assert (Hn : clock s <= now <= INT64_MAX) by (apply clock_ok_spec; by destruct (at_phase s)).
    pose proof (parts_clock now s Ip Hn) as I1. apply with_clock_wp.
    eapply wp_mono; [by apply (exec_round_wp (set_clock now s))|]. intros u s' tr Hr. split; [apply (round_inv (set_clock now s) s' tr); [done|]; exact Hr | done].
  - unfold phase_ok in Hph. do 2 wp_step. destruct (at_phase s) as [| |abs rel trunc|] eqn:Ep; try done.
    apply andb_true_iff in He as [Hn%clock_ok_spec Hw]. pose proof (parts_clock now s Ip Hn) as I1.
    assert (W : waiting (clock s) (set_clock now s) abs rel trunc) by (destruct Hph; by split).
    apply with_clock_wp. eapply wp_mono; [apply (wait_end_wp (set_clock now s) w (clock s)); [done..|]|].
    { replace (set_clock (clock s) (set_clock now s)) with s by (by destruct s). exact Hw. }
    intros u s' tr Hk. split; [by apply (wake_inv (set_clock now s) w s' tr (clock s) abs rel trunc) | done].
  - apply synchronize_wp; try done. intros s' tr I' Et Ef Hc. split; [done | by apply quiet_same].
  - unfold BReactor_Quit. wp_step. split; [|by apply quiet_same]. apply (inv_api s); [|done..]. destruct Ip as [I1 I2 I3 [l I4] I5]. split; try done. by exists l.
  - unfold BSmallTimer_Init. wp_step. split; [by apply init_event | by eapply quiet_timers].
  - unfold BTimer_Init. wp_step. split; [by apply init_event | by eapply quiet_timers].
  - apply bool_decide_eq_true in H2 as [x Hx]. apply with_clock_wp. eapply set_event_wp; [done | done | exact Hx | | done | by apply clock_ok_spec | by set_quiet t].
    unfold BTIMER_SET_ABSOLUTE, BTIMER_SET_RELATIVE in *. lia.
  - destruct (heavy_timer s t) as [x Hx]; [done|]. unfold BReactor_SetTimer, timer_. apply with_clock_wp. wp_step. eapply wp_load; [exact Hx|].
    eapply set_event_wp; [done | done | exact Hx | by right | | by apply clock_ok_spec | by set_quiet t]. apply (t_range _ _ (ts_timer _ _ _ _ (p_timers _ Ip) t x Hx)).
  - destruct (heavy_timer s t) as [x Hx]; [done|]. apply with_clock_wp.
    eapply set_event_wp; [done | done | exact Hx | by right | done | by apply clock_ok_spec | by set_quiet t].
  - destruct (heavy_timer s t) as [x Hx]; [done|]. apply with_clock_wp.
    eapply set_event_wp; [done | done | exact Hx | by left | done | by apply clock_ok_spec | by set_quiet t].
  - apply bool_decide_eq_true in H as [x Hx]. eapply remove_timer_wp; [apply Ip | exact Hx|]. intros tree El T. split; [|by eapply quiet_timers].
    apply (inv_api s); [|done..]. destruct Ip as [I1 I2 I3 [l I4] I5]. split; try done; [|by exists l]. unfold s_timers_ok, running. cbn. by rewrite El.
  - unfold BFileDescriptor_Init. wp_step. split; [|by eapply quiet_fds].
    enough (I' : inv (with_fds (<[p := mk_fd fd0 false junk.1 junk.2]> (fds s)) (epoll_results s) (epoll_results_pos s) (d_fds_counter s) s)) by (by destruct s).
    apply inv_with_fds; [done..|]. apply fds_init; [apply Ip | | done]. intros y Hy. unfold is_unused in *. rewrite Hy in *. by destruct (active y).
  - apply bool_decide_eq_true in H0 as [x Hx]. unfold is_unused in *. rewrite Hx in *. wp_step.
    eapply add_fd_wp; [apply Ip | exact Hx | by destruct (active x) | intros _; wp_step; split; [done | apply quiet_same; by repeat constructor] |]. intros ctr -> s' F. wp_step. split; [by apply inv_with_fds|].
    apply (quiet_fds _ _ _ p (set_wait 0 (set_active true (set_returned None x)))); [done | done | | by repeat constructor].
    intros _. right. cbn. by rewrite Z.eqb_refl.
  - destruct (active_fd s p) as (x & Hx & Ha); [done|]. eapply remove_fd_wp; [apply Ip | exact Hx | done |]. intros r ctr s' F _. split; [by apply inv_with_fds|].
    apply (quiet_fds _ _ _ p (set_active false x)); by repeat constructor.
  - destruct (active_fd s p) as (x & Hx & Ha); [done|]. eapply set_events_wp; [apply Ip | exact Hx | done | lia |]. intros s' F. split; [by apply inv_with_fds|].
    apply (quiet_fds _ _ _ p (set_wait events x)); [done | done | by left | by destruct (_ =? _); repeat constructor].
  - apply bool_decide_eq_true in H0. eapply limit_init_wp; [apply Ip | done | lia |]. intros ctr s' L. split; [by apply inv_with_limits | by apply quiet_same].
  - apply bool_decide_eq_true in H as [x Hx]. eapply limit_free_wp; [apply Ip | exact Hx |]. intros l ctr s' L. split; [by apply inv_with_limits | by apply quiet_same].
  - apply bool_decide_eq_true in H as [x Hx]. wp_step. eapply limit_increment_wp; [apply Ip | exact Hx | intros _; wp_step; split; [done | by apply quiet_same] |].
    intros l s' L _. wp_step. split; [by apply inv_with_limits | by apply quiet_same].
  - apply bool_decide_eq_true in H0 as [x Hx]. eapply limit_set_wp; [apply Ip | exact Hx | lia |]. intros h s' L. split; [by apply inv_with_limits | by apply quiet_same].
Qed.

Lemma reactor_run_events_inv evs s : inv s -> exists s' tr, run_events evs s = Some (s', tr) /\ inv s'.
Proof.
  revert s. induction evs as [|ev evs IH]; intros s I; cbn [run_events]; [eauto|].
  destruct (enabled ev s) eqn:He; [|eauto].
  destruct (wp_ok _ _ _ (reactor_deliver_wp ev s I He)) as (u & s1 & tr & -> & I1 & _).
  destruct (IH s1 I1) as (s' & tr' & -> & I'). cbn. eauto.
Qed.

Lemma reactor_init_wp created mem : fresh mem ->
  wp (BReactor_Init created) mem (fun r s tr => r = created /\ tr = [Epoll_Create] /\
    (created = true -> inv s /\ exiting s = false /\ running s = [] /\ jobs_are s [])).
Proof.
  intros (Ej & Et & Ef & El & Eph & Hc). unfold BReactor_Init, on_jobs. do 2 wp_step. wp_step. eapply embedded_start_wp. intros g J.
  do 8 wp_step. destruct created; cbn [negb].
  - wp_run. split_and!; [done..|]. intros _. split_and!; try done; [|apply et_empty_list | unfold jobs_are; cbn; by rewrite Ej].
    split; [|unfold phase_ok; cbn; by rewrite Eph]. split.
    + unfold s_timers_ok, running. cbn. rewrite et_empty_list, Et. split; [constructor | constructor | | | done].
      all: intros t; rewrite elem_of_nil; split; [done|]; intros (x & Hx & _); by rewrite lookup_empty in Hx.
    + unfold s_fds_ok. cbn. rewrite Ef. split; try done.
      * intros p i. split; [intros (x & Hx & _); by rewrite lookup_empty in Hx | by intros (_ & e & He & _)].
      * by left.
    + unfold s_limits_ok. cbn. rewrite El. split; [constructor | | done | by left].
      intros p. split; [by intros ?%elem_of_nil | intros (x & Hx & _); by rewrite lookup_empty in Hx].
    + exists []. unfold jobs_are. cbn. by rewrite Ej.
    + done.
  - wp_step. eapply embedded_stop_wp; [by destruct mem | exact J |]. by wp_step.
Qed.


(** ** Lemmas for the theorems *)

Lemma armed_spec s t : s_timers_ok s -> armed t s = true <-> t ∈ running s \/ t ∈ timers_expired_list s.
Proof.
  intros T. rewrite (ts_running _ _ _ _ T), (ts_expired _ _ _ _ T). unfold armed, is_stopped, has_state.
  destruct (timers s !! t) as [x|] eqn:Ex; [|naive_solver]. pose proof (t_state _ _ (ts_timer _ _ _ _ T t x Ex)) as Hs.
  unfold TIMER_STATE_INACTIVE, TIMER_STATE_RUNNING, TIMER_STATE_EXPIRED in *. split.
  - intros H. destruct Hs as [Hs|[Hs|Hs]]; [|left; by exists x | right; by exists x]. by rewrite Hs in H.
  - intros [(y & [= <-] & ->)|(y & [= <-] & ->)]; done.
Qed.

(** Moving to the expired list does not change which timers are armed. *)
Lemma moved_armed lim s l s' t : s_timers_ok s -> moved lim s l s' -> armed t s' = armed t s.
Proof.
  intros T Hm. apply eq_true_iff_eq. rewrite !armed_spec by (done || apply Hm). rewrite (mv_running _ _ _ _ Hm).
  destruct (mv_state _ _ _ _ Hm) as (h & tree & E). assert (Ee : timers_expired_list s' = timers_expired_list s ++ l) by (by rewrite E).
  rewrite Ee, !elem_of_app. tauto.
Qed.

Lemma moved_fds lim s l s' : moved lim s l s' -> fds s' = fds s.
Proof. intros Hm. by destruct (mv_state _ _ _ _ Hm) as (h & tree & ->). Qed.

(** The calls of the timer [t]. *)
Definition calls_timer (t : Z) (o : out) : bool := match o with Call_Timer u _ => u =? t | _ => false end.
Definition calls (t : Z) (tr : list out) : Z := zlen (filter (fun o => calls_timer t o = true) tr).

Lemma calls_app t tr tr' : calls t (tr ++ tr') = calls t tr + calls t tr'.
Proof. unfold calls. by rewrite filter_app, zlen_app. Qed.

Lemma calls_quiet t tr : Forall (fun o => is_call o = false) tr -> calls t tr = 0.
Proof.
  unfold calls. induction 1 as [|o tr Ho _ IH]; [done|]. rewrite filter_cons_False; [done|]. by destruct o.
Qed.

Lemma no_fd_call p e tr : Forall (fun o => is_call o = false) tr -> Call_Fd p e ∉ tr.
Proof. rewrite Forall_forall. intros Hf Hin. by apply Hf in Hin. Qed.

(** The balance of the calls of a timer, and descriptors that are not registered. *)
Definition balance (ev : event) (s s' : sys) (tr : list out) : Prop :=
  (forall t, calls t tr + Z.b2z (armed t s') <= Z.b2z (armed t s) + Z.b2z (sets t ev)) /\
  (forall p, is_active p s = false -> adds p ev = false -> is_active p s' = false /\ forall e, Call_Fd p e ∉ tr).

Lemma balance_same ev s s' tr : (forall t, armed t s' = armed t s) -> (forall p, is_active p s' = is_active p s) ->
  Forall (fun o => is_call o = false) tr -> balance ev s s' tr.
Proof.
  intros Ha Hp Hc. split.
  - intros t. rewrite Ha, (calls_quiet t tr Hc). destruct (sets t ev); cbn; lia.
  - intros p Hi _. rewrite Hp. split; [done|]. intros e. by apply no_fd_call.
Qed.

Lemma quiet_balance ev s s' tr : quiet ev s s' tr -> balance ev s s' tr.
Proof.
  intros [Qt Qf Qc]. split.
  - intros t. rewrite (calls_quiet t tr Qc). specialize (Qt t). destruct (armed t s'), (armed t s), (sets t ev); cbn; try lia; naive_solver.
  - intros p Hi Ha. split; [|intros e; by apply no_fd_call]. specialize (Qf p). destruct (is_active p s'); [|done]. naive_solver congruence.
Qed.

Lemma timer_balance ev s s' t x b tr :
  timers s !! t = Some x -> state x <> TIMER_STATE_INACTIVE -> timers s' = <[t := set_state TIMER_STATE_INACTIVE x]> (timers s) ->
  fds s' = fds s -> tr = [Call_Timer t b] -> balance ev s s' tr.
Proof.
  intros Hx Hs Et Ef ->. split.
  - intros u. unfold armed, is_stopped. rewrite Et. destruct (decide (u = t)) as [->|Hu].
    + unfold calls. rewrite lookup_insert_eq, Hx, filter_cons_True by apply Z.eqb_refl. cbn. destruct (Z.eqb_spec (state x) TIMER_STATE_INACTIVE); [done|].
      unfold zlen. destruct (sets t ev); cbn; lia.
    + unfold calls. rewrite lookup_insert_ne, filter_cons_False by (done || (cbn; lia)). unfold zlen. cbn. destruct (sets u ev); cbn; lia.
  - intros p Hi _. unfold is_active in *. rewrite Ef. split; [done|]. intros e He%list_elem_of_singleton. done.
Qed.

Lemma fd_balance ev s s' p x tr :
  fds s !! p = Some x -> active x = true -> timers s' = timers s -> fds s' = <[p := set_returned None x]> (fds s) ->
  (forall o, o ∈ tr -> exists e, o = Call_Fd p e) -> balance ev s s' tr.
Proof.
  intros Hx Ha Et Ef Hc. split.
  - intros t. unfold armed, is_stopped. rewrite Et. assert (E : calls t tr = 0).
    { clear -Hc. unfold calls. induction tr as [|o tr IH]; [done|]. destruct (Hc o) as [e ->]; [by left|].
      rewrite filter_cons_False by done. apply IH. intros o Ho. apply Hc. by right. }
    rewrite E. destruct (sets t ev); cbn; lia.
  - intros q Hi _. unfold is_active in *. rewrite Ef. destruct (decide (q = p)) as [->|Hq]; [by rewrite Hx, Ha in Hi|].
    rewrite lookup_insert_ne by done. split; [done|]. intros e (e' & [= E _])%Hc. done.
Qed.

Lemma step_balance ev s s' tr : inv s -> enabled ev s = true -> step_ok ev s s' tr -> balance ev s s' tr.
Proof.
  intros [Ip _] He Hs. pose proof (p_timers _ Ip) as T.
  destruct ev as [now|w now| | | | | | | | | | | | | | | | | | | | |]; try (by apply quiet_balance); cbn [step_ok enabled] in *.
  - assert (T1 : s_timers_ok (set_clock now s)).
    { apply (parts_clock now s Ip). apply clock_ok_spec. by destruct (at_phase s). }
    destruct Hs as [Hx|j h l g Hx J Hj J'|t x l Hx J Hex Ht Ha|e Hx J Hex Ee Ep|e p x events Hx J Hex Ee Ep Hf Ha|l s1 Hx J Hex Hp Hl Hm|abs rel trunc n Hx J Hex Hp Hd Hn].
    1, 2, 4, 7: apply balance_same; [done | done | by repeat constructor].
    + apply (timer_balance _ s _ t x (is_small x)); try done. intros E.
      assert (Hs : has_state (timers s) TIMER_STATE_EXPIRED t) by (apply (ts_expired _ _ _ _ T); cbn in Hex; rewrite Hex; by left).
      apply (has_state_of _ _ _ _ Ht) in Hs. by rewrite E in Hs.
    + apply (fd_balance _ s _ p x); try done; [by destruct (_ =? 0)..|]. intros o Ho.
      destruct (_ =? 0); [by apply elem_of_nil in Ho|]. apply list_elem_of_singleton in Ho. eauto.
    + apply balance_same; [| |constructor].
      * intros t. exact (moved_armed now (set_results [] 0 (set_clock now s)) l s1 t T1 Hm).
      * intros p. unfold is_active. cbn. by rewrite (moved_fds _ _ _ _ Hm).
  - assert (T1 : s_timers_ok (set_clock now s)).
    { apply (parts_clock now s Ip). apply clock_ok_spec. destruct (at_phase s); try done. by apply andb_true_iff in He as [? _]. }
    destruct Hs as [l h hl Hl Hs F L Hsl|w t k s1 hl Hw Ha Hm L Hsl|w a r c n Hw Hd Hn]; apply balance_same; try done; try by repeat constructor.
    + intros p. specialize (Hs p). unfold is_active. cbn in *. by destruct (h !! p), (fds s !! p); try done; injection Hs as _ -> _.
    + intros u. exact (moved_armed _ _ _ _ u T1 Hm).
    + intros p. unfold is_active. cbn. by rewrite (moved_fds _ _ _ _ Hm).
Qed.


Lemma reactor_run_inv mem created evs : fresh mem ->
  exists s tr, run created mem evs = Some (s, tr) /\ (created = true -> inv s).
Proof.
  intros Hf. unfold run. destruct (wp_ok _ _ _ (reactor_init_wp created mem Hf)) as (r & s & tr & -> & -> & -> & Hi).
  destruct created; [|by exists s, [Epoll_Create]]. destruct (Hi eq_refl) as (I & _). destruct (reactor_run_events_inv evs s I) as (s' & tr' & -> & I'). cbn. eauto.
Qed.

Lemma reactor_run_inv_of mem evs s tr : fresh mem -> run true mem evs = Some (s, tr) -> inv s.
Proof. intros Hf E. destruct (reactor_run_inv mem true evs Hf) as (s' & tr' & E' & I). simplify_eq. by apply I. Qed.

Lemma events_balance evs s s' tr : inv s -> run_events evs s = Some (s', tr) ->
  (forall t, calls t tr + Z.b2z (armed t s') <= Z.b2z (armed t s) + zlen (filter (fun ev => sets t ev = true) evs)) /\
  (forall p, is_active p s = false -> Forall (fun ev => adds p ev = false) evs -> forall e, Call_Fd p e ∉ tr).
Proof.
  revert s tr. induction evs as [|ev evs IH]; intros s tr I E; cbn [run_events] in E.
  { injection E as -> <-. split; [intros t; change (calls t []) with 0; change (zlen (filter _ [])) with 0; lia | intros p _ _ e; by intros ?%elem_of_nil]. }
  assert (Hz : forall t, zlen (filter (fun ev => sets t ev = true) (ev :: evs)) = Z.b2z (sets t ev) + zlen (filter (fun ev => sets t ev = true) evs)).
  { intros t. destruct (sets t ev) eqn:Es; [rewrite filter_cons_True, zlen_cons by done | rewrite filter_cons_False by (by rewrite Es)]; done. }
  destruct (enabled ev s) eqn:He.
  - destruct (wp_ok _ _ _ (reactor_deliver_wp ev s I He)) as (u & s1 & tr1 & Ed & I1 & Hs). rewrite Ed in E.
    destruct (run_events evs s1) as [[s2 tr2]|] eqn:E2; [|done]. injection E as -> <-.
    destruct (step_balance ev s s1 tr1 I He Hs) as [B1 B2]. destruct (IH s1 tr2 I1 E2) as [C1 C2]. cbn [fst snd]. split.
    + intros t. rewrite calls_app, Hz. specialize (B1 t). specialize (C1 t). lia.
    + intros p Hp [Ha Hf]%Forall_cons e. destruct (B2 p Hp Ha) as [Hp1 Hc]. rewrite elem_of_app. intros [Hin|Hin]; [by apply (Hc e) | by apply (C2 p Hp1 Hf e)].
  - injection E as -> <-. split; [|intros p _ _ e; by intros ?%elem_of_nil]. intros t. rewrite Hz.
    pose proof (zlen_nonneg (filter (fun ev => sets t ev = true) evs)). change (calls t []) with 0. destruct (sets t ev); cbn; lia.
Qed.

(** Everything the users have made is gone or inactive. *)
Record all_stopped (s : sys) : Prop := mk_all_stopped {
  a_timers t : armed t s = false;
  a_fds p : is_active p s = false;
  a_limits : limits s = ∅;
  a_jobs : jobs_init s = ∅;
}.

Lemma reactor_free_wp s : inv s -> all_stopped s -> wp BReactor_Free s (fun _ s' tr => s' = s /\ tr = [Epoll_Close]).
Proof.
  intros [[T F L [l J] _] _] [At Ap Al Aj].
  assert (El : l = []).
  { destruct l as [|j l]; [done|]. unfold jobs_are in J. rewrite Aj in J.
    destruct (wp_ok _ _ _ (jq_execute_spec (O:=out) _ _ _ _ J)) as (r & g & tr & _ & _ & _ & _ & Hr). by rewrite lookup_empty in Hr. }
  subst l. pose proof (fun t => proj2 (armed_spec s t T)) as Ha.
  assert (Er : running s = []) by (apply elem_of_nil_inv; intros t Ht; specialize (Ha t); rewrite At in Ha; naive_solver).
  assert (Ee : timers_expired_list s = []) by (apply elem_of_nil_inv; intros t Ht; specialize (Ha t); rewrite At in Ha; naive_solver).
  assert (Ea : active_limits_list s = []).
  { apply elem_of_nil_inv. intros p (x & Hx & _)%L. by rewrite Al, lookup_empty in Hx. }
  assert (Ef : size (active_fds (fds s)) = 0%nat).
  { apply map_size_empty_iff. unfold active_fds. apply map_empty_filter. intros p x Hx Hact. cbn in Hact.
    specialize (Ap p). unfold is_active in Ap. rewrite Hx in Ap. congruence. }
  unfold BReactor_Free. wp_step. eapply no_jobs_wp; [exact J|]. do 2 wp_step; [done|]. do 2 wp_step.
  do 2 wp_step; [rewrite (proj2 (first_timer_none s) Er); done|]. do 2 wp_step; [by rewrite Ee|]. do 2 wp_step; [by rewrite Ea|].
  do 2 wp_step; [by apply (BPending.counter_free _ _ (f_ctr _ _ _ _ F))|].
  do 2 wp_step; [apply (BPending.counter_free _ _ (l_ctr _ _ _ L)); by rewrite Al, map_size_empty|].
  do 2 wp_step. unfold on_jobs. unfold jobs_are in J. rewrite Aj in J. eapply embedded_stop_wp; [by destruct s | exact J | done].
Qed.

(** ** Theorems *)

Section Theorems.
Context (mem : sys) (evs : list event) (Hfresh : fresh mem).

(** C6. Whatever the users do with jobs, timers, descriptors and limits, at any time
    between the calls of their handlers, and whatever [epoll_wait] returns, the reactor
    never fails an assertion, accesses its results out of bounds, or uses an object
    that is gone.  The tree has exactly the running timers, in order, and the expired
    list the expired ones; a descriptor points to the entry of its result, and to
    nothing when it has none; the list of limits has those that count.  When all
    objects are stopped, the reactor can be freed. *)
Theorem reactor_safe (created : bool) :
  exists s tr, run created mem evs = Some (s, tr) /\ (created = true ->
    ordered (compare_timers (timers s)) (running s) /\
    (forall t, t ∈ running s <-> has_state (timers s) TIMER_STATE_RUNNING t) /\
    (forall t, t ∈ timers_expired_list s <-> has_state (timers s) TIMER_STATE_EXPIRED t) /\
    (forall p i, (exists x, fds s !! p = Some x /\ active x = true /\ epoll_returned_ptr x = Some i) <->
      (epoll_results_pos s <= i /\ exists e, epoll_results s !! Z.to_nat i = Some e /\ ev_ptr e = Some p)) /\
    (forall p, p ∈ active_limits_list s <-> exists x, limits s !! p = Some x /\ 0 < count x) /\
    (all_stopped s -> BReactor_Free s = Ok tt s [Epoll_Close])).
Proof.
  destruct (reactor_run_inv mem created evs Hfresh) as (s & tr & E & Hi). exists s, tr. split; [done|]. intros Hc.
  pose proof (Hi Hc) as I. pose proof I as [[T F L _ _] _]. split_and!; [apply T | apply T | apply T | apply F | apply L |].
  intros Ha. destruct (wp_ok _ _ _ (reactor_free_wp s I Ha)) as ([] & s' & tr' & Ef & -> & ->). exact Ef.
Qed.

(** C7. A round of the loop does the first of these that there is: it exits with the
    code of [BReactor_Quit]; calls the job that was set last; calls the handler of the
    first expired timer, which is inactive then and never early; dispatches the next
    result to its descriptor, with the events that happened and are waited for, or
    skips it if the descriptor was removed or nothing of it is wanted; moves the timers
    that are due to the expired list; or waits, at most until the first timer, and
    without a limit only if no timer is running. *)
Theorem reactor_round s tr0 now (Hrun : run true mem evs = Some (s, tr0)) (He : enabled (E_exec now) s = true) :
  exists s' tr, deliver (E_exec now) s = Ok tt s' tr /\ round now (set_clock now s) s' tr.
Proof.
  pose proof (reactor_run_inv_of _ _ _ _ Hfresh Hrun) as I.
  destruct (wp_ok _ _ _ (reactor_deliver_wp _ s I He)) as ([] & s' & tr & E & _ & Hr). by exists s', tr.
Qed.

(** C9. The reactor waits only when there is nothing to do, and no longer than it may:
    the timeout ends at the time of the first timer, or before it when it is cut to an
    [int].  When [epoll_wait] returns, however often it is interrupted, either there is
    something to dispatch, the results or the timers that are due, and the limits are
    reset, or no timer is due and it waits again, with the time that is left. *)
Theorem reactor_wakes s tr0 w now abs rel trunc
    (Hrun : run true mem evs = Some (s, tr0)) (Hp : at_phase s = P_wait abs rel trunc) (He : enabled (E_wake w now) s = true) :
  jobs_are s [] /\ timers_expired_list s = [] /\ epoll_results s = [] /\ nothing_due (clock s) s /\
  (forall t, t ∈ running s -> exists a, abs = Some a /\ a <= absTime (timers s !!! t) /\ clock s + trunc <= a) /\
  exists s' tr, deliver (E_wake w now) s = Ok tt s' tr /\ wake now (set_clock now s) w s' tr /\
    ((at_phase s' = P_loop /\ (timers_expired_list s' <> [] \/ epoll_results_pos s' < zlen (epoll_results s'))) \/
     (exists abs' rel' trunc', at_phase s' = P_wait abs' rel' trunc' /\ nothing_due now s')).
Proof.
  pose proof (reactor_run_inv_of _ _ _ _ Hfresh Hrun) as I. pose proof I as [Ip W]. unfold phase_ok in W. rewrite Hp in W.
  split_and!; [apply W | apply W | apply W | apply W | |].
  - intros t Ht. pose proof (w_timeout _ _ _ _ _ W) as Et. unfold timeout_of in Et. pose proof (ts_run _ _ _ _ (p_timers _ Ip)) as Ho.
    destruct (running s) as [|u l]; [by apply elem_of_nil in Ht|]. cbn in Et. injection Et as -> -> ->.
    exists (absTime (timers s !!! u)). split_and!; [done | | lia]. apply elem_of_cons in Ht as [->|Ht]; [done|].
    apply ordered_head in Ho. rewrite Forall_forall in Ho. by apply Ho.
  - destruct (wp_ok _ _ _ (reactor_deliver_wp _ s I He)) as ([] & s' & tr & E & _ & Hk). exists s', tr. split_and!; [done | done |].
    destruct Hk as [l h hl Hl Hs F L Hsl|w t k s1 hl Hw Ha Hm L Hsl|w a r c n Hw Hd Hn].
    + left. split; [done|]. right. cbn. destruct l as [|e l]; [done|]. rewrite zlen_cons. pose proof (zlen_nonneg l). lia.
    + left. split; [done|]. left. destruct (mv_state _ _ _ _ Hm) as (h & tree & ->). cbn. by destruct (timers_expired_list s).
    + right. exists a, r, c. by split.
Qed.


(** Setting a timer, running or not, makes it run until the given time, or, with a
    relative time, the current time and the given one, or the last or first time there
    is when this overflows; it is in the tree once and no longer in the expired list,
    and nothing else changes. *)
Theorem reactor_set_timer s tr0 t x mode time now (Hrun : run true mem evs = Some (s, tr0))
    (Hx : timers s !! t = Some x) (He : enabled (E_set_small t mode time now) s = true)
    (abs := if mode =? BTIMER_SET_RELATIVE then Z.max INT64_MIN (Z.min INT64_MAX (now + time)) else time) :
  exists tree, deliver (E_set_small t mode time now) s =
      Ok tt (with_timers (<[t := mk_timer abs TIMER_STATE_RUNNING (is_small x) (msTime x)]> (timers s)) tree
        (list_remove t (timers_expired_list s)) (set_clock now s)) [] /\
    et_list tree ≡ₚ t :: list_remove t (running s).
Proof.
  pose proof (reactor_run_inv_of _ _ _ _ Hfresh Hrun) as [Ip _]. cbn [enabled] in He.
  repeat (apply andb_true_iff in He as [He ?]). assert (Hn : clock s <= now <= INT64_MAX) by (by apply clock_ok_spec).
  pose proof (clock_int64 now s Ip Hn) as Hi.
  assert (Ea : set_time mode time now = abs).
  { unfold set_time, abs. destruct (mode =? BTIMER_SET_RELATIVE); [|done]. by apply btime_add_clamp. }
  assert (W : wp (deliver (E_set_small t mode time now)) s (fun _ s' tr => tr = [] /\ exists tree, et_list tree ≡ₚ t :: list_remove t (running s) /\
    s' = with_timers (<[t := mk_timer abs TIMER_STATE_RUNNING (is_small x) (msTime x)]> (timers s)) tree (list_remove t (timers_expired_list s)) (set_clock now s))).
  { cbn [deliver]. apply with_clock_wp. eapply set_timer_wp; [apply (parts_clock now s Ip Hn) | exact Hx | | done | done |].
    - unfold BTIMER_SET_ABSOLUTE, BTIMER_SET_RELATIVE in *. lia.
    - intros tree Hl _. split; [done|]. exists tree. split; [done|]. by rewrite Ea. }
  destruct (wp_ok _ _ _ W) as ([] & s' & tr & E & -> & tree & Hl & ->). by exists tree.
Qed.
End Theorems.

End Reactor.

(** ** A concrete run: a timer, a descriptor and a limit *)

#[local] Existing Instance EntryList.entry_list.

Abbreviation dsys := (sys (G := BPending.group)).

Definition mem_demo : dsys :=
  mk_sys true 5 (BPending.mk (SLinkedList.mk (Some 3) ∅ ∅) ∅ ∅ 9) ∅ [2] [7] [8] [mk_event None 0] 1 ∅ ∅ ∅ 4 4 P_user 0.
Definition evs_user : list event :=
  [E_small_init 1 7; E_set_small 1 2 100 10; E_fd_init 5 3 (9, Some 2); E_fd_add 5 true; E_fd_events 5 1; E_limit_init 6 2; E_limit_increment 6].
Definition evs_wait : list event := evs_user ++ [E_exec 20].
Definition evs_ready : list event := [E_wake (W_ready [mk_event (Some 5) 1]) 30; E_exec 31; E_exec 115; E_exec 116].

Definition end_of (r : option (dsys * list out)) : dsys := match r with Some (s, _) => s | None => mem_demo end.
Definition outs_of (r : option (dsys * list out)) : list out := match r with Some (_, tr) => tr | None => [] end.
Definition s_user : dsys := end_of (run true mem_demo evs_user).
Definition s_wait : dsys := end_of (run true mem_demo evs_wait).

Lemma mem_demo_fresh : fresh mem_demo.
Proof. by split_and!. Qed.

Lemma reactor_run_demo evs : run true mem_demo evs = Some (end_of (run true mem_demo evs), outs_of (run true mem_demo evs)).
Proof. by destruct (reactor_run_inv mem_demo true evs mem_demo_fresh) as (s & tr & -> & _). Qed.

Lemma run_more evs evs' (s := end_of (run true mem_demo evs)) :
  run_events evs' s = Some (end_of (run_events evs' s), outs_of (run_events evs' s)).
Proof.
  destruct (reactor_run_events_inv evs' s) as (s' & tr & -> & _); [|done]. exact (reactor_run_inv_of _ _ _ _ mem_demo_fresh (reactor_run_demo evs)).
Qed.

Lemma run_user : run true mem_demo evs_user = Some (s_user, outs_of (run true mem_demo evs_user)).
Proof. exact (reactor_run_demo evs_user). Qed.

Lemma run_wait : run true mem_demo evs_wait = Some (s_wait, outs_of (run true mem_demo evs_wait)).
Proof. exact (reactor_run_demo evs_wait). Qed.

Lemma run_ready : run_events evs_ready s_wait = Some (end_of (run_events evs_ready s_wait), outs_of (run_events evs_ready s_wait)).
Proof. exact (run_more evs_wait evs_ready). Qed.

Lemma reactor_safe_witness : fresh mem_demo /\ exists (s : dsys) tr, run true mem_demo evs_wait = Some (s, tr) /\ ordered (compare_timers (timers s)) (running s).
Proof.
  split; [exact mem_demo_fresh|]. destruct (reactor_safe mem_demo evs_wait mem_demo_fresh true) as (s & tr & E & H).
  exists s, tr. split; [exact E|]. exact (proj1 (H eq_refl)).
Defined.

Lemma reactor_round_witness :
  enabled (E_exec 20) s_user = true /\ exists s' tr, deliver (E_exec 20) s_user = Ok tt s' tr /\ round 20 (set_clock 20 s_user) s' tr.
Proof.
  assert (He : enabled (E_exec 20) s_user = true) by (vm_cast_no_check (eq_refl true)).
  split; [exact He | exact (reactor_round mem_demo evs_user mem_demo_fresh s_user _ 20 run_user He)].
Defined.

Lemma reactor_wakes_witness :
  at_phase s_wait = P_wait (Some 110) 90 90 /\
  exists s' tr, deliver (E_wake (W_ready [mk_event (Some 5) 1]) 30) s_wait = Ok tt s' tr /\
    wake 30 (set_clock 30 s_wait) (W_ready [mk_event (Some 5) 1]) s' tr.
Proof.
  assert (H : at_phase s_wait = P_wait (Some 110) 90 90) by (vm_cast_no_check (eq_refl (P_wait (Some 110) 90 90))).
  assert (He : enabled (E_wake (W_ready [mk_event (Some 5) 1]) 30) s_wait = true) by (vm_cast_no_check (eq_refl true)).
  split; [exact H|].
  destruct (reactor_wakes mem_demo evs_wait mem_demo_fresh s_wait _ (W_ready [mk_event (Some 5) 1]) 30 (Some 110) 90 90 run_wait H He) as (_ & _ & _ & _ & _ & s' & tr & E & W & _).
  exists s', tr. split; [exact E | exact W].
Defined.


Lemma reactor_set_timer_witness :
  timers s_user !! 1 = Some (mk_timer 110 TIMER_STATE_RUNNING true 0) /\
  exists tree, deliver (E_set_small 1 2 INT64_MAX 20) s_user =
    Ok tt (with_timers (<[1 := mk_timer INT64_MAX TIMER_STATE_RUNNING true 0]> (timers s_user)) tree
      (list_remove 1 (timers_expired_list s_user)) (set_clock 20 s_user)) [].
Proof.
  assert (H : timers s_user !! 1 = Some (mk_timer 110 TIMER_STATE_RUNNING true 0)) by (vm_cast_no_check (eq_refl (Some (mk_timer 110 TIMER_STATE_RUNNING true 0)))).
  assert (He : enabled (E_set_small 1 2 INT64_MAX 20) s_user = true) by (vm_cast_no_check (eq_refl true)).
  split; [exact H|].
  destruct (reactor_set_timer mem_demo evs_user mem_demo_fresh s_user _ 1 _ 2 INT64_MAX 20 run_user H He) as (tree & E & _).
  exists tree. exact E.
Defined.
End Reactor.
