(* ===== verification/EventLoop.v ===== *)
(** * EventLoop: what the users of the reactor rely on

    The interface of the reactor ([badvpn/system/BReactor.h]) to a component that has
    descriptors, limits and jobs in it.  [view] is what such a component sees of the
    reactor: which descriptors are registered with which events, how far the limits
    are used, and the pending jobs.  The laws of [EventLoop] say how the operations
    change the view and which handlers a round of the loop calls.

    [reactor_event_loop] shows that the reactor of [BReactor] keeps these laws. *)

From S2P Require Import Prelude SearchTree BPending BReactor.
Open Scope mon_scope.

(** [v_user]: the users' code runs.  Descriptors have their file descriptor and the events
    they wait for, limits the limit and the count, jobs their handler. *)
Record view := mk_view {
  v_user : bool;
  v_fds : gmap Z (Z * Z);
  v_limits : gmap Z (Z * Z);
  v_init : gmap Z (Z * Z);
  v_jobs : list Z;
}.

Definition up_fds (f : gmap Z (Z * Z) -> gmap Z (Z * Z)) (v : view) : view :=
  mk_view (v_user v) (f (v_fds v)) (v_limits v) (v_init v) (v_jobs v).
Definition up_limits (f : gmap Z (Z * Z) -> gmap Z (Z * Z)) (v : view) : view :=
  mk_view (v_user v) (v_fds v) (f (v_limits v)) (v_init v) (v_jobs v).
Definition up_init (f : gmap Z (Z * Z) -> gmap Z (Z * Z)) (v : view) : view :=
  mk_view (v_user v) (v_fds v) (v_limits v) (f (v_init v)) (v_jobs v).
Definition up_jobs (f : list Z -> list Z) (v : view) : view :=
  mk_view (v_user v) (v_fds v) (v_limits v) (v_init v) (f (v_jobs v)).

(** The call of a handler. *)
Inductive call := C_job (job : Z) (handler : Z * Z) | C_timer (t : Z) | C_fd (p events : Z).

(** The counts may have been reset. *)
Definition limits_reset (h h' : gmap Z (Z * Z)) : Prop :=
  forall p, h' !! p = h !! p \/ h' !! p = (fun x => (x.1, 0)) <$> h !! p.

(** A descriptor's handler gets events that it waits for, and [BREACTOR_ERROR] and
    [BREACTOR_HUP]. *)
Definition events_ok (wait events : Z) : bool :=
  (0 <? events) && (events <? 16) && (Z.land events (Z.lnot (Z.lor wait (Z.lor Reactor.BREACTOR_ERROR Reactor.BREACTOR_HUP))) =? 0).

(** What a round does: a job is called first, then a descriptor's handler. *)
Record round_ok (v v' : view) (c : option call) : Prop := mk_round_ok {
  ro_fds : v_fds v' = v_fds v;
  ro_init : v_init v' = v_init v;
  ro_limits : limits_reset (v_limits v) (v_limits v');
  ro_call : match c with
    | Some (C_job j h) => v_user v' = true /\ v_jobs v = j :: v_jobs v' /\ v_init v !! j = Some h
    | Some (C_fd p events) =>
        v_user v' = true /\ v_jobs v' = v_jobs v /\ v_jobs v = [] /\
        exists fd wait, v_fds v !! p = Some (fd, wait) /\ events_ok wait events = true
    | Some (C_timer _) => v_user v' = true /\ v_jobs v' = v_jobs v
    | None => v_jobs v' = v_jobs v
    end;
}.

Class EventLoop (R : Type) := {
  el_out : Type;
  el_env : Type;
  el_rep : R -> view -> Prop;
  el_add : Z -> Z -> bool -> M R el_out bool;          (** initialise and add a descriptor *)
  el_remove : Z -> M R el_out unit;
  el_events : Z -> Z -> M R el_out unit;
  el_limit_init : Z -> Z -> M R el_out unit;
  el_limit_free : Z -> M R el_out unit;
  el_limit_inc : Z -> M R el_out bool;
  el_job_init : Z -> Z * Z -> M R el_out unit;
  el_job_free : Z -> M R el_out unit;
  el_job_set : Z -> M R el_out unit;
  el_job_unset : Z -> M R el_out unit;
  el_job_is_set : Z -> M R el_out bool;
  el_user : R -> bool;
  el_ok : el_env -> R -> bool;
  el_round : el_env -> M R el_out (option call);
  el_nodup r v : el_rep r v -> NoDup (v_jobs v);
  el_user_spec r v : el_rep r v -> v_user v = el_user r;
  el_add_spec r v p fd added : el_rep r v -> v_user v = true -> v_fds v !! p = None ->
    wp (el_add p fd added) r (fun b r' _ => b = added /\ el_rep r' (if added then up_fds <[p := (fd, 0)]> v else v));
  el_remove_spec r v p : el_rep r v -> v_user v = true -> is_Some (v_fds v !! p) ->
    wp (el_remove p) r (fun _ r' _ => el_rep r' (up_fds (delete p) v));
  el_events_spec r v p fd wait events : el_rep r v -> v_user v = true -> v_fds v !! p = Some (fd, wait) -> 0 <= events <= 3 ->
    wp (el_events p events) r (fun _ r' _ => el_rep r' (up_fds <[p := (fd, events)]> v));
  el_limit_init_spec r v p n : el_rep r v -> v_user v = true -> v_limits v !! p = None -> 0 < n ->
    wp (el_limit_init p n) r (fun _ r' _ => el_rep r' (up_limits <[p := (n, 0)]> v));
  el_limit_free_spec r v p : el_rep r v -> v_user v = true -> is_Some (v_limits v !! p) ->
    wp (el_limit_free p) r (fun _ r' _ => el_rep r' (up_limits (delete p) v));
  el_limit_inc_spec r v p n c : el_rep r v -> v_user v = true -> v_limits v !! p = Some (n, c) ->
    wp (el_limit_inc p) r (fun b r' _ => b = (c <? n) /\ el_rep r' (if b then up_limits <[p := (n, c + 1)]> v else v));
  el_job_init_spec r v j h : el_rep r v -> v_user v = true -> v_init v !! j = None ->
    wp (el_job_init j h) r (fun _ r' _ => el_rep r' (up_init <[j := h]> v));
  el_job_free_spec r v j : el_rep r v -> v_user v = true -> is_Some (v_init v !! j) ->
    wp (el_job_free j) r (fun _ r' _ => el_rep r' (up_init (delete j) (up_jobs (BPending.job_remove j) v)));
  el_job_set_spec r v j : el_rep r v -> v_user v = true -> is_Some (v_init v !! j) ->
    wp (el_job_set j) r (fun _ r' _ => el_rep r' (up_jobs (fun l => j :: BPending.job_remove j l) v));
  el_job_unset_spec r v j : el_rep r v -> v_user v = true -> is_Some (v_init v !! j) ->
    wp (el_job_unset j) r (fun _ r' _ => el_rep r' (up_jobs (BPending.job_remove j) v));
  el_job_is_set_spec r v j : el_rep r v -> is_Some (v_init v !! j) ->
    wp (el_job_is_set j) r (fun b r' _ => b = bool_decide (j ∈ v_jobs v) /\ el_rep r' v);
  el_round_spec r v e : el_rep r v -> el_ok e r = true ->
    wp (el_round e) r (fun c r' _ => exists v', el_rep r' v' /\ round_ok v v' c);
}.

(** Nothing is in the loop. *)
Definition unused {R} {EL : EventLoop R} (r : R) : Prop :=
  exists v, el_rep r v /\ v_fds v = ∅ /\ v_limits v = ∅ /\ v_init v = ∅ /\ v_jobs v = [].

(** ** Events *)

Definition has_event (events e : Z) : bool := negb (Z.land events e =? 0).
Definition BREACTOR_ERROR_HUP : Z := Z.lor Reactor.BREACTOR_ERROR Reactor.BREACTOR_HUP.
Definition has_read (w : Z) : bool := has_event w Reactor.BREACTOR_READ.
Definition has_write (w : Z) : bool := has_event w Reactor.BREACTOR_WRITE.

Lemma has_event_bit x n : 0 <= n -> has_event x (2 ^ n) = Z.testbit x n.
Proof.
  intros Hn. unfold has_event. assert (E : Z.land x (2 ^ n) = if Z.testbit x n then 2 ^ n else 0).
  { apply Z.bits_inj'. intros m Hm. rewrite Z.land_spec, Z.pow2_bits_eqb by done. destruct (Z.eqb_spec n m) as [->|Hne].
    - rewrite andb_true_r. destruct (Z.testbit x m); [|by rewrite Z.bits_0]. rewrite Z.pow2_bits_eqb by done. by rewrite Z.eqb_refl.
    - rewrite andb_false_r. destruct (Z.testbit x n); [|by rewrite Z.bits_0]. rewrite Z.pow2_bits_eqb by done. lia. }
  rewrite E. destruct (Z.testbit x n); [|done]. pose proof (Z.pow_pos_nonneg 2 n). lia.
Qed.

Lemma has_read_bit w : has_read w = Z.testbit w 0.
Proof. exact (has_event_bit w 0 (Z.le_refl 0)). Qed.

Lemma has_write_bit w : has_write w = Z.testbit w 1.
Proof. apply (has_event_bit w 1). lia. Qed.

Lemma has_read_clear w e : has_read (Z.land w (Z.lnot e)) = has_read w && negb (has_read e).
Proof. rewrite !has_read_bit, Z.land_spec, Z.lnot_spec by lia. done. Qed.

Lemma has_write_clear w e : has_write (Z.land w (Z.lnot e)) = has_write w && negb (has_write e).
Proof. rewrite !has_write_bit, Z.land_spec, Z.lnot_spec by lia. done. Qed.

Lemma has_read_lor w e : has_read (Z.lor w e) = has_read w || has_read e.
Proof. rewrite !has_read_bit, Z.lor_spec. done. Qed.

Lemma has_write_lor w e : has_write (Z.lor w e) = has_write w || has_write e.
Proof. rewrite !has_write_bit, Z.lor_spec. done. Qed.

Lemma wait_range_lor w e : 0 <= w <= 3 -> 0 <= e <= 3 -> 0 <= Z.lor w e <= 3.
Proof.
  intros Hw He. assert (w = 0 \/ w = 1 \/ w = 2 \/ w = 3) as [-> | [-> | [-> | ->]]] by lia;
    assert (e = 0 \/ e = 1 \/ e = 2 \/ e = 3) as [-> | [-> | [-> | ->]]] by lia; vm_compute; split; discriminate.
Qed.

Lemma wait_range_land w e : 0 <= w <= 3 -> 0 <= Z.land w e <= 3.
Proof.
  intros Hw. assert (E : Z.land w e = Z.land w e mod 2 ^ 2); [|rewrite E; pose proof (Z.mod_pos_bound (Z.land w e) (2 ^ 2)); lia].
  rewrite <- Z.land_ones by done. rewrite (Z.land_comm w e), <- Z.land_assoc. f_equal. rewrite Z.land_ones by done. symmetry. apply Z.mod_small. lia.
Qed.

Lemma has_event_lor x a b : has_event x (Z.lor a b) = has_event x a || has_event x b.
Proof.
  unfold has_event. rewrite Z.land_lor_distr_r. destruct (Z.eqb_spec (Z.land x a) 0) as [->|Ha]; [by rewrite Z.lor_0_l|].
  destruct (Z.eqb_spec (Z.lor (Z.land x a) (Z.land x b)) 0) as [[]%Z.lor_eq_0_iff|]; done.
Qed.

Lemma events_waited w e : events_ok w e = true ->
  (has_read e = true -> has_read w = true) /\ (has_write e = true -> has_write w = true).
Proof.
  unfold events_ok. rewrite !andb_true_iff, Z.eqb_eq. intros [_ H].
  assert (Hb : forall n, 0 <= n -> n = 0 \/ n = 1 -> Z.testbit e n = true -> Z.testbit w n = true).
  { intros n Hn Hor He. assert (E : Z.testbit (Z.land e (Z.lnot (Z.lor w (Z.lor Reactor.BREACTOR_ERROR Reactor.BREACTOR_HUP)))) n = false) by (by rewrite H, Z.bits_0).
    rewrite Z.land_spec, He, Z.lnot_spec, Z.lor_spec in E by done. destruct (Z.testbit w n); [done|]. by destruct Hor as [-> | ->]. }
  rewrite !has_read_bit, !has_write_bit. split; apply Hb; auto; lia.
Qed.

(** ** A component in the loop *)

Section Client.
Context {R S O : Type} {EL : EventLoop R} (pr : S -> R) (up : R -> S -> S) (f : el_out -> O) (is_loop : O -> bool).

(** What a handler did besides its calls of the loop. *)
Definition acts_of (tr : list O) : list O := filter (fun o => is_loop o = false) tr.

Lemma acts_app tr tr' : acts_of (tr ++ tr') = acts_of tr ++ acts_of tr'.
Proof. apply filter_app. Qed.

Context (Hf : forall o, is_loop (f o) = true).

Lemma acts_loop l : acts_of (map f l) = [].
Proof. unfold acts_of. induction l as [|o l IH]; [done|]. cbn [map]. by rewrite filter_cons_False by (by rewrite Hf). Qed.

Lemma embed_loop_wp {A} (m : M R el_out A) s (P : A -> R -> Prop) (Q : A -> S -> list O -> Prop) :
  wp m (pr s) (fun a r _ => P a r) -> (forall a r tr, P a r -> acts_of tr = [] -> Q a (up r s) tr) -> wp (embed pr up f m) s Q.
Proof. intros Hm HQ. apply wp_embed. eapply wp_mono; [exact Hm|]. intros a r tr HP. apply HQ; [done | apply acts_loop]. Qed.
End Client.

(** ** The reactor *)

Module ReactorLoop.
Import Reactor.

Section Loop.
Context {G : Type} {JQ : JobQueue G} {ET : EntryTree}.
Abbreviation R := (sys (G:=G)).

Definition fd_view (x : descriptor) : option (Z * Z) := if active x then Some (fd x, waitEvents x) else None.

Record reactor_rep (s : R) (v : view) : Prop := mk_reactor_rep {
  rr_inv : inv s;
  rr_user : v_user v = in_user s;
  rr_fds : v_fds v = omap fd_view (fds s);
  rr_limits : v_limits v = (fun x => (limit x, count x)) <$> limits s;
  rr_init : v_init v = jobs_init s;
  rr_jobs : jobs_are s (v_jobs v);
}.

(** [BFileDescriptor_Init], which leaves the fields that [AddFileDescriptor] sets, and
    [BReactor_AddFileDescriptor]. *)
Definition loop_add (p fd : Z) (added : bool) : M R out bool :=
  BFileDescriptor_Init p fd (0, None) ;; BReactor_AddFileDescriptor p added.

Definition loop_job_init (j : Z) (h : Z * Z) : M R out unit := deliver (E_job_init j h).
Definition loop_job_free (j : Z) : M R out unit := deliver (E_job_free j).

(** The call that a round ended with. *)
Definition call_of (o : out) : option call :=
  match o with
  | Call_Job j h => Some (C_job j h)
  | Call_Timer t _ => Some (C_timer t)
  | Call_Fd p e => Some (C_fd p e)
  | _ => None
  end.

(** A round, or the return from [epoll_wait]. *)
Definition loop_ok (ev : event) (s : R) : bool :=
  match ev with E_exec _ | E_wake _ _ => enabled ev s | _ => false end.
Definition loop_round (ev : event) : M R out (option call) := fun s =>
  match deliver ev s with
  | Ok _ s' tr => Ok (head (omap call_of tr)) s' tr
  | Fault f => Fault f
  end.

Lemma rep_fd s v p fd wait : reactor_rep s v -> v_fds v !! p = Some (fd, wait) ->
  exists x, fds s !! p = Some x /\ active x = true /\ Reactor.fd x = fd /\ waitEvents x = wait.
Proof.
  intros Rv. rewrite (rr_fds _ _ Rv), lookup_omap. unfold fd_view. destruct (fds s !! p) as [x|]; cbn; [|done].
  destruct (active x) eqn:Ha; [|done]. intros [= <- <-]. by exists x.
Qed.

Lemma rep_unused s v p x : reactor_rep s v -> v_fds v !! p = None -> fds s !! p = Some x -> active x = false.
Proof.
  intros Rv. rewrite (rr_fds _ _ Rv), lookup_omap. unfold fd_view. intros Hn Hx. rewrite Hx in Hn. cbn in Hn. by destruct (active x).
Qed.

Lemma rep_limit s v p n c : reactor_rep s v -> v_limits v !! p = Some (n, c) -> limits s !! p = Some (mk_limit n c).
Proof.
  intros Rv. rewrite (rr_limits _ _ Rv), lookup_fmap. destruct (limits s !! p) as [[n' c']|]; cbn; [|done]. by intros [= -> ->].
Qed.

(** The view of a state with other descriptors, limits or jobs. *)
Lemma rep_fds_update s v h results ctr f :
  reactor_rep s v -> v_user v = true -> fds_ok h results (epoll_results_pos s) ctr -> omap fd_view h = f (v_fds v) ->
  reactor_rep (with_fds h results (epoll_results_pos s) ctr s) (up_fds f v).
Proof.
  intros [I U F L N J] Hu Hf E. split; try done. rewrite Hu in U. by apply inv_with_fds.
Qed.

Lemma rep_limits_update s v h l ctr f :
  reactor_rep s v -> v_user v = true -> limits_ok h l ctr -> (fun x => (limit x, count x)) <$> h = f (v_limits v) ->
  reactor_rep (with_limits h l ctr s) (up_limits f v).
Proof.
  intros [I U F L N J] Hu Hl E. split; try done. rewrite Hu in U. by apply inv_with_limits.
Qed.

Lemma rep_jobs_update s v g m l :
  reactor_rep s v -> v_user v = true -> jq_rep g m l ->
  reactor_rep (set_init m (set_jobs g s)) (mk_view (v_user v) (v_fds v) (v_limits v) m l).
Proof.
  intros [I U F L N J] Hu Hj. split; try done. rewrite Hu in U. by eapply inv_with_jobs.
Qed.

Lemma set_init_same (s : R) g : set_init (jobs_init s) (set_jobs g s) = set_jobs g s.
Proof. by destruct s. Qed.
Lemma rep_user s v : reactor_rep s v -> v_user v = true -> inv s /\ in_user s = true.
Proof. intros Rv Hu. rewrite (rr_user _ _ Rv) in Hu. by destruct Rv. Qed.

Lemma loop_add_spec s v p fd added : reactor_rep s v -> v_user v = true -> v_fds v !! p = None ->
  wp (loop_add p fd added) s (fun b s' _ => b = added /\ reactor_rep s' (if added then up_fds <[p := (fd, 0)]> v else v)).
Proof.
  intros Rv Hu Hp. destruct (rep_user s v Rv Hu) as [I Hs]. pose proof I as [[_ F _ _ _] _].
  assert (F1 : s_fds_ok (with_fds (<[p := mk_fd fd false 0 None]> (fds s)) (epoll_results s) (epoll_results_pos s) (d_fds_counter s) s)).
  { apply fds_init; [done | intros y Hy; by eapply rep_unused | done]. }
  assert (Ed : omap fd_view (<[p := mk_fd fd false 0 None]> (fds s)) = v_fds v).
  { rewrite omap_insert_None by done.
    rewrite (rr_fds _ _ Rv) in Hp |- *.
    by apply delete_id. }
  unfold loop_add, BFileDescriptor_Init. do 2 wp_step.
  replace (set_fds _ s) with (with_fds (<[p := mk_fd fd false 0 None]> (fds s)) (epoll_results s) (epoll_results_pos s) (d_fds_counter s) s) by (by destruct s).
  set (s1 := with_fds _ _ _ _ s) in *. assert (R1 : reactor_rep s1 v).
  { pose proof (rep_fds_update s v _ _ _ id Rv Hu F1 Ed) as R1. by destruct v. }
  eapply add_fd_wp; [exact F1 | apply lookup_insert_eq | done | intros ->; done|].
  intros ctr -> s2 F2. split; [done|]. apply (rep_fds_update s1); [done | done | exact F2|].
  cbn. rewrite omap_insert_Some with (y := (fd, 0)) by done. by rewrite Ed.
Qed.

Lemma loop_remove_spec s v p : reactor_rep s v -> v_user v = true -> is_Some (v_fds v !! p) ->
  wp (BReactor_RemoveFileDescriptor p) s (fun _ s' _ => reactor_rep s' (up_fds (delete p) v)).
Proof.
  intros Rv Hu [[fd wait] Hp]. destruct (rep_fd _ _ _ _ _ Rv Hp) as (x & Hx & Ha & _). destruct (rep_user s v Rv Hu) as [I _]. eapply remove_fd_wp; [apply I | done | done|].
  intros results ctr s' F _. apply (rep_fds_update s); [done | done | exact F|]. rewrite omap_insert_None by done. by rewrite (rr_fds _ _ Rv).
Qed.

Lemma loop_events_spec s v p fd wait events : reactor_rep s v -> v_user v = true -> v_fds v !! p = Some (fd, wait) -> 0 <= events <= 3 ->
  wp (BReactor_SetFileDescriptorEvents p events) s (fun _ s' _ => reactor_rep s' (up_fds <[p := (fd, events)]> v)).
Proof.
  intros Rv Hu Hp He. destruct (rep_fd _ _ _ _ _ Rv Hp) as (x & Hx & Ha & <- & _). destruct (rep_user s v Rv Hu) as [I _].
  eapply set_events_wp; [apply I | done | done | done|].
  intros s' F. apply (rep_fds_update s); [done | done | exact F|].
  rewrite omap_insert_Some with (y := (Reactor.fd x, events)); [by rewrite (rr_fds _ _ Rv)|]. unfold fd_view. cbn. by rewrite Ha.
Qed.

Lemma loop_limit_init_spec s v p n : reactor_rep s v -> v_user v = true -> v_limits v !! p = None -> 0 < n ->
  wp (BReactorLimit_Init p n) s (fun _ s' _ => reactor_rep s' (up_limits <[p := (n, 0)]> v)).
Proof.
  intros Rv Hu Hp Hn. destruct (rep_user s v Rv Hu) as [I _].
  rewrite (rr_limits _ _ Rv), lookup_fmap in Hp. apply fmap_None in Hp. eapply limit_init_wp; [apply I | done | done|].
  intros ctr s' L. apply (rep_limits_update s); [done | done | exact L|]. by rewrite fmap_insert, (rr_limits _ _ Rv).
Qed.

Lemma loop_limit_free_spec s v p : reactor_rep s v -> v_user v = true -> is_Some (v_limits v !! p) ->
  wp (BReactorLimit_Free p) s (fun _ s' _ => reactor_rep s' (up_limits (delete p) v)).
Proof.
  intros Rv Hu [[n c] Hp]. destruct (rep_user s v Rv Hu) as [I _].
  eapply limit_free_wp; [apply I | by eapply rep_limit|].
  intros l ctr s' L. apply (rep_limits_update s); [done | done | exact L|]. by rewrite fmap_delete, (rr_limits _ _ Rv).
Qed.

Lemma loop_limit_inc_spec s v p n c : reactor_rep s v -> v_user v = true -> v_limits v !! p = Some (n, c) ->
  wp (BReactorLimit_Increment p) s (fun b s' _ => b = (c <? n) /\ reactor_rep s' (if b then up_limits <[p := (n, c + 1)]> v else v)).
Proof.
  intros Rv Hu Hp. pose proof (rep_limit _ _ _ _ _ Rv Hp) as Hx. destruct (rep_user s v Rv Hu) as [I _].
  eapply limit_increment_wp; [apply I | exact Hx | cbn; intros Hl; split; [lia | done]|].
  intros l s' L Hc. cbn in Hc. split; [lia|]. apply (rep_limits_update s); [done | done | exact L|]. by rewrite fmap_insert, (rr_limits _ _ Rv).
Qed.

Lemma loop_job_init_spec s v j h : reactor_rep s v -> v_user v = true -> v_init v !! j = None ->
  wp (loop_job_init j h) s (fun _ s' _ => reactor_rep s' (up_init <[j := h]> v)).
Proof.
  intros Rv Hu Hp. unfold loop_job_init. cbn [deliver]. wp_step. unfold on_jobs. rewrite (rr_init _ _ Rv) in Hp.
  eapply embedded_init_wp; [apply Rv | done|]. intros g J. wp_step. unfold up_init. rewrite (rr_init _ _ Rv).
  exact (rep_jobs_update s v g _ _ Rv Hu J).
Qed.

Lemma loop_job_free_spec s v j : reactor_rep s v -> v_user v = true -> is_Some (v_init v !! j) ->
  wp (loop_job_free j) s (fun _ s' _ => reactor_rep s' (up_init (delete j) (up_jobs (BPending.job_remove j) v))).
Proof.
  intros Rv Hu Hp. unfold loop_job_free. cbn [deliver]. wp_step. unfold on_jobs. rewrite (rr_init _ _ Rv) in Hp.
  eapply embedded_free_wp; [apply Rv | done|]. intros g J. wp_step. unfold up_init, up_jobs. cbn [v_user v_fds v_limits v_init v_jobs].
  rewrite (rr_init _ _ Rv). exact (rep_jobs_update s v g _ _ Rv Hu J).
Qed.

Lemma loop_job_set_spec s v j : reactor_rep s v -> v_user v = true -> is_Some (v_init v !! j) ->
  wp (on_jobs (jq_set j)) s (fun _ s' _ => reactor_rep s' (up_jobs (fun l => j :: BPending.job_remove j l) v)).
Proof.
  intros Rv Hu Hp. unfold on_jobs. rewrite (rr_init _ _ Rv) in Hp. eapply embedded_set_wp; [apply Rv | done|].
  intros g J. pose proof (rep_jobs_update s v g _ _ Rv Hu J) as R'. rewrite set_init_same in R'. unfold up_jobs. by rewrite (rr_init _ _ Rv).
Qed.

Lemma loop_job_unset_spec s v j : reactor_rep s v -> v_user v = true -> is_Some (v_init v !! j) ->
  wp (on_jobs (jq_unset j)) s (fun _ s' _ => reactor_rep s' (up_jobs (BPending.job_remove j) v)).
Proof.
  intros Rv Hu Hp. unfold on_jobs. rewrite (rr_init _ _ Rv) in Hp. eapply embedded_unset_wp; [apply Rv | done|].
  intros g J. pose proof (rep_jobs_update s v g _ _ Rv Hu J) as R'. rewrite set_init_same in R'. unfold up_jobs. by rewrite (rr_init _ _ Rv).
Qed.

Lemma loop_job_is_set_spec s v j : reactor_rep s v -> is_Some (v_init v !! j) ->
  wp (on_jobs (jq_is_set j)) s (fun b s' _ => b = bool_decide (j ∈ v_jobs v) /\ reactor_rep s' v).
Proof.
  intros Rv Hp. unfold on_jobs. rewrite (rr_init _ _ Rv) in Hp. eapply embedded_is_set_wp; [by destruct s | apply Rv | done | done].
Qed.
(** The reset of the limits, in the view. *)
Lemma limits_reset_same h h' : same_limits h h' -> (forall p x, h' !! p = Some x -> count x = 0) ->
  limits_reset ((fun x => (limit x, count x)) <$> h) ((fun x => (limit x, count x)) <$> h').
Proof.
  intros Hs Hc p. right. specialize (Hs p). rewrite !lookup_fmap. specialize (Hc p).
  destruct (h' !! p) as [[n c]|], (h !! p) as [[n' c']|]; cbn in *; try done. injection Hs as ->. specialize (Hc _ eq_refl). by rewrite <- Hc.
Qed.

Lemma limits_all_zero h ctr p x : limits_ok h [] ctr -> h !! p = Some x -> count x = 0.
Proof.
  intros L Hx. destruct (l_limit _ _ _ L p x Hx) as [Hc _]. destruct (decide (0 < count x)) as [Hp|]; [|lia].
  exfalso. apply (elem_of_nil (A:=Z) p), (l_list _ _ _ L p). eauto.
Qed.

Lemma fd_view_same h h' : same_fds h h' -> omap fd_view h' = omap fd_view h.
Proof.
  intros Hs. apply map_eq. intros p. rewrite !lookup_omap. specialize (Hs p).
  destruct (h' !! p) as [[f a w r]|], (h !! p) as [[f' a' w' r']|]; cbn in *; try done. unfold fd_view. cbn. by injection Hs as -> -> ->.
Qed.

Lemma report_events_ok wait events : 0 <= wait <= 3 -> report_events wait events <> 0 -> events_ok wait (report_events wait events) = true.
Proof.
  intros Hw. assert (wait = 0 \/ wait = 1 \/ wait = 2 \/ wait = 3) as [-> | [-> | [-> | ->]]] by lia;
    unfold report_events; repeat case_match; vm_compute; done.
Qed.

(** A view of the state [s'], from its parts. *)
Lemma round_view s v s' l : reactor_rep s v -> inv s' -> omap fd_view (fds s') = v_fds v -> jobs_init s' = v_init v -> jobs_are s' l ->
  reactor_rep s' (mk_view (in_user s') (v_fds v) ((fun x => (limit x, count x)) <$> limits s') (v_init v) l).
Proof. intros Rv I Ef En J. by split. Qed.

Lemma limits_unchanged s v : reactor_rep s v -> limits_reset (v_limits v) ((fun x => (limit x, count x)) <$> limits s).
Proof. intros Rv p. left. by rewrite (rr_limits _ _ Rv). Qed.

(** The rounds that call nothing leave the view but for the limits. *)
Lemma quiet_round s v s' : reactor_rep s v -> inv s' -> omap fd_view (fds s') = v_fds v -> jobs_init s' = v_init v ->
  jobs_are s' (v_jobs v) -> limits_reset (v_limits v) ((fun x => (limit x, count x)) <$> limits s') ->
  exists v', reactor_rep s' v' /\ round_ok v v' None.
Proof. intros Rv I Ef En J L. eexists. split; [by eapply round_view | by split]. Qed.

Lemma exec_view now s v s' tr : reactor_rep s v -> inv s' -> round now (set_clock now s) s' tr ->
  exists v', reactor_rep s' v' /\ round_ok v v' (head (omap call_of tr)).
Proof.
  intros Rv I' Hr. pose proof (limits_unchanged s v Rv) as L0. pose proof Rv as [I U F L N J].
  assert (Hjobs : forall l, jobs_are (set_clock now s) l -> v_jobs v = l) by (intros l Hl; by eapply jq_rep_fun).
  destruct Hr as [Hx|j h l g Hx Hj Hh J'|t x l Hx Hj He Ht Ha|e Hx Hj He Ee Ep|e p x events Hx Hj He Ee Ep Hf Ha|l s1 Hx Hj He Hp Hl Hm|abs rel trunc n Hx Hj He Hp Hd Hn'].
  - by apply (quiet_round s).
  - eexists. split; [by eapply round_view|]. split; [done..|]. split; [done|]. cbn [v_jobs]. rewrite (Hjobs _ Hj). split; [done|]. by rewrite N.
  - eexists. split; [by eapply round_view|]. by split.
  - by apply (quiet_round s).
  - assert (Ef : omap fd_view (<[p := set_returned None x]> (fds s)) = v_fds v).
    { rewrite F. rewrite omap_insert_Some with (y := (fd x, waitEvents x)) by (unfold fd_view; cbn; by rewrite Ha).
      apply insert_id. rewrite lookup_omap. cbn in Hf. rewrite Hf. cbn. unfold fd_view. by rewrite Ha. }
    destruct (Z.eqb_spec events 0) as [E|E]; [by apply (quiet_round s)|].
    eexists. split; [by eapply round_view|]. split; [done..|]. cbn [v_user v_jobs]. split; [done|]. split; [done|]. split; [by apply Hjobs|].
    exists (fd x), (waitEvents x). rewrite F, lookup_omap. cbn in Hf. rewrite Hf. cbn. unfold fd_view. rewrite Ha. split; [done|].
    apply report_events_ok; [|done]. destruct I as [[_ I2 _ _ _] _]. exact (f_wait _ _ _ _ I2 p x Hf Ha).
  - destruct (mv_state _ _ _ _ Hm) as (h & tree & ->). by apply (quiet_round s).
  - by apply (quiet_round s).
Qed.

Lemma wake_view now w s v s' tr : reactor_rep s v -> inv s' -> wake now (set_clock now s) w s' tr ->
  exists v', reactor_rep s' v' /\ round_ok v v' (head (omap call_of tr)).
Proof.
  intros Rv I' Hk. pose proof (limits_unchanged s v Rv) as L0. pose proof Rv as [I U F L N J].
  destruct Hk as [l h hl Hl Hs F' L' Hsl|w t k s1 hl Hw Ha Hm L' Hsl|w a r c n Hw Hd Hn].
  - apply (quiet_round s); try done; [|rewrite L].
    + rewrite F. by apply fd_view_same.
    + apply limits_reset_same; [done|]. intros p x. by eapply limits_all_zero.
  - destruct (mv_state _ _ _ _ Hm) as (h & tree & ->). apply (quiet_round s); try done. rewrite L.
    apply limits_reset_same; [done|]. intros p x. by eapply limits_all_zero.
  - by apply (quiet_round s).
Qed.

Lemma loop_round_spec s v ev : reactor_rep s v -> loop_ok ev s = true ->
  wp (loop_round ev) s (fun c s' _ => exists v', reactor_rep s' v' /\ round_ok v v' c).
Proof.
  intros Rv He. assert (He' : enabled ev s = true) by (by destruct ev).
  destruct (wp_ok _ _ _ (reactor_deliver_wp ev s (rr_inv _ _ Rv) He')) as (u & s' & tr & E & I' & Hs).
  unfold wp, loop_round. rewrite E. destruct ev; try done; [by eapply exec_view | by eapply wake_view].
Qed.
End Loop.
End ReactorLoop.

#[export] Instance reactor_event_loop {G} {JQ : JobQueue G} {ET : EntryTree} : EventLoop (Reactor.sys (G:=G)) := {|
  el_rep := ReactorLoop.reactor_rep;
  el_add := ReactorLoop.loop_add;
  el_remove := Reactor.BReactor_RemoveFileDescriptor;
  el_events := Reactor.BReactor_SetFileDescriptorEvents;
  el_limit_init := Reactor.BReactorLimit_Init;
  el_limit_free := Reactor.BReactorLimit_Free;
  el_limit_inc := Reactor.BReactorLimit_Increment;
  el_job_init := ReactorLoop.loop_job_init;
  el_job_free := ReactorLoop.loop_job_free;
  el_job_set j := Reactor.on_jobs (jq_set j);
  el_job_unset j := Reactor.on_jobs (jq_unset j);
  el_job_is_set j := Reactor.on_jobs (jq_is_set j);
  el_user := Reactor.in_user;
  el_ok := ReactorLoop.loop_ok;
  el_round := ReactorLoop.loop_round;
  el_nodup r v H := jq_nodup _ _ _ (ReactorLoop.rr_jobs _ _ H);
  el_user_spec := ReactorLoop.rr_user;
  el_add_spec := ReactorLoop.loop_add_spec;
  el_remove_spec := ReactorLoop.loop_remove_spec;
  el_events_spec := ReactorLoop.loop_events_spec;
  el_limit_init_spec := ReactorLoop.loop_limit_init_spec;
  el_limit_free_spec := ReactorLoop.loop_limit_free_spec;
  el_limit_inc_spec := ReactorLoop.loop_limit_inc_spec;
  el_job_init_spec := ReactorLoop.loop_job_init_spec;
  el_job_free_spec := ReactorLoop.loop_job_free_spec;
  el_job_set_spec := ReactorLoop.loop_job_set_spec;
  el_job_unset_spec := ReactorLoop.loop_job_unset_spec;
  el_job_is_set_spec := ReactorLoop.loop_job_is_set_spec;
  el_round_spec := ReactorLoop.loop_round_spec;
|}.

(** ** A reactor that was just initialised *)

Module LoopDemo.
#[local] Existing Instance EntryList.entry_list.

Abbreviation reactor := (Reactor.sys (G := BPending.group)).

Definition reactor_demo : reactor := Reactor.end_of (Reactor.run true Reactor.mem_demo []).

Lemma reactor_demo_unused : unused reactor_demo.
Proof.
  destruct (wp_ok _ _ _ (Reactor.reactor_init_wp true Reactor.mem_demo Reactor.mem_demo_fresh)) as (b & r & tr & E & -> & _ & H).
  destruct (H eq_refl) as (I & _ & _ & J). assert (Er : r = reactor_demo) by (unfold reactor_demo, Reactor.run; by rewrite E).
  rewrite <- Er in *. clear H. exists (mk_view (Reactor.in_user r) (omap ReactorLoop.fd_view (Reactor.fds r))
    ((fun x => (Reactor.limit x, Reactor.count x)) <$> Reactor.limits r) (Reactor.jobs_init r) []).
  assert (Hf : Reactor.fds r = ∅) by (rewrite Er; vm_cast_no_check (eq_refl (A := gmap Z Reactor.descriptor) ∅)).
  assert (Hl : Reactor.limits r = ∅) by (rewrite Er; vm_cast_no_check (eq_refl (A := gmap Z Reactor.limit_object) ∅)).
  assert (Hj : Reactor.jobs_init r = ∅) by (rewrite Er; vm_cast_no_check (eq_refl (A := gmap Z (Z * Z)) ∅)).
  split_and!; cbn [v_fds v_limits v_init v_jobs]; [by split | rewrite Hf; apply omap_empty | rewrite Hl; apply fmap_empty | exact Hj | done].
Qed.
End LoopDemo.
