(* ===== verification/BConnection.v ===== *)
(** * BConnection: sockets in the event loop

    Model of [badvpn/system/BConnection_unix.c]: the listener, the connector and the
    connection with its two directions.  There is one of each ([listener_],
    [connector_], [con]); they are in the loop with the descriptors [B_LIS], [B_CTR] and
    [B_CON], the limits [L_SEND] and [L_RECV], and their jobs.

    The loop is any [EventLoop].  A round of it ([E_round]) calls the handlers of this
    file; the other events are calls of the users: from their own handlers, and from
    the two interfaces of the connection ([E_send], [E_recv]), whose protocol is in
    [FlowInterface].  [kernel] has the results of the system calls of an event.

    [open_fds] are the file descriptors of the process, [user_fds] those that belong to
    the users.  A system call on another descriptor, or on an object that is not there,
    is [F_bounds]. *)

From S2P Require Import Prelude BAddr SearchTree BPending BReactor EventLoop.
Open Scope mon_scope.

#[local] Arguments Z.land : simpl never.
#[local] Arguments Z.lor : simpl never.
#[local] Arguments Z.lnot : simpl never.
#[local] Arguments BPending.job_remove : simpl never.

Module Connection.

Definition MAX_UNIX_SOCKET_PATH : Z := 200.
Definition SEND_STATE_NOT_INITED : Z := 0.
Definition SEND_STATE_READY : Z := 1.
Definition SEND_STATE_BUSY : Z := 2.
Definition RECV_STATE_NOT_INITED : Z := 0.
Definition RECV_STATE_READY : Z := 1.
Definition RECV_STATE_BUSY : Z := 2.
Definition RECV_STATE_INITED_CLOSED : Z := 3.
Definition RECV_STATE_NOT_INITED_CLOSED : Z := 4.
Definition BCONNECTION_SEND_LIMIT : Z := 2.
Definition BCONNECTION_RECV_LIMIT : Z := 2.
Definition BCONNECTION_EVENT_ERROR : Z := 1.
Definition BCONNECTION_EVENT_RECVCLOSED : Z := 2.

(** Addresses of the parts of the objects. *)
Definition B_LIS : Z := 1.
Definition B_CTR : Z := 2.
Definition B_CON : Z := 3.
Definition L_SEND : Z := 1.
Definition L_RECV : Z := 2.
Definition J_DEFAULT : Z := 1.
Definition J_CONNECTOR : Z := 2.
Definition J_SEND : Z := 3.
Definition J_RECV : Z := 4.
Definition J_ERROR : Z := 5.
Definition own_job (j : Z) : bool := (1 <=? j) && (j <=? 5).

(** ** Data *)

(** [struct sys_addr] with its length. *)
Inductive sys_addr :=
  | SYS_IN (len port ip : Z)
  | SYS_IN6 (len port flowinfo : Z) (ip : list Z) (scope : Z)
  | SYS_OTHER (len family : Z).

(** [struct unix_addr]: its length and the bytes of its union. *)
Record unix_addr := mk_unix { u_len : Z; u_bytes : list Z }.

Inductive BLisCon_from := FROM_ADDR (addr : BAddr) | FROM_UNIX (socket_path : list Z).
Inductive BConnection_source := SOURCE_LISTENER (out_addr : bool) | SOURCE_CONNECTOR | SOURCE_PIPE (pipefd : Z) (close_it : bool).

Record listener := mk_listener { unix_socket_path : option (list Z); l_fd : Z }.
Record connector := mk_connector { c_fd : Z; connected : bool; have_bfd : bool }.

(** [handlers] is the user's handler and its argument. *)
Record connection := mk_con {
  handlers : Z;
  fd : Z;
  close_fd : bool;
  is_hupd : bool;
  wait_events : Z;
  send_data : list Z;
  send_state : Z;
  recv_avail : Z;
  recv_state : Z;
}.

Definition set_handlers (h : Z) (o : connection) : connection :=
  mk_con h (fd o) (close_fd o) (is_hupd o) (wait_events o) (send_data o) (send_state o) (recv_avail o) (recv_state o).
Definition set_hupd (o : connection) : connection :=
  mk_con (handlers o) (fd o) (close_fd o) true (wait_events o) (send_data o) (send_state o) (recv_avail o) (recv_state o).
Definition set_wait_events (w : Z) (o : connection) : connection :=
  mk_con (handlers o) (fd o) (close_fd o) (is_hupd o) w (send_data o) (send_state o) (recv_avail o) (recv_state o).
Definition set_send_data (d : list Z) (o : connection) : connection :=
  mk_con (handlers o) (fd o) (close_fd o) (is_hupd o) (wait_events o) d (send_state o) (recv_avail o) (recv_state o).
Definition set_send_state (n : Z) (o : connection) : connection :=
  mk_con (handlers o) (fd o) (close_fd o) (is_hupd o) (wait_events o) (send_data o) n (recv_avail o) (recv_state o).
Definition set_recv_avail (n : Z) (o : connection) : connection :=
  mk_con (handlers o) (fd o) (close_fd o) (is_hupd o) (wait_events o) (send_data o) (send_state o) n (recv_state o).
Definition set_recv_state (n : Z) (o : connection) : connection :=
  mk_con (handlers o) (fd o) (close_fd o) (is_hupd o) (wait_events o) (send_data o) (send_state o) (recv_avail o) n.

(** Results of the system calls. *)
Inductive connect_result := C_done | C_in_progress | C_failed.
Inductive write_result := W_bytes (n : Z) | W_again | W_error.
Inductive read_result := R_bytes (data : list Z) | R_again | R_error.

(** [k_mem]: memory for the path; [k_fd]: of [socket] and [accept]; [k_add]: of
    [epoll_ctl]; [k_so_error]: what [getsockopt] finds, if it succeeds. *)
Record kernel := mk_kernel {
  k_mem : bool;
  k_fd : option Z;
  k_nonblock : bool;
  k_unlink : bool;
  k_bind : bool;
  k_listen : bool;
  k_connect : connect_result;
  k_add : bool;
  k_peer : sys_addr;
  k_so_error : option Z;
  k_write : write_result;
  k_read : read_result;
}.

Section Connection.
Context {R : Type} {EL : EventLoop R}.

(** [reported]: the connector's handler has been called without an error.
    [user_jobs]: the jobs of the users.
    [err_pending]: the kernel has told of an error on the connection's descriptor,
    without a hang-up; then reading and writing fail until an error is returned. *)
Record sys := mk_sys {
  loop : R;
  listener_ : option listener;
  connector_ : option connector;
  con : option connection;
  open_fds : gset Z;
  user_fds : gset Z;
  user_jobs : gset Z;
  reported : bool;
  err_pending : bool;
}.

Inductive out :=
  | Loop (o : el_out)
  | Socket (fd : Z) | Accept (fd newfd : Z) | Connect (fd : Z)
  | Unlink (path : list Z)
  | Write (fd : Z) (data : list Z) | Read (fd : Z) (data : list Z) | Close (fd : Z)
  | Peer (addr : BAddr)                         (** the address that was asked for *)
  | Listener_Handler | Connector_Handler (is_error : bool)
  | Connection_Handler (handlers event : Z)
  | Send_Done (n : Z) | Recv_Done (n : Z)       (** of the interfaces *)
  | Other_Call (c : call).

Abbreviation H := (M sys out).

Definition set_loop (r : R) (s : sys) : sys :=
  mk_sys r (listener_ s) (connector_ s) (con s) (open_fds s) (user_fds s) (user_jobs s) (reported s) (err_pending s).
Definition set_listener (l : option listener) (s : sys) : sys :=
  mk_sys (loop s) l (connector_ s) (con s) (open_fds s) (user_fds s) (user_jobs s) (reported s) (err_pending s).
Definition set_connector (c : option connector) (s : sys) : sys :=
  mk_sys (loop s) (listener_ s) c (con s) (open_fds s) (user_fds s) (user_jobs s) (reported s) (err_pending s).
Definition set_con (o : option connection) (s : sys) : sys :=
  mk_sys (loop s) (listener_ s) (connector_ s) o (open_fds s) (user_fds s) (user_jobs s) (reported s) (err_pending s).
Definition set_open (f : gset Z) (s : sys) : sys :=
  mk_sys (loop s) (listener_ s) (connector_ s) (con s) f (user_fds s) (user_jobs s) (reported s) (err_pending s).
Definition set_user_fds (f : gset Z) (s : sys) : sys :=
  mk_sys (loop s) (listener_ s) (connector_ s) (con s) (open_fds s) f (user_jobs s) (reported s) (err_pending s).
Definition set_user_jobs (f : gset Z) (s : sys) : sys :=
  mk_sys (loop s) (listener_ s) (connector_ s) (con s) (open_fds s) (user_fds s) f (reported s) (err_pending s).
Definition set_reported (b : bool) (s : sys) : sys :=
  mk_sys (loop s) (listener_ s) (connector_ s) (con s) (open_fds s) (user_fds s) (user_jobs s) b (err_pending s).
Definition set_err (b : bool) (s : sys) : sys :=
  mk_sys (loop s) (listener_ s) (connector_ s) (con s) (open_fds s) (user_fds s) (user_jobs s) (reported s) b.

Definition on_loop {A} (m : M R el_out A) : H A := embed loop set_loop Loop m.

(** An object that must be there. *)
Definition the {V} (pr : sys -> option V) : H V :=
  s <- get ;; match pr s with Some x => ret x | None => fail F_bounds end.
Definition upd_con (f : connection -> connection) : H unit := o <- the con ;; modify (set_con (Some (f o))).

Definition use_fd (f : Z) : H unit :=
  s <- get ;; if bool_decide (f ∈ open_fds s) then ret tt else fail F_bounds.
Definition new_fd (f : Z) : H unit := modify (fun s => set_open ({[f]} ∪ open_fds s) s).
Definition close (f : Z) : H unit :=
  use_fd f ;; modify (fun s => set_open (open_fds s ∖ {[f]}) s) ;; emit (Close f).

(** ** Addresses *)

(** [sizeof (struct unix_addr)] without the length, and the offset of [sun_path]. *)
Definition SUN_PATH : Z := 2.
Definition UNIX_BYTES : Z := SUN_PATH + MAX_UNIX_SOCKET_PATH + 1.
Definition AF_UNIX : Z := 1.

Definition build_unix_address (socket_path : list Z) : H (option unix_addr) :=
  if zlen socket_path >? MAX_UNIX_SOCKET_PATH then ret None else
  let len := SUN_PATH + zlen socket_path + 1 in
  u <- put (replicate (Z.to_nat UNIX_BYTES) 0) 0 (le_bytes 2 AF_UNIX) ;;
  u <- put u SUN_PATH (socket_path ++ [0]) ;;
  ret (Some (mk_unix len u)).

Definition SIZEOF_SOCKADDR_IN : Z := 16.
Definition SIZEOF_SOCKADDR_IN6 : Z := 28.

Definition addr_socket_to_sys (addr : BAddr) : H sys_addr :=
  match addr with
  | BADDR_IPV4 ip port => ret (SYS_IN SIZEOF_SOCKADDR_IN port ip)
  | BADDR_IPV6 ip port => ret (SYS_IN6 SIZEOF_SOCKADDR_IN6 port 0 ip 0)
  | _ => fail F_assert
  end.

Definition addr_sys_to_socket (addr : sys_addr) : H BAddr :=
  match addr with
  | SYS_IN len port ip => assert (len =? SIZEOF_SOCKADDR_IN) ;; ret (BAddr_MakeIPv4 ip port)
  | SYS_IN6 len port _ ip _ => assert (len =? SIZEOF_SOCKADDR_IN6) ;; ret (BAddr_MakeIPv6 ip port)
  | SYS_OTHER _ _ => ret BAddr_MakeNone
  end.

Definition BConnection_AddressSupported (addr : BAddr) : bool := (baddr_type addr =? 1) || (baddr_type addr =? 2).
(** ** Listener *)

Definition listener_fd_handler : H unit := l <- the listener_ ;; on_loop (el_job_set J_DEFAULT) ;; emit Listener_Handler.

Definition listener_default_job_handler (k : kernel) : H unit :=
  l <- the listener_ ;;
  use_fd (l_fd l) ;;
  match k_fd k with
  | None => ret tt
  | Some newfd => new_fd newfd ;; emit (Accept (l_fd l) newfd) ;; close newfd
  end.

(** The address to bind or connect to, or [None] if it cannot be used. *)
Definition socket_address (from : BLisCon_from) : H (option (sys_addr + unix_addr)) :=
  match from with
  | FROM_UNIX path => a <- build_unix_address path ;; ret (inr <$> a)
  | FROM_ADDR addr =>
      if negb (BConnection_AddressSupported addr) then ret None else
      a <- addr_socket_to_sys addr ;; ret (Some (inl a))
  end.

Definition socket (k : kernel) : H (option Z) :=
  match k_fd k with
  | None => ret None
  | Some f => new_fd f ;; emit (Socket f) ;; ret (Some f)
  end.

Definition from_path (from : BLisCon_from) : option (list Z) := match from with FROM_UNIX p => Some p | FROM_ADDR _ => None end.
Definition unlink (path : option (list Z)) : H unit := match path with Some p => emit (Unlink p) | None => ret tt end.

(** The end of [BListener_InitFrom] when something fails: [fail2] and [fail3]. *)
Definition listen_fail2 (f : Z) : H bool := close f ;; ret false.
Definition listen_fail3 (path : option (list Z)) (f : Z) : H bool := unlink path ;; listen_fail2 f.

Definition BListener_InitFrom (from : BLisCon_from) (k : kernel) : H bool :=
  let path := from_path from in
  if (if path then negb (k_mem k) else false) then ret false else
  addr <- socket_address from ;;
  match addr with
  | None => ret false
  | Some _ =>
      sock <- socket k ;;
      match sock with
      | None => ret false
      | Some f =>
          use_fd f ;;
          if negb (k_nonblock k) then listen_fail2 f else
          unlink path ;;
          if (if path then negb (k_unlink k) else false) then listen_fail2 f else
          if negb (k_bind k) then listen_fail2 f else
          if negb (k_listen k) then listen_fail3 path f else
          added <- on_loop (el_add B_LIS f (k_add k)) ;;
          if negb added then listen_fail3 path f else
          on_loop (el_events B_LIS Reactor.BREACTOR_READ) ;;
          on_loop (el_job_init J_DEFAULT (J_DEFAULT, 0)) ;;
          modify (set_listener (Some (mk_listener path f))) ;;
          ret true
      end
  end.

Definition BListener_Free : H unit :=
  l <- the listener_ ;;
  on_loop (el_job_free J_DEFAULT) ;;
  on_loop (el_remove B_LIS) ;;
  close (l_fd l) ;;
  unlink (unix_socket_path l) ;;
  modify (set_listener None).

(** ** Connector *)

Definition upd_connector (f : connector -> connector) : H unit := c <- the connector_ ;; modify (set_connector (Some (f c))).
Definition set_connected (c : connector) : connector := mk_connector (c_fd c) true (have_bfd c).
Definition set_no_bfd (c : connector) : connector := mk_connector (c_fd c) (connected c) false.
Definition set_no_fd (c : connector) : connector := mk_connector (-1) (connected c) (have_bfd c).

(** [so_error]: the connection result, if [getsockopt] succeeds. *)
Definition connector_fd_handler (k : kernel) : H unit :=
  c <- the connector_ ;;
  assert (c_fd c >=? 0) ;;
  assert (negb (connected c)) ;;
  assert (have_bfd c) ;;
  on_loop (el_remove B_CTR) ;;
  upd_connector set_no_bfd ;;
  use_fd (c_fd c) ;;
  (when bool_decide (k_so_error k = Some 0) do upd_connector set_connected) ;;
  c <- the connector_ ;;
  modify (set_reported (connected c)) ;;
  emit (Connector_Handler (negb (connected c))).

Definition connector_job_handler : H unit :=
  c <- the connector_ ;;
  assert (c_fd c >=? 0) ;;
  assert (connected c) ;;
  assert (negb (have_bfd c)) ;;
  modify (set_reported true) ;;
  emit (Connector_Handler false).

(** [fail1], after [fail2]. *)
Definition connect_fail1 : H bool := on_loop (el_job_free J_CONNECTOR) ;; ret false.
Definition connect_fail2 (f : Z) : H bool := close f ;; connect_fail1.

Definition BConnector_InitFrom (from : BLisCon_from) (k : kernel) : H bool :=
  addr <- socket_address from ;;
  match addr with
  | None => ret false
  | Some _ =>
      on_loop (el_job_init J_CONNECTOR (J_CONNECTOR, 0)) ;;
      sock <- socket k ;;
      match sock with
      | None => connect_fail1
      | Some f =>
          use_fd f ;;
          if negb (k_nonblock k) then connect_fail2 f else
          emit (Connect f) ;;
          match k_connect k with
          | C_failed => connect_fail2 f
          | C_in_progress =>
              added <- on_loop (el_add B_CTR f (k_add k)) ;;
              if negb added then connect_fail2 f else
              on_loop (el_events B_CTR Reactor.BREACTOR_WRITE) ;;
              modify (set_connector (Some (mk_connector f false true))) ;;
              ret true
          | C_done =>
              on_loop (el_job_set J_CONNECTOR) ;;
              modify (set_connector (Some (mk_connector f true false))) ;;
              ret true
          end
      end
  end.

Definition BConnector_Free : H unit :=
  c <- the connector_ ;;
  (when have_bfd c do on_loop (el_remove B_CTR)) ;;
  (when negb (c_fd c =? -1) do close (c_fd c)) ;;
  on_loop (el_job_free J_CONNECTOR) ;;
  modify (set_reported false) ;;
  modify (set_connector None).

(** ** Connection: sending and receiving *)

Definition DebugError_AssertNoError : H unit := e <- on_loop (el_job_is_set J_ERROR) ;; assert (negb e).

Definition connection_report_error : H unit :=
  DebugError_AssertNoError ;;
  e <- on_loop (el_job_is_set J_ERROR) ;; assert (negb e) ;;
  on_loop (el_job_set J_ERROR) ;;
  o <- the con ;;
  emit (Connection_Handler (handlers o) BCONNECTION_EVENT_ERROR).

Definition set_events (w : Z) : H unit := upd_con (set_wait_events w) ;; on_loop (el_events B_CON w).

(** Waiting for the descriptor. *)
Definition wait_for (event : Z) : H unit := o <- the con ;; set_events (Z.lor (wait_events o) event).

(** [write] and [read]: they fail while there is an error to return. *)
Definition sys_write (f : Z) (k : kernel) : H write_result :=
  use_fd f ;; s <- get ;; ret (if err_pending s then W_error else k_write k).
Definition sys_read (f : Z) (k : kernel) : H read_result :=
  use_fd f ;; s <- get ;; ret (if err_pending s then R_error else k_read k).

Definition limit_ok (l : Z) : H bool :=
  o <- the con ;; if is_hupd o then ret true else on_loop (el_limit_inc l).

Definition connection_send (k : kernel) : H unit :=
  DebugError_AssertNoError ;;
  o <- the con ;;
  assert (send_state o =? SEND_STATE_BUSY) ;;
  ok <- limit_ok L_SEND ;;
  if negb ok then wait_for Reactor.BREACTOR_WRITE else
  r <- sys_write (fd o) k ;;
  match r with
  | W_again => if negb (is_hupd o) then wait_for Reactor.BREACTOR_WRITE else connection_report_error
  | W_error => connection_report_error
  | W_bytes bytes =>
      emit (Write (fd o) (mread (send_data o) 0 bytes)) ;;
      assert (bytes >? 0) ;;
      assert (bytes <=? zlen (send_data o)) ;;
      upd_con (set_send_state SEND_STATE_READY) ;;
      emit (Send_Done bytes)
  end.

Definition connection_recv (k : kernel) : H unit :=
  DebugError_AssertNoError ;;
  o <- the con ;;
  assert (recv_state o =? RECV_STATE_BUSY) ;;
  ok <- limit_ok L_RECV ;;
  if negb ok then wait_for Reactor.BREACTOR_READ else
  r <- sys_read (fd o) k ;;
  match r with
  | R_again => if negb (is_hupd o) then wait_for Reactor.BREACTOR_READ else connection_report_error
  | R_error => connection_report_error
  | R_bytes data =>
      emit (Read (fd o) data) ;;
      if zlen data =? 0 then
        upd_con (set_recv_state RECV_STATE_INITED_CLOSED) ;;
        emit (Connection_Handler (handlers o) BCONNECTION_EVENT_RECVCLOSED)
      else
        assert (zlen data >? 0) ;;
        assert (zlen data <=? recv_avail o) ;;
        upd_con (set_recv_state RECV_STATE_READY) ;;
        emit (Recv_Done (zlen data))
  end.

Definition have_send (events : Z) (o : connection) : bool :=
  has_event events Reactor.BREACTOR_WRITE || (has_event events BREACTOR_ERROR_HUP && (send_state o =? SEND_STATE_BUSY)).
Definition have_recv (events : Z) (o : connection) : bool :=
  has_event events Reactor.BREACTOR_READ || (has_event events BREACTOR_ERROR_HUP && (recv_state o =? RECV_STATE_BUSY)).

(** The second part of [connection_fd_handler]. *)
Definition handle_events (events : Z) (k : kernel) : H unit :=
  o <- the con ;;
  (when have_send events o do assert (send_state o =? SEND_STATE_BUSY)) ;;
  (when have_recv events o do assert (recv_state o =? RECV_STATE_BUSY)) ;;
  if have_send events o then
    (when have_recv events o do on_loop (el_job_set J_RECV)) ;;
    connection_send k
  else if have_recv events o then connection_recv k
  else when negb (is_hupd o) do connection_report_error.

Definition connection_fd_handler (events : Z) (k : kernel) : H unit :=
  DebugError_AssertNoError ;;
  o <- the con ;;
  assert (negb (is_hupd o)) ;;
  set_events (Z.land (wait_events o) (Z.lnot events)) ;;
  (when has_event events Reactor.BREACTOR_HUP do (on_loop (el_remove B_CON) ;; upd_con set_hupd)) ;;
  handle_events events k.

Definition connection_send_job_handler (k : kernel) : H unit :=
  DebugError_AssertNoError ;;
  o <- the con ;; assert (send_state o =? SEND_STATE_BUSY) ;;
  connection_send k.

Definition connection_recv_job_handler (k : kernel) : H unit :=
  DebugError_AssertNoError ;;
  o <- the con ;; assert (recv_state o =? RECV_STATE_BUSY) ;;
  connection_recv k.

Definition connection_send_if_handler_send (data : list Z) (k : kernel) : H unit :=
  DebugError_AssertNoError ;;
  o <- the con ;; assert (send_state o =? SEND_STATE_READY) ;;
  assert (zlen data >? 0) ;;
  upd_con (set_send_data data) ;;
  upd_con (set_send_state SEND_STATE_BUSY) ;;
  connection_send k.

Definition connection_recv_if_handler_recv (data_avail : Z) (k : kernel) : H unit :=
  DebugError_AssertNoError ;;
  o <- the con ;; assert (recv_state o =? RECV_STATE_READY) ;;
  assert (data_avail >? 0) ;;
  upd_con (set_recv_avail data_avail) ;;
  upd_con (set_recv_state RECV_STATE_BUSY) ;;
  connection_recv k.
(** ** Connection: operations *)

(** [fail1] of [BConnection_Init]. *)
Definition init_fail1 (f : Z) (close_fd : bool) : H bool := (when close_fd do close f) ;; ret false.

(** Its part after the descriptor is there. *)
Definition init_fd (h f : Z) (close_fd : bool) (k : kernel) : H bool :=
  added <- on_loop (el_add B_CON f (k_add k)) ;;
  if negb added then init_fail1 f close_fd else
  on_loop (el_limit_init L_SEND BCONNECTION_SEND_LIMIT) ;;
  on_loop (el_limit_init L_RECV BCONNECTION_RECV_LIMIT) ;;
  modify (set_con (Some (mk_con h f close_fd false 0 [] SEND_STATE_NOT_INITED 0 RECV_STATE_NOT_INITED))) ;;
  modify (set_err false) ;;
  on_loop (el_job_init J_ERROR (J_ERROR, 0)) ;;
  ret true.

Definition set_nonblocking (f : Z) (k : kernel) : H bool := use_fd f ;; ret (k_nonblock k).

Definition BConnection_Init (source : BConnection_source) (h : Z) (k : kernel) : H bool :=
  match source with
  | SOURCE_LISTENER out_addr =>
      l <- the listener_ ;;
      is_set <- on_loop (el_job_is_set J_DEFAULT) ;; assert is_set ;;
      on_loop (el_job_unset J_DEFAULT) ;;
      use_fd (l_fd l) ;;
      match k_fd k with
      | None => ret false
      | Some f =>
          new_fd f ;;
          emit (Accept (l_fd l) f) ;;
          ok <- set_nonblocking f k ;;
          if negb ok then init_fail1 f true else
          (when out_addr do (a <- addr_sys_to_socket (k_peer k) ;; emit (Peer a))) ;;
          init_fd h f true k
      end
  | SOURCE_CONNECTOR =>
      c <- the connector_ ;;
      assert (c_fd c >=? 0) ;;
      assert (connected c) ;;
      assert (negb (have_bfd c)) ;;
      is_set <- on_loop (el_job_is_set J_CONNECTOR) ;; assert (negb is_set) ;;
      modify (set_reported false) ;;
      upd_connector set_no_fd ;;
      init_fd h (c_fd c) true k
  | SOURCE_PIPE pipefd close_it =>
      assert (pipefd >=? 0) ;;
      modify (fun s => if close_it then set_user_fds (user_fds s ∖ {[pipefd]}) s else s) ;;
      ok <- set_nonblocking pipefd k ;;
      if negb ok then init_fail1 pipefd close_it else
      init_fd h pipefd close_it k
  end.

Definition BConnection_Free : H unit :=
  o <- the con ;;
  on_loop (el_job_free J_ERROR) ;;
  assert (send_state o =? SEND_STATE_NOT_INITED) ;;
  assert ((recv_state o =? RECV_STATE_NOT_INITED) || (recv_state o =? RECV_STATE_NOT_INITED_CLOSED)) ;;
  on_loop (el_limit_free L_RECV) ;;
  on_loop (el_limit_free L_SEND) ;;
  (when negb (is_hupd o) do on_loop (el_remove B_CON)) ;;
  (when close_fd o do close (fd o)) ;;
  modify (set_con None).

Definition BConnection_SetHandlers (h : Z) : H unit := upd_con (set_handlers h).

(** [ok]: [setsockopt] succeeds. *)
Definition BConnection_SetSendBuffer (buf_size : Z) (ok : bool) : H bool := o <- the con ;; use_fd (fd o) ;; ret ok.

Definition BConnection_SendAsync_Init : H unit :=
  DebugError_AssertNoError ;;
  o <- the con ;; assert (send_state o =? SEND_STATE_NOT_INITED) ;;
  on_loop (el_job_init J_SEND (J_SEND, 0)) ;;
  upd_con (set_send_state SEND_STATE_READY).

Definition BConnection_SendAsync_Free : H unit :=
  o <- the con ;;
  assert ((send_state o =? SEND_STATE_READY) || (send_state o =? SEND_STATE_BUSY)) ;;
  (when negb (is_hupd o) do set_events (Z.land (wait_events o) (Z.lnot Reactor.BREACTOR_WRITE))) ;;
  on_loop (el_job_free J_SEND) ;;
  upd_con (set_send_state SEND_STATE_NOT_INITED).

Definition BConnection_SendAsync_GetIf : H unit :=
  o <- the con ;; assert ((send_state o =? SEND_STATE_READY) || (send_state o =? SEND_STATE_BUSY)).

Definition BConnection_RecvAsync_Init : H unit :=
  DebugError_AssertNoError ;;
  o <- the con ;; assert (recv_state o =? RECV_STATE_NOT_INITED) ;;
  on_loop (el_job_init J_RECV (J_RECV, 0)) ;;
  upd_con (set_recv_state RECV_STATE_READY).

Definition recv_inited (o : connection) : bool :=
  (recv_state o =? RECV_STATE_READY) || (recv_state o =? RECV_STATE_BUSY) || (recv_state o =? RECV_STATE_INITED_CLOSED).

Definition BConnection_RecvAsync_Free : H unit :=
  o <- the con ;;
  assert (recv_inited o) ;;
  (when negb (is_hupd o) do set_events (Z.land (wait_events o) (Z.lnot Reactor.BREACTOR_READ))) ;;
  on_loop (el_job_free J_RECV) ;;
  upd_con (set_recv_state RECV_STATE_NOT_INITED).

Definition BConnection_RecvAsync_GetIf : H unit := o <- the con ;; assert (recv_inited o).

(** ** Events *)

Inductive event :=
  | E_round (e : el_env) (k : kernel)
  | E_listen (from : BLisCon_from) (k : kernel) | E_listener_free
  | E_connect (from : BLisCon_from) (k : kernel) | E_connector_free
  | E_init (source : BConnection_source) (h : Z) (k : kernel) | E_free
  | E_set_handlers (h : Z) | E_set_send_buffer (buf_size : Z) (ok : bool)
  | E_send_init | E_send_free | E_send_if | E_recv_init | E_recv_free | E_recv_if
  | E_send (data : list Z) (k : kernel) | E_recv (data_avail : Z) (k : kernel)
  | E_user_open (f : Z) | E_user_close (f : Z)
  | E_job_init (j : Z) (h : Z * Z) | E_job_free (j : Z) | E_job_set (j : Z) | E_job_unset (j : Z).

(** The call of a handler by the loop. *)
Definition dispatch (c : call) (k : kernel) : H unit :=
  match c with
  | C_job j _ =>
      if j =? J_DEFAULT then listener_default_job_handler k else
      if j =? J_CONNECTOR then connector_job_handler else
      if j =? J_SEND then connection_send_job_handler k else
      if j =? J_RECV then connection_recv_job_handler k else
      if j =? J_ERROR then fail F_assert else
      emit (Other_Call c)
  | C_fd p events =>
      if p =? B_LIS then listener_fd_handler else
      if p =? B_CTR then connector_fd_handler k else
      if p =? B_CON then
        (when has_event events Reactor.BREACTOR_ERROR && negb (has_event events Reactor.BREACTOR_HUP) do modify (set_err true)) ;;
        connection_fd_handler events k
      else emit (Other_Call c)
  | C_timer _ => emit (Other_Call c)
  end.

Definition deliver (ev : event) : H unit :=
  match ev with
  | E_round e k => c <- on_loop (el_round e) ;; match c with Some c => dispatch c k | None => ret tt end
  | E_listen from k => BListener_InitFrom from k ;; ret tt
  | E_listener_free => BListener_Free
  | E_connect from k => BConnector_InitFrom from k ;; ret tt
  | E_connector_free => BConnector_Free
  | E_init source h k => BConnection_Init source h k ;; ret tt
  | E_free => BConnection_Free
  | E_set_handlers h => BConnection_SetHandlers h
  | E_set_send_buffer n ok => BConnection_SetSendBuffer n ok ;; ret tt
  | E_send_init => BConnection_SendAsync_Init
  | E_send_free => BConnection_SendAsync_Free
  | E_send_if => BConnection_SendAsync_GetIf
  | E_recv_init => BConnection_RecvAsync_Init
  | E_recv_free => BConnection_RecvAsync_Free
  | E_recv_if => BConnection_RecvAsync_GetIf
  | E_send data k => connection_send_if_handler_send data k
  | E_recv data_avail k => connection_recv_if_handler_recv data_avail k
  | E_user_open f => new_fd f ;; modify (fun s => set_user_fds ({[f]} ∪ user_fds s) s)
  | E_user_close f => modify (fun s => set_user_fds (user_fds s ∖ {[f]}) s) ;; close f
  | E_job_init j h => on_loop (el_job_init j h) ;; modify (fun s => set_user_jobs ({[j]} ∪ user_jobs s) s)
  | E_job_free j => on_loop (el_job_free j) ;; modify (fun s => set_user_jobs (user_jobs s ∖ {[j]}) s)
  | E_job_set j => on_loop (el_job_set j)
  | E_job_unset j => on_loop (el_job_unset j)
  end.

(** ** What the users and the kernel may do *)

Definition in_user (s : sys) : bool := el_user (loop s).
Definition is_set (j : Z) (s : sys) : bool := match el_job_is_set j (loop s) with Ok b _ _ => b | Fault _ => false end.
Definition with_con (f : connection -> bool) (s : sys) : bool := match con s with Some o => f o | None => false end.
Definition is_none {V} (x : option V) : bool := match x with None => true | Some _ => false end.

(** An error was reported: the users must free the connection in the handler. *)
Definition failed (s : sys) : bool := with_con (fun _ => is_set J_ERROR s) s.

(** New descriptors are not in use; not more is written or read than was asked for;
    addresses have the length of their family. *)
Definition kernel_ok (k : kernel) (len avail : Z) (s : sys) : bool :=
  match k_fd k with Some f => (0 <=? f) && bool_decide (f ∉ open_fds s) | None => true end &&
  match k_write k with W_bytes n => (0 <? n) && (n <=? len) | _ => true end &&
  match k_read k with R_bytes data => zlen data <=? avail | _ => true end &&
  match k_peer k with
  | SYS_IN len _ _ => len =? SIZEOF_SOCKADDR_IN
  | SYS_IN6 len _ _ _ _ => len =? SIZEOF_SOCKADDR_IN6
  | SYS_OTHER _ _ => true
  end.

(** [BConnection_Init] from the listener: in the job closure of its handler. *)
Definition source_ok (source : BConnection_source) (s : sys) : bool :=
  match source with
  | SOURCE_LISTENER _ => negb (is_none (listener_ s)) && is_set J_DEFAULT s
  | SOURCE_CONNECTOR => reported s
  | SOURCE_PIPE f _ => (0 <=? f) && bool_decide (f ∈ user_fds s)
  end.

Definition con_ok (f : connection -> bool) (s : sys) : bool := in_user s && with_con f s.

Definition uses (f : Z) (s : sys) : bool := with_con (fun o => fd o =? f) s.

Definition enabled (ev : event) (s : sys) : bool :=
  match ev with
  | E_round e k =>
      el_ok e (loop s) && negb (failed s) &&
      kernel_ok k (match con s with Some o => zlen (send_data o) | None => 0 end) (match con s with Some o => recv_avail o | None => 0 end) s
  | E_listen _ k => in_user s && is_none (listener_ s) && kernel_ok k 0 0 s
  | E_listener_free => in_user s && negb (is_none (listener_ s))
  | E_connect _ k => in_user s && is_none (connector_ s) && kernel_ok k 0 0 s
  | E_connector_free => in_user s && negb (is_none (connector_ s))
  | E_init source _ k => in_user s && is_none (con s) && source_ok source s && kernel_ok k 0 0 s
  | E_free => con_ok (fun o => (send_state o =? SEND_STATE_NOT_INITED) && ((recv_state o =? RECV_STATE_NOT_INITED) || (recv_state o =? RECV_STATE_NOT_INITED_CLOSED))) s
  | E_set_handlers _ | E_set_send_buffer _ _ => con_ok (fun _ => true) s
  | E_send_init => con_ok (fun o => send_state o =? SEND_STATE_NOT_INITED) s && negb (failed s)
  | E_send_free | E_send_if => con_ok (fun o => (send_state o =? SEND_STATE_READY) || (send_state o =? SEND_STATE_BUSY)) s
  | E_recv_init => con_ok (fun o => recv_state o =? RECV_STATE_NOT_INITED) s && negb (failed s)
  | E_recv_free | E_recv_if => con_ok recv_inited s
  | E_send data k =>
      con_ok (fun o => send_state o =? SEND_STATE_READY) s && negb (failed s) && (0 <? zlen data) && kernel_ok k (zlen data) 0 s
  | E_recv avail k =>
      con_ok (fun o => recv_state o =? RECV_STATE_READY) s && negb (failed s) && (0 <? avail) && kernel_ok k 0 avail s
  | E_user_open f => in_user s && (0 <=? f) && bool_decide (f ∉ open_fds s)
  | E_user_close f => in_user s && bool_decide (f ∈ user_fds s) && negb (uses f s)
  | E_job_init j h => in_user s && negb (own_job j) && bool_decide (j ∉ user_jobs s)
  | E_job_free j | E_job_set j | E_job_unset j => in_user s && bool_decide (j ∈ user_jobs s)
  end.

(** The state after the events, and each event with its outputs. *)
Fixpoint run (evs : list event) (s : sys) : option (sys * list (event * list out)) :=
  match evs with
  | [] => Some (s, [])
  | ev :: evs' =>
      if enabled ev s then
        match deliver ev s with
        | Ok _ s' tr => r ← run evs' s'; Some (r.1, (ev, tr) :: r.2)
        | Fault _ => None
        end
      else Some (s, [])
  end.
(** ** The invariant *)

(** The listener: registered for connections. *)
Definition lis_inv (v : view) (l : option listener) : Prop :=
  v_fds v !! B_LIS = (fun l => (l_fd l, Reactor.BREACTOR_READ)) <$> l /\
  v_init v !! J_DEFAULT = (fun _ => (J_DEFAULT, 0)) <$> l /\
  (l = None -> J_DEFAULT ∉ v_jobs v).

(** The connector: connecting, or connected with its job set, or it was reported. *)
Record ctr_ok (v : view) (c : connector) (rep : bool) : Prop := mk_ctr_ok {
  k_bfd : v_fds v !! B_CTR = if have_bfd c then Some (c_fd c, Reactor.BREACTOR_WRITE) else None;
  k_init : v_init v !! J_CONNECTOR = Some (J_CONNECTOR, 0);
  k_fd_ok : -1 <= c_fd c;
  k_have : have_bfd c = true -> 0 <= c_fd c /\ connected c = false;
  k_job : J_CONNECTOR ∈ v_jobs v -> 0 <= c_fd c /\ connected c = true /\ have_bfd c = false /\ rep = false;
  k_rep : rep = true -> 0 <= c_fd c /\ connected c = true /\ have_bfd c = false;
}.

Definition ctr_inv (v : view) (c : option connector) (rep : bool) : Prop :=
  match c with
  | Some c => ctr_ok v c rep
  | None => v_fds v !! B_CTR = None /\ v_init v !! J_CONNECTOR = None /\ J_CONNECTOR ∉ v_jobs v /\ rep = false
  end.

(** The connection.  [sb] and [rb]: it is about to write or to read.  Otherwise, whatever
    is busy is waited for, will be retried by the job, or has failed; and what is waited
    for is busy. *)
Record con_at (sb rb : bool) (v : view) (o : connection) (err : bool) : Prop := mk_con_at {
  cs_fd : v_fds v !! B_CON = if is_hupd o then None else Some (fd o, wait_events o);
  cs_send_limit : exists c, v_limits v !! L_SEND = Some (BCONNECTION_SEND_LIMIT, c);
  cs_recv_limit : exists c, v_limits v !! L_RECV = Some (BCONNECTION_RECV_LIMIT, c);
  cs_error : v_init v !! J_ERROR = Some (J_ERROR, 0);
  cs_send_init : v_init v !! J_SEND = if send_state o =? SEND_STATE_NOT_INITED then None else Some (J_SEND, 0);
  cs_recv_init : v_init v !! J_RECV = if recv_state o =? RECV_STATE_NOT_INITED then None else Some (J_RECV, 0);
  cs_wait : 0 <= wait_events o <= 3;
  cs_states : 0 <= send_state o <= 2 /\ 0 <= recv_state o <= 3;
  cs_send_job : J_SEND ∉ v_jobs v;
  cs_recv_job : J_RECV ∈ v_jobs v -> recv_state o = RECV_STATE_BUSY /\ (is_hupd o = false -> has_read (wait_events o) = true -> err = true);
  cs_send_wait : is_hupd o = false -> has_write (wait_events o) = true -> send_state o = SEND_STATE_BUSY;
  cs_recv_wait : is_hupd o = false -> has_read (wait_events o) = true -> recv_state o = RECV_STATE_BUSY;
  cs_send : if sb then send_state o = SEND_STATE_BUSY /\ (is_hupd o = false -> has_write (wait_events o) = true -> err = true)
    else send_state o = SEND_STATE_BUSY -> J_ERROR ∈ v_jobs v \/ (is_hupd o = false /\ has_write (wait_events o) = true);
  cs_recv : if rb then recv_state o = RECV_STATE_BUSY /\ (is_hupd o = false -> has_read (wait_events o) = true -> err = true)
    else recv_state o = RECV_STATE_BUSY ->
      J_ERROR ∈ v_jobs v \/ (is_hupd o = false /\ has_read (wait_events o) = true) \/ J_RECV ∈ v_jobs v;
}.

Definition con_inv (v : view) (o : option connection) (err : bool) : Prop :=
  match o with
  | Some o => con_at false false v o err
  | None =>
      v_fds v !! B_CON = None /\ v_limits v !! L_SEND = None /\ v_limits v !! L_RECV = None /\
      (forall j, j = J_SEND \/ j = J_RECV \/ j = J_ERROR -> v_init v !! j = None /\ j ∉ v_jobs v)
  end.

(** Nothing else of this component is in the loop. *)
Record rest_inv (v : view) (jobs : gset Z) : Prop := mk_rest {
  re_fds p : p <> B_LIS -> p <> B_CTR -> p <> B_CON -> v_fds v !! p = None;
  re_limits l : l <> L_SEND -> l <> L_RECV -> v_limits v !! l = None;
  re_init j : own_job j = false -> is_Some (v_init v !! j) <-> j ∈ jobs;
  re_own j : j ∈ jobs -> own_job j = false;
}.

(** The descriptors that the objects own. *)
Definition owned_lis (l : option listener) : list Z := match l with Some l => [l_fd l] | None => [] end.
Definition owned_ctr (c : option connector) : list Z := match c with Some c => if c_fd c =? -1 then [] else [c_fd c] | None => [] end.
Definition owned_con (o : option connection) : list Z := match o with Some o => if close_fd o then [fd o] else [] | None => [] end.
Definition owned (s : sys) : list Z := owned_lis (listener_ s) ++ owned_ctr (connector_ s) ++ owned_con (con s).

Record fds_inv (s : sys) : Prop := mk_fds_inv {
  fi_open f : f ∈ open_fds s <-> f ∈ user_fds s \/ f ∈ owned s;
  fi_nodup : NoDup (owned s);
  fi_user f : f ∈ user_fds s -> f ∉ owned s;
  fi_pipe o : con s = Some o -> close_fd o = false -> fd o ∈ user_fds s;
  fi_nonneg f : f ∈ open_fds s -> 0 <= f;
}.

Record inv_at (v : view) (s : sys) : Prop := mk_inv_at {
  i_rep : el_rep (loop s) v;
  i_lis : lis_inv v (listener_ s);
  i_ctr : ctr_inv v (connector_ s) (reported s);
  i_con : con_inv v (con s) (err_pending s);
  i_rest : rest_inv v (user_jobs s);
  i_fds : fds_inv s;
}.
Definition inv (s : sys) : Prop := exists v, inv_at v s.

(** ** The loop, from a handler *)

Definition is_loop (o : out) : bool := match o with Loop _ => true | _ => false end.
(** What a handler did besides its calls of the loop. *)
Abbreviation acts := (acts_of is_loop).

Lemma on_loop_wp {A} (m : M R el_out A) s (P : A -> R -> Prop) (Q : A -> sys -> list out -> Prop) :
  wp m (loop s) (fun a r _ => P a r) -> (forall a r tr, P a r -> acts tr = [] -> Q a (set_loop r s) tr) -> wp (on_loop m) s Q.
Proof. apply embed_loop_wp. by intros. Qed.

Lemma wp_the {V} (pr : sys -> option V) s x (Q : V -> sys -> list out -> Prop) : pr s = Some x -> Q x s [] -> wp (the pr) s Q.
Proof. intros Hx HQ. unfold the. do 2 wp_step. rewrite Hx. by wp_step. Qed.

Lemma wp_upd_con f s o (Q : unit -> sys -> list out -> Prop) : con s = Some o -> Q tt (set_con (Some (f o)) s) [] -> wp (upd_con f) s Q.
Proof. intros Ho HQ. unfold upd_con. wp_step. eapply wp_the; [exact Ho|]. by wp_step. Qed.

Lemma wp_use_fd f s (Q : unit -> sys -> list out -> Prop) : f ∈ open_fds s -> Q tt s [] -> wp (use_fd f) s Q.
Proof. intros Hf HQ. unfold use_fd. do 2 wp_step. rewrite bool_decide_true by done. by wp_step. Qed.

(** The parts of a view that the connection does not touch. *)
Record con_frame (v v' : view) : Prop := mk_con_frame {
  cf_user : v_user v' = v_user v;
  cf_fds p : p <> B_CON -> v_fds v' !! p = v_fds v !! p;
  cf_limits l : l <> L_SEND -> l <> L_RECV -> v_limits v' !! l = v_limits v !! l;
  cf_init j : j <> J_SEND -> j <> J_RECV -> j <> J_ERROR -> v_init v' !! j = v_init v !! j;
  cf_jobs j : j <> J_SEND -> j <> J_RECV -> j <> J_ERROR -> j ∈ v_jobs v' <-> j ∈ v_jobs v;
}.

Lemma con_frame_refl v : con_frame v v.
Proof. by split. Qed.

Lemma con_frame_trans v1 v2 v3 : con_frame v1 v2 -> con_frame v2 v3 -> con_frame v1 v3.
Proof.
  intros [U1 F1 L1 N1 J1] [U2 F2 L2 N2 J2]. split; intros; [by rewrite U2 | by rewrite F2, F1 | by rewrite L2, L1 | by rewrite N2, N1 | by rewrite J2, J1].
Qed.

Lemma con_frame_fds v f : (forall p, p <> B_CON -> f (v_fds v) !! p = v_fds v !! p) -> con_frame v (up_fds f v).
Proof. intros Hf. by split. Qed.

Lemma con_frame_limit v l x : l = L_SEND \/ l = L_RECV -> con_frame v (up_limits <[l := x]> v).
Proof. intros Hl. split; try done. intros l' H1 H2. cbn. rewrite lookup_insert_ne; [done|]. naive_solver. Qed.

Lemma con_frame_init v f : (forall j, j <> J_SEND -> j <> J_RECV -> j <> J_ERROR -> f (v_init v) !! j = v_init v !! j) -> con_frame v (up_init f v).
Proof. intros Hf. by split. Qed.

Lemma con_frame_set v j : j = J_RECV \/ j = J_ERROR -> con_frame v (up_jobs (fun l => j :: BPending.job_remove j l) v).
Proof.
  intros Hj. split; try done. intros i H1 H2 H3. cbn. rewrite elem_of_cons, BPending.elem_of_job_remove.
  assert (i <> j) by (destruct Hj; congruence). tauto.
Qed.

Lemma con_frame_free v j : j = J_SEND \/ j = J_RECV \/ j = J_ERROR -> con_frame v (up_init (delete j) (up_jobs (BPending.job_remove j) v)).
Proof.
  intros Hj. split; try done.
  - intros i H1 H2 H3. cbn. rewrite lookup_delete_ne; [done|]. naive_solver.
  - intros i H1 H2 H3. cbn. rewrite BPending.elem_of_job_remove. assert (i <> j) by naive_solver. tauto.
Qed.

#[local] Hint Resolve con_frame_refl con_frame_limit con_frame_set con_frame_free : frame.

(** ** Steps of the connection's handlers *)

Section Steps.
Context (s : sys) (v : view) (o : connection) (Hrep : el_rep (loop s) v) (Huser : v_user v = true) (Hcon : con s = Some o).

Lemma assert_no_error_wp (Q : unit -> sys -> list out -> Prop) :
  is_Some (v_init v !! J_ERROR) -> J_ERROR ∉ v_jobs v ->
  (forall r tr, el_rep r v -> acts tr = [] -> Q tt (set_loop r s) tr) -> wp DebugError_AssertNoError s Q.
Proof.
  intros Hi Hj HQ. unfold DebugError_AssertNoError. wp_step. eapply on_loop_wp; [by apply el_job_is_set_spec|].
  cbn beta. intros b r tr [-> Rv] Ha. wp_step; [by rewrite bool_decide_false|]. rewrite app_nil_r. by apply HQ.
Qed.

Lemma con_events_wp w (Q : unit -> sys -> list out -> Prop) :
  is_hupd o = false -> v_fds v !! B_CON = Some (fd o, wait_events o) -> 0 <= w <= 3 ->
  (forall r tr, el_rep r (up_fds <[B_CON := (fd o, w)]> v) -> acts tr = [] -> Q tt (set_con (Some (set_wait_events w o)) (set_loop r s)) tr) ->
  wp (set_events w) s Q.
Proof.
  intros Hh Hf Hw HQ. unfold set_events. wp_step. eapply wp_upd_con; [exact Hcon|].
  eapply on_loop_wp; [by eapply el_events_spec|]. cbn beta. intros [] r tr Rv Ha. by apply HQ.
Qed.

Lemma wait_for_wp e (Q : unit -> sys -> list out -> Prop) :
  is_hupd o = false -> v_fds v !! B_CON = Some (fd o, wait_events o) -> 0 <= wait_events o <= 3 -> 0 <= e <= 3 ->
  (forall r tr, el_rep r (up_fds <[B_CON := (fd o, Z.lor (wait_events o) e)]> v) -> acts tr = [] ->
    Q tt (set_con (Some (set_wait_events (Z.lor (wait_events o) e) o)) (set_loop r s)) tr) ->
  wp (wait_for e) s Q.
Proof.
  intros Hh Hf Hw He HQ. unfold wait_for. wp_step. eapply wp_the; [exact Hcon|]. apply con_events_wp; [done | done | by apply wait_range_lor | done].
Qed.

Lemma limit_ok_wp l n c (Q : bool -> sys -> list out -> Prop) :
  v_limits v !! l = Some (n, c) ->
  (forall r b v' tr, el_rep r v' -> v' = v \/ v' = up_limits <[l := (n, c + 1)]> v -> (is_hupd o = true -> b = true) -> acts tr = [] ->
    Q b (set_loop r s) tr) ->
  wp (limit_ok l) s Q.
Proof.
  intros Hl HQ. unfold limit_ok. wp_step. eapply wp_the; [exact Hcon|]. destruct (is_hupd o) eqn:Hh.
  - wp_step. assert (E : set_loop (loop s) s = s) by (by destruct s). rewrite <- E. apply (HQ _ true v); auto.
  - eapply on_loop_wp; [by eapply el_limit_inc_spec|]. cbn beta. intros b r tr [_ Rv] Ha. refine (HQ r b _ tr Rv _ _ Ha); [|done].
    destruct b; auto.
Qed.
End Steps.

Lemma report_error_wp s v o (Q : unit -> sys -> list out -> Prop) :
  el_rep (loop s) v -> v_user v = true -> con s = Some o -> is_Some (v_init v !! J_ERROR) -> J_ERROR ∉ v_jobs v ->
  (forall r tr, el_rep r (up_jobs (fun l => J_ERROR :: BPending.job_remove J_ERROR l) v) ->
    acts tr = [Connection_Handler (handlers o) BCONNECTION_EVENT_ERROR] -> Q tt (set_loop r s) tr) ->
  wp connection_report_error s Q.
Proof.
  intros Rv Hu Ho Hi Hj HQ. unfold connection_report_error. wp_step. eapply assert_no_error_wp; [done..|]. intros r1 tr1 R1 A1.
  wp_step. eapply on_loop_wp; [by apply el_job_is_set_spec|]. cbn beta. intros b r2 tr2 [-> R2] A2.
  do 2 wp_step; [by rewrite bool_decide_false|]. wp_step. eapply on_loop_wp; [by apply el_job_set_spec|]. cbn beta. intros [] r3 tr3 R3 A3.
  wp_step. eapply wp_the; [exact Ho|]. wp_step. apply HQ; [done|]. by rewrite !acts_app, A1, A2, A3.
Qed.
(** ** What the steps keep *)

Lemma con_at_limits sb rb v o err l c : l = L_SEND \/ l = L_RECV -> con_at sb rb v o err -> con_at sb rb (up_limits <[l := (2, c)]> v) o err.
Proof.
  intros Hl [C1 [c1 C2] [c2 C3] C4 C5 C6 C7 C8 C9 C10 C11 C12 C13 C14]. split; try done; cbn; destruct Hl as [-> | ->].
  1, 4: rewrite lookup_insert_eq; eauto.
  all: rewrite lookup_insert_ne by done; eauto.
Qed.

Lemma con_at_limit_ok sb rb v o err l c v' : l = L_SEND \/ l = L_RECV -> con_at sb rb v o err ->
  v' = v \/ v' = up_limits <[l := (2, c + 1)]> v ->
  con_at sb rb v' o err /\ con_frame v v' /\ v_user v' = v_user v /\ v_fds v' = v_fds v /\ v_jobs v' = v_jobs v.
Proof.
  intros Hl C [-> | ->]; [by auto with frame|]. split; [by apply con_at_limits|]. split; [auto with frame | done].
Qed.

(** An error was reported. *)
Lemma con_at_failed sb rb v o err : con_at sb rb v o err -> con_at false false (up_jobs (fun l => J_ERROR :: BPending.job_remove J_ERROR l) v) o err.
Proof.
  intros [C1 C2 C3 C4 C5 C6 C7 C8 C9 C10 C11 C12 C13 C14]. split; try done; cbn.
  - rewrite elem_of_cons, BPending.elem_of_job_remove. naive_solver.
  - rewrite elem_of_cons, BPending.elem_of_job_remove. naive_solver.
  - intros _. left. by left.
  - intros _. left. by left.
Qed.

Lemma con_at_wait_write v o err (w := Z.lor (wait_events o) Reactor.BREACTOR_WRITE) : is_hupd o = false -> con_at true false v o err ->
  con_at false false (up_fds <[B_CON := (fd o, w)]> v) (set_wait_events w o) err.
Proof.
  intros Hh [C1 C2 C3 C4 C5 C6 C7 C8 C9 C10 C11 C12 [C13 C13'] C14]. unfold w. split; try done; cbn.
  - by rewrite Hh, lookup_insert_eq.
  - by apply wait_range_lor.
  - by rewrite has_read_lor, orb_false_r.
  - by rewrite has_read_lor, orb_false_r.
  - rewrite has_write_lor, orb_true_r. auto.
  - by rewrite has_read_lor, orb_false_r.
Qed.

Lemma con_at_sent v o : con_at true false v o false -> con_at false false v (set_send_state SEND_STATE_READY o) false.
Proof.
  intros [C1 C2 C3 C4 C5 C6 C7 C8 C9 C10 C11 C12 [C13 C13'] C14]. rewrite C13 in C5. split; try done; cbn.
  - unfold SEND_STATE_READY. lia.
  - intros Hh Hw. by specialize (C13' Hh Hw).
Qed.

Lemma con_at_wait_read v o err (w := Z.lor (wait_events o) Reactor.BREACTOR_READ) : is_hupd o = false -> con_at false true v o err -> J_RECV ∉ v_jobs v ->
  con_at false false (up_fds <[B_CON := (fd o, w)]> v) (set_wait_events w o) err.
Proof.
  intros Hh [C1 C2 C3 C4 C5 C6 C7 C8 C9 C10 C11 C12 C13 [C14 C14']] Hj. unfold w. split; try done; cbn.
  - by rewrite Hh, lookup_insert_eq.
  - by apply wait_range_lor.
  - by rewrite has_write_lor, orb_false_r.
  - by rewrite has_write_lor, orb_false_r.
  - rewrite has_read_lor, orb_true_r. auto.
Qed.

Lemma con_at_received v o n : n = RECV_STATE_READY \/ n = RECV_STATE_INITED_CLOSED -> J_RECV ∉ v_jobs v -> con_at false true v o false ->
  con_at false false v (set_recv_state n o) false.
Proof.
  intros Hn Hj [C1 C2 C3 C4 C5 C6 C7 C8 C9 C10 C11 C12 C13 [C14 C14']]. rewrite C14 in C6. split; try done; cbn.
  - by destruct Hn as [-> | ->].
  - destruct Hn as [-> | ->]; unfold RECV_STATE_READY, RECV_STATE_INITED_CLOSED; lia.
  - intros Hh Hw. by specialize (C14' Hh Hw).
  - by destruct Hn as [-> | ->].
Qed.

(** ** Sending and receiving *)

(** What came of a write of the data [send_data o], and of a read. *)
Inductive send_res (o : connection) : connection -> list out -> Prop :=
  | SR_wait w : send_res o (set_wait_events w o) []
  | SR_done n : send_state o = SEND_STATE_BUSY -> 0 < n <= zlen (send_data o) ->
      send_res o (set_send_state SEND_STATE_READY o) [Write (fd o) (mread (send_data o) 0 n); Send_Done n]
  | SR_error : send_res o o [Connection_Handler (handlers o) BCONNECTION_EVENT_ERROR].

Inductive recv_res (o : connection) : connection -> list out -> Prop :=
  | RR_wait w : recv_res o (set_wait_events w o) []
  | RR_done d : recv_state o = RECV_STATE_BUSY -> 0 < zlen d <= recv_avail o -> recv_res o (set_recv_state RECV_STATE_READY o) [Read (fd o) d; Recv_Done (zlen d)]
  | RR_closed : recv_state o = RECV_STATE_BUSY -> recv_res o (set_recv_state RECV_STATE_INITED_CLOSED o)
      [Read (fd o) []; Connection_Handler (handlers o) BCONNECTION_EVENT_RECVCLOSED]
  | RR_error : recv_res o o [Connection_Handler (handlers o) BCONNECTION_EVENT_ERROR].

Definition write_ok (k : kernel) (len : Z) : bool := match k_write k with W_bytes n => (0 <? n) && (n <=? len) | _ => true end.
Definition read_ok (k : kernel) (avail : Z) : bool := match k_read k with R_bytes data => zlen data <=? avail | _ => true end.

(** The end of a step of the connection: the loop and the connection have changed. *)
Definition con_step (v : view) (s : sys) (P : connection -> list out -> Prop) (Q : unit -> sys -> list out -> Prop) : Prop :=
  forall r v' o' tr, el_rep r v' -> con_frame v v' -> con_at false false v' o' (err_pending s) -> P o' (acts tr) ->
    Q tt (set_con (Some o') (set_loop r s)) tr.

(** What the handlers end with: waiting for the descriptor, or the report of an error. *)
Lemma wait_step_wp s r v v2 o sb rb w (P : connection -> list out -> Prop) (Q : unit -> sys -> list out -> Prop) :
  el_rep r v2 -> v_user v2 = true -> con s = Some o -> con_at sb rb v2 o (err_pending s) -> is_hupd o = false -> con_frame v v2 ->
  0 <= w <= 3 -> (let o' := set_wait_events (Z.lor (wait_events o) w) o in
    con_at false false (up_fds <[B_CON := (fd o, Z.lor (wait_events o) w)]> v2) o' (err_pending s) /\ P o' []) ->
  con_step v s P Q -> wp (wait_for w) (set_loop r s) Q.
Proof.
  intros Rv Hu Ho C Hh F Hw [C' HP] HQ.
  eapply (wait_for_wp _ v2 o); [done | done | done | done | rewrite (cs_fd _ _ _ _ _ C), Hh; done | apply C | done |].
  intros r3 tr3 R3 A3. refine (HQ r3 _ _ _ R3 _ C' _); [|by rewrite A3].
  eapply con_frame_trans; [exact F|]. apply con_frame_fds. intros p Hp. by apply lookup_insert_ne.
Qed.

Lemma error_step_wp s r v v2 o sb rb (P : connection -> list out -> Prop) (Q : unit -> sys -> list out -> Prop) :
  el_rep r v2 -> v_user v2 = true -> con s = Some o -> con_at sb rb v2 o (err_pending s) -> J_ERROR ∉ v_jobs v2 -> con_frame v v2 ->
  P o [Connection_Handler (handlers o) BCONNECTION_EVENT_ERROR] ->
  con_step v s P Q -> wp connection_report_error (set_loop r s) Q.
Proof.
  intros Rv Hu Ho C Hj F HP HQ. eapply (report_error_wp _ v2 o); [done | done | done | by rewrite (cs_error _ _ _ _ _ C) | done |].
  intros r3 tr3 R3 A3. replace (set_loop r3 (set_loop r s)) with (set_con (Some o) (set_loop r3 s)) by (destruct s; cbn in *; by subst).
  refine (HQ r3 _ _ _ R3 _ (con_at_failed _ _ _ _ _ C) _); [|by rewrite A3].
  eapply con_frame_trans; [exact F | auto with frame].
Qed.

(** The outputs before the last step are calls of the loop. *)
Ltac later HQ := let A := fresh in intros ? ? ? ? ? ? ? A; eapply HQ; [eassumption.. | by rewrite !acts_app; simplify_eq/=; repeat match goal with E : acts _ = [] |- _ => rewrite E end].

Lemma bconnection_send_wp k s v o (Q : unit -> sys -> list out -> Prop) :
  el_rep (loop s) v -> v_user v = true -> con s = Some o -> con_at true false v o (err_pending s) -> J_ERROR ∉ v_jobs v ->
  fd o ∈ open_fds s -> write_ok k (zlen (send_data o)) = true ->
  con_step v s (send_res o) Q -> wp (connection_send k) s Q.
Proof.
  intros Rv Hu Ho C Hj Hf Hk HQ. pose proof (cs_error _ _ _ _ _ C) as He. assert (Hi : is_Some (v_init v !! J_ERROR)) by (by rewrite He).
  unfold connection_send. wp_step. eapply assert_no_error_wp; [done..|]. intros r1 tr1 R1 A1.
  wp_step. eapply wp_the; [exact Ho|]. do 2 wp_step; [apply Z.eqb_eq, (cs_send _ _ _ _ _ C)|].
  destruct (cs_send_limit _ _ _ _ _ C) as [c Hl].
  wp_step. eapply (limit_ok_wp _ v o); [done | done | done | exact Hl|]. intros r2 b v2 tr2 R2 Hv2 Hb A2.
  destruct (con_at_limit_ok _ _ _ _ _ L_SEND c v2 (or_introl eq_refl) C Hv2) as (C2 & F2 & U2 & E2 & J2). rewrite Hu in U2. rewrite <- J2 in Hj.
  change (set_loop r2 (set_loop r1 s)) with (set_loop r2 s).
  assert (Hw : forall (Hh : is_hupd o = false), let w := Z.lor (wait_events o) Reactor.BREACTOR_WRITE in
    con_at false false (up_fds <[B_CON := (fd o, w)]> v2) (set_wait_events w o) (err_pending s) /\ send_res o (set_wait_events w o) []).
  { intros Hh. split; [by apply con_at_wait_write | constructor]. }
  destruct b; cbn [negb].
  - unfold sys_write. wp_step. wp_step. eapply wp_use_fd; [done|]. do 2 wp_step. wp_step.
    destruct (err_pending (set_loop r2 s)) eqn:Hp; [eapply (error_step_wp _ _ v v2 o _ _ (send_res o)); [done..|constructor|]; later HQ|]. change (err_pending s = false) in Hp.
    destruct (k_write k) as [n| |] eqn:Hk'.
    + unfold write_ok in Hk. rewrite Hk' in Hk. do 2 wp_step. do 2 wp_step; [lia|]. do 2 wp_step; [lia|].
      wp_step. eapply wp_upd_con; [exact Ho|]. wp_step. rewrite Hp in *.
      refine (HQ r2 v2 _ _ R2 F2 _ _); [rewrite Hp; by apply con_at_sent|].
      rewrite !acts_app, A1, A2. constructor; [apply (cs_send _ _ _ _ _ C) | lia].
    + destruct (is_hupd o) eqn:Hh; cbn [negb].
      * eapply (error_step_wp _ _ v v2 o _ _ (send_res o)); [done..|constructor|]. later HQ.
      * eapply (wait_step_wp _ _ v v2 o _ _ _ (send_res o)); [done..| by apply Hw|]. later HQ.
    + eapply (error_step_wp _ _ v v2 o _ _ (send_res o)); [done..|constructor|]. later HQ.
  - destruct (is_hupd o) eqn:Hh; [by specialize (Hb eq_refl)|]. eapply (wait_step_wp _ _ v v2 o _ _ _ (send_res o)); [done..| by apply Hw|]. later HQ.
Qed.
Lemma connection_recv_wp k s v o (Q : unit -> sys -> list out -> Prop) :
  el_rep (loop s) v -> v_user v = true -> con s = Some o -> con_at false true v o (err_pending s) ->
  J_ERROR ∉ v_jobs v -> J_RECV ∉ v_jobs v -> fd o ∈ open_fds s -> read_ok k (recv_avail o) = true ->
  con_step v s (recv_res o) Q -> wp (connection_recv k) s Q.
Proof.
  intros Rv Hu Ho C Hj Hjr Hf Hk HQ. pose proof (cs_error _ _ _ _ _ C) as He. assert (Hi : is_Some (v_init v !! J_ERROR)) by (by rewrite He).
  unfold connection_recv. wp_step. eapply assert_no_error_wp; [done..|]. intros r1 tr1 R1 A1.
  wp_step. eapply wp_the; [exact Ho|]. do 2 wp_step; [apply Z.eqb_eq, (cs_recv _ _ _ _ _ C)|].
  destruct (cs_recv_limit _ _ _ _ _ C) as [c Hl].
  wp_step. eapply (limit_ok_wp _ v o); [done | done | done | exact Hl|]. intros r2 b v2 tr2 R2 Hv2 Hb A2.
  destruct (con_at_limit_ok _ _ _ _ _ L_RECV c v2 (or_intror eq_refl) C Hv2) as (C2 & F2 & U2 & E2 & J2). rewrite Hu in U2. rewrite <- J2 in Hj, Hjr.
  change (set_loop r2 (set_loop r1 s)) with (set_loop r2 s).
  assert (Hw : forall (Hh : is_hupd o = false), let w := Z.lor (wait_events o) Reactor.BREACTOR_READ in
    con_at false false (up_fds <[B_CON := (fd o, w)]> v2) (set_wait_events w o) (err_pending s) /\ recv_res o (set_wait_events w o) []).
  { intros Hh. split; [by apply con_at_wait_read | constructor]. }
  destruct b; cbn [negb].
  - unfold sys_read. wp_step. wp_step. eapply wp_use_fd; [done|]. do 2 wp_step. wp_step.
    destruct (err_pending (set_loop r2 s)) eqn:Hp; [eapply (error_step_wp _ _ v v2 o _ _ (recv_res o)); [done..|constructor|]; later HQ|]. change (err_pending s = false) in Hp.
    destruct (k_read k) as [d| |] eqn:Hk'.
    + unfold read_ok in Hk. rewrite Hk' in Hk. do 2 wp_step. rewrite Hp in C2. pose proof (zlen_nonneg d). destruct (Z.eqb_spec (zlen d) 0) as [E|E].
      * wp_step. eapply wp_upd_con; [exact Ho|]. wp_step. apply zlen_0_nil in E as ->.
        refine (HQ r2 v2 _ _ R2 F2 _ _); [rewrite Hp; apply con_at_received; auto|]. rewrite !acts_app, A1, A2. constructor. apply (cs_recv _ _ _ _ _ C).
      * do 2 wp_step; [lia|]. do 2 wp_step; [lia|]. wp_step. eapply wp_upd_con; [exact Ho|]. wp_step.
        refine (HQ r2 v2 _ _ R2 F2 _ _); [rewrite Hp; apply con_at_received; auto|]. rewrite !acts_app, A1, A2. constructor; [apply (cs_recv _ _ _ _ _ C) | lia].
    + destruct (is_hupd o) eqn:Hh; cbn [negb].
      * eapply (error_step_wp _ _ v v2 o _ _ (recv_res o)); [done..|constructor|]. later HQ.
      * eapply (wait_step_wp _ _ v v2 o _ _ _ (recv_res o)); [done..| by apply Hw|]. later HQ.
    + eapply (error_step_wp _ _ v v2 o _ _ (recv_res o)); [done..|constructor|]. later HQ.
  - destruct (is_hupd o) eqn:Hh; [by specialize (Hb eq_refl)|]. eapply (wait_step_wp _ _ v v2 o _ _ _ (recv_res o)); [done..| by apply Hw|]. later HQ.
Qed.
(** ** Events of the descriptor *)

(** The connection and the view when the events are noted. *)
Definition noted (events : Z) (o : connection) : connection :=
  let o := set_wait_events (Z.land (wait_events o) (Z.lnot events)) o in
  if has_event events Reactor.BREACTOR_HUP then set_hupd o else o.
Definition noted_view (events : Z) (o : connection) (v : view) : view :=
  let v := up_fds <[B_CON := (fd o, Z.land (wait_events o) (Z.lnot events))]> v in
  if has_event events Reactor.BREACTOR_HUP then up_fds (delete B_CON) v else v.

Lemma con_at_noted v o err events : con_at false false v o err -> is_hupd o = false -> v_jobs v = [] -> events_ok (wait_events o) events = true ->
  (has_event events Reactor.BREACTOR_ERROR = true -> has_event events Reactor.BREACTOR_HUP = false -> err = true) ->
  con_at (have_send events o) (have_recv events o) (noted_view events o v) (noted events o) err.
Proof.
  intros [C1 C2 C3 C4 C5 C6 C7 C8 C9 C10 C11 C12 C13 C14] Hh Hj He Hp. destruct (events_waited _ _ He) as [Hr Hw].
  assert (Hor : has_event events BREACTOR_ERROR_HUP = has_event events Reactor.BREACTOR_ERROR || has_event events Reactor.BREACTOR_HUP) by apply has_event_lor.
  assert (Hsend : have_send events o = true -> send_state o = SEND_STATE_BUSY).
  { unfold have_send. fold (has_write events). rewrite orb_true_iff, andb_true_iff, Z.eqb_eq. naive_solver. }
  assert (Hrecv : have_recv events o = true -> recv_state o = RECV_STATE_BUSY).
  { unfold have_recv. fold (has_read events). rewrite orb_true_iff, andb_true_iff, Z.eqb_eq. naive_solver. }
  unfold noted, noted_view. rewrite Hh, Hj in *. split; destruct (has_event events Reactor.BREACTOR_HUP) eqn:Ehup; cbn; rewrite ?Hh, ?Hj; try done.
  all: try apply wait_range_land; try done.
  all: rewrite ?has_read_clear, ?has_write_clear.
  - by rewrite lookup_delete_eq.
  - by rewrite lookup_insert_eq.
  - by intros ?%elem_of_nil.
  - by intros ?%elem_of_nil.
  - intros _ [? _]%andb_true_iff. auto.
  - intros _ [? _]%andb_true_iff. auto.
  - destruct (have_send events o) eqn:Es; [by split; [apply Hsend|]|]. intros Hs. unfold have_send in Es; fold (has_write events) in Es. rewrite Hor, Hs in Es. by destruct (has_write events), (has_event events Reactor.BREACTOR_ERROR).
  - destruct (have_send events o) eqn:Es.
    + split; [auto|]. intros _ [Hw1 Hw2%negb_true_iff]%andb_true_iff. unfold have_send in Es; fold (has_write events) in Es. rewrite Hw2, Hor, orb_false_r in Es. apply andb_true_iff in Es as [Es _]. auto.
    + intros Hs. right. split; [done|]. unfold have_send in Es; fold (has_write events) in Es. apply orb_false_iff in Es as [-> _]. rewrite andb_true_r.
      destruct (C13 Hs) as [?%elem_of_nil|[_ ?]]; done.
  - destruct (have_recv events o) eqn:Es; [by split; [apply Hrecv|]|]. intros Hs. unfold have_recv in Es; fold (has_read events) in Es. rewrite Hor, Hs in Es. by destruct (has_read events), (has_event events Reactor.BREACTOR_ERROR).
  - destruct (have_recv events o) eqn:Es.
    + split; [auto|]. intros _ [Hw1 Hw2%negb_true_iff]%andb_true_iff. unfold have_recv in Es; fold (has_read events) in Es. rewrite Hw2, Hor, orb_false_r in Es. apply andb_true_iff in Es as [Es _]. auto.
    + intros Hs. right. left. split; [done|]. unfold have_recv in Es; fold (has_read events) in Es. apply orb_false_iff in Es as [-> _]. rewrite andb_true_r.
      destruct (C14 Hs) as [?%elem_of_nil|[[_ ?]|?%elem_of_nil]]; done.
Qed.
Lemma con_at_recv_job v o err : con_at true true v o err -> con_at true false (up_jobs (fun l => J_RECV :: BPending.job_remove J_RECV l) v) o err.
Proof.
  intros [C1 C2 C3 C4 C5 C6 C7 C8 C9 C10 C11 C12 C13 C14]. split; try done; cbn.
  - rewrite elem_of_cons, BPending.elem_of_job_remove. naive_solver.
  - intros _. right. right. by left.
Qed.

Lemma noted_frame events o v : con_frame v (noted_view events o v).
Proof.
  unfold noted_view. eapply con_frame_trans; [apply con_frame_fds; intros p Hp; by apply lookup_insert_ne|].
  destruct (has_event events Reactor.BREACTOR_HUP); [|apply con_frame_refl]. apply con_frame_fds. intros p Hp. by apply lookup_delete_ne.
Qed.

Lemma noted_same events o : fd (noted events o) = fd o /\ send_data (noted events o) = send_data o /\ recv_avail (noted events o) = recv_avail o /\
  send_state (noted events o) = send_state o /\ recv_state (noted events o) = recv_state o /\ handlers (noted events o) = handlers o.
Proof. unfold noted. by destruct (has_event events Reactor.BREACTOR_HUP). Qed.

(** What comes of an event: a write or a read, an error, or after a hang-up, nothing. *)
Inductive fd_res (events : Z) (o : connection) : connection -> list out -> Prop :=
  | FR_send o' l : have_send events o = true -> send_res (noted events o) o' l -> fd_res events o o' l
  | FR_recv o' l : have_send events o = false -> have_recv events o = true -> recv_res (noted events o) o' l -> fd_res events o o' l
  | FR_error : have_send events o = false -> have_recv events o = false -> has_event events Reactor.BREACTOR_HUP = false ->
      fd_res events o (noted events o) [Connection_Handler (handlers o) BCONNECTION_EVENT_ERROR]
  | FR_hup : have_send events o = false -> have_recv events o = false -> has_event events Reactor.BREACTOR_HUP = true -> fd_res events o (noted events o) [].

Lemma have_noted events o : have_send events (noted events o) = have_send events o /\ have_recv events (noted events o) = have_recv events o.
Proof. destruct (noted_same events o) as (_ & _ & _ & Es & Er & _). unfold have_send, have_recv. by rewrite Es, Er. Qed.

Lemma handle_events_wp k s v o0 events (o := noted events o0) (Q : unit -> sys -> list out -> Prop) :
  el_rep (loop s) v -> v_user v = true -> con s = Some o -> con_at (have_send events o0) (have_recv events o0) v o (err_pending s) ->
  is_hupd o0 = false -> v_jobs v = [] -> fd o ∈ open_fds s -> write_ok k (zlen (send_data o)) = true -> read_ok k (recv_avail o) = true ->
  con_step v s (fd_res events o0) Q -> wp (handle_events events k) s Q.
Proof.
  intros Rv Hu Ho C Hh0 Hj Hf Hkw Hkr HQ. destruct (have_noted events o0) as [Es Er].
  assert (Hn : forall j, j ∉ v_jobs v) by (intros j; rewrite Hj; by intros ?%elem_of_nil).
  unfold handle_events. wp_step. eapply wp_the; [exact Ho|]. cbn beta. fold o in Es, Er. rewrite Es, Er.
  destruct (have_send events o0) eqn:Hs; wp_step.
  - wp_step; [apply Z.eqb_eq, (cs_send _ _ _ _ _ C)|]. wp_step. destruct (have_recv events o0) eqn:Hr.
    + wp_step; [apply Z.eqb_eq, (cs_recv _ _ _ _ _ C)|]. wp_step.
      assert (Hrb : recv_state o = RECV_STATE_BUSY) by apply (cs_recv _ _ _ _ _ C).
      eapply on_loop_wp; [apply el_job_set_spec; [exact Rv | done | rewrite (cs_recv_init _ _ _ _ _ C), Hrb; done]|]. cbn beta. intros [] r tr R' A.
      eapply (bconnection_send_wp k (set_loop r s)); [exact R' | done | exact Ho | by apply con_at_recv_job | | done | done |].
      { cbn. rewrite Hj. by intros [|[]%elem_of_nil]%elem_of_cons. }
      intros r2 v2 o2 tr2 R2 F2 C2 HP. refine (HQ r2 v2 o2 _ R2 _ C2 _); [eapply con_frame_trans; [apply (con_frame_set v J_RECV); by left | exact F2]|].
      rewrite !acts_app, A. by apply FR_send.
    + do 2 wp_step. eapply (bconnection_send_wp k s); try done.
      intros r2 v2 o2 tr2 R2 F2 C2 HP. refine (HQ r2 v2 o2 _ R2 F2 C2 _). by apply FR_send.
  - wp_step. wp_step. destruct (have_recv events o0) eqn:Hr.
    + wp_step; [apply Z.eqb_eq, (cs_recv _ _ _ _ _ C)|]. eapply (connection_recv_wp k s); try done.
      intros r2 v2 o2 tr2 R2 F2 C2 HP. refine (HQ r2 v2 o2 _ R2 F2 C2 _). by apply FR_recv.
    + wp_step. assert (Hh : is_hupd o = has_event events Reactor.BREACTOR_HUP).
      { unfold o, noted. destruct (has_event events Reactor.BREACTOR_HUP); [done | exact Hh0]. }
      destruct (is_hupd o) eqn:Ehup; cbn [negb].
      * wp_step. replace s with (set_con (Some o) (set_loop (loop s) s)) by (destruct s; cbn in *; by subst).
        refine (HQ (loop s) v o [] Rv _ C _); [apply con_frame_refl|]. by apply FR_hup.
      * eapply (report_error_wp s v o); [done | done | done | by rewrite (cs_error _ _ _ _ _ C) | done |]. intros r tr R' A.
        replace (set_loop r s) with (set_con (Some o) (set_loop r s)) by (destruct s; cbn in *; by subst).
        refine (HQ r _ o _ R' _ (con_at_failed _ _ _ _ _ C) _); [apply con_frame_set; by right|].
        rewrite !acts_app, A. destruct (noted_same events o0) as (_ & _ & _ & _ & _ & Eh). cbn [app]. unfold o. rewrite Eh. by apply FR_error.
Qed.

Lemma connection_fd_handler_wp k s v o events (Q : unit -> sys -> list out -> Prop) :
  el_rep (loop s) v -> v_user v = true -> con s = Some o -> con_at false false v o (err_pending s) -> is_hupd o = false ->
  v_jobs v = [] -> events_ok (wait_events o) events = true ->
  (has_event events Reactor.BREACTOR_ERROR = true -> has_event events Reactor.BREACTOR_HUP = false -> err_pending s = true) ->
  fd o ∈ open_fds s -> write_ok k (zlen (send_data o)) = true -> read_ok k (recv_avail o) = true ->
  con_step v s (fd_res events o) Q -> wp (connection_fd_handler events k) s Q.
Proof.
  intros Rv Hu Ho C Hh Hj He Hp Hf Hkw Hkr HQ. pose proof (con_at_noted _ _ _ _ C Hh Hj He Hp) as C1. pose proof (noted_frame events o v) as F1.
  pose proof (cs_error _ _ _ _ _ C) as Hi. assert (Hi' : is_Some (v_init v !! J_ERROR)) by (by rewrite Hi).
  destruct (noted_same events o) as (Ef & Ed & Ea & _).
  unfold connection_fd_handler. wp_step. eapply assert_no_error_wp; [done..|by rewrite Hj; intros ?%elem_of_nil|]. intros r1 tr1 R1 A1.
  wp_step. eapply wp_the; [exact Ho|]. do 2 wp_step; [by rewrite Hh|].
  wp_step. eapply (con_events_wp _ v o); [done | done | done | done | rewrite (cs_fd _ _ _ _ _ C), Hh; done | apply wait_range_land, C |]. intros r2 tr2 R2 A2.
  assert (U : v_user (noted_view events o v) = true) by (by rewrite (cf_user _ _ F1)).
  assert (J : v_jobs (noted_view events o v) = []) by (unfold noted_view; by destruct (has_event events Reactor.BREACTOR_HUP)).
  assert (Hrest : forall r tr, el_rep r (noted_view events o v) -> acts tr = [] ->
    wp (handle_events events k) (set_con (Some (noted events o)) (set_loop r s)) (fun a s' tr' => Q a s' (tr1 ++ tr2 ++ tr ++ tr'))).
  { intros r tr R' A. eapply (handle_events_wp k _ _ o events); [exact R' | done | done | done | done | done | by rewrite Ef | by rewrite Ed | by rewrite Ea |].
    intros r3 v3 o3 tr3 R3 F3 C3 HP. refine (HQ r3 v3 o3 _ R3 _ C3 _); [by eapply con_frame_trans|]. by rewrite !acts_app, A1, A2, A. }
  wp_step. unfold noted, noted_view in Hrest. destruct (has_event events Reactor.BREACTOR_HUP).
  - wp_step. eapply on_loop_wp; [apply el_remove_spec; [exact R2 | done | cbn; rewrite lookup_insert_eq; done]|]. cbn beta. intros [] r3 tr3 R3 A3.
    eapply wp_upd_con; [done|]. rewrite app_nil_r. eapply wp_mono; [exact (Hrest r3 tr3 R3 A3)|]. intros [] s' tr HQ'. exact HQ'.
  - wp_step. eapply wp_mono; [exact (Hrest r2 [] R2 eq_refl)|]. intros [] s' tr HQ'. exact HQ'.
Qed.
(** ** The job and the interfaces *)

Lemma con_at_recv_run v l o err : con_at false false (up_jobs (fun _ => J_RECV :: l) v) o err -> con_at false true (up_jobs (fun _ => l) v) o err.
Proof.
  intros [C1 C2 C3 C4 C5 C6 C7 C8 C9 C10 C11 C12 C13 C14]. cbn in *. assert (Hin : J_RECV ∈ J_RECV :: l) by (by left). split; try done; cbn.
  - intros Hs. apply C9. by right.
  - intros Hr. apply C10. by right.
  - intros Hs. destruct (C13 Hs) as [[|Hj]%elem_of_cons|Hw]; [done | by left | by right].
  - by apply C10.
Qed.

Lemma connection_recv_job_wp k s v o (Q : unit -> sys -> list out -> Prop) :
  el_rep (loop s) v -> v_user v = true -> con s = Some o -> con_at false false (up_jobs (fun _ => J_RECV :: v_jobs v) v) o (err_pending s) ->
  NoDup (J_RECV :: v_jobs v) -> J_ERROR ∉ v_jobs v -> fd o ∈ open_fds s -> read_ok k (recv_avail o) = true ->
  con_step v s (recv_res o) Q -> wp (connection_recv_job_handler k) s Q.
Proof.
  intros Rv Hu Ho C Hn Hj Hf Hk HQ. apply con_at_recv_run in C. replace (up_jobs (fun _ => v_jobs v) v) with v in C by (by destruct v).
  apply NoDup_cons in Hn as [Hjr _]. pose proof (cs_error _ _ _ _ _ C) as He. assert (Hi : is_Some (v_init v !! J_ERROR)) by (by rewrite He).
  unfold connection_recv_job_handler. wp_step. eapply assert_no_error_wp; [done..|]. intros r1 tr1 R1 A1.
  wp_step. eapply wp_the; [exact Ho|]. do 2 wp_step; [apply Z.eqb_eq, (cs_recv _ _ _ _ _ C)|].
  eapply (connection_recv_wp k (set_loop r1 s)); [exact R1 | done..|]. intros r v' o' tr R' F' C' HP.
  refine (HQ r v' o' _ R' F' C' _). by rewrite !acts_app, A1.
Qed.

(** The interfaces start an operation: the other direction is as it was. *)
Definition sending (data : list Z) (o : connection) : connection := set_send_state SEND_STATE_BUSY (set_send_data data o).
Definition receiving (avail : Z) (o : connection) : connection := set_recv_state RECV_STATE_BUSY (set_recv_avail avail o).

Lemma con_at_sending v o err data : con_at false false v o err -> send_state o = SEND_STATE_READY -> con_at true false v (sending data o) err.
Proof.
  intros [C1 C2 C3 C4 C5 C6 C7 C8 C9 C10 C11 C12 C13 C14] Hs. rewrite Hs in C5. split; try done; cbn.
  - unfold SEND_STATE_BUSY. lia.
  - split; [done|]. intros Hh Hw. specialize (C11 Hh Hw). by rewrite Hs in C11.
Qed.

Lemma con_at_receiving v o err avail : con_at false false v o err -> recv_state o = RECV_STATE_READY ->
  J_RECV ∉ v_jobs v /\ con_at false true v (receiving avail o) err.
Proof.
  intros [C1 C2 C3 C4 C5 C6 C7 C8 C9 C10 C11 C12 C13 C14] Hr. rewrite Hr in C6.
  assert (Hj : J_RECV ∉ v_jobs v) by (intros Hj; destruct (C10 Hj) as [E _]; by rewrite Hr in E).
  split; [done|]. split; try done; cbn.
  - unfold RECV_STATE_BUSY. lia.
  - split; [done|]. intros Hh Hw. specialize (C12 Hh Hw). by rewrite Hr in C12.
Qed.

Lemma connection_send_if_wp k s v o data (Q : unit -> sys -> list out -> Prop) :
  el_rep (loop s) v -> v_user v = true -> con s = Some o -> con_at false false v o (err_pending s) -> J_ERROR ∉ v_jobs v ->
  send_state o = SEND_STATE_READY -> 0 < zlen data -> fd o ∈ open_fds s -> write_ok k (zlen data) = true ->
  con_step v s (send_res (sending data o)) Q -> wp (connection_send_if_handler_send data k) s Q.
Proof.
  intros Rv Hu Ho C Hj Hs Hl Hf Hk HQ. pose proof (cs_error _ _ _ _ _ C) as He. assert (Hi : is_Some (v_init v !! J_ERROR)) by (by rewrite He).
  unfold connection_send_if_handler_send. wp_step. eapply assert_no_error_wp; [done..|]. intros r1 tr1 R1 A1.
  wp_step. eapply wp_the; [exact Ho|]. do 2 wp_step; [by rewrite Hs|]. do 2 wp_step; [lia|].
  wp_step. eapply wp_upd_con; [exact Ho|]. wp_step. eapply wp_upd_con; [done|].
  eapply (bconnection_send_wp k _ v (sending data o)); [exact R1 | done | done | by apply con_at_sending | done..|].
  intros r v' o' tr R' F' C' HP. refine (HQ r v' o' _ R' F' C' _). by rewrite !acts_app, A1.
Qed.

Lemma connection_recv_if_wp k s v o avail (Q : unit -> sys -> list out -> Prop) :
  el_rep (loop s) v -> v_user v = true -> con s = Some o -> con_at false false v o (err_pending s) -> J_ERROR ∉ v_jobs v ->
  recv_state o = RECV_STATE_READY -> 0 < avail -> fd o ∈ open_fds s -> read_ok k avail = true ->
  con_step v s (recv_res (receiving avail o)) Q -> wp (connection_recv_if_handler_recv avail k) s Q.
Proof.
  intros Rv Hu Ho C Hj Hs Hl Hf Hk HQ. pose proof (cs_error _ _ _ _ _ C) as He. assert (Hi : is_Some (v_init v !! J_ERROR)) by (by rewrite He).
  destruct (con_at_receiving _ _ _ avail C Hs) as [Hjr C1].
  unfold connection_recv_if_handler_recv. wp_step. eapply assert_no_error_wp; [done..|]. intros r1 tr1 R1 A1.
  wp_step. eapply wp_the; [exact Ho|]. do 2 wp_step; [by rewrite Hs|]. do 2 wp_step; [lia|].
  wp_step. eapply wp_upd_con; [exact Ho|]. wp_step. eapply wp_upd_con; [done|].
  eapply (connection_recv_wp k _ v (receiving avail o)); [exact R1 | done | done | exact C1 | done..|].
  intros r v' o' tr R' F' C' HP. refine (HQ r v' o' _ R' F' C' _). by rewrite !acts_app, A1.
Qed.

(** ** Starting and stopping the two directions *)

Lemma con_at_send_init v o err : con_at false false v o err -> send_state o = SEND_STATE_NOT_INITED ->
  con_at false false (up_init <[J_SEND := (J_SEND, 0)]> v) (set_send_state SEND_STATE_READY o) err.
Proof.
  intros [C1 C2 C3 C4 C5 C6 C7 C8 C9 C10 C11 C12 C13 C14] Hs. split; try done; cbn.
  - by rewrite lookup_insert_ne.
  - by rewrite lookup_insert_eq.
  - by rewrite lookup_insert_ne.
  - unfold SEND_STATE_READY. lia.
  - intros Hh Hw. specialize (C11 Hh Hw). by rewrite Hs in C11.
Qed.

Lemma con_at_recv_init v o err : con_at false false v o err -> recv_state o = RECV_STATE_NOT_INITED ->
  con_at false false (up_init <[J_RECV := (J_RECV, 0)]> v) (set_recv_state RECV_STATE_READY o) err.
Proof.
  intros [C1 C2 C3 C4 C5 C6 C7 C8 C9 C10 C11 C12 C13 C14] Hs.
  assert (Hn : recv_state o <> RECV_STATE_BUSY) by (by rewrite Hs). split; try done; cbn.
  - by rewrite lookup_insert_ne.
  - by rewrite lookup_insert_ne.
  - by rewrite lookup_insert_eq.
  - unfold RECV_STATE_READY. lia.
  - intros Hj. by destruct (C10 Hj).
  - intros Hh Hw. by specialize (C12 Hh Hw).
Qed.

(** [wait_events] without the event, if the descriptor is registered. *)
Definition unwait (e : Z) (o : connection) : connection :=
  if is_hupd o then o else set_wait_events (Z.land (wait_events o) (Z.lnot e)) o.
Definition unwait_view (e : Z) (o : connection) (v : view) : view :=
  if is_hupd o then v else up_fds <[B_CON := (fd o, Z.land (wait_events o) (Z.lnot e))]> v.

Lemma unwait_wp s v o e (Q : unit -> sys -> list out -> Prop) :
  el_rep (loop s) v -> v_user v = true -> con s = Some o -> con_at false false v o (err_pending s) ->
  (forall r tr, el_rep r (unwait_view e o v) -> acts tr = [] -> Q tt (set_con (Some (unwait e o)) (set_loop r s)) tr) ->
  wp (when negb (is_hupd o) do set_events (Z.land (wait_events o) (Z.lnot e))) s Q.
Proof.
  intros Rv Hu Ho C HQ. unfold unwait, unwait_view in HQ. destruct (is_hupd o) eqn:Hh; cbn [negb].
  - wp_step. replace s with (set_con (Some o) (set_loop (loop s) s)) by (destruct s; cbn in *; by subst). by apply HQ.
  - eapply con_events_wp; [done | done | done | done | rewrite (cs_fd _ _ _ _ _ C), Hh; done | apply wait_range_land, C | done].
Qed.

Lemma con_at_send_free v o err : con_at false false v o err ->
  con_at false false (up_init (delete J_SEND) (up_jobs (BPending.job_remove J_SEND) (unwait_view Reactor.BREACTOR_WRITE o v)))
    (set_send_state SEND_STATE_NOT_INITED (unwait Reactor.BREACTOR_WRITE o)) err.
Proof.
  intros [C1 C2 C3 C4 C5 C6 C7 C8 C9 C10 C11 C12 C13 C14].
  unfold unwait, unwait_view. destruct (is_hupd o) eqn:Hh; split; try done; cbn; rewrite ?Hh, ?BPending.elem_of_job_remove.
  all: try (by rewrite lookup_delete_ne); try (by rewrite lookup_delete_eq); try (by rewrite lookup_insert_eq); try (by apply wait_range_land); try tauto.
  all: rewrite ?has_read_clear, ?has_write_clear, ?andb_false_r, ?andb_true_r; try done.
  all: try (unfold SEND_STATE_NOT_INITED; lia).
  - intros Hr. destruct (C14 Hr) as [?|[[? _]|?]]; [left|done|right; right]; by split.
  - intros [_ Hj]. destruct (C10 Hj). split; [done|]. auto.
  - intros Hr. destruct (C14 Hr) as [?|[?|?]]; [left; by split | right; by left | right; right; by split].
Qed.

Lemma con_at_recv_free v o err : con_at false false v o err ->
  con_at false false (up_init (delete J_RECV) (up_jobs (BPending.job_remove J_RECV) (unwait_view Reactor.BREACTOR_READ o v)))
    (set_recv_state RECV_STATE_NOT_INITED (unwait Reactor.BREACTOR_READ o)) err.
Proof.
  intros [C1 C2 C3 C4 C5 C6 C7 C8 C9 C10 C11 C12 C13 C14].
  unfold unwait, unwait_view. destruct (is_hupd o) eqn:Hh; split; try done; cbn; rewrite ?Hh, ?BPending.elem_of_job_remove.
  all: try (by rewrite lookup_delete_ne); try (by rewrite lookup_delete_eq); try (by rewrite lookup_insert_eq); try (by apply wait_range_land); try tauto.
  all: rewrite ?has_read_clear, ?has_write_clear, ?andb_false_r, ?andb_true_r; try done.
  all: try (unfold RECV_STATE_NOT_INITED; lia).
  - intros Hr. destruct (C13 Hr) as [?|[? _]]; [left; by split | done].
  - intros Hr. destruct (C13 Hr) as [?|?]; [left; by split | right; done].
Qed.
Definition same_fd (o o' : connection) : Prop := fd o' = fd o /\ close_fd o' = close_fd o.

Lemma unwait_frame e o v : con_frame v (unwait_view e o v).
Proof.
  unfold unwait_view. destruct (is_hupd o); [apply con_frame_refl|]. apply con_frame_fds. intros p Hp. by apply lookup_insert_ne.
Qed.

Lemma unwait_same e o : same_fd o (unwait e o) /\ send_state (unwait e o) = send_state o /\ recv_state (unwait e o) = recv_state o /\
  send_data (unwait e o) = send_data o /\ recv_avail (unwait e o) = recv_avail o.
Proof. unfold unwait, same_fd. by destruct (is_hupd o). Qed.

Lemma unwait_init e o v j : v_init (unwait_view e o v) !! j = v_init v !! j.
Proof. unfold unwait_view. by destruct (is_hupd o). Qed.

Lemma send_init_wp s v o (Q : unit -> sys -> list out -> Prop) :
  el_rep (loop s) v -> v_user v = true -> con s = Some o -> con_at false false v o (err_pending s) -> J_ERROR ∉ v_jobs v ->
  send_state o = SEND_STATE_NOT_INITED ->
  con_step v s (fun o' l => l = [] /\ o' = set_send_state SEND_STATE_READY o) Q -> wp BConnection_SendAsync_Init s Q.
Proof.
  intros Rv Hu Ho C Hj Hs HQ. pose proof (cs_error _ _ _ _ _ C) as He. assert (Hi : is_Some (v_init v !! J_ERROR)) by (by rewrite He).
  unfold BConnection_SendAsync_Init. wp_step. eapply assert_no_error_wp; [done..|]. intros r1 tr1 R1 A1.
  wp_step. eapply wp_the; [exact Ho|]. do 2 wp_step; [by rewrite Hs|].
  wp_step. eapply on_loop_wp; [apply el_job_init_spec; [exact R1 | done | by rewrite (cs_send_init _ _ _ _ _ C), Hs]|]. cbn beta. intros [] r2 tr2 R2 A2.
  eapply wp_upd_con; [exact Ho|]. refine (HQ r2 _ _ _ R2 _ (con_at_send_init _ _ _ C Hs) _); [|by rewrite !acts_app, A1, A2].
  apply con_frame_init. intros j H1 H2 H3. by rewrite lookup_insert_ne.
Qed.

Lemma recv_init_wp s v o (Q : unit -> sys -> list out -> Prop) :
  el_rep (loop s) v -> v_user v = true -> con s = Some o -> con_at false false v o (err_pending s) -> J_ERROR ∉ v_jobs v ->
  recv_state o = RECV_STATE_NOT_INITED ->
  con_step v s (fun o' l => l = [] /\ o' = set_recv_state RECV_STATE_READY o) Q -> wp BConnection_RecvAsync_Init s Q.
Proof.
  intros Rv Hu Ho C Hj Hs HQ. pose proof (cs_error _ _ _ _ _ C) as He. assert (Hi : is_Some (v_init v !! J_ERROR)) by (by rewrite He).
  unfold BConnection_RecvAsync_Init. wp_step. eapply assert_no_error_wp; [done..|]. intros r1 tr1 R1 A1.
  wp_step. eapply wp_the; [exact Ho|]. do 2 wp_step; [by rewrite Hs|].
  wp_step. eapply on_loop_wp; [apply el_job_init_spec; [exact R1 | done | by rewrite (cs_recv_init _ _ _ _ _ C), Hs]|]. cbn beta. intros [] r2 tr2 R2 A2.
  eapply wp_upd_con; [exact Ho|]. refine (HQ r2 _ _ _ R2 _ (con_at_recv_init _ _ _ C Hs) _); [|by rewrite !acts_app, A1, A2].
  apply con_frame_init. intros j H1 H2 H3. by rewrite lookup_insert_ne.
Qed.

Lemma send_free_wp s v o (Q : unit -> sys -> list out -> Prop) :
  el_rep (loop s) v -> v_user v = true -> con s = Some o -> con_at false false v o (err_pending s) ->
  (send_state o =? SEND_STATE_READY) || (send_state o =? SEND_STATE_BUSY) = true ->
  con_step v s (fun o' l => l = [] /\ o' = set_send_state SEND_STATE_NOT_INITED (unwait Reactor.BREACTOR_WRITE o)) Q -> wp BConnection_SendAsync_Free s Q.
Proof.
  intros Rv Hu Ho C Hs HQ. unfold BConnection_SendAsync_Free. wp_step. eapply wp_the; [exact Ho|]. do 2 wp_step; [done|].
  wp_step. eapply (unwait_wp s v o); [done..|]. intros r1 tr1 R1 A1.
  assert (Hi : is_Some (v_init v !! J_SEND)).
  { rewrite (cs_send_init _ _ _ _ _ C). destruct (Z.eqb_spec (send_state o) SEND_STATE_NOT_INITED) as [E|]; [by rewrite E in Hs | done]. }
  pose proof (unwait_frame Reactor.BREACTOR_WRITE o v) as F1.
  wp_step. eapply on_loop_wp; [apply el_job_free_spec; [exact R1 | by rewrite (cf_user _ _ F1) | by rewrite unwait_init]|]. cbn beta. intros [] r2 tr2 R2 A2.
  eapply wp_upd_con; [done|]. refine (HQ r2 _ _ _ R2 _ (con_at_send_free _ _ _ C) _).
  - eapply con_frame_trans; [exact F1|]. apply con_frame_free. auto.
  - by rewrite !acts_app, A1, A2.
Qed.

Lemma recv_free_wp s v o (Q : unit -> sys -> list out -> Prop) :
  el_rep (loop s) v -> v_user v = true -> con s = Some o -> con_at false false v o (err_pending s) -> recv_inited o = true ->
  con_step v s (fun o' l => l = [] /\ o' = set_recv_state RECV_STATE_NOT_INITED (unwait Reactor.BREACTOR_READ o)) Q -> wp BConnection_RecvAsync_Free s Q.
Proof.
  intros Rv Hu Ho C Hs HQ. unfold BConnection_RecvAsync_Free. wp_step. eapply wp_the; [exact Ho|]. do 2 wp_step; [done|].
  wp_step. eapply (unwait_wp s v o); [done..|]. intros r1 tr1 R1 A1.
  assert (Hi : is_Some (v_init v !! J_RECV)).
  { rewrite (cs_recv_init _ _ _ _ _ C). unfold recv_inited in Hs.
    destruct (Z.eqb_spec (recv_state o) RECV_STATE_NOT_INITED) as [E|]; [by rewrite E in Hs | done]. }
  pose proof (unwait_frame Reactor.BREACTOR_READ o v) as F1.
  wp_step. eapply on_loop_wp; [apply el_job_free_spec; [exact R1 | by rewrite (cf_user _ _ F1) | by rewrite unwait_init]|]. cbn beta. intros [] r2 tr2 R2 A2.
  eapply wp_upd_con; [done|]. refine (HQ r2 _ _ _ R2 _ (con_at_recv_free _ _ _ C) _).
  - eapply con_frame_trans; [exact F1|]. apply con_frame_free. auto.
  - by rewrite !acts_app, A1, A2.
Qed.

(** ** The invariant after a step of the connection *)

Lemma lis_inv_frame v v' l : con_frame v v' -> lis_inv v l -> lis_inv v' l.
Proof.
  intros F (H1 & H2 & H3). split_and!; [by rewrite (cf_fds _ _ F) | by rewrite (cf_init _ _ F) |].
  intros Hl. rewrite (cf_jobs _ _ F) by done. auto.
Qed.

Lemma ctr_inv_frame v v' c rep : con_frame v v' -> ctr_inv v c rep -> ctr_inv v' c rep.
Proof.
  intros F. pose proof (cf_jobs _ _ F J_CONNECTOR) as Hj. destruct c as [c|]; cbn.
  - intros [K1 K2 K3 K4 K5 K6]. split; try done; [by rewrite (cf_fds _ _ F) | by rewrite (cf_init _ _ F) | rewrite Hj by done; done].
  - intros (H1 & H2 & H3 & H4). split_and!; [by rewrite (cf_fds _ _ F) | by rewrite (cf_init _ _ F) | by rewrite Hj | done].
Qed.

Lemma own_jobs j : own_job j = false -> j <> J_DEFAULT /\ j <> J_CONNECTOR /\ j <> J_SEND /\ j <> J_RECV /\ j <> J_ERROR.
Proof. unfold own_job, J_DEFAULT, J_CONNECTOR, J_SEND, J_RECV, J_ERROR. lia. Qed.

Lemma rest_inv_frame v v' jobs : con_frame v v' -> rest_inv v jobs -> rest_inv v' jobs.
Proof.
  intros F [H1 H2 H3 H4]. split; [intros p Hp1 Hp2 Hp3; rewrite (cf_fds _ _ F) by done; auto | intros l Hl1 Hl2; rewrite (cf_limits _ _ F) by done; auto | | done].
  intros j Hj. destruct (own_jobs j Hj) as (? & ? & ? & ? & ?). rewrite (cf_init _ _ F) by done. auto.
Qed.

Lemma fds_inv_same s o o' r : fds_inv s -> con s = Some o -> same_fd o o' -> fds_inv (set_con (Some o') (set_loop r s)).
Proof.
  intros [F1 F2 F3 F4 F5] Ho [Ef Ec].
  assert (E : owned (set_con (Some o') (set_loop r s)) = owned s) by (unfold owned; cbn; rewrite Ho; cbn; by rewrite Ef, Ec).
  split; rewrite ?E; try done. intros o1 [= <-]. rewrite Ef, Ec. by apply F4.
Qed.

(** The invariant but for the loop and the connection. *)
Record others_at (v : view) (s : sys) : Prop := mk_others_at {
  x_lis : lis_inv v (listener_ s);
  x_ctr : ctr_inv v (connector_ s) (reported s);
  x_rest : rest_inv v (user_jobs s);
  x_fds : fds_inv s;
}.

Lemma inv_others v s : inv_at v s -> others_at v s.
Proof. intros [I1 I2 I3 I4 I5 I6]. by split. Qed.

Lemma inv_con_step v v' s r o o' : others_at v s -> con s = Some o -> same_fd o o' -> el_rep r v' -> con_frame v v' ->
  con_at false false v' o' (err_pending s) -> inv (set_con (Some o') (set_loop r s)).
Proof.
  intros [I2 I3 I5 I6] Ho Hf R' F C. exists v'. split; [exact R' | by eapply lis_inv_frame | by eapply ctr_inv_frame | exact C | by eapply rest_inv_frame |].
  by eapply fds_inv_same.
Qed.

Lemma send_res_same o o' l : send_res o o' l -> same_fd o o'.
Proof. by destruct 1. Qed.
Lemma recv_res_same o o' l : recv_res o o' l -> same_fd o o'.
Proof. by destruct 1. Qed.
Lemma same_fd_trans o1 o2 o3 : same_fd o1 o2 -> same_fd o2 o3 -> same_fd o1 o3.
Proof. intros [E1 E2] [E3 E4]. split; congruence. Qed.
Lemma noted_same_fd events o : same_fd o (noted events o).
Proof. unfold noted, same_fd. by destruct (has_event events Reactor.BREACTOR_HUP). Qed.

Lemma fd_res_same events o o' l : fd_res events o o' l -> same_fd o o'.
Proof.
  destruct 1 as [o' l _ Hs|o' l _ _ Hr| |]; try apply noted_same_fd.
  - eapply same_fd_trans; [apply noted_same_fd | by eapply send_res_same].
  - eapply same_fd_trans; [apply noted_same_fd | by eapply recv_res_same].
Qed.
(** ** Steps that do not touch the connection *)

(** Outputs that move no data. *)
Definition is_data (o : out) : bool :=
  match o with Write _ _ | Read _ _ | Send_Done _ | Recv_Done _ => true | _ => false end.
Definition quiet (tr : list out) : Prop := Forall (fun o => is_data o = false) tr.

Lemma quiet_acts tr : quiet (acts tr) -> quiet tr.
Proof.
  unfold quiet, acts_of. induction tr as [|o tr IH]; [done|]. destruct (is_loop o) eqn:E.
  - rewrite filter_cons_False by (by rewrite E). intros H. constructor; [by destruct o | auto].
  - rewrite filter_cons_True by done. intros [? ?]%Forall_cons. constructor; auto.
Qed.

Lemma quiet_app tr tr' : quiet tr -> quiet tr' -> quiet (tr ++ tr').
Proof. apply Forall_app_2. Qed.

Lemma quiet_loop tr : acts tr = [] -> quiet tr.
Proof. intros E. apply quiet_acts. rewrite E. constructor. Qed.

(** A change of the descriptor [p0] and the job [j0] only. *)
Record other_frame (p0 j0 : Z) (v v' : view) : Prop := mk_other_frame {
  of_user : v_user v' = v_user v;
  of_fds p : p <> p0 -> v_fds v' !! p = v_fds v !! p;
  of_limits : v_limits v' = v_limits v;
  of_init j : j <> j0 -> v_init v' !! j = v_init v !! j;
  of_jobs j : j <> j0 -> j ∈ v_jobs v' <-> j ∈ v_jobs v;
}.

Lemma other_frame_refl p0 j0 v : other_frame p0 j0 v v.
Proof. by split. Qed.
Lemma other_frame_trans p0 j0 v1 v2 v3 : other_frame p0 j0 v1 v2 -> other_frame p0 j0 v2 v3 -> other_frame p0 j0 v1 v3.
Proof.
  intros [U1 F1 L1 N1 J1] [U2 F2 L2 N2 J2]. split; intros; [by rewrite U2 | by rewrite F2, F1 | by rewrite L2 | by rewrite N2, N1 | by rewrite J2, J1].
Qed.
Lemma other_frame_insert p0 j0 v x : other_frame p0 j0 v (up_fds <[p0 := x]> v).
Proof. split; try done. intros p Hp. by apply lookup_insert_ne. Qed.
Lemma other_frame_delete p0 j0 v : other_frame p0 j0 v (up_fds (delete p0) v).
Proof. split; try done. intros p Hp. by apply lookup_delete_ne. Qed.
Lemma other_frame_init p0 j0 v h : other_frame p0 j0 v (up_init <[j0 := h]> v).
Proof. split; try done. intros p Hp. by apply lookup_insert_ne. Qed.
Lemma other_frame_free p0 j0 v : other_frame p0 j0 v (up_init (delete j0) (up_jobs (BPending.job_remove j0) v)).
Proof. split; try done; intros j Hj; cbn; [by apply lookup_delete_ne | rewrite BPending.elem_of_job_remove; tauto]. Qed.
Lemma other_frame_set p0 j0 v : other_frame p0 j0 v (up_jobs (fun l => j0 :: BPending.job_remove j0 l) v).
Proof. split; try done. intros j Hj. cbn. rewrite elem_of_cons, BPending.elem_of_job_remove. tauto. Qed.
Lemma other_frame_unset p0 j0 v : other_frame p0 j0 v (up_jobs (BPending.job_remove j0) v).
Proof. split; try done. intros j Hj. cbn. rewrite BPending.elem_of_job_remove. tauto. Qed.

Lemma con_at_frame sb rb v v' o err : v_fds v' !! B_CON = v_fds v !! B_CON -> v_limits v' = v_limits v ->
  (forall j, j = J_SEND \/ j = J_RECV \/ j = J_ERROR -> v_init v' !! j = v_init v !! j /\ (j ∈ v_jobs v' <-> j ∈ v_jobs v)) ->
  con_at sb rb v o err -> con_at sb rb v' o err.
Proof.
  intros Hf Hl Hj [C1 C2 C3 C4 C5 C6 C7 C8 C9 C10 C11 C12 C13 C14].
  destruct (Hj J_SEND) as [Is Js]; [auto|]. destruct (Hj J_RECV) as [Ir Jr]; [auto|]. destruct (Hj J_ERROR) as [Ie Je]; [auto|].
  split; rewrite ?Hf, ?Hl, ?Is, ?Ir, ?Ie, ?Js, ?Jr, ?Je; try done.
  - destruct sb; [done|]. by rewrite Je.
  - destruct rb; [done|]. by rewrite Je, Jr.
Qed.

Section OtherFrame.
Context (p0 j0 : Z) (v v' : view) (F : other_frame p0 j0 v v').

Lemma lis_inv_other l : p0 <> B_LIS -> j0 <> J_DEFAULT -> lis_inv v l -> lis_inv v' l.
Proof.
  intros Hp Hj (H1 & H2 & H3). split_and!; [by rewrite (of_fds _ _ _ _ F) | by rewrite (of_init _ _ _ _ F) |].
  intros Hl. rewrite (of_jobs _ _ _ _ F) by done. auto.
Qed.

Lemma ctr_inv_other c rep : p0 <> B_CTR -> j0 <> J_CONNECTOR -> ctr_inv v c rep -> ctr_inv v' c rep.
Proof.
  intros Hp Hj. pose proof (of_jobs _ _ _ _ F J_CONNECTOR) as Hjj. destruct c as [c|]; cbn.
  - intros [K1 K2 K3 K4 K5 K6]. split; try done; [by rewrite (of_fds _ _ _ _ F) | by rewrite (of_init _ _ _ _ F) | rewrite Hjj by done; done].
  - intros (H1 & H2 & H3 & H4). split_and!; [by rewrite (of_fds _ _ _ _ F) | by rewrite (of_init _ _ _ _ F) | by rewrite Hjj | done].
Qed.

Lemma con_inv_other o err : p0 <> B_CON -> j0 <> J_SEND -> j0 <> J_RECV -> j0 <> J_ERROR -> con_inv v o err -> con_inv v' o err.
Proof.
  intros Hp H1 H2 H3.
  assert (Hj : forall j, j = J_SEND \/ j = J_RECV \/ j = J_ERROR -> v_init v' !! j = v_init v !! j /\ (j ∈ v_jobs v' <-> j ∈ v_jobs v)).
  { intros j Hor. assert (j <> j0) by naive_solver. split; [by apply (of_init _ _ _ _ F) | by apply (of_jobs _ _ _ _ F)]. }
  destruct o as [o|]; cbn.
  - apply con_at_frame; [by apply (of_fds _ _ _ _ F) | apply F | done].
  - rewrite (of_limits _ _ _ _ F), (of_fds _ _ _ _ F) by done. intros (? & ? & ? & Hn). split_and!; [done..|].
    intros j Hor. destruct (Hj j Hor) as [-> ->]. auto.
Qed.

Lemma rest_inv_other jobs : p0 = B_LIS \/ p0 = B_CTR \/ p0 = B_CON -> own_job j0 = true -> rest_inv v jobs -> rest_inv v' jobs.
Proof.
  intros Hp Hj [H1 H2 H3 H4]. split.
  - intros p Hp1 Hp2 Hp3. rewrite (of_fds _ _ _ _ F) by naive_solver. auto.
  - rewrite (of_limits _ _ _ _ F). done.
  - intros j Hjj. rewrite (of_init _ _ _ _ F) by congruence. auto.
  - done.
Qed.
End OtherFrame.

Lemma wp_close f X s (Q : unit -> sys -> list out -> Prop) : open_fds s = {[f]} ∪ X -> f ∉ X -> Q tt (set_open X s) [Close f] -> wp (close f) s Q.
Proof.
  intros Ho Hf HQ. unfold close. wp_step. eapply wp_use_fd; [set_solver|]. do 2 wp_step. wp_step.
  rewrite Ho. assert (E : ({[f]} ∪ X) ∖ {[f]} = X) by set_solver. by rewrite E.
Qed.

Lemma build_unix_address_wp path s (Q : option unix_addr -> sys -> list out -> Prop) :
  (forall a, (a = None <-> MAX_UNIX_SOCKET_PATH < zlen path) -> Q a s []) -> wp (build_unix_address path) s Q.
Proof.
  intros HQ. unfold build_unix_address. pose proof (zlen_nonneg path). destruct (Z.gtb_spec (zlen path) MAX_UNIX_SOCKET_PATH) as [Hl|Hl].
  - wp_step. by apply HQ.
  - assert (El : zlen (replicate (Z.to_nat UNIX_BYTES) 0) = 203) by done.
    wp_step. apply wp_put; [done | rewrite El; done|]. intros m1 Hm1 _.
    wp_step. unfold MAX_UNIX_SOCKET_PATH in Hl. apply wp_put; [done | rewrite zlen_app, Hm1, El; change (zlen [0]) with 1; unfold SUN_PATH; lia|].
    intros m2 Hm2 _. wp_step. apply HQ. split; [done | unfold MAX_UNIX_SOCKET_PATH; lia].
Qed.

Lemma socket_address_wp from s (Q : option (sys_addr + unix_addr) -> sys -> list out -> Prop) :
  (forall a, Q a s []) -> wp (socket_address from) s Q.
Proof.
  intros HQ. unfold socket_address. destruct from as [addr|path].
  - destruct (BConnection_AddressSupported addr) eqn:Ha; cbn [negb]; [|by wp_step].
    destruct addr; try done; cbn [addr_socket_to_sys]; do 2 wp_step; by wp_step.
  - wp_step. apply build_unix_address_wp. intros a _. by wp_step.
Qed.
(** ** Ownership of descriptors *)

Lemma fds_inv_new s s' f : fds_inv s -> f ∉ open_fds s -> 0 <= f -> owned s' ≡ₚ f :: owned s -> open_fds s' = {[f]} ∪ open_fds s ->
  user_fds s' = user_fds s -> (forall o, con s' = Some o -> close_fd o = false -> fd o ∈ user_fds s) -> fds_inv s'.
Proof.
  intros [F1 F2 F3 F4 F5] Hf H0 Hp Ho Hu Hc. split; rewrite ?Hu, ?Ho; try done.
  - intros g. rewrite Hp, elem_of_cons, elem_of_union, elem_of_singleton, F1. tauto.
  - rewrite Hp. constructor; [|done]. intros Hin. apply Hf, F1. by right.
  - intros g Hg. rewrite Hp, elem_of_cons. intros [->|Hin]; [apply Hf, F1; by left | by apply (F3 g)].
  - intros g [->%elem_of_singleton|]%elem_of_union; auto.
Qed.

Lemma fds_inv_close s s' f : fds_inv s -> owned s ≡ₚ f :: owned s' -> open_fds s' = open_fds s ∖ {[f]} ->
  user_fds s' = user_fds s -> (forall o, con s' = Some o -> close_fd o = false -> fd o ∈ user_fds s) -> fds_inv s'.
Proof.
  intros [F1 F2 F3 F4 F5] Hp Ho Hu Hc. rewrite Hp in F2. apply NoDup_cons in F2 as [F2 F2'].
  assert (Hin : f ∈ owned s) by (rewrite Hp; by left).
  split; rewrite ?Hu, ?Ho; try done.
  - intros g. rewrite elem_of_difference, elem_of_singleton, F1, Hp, elem_of_cons. split; [tauto|].
    intros [Hg|Hg]; (split; [auto|]); intros ->; [by apply (F3 f) | done].
  - intros g Hg Hg'. apply (F3 g Hg). rewrite Hp. by right.
  - intros g [? _]%elem_of_difference. auto.
Qed.

Lemma fds_inv_owned s f : fds_inv s -> f ∈ owned s -> f ∈ open_fds s.
Proof. intros F Hf. apply F. by right. Qed.

(** Only the loop, the listener or the connector has changed. *)
Lemma fds_inv_keep s s' : fds_inv s -> owned s' = owned s -> open_fds s' = open_fds s -> user_fds s' = user_fds s -> con s' = con s -> fds_inv s'.
Proof. intros [F1 F2 F3 F4 F5] E1 E2 E3 E4. split; rewrite ?E1, ?E2, ?E3, ?E4; done. Qed.

Lemma con_pipe s : fds_inv s -> forall o, con s = Some o -> close_fd o = false -> fd o ∈ user_fds s.
Proof. intros F. apply F. Qed.

Lemma set_open_back s X : set_open (open_fds s) (set_open X s) = s.
Proof. by destruct s. Qed.

(** The loop has changed, but not what this component has in it. *)
Lemma inv_at_loop v s r : inv_at v s -> el_rep r v -> inv_at v (set_loop r s).
Proof. intros [I1 I2 I3 I4 I5 I6] R'. split; try done. by eapply fds_inv_keep. Qed.

(** ** The listener *)

Definition new_fd_ok (k : kernel) (s : sys) : Prop := forall f, k_fd k = Some f -> 0 <= f /\ f ∉ open_fds s.

(** What holds after an operation that is not the connection's. *)
Definition aside (s s' : sys) (tr : list out) : Prop := inv s' /\ quiet tr /\ con s' = con s.

Ltac quiet_tac := repeat (apply quiet_app); repeat first [apply quiet_loop; assumption | by repeat constructor | apply Forall_app_2].

Lemma fail2_wp f s r (Q : bool -> sys -> list out -> Prop) :
  f ∉ open_fds s -> Q false (set_loop r s) [Close f] -> wp (listen_fail2 f) (set_loop r (set_open ({[f]} ∪ open_fds s) s)) Q.
Proof.
  intros Hf HQ. unfold listen_fail2. wp_step. eapply (wp_close f (open_fds s)); [done | done |]. wp_step. by destruct s.
Qed.

Lemma fail3_wp path f s r (Q : bool -> sys -> list out -> Prop) :
  f ∉ open_fds s -> (forall tr, quiet tr -> Q false (set_loop r s) tr) -> wp (listen_fail3 path f) (set_loop r (set_open ({[f]} ∪ open_fds s) s)) Q.
Proof.
  intros Hf HQ. unfold listen_fail3, unlink. wp_step. destruct path; wp_step; apply fail2_wp; try done; apply HQ; by repeat constructor.
Qed.

Lemma lis_inv_new v f path : lis_inv v None ->
  lis_inv (up_init <[J_DEFAULT := (J_DEFAULT, 0)]> (up_fds <[B_LIS := (f, Reactor.BREACTOR_READ)]> v)) (Some (mk_listener path f)).
Proof. intros (H1 & H2 & H3). split_and!; [apply lookup_insert_eq | apply lookup_insert_eq | done]. Qed.

Lemma up_fds_twice (p : Z) (x y : Z * Z) v : up_fds <[p := y]> (up_fds <[p := x]> v) = up_fds <[p := y]> v.
Proof. unfold up_fds. cbn. by rewrite insert_insert_eq. Qed.

Lemma listen_wp from k v s : inv_at v s -> v_user v = true -> listener_ s = None -> new_fd_ok k s ->
  wp (BListener_InitFrom from k) s (fun b s' tr => aside s s' tr /\ (b = true <-> listener_ s' <> None)).
Proof.
  intros I Hu Hl Hk. pose proof I as [I1 I2 I3 I4 I5 I6].
  assert (Hno : forall r tr, el_rep r v -> quiet tr -> aside s (set_loop r s) tr /\ (false = true <-> listener_ (set_loop r s) <> None)).
  { intros r tr R' Hq. split; [|split; [done | by intros []]]. split; [|by split]. exists v. by apply inv_at_loop. }
  assert (Hs : set_loop (loop s) s = s) by (by destruct s). pose proof (Hno (loop s)) as Hno0. rewrite Hs in Hno0.
  unfold BListener_InitFrom. destruct (if from_path from then _ else _); [wp_step; apply Hno0; [done | constructor]|].
  wp_step. apply socket_address_wp. intros a. cbn beta. destruct a as [a|]; [|wp_step; apply Hno0; [done | constructor]].
  wp_step. unfold socket. destruct (k_fd k) as [f|] eqn:Hf; [|wp_step; wp_step; apply Hno0; [done | constructor]].
  destruct (Hk f Hf) as [H0 Hfo]. unfold new_fd. do 4 wp_step. wp_step. wp_step. apply wp_use_fd; [set_solver|].
  assert (H2 : forall tr0, quiet tr0 -> wp (listen_fail2 f) (set_open ({[f]} ∪ open_fds s) s)
    (fun b s' tr => aside s s' (tr0 ++ tr) /\ (b = true <-> listener_ s' <> None))).
  { intros tr0 Hq. apply (fail2_wp f s (loop s)); [done|]. apply Hno; [done|]. apply quiet_app; [done | by repeat constructor]. }
  assert (H3 : forall tr0 r, quiet tr0 -> el_rep r v -> wp (listen_fail3 (from_path from) f) (set_loop r (set_open ({[f]} ∪ open_fds s) s))
    (fun b s' tr => aside s s' (tr0 ++ tr) /\ (b = true <-> listener_ s' <> None))).
  { intros tr0 r Hq R'. apply (fail3_wp _ f s r); [done|]. intros tr Htr. apply Hno; [done|]. by apply quiet_app. }
  destruct (k_nonblock k); cbn [negb]; [|apply (H2 [Socket f]); by repeat constructor].
  wp_step.
  assert (Hun : forall (Q0 : unit -> sys -> list out -> Prop) s0, (forall tr, quiet tr -> Q0 tt s0 tr) -> wp (unlink (from_path from)) s0 Q0).
  { intros Q0 s0 HQ0. unfold unlink. destruct (from_path from); wp_step; apply HQ0; by repeat constructor. }
  apply Hun. intros tr1 Q1. clear Hun. assert (Q1' : quiet (Socket f :: tr1)) by (by constructor).
  destruct (if from_path from then _ else _); [apply (H2 (Socket f :: tr1)); done|].
  destruct (k_bind k); cbn [negb]; [|apply (H2 (Socket f :: tr1)); done].
  destruct (k_listen k); cbn [negb]; [|apply (H3 (Socket f :: tr1) (loop s)); done].
  wp_step. eapply on_loop_wp; [apply (el_add_spec _ v); [exact I1 | done | by destruct I2 as [-> _]; rewrite Hl]|].
  cbn beta. intros b r2 tr2 [-> R2] A2. destruct (k_add k); cbn [negb].
  2: { assert (Q2 : quiet (Socket f :: tr1 ++ tr2)) by (constructor; [done|]; apply quiet_app; [done | by apply quiet_loop]).
       eapply wp_mono; [apply (H3 _ r2 Q2 R2)|]. intros b s' tr HQ. cbn in HQ. by rewrite <- app_assoc in HQ. }
  wp_step. eapply on_loop_wp; [eapply el_events_spec; [exact R2 | done | apply lookup_insert_eq | done]|]. cbn beta. intros [] r3 tr3 R3 A3. rewrite up_fds_twice in R3.
  wp_step. eapply on_loop_wp; [apply (el_job_init_spec _ _ J_DEFAULT (J_DEFAULT, 0) R3); [done | cbn; destruct I2 as (_ & -> & _); by rewrite Hl]|]. cbn beta. intros [] r4 tr4 R4 A4.
  do 2 wp_step. wp_step. split; [|done]. rewrite Hl in I2.
  assert (F : other_frame B_LIS J_DEFAULT v (up_init <[J_DEFAULT := (J_DEFAULT, 0)]> (up_fds <[B_LIS := (f, Reactor.BREACTOR_READ)]> v)))
    by (eapply other_frame_trans; [apply other_frame_insert | apply other_frame_init]).
  split; [|split; [|done]].
  - eexists. split; [exact R4 | by apply lis_inv_new | by apply (ctr_inv_other _ _ _ _ F) | by apply (con_inv_other _ _ _ _ F) | apply (rest_inv_other _ _ _ _ F); auto |].
    eapply (fds_inv_new s _ f); try done; [unfold owned; cbn; by rewrite Hl | exact (con_pipe s I6)].
  - quiet_tac.
Qed.
Lemma listener_free_wp v s l : inv_at v s -> v_user v = true -> listener_ s = Some l ->
  wp BListener_Free s (fun _ s' tr => aside s s' tr).
Proof.
  intros I Hu Hl. pose proof I as [I1 I2 I3 I4 I5 I6]. rewrite Hl in I2. destruct I2 as (L1 & L2 & L3). cbn in L1, L2.
  assert (Ho : owned s ≡ₚ l_fd l :: owned (set_listener None s)) by (unfold owned; cbn; rewrite Hl; done).
  assert (Hf : l_fd l ∈ open_fds s) by (apply (fds_inv_owned s _ I6); rewrite Ho; by left).
  unfold BListener_Free. wp_step. eapply wp_the; [exact Hl|].
  wp_step. eapply on_loop_wp; [apply (el_job_free_spec _ _ J_DEFAULT I1); [done | by rewrite L2]|]. cbn beta. intros [] r1 tr1 R1 A1.
  wp_step. eapply on_loop_wp; [apply (el_remove_spec _ _ B_LIS R1); [done | by cbn; rewrite L1]|]. cbn beta. intros [] r2 tr2 R2 A2.
  wp_step. eapply (wp_close _ (open_fds s ∖ {[l_fd l]})); [|set_solver|].
  { cbn. apply leibniz_equiv. intros g. destruct (decide (g = l_fd l)); set_solver. }
  wp_step. set (s1 := set_open _ _). assert (Hun : forall (Q0 : unit -> sys -> list out -> Prop), (forall tr, quiet tr -> Q0 tt s1 tr) -> wp (unlink (unix_socket_path l)) s1 Q0).
  { intros Q0 HQ0. unfold unlink. destruct (unix_socket_path l); wp_step; apply HQ0; by repeat constructor. }
  apply Hun. intros tr3 Q3. wp_step. set (v' := up_fds _ _) in R2.
  assert (F : other_frame B_LIS J_DEFAULT v v') by (eapply other_frame_trans; [apply other_frame_free | apply other_frame_delete]).
  split; [|split; [|done]].
  - exists v'. split; [exact R2 | | by apply (ctr_inv_other _ _ _ _ F) | by apply (con_inv_other _ _ _ _ F) | apply (rest_inv_other _ _ _ _ F); auto |].
    + split_and!; [apply lookup_delete_eq | apply lookup_delete_eq |]. intros _. cbn. rewrite BPending.elem_of_job_remove. tauto.
    + apply (fds_inv_close s _ (l_fd l)); [done | exact Ho | done | done | exact (con_pipe s I6)].
  - quiet_tac.
Qed.

Lemma listener_fd_wp v s l : inv_at v s -> v_user v = true -> listener_ s = Some l ->
  wp listener_fd_handler s (fun _ s' tr => aside s s' tr /\ acts tr = [Listener_Handler]).
Proof.
  intros I Hu Hl. pose proof I as [I1 I2 I3 I4 I5 I6]. rewrite Hl in I2. destruct I2 as (L1 & L2 & L3). cbn in L1, L2.
  unfold listener_fd_handler. wp_step. eapply wp_the; [exact Hl|].
  wp_step. eapply on_loop_wp; [apply (el_job_set_spec _ _ J_DEFAULT I1); [done | by rewrite L2]|]. cbn beta. intros [] r1 tr1 R1 A1. wp_step.
  pose proof (other_frame_set B_LIS J_DEFAULT v) as F. split; [|by rewrite !acts_app, A1]. split; [|split; [quiet_tac | done]].
  eexists. split; [exact R1 | split_and!; cbn; rewrite ?Hl; done | by apply (ctr_inv_other _ _ _ _ F) | by apply (con_inv_other _ _ _ _ F) | apply (rest_inv_other _ _ _ _ F); auto | by eapply fds_inv_keep].
Qed.

Lemma listener_default_wp k v s l : inv_at v s -> listener_ s = Some l -> new_fd_ok k s ->
  wp (listener_default_job_handler k) s (fun _ s' tr => aside s s' tr).
Proof.
  intros I Hl Hk. pose proof I as [I1 I2 I3 I4 I5 I6].
  assert (Hf : l_fd l ∈ open_fds s) by (apply (fds_inv_owned s _ I6); unfold owned; rewrite Hl; by left).
  unfold listener_default_job_handler. wp_step. eapply wp_the; [exact Hl|]. wp_step. apply wp_use_fd; [done|].
  destruct (k_fd k) as [f|] eqn:Hn; [|wp_step; split; [by exists v | split; [constructor | done]]].
  destruct (Hk f Hn) as [_ Hfo]. unfold new_fd. do 4 wp_step. apply (wp_close _ (open_fds s)); [done | done |].
  rewrite set_open_back. split; [by exists v | split; [by repeat constructor | done]].
Qed.

(** ** The connector *)

Lemma connect_fail1_wp s r v : inv_at v s -> v_user v = true -> connector_ s = None -> el_rep r (up_init <[J_CONNECTOR := (J_CONNECTOR, 0)]> v) ->
  wp connect_fail1 (set_loop r s) (fun b s' tr => b = false /\ aside s s' tr /\ connector_ s' = None).
Proof.
  intros I Hu Hc R'. pose proof I as [I1 I2 I3 I4 I5 I6]. unfold connect_fail1.
  wp_step. eapply on_loop_wp; [apply (el_job_free_spec _ _ J_CONNECTOR R'); [done | cbn; by rewrite lookup_insert_eq]|]. cbn beta. intros [] r1 tr1 R1 A1.
  wp_step. split; [done|]. split; [|done]. split; [|split; [quiet_tac | done]]. set (v' := up_init (delete _) _) in R1.
  assert (F : other_frame B_CTR J_CONNECTOR v v') by (eapply other_frame_trans; [apply other_frame_init | apply other_frame_free]).
  rewrite Hc in I3. destruct I3 as (K1 & K2 & K3 & K4). exists v'.
  split; [exact R1 | by apply (lis_inv_other _ _ _ _ F) | | by apply (con_inv_other _ _ _ _ F) | apply (rest_inv_other _ _ _ _ F); auto | by eapply fds_inv_keep].
  cbn [connector_ set_loop reported]. rewrite Hc. cbn [ctr_inv]. split_and!; [exact K1 | cbn; by rewrite lookup_delete_eq | cbn; rewrite BPending.elem_of_job_remove; tauto | exact K4].
Qed.

Lemma connect_fail2_wp f s r v : inv_at v s -> v_user v = true -> connector_ s = None -> el_rep r (up_init <[J_CONNECTOR := (J_CONNECTOR, 0)]> v) -> f ∉ open_fds s ->
  wp (connect_fail2 f) (set_loop r (set_open ({[f]} ∪ open_fds s) s)) (fun b s' tr => b = false /\ aside s s' tr /\ connector_ s' = None).
Proof.
  intros I Hu Hc R' Hf. unfold connect_fail2. wp_step. apply (wp_close f (open_fds s)); [done | done |].
  replace (set_open (open_fds s) (set_loop r (set_open _ s))) with (set_loop r s) by (by destruct s).
  eapply wp_mono; [by eapply connect_fail1_wp|]. intros b s' tr (-> & (Hi & Hq & Hc') & Hn). split; [done|]. split; [|done].
  split; [done|]. split; [|done]. by constructor.
Qed.
Lemma connect_wp from k v s : inv_at v s -> v_user v = true -> connector_ s = None -> new_fd_ok k s ->
  wp (BConnector_InitFrom from k) s (fun b s' tr => aside s s' tr /\ (b = true <-> connector_ s' <> None)).
Proof.
  intros I Hu Hc Hk. pose proof I as [I1 I2 I3 I4 I5 I6]. pose proof I3 as I3'. rewrite Hc in I3'. destruct I3' as (K1 & K2 & K3 & K4).
  unfold BConnector_InitFrom. wp_step. apply socket_address_wp. intros a. cbn beta.
  destruct a as [a|]; [|wp_step; split; [split; [by exists v | split; [constructor | done]] | by rewrite Hc]].
  wp_step. eapply on_loop_wp; [by apply (el_job_init_spec _ _ J_CONNECTOR (J_CONNECTOR, 0) I1)|]. cbn beta. intros [] r1 tr1 R1 A1.
  assert (W1 : forall tr0, quiet tr0 -> wp connect_fail1 (set_loop r1 s) (fun b s' tr => aside s s' (tr0 ++ tr) /\ (b = true <-> connector_ s' <> None))).
  { intros tr0 Hq. eapply wp_mono; [by eapply connect_fail1_wp|]. intros b s' tr (-> & (? & ? & ?) & ->). split; [|done]. split; [done|]. split; [by apply quiet_app | done]. }
  wp_step. unfold socket. destruct (k_fd k) as [f|] eqn:Hf; [|wp_step; apply W1; by apply quiet_loop].
  destruct (Hk f Hf) as [H0 Hfo]. unfold new_fd. do 4 wp_step. wp_step. wp_step. apply wp_use_fd; [cbn; set_solver|].
  set (s1 := set_open _ _).
  assert (W2 : forall r tr0, quiet tr0 -> el_rep r (up_init <[J_CONNECTOR := (J_CONNECTOR, 0)]> v) -> wp (connect_fail2 f) (set_loop r s1)
    (fun b s' tr => aside s s' (tr0 ++ tr) /\ (b = true <-> connector_ s' <> None))).
  { intros r tr0 Hq R'. eapply wp_mono; [exact (connect_fail2_wp f s r v I Hu Hc R' Hfo)|]. intros b s' tr (-> & (? & ? & ?) & ->). split; [|done]. split; [done|]. split; [by apply quiet_app | done]. }
  assert (Q1 : quiet (tr1 ++ [Socket f])) by (apply quiet_app; [by apply quiet_loop | by repeat constructor]).
  assert (Q2 : quiet ((tr1 ++ [Socket f]) ++ [Connect f])) by (apply quiet_app; [done | by repeat constructor]).
  destruct (k_nonblock k); cbn [negb].
  2: { eapply wp_mono; [apply (W2 r1 _ Q1 R1)|]. intros b s' tr HQ. cbn beta in HQ. by rewrite <- app_assoc in HQ. }
  do 2 wp_step.
  assert (Hin : forall r v' c tr, el_rep r v' -> ctr_ok v' c false -> c_fd c = f -> quiet tr -> other_frame B_CTR J_CONNECTOR v v' ->
    aside s (set_connector (Some c) (set_loop r s1)) tr).
  { intros r v' c tr R' K Ec Hq F. split; [|by split]. exists v'.
    split; [exact R' | by apply (lis_inv_other _ _ _ _ F) | cbn; by rewrite K4 | by apply (con_inv_other _ _ _ _ F) | apply (rest_inv_other _ _ _ _ F); auto |].
    apply (fds_inv_new s _ f); try done; [|exact (con_pipe s I6)]. unfold owned. cbn. rewrite Hc, Ec. destruct (Z.eqb_spec f (-1)); [lia|]. cbn.
    symmetry. apply Permutation_middle. }
  assert (F1 : other_frame B_CTR J_CONNECTOR v (up_init <[J_CONNECTOR := (J_CONNECTOR, 0)]> v)) by apply other_frame_init.
  destruct (k_connect k).
  - wp_step. eapply on_loop_wp; [apply (el_job_set_spec _ _ J_CONNECTOR R1); [done | cbn; by rewrite lookup_insert_eq]|]. cbn beta. intros [] r2 tr2 R2 A2.
    do 2 wp_step. wp_step. split; [|done]. apply (Hin r2 _ _ _ R2); [|done | quiet_tac | eapply other_frame_trans; [exact F1 | apply other_frame_set]].
    split; cbn; try done; [by rewrite lookup_insert_eq | lia].
  - wp_step. eapply on_loop_wp; [by apply (el_add_spec _ _ B_CTR f (k_add k) R1)|]. cbn beta. intros b r2 tr2 [-> R2] A2. destruct (k_add k); cbn [negb].
    2: { assert (Q3 : quiet (((tr1 ++ [Socket f]) ++ [Connect f]) ++ tr2)) by (apply quiet_app; [done | by apply quiet_loop]).
         eapply wp_mono; [apply (W2 r2 _ Q3 R2)|]. intros b s' tr HQ. cbn beta in HQ. by rewrite <- !app_assoc in HQ. }
    wp_step. eapply on_loop_wp; [eapply el_events_spec; [exact R2 | done | apply lookup_insert_eq | done]|]. cbn beta. intros [] r3 tr3 R3 A3. rewrite up_fds_twice in R3.
    do 2 wp_step. wp_step. split; [|done]. apply (Hin r3 _ _ _ R3); [|done | quiet_tac | eapply other_frame_trans; [exact F1 | apply other_frame_insert]].
    split; cbn; try done; [by rewrite lookup_insert_eq | by rewrite lookup_insert_eq | lia].
  - eapply wp_mono; [apply (W2 r1 _ Q2 R1)|]. intros b s' tr HQ. cbn beta in HQ. by rewrite <- !app_assoc in HQ.
Qed.
Lemma owned_ctr_fd c f : c_fd c = f -> f <> -1 -> owned_ctr (Some c) = [f].
Proof. intros <- Hf. cbn. by destruct (Z.eqb_spec (c_fd c) (-1)). Qed.

(** Removing its descriptor from the loop, if it is there. *)
Lemma connector_remove_wp s v c (Q : unit -> sys -> list out -> Prop) : el_rep (loop s) v -> v_user v = true -> ctr_ok v c (reported s) ->
  (forall r tr, el_rep r (if have_bfd c then up_fds (delete B_CTR) v else v) -> acts tr = [] -> Q tt (set_loop r s) tr) ->
  wp (when have_bfd c do on_loop (el_remove B_CTR)) s Q.
Proof.
  intros Rv Hu K HQ. destruct (have_bfd c) eqn:Hb.
  - eapply on_loop_wp; [apply (el_remove_spec _ _ B_CTR Rv); [done | by rewrite (k_bfd _ _ _ K), Hb]|]. cbn beta. intros [] r tr R' A. by apply HQ.
  - wp_step. assert (E : set_loop (loop s) s = s) by (by destruct s). rewrite <- E. by apply HQ.
Qed.

Lemma ctr_view_frame c v : other_frame B_CTR J_CONNECTOR v (if have_bfd c then up_fds (delete B_CTR) v else v) /\
  v_init (if have_bfd c then up_fds (delete B_CTR) v else v) = v_init v /\ v_jobs (if have_bfd c then up_fds (delete B_CTR) v else v) = v_jobs v.
Proof. destruct (have_bfd c); (split; [apply other_frame_delete || apply other_frame_refl | done]). Qed.

Lemma connector_free_wp v s c : inv_at v s -> v_user v = true -> connector_ s = Some c ->
  wp BConnector_Free s (fun _ s' tr => aside s s' tr).
Proof.
  intros I Hu Hc. pose proof I as [I1 I2 I3 I4 I5 I6]. rewrite Hc in I3. cbn in I3. destruct (ctr_view_frame c v) as (F1 & E1 & J1).
  unfold BConnector_Free. wp_step. eapply wp_the; [exact Hc|]. wp_step. eapply connector_remove_wp; [done..|]. intros r1 tr1 R1 A1.
  set (v1 := if have_bfd c then _ else v) in *.
  assert (Hclose : forall Q0 : unit -> sys -> list out -> Prop,
    (forall s2 tr, quiet tr -> loop s2 = r1 -> listener_ s2 = listener_ s -> con s2 = con s -> user_fds s2 = user_fds s -> user_jobs s2 = user_jobs s ->
       err_pending s2 = err_pending s -> fds_inv (set_connector None s2) -> Q0 tt s2 tr) ->
    wp (when negb (c_fd c =? -1) do close (c_fd c)) (set_loop r1 s) Q0).
  { intros Q0 HQ0. destruct (Z.eqb_spec (c_fd c) (-1)) as [E|E]; cbn [negb].
    - wp_step. apply HQ0; try done; [by constructor|]. eapply fds_inv_keep; [exact I6 | | done..]. unfold owned. cbn. rewrite Hc. cbn. by rewrite E.
    - assert (Ho : owned s ≡ₚ c_fd c :: owned (set_connector None s)).
      { unfold owned. cbn [listener_ connector_ con set_connector]. rewrite Hc, (owned_ctr_fd c (c_fd c)) by done. cbn. symmetry. apply Permutation_middle. }
      assert (Hf : c_fd c ∈ open_fds s) by (apply (fds_inv_owned s _ I6); rewrite Ho; by left).
      eapply (wp_close _ (open_fds s ∖ {[c_fd c]})); [|set_solver|].
      { cbn. apply leibniz_equiv. intros g. destruct (decide (g = c_fd c)); set_solver. }
      apply HQ0; try done; [by repeat constructor|]. apply (fds_inv_close s _ (c_fd c)); [done | exact Ho | done | done | exact (con_pipe s I6)]. }
  wp_step. apply Hclose. intros s2 tr2 Q2 El Eli Eco Euf Euj Eep F2.
  wp_step. eapply on_loop_wp; [rewrite El; apply (el_job_free_spec _ _ J_CONNECTOR R1); [by rewrite (of_user _ _ _ _ F1) | by rewrite E1, (k_init _ _ _ I3)]|].
  cbn beta. intros [] r3 tr3 R3 A3. do 2 wp_step. wp_step. set (v3 := up_init _ _) in R3.
  assert (F : other_frame B_CTR J_CONNECTOR v v3) by (eapply other_frame_trans; [exact F1 | apply other_frame_free]).
  split; [|split; [quiet_tac | done]]. exists v3.
  split; cbn; rewrite ?Eli, ?Eco, ?Eep, ?Euj; [exact R3 | by apply (lis_inv_other _ _ _ _ F) | | by apply (con_inv_other _ _ _ _ F) | apply (rest_inv_other _ _ _ _ F); auto |].
  - split_and!; [|apply lookup_delete_eq | cbn; rewrite BPending.elem_of_job_remove; tauto | done].
    cbn. unfold v1. destruct (have_bfd c) eqn:Hb; [apply lookup_delete_eq | by rewrite (k_bfd _ _ _ I3), Hb].
  - by eapply fds_inv_keep.
Qed.

Lemma connector_fd_wp k v s c : inv_at v s -> v_user v = true -> connector_ s = Some c -> have_bfd c = true ->
  wp (connector_fd_handler k) s (fun _ s' tr => aside s s' tr /\ acts tr = [Connector_Handler (negb (reported s'))]).
Proof.
  intros I Hu Hc Hb. pose proof I as [I1 I2 I3 I4 I5 I6]. rewrite Hc in I3. cbn in I3. destruct (k_have _ _ _ I3 Hb) as [H0 Hco].
  assert (Hrep : reported s = false).
  { destruct (reported s) eqn:E; [|done]. destruct (k_rep _ _ _ I3 eq_refl) as (_ & ? & _). congruence. }
  assert (Hf : c_fd c ∈ open_fds s).
  { apply (fds_inv_owned s _ I6). unfold owned. rewrite Hc, (owned_ctr_fd c (c_fd c)) by (done || lia). rewrite !elem_of_app, list_elem_of_singleton. auto. }
  unfold connector_fd_handler. wp_step. eapply wp_the; [exact Hc|]. do 2 wp_step; [lia|]. do 2 wp_step; [by rewrite Hco|]. do 2 wp_step; [done|].
  wp_step. eapply on_loop_wp; [apply (el_remove_spec _ _ B_CTR I1); [done | by rewrite (k_bfd _ _ _ I3), Hb]|]. cbn beta. intros [] r1 tr1 R1 A1.
  wp_step. unfold upd_connector. wp_step. eapply wp_the; [exact Hc|]. wp_step. wp_step. apply wp_use_fd; [done|].
  wp_step. set (s1 := set_connector _ _).
  assert (Hset : forall Q0 : unit -> sys -> list out -> Prop,
    (forall b, Q0 tt (set_connector (Some (mk_connector (c_fd c) b false)) (set_loop r1 s)) []) ->
    wp (when bool_decide (k_so_error k = Some 0) do (c <- the connector_ ;; modify (set_connector (Some (set_connected c))))) s1 Q0).
  { intros Q0 HQ0. destruct (bool_decide _).
    - wp_step. eapply wp_the; [done|]. wp_step. exact (HQ0 true).
    - wp_step. unfold s1, set_no_bfd. rewrite Hco. exact (HQ0 false). }
  apply Hset. intros b. wp_step. eapply wp_the; [done|]. do 2 wp_step. wp_step.
  pose proof (other_frame_delete B_CTR J_CONNECTOR v) as F. split; [|by rewrite !acts_app, A1]. split; [|split; [quiet_tac | done]].
  eexists. split; [exact R1 | by apply (lis_inv_other _ _ _ _ F) | | by apply (con_inv_other _ _ _ _ F) | apply (rest_inv_other _ _ _ _ F); auto |].
  - cbn. assert (Hj : J_CONNECTOR ∉ v_jobs v) by (intros Hj; destruct (k_job _ _ _ I3 Hj) as (_ & _ & ? & _); congruence).
    split; cbn; try done; [by rewrite lookup_delete_eq | apply I3 | lia].
  - eapply fds_inv_keep; try done. unfold owned. cbn. by rewrite Hc.
Qed.

(** The invariant but for the connection, which is being made, and the descriptors. *)
Record base_at (v : view) (s : sys) : Prop := mk_base_at {
  b_rep : el_rep (loop s) v;
  b_user : v_user v = true;
  b_lis : lis_inv v (listener_ s);
  b_ctr : ctr_inv v (connector_ s) (reported s);
  b_con : con_inv v None (err_pending s);
  b_rest : rest_inv v (user_jobs s);
}.

Definition new_con (h f : Z) (cl : bool) : connection := mk_con h f cl false 0 [] SEND_STATE_NOT_INITED 0 RECV_STATE_NOT_INITED.

(** The descriptor [f] can become the connection's, or can be given up. *)
Record fd_given (f : Z) (cl : bool) (s : sys) : Prop := mk_fd_given {
  g_open : f ∈ open_fds s;
  g_new o : fd o = f -> close_fd o = cl -> fds_inv (set_con (Some o) s);
  g_fail : fds_inv (set_con None (if cl then set_open (open_fds s ∖ {[f]}) s else s));
}.

Definition init_post (h f : Z) (cl b : bool) (s' : sys) (tr : list out) : Prop :=
  inv s' /\ quiet tr /\ con s' = if b then Some (new_con h f cl) else None.

Lemma init_fail1_wp f cl v s r (Q : bool -> sys -> list out -> Prop) : base_at v s -> con s = None -> fd_given f cl s -> el_rep r v ->
  (forall s' tr, inv s' -> quiet tr -> con s' = None -> Q false s' tr) -> wp (init_fail1 f cl) (set_loop r s) Q.
Proof.
  intros [B1 B2 B3 B4 B5 B6] Hc [G1 G2 G3] R' HQ. unfold init_fail1. wp_step. destruct cl.
  - apply (wp_close f (open_fds s ∖ {[f]})); [|set_solver|].
    { cbn. apply leibniz_equiv. intros g. destruct (decide (g = f)); set_solver. }
    wp_step. apply HQ; [|by repeat constructor|done]. exists v. split; try done; [cbn; by rewrite Hc|].
    eapply fds_inv_keep; [exact G3 | unfold owned; cbn; by rewrite Hc | done..].
  - wp_step. wp_step. apply HQ; [|by constructor|done]. exists v. split; try done; [cbn; by rewrite Hc|].
    eapply fds_inv_keep; [exact G3 | unfold owned; cbn; by rewrite Hc | done..].
Qed.

Definition init_view (f : Z) (v : view) : view :=
  up_init <[J_ERROR := (J_ERROR, 0)]> (up_limits <[L_RECV := (BCONNECTION_RECV_LIMIT, 0)]> (up_limits <[L_SEND := (BCONNECTION_SEND_LIMIT, 0)]> (up_fds <[B_CON := (f, 0)]> v))).

Lemma init_view_frame f v : con_frame v (init_view f v).
Proof.
  unfold init_view. eapply con_frame_trans; [apply con_frame_fds; intros p Hp; by apply lookup_insert_ne|].
  eapply con_frame_trans; [apply con_frame_limit; by left|]. eapply con_frame_trans; [apply con_frame_limit; by right|].
  apply con_frame_init. intros j _ _ Hj. by apply lookup_insert_ne.
Qed.

Lemma con_at_new h f cl v err : con_inv v None err -> con_at false false (init_view f v) (new_con h f cl) false.
Proof.
  intros (H1 & H2 & H3 & H4). destruct (H4 J_SEND) as [Is Js]; [auto|]. destruct (H4 J_RECV) as [Ir Jr]; [auto|].
  unfold init_view. split; cbn; try done.
  - by rewrite lookup_insert_eq.
  - exists 0. by rewrite lookup_insert_ne, lookup_insert_eq.
  - exists 0. by rewrite lookup_insert_eq.
  - by rewrite lookup_insert_eq.
  - by rewrite lookup_insert_ne.
  - by rewrite lookup_insert_ne.
Qed.

Lemma init_fd_wp h f cl k v s : base_at v s -> con s = None -> fd_given f cl s ->
  wp (init_fd h f cl k) s (fun b s' tr => init_post h f cl b s' tr).
Proof.
  intros B Hc G. pose proof B as [B1 B2 B3 B4 B5 B6]. pose proof B5 as (N1 & N2 & N3 & N4). unfold init_fd.
  wp_step. eapply on_loop_wp; [by apply (el_add_spec _ _ B_CON f (k_add k) B1)|]. cbn beta. intros b r1 tr1 [-> R1] A1. destruct (k_add k); cbn [negb].
  2: { eapply init_fail1_wp; [done..|]. intros s' tr I Hq Hc'. split; [done|]. split; [|done]. apply quiet_app; [by apply quiet_loop | done]. }
  wp_step. eapply on_loop_wp; [by apply (el_limit_init_spec _ _ L_SEND BCONNECTION_SEND_LIMIT R1)|]. cbn beta. intros [] r2 tr2 R2 A2.
  wp_step. eapply on_loop_wp; [apply (el_limit_init_spec _ _ L_RECV BCONNECTION_RECV_LIMIT R2); [done | cbn; by rewrite lookup_insert_ne | done]|].
  cbn beta. intros [] r3 tr3 R3 A3. do 4 wp_step.
  wp_step. eapply on_loop_wp; [apply (el_job_init_spec _ _ J_ERROR (J_ERROR, 0) R3); [done | cbn; apply N4; auto]|]. cbn beta. intros [] r4 tr4 R4 A4.
  wp_step. fold (new_con h f cl). fold (init_view f v) in R4. split; [|split; [quiet_tac | done]]. exists (init_view f v). pose proof (init_view_frame f v) as F.
  split; [exact R4 | by eapply lis_inv_frame | by eapply ctr_inv_frame | by eapply con_at_new | by eapply rest_inv_frame |].
  eapply fds_inv_keep; [apply (g_new _ _ _ G (new_con h f cl)); done | done..].
Qed.

(** A new descriptor. *)
Lemma fd_given_new s r f : fds_inv s -> con s = None -> f ∉ open_fds s -> 0 <= f -> fd_given f true (set_open ({[f]} ∪ open_fds s) (set_loop r s)).
Proof.
  intros F Hc Hf H0. split; cbn; [set_solver | |].
  - intros o Ef Ec. eapply (fds_inv_new s _ f); try done; [|by intros o' [= ->]; rewrite Ec]. unfold owned. cbn. rewrite Hc, Ec, Ef, !app_nil_r. cbn.
    symmetry. rewrite !app_assoc. apply Permutation_cons_append.
  - eapply fds_inv_keep; [exact F | unfold owned; cbn; by rewrite Hc | cbn; set_solver | done | done].
Qed.

(** A descriptor of the users: it becomes the connection's if it is to be closed. *)
Lemma fd_given_pipe s f (cl : bool) : fds_inv s -> con s = None -> f ∈ user_fds s ->
  fd_given f cl (if cl then set_user_fds (user_fds s ∖ {[f]}) s else s).
Proof.
  intros [F1 F2 F3 F4 F5] Hc Hf. assert (Hno : f ∉ owned s) by auto. unfold owned in *. rewrite Hc, app_nil_r in *. destruct cl.
  - split; cbn; [rewrite F1; auto | |].
    + intros o Ef Ec. split; unfold owned; cbn; rewrite ?Ec, ?Ef, ?app_assoc.
      * intros g. rewrite F1, elem_of_difference, elem_of_singleton, !elem_of_app, list_elem_of_singleton. destruct (decide (g = f)) as [->|]; tauto.
      * apply NoDup_app. split_and!; [done | | apply NoDup_singleton]. intros g Hg ->%list_elem_of_singleton. done.
      * intros g [Hg Hg']%elem_of_difference. rewrite elem_of_app. intros [Hin|Hin%list_elem_of_singleton]; [by apply (F3 g) | set_solver].
      * intros o' [= ->]. by rewrite Ec.
      * done.
    + split; unfold owned; cbn; rewrite ?app_nil_r; try done.
      * intros g. rewrite elem_of_difference, F1, elem_of_difference, elem_of_singleton. split; [tauto|]. intros [?|Hg]; [tauto|]. split; [auto|]. by intros ->.
      * intros g [Hg _]%elem_of_difference. auto.
      * intros g [Hg _]%elem_of_difference. auto.
  - split; cbn; [rewrite F1; auto | |].
    + intros o Ef Ec. split; unfold owned; cbn; rewrite ?Ec, ?app_nil_r; try done. intros o' [= <-] _. by rewrite Ef.
    + split; unfold owned; cbn; rewrite ?app_nil_r; done.
Qed.

(** The connector's descriptor. *)
Lemma fd_given_connector s c : fds_inv s -> con s = None -> connector_ s = Some c -> 0 <= c_fd c ->
  fd_given (c_fd c) true (set_connector (Some (set_no_fd c)) (set_reported false s)).
Proof.
  intros F Hc Hk H0. assert (Hown : owned s = owned_lis (listener_ s) ++ [c_fd c]).
  { unfold owned. rewrite Hc, Hk, (owned_ctr_fd c (c_fd c)) by (done || lia). by rewrite app_nil_r. }
  pose proof (fds_inv_owned s (c_fd c) F) as Hf. rewrite Hown, elem_of_app, list_elem_of_singleton in Hf. specialize (Hf (or_intror eq_refl)).
  split; [exact Hf | |].
  - intros o Ef Ec. destruct F as [F1 F2 F3 F4 F5].
    assert (E : owned (set_con (Some o) (set_connector (Some (set_no_fd c)) (set_reported false s))) = owned s) by (rewrite Hown; unfold owned; cbn; by rewrite Ec, Ef).
    split; rewrite ?E; try done. intros o' [= ->]. by rewrite Ec.
  - apply (fds_inv_close s _ (c_fd c)); try done. rewrite Hown. unfold owned. cbn. rewrite app_nil_r. symmetry. apply Permutation_cons_append.
Qed.
Definition init_ok (s : sys) (h : Z) (b : bool) (s' : sys) (tr : list out) : Prop :=
  inv s' /\ quiet tr /\ if b then exists f cl, con s' = Some (new_con h f cl) else con s' = None.

Lemma init_post_ok s h f cl b s' tr tr0 : init_post h f cl b s' tr -> quiet tr0 -> init_ok s h b s' (tr0 ++ tr).
Proof. intros (I & Hq & Hc) Hq0. split; [done|]. split; [by apply quiet_app|]. destruct b; [eauto | done]. Qed.

Lemma inv_base v s : inv_at v s -> v_user v = true -> con s = None -> base_at v s.
Proof. intros [I1 I2 I3 I4 I5 I6] Hu Hc. rewrite Hc in I4. by split. Qed.

Lemma set_nonblocking_wp f k s (Q : bool -> sys -> list out -> Prop) : f ∈ open_fds s -> Q (k_nonblock k) s [] -> wp (set_nonblocking f k) s Q.
Proof. intros Hf HQ. unfold set_nonblocking. wp_step. apply wp_use_fd; [done|]. by wp_step. Qed.

Definition peer_ok (k : kernel) : bool :=
  match k_peer k with
  | SYS_IN len _ _ => len =? SIZEOF_SOCKADDR_IN
  | SYS_IN6 len _ _ _ _ => len =? SIZEOF_SOCKADDR_IN6
  | SYS_OTHER _ _ => true
  end.

Lemma peer_wp (out_addr : bool) k s (Q : unit -> sys -> list out -> Prop) : peer_ok k = true -> (forall tr, quiet tr -> Q tt s tr) ->
  wp (when out_addr do (a <- addr_sys_to_socket (k_peer k) ;; emit (Peer a))) s Q.
Proof.
  intros Hk HQ. unfold peer_ok in Hk. destruct out_addr; [|wp_step; apply HQ; constructor].
  wp_step. destruct (k_peer k); cbn [addr_sys_to_socket]; [wp_step; wp_step; [done|]; wp_step; wp_step ..|wp_step; wp_step]; apply HQ; by repeat constructor.
Qed.

Lemma init_listener_wp oa h k v s l : inv_at v s -> v_user v = true -> con s = None -> listener_ s = Some l -> J_DEFAULT ∈ v_jobs v ->
  new_fd_ok k s -> peer_ok k = true -> wp (BConnection_Init (SOURCE_LISTENER oa) h k) s (init_ok s h).
Proof.
  intros I Hu Hc Hl Hj Hk Hp. pose proof I as [I1 I2 I3 I4 I5 I6]. pose proof I2 as I2'. rewrite Hl in I2'. destruct I2' as (L1 & L2 & _). cbn in L2.
  assert (Hf : l_fd l ∈ open_fds s) by (apply (fds_inv_owned s _ I6); unfold owned; rewrite Hl; by left).
  cbn [BConnection_Init]. wp_step. eapply wp_the; [exact Hl|].
  wp_step. eapply on_loop_wp; [apply (el_job_is_set_spec _ _ J_DEFAULT I1); by rewrite L2|]. cbn beta. intros b r1 tr1 [-> R1] A1.
  do 2 wp_step; [by rewrite bool_decide_true|].
  wp_step. eapply on_loop_wp; [apply (el_job_unset_spec _ _ J_DEFAULT R1); [done | by rewrite L2]|]. cbn beta. intros [] r2 tr2 R2 A2.
  set (v2 := up_jobs _ v) in R2. change (set_loop r2 (set_loop r1 s)) with (set_loop r2 s).
  assert (F : other_frame B_LIS J_DEFAULT v v2) by apply other_frame_unset.
  assert (I' : inv_at v2 (set_loop r2 s)).
  { split; [exact R2 | split_and!; cbn; rewrite ?Hl; done | by apply (ctr_inv_other _ _ _ _ F) | by apply (con_inv_other _ _ _ _ F) | apply (rest_inv_other _ _ _ _ F); auto | by eapply fds_inv_keep]. }
  wp_step. apply wp_use_fd; [done|]. destruct (k_fd k) as [f|] eqn:Hn.
  2: { wp_step. split; [by exists v2|]. split; [quiet_tac | done]. }
  destruct (Hk f Hn) as [H0 Hfo]. unfold new_fd. do 4 wp_step. set (s3 := set_open _ _).
  assert (B : base_at v2 s3).
  { pose proof (inv_base v2 _ I' Hu Hc) as [B1 B2 B3 B4 B5 B6]. by split. }
  assert (G : fd_given f true s3) by (by apply (fd_given_new s r2 f I6 Hc)).
  wp_step. apply set_nonblocking_wp; [cbn; set_solver|]. destruct (k_nonblock k); cbn [negb].
  - wp_step. apply peer_wp; [done|]. intros tr3 Q3. eapply wp_mono; [by apply (init_fd_wp h f true k v2 s3)|].
    intros b s' tr HP. change (init_ok s h b s' (tr1 ++ tr2 ++ [Accept (l_fd l) f] ++ tr3 ++ tr)). rewrite !app_assoc.
    eapply init_post_ok; [exact HP|]. apply quiet_app; [|done]. apply quiet_app; [quiet_tac | by repeat constructor].
  - apply (init_fail1_wp f true v2 s3 r2); [done | done | done | exact R2 |]. intros s' tr I1' Hq Hc'.
    split; [done|]. split; [|done]. quiet_tac; done.
Qed.

Lemma init_connector_wp h k v s : inv_at v s -> v_user v = true -> con s = None -> reported s = true ->
  wp (BConnection_Init SOURCE_CONNECTOR h k) s (init_ok s h).
Proof.
  intros I Hu Hc Hr. pose proof I as [I1 I2 I3 I4 I5 I6]. destruct (connector_ s) as [c|] eqn:Hk; cbn in I3; [|destruct I3 as (_ & _ & _ & ?); congruence].
  destruct (k_rep _ _ _ I3 Hr) as (K1 & K2 & K3).
  assert (Hj : J_CONNECTOR ∉ v_jobs v) by (intros Hj; destruct (k_job _ _ _ I3 Hj) as (_ & _ & _ & ?); congruence).
  cbn [BConnection_Init]. wp_step. eapply wp_the; [exact Hk|]. do 2 wp_step; [lia|]. do 2 wp_step; [done|]. do 2 wp_step; [by rewrite K3|].
  wp_step. eapply on_loop_wp; [apply (el_job_is_set_spec _ _ J_CONNECTOR I1); by rewrite (k_init _ _ _ I3)|]. cbn beta. intros b r1 tr1 [-> R1] A1.
  do 2 wp_step; [by rewrite bool_decide_false|]. do 2 wp_step. unfold upd_connector. wp_step. wp_step. eapply wp_the; [done|]. wp_step.
  set (s3 := set_connector _ _). assert (G : fd_given (c_fd c) true s3).
  { destruct (fd_given_connector s c I6 Hc Hk K1) as [G1 G2 G3]. split; [exact G1 | intros o Ef Ec; eapply fds_inv_keep; [by apply (G2 o) | done..] | eapply fds_inv_keep; [exact G3 | done..]]. }
  eapply wp_mono; [apply (init_fd_wp h (c_fd c) true k v s3); [|done|exact G]|].
  - split; try done; [|by rewrite Hc in I4]. cbn. destruct I3 as [B1 B2 B3 B4 B5 B6]. split; cbn; rewrite ?K3; try done. by rewrite B1, K3.
  - intros b s' tr HP. change (init_ok s h b s' (tr1 ++ tr)). eapply init_post_ok; [exact HP | quiet_tac].
Qed.

Lemma init_pipe_wp f cl h k v s : inv_at v s -> v_user v = true -> con s = None -> 0 <= f -> f ∈ user_fds s ->
  wp (BConnection_Init (SOURCE_PIPE f cl) h k) s (init_ok s h).
Proof.
  intros I Hu Hc H0 Hf. pose proof I as [I1 I2 I3 I4 I5 I6]. cbn [BConnection_Init]. do 2 wp_step; [lia|]. do 2 wp_step.
  pose proof (fd_given_pipe s f cl I6 Hc Hf) as G. set (s1 := if cl then _ else s) in *.
  assert (B : base_at v s1) by (pose proof (inv_base v s I Hu Hc) as [B1 B2 B3 B4 B5 B6]; unfold s1; destruct cl; by split).
  assert (Hc1 : con s1 = None) by (unfold s1; by destruct cl).
  wp_step. apply set_nonblocking_wp; [apply G|]. destruct (k_nonblock k); cbn [negb].
  - eapply wp_mono; [by apply (init_fd_wp h f cl k v s1)|]. intros b s' tr HP. by apply (init_post_ok s h f cl b s' tr []); [|constructor].
  - replace s1 with (set_loop (loop s1) s1) by (by destruct s1). apply (init_fail1_wp f cl v s1 (loop s1)); [done | done | done | apply B |].
    intros s' tr I1' Hq Hc'. by split_and!.
Qed.

(** The view without the connection. *)
Definition freed_view (o : connection) (v : view) : view :=
  let v := up_limits (delete L_SEND) (up_limits (delete L_RECV) (up_init (delete J_ERROR) (up_jobs (BPending.job_remove J_ERROR) v))) in
  if is_hupd o then v else up_fds (delete B_CON) v.

Lemma freed_frame o v : con_frame v (freed_view o v).
Proof.
  eapply con_frame_trans; [apply (con_frame_free v J_ERROR); auto|]. unfold freed_view.
  destruct (is_hupd o); split; try done; intros; cbn; by rewrite ?lookup_delete_ne by congruence.
Qed.

Lemma con_inv_freed v o err : con_at false false v o err -> send_state o = SEND_STATE_NOT_INITED -> recv_state o = RECV_STATE_NOT_INITED ->
  con_inv (freed_view o v) None err.
Proof.
  intros [C1 C2 C3 C4 C5 C6 C7 C8 C9 C10 C11 C12 C13 C14] Hs Hr. rewrite Hs in C5. rewrite Hr in C6, C10. split_and!.
  - unfold freed_view. destruct (is_hupd o) eqn:Eh; cbn; [exact C1 | by rewrite lookup_delete_eq].
  - unfold freed_view. destruct (is_hupd o); cbn; by rewrite lookup_delete_eq.
  - unfold freed_view. destruct (is_hupd o); cbn; by rewrite lookup_delete_ne, lookup_delete_eq.
  - assert (E : v_init (freed_view o v) = delete J_ERROR (v_init v) /\ v_jobs (freed_view o v) = BPending.job_remove J_ERROR (v_jobs v))
      by (unfold freed_view; by destruct (is_hupd o)).
    destruct E as [-> ->]. intros j Hor. rewrite BPending.elem_of_job_remove. destruct Hor as [-> | [-> | ->]].
    + rewrite lookup_delete_ne, C5 by done. split; [done | tauto].
    + rewrite lookup_delete_ne, C6 by done. split; [done|]. intros [_ Hin]. by destruct (C10 Hin).
    + rewrite lookup_delete_eq. split; [done | tauto].
Qed.

(** Giving up its descriptor, if it is to be closed. *)
Lemma close_con_wp s r o (Q : unit -> sys -> list out -> Prop) : fds_inv s -> con s = Some o ->
  (forall X tr, fds_inv (set_con None (set_open X s)) -> quiet tr -> Q tt (set_open X (set_loop r s)) tr) ->
  wp (when close_fd o do close (fd o)) (set_loop r s) Q.
Proof.
  intros F Hc HQ. destruct (close_fd o) eqn:Ecl.
  - assert (Ho : owned s ≡ₚ fd o :: owned (set_con None s)).
    { unfold owned. cbn. rewrite Hc. cbn. rewrite Ecl, app_nil_r, app_assoc. symmetry. apply Permutation_cons_append. }
    assert (Hf : fd o ∈ open_fds s) by (apply (fds_inv_owned s _ F); rewrite Ho; by left).
    apply (wp_close _ (open_fds s ∖ {[fd o]})); [|set_solver|].
    { cbn. apply leibniz_equiv. intros g. destruct (decide (g = fd o)); set_solver. }
    apply HQ; [by apply (fds_inv_close s _ (fd o)) | by repeat constructor].
  - wp_step. apply (HQ (open_fds s)); [|constructor]. destruct F as [F1 F2 F3 F4 F5].
    assert (E : owned (set_con None (set_open (open_fds s) s)) = owned s) by (unfold owned; cbn; rewrite Hc; cbn; by rewrite Ecl).
    split; rewrite ?E; done.
Qed.

Lemma bconnection_free_wp v s o : inv_at v s -> v_user v = true -> con s = Some o -> send_state o = SEND_STATE_NOT_INITED ->
  recv_state o = RECV_STATE_NOT_INITED -> wp BConnection_Free s (fun _ s' tr => inv s' /\ quiet tr /\ con s' = None).
Proof.
  intros I Hu Hc Hs Hr. pose proof I as [I1 I2 I3 I4 I5 I6]. rewrite Hc in I4. cbn in I4.
  pose proof (freed_frame o v) as F. pose proof (con_inv_freed v o _ I4 Hs Hr) as N.
  destruct I4 as [C1 [c2 C2] [c3 C3] C4 _ _ _ _ _ _ _ _ _ _]. unfold freed_view in *.
  unfold BConnection_Free. wp_step. eapply wp_the; [exact Hc|].
  wp_step. eapply on_loop_wp; [apply (el_job_free_spec _ _ J_ERROR I1); [done | by rewrite C4]|]. cbn beta. intros [] r1 tr1 R1 A1.
  do 2 wp_step; [by rewrite Hs|]. do 2 wp_step; [by rewrite Hr|].
  wp_step. eapply on_loop_wp; [apply (el_limit_free_spec _ _ L_RECV R1); [done | cbn; by rewrite C3]|]. cbn beta. intros [] r2 tr2 R2 A2.
  wp_step. eapply on_loop_wp; [apply (el_limit_free_spec _ _ L_SEND R2); [done | cbn; by rewrite lookup_delete_ne, C2]|]. cbn beta. intros [] r3 tr3 R3 A3.
  set (v3 := up_limits _ (up_limits _ _)) in *. set (v4 := if is_hupd o then v3 else _) in *.
  assert (Hrem : forall Q0 : unit -> sys -> list out -> Prop, (forall r tr, el_rep r v4 -> acts tr = [] -> Q0 tt (set_loop r s) tr) ->
    wp (when negb (is_hupd o) do on_loop (el_remove B_CON)) (set_loop r3 (set_loop r2 (set_loop r1 s))) Q0).
  { intros Q0 HQ0. unfold v4 in HQ0. destruct (is_hupd o) eqn:Eh; cbn [negb].
    - wp_step. by apply HQ0.
    - eapply on_loop_wp; [apply (el_remove_spec _ _ B_CON R3); [done | cbn; by rewrite C1]|]. cbn beta. intros [] r tr R' A. by apply HQ0. }
  wp_step. apply Hrem. intros r4 tr4 R4 A4. clear Hrem.
  wp_step. apply close_con_wp; [done..|]. intros X tr5 F5 Q5. wp_step. split; [|split; [quiet_tac; done | done]].
  exists v4. split; [done | by eapply lis_inv_frame | by eapply ctr_inv_frame | exact N | by eapply rest_inv_frame | by eapply fds_inv_keep].
Qed.
(** ** A round of the loop *)

(** The invariant but for the loop. *)
Record ok_at (v : view) (s : sys) : Prop := mk_ok_at {
  o_lis : lis_inv v (listener_ s);
  o_ctr : ctr_inv v (connector_ s) (reported s);
  o_con : con_inv v (con s) (err_pending s);
  o_rest : rest_inv v (user_jobs s);
  o_fds : fds_inv s;
}.

Lemma ok_inv v s r : ok_at v s -> el_rep r v -> inv_at v (set_loop r s).
Proof. intros [O1 O2 O3 O4 O5] R'. split; try done. by eapply fds_inv_keep. Qed.

(** The limits of the round, with the jobs as they were. *)
Lemma round_ok_at v s v' c r : inv_at v s -> round_ok v v' c -> ok_at (up_jobs (fun _ => v_jobs v) v') (set_loop r s).
Proof.
  intros [I1 I2 I3 I4 I5 I6] [E1 E2 L _]. set (w := up_jobs _ v').
  assert (Hlim : forall l n c0, v_limits v !! l = Some (n, c0) -> exists c', v_limits w !! l = Some (n, c')).
  { intros l n c0 Hl. destruct (L l) as [El|El]; rewrite Hl in El; (eexists; exact El). }
  assert (Hnone : forall l, v_limits v !! l = None -> v_limits w !! l = None).
  { intros l Hl. destruct (L l) as [El|El]; rewrite Hl in El; done. }
  assert (F : forall j, v_init w !! j = v_init v !! j) by (intros j; unfold w; cbn; by rewrite E2).
  assert (F' : forall p, v_fds w !! p = v_fds v !! p) by (intros p; unfold w; cbn; by rewrite E1).
  split.
  - destruct I2 as (H1 & H2 & H3). split_and!; [by rewrite F' | by rewrite F | done].
  - unfold ctr_inv in *. cbn. destruct (connector_ s) as [ct|].
    + destruct I3 as [K1 K2 K3 K4 K5 K6]. split; try done; [by rewrite F' | by rewrite F].
    + rewrite F', F. done.
  - unfold con_inv in *. cbn. destruct (con s) as [o|].
    + destruct I4 as [C1 [c2 C2] [c3 C3] C4 C5 C6 C7 C8 C9 C10 C11 C12 C13 C14].
      split; try done; rewrite ?F', ?F; try done; by eapply Hlim.
    + destruct I4 as (H1 & H2 & H3 & H4). split_and!; [by rewrite F' | auto | auto |]. intros j Hj. rewrite F. by apply H4.
  - destruct I5 as [H1 H2 H3 H4]. split; [intros p; rewrite F'; auto | intros l Hl1 Hl2; by apply Hnone, H2 | intros j; rewrite F; auto | done].
  - by eapply fds_inv_keep.
Qed.

(** The first job is taken from the queue. *)
Lemma pop_frame j v : other_frame 0 j (up_jobs (fun _ => j :: v_jobs v) v) v.
Proof. split; try done. intros i Hi. cbn. rewrite elem_of_cons. tauto. Qed.

Lemma con_at_err sb rb v o err err' : (err = true -> err' = true) -> con_at sb rb v o err -> con_at sb rb v o err'.
Proof.
  intros He [C1 C2 C3 C4 C5 C6 C7 C8 C9 C10 C11 C12 C13 C14]. split; try done.
  - intros Hj. destruct (C10 Hj). split; [done | auto].
  - destruct sb; [|done]. destruct C13. split; [done | auto].
  - destruct rb; [|done]. destruct C14. split; [done | auto].
Qed.

(** What the connection does in an event.  [prepared]: with the operation that the
    event starts, or as it was, with events noted. *)
Definition same_work (o o' : connection) : Prop :=
  handlers o' = handlers o /\ fd o' = fd o /\ send_state o' = send_state o /\ send_data o' = send_data o /\
  recv_state o' = recv_state o /\ recv_avail o' = recv_avail o.

Definition prepared (ev : event) (o o1 : connection) : Prop :=
  match ev with
  | E_send data _ => send_state o = SEND_STATE_READY /\ o1 = sending data o
  | E_recv avail _ => recv_state o = RECV_STATE_READY /\ o1 = receiving avail o
  | _ => same_work o o1
  end.

(** No operation starts or ends. *)
Definition calm (s s' : sys) : Prop := forall o', con s' = Some o' ->
  (send_state o' = SEND_STATE_BUSY -> exists o, con s = Some o /\ send_state o = SEND_STATE_BUSY /\ send_data o' = send_data o) /\
  (recv_state o' = RECV_STATE_BUSY -> exists o, con s = Some o /\ recv_state o = RECV_STATE_BUSY /\ recv_avail o' = recv_avail o).

Inductive did (ev : event) (s s' : sys) (tr : list out) : Prop :=
  | D_calm : quiet tr -> calm s s' -> did ev s s' tr
  | D_send o o1 o' : con s = Some o -> con s' = Some o' -> prepared ev o o1 -> send_res o1 o' (acts tr) -> did ev s s' tr
  | D_recv o o1 o' : con s = Some o -> con s' = Some o' -> prepared ev o o1 -> recv_res o1 o' (acts tr) -> did ev s s' tr.

Lemma calm_same s s' : con s' = con s -> calm s s'.
Proof. intros E o' Ho. rewrite E in Ho. split; intros Hb; by exists o'. Qed.

Lemma calm_none s s' : con s' = None -> calm s s'.
Proof. intros E o' Ho. congruence. Qed.

Lemma did_aside ev s s1 s' tr tr0 : con s1 = con s -> quiet tr0 -> aside s1 s' tr -> inv s' /\ did ev s s' (tr0 ++ tr).
Proof.
  intros E Hq (I & Hq' & Ec). split; [done|]. apply D_calm; [by apply quiet_app | apply calm_same; congruence].
Qed.

Lemma noted_work events o : same_work o (noted events o).
Proof. destruct (noted_same events o) as (? & ? & ? & ? & ? & ?). by split_and!. Qed.

Lemma fd_res_did e k s s' o o' events tr : con s = Some o -> con s' = Some o' -> fd_res events o o' (acts tr) -> did (E_round e k) s s' tr.
Proof.
  intros Ho Ho' Hr. pose proof (noted_work events o) as Hw. remember (acts tr) as l eqn:El.
  destruct Hr as [o1 l _ Hs|o1 l _ _ Hs|_ _ _|_ _ _]; subst.
  - by eapply D_send.
  - by eapply D_recv.
  - eapply (D_send _ _ _ _ o (noted events o) (noted events o)); [done..|]. destruct Hw as (E & _). rewrite <- E in El. rewrite <- El. constructor.
  - apply D_calm; [by apply quiet_loop|]. intros o2 Eo2. rewrite Ho' in Eo2. injection Eo2 as <-.
    destruct Hw as (_ & _ & E1 & E2 & E3 & E4). split; intros Hb; exists o; (split; [done|]); split; congruence.
Qed.
Lemma kernel_ok_spec k len avail s : kernel_ok k len avail s = true ->
  new_fd_ok k s /\ write_ok k len = true /\ read_ok k avail = true /\ peer_ok k = true.
Proof.
  unfold kernel_ok. rewrite !andb_true_iff. intros [[[H1 H2] H3] H4]. split_and!; try done.
  intros f Hf. rewrite Hf in H1. apply andb_true_iff in H1 as [H1 H1'%bool_decide_eq_true]. split; [lia | done].
Qed.

Lemma is_set_spec v s j : el_rep (loop s) v -> is_Some (v_init v !! j) -> is_set j s = bool_decide (j ∈ v_jobs v).
Proof.
  intros Rv Hi. destruct (wp_ok _ _ _ (el_job_is_set_spec _ _ j Rv Hi)) as (b & r & tr & E & -> & _). unfold is_set. by rewrite E.
Qed.

(** The users free the connection when an error is reported. *)
Lemma not_failed v s o : inv_at v s -> con s = Some o -> failed s = false -> J_ERROR ∉ v_jobs v.
Proof.
  intros [I1 I2 I3 I4 I5 I6] Hc. rewrite Hc in I4. unfold failed, with_con. rewrite Hc, (is_set_spec v) by (done || by rewrite (cs_error _ _ _ _ _ I4)).
  by rewrite bool_decide_eq_false.
Qed.

Lemma no_error_job v s : inv_at v s -> failed s = false -> J_ERROR ∉ v_jobs v.
Proof.
  intros I Hf. destruct (con s) as [o|] eqn:Hc; [by eapply not_failed|]. destruct I as [_ _ _ I4 _ _]. rewrite Hc in I4. destruct I4 as (_ & _ & _ & Hn). apply Hn. auto.
Qed.

Lemma con_open s o : fds_inv s -> con s = Some o -> fd o ∈ open_fds s.
Proof.
  intros F Hc. apply (fi_open _ F). destruct (close_fd o) eqn:E.
  - right. unfold owned. rewrite Hc. cbn. rewrite E, !elem_of_app, list_elem_of_singleton. auto.
  - left. by eapply (fi_pipe _ F).
Qed.

(** A step of the connection from the state [s1], which the event [ev] has brought about. *)
Lemma con_step_did v s o (P : connection -> list out -> Prop) (Q : unit -> sys -> list out -> Prop) :
  others_at v s -> con s = Some o -> (forall o' l, P o' l -> same_fd o o') ->
  (forall s' o' tr, inv s' -> con s' = Some o' -> P o' (acts tr) -> Q tt s' tr) -> con_step v s P Q.
Proof.
  intros I Ho HP HQ r v' o' tr R' F C HPo. apply (HQ _ o'); [|done|done]. eapply inv_con_step; [exact I | exact Ho | by eapply HP | done..].
Qed.

Section Round.
Context (e : el_env) (k : kernel) (s : sys).
Abbreviation ev := (E_round e k).
Context (s1 : sys) (v' : view) (tr0 : list out) (Hquiet : acts tr0 = []) (Hcon : con s1 = con s).
Context (Hrep : el_rep (loop s1) v') (Huser : v_user v' = true).
Abbreviation goal := (fun (_ : unit) s' tr => inv s' /\ did ev s s' (tr0 ++ tr)).

Lemma aside_goal s' tr : aside s1 s' tr -> inv s' /\ did ev s s' (tr0 ++ tr).
Proof. apply did_aside; [done | by apply quiet_loop]. Qed.

(** A job is called. *)
Lemma dispatch_job_wp j h : ok_at (up_jobs (fun _ => j :: v_jobs v') v') s1 -> J_ERROR ∉ j :: v_jobs v' ->
  NoDup (j :: v_jobs v') -> new_fd_ok k s1 -> (forall o, con s1 = Some o -> read_ok k (recv_avail o) = true) -> wp (dispatch (C_job j h) k) s1 goal.
Proof.
  intros [O1 O2 O3 O4 O5] He Hn Hk Hrd. set (w := up_jobs _ v') in *. pose proof (pop_frame j v') as F. fold w in F.
  assert (Hj : j ∈ v_jobs w) by (by left). assert (O4' : rest_inv v' (user_jobs s1)) by (destruct O4; by split).
  assert (Hrest : j <> J_DEFAULT -> j <> J_CONNECTOR -> j <> J_SEND -> j <> J_RECV -> j <> J_ERROR -> inv_at v' s1).
  { intros. split; [done | by apply (lis_inv_other _ _ _ _ F) | by apply (ctr_inv_other _ _ _ _ F) | by apply (con_inv_other _ _ _ _ F) | done | done]. }
  cbn [dispatch]. destruct (Z.eqb_spec j J_DEFAULT) as [->|H1].
  { destruct (listener_ s1) as [l|] eqn:Hl; [|by destruct O1 as (_ & _ & H); specialize (H eq_refl)].
    eapply wp_mono; [apply (listener_default_wp k v' s1 l); [|done|done]|].
    - split; [done | | by apply (ctr_inv_other _ _ _ _ F) | by apply (con_inv_other _ _ _ _ F) | done | done]. rewrite Hl. destruct O1 as (L1 & L2 & L3). split_and!; done.
    - intros u s' tr Ha. by apply aside_goal. }
  destruct (Z.eqb_spec j J_CONNECTOR) as [->|H2].
  { destruct (connector_ s1) as [c|] eqn:Hc; [|by destruct O2 as (_ & _ & H & _)]. cbn in O2. destruct (k_job _ _ _ O2 Hj) as (K1 & K2 & K3 & K4).
    unfold connector_job_handler. wp_step. eapply wp_the; [exact Hc|]. do 2 wp_step; [lia|]. do 2 wp_step; [done|]. do 2 wp_step; [by rewrite K3|]. do 3 wp_step.
    apply aside_goal. split; [|by split; [repeat constructor|]]. exists v'. apply NoDup_cons in Hn as [Hn _].
    split; [done | by apply (lis_inv_other _ _ _ _ F) | | by apply (con_inv_other _ _ _ _ F) | done | by eapply fds_inv_keep].
    cbn. rewrite Hc. destruct O2 as [B1 B2 B3 B4 B5 B6]. by split. }
  destruct (Z.eqb_spec j J_SEND) as [->|H3].
  { destruct (con s1) as [o|] eqn:Hc; cbn in O3; [by destruct (cs_send_job _ _ _ _ _ O3) | destruct O3 as (_ & _ & _ & H); by destruct (H J_SEND); [auto|]]. }
  destruct (Z.eqb_spec j J_RECV) as [->|H4].
  { destruct (con s1) as [o|] eqn:Hc; cbn in O3; [|destruct O3 as (_ & _ & _ & H); by destruct (H J_RECV); [auto|]].
    apply not_elem_of_cons in He as [_ He]. eapply connection_recv_job_wp; [done | done | done | exact O3 | done | done | by apply con_open | by apply Hrd |].
    eapply con_step_did; [split; [by apply (lis_inv_other _ _ _ _ F) | by apply (ctr_inv_other _ _ _ _ F) | done | done] | done | intros o' l; apply recv_res_same |].
    intros s' o' tr I' Ho' HP. split; [done|]. eapply (D_recv _ _ _ _ o o); [congruence | done | by split_and! | by rewrite acts_app, Hquiet]. }
  destruct (Z.eqb_spec j J_ERROR) as [->|H5]; [destruct He; by left|].
  wp_step. apply aside_goal. split; [exists v'; auto | by split; [repeat constructor|]].
Qed.

(** An event of a descriptor. *)
Lemma dispatch_fd_wp p events f wait : inv_at v' s1 -> v_jobs v' = [] -> v_fds v' !! p = Some (f, wait) -> events_ok wait events = true ->
  (forall o, con s1 = Some o -> write_ok k (zlen (send_data o)) = true /\ read_ok k (recv_avail o) = true) ->
  wp (dispatch (C_fd p events) k) s1 goal.
Proof.
  intros I Hj Hp He Hkr. pose proof I as [I1 I2 I3 I4 I5 I6]. cbn [dispatch].
  destruct (Z.eqb_spec p B_LIS) as [->|H1].
  { destruct I2 as (L1 & _). rewrite L1 in Hp. destruct (listener_ s1) as [l|] eqn:Hl; [|done].
    eapply wp_mono; [by apply (listener_fd_wp v' s1 l)|]. intros u s' tr [Ha _]. by apply aside_goal. }
  destruct (Z.eqb_spec p B_CTR) as [->|H2].
  { destruct (connector_ s1) as [c|] eqn:Hc; cbn in I3; [|destruct I3 as (E & _); congruence].
    rewrite (k_bfd _ _ _ I3) in Hp. destruct (have_bfd c) eqn:Hb; [|done].
    eapply wp_mono; [by apply (connector_fd_wp k v' s1 c)|]. intros u s' tr [Ha _]. by apply aside_goal. }
  destruct (Z.eqb_spec p B_CON) as [->|H3]; [|by rewrite (re_fds _ _ I5) in Hp].
  destruct (con s1) as [o|] eqn:Hc; cbn in I4; [|destruct I4 as (E & _); congruence].
  destruct (Hkr o eq_refl) as [Hw Hr]. rewrite (cs_fd _ _ _ _ _ I4) in Hp. destruct (is_hupd o) eqn:Hh; [done|]. injection Hp as <- <-.
  set (err := has_event events Reactor.BREACTOR_ERROR && negb (has_event events Reactor.BREACTOR_HUP)).
  set (s2 := if err then set_err true s1 else s1).
  assert (E2 : wp (when err do modify (set_err true)) s1 (fun _ s' (tr : list out) => s' = s2 /\ tr = [])) by (unfold s2; destruct err; by wp_step).
  wp_step. eapply wp_mono; [exact E2|]. intros [] s3 tr3 [-> ->]. assert (Hc2 : con s2 = Some o) by (unfold s2; by destruct err).
  assert (X2 : others_at v' s2) by (destruct (inv_others _ _ I) as [X1 X2 X3 X4]; unfold s2; destruct err; split; try done; by eapply fds_inv_keep).
  eapply (connection_fd_handler_wp k s2 v' o events); [unfold s2; by destruct err | done | done | | done | done | done | | apply con_open; [apply X2 | done] | done | done |].
  - eapply con_at_err; [|exact I4]. unfold s2. by destruct err.
  - intros E1 E3. unfold s2, err. by rewrite E1, E3.
  - eapply con_step_did; [exact X2 | done | intros o' l; apply fd_res_same |]. intros s' o' tr I' Ho' HP. split; [done|].
    eapply (fd_res_did _ _ _ _ o o' events); [by rewrite <- Hcon | done | by rewrite acts_app, Hquiet].
Qed.
End Round.

Lemma round_wp e k s : inv s -> enabled (E_round e k) s = true -> wp (deliver (E_round e k)) s (fun _ s' tr => inv s' /\ did (E_round e k) s s' tr).
Proof.
  intros [v I] He. cbn [enabled] in He. rewrite !andb_true_iff in He. destruct He as [[He Hf] Hk]. apply negb_true_iff in Hf.
  apply kernel_ok_spec in Hk as (Hfd & Hw & Hr & _). pose proof (no_error_job v s I Hf) as Hje.
  cbn [deliver]. wp_step. eapply on_loop_wp; [exact (el_round_spec _ v e (i_rep _ _ I) He)|]. cbn beta. intros c r tr (v' & R' & Hround) A.
  pose proof (round_ok_at v s v' c r I Hround) as O. set (s1 := set_loop r s) in *. assert (Hcon : con s1 = con s) by done.
  assert (Hsame : v_jobs v' = v_jobs v -> inv_at v' s1).
  { intros E. rewrite <- E in O. replace (up_jobs (fun _ => v_jobs v') v') with v' in O by (by destruct v'). by apply (ok_inv v' s1 r). }
  destruct c as [[j h|t|p events]|]; destruct Hround as [Efd _ _ Hc]; cbn in Hc.
  - destruct Hc as (Hu & Hj & _). pose proof (el_nodup _ _ (i_rep _ _ I)) as Hn. rewrite Hj in O, Hje, Hn.
    eapply (dispatch_job_wp e k s s1 v' tr A Hcon); try done. intros o Ho. rewrite Hcon in Ho. by rewrite Ho in Hr.
  - destruct Hc as (Hu & Hj). cbn [dispatch]. wp_step. apply did_aside with s1; [done | by apply quiet_loop |].
    split; [exists v'; auto | by split; [repeat constructor|]].
  - destruct Hc as (Hu & Hj & Hj0 & f & wait & Hp & Hev). rewrite <- Efd in Hp.
    eapply (dispatch_fd_wp e k s s1 v' tr A Hcon Hu p events f wait); [by apply Hsame | congruence | done | done |].
    intros o Ho. rewrite Hcon in Ho. by rewrite Ho in Hw, Hr.
  - wp_step. rewrite app_nil_r. split; [exists v'; auto|]. apply D_calm; [by apply quiet_loop | by apply calm_same].
Qed.
(** ** Every event *)

Lemma calm_states s s' o o' : con s = Some o -> con s' = Some o' ->
  (send_state o' = SEND_STATE_BUSY -> send_state o = SEND_STATE_BUSY /\ send_data o' = send_data o) ->
  (recv_state o' = RECV_STATE_BUSY -> recv_state o = RECV_STATE_BUSY /\ recv_avail o' = recv_avail o) -> calm s s'.
Proof.
  intros Ho Ho' Hs Hr o2 E. rewrite Ho' in E. injection E as <-. split; intros Hb; exists o; [destruct (Hs Hb) | destruct (Hr Hb)]; by split_and!.
Qed.

Lemma user_view v s : inv_at v s -> in_user s = true -> v_user v = true.
Proof. intros I Hu. by rewrite (el_user_spec _ _ (i_rep _ _ I)). Qed.

Lemma with_con_some f s : with_con f s = true -> exists o, con s = Some o /\ f o = true.
Proof. unfold with_con. destruct (con s) as [o|]; [eauto | done]. Qed.

Lemma con_ok_some f s : con_ok f s = true -> in_user s = true /\ exists o, con s = Some o /\ f o = true.
Proof. unfold con_ok. intros [Hu Hf]%andb_true_iff. split; [done | by apply with_con_some]. Qed.

Lemma some_of {V} (x : option V) : negb (is_none x) = true -> exists y, x = Some y.
Proof. destruct x; [eauto | done]. Qed.

Lemma none_of {V} (x : option V) : is_none x = true -> x = None.
Proof. by destruct x. Qed.

(** The connection's events, from what they do to the connection. *)
Lemma con_event_wp ev v s o (m : H unit) (P : connection -> list out -> Prop) : inv_at v s -> con s = Some o ->
  (forall o' l, P o' l -> same_fd o o') ->
  (forall s' o' tr, con s' = Some o' -> P o' (acts tr) -> did ev s s' tr) ->
  (forall Q : unit -> sys -> list out -> Prop, con_step v s P Q -> wp m s Q) -> wp m s (fun _ s' tr => inv s' /\ did ev s s' tr).
Proof.
  intros I Ho HP Hd Hm. apply Hm. eapply con_step_did; [by apply inv_others | done | done |].
  intros s' o' tr I' Ho' HPo. split; [done|]. by eapply Hd.
Qed.

Lemma state_event_wp ev v s o o' (m : H unit) : inv_at v s -> con s = Some o -> same_fd o o' ->
  (send_state o' = SEND_STATE_BUSY -> send_state o = SEND_STATE_BUSY /\ send_data o' = send_data o) ->
  (recv_state o' = RECV_STATE_BUSY -> recv_state o = RECV_STATE_BUSY /\ recv_avail o' = recv_avail o) ->
  (forall Q : unit -> sys -> list out -> Prop, con_step v s (fun o2 l => l = [] /\ o2 = o') Q -> wp m s Q) -> wp m s (fun _ s' tr => inv s' /\ did ev s s' tr).
Proof.
  intros I Ho Hf Hs Hr Hm. eapply con_event_wp; [done | done | | | exact Hm].
  - by intros o2 l [_ ->].
  - intros s' o2 tr Ho' [Ha ->]. apply D_calm; [by apply quiet_loop|]. by eapply calm_states.
Qed.

Lemma connection_events_wp ev s : inv s -> enabled ev s = true ->
  match ev with
  | E_send_init | E_send_free | E_recv_init | E_recv_free | E_send _ _ | E_recv _ _ => wp (deliver ev) s (fun _ s' tr => inv s' /\ did ev s s' tr)
  | _ => True
  end.
Proof.
  intros [v I] He. destruct ev as [| | | | | | | | | | | | | | |data k|avail k| | | | | |]; try done; cbn [enabled deliver] in *; rewrite ?andb_true_iff in He.
  - destruct He as [(Hu & o & Ho & Hs)%con_ok_some Hf%negb_true_iff]. apply Z.eqb_eq in Hs. pose proof (user_view v s I Hu) as Hv.
    pose proof (i_con _ _ I) as C. rewrite Ho in C. eapply (state_event_wp _ v s o (set_send_state SEND_STATE_READY o)); [done | done | | | | intros Q HQ; eapply (send_init_wp s v o)]; try done; [by apply I | by eapply not_failed].
  - destruct (con_ok_some _ _ He) as (Hu & o & Ho & Hs). pose proof (user_view v s I Hu) as Hv. pose proof (i_con _ _ I) as C. rewrite Ho in C.
    destruct (unwait_same Reactor.BREACTOR_WRITE o) as (Ef & E1 & E2 & E3 & E4).
    eapply (state_event_wp _ v s o (set_send_state SEND_STATE_NOT_INITED (unwait Reactor.BREACTOR_WRITE o))); [done | done | | | | intros Q HQ; eapply (send_free_wp s v o)]; try done; cbn; [by rewrite E2, E4 | by apply I].
  - destruct He as [(Hu & o & Ho & Hs)%con_ok_some Hf%negb_true_iff]. apply Z.eqb_eq in Hs. pose proof (user_view v s I Hu) as Hv.
    pose proof (i_con _ _ I) as C. rewrite Ho in C. eapply (state_event_wp _ v s o (set_recv_state RECV_STATE_READY o)); [done | done | | | | intros Q HQ; eapply (recv_init_wp s v o)]; try done; [by apply I | by eapply not_failed].
  - destruct (con_ok_some _ _ He) as (Hu & o & Ho & Hs). pose proof (user_view v s I Hu) as Hv. pose proof (i_con _ _ I) as C. rewrite Ho in C.
    destruct (unwait_same Reactor.BREACTOR_READ o) as (Ef & E1 & E2 & E3 & E4).
    eapply (state_event_wp _ v s o (set_recv_state RECV_STATE_NOT_INITED (unwait Reactor.BREACTOR_READ o))); [done | done | | | | intros Q HQ; eapply (recv_free_wp s v o)]; try done; cbn; [by rewrite E1, E3 | by apply I].
  - destruct He as [[[(Hu & o & Ho & Hs)%con_ok_some Hf%negb_true_iff] Hl%Z.ltb_lt] (_ & Hw & _)%kernel_ok_spec]. apply Z.eqb_eq in Hs. pose proof (user_view v s I Hu) as Hv.
    pose proof (i_con _ _ I) as C. rewrite Ho in C.
    eapply (con_event_wp _ v s o _ (send_res (sending data o))); [done | done | | | intros Q HQ; eapply (connection_send_if_wp k s v o)]; try done.
    + intros o' l Hr. by apply send_res_same in Hr.
    + intros s' o' tr Ho' HP. by eapply D_send.
    + apply I.
    + by eapply not_failed.
    + apply con_open; [apply I | done].
  - destruct He as [[[(Hu & o & Ho & Hs)%con_ok_some Hf%negb_true_iff] Hl%Z.ltb_lt] (_ & _ & Hr & _)%kernel_ok_spec]. apply Z.eqb_eq in Hs. pose proof (user_view v s I Hu) as Hv.
    pose proof (i_con _ _ I) as C. rewrite Ho in C.
    eapply (con_event_wp _ v s o _ (recv_res (receiving avail o))); [done | done | | | intros Q HQ; eapply (connection_recv_if_wp k s v o)]; try done.
    + intros o' l Hrr. by apply recv_res_same in Hrr.
    + intros s' o' tr Ho' HP. by eapply D_recv.
    + apply I.
    + by eapply not_failed.
    + apply con_open; [apply I | done].
Qed.

(** Jobs of the users. *)
Lemma user_job_wp v s j (m : M R el_out unit) v' jobs : inv_at v s -> own_job j = false -> 
  wp m (loop s) (fun _ r _ => el_rep r v') -> other_frame 0 j v v' -> (forall i, own_job i = false -> is_Some (v_init v' !! i) <-> i ∈ jobs) ->
  (forall i, i ∈ jobs -> own_job i = false) -> v_fds v' = v_fds v ->
  wp (on_loop m) s (fun _ s' tr => inv (set_user_jobs jobs s') /\ quiet tr /\ user_jobs s' = user_jobs s /\ con s' = con s).
Proof.
  intros [I1 I2 I3 I4 I5 I6] Hj Hm F Hjobs Hown Hfd. destruct (own_jobs j Hj) as (? & ? & ? & ? & ?).
  eapply on_loop_wp; [exact Hm|]. cbn beta. intros [] r tr R' A. split; [|split; [by apply quiet_loop | by split]]. exists v'.
  split; [done | by apply (lis_inv_other _ _ _ _ F) | by apply (ctr_inv_other _ _ _ _ F) | by apply (con_inv_other _ _ _ _ F) | | by eapply fds_inv_keep].
  destruct I5 as [H5 H6 H7 H8]. split; [intros p; rewrite Hfd; auto | rewrite (of_limits _ _ _ _ F); done | done | done].
Qed.
Lemma aside_did ev s s' tr : aside s s' tr -> inv s' /\ did ev s s' tr.
Proof. intros (I & Hq & Ec). split; [done|]. apply D_calm; [done | by apply calm_same]. Qed.

Lemma did_ret {A} (m : H A) ev s : wp m s (fun _ s' tr => inv s' /\ did ev s s' tr) -> wp (m ;; ret tt) s (fun _ s' tr => inv s' /\ did ev s s' tr).
Proof. intros Hm. wp_step. eapply wp_mono; [exact Hm|]. intros a s' tr HP. wp_step. by rewrite app_nil_r. Qed.

Lemma init_ok_did ev s h b s' tr : init_ok s h b s' tr -> inv s' /\ did ev s s' tr.
Proof.
  intros (I & Hq & Hc). split; [done|]. apply D_calm; [done|]. destruct b; [|by apply calm_none].
  destruct Hc as (f & cl & Hc). intros o Ho. rewrite Hc in Ho. by injection Ho as <-.
Qed.

Lemma jobs_default v s : inv_at v s -> listener_ s <> None -> is_set J_DEFAULT s = true -> J_DEFAULT ∈ v_jobs v.
Proof.
  intros [I1 (L1 & L2 & L3) _ _ _ _] Hl Hs. rewrite (is_set_spec v) in Hs; [by apply bool_decide_eq_true in Hs | done|].
  rewrite L2. by destruct (listener_ s).
Qed.

Lemma user_fds_wp ev s : inv s -> enabled ev s = true ->
  match ev with E_user_open _ | E_user_close _ => wp (deliver ev) s (fun _ s' tr => inv s' /\ did ev s s' tr) | _ => True end.
Proof.
  intros [v I] He. pose proof I as [I1 I2 I3 I4 I5 I6]. pose proof I6 as [F1 F2 F3 F4 F5].
  destruct ev as [| | | | | | | | | | | | | | | | |f|f| | | |]; try done; cbn [enabled deliver] in *; rewrite !andb_true_iff in He.
  - destruct He as [[_ H0%Z.leb_le] Hf%bool_decide_eq_true]. unfold new_fd. wp_run. apply aside_did. split; [|by split; [constructor|]].
    exists v. split; try done. split; cbn; [set_solver | done | | set_solver | set_solver].
    intros g [->%elem_of_singleton|Hg]%elem_of_union; [|by apply F3]. intros Hin. apply Hf, F1. by right.
  - destruct He as [[_ Hf%bool_decide_eq_true] Hu%negb_true_iff]. do 2 wp_step.
    apply (wp_close f (open_fds s ∖ {[f]})); [|set_solver|].
    { cbn. apply leibniz_equiv. intros g. rewrite elem_of_union, elem_of_difference, elem_of_singleton. destruct (decide (g = f)) as [->|]; [|tauto]. rewrite F1. tauto. }
    apply aside_did. split; [|by split; [repeat constructor|]]. exists v. split; try done.
    assert (Eo : owned (set_open (open_fds s ∖ {[f]}) (set_user_fds (user_fds s ∖ {[f]}) s)) = owned s) by done.
    split; rewrite ?Eo; cbn; [| done | set_solver | | set_solver].
    + intros g. rewrite !elem_of_difference, elem_of_singleton, F1. split; [tauto|]. intros [?|Hg]; [tauto|]. split; [tauto|]. intros ->. by apply (F3 f).
    + intros o Ho Hc. apply elem_of_difference. split; [by eapply F4|]. intros E%elem_of_singleton. unfold uses, with_con in Hu. rewrite Ho in Hu. lia.
Qed.

Lemma user_jobs_wp ev s : inv s -> enabled ev s = true ->
  match ev with E_job_init _ _ | E_job_free _ | E_job_set _ | E_job_unset _ => wp (deliver ev) s (fun _ s' tr => inv s' /\ did ev s s' tr) | _ => True end.
Proof.
  intros [v I] He. pose proof I as [I1 I2 I3 I4 I5 I6]. pose proof I5 as [H1 H2 H3 H4].
  assert (Hend : forall s' tr, inv (set_user_jobs (user_jobs s) s') /\ quiet tr /\ user_jobs s' = user_jobs s /\ con s' = con s -> inv s' /\ did ev s s' tr).
  { intros s' tr (I' & Hq & E & Ec). apply aside_did. split; [|by split]. rewrite <- E in I'. by destruct s'. }
  assert (Hset : forall j, in_user s = true -> j ∈ user_jobs s -> v_user v = true /\ own_job j = false /\ is_Some (v_init v !! j)).
  { intros j Hu Hj. split; [by eapply user_view|]. split; [auto|]. apply H3; auto. }
  destruct ev as [| | | | | | | | | | | | | | | | | | |j h|j|j|j]; try done; cbn [enabled deliver] in *; rewrite !andb_true_iff in He.
  - destruct He as [[Hu%(user_view v s I) Hj%negb_true_iff] Hn%bool_decide_eq_true]. assert (Hi : v_init v !! j = None) by (apply eq_None_not_Some; by rewrite H3).
    wp_step. eapply wp_mono; [eapply (user_job_wp v s j _ _ ({[j]} ∪ user_jobs s)); [done | done | by apply (el_job_init_spec _ _ j h I1) | apply other_frame_init | | | done]|].
    + intros i Hi'. cbn. destruct (decide (i = j)) as [->|Hne]; [rewrite lookup_insert_eq; set_solver | rewrite lookup_insert_ne, H3 by done; set_solver].
    + intros i [->%elem_of_singleton|?]%elem_of_union; auto.
    + intros u s' tr (I' & Hq & E & Ec). wp_step. rewrite app_nil_r, E. apply aside_did. by split.
  - destruct He as [Hu Hj%bool_decide_eq_true]. destruct (Hset j Hu Hj) as (Hv & Ho & Hi).
    wp_step. eapply wp_mono; [eapply (user_job_wp v s j _ _ (user_jobs s ∖ {[j]})); [done | done | by apply (el_job_free_spec _ _ j I1) | apply other_frame_free | | set_solver | done]|].
    + intros i Hi'. cbn. destruct (decide (i = j)) as [->|Hne]; [rewrite lookup_delete_eq; split; [by intros []|set_solver] | rewrite lookup_delete_ne, H3 by done; set_solver].
    + intros u s' tr (I' & Hq & E & Ec). wp_step. rewrite app_nil_r, E. apply aside_did. by split.
  - destruct He as [Hu Hj%bool_decide_eq_true]. destruct (Hset j Hu Hj) as (Hv & Ho & Hi).
    eapply wp_mono; [eapply (user_job_wp v s j _ _ (user_jobs s)); [done | done | by apply (el_job_set_spec _ _ j I1) | apply other_frame_set | done | done | done]|]. auto.
  - destruct He as [Hu Hj%bool_decide_eq_true]. destruct (Hset j Hu Hj) as (Hv & Ho & Hi).
    eapply wp_mono; [eapply (user_job_wp v s j _ _ (user_jobs s)); [done | done | by apply (el_job_unset_spec _ _ j I1) | apply other_frame_unset | done | done | done]|]. auto.
Qed.

Lemma bconnection_deliver_wp ev s : inv s -> enabled ev s = true -> wp (deliver ev) s (fun _ s' tr => inv s' /\ did ev s s' tr).
Proof.
  intros Ii He. pose proof (connection_events_wp ev s Ii He) as Wc. pose proof (user_fds_wp ev s Ii He) as Wf. pose proof (user_jobs_wp ev s Ii He) as Wj.
  destruct ev as [e k|from k| |from k| |source h k| |h|n ok| | | | | | |data k|avail k|f|f|j h|j|j|j]; try done.
  - by apply round_wp.
  - destruct Ii as [v I]. cbn [enabled deliver] in *. rewrite !andb_true_iff in He. destruct He as [[Hu%(user_view v s I) Hn%none_of] (Hk & _)%kernel_ok_spec].
    apply did_ret. eapply wp_mono; [by eapply listen_wp|]. intros b s' tr [Ha _]. by apply aside_did.
  - destruct Ii as [v I]. cbn [enabled deliver] in *. rewrite !andb_true_iff in He. destruct He as [Hu%(user_view v s I) [l Hl]%some_of].
    eapply wp_mono; [by eapply listener_free_wp|]. intros u s' tr Ha. by apply aside_did.
  - destruct Ii as [v I]. cbn [enabled deliver] in *. rewrite !andb_true_iff in He. destruct He as [[Hu%(user_view v s I) Hn%none_of] (Hk & _)%kernel_ok_spec].
    apply did_ret. eapply wp_mono; [by eapply connect_wp|]. intros b s' tr [Ha _]. by apply aside_did.
  - destruct Ii as [v I]. cbn [enabled deliver] in *. rewrite !andb_true_iff in He. destruct He as [Hu%(user_view v s I) [c Hc]%some_of].
    eapply wp_mono; [by eapply connector_free_wp|]. intros u s' tr Ha. by apply aside_did.
  - destruct Ii as [v I]. cbn [enabled deliver] in *. rewrite !andb_true_iff in He. destruct He as [[[Hu%(user_view v s I) Hn%none_of] Hs] (Hk & _ & _ & Hp)%kernel_ok_spec].
    apply did_ret. eapply wp_mono with (Q := init_ok s h); [|intros b s' tr HP; by eapply init_ok_did].
    destruct source as [oa| |f cl]; cbn in Hs.
    + apply andb_true_iff in Hs as [[l Hl]%some_of Hj]. eapply init_listener_wp; try done. eapply jobs_default; [done | by rewrite Hl | done].
    + by eapply init_connector_wp.
    + apply andb_true_iff in Hs as [H0%Z.leb_le Hf%bool_decide_eq_true]. by eapply init_pipe_wp.
  - destruct Ii as [v I]. cbn [enabled deliver] in *. destruct (con_ok_some _ _ He) as (Hu%(user_view v s I) & o & Ho & [Hs%Z.eqb_eq Hr]%andb_true_iff).
    pose proof (i_con _ _ I) as C. rewrite Ho in C. destruct (cs_states _ _ _ _ _ C) as [_ Hst].
    eapply wp_mono; [eapply bconnection_free_wp; try done|].
    + unfold RECV_STATE_NOT_INITED, RECV_STATE_NOT_INITED_CLOSED in *. lia.
    + intros u s' tr (I' & Hq & Hc). split; [done|]. apply D_calm; [done | by apply calm_none].
  - destruct Ii as [v I]. cbn [enabled deliver] in *. destruct (con_ok_some _ _ He) as (Hu & o & Ho & _). pose proof (i_con _ _ I) as C. rewrite Ho in C.
    eapply (state_event_wp _ v s o (set_handlers h o)); try done; [by intros; split..|]. intros Q HQ.
    unfold BConnection_SetHandlers. eapply wp_upd_con; [done|].
    assert (E : set_con (Some (set_handlers h o)) s = set_con (Some (set_handlers h o)) (set_loop (loop s) s)) by (by destruct s). rewrite E.
    apply (HQ _ v); [apply I | apply con_frame_refl | | done]. destruct C. by split.
  - destruct Ii as [v I]. cbn [enabled deliver] in *. destruct (con_ok_some _ _ He) as (Hu & o & Ho & _).
    apply did_ret. unfold BConnection_SetSendBuffer. wp_step. eapply wp_the; [exact Ho|]. wp_step. apply wp_use_fd; [apply con_open; [apply I | done]|]. wp_step.
    apply aside_did. split; [by exists v | by split; [constructor|]].
  - cbn [enabled deliver] in *. destruct (con_ok_some _ _ He) as (Hu & o & Ho & Hs). unfold BConnection_SendAsync_GetIf. wp_step. eapply wp_the; [exact Ho|]. wp_step; [done|].
    apply aside_did. split; [done | by split; [constructor|]].
  - cbn [enabled deliver] in *. destruct (con_ok_some _ _ He) as (Hu & o & Ho & Hs). unfold BConnection_RecvAsync_GetIf. wp_step. eapply wp_the; [exact Ho|]. wp_step; [done|].
    apply aside_did. split; [done | by split; [constructor|]].
Qed.
(** ** Runs *)

(** Nothing is in the loop yet; the users have the descriptors [fds]. *)
Definition start (r : R) (fds : gset Z) : sys := mk_sys r None None None fds fds ∅ false false.
Definition fresh (r : R) (fds : gset Z) : Prop := unused r /\ (forall f, f ∈ fds -> 0 <= f).

Lemma start_inv r fds : fresh r fds -> inv (start r fds).
Proof.
  intros [(v & Rv & Ef & El & Ei & Ej) H0]. exists v. split; [done | | | | |].
  - split_and!; cbn; rewrite ?Ef, ?Ei, ?Ej; [done..|]. by intros _ ?%elem_of_nil.
  - cbn. rewrite Ef, Ei, Ej. split_and!; try done. by intros ?%elem_of_nil.
  - cbn. rewrite Ef, El, Ei, Ej. split_and!; try done. intros j _. split; [done | by intros ?%elem_of_nil].
  - split; rewrite ?Ef, ?El, ?Ei; try done. intros j _. cbn. split; [by intros [] | set_solver].
  - split; cbn; try done; [|constructor | by intros f _ ?%elem_of_nil]. intros f. rewrite elem_of_nil. tauto.
Qed.

Lemma bconnection_run_inv evs s : inv s -> exists s' steps, run evs s = Some (s', steps) /\ inv s'.
Proof.
  revert s. induction evs as [|ev evs IH]; intros s I; cbn [run]; [eauto|].
  destruct (enabled ev s) eqn:He; [|eauto].
  destruct (wp_ok _ _ _ (bconnection_deliver_wp ev s I He)) as (u & s1 & tr & -> & I1 & _).
  destruct (IH s1 I1) as (s' & steps & -> & I'). cbn. eauto.
Qed.

(** What the loop has is open. *)
Lemma registered_open v s p f w : inv_at v s -> v_fds v !! p = Some (f, w) -> f ∈ open_fds s.
Proof.
  intros I Hp. pose proof I as [I1 (L1 & _) I3 I4 I5 I6].
  assert (Hown : f ∈ owned s -> f ∈ open_fds s) by apply (fds_inv_owned s f I6).
  destruct (decide (p = B_LIS)) as [->|].
  { rewrite L1 in Hp. destruct (listener_ s) as [l|] eqn:El; [|done]. injection Hp as <- _. apply Hown. unfold owned. rewrite El. by left. }
  destruct (decide (p = B_CTR)) as [->|].
  { destruct (connector_ s) as [c|] eqn:Ec; cbn in I3; [|destruct I3 as (E & _); congruence]. rewrite (k_bfd _ _ _ I3) in Hp.
    destruct (have_bfd c) eqn:Hb; [|done]. injection Hp as <- _. destruct (k_have _ _ _ I3 Hb) as [H0 _]. apply Hown. unfold owned.
    rewrite Ec, (owned_ctr_fd c (c_fd c)) by (done || lia). rewrite !elem_of_app, list_elem_of_singleton. auto. }
  destruct (decide (p = B_CON)) as [->|]; [|by rewrite (re_fds _ _ I5) in Hp].
  destruct (con s) as [o|] eqn:Eo; cbn in I4; [|destruct I4 as (E & _); congruence]. rewrite (cs_fd _ _ _ _ _ I4) in Hp.
  destruct (is_hupd o); [done|]. injection Hp as <- _. by apply con_open.
Qed.

(** When the objects are freed, only the users' jobs are left in the loop. *)
Lemma nothing_left v s : inv_at v s -> listener_ s = None -> connector_ s = None -> con s = None ->
  v_fds v = ∅ /\ v_limits v = ∅ /\ (forall j, is_Some (v_init v !! j) <-> j ∈ user_jobs s) /\ owned s = [].
Proof.
  intros [I1 (L1 & L2 & _) I3 I4 [H1 H2 H3 H4] I6] El Ec Eo. rewrite El in L1, L2. rewrite Ec in I3. rewrite Eo in I4.
  destruct I3 as (K1 & K2 & _). destruct I4 as (N1 & N2 & N3 & N4). split_and!.
  - apply map_eq. intros p. rewrite lookup_empty. destruct (decide (p = B_LIS)) as [->|]; [done|]. destruct (decide (p = B_CTR)) as [->|]; [done|]. destruct (decide (p = B_CON)) as [->|]; auto.
  - apply map_eq. intros l. rewrite lookup_empty. destruct (decide (l = L_SEND)) as [->|]; [done|]. destruct (decide (l = L_RECV)) as [->|]; auto.
  - intros j. destruct (own_job j) eqn:Hj; [|by apply H3].
    assert (Hn : v_init v !! j = None).
    { assert (j = 1 \/ j = 2 \/ j = 3 \/ j = 4 \/ j = 5) as [-> | [-> | [-> | [-> | ->]]]] by (unfold own_job in Hj; lia); try done; apply N4; auto. }
    rewrite Hn. split; [by intros []|]. intros Hin. specialize (H4 j Hin). congruence.
  - unfold owned. by rewrite El, Ec, Eo.
Qed.

(** ** The streams *)

Definition writes (o : out) : list Z := match o with Write _ d => d | _ => [] end.
Definition acks (cur : list Z) (o : out) : list Z := match o with Send_Done n => mread cur 0 n | _ => [] end.
Definition sent (o : out) : list Z := match o with Send_Done n => [n] | _ => [] end.
Definition reads (o : out) : list Z := match o with Read _ d => if zlen d =? 0 then [] else [zlen d] | _ => [] end.
Definition done_recv (o : out) : list Z := match o with Recv_Done n => [n] | _ => [] end.

(** The data of the operation that was started last, and the room of the last one. *)
Definition next_data (ev : event) (cur : list Z) : list Z := match ev with E_send data _ => data | _ => cur end.
Definition next_avail (ev : event) (avail : Z) : Z := match ev with E_recv avail _ => avail | _ => avail end.
Definition is_send (ev : event) : bool := match ev with E_send _ _ => true | _ => false end.
Definition is_recv (ev : event) : bool := match ev with E_recv _ _ => true | _ => false end.

(** The bytes that the kernel took, and those that the sender was told are gone. *)
Definition written (steps : list (event * list out)) : list Z := steps ≫= fun st => st.2 ≫= writes.
Fixpoint acked (cur : list Z) (steps : list (event * list out)) : list Z :=
  match steps with
  | [] => []
  | (ev, tr) :: steps' => let cur := next_data ev cur in (tr ≫= acks cur) ++ acked cur steps'
  end.

(** The lengths of the reads, except at the end of the stream, and of the data that
    the receiver was told of. *)
Definition read_lens (steps : list (event * list out)) : list Z := steps ≫= fun st => st.2 ≫= reads.
Definition recv_lens (steps : list (event * list out)) : list Z := steps ≫= fun st => st.2 ≫= done_recv.
Definition send_lens (steps : list (event * list out)) : list Z := steps ≫= fun st => st.2 ≫= sent.
Fixpoint recv_fits (avail : Z) (steps : list (event * list out)) : Prop :=
  match steps with
  | [] => True
  | (ev, tr) :: steps' => let avail := next_avail ev avail in Forall (fun n => 0 < n <= avail) (tr ≫= done_recv) /\ recv_fits avail steps'
  end.
Definition sends (steps : list (event * list out)) : Z := zlen (filter (fun st => is_send st.1 = true) steps).
Definition recvs (steps : list (event * list out)) : Z := zlen (filter (fun st => is_recv st.1 = true) steps).

Lemma bind_acts {X} (g : out -> list X) tr : (forall o, g (Loop o) = []) -> acts tr ≫= g = tr ≫= g.
Proof.
  intros Hg. induction tr as [|o tr IH]; [done|]. unfold acts_of. destruct (is_loop o) eqn:E.
  - rewrite filter_cons_False by (by rewrite E). destruct o; try done. rewrite bind_cons, Hg. exact IH.
  - rewrite filter_cons_True by done. rewrite !bind_cons. f_equal. exact IH.
Qed.

Lemma bind_quiet {X} (g : out -> list X) tr : (forall o, is_data o = false -> g o = []) -> quiet tr -> tr ≫= g = [].
Proof. intros Hg. induction 1 as [|o tr Ho _ IH]; [done|]. by rewrite bind_cons, Hg, IH. Qed.

Definition send_busy (o : connection) : bool := send_state o =? SEND_STATE_BUSY.
Definition recv_busy (o : connection) : bool := recv_state o =? RECV_STATE_BUSY.

(** What is busy works on the last operation. *)
Definition works_on (cur : list Z) (avail : Z) (o : connection) : Prop :=
  (send_state o = SEND_STATE_BUSY -> send_data o = cur) /\ (recv_state o = RECV_STATE_BUSY -> recv_avail o = avail).
Definition ledger (cur : list Z) (avail : Z) (s : sys) : Prop := forall o, con s = Some o -> works_on cur avail o.

(** What the outputs of a step amount to. *)
Record accounts (cur : list Z) (avail : Z) (tr : list out) (sb sb' rb rb' : Z) : Prop := mk_accounts {
  a_sent : tr ≫= writes = tr ≫= acks cur;
  a_recv : tr ≫= reads = tr ≫= done_recv;
  a_fits : Forall (fun n => 0 < n <= avail) (tr ≫= done_recv);
  a_sends : zlen (tr ≫= sent) + sb' <= sb;
  a_recvs : zlen (tr ≫= done_recv) + rb' <= rb;
}.

Lemma accounts_acts cur avail tr sb sb' rb rb' : accounts cur avail (acts tr) sb sb' rb rb' -> accounts cur avail tr sb sb' rb rb'.
Proof. intros [A1 A2 A3 A4 A5]. rewrite !bind_acts in * by done. by split. Qed.

Lemma accounts_quiet cur avail tr sb sb' rb rb' : quiet tr -> sb' <= sb -> rb' <= rb -> accounts cur avail tr sb sb' rb rb'.
Proof.
  intros Hq Hs Hr. assert (E : forall g : out -> list Z, (forall o, is_data o = false -> g o = []) -> tr ≫= g = []) by (intros g Hg; by apply bind_quiet).
  split; rewrite !E by (by intros []); try done; unfold zlen; cbn; lia.
Qed.

Lemma prepared_works ev o o1 cur avail : prepared ev o o1 -> works_on cur avail o -> works_on (next_data ev cur) (next_avail ev avail) o1 /\
  Z.b2z (send_busy o1) = Z.b2z (send_busy o) + Z.b2z (is_send ev) /\ Z.b2z (recv_busy o1) = Z.b2z (recv_busy o) + Z.b2z (is_recv ev).
Proof.
  intros Hp [Ws Wr]. unfold send_busy, recv_busy, works_on.
  destruct ev; try (destruct Hp as (_ & _ & E1 & E2 & E3 & E4); rewrite E1, E2, E3, E4; split; [done | split; cbn; lia]).
  - destruct Hp as [E ->]. rewrite E. cbn. split_and!; try done; lia.
  - destruct Hp as [E ->]. rewrite E. cbn. split_and!; try done; lia.
Qed.

Lemma send_res_accounts cur avail o o' l : works_on cur avail o -> send_res o o' l ->
  works_on cur avail o' /\ accounts cur avail l (Z.b2z (send_busy o)) (Z.b2z (send_busy o')) (Z.b2z (recv_busy o)) (Z.b2z (recv_busy o')).
Proof.
  intros W Hr. destruct Hr as [w|n Hb Hn|].
  - split; [done | apply accounts_quiet; [constructor | done..]].
  - split; [split; [done | apply W]|]. destruct W as [Ws _]. rewrite <- (Ws Hb). unfold send_busy, recv_busy. rewrite Hb.
    split; cbn; rewrite ?app_nil_r; try done; lia.
  - split; [done | apply accounts_quiet; [by repeat constructor | done..]].
Qed.

Lemma recv_res_accounts cur avail o o' l : works_on cur avail o -> recv_res o o' l ->
  works_on cur avail o' /\ accounts cur avail l (Z.b2z (send_busy o)) (Z.b2z (send_busy o')) (Z.b2z (recv_busy o)) (Z.b2z (recv_busy o')).
Proof.
  intros W Hr. destruct Hr as [w|d Hb Hd|Hb|].
  - split; [done | apply accounts_quiet; [constructor | done..]].
  - split; [split; [apply W | done]|]. destruct W as [_ Wr]. rewrite <- (Wr Hb). unfold send_busy, recv_busy. rewrite Hb.
    assert (E : (zlen d =? 0) = false) by lia. split; cbn; rewrite ?E; try done. constructor; [lia | constructor].
  - split; [split; [apply W | done]|]. unfold send_busy, recv_busy. rewrite Hb. split; cbn; try done; constructor.
  - split; [done | apply accounts_quiet; [by repeat constructor | done..]].
Qed.

Definition con_busy (f : connection -> bool) (s : sys) : Z := Z.b2z (with_con f s).

Lemma calm_busy s s' : calm s s' ->
  con_busy send_busy s' <= con_busy send_busy s /\ con_busy recv_busy s' <= con_busy recv_busy s.
Proof.
  intros Hc. unfold con_busy, with_con. destruct (con s') as [o'|] eqn:Ho'; [|destruct (con s) as [o|]; cbn; [destruct (send_busy o), (recv_busy o)|]; cbn; lia].
  destruct (Hc o' Ho') as [Hs Hr]. split.
  - unfold send_busy at 1. destruct (Z.eqb_spec (send_state o') SEND_STATE_BUSY) as [E|]; [|destruct (con s) as [o|]; [destruct (send_busy o)|]; cbn; lia].
    destruct (Hs E) as (o & -> & Eo & _). unfold send_busy. rewrite Eo. cbn. lia.
  - unfold recv_busy at 1. destruct (Z.eqb_spec (recv_state o') RECV_STATE_BUSY) as [E|]; [|destruct (con s) as [o|]; [destruct (recv_busy o)|]; cbn; lia].
    destruct (Hr E) as (o & -> & Eo & _). unfold recv_busy. rewrite Eo. cbn. lia.
Qed.

Lemma con_ok_with f s : con_ok f s = true -> exists o, con s = Some o /\ f o = true.
Proof. unfold con_ok, with_con. intros [_ H]%andb_true_iff. destruct (con s) as [o|]; [eauto | done]. Qed.

(** What is not busy may be given a new operation. *)
Lemma calm_ledger ev s s' cur avail : calm s s' -> enabled ev s = true -> ledger cur avail s ->
  ledger (next_data ev cur) (next_avail ev avail) s'.
Proof.
  intros Hc He L o' Ho'. destruct (Hc o' Ho') as [Hs Hr]. split.
  - intros E. destruct (Hs E) as (o & Ho & Eo & ->). rewrite (proj1 (L o Ho) Eo). destruct ev; try done.
    cbn in He. rewrite !andb_true_iff in He. destruct He as [[[He _] _] _]. destruct (con_ok_with _ _ He) as (o2 & E2 & H2). simplify_eq. by rewrite Eo in H2.
  - intros E. destruct (Hr E) as (o & Ho & Eo & ->). rewrite (proj2 (L o Ho) Eo). destruct ev; try done.
    cbn in He. rewrite !andb_true_iff in He. destruct He as [[[He _] _] _]. destruct (con_ok_with _ _ He) as (o2 & E2 & H2). simplify_eq. by rewrite Eo in H2.
Qed.

Lemma did_accounts ev s s' tr cur avail : did ev s s' tr -> enabled ev s = true -> ledger cur avail s ->
  ledger (next_data ev cur) (next_avail ev avail) s' /\
  accounts (next_data ev cur) (next_avail ev avail) tr (con_busy send_busy s + Z.b2z (is_send ev)) (con_busy send_busy s')
    (con_busy recv_busy s + Z.b2z (is_recv ev)) (con_busy recv_busy s').
Proof.
  intros Hd He L. destruct Hd as [Hq Hc|o o1 o' Ho Ho' Hp Hr|o o1 o' Ho Ho' Hp Hr].
  - split; [by apply (calm_ledger ev s)|]. destruct (calm_busy s s' Hc). apply accounts_quiet; [done|..]; [destruct (is_send ev) | destruct (is_recv ev)]; cbn; lia.
  - unfold con_busy, with_con. rewrite Ho, Ho'. destruct (prepared_works ev o o1 cur avail Hp (L o Ho)) as (W & E1 & E2).
    destruct (send_res_accounts _ _ _ _ _ W Hr) as [W' A]. rewrite <- E1, <- E2. split; [|by apply accounts_acts]. intros o2 E. congruence.
  - unfold con_busy, with_con. rewrite Ho, Ho'. destruct (prepared_works ev o o1 cur avail Hp (L o Ho)) as (W & E1 & E2).
    destruct (recv_res_accounts _ _ _ _ _ W Hr) as [W' A]. rewrite <- E1, <- E2. split; [|by apply accounts_acts]. intros o2 E. congruence.
Qed.

(** What the steps of a run amount to. *)
Record run_accounts (cur : list Z) (avail : Z) (steps : list (event * list out)) (sb rb : Z) : Prop := mk_run_accounts {
  ra_sent : written steps = acked cur steps;
  ra_recv : read_lens steps = recv_lens steps;
  ra_fits : recv_fits avail steps;
  ra_sends : zlen (send_lens steps) <= sb + sends steps;
  ra_recvs : zlen (recv_lens steps) <= rb + recvs steps;
}.

Lemma accounts_cons ev tr cur avail steps sb sb' rb rb' : accounts (next_data ev cur) (next_avail ev avail) tr (sb + Z.b2z (is_send ev)) sb' (rb + Z.b2z (is_recv ev)) rb' ->
  run_accounts (next_data ev cur) (next_avail ev avail) steps sb' rb' -> run_accounts cur avail ((ev, tr) :: steps) sb rb.
Proof.
  intros [A1 A2 A3 A4 A5] [R1 R2 R3 R4 R5]. unfold written, read_lens, recv_lens, send_lens, sends, recvs in R1, R2, R4, R5.
  split; unfold written, read_lens, recv_lens, send_lens, sends, recvs; rewrite ?bind_cons, ?filter_cons; cbn [fst snd acked recv_fits].
  - by rewrite A1, R1.
  - by rewrite A2, R2.
  - done.
  - rewrite zlen_app. destruct (is_send ev); cbn [Z.b2z] in A4; [rewrite decide_True, zlen_cons by done | rewrite decide_False by done]; lia.
  - rewrite zlen_app. destruct (is_recv ev); cbn [Z.b2z] in A5; [rewrite decide_True, zlen_cons by done | rewrite decide_False by done]; lia.
Qed.

Lemma run_accounted evs s s' steps cur avail : inv s -> ledger cur avail s -> run evs s = Some (s', steps) ->
  run_accounts cur avail steps (con_busy send_busy s) (con_busy recv_busy s).
Proof.
  assert (H0 : forall sb rb cur avail, 0 <= sb -> 0 <= rb -> run_accounts cur avail [] sb rb) by (intros; split; [done.. | |]; [change (0 <= sb + 0) | change (0 <= rb + 0)]; lia).
  assert (Hb : forall f s, 0 <= con_busy f s) by (intros f s0; unfold con_busy; destruct (with_con f s0); cbn; lia).
  revert s steps cur avail. induction evs as [|ev evs IH]; intros s steps cur avail I L; cbn [run]; [intros [= <- <-]; auto|].
  destruct (enabled ev s) eqn:He; [|intros [= <- <-]; auto].
  destruct (wp_ok _ _ _ (bconnection_deliver_wp ev s I He)) as (u & s1 & tr & -> & I1 & Hd).
  destruct (run evs s1) as [[s2 st]|] eqn:Er; [|done]. cbn. intros [= <- <-].
  destruct (did_accounts _ _ _ _ _ _ Hd He L) as [L1 A]. eapply accounts_cons; [exact A|]. by apply IH.
Qed.
(** ** The properties *)

Lemma ledger_start r fds : ledger [] 0 (start r fds).
Proof. intros o. done. Qed.

(** C10. Whatever the users, the kernel and the loop do, no assertion fails and no
    descriptor is used or closed that is not open: those that are open are the users'
    and those of the objects, each in one object only, and every descriptor that the
    loop has is open.  When the three objects are freed, nothing of them is left: no
    descriptor in the loop, no limit, no job, and no open descriptor but the users'. *)
Theorem connection_safe r fds evs (Hfresh : fresh r fds) :
  exists s steps v, run evs (start r fds) = Some (s, steps) /\ el_rep (loop s) v /\
    (forall f, f ∈ open_fds s <-> f ∈ user_fds s \/ f ∈ owned s) /\
    NoDup (owned s) /\ (forall f, f ∈ user_fds s -> f ∉ owned s) /\
    (forall p f w, v_fds v !! p = Some (f, w) -> f ∈ open_fds s) /\
    (listener_ s = None -> connector_ s = None -> con s = None ->
      v_fds v = ∅ /\ v_limits v = ∅ /\ (forall j, is_Some (v_init v !! j) <-> j ∈ user_jobs s) /\ open_fds s = user_fds s).
Proof.
  destruct (bconnection_run_inv evs _ (start_inv r fds Hfresh)) as (s & steps & E & v & I). exists s, steps, v.
  pose proof (i_fds _ _ I) as [F1 F2 F3 _ _]. split_and!; [done | apply I | done.. | |].
  - intros p f w. by apply registered_open.
  - intros El Ec Eo. destruct (nothing_left v s I El Ec Eo) as (H1 & H2 & H3 & H4). split_and!; [done..|].
    apply set_eq. intros f. rewrite F1, H4, elem_of_nil. tauto.
Qed.

(** C11. The bytes that the kernel took are, in this order, those of the operations that
    the sender was told are done; the receiver is told of each read that is not the end
    of the stream, with its length, which is positive and fits what it gave room for;
    and there is at most one answer for each operation. *)
Theorem connection_stream r fds evs s steps (Hfresh : fresh r fds) (Hrun : run evs (start r fds) = Some (s, steps)) :
  written steps = acked [] steps /\ read_lens steps = recv_lens steps /\ recv_fits 0 steps /\
  zlen (send_lens steps) <= sends steps /\ zlen (recv_lens steps) <= recvs steps.
Proof.
  destruct (run_accounted evs _ s steps [] 0 (start_inv r fds Hfresh) (ledger_start r fds) Hrun) as [A1 A2 A3 A4 A5]. by split_and!.
Qed.

(** C12. An operation is never forgotten: while nothing has failed, the loop waits for
    the descriptor to be writable if a send is not done, and, if a receive is not done,
    for it to be readable, or a job will read from it; and it waits for nothing else, so
    that it does not spin. *)
Theorem connection_progress r fds evs s steps o (Hfresh : fresh r fds) (Hrun : run evs (start r fds) = Some (s, steps))
    (Hcon : con s = Some o) (Hok : failed s = false) :
  exists v, el_rep (loop s) v /\
    (send_state o = SEND_STATE_BUSY -> exists w, v_fds v !! B_CON = Some (fd o, w) /\ has_write w = true) /\
    (recv_state o = RECV_STATE_BUSY -> J_RECV ∈ v_jobs v \/ exists w, v_fds v !! B_CON = Some (fd o, w) /\ has_read w = true) /\
    (forall f w, v_fds v !! B_CON = Some (f, w) -> f = fd o /\
      (has_write w = true -> send_state o = SEND_STATE_BUSY) /\ (has_read w = true -> recv_state o = RECV_STATE_BUSY)).
Proof.
  destruct (bconnection_run_inv evs _ (start_inv r fds Hfresh)) as (s' & steps' & E & v & I). rewrite Hrun in E. injection E as <- <-.
  pose proof (not_failed v s o I Hcon Hok) as Hn. exists v. split; [apply I|]. pose proof (i_con _ _ I) as C. rewrite Hcon in C.
  destruct C as [Cfd _ _ _ _ _ _ _ _ _ Csw Crw Cs Cr]. rewrite Cfd. split_and!.
  - intros Hb. destruct (Cs Hb) as [|[-> Hw]]; [done|]. by exists (wait_events o).
  - intros Hb. destruct (Cr Hb) as [|[[-> Hw]|]]; [done | | by left]. right. by exists (wait_events o).
  - intros f w. destruct (is_hupd o); [done|]. intros [= <- <-]. auto.
Qed.
End Connection.
End Connection.

(** ** A concrete run: a pipe in the reactor *)

#[local] Existing Instance EntryList.entry_list.

Module ConnectionDemo.
Import Connection LoopDemo.

Definition k_none : kernel := mk_kernel true None true true true true C_failed true (SYS_OTHER 0 2) None W_again R_again.
Definition k_with (w : write_result) (r : read_result) : kernel := mk_kernel true None true true true true C_failed true (SYS_OTHER 0 2) None w r.

Definition evs_pipe : list (event (R := reactor)) :=
  [E_init (SOURCE_PIPE 3 true) 9 k_none; E_send_init; E_recv_init; E_send [1; 2; 3] (k_with (W_bytes 2) R_again); E_recv 10 k_none].
Definition evs_read : list (event (R := reactor)) :=
  [E_round (Reactor.E_exec 20) k_none; E_round (Reactor.E_wake (Reactor.W_ready [Reactor.mk_event (Some B_CON) 1]) 30) k_none;
   E_round (Reactor.E_exec 31) (k_with W_again (R_bytes [7; 8]))].
Definition evs_end : list (event (R := reactor)) := [E_recv_free; E_send_free; E_free].

Lemma fds_demo : fresh reactor_demo {[3]}.
Proof. split; [exact reactor_demo_unused | intros f ->%elem_of_singleton; lia]. Qed.

Definition end_of (r : option (sys (R := reactor) * list (event * list out))) : sys := match r with Some (s, _) => s | None => start reactor_demo {[3]} end.
Definition steps_of (r : option (sys (R := reactor) * list (event * list out))) : list (event * list out) := match r with Some (_, l) => l | None => [] end.
Definition run_demo (evs : list event) : option (sys (R := reactor) * list (event * list out)) := run evs (start reactor_demo {[3]}).

Lemma run_demo_eq evs : run_demo evs = Some (end_of (run_demo evs), steps_of (run_demo evs)).
Proof. unfold run_demo. by destruct (bconnection_run_inv evs _ (start_inv reactor_demo {[3]} fds_demo)) as (s & steps & -> & _). Qed.

Definition evs_all : list (event (R := reactor)) := evs_pipe ++ evs_read ++ evs_end.

Lemma connection_safe_witness : fresh reactor_demo {[3]} /\
  length (steps_of (run_demo evs_all)) = 11%nat /\ is_none (con (end_of (run_demo evs_all))) = true /\
  exists s steps v, run_demo evs_all = Some (s, steps) /\ el_rep (loop s) v /\ NoDup (owned s).
Proof.
  split; [exact fds_demo|]. split; [vm_cast_no_check (eq_refl 11%nat)|]. split; [vm_cast_no_check (eq_refl true)|].
  destruct (connection_safe reactor_demo {[3]} evs_all fds_demo) as (s & steps & v & E & Rv & _ & Hn & _).
  exists s, steps, v. split; [exact E | split; [exact Rv | exact Hn]].
Defined.

Lemma connection_stream_witness (steps := steps_of (run_demo evs_all)) :
  written steps = [1; 2] /\ recv_lens steps = [2] /\ written steps = acked [] steps.
Proof.
  split; [vm_cast_no_check (eq_refl [1; 2])|]. split; [vm_cast_no_check (eq_refl [2])|].
  exact (proj1 (connection_stream reactor_demo {[3]} evs_all _ _ fds_demo (run_demo_eq evs_all))).
Defined.

Definition con_demo : connection := mk_con 9 3 true false 1 [1; 2; 3] SEND_STATE_READY 10 RECV_STATE_BUSY.

Lemma connection_progress_witness (s := end_of (run_demo evs_pipe)) :
  con s = Some con_demo /\ exists v, el_rep (loop s) v /\
    (recv_state con_demo = RECV_STATE_BUSY -> J_RECV ∈ v_jobs v \/ exists w, v_fds v !! B_CON = Some (fd con_demo, w) /\ has_read w = true).
Proof.
  assert (Hc : con s = Some con_demo) by (vm_cast_no_check (eq_refl (Some con_demo))).
  assert (Hf : failed s = false) by (vm_cast_no_check (eq_refl false)).
  split; [exact Hc|].
  destruct (connection_progress reactor_demo {[3]} evs_pipe s _ con_demo fds_demo (run_demo_eq evs_pipe) Hc Hf) as (v & Rv & _ & H & _).
  exists v. split; [exact Rv | exact H].
Defined.
End ConnectionDemo.
