(* ===== verification/BDatagram.v ===== *)
(** * BDatagram: datagram sockets in the event loop

    Model of [badvpn/system/BDatagram_unix.c].  There is one object, [dg], in the loop
    with the descriptor [B_DG], two limits and its jobs.  As in [BConnection] the loop is
    any [EventLoop]: a round of it ([E_round]) calls the handlers of this file, the other
    events are calls of the users, among them those of the two interfaces ([E_send],
    [E_recv]), and [kernel] has the results of the system calls of an event.

    [spec] is what the object promises: a datagram is sent when there is one and the
    addresses are known, one is received when there is room and receiving has begun. *)

From S2P Require Import Prelude BAddr SearchTree BPending BReactor EventLoop.
Open Scope mon_scope.

#[local] Arguments Z.land : simpl never.
#[local] Arguments Z.lor : simpl never.
#[local] Arguments Z.lnot : simpl never.
#[local] Arguments BPending.job_remove : simpl never.

Module Datagram.

Definition BDATAGRAM_EVENT_ERROR : Z := 1.
Definition BDATAGRAM_SEND_LIMIT : Z := 2.
Definition BDATAGRAM_RECV_LIMIT : Z := 2.

(** Addresses of the parts of the object. *)
Definition B_DG : Z := 1.
Definition L_SEND : Z := 1.
Definition L_RECV : Z := 2.
Definition J_SEND : Z := 1.
Definition J_RECV : Z := 2.
Definition J_ERROR : Z := 3.
Definition own_job (j : Z) : bool := (1 <=? j) && (j <=? 3).

(** ** Data *)

(** [struct sys_addr] with its length. *)
Inductive sys_addr :=
  | SYS_IN (len port ip : Z)
  | SYS_IN6 (len port flowinfo : Z) (ip : list Z) (scope : Z)
  | SYS_LL (len protocol ifindex hatype pkttype halen : Z) (addr : list Z)
  | SYS_OTHER (len family : Z).

(** A control message. *)
Inductive cmsg :=
  | IP_PKTINFO (ip : Z)            (** sending: [ipi_spec_dst], receiving: [ipi_addr] *)
  | IPV6_PKTINFO (ip : list Z)
  | CMSG_OTHER (level type : Z).

Record send_part := mk_send {
  s_have_addrs : bool;
  s_remote_addr : BAddr;
  s_local_addr : BIPAddr;
  s_inited : bool;
  s_mtu : Z;
  s_busy : bool;
  s_busy_data : list Z;
}.

Record recv_part := mk_recv {
  started : bool;
  r_have_addrs : bool;
  r_remote_addr : BAddr;
  r_local_addr : BIPAddr;
  r_inited : bool;
  r_mtu : Z;
  r_busy : bool;
}.

Record datagram := mk_dg { fd : Z; wait_events : Z; send : send_part; recv : recv_part }.

Definition set_wait_events (w : Z) (o : datagram) : datagram := mk_dg (fd o) w (send o) (recv o).
Definition on_send (f : send_part -> send_part) (o : datagram) : datagram := mk_dg (fd o) (wait_events o) (f (send o)) (recv o).
Definition on_recv (f : recv_part -> recv_part) (o : datagram) : datagram := mk_dg (fd o) (wait_events o) (send o) (f (recv o)).

Definition send_addrs (r : BAddr) (l : BIPAddr) (p : send_part) : send_part :=
  mk_send (s_have_addrs p) r l (s_inited p) (s_mtu p) (s_busy p) (s_busy_data p).
Definition send_have (p : send_part) : send_part :=
  mk_send true (s_remote_addr p) (s_local_addr p) (s_inited p) (s_mtu p) (s_busy p) (s_busy_data p).
Definition send_inited (i : bool) (p : send_part) : send_part :=
  mk_send (s_have_addrs p) (s_remote_addr p) (s_local_addr p) i (s_mtu p) (s_busy p) (s_busy_data p).
Definition send_mtu (n : Z) (p : send_part) : send_part :=
  mk_send (s_have_addrs p) (s_remote_addr p) (s_local_addr p) (s_inited p) n (s_busy p) (s_busy_data p).
Definition send_busy (b : bool) (p : send_part) : send_part :=
  mk_send (s_have_addrs p) (s_remote_addr p) (s_local_addr p) (s_inited p) (s_mtu p) b (s_busy_data p).
Definition send_data (d : list Z) (p : send_part) : send_part :=
  mk_send (s_have_addrs p) (s_remote_addr p) (s_local_addr p) (s_inited p) (s_mtu p) (s_busy p) d.

Definition recv_started (p : recv_part) : recv_part :=
  mk_recv true (r_have_addrs p) (r_remote_addr p) (r_local_addr p) (r_inited p) (r_mtu p) (r_busy p).
Definition recv_have (p : recv_part) : recv_part :=
  mk_recv (started p) true (r_remote_addr p) (r_local_addr p) (r_inited p) (r_mtu p) (r_busy p).
Definition recv_remote (r : BAddr) (p : recv_part) : recv_part :=
  mk_recv (started p) (r_have_addrs p) r (r_local_addr p) (r_inited p) (r_mtu p) (r_busy p).
Definition recv_local (l : BIPAddr) (p : recv_part) : recv_part :=
  mk_recv (started p) (r_have_addrs p) (r_remote_addr p) l (r_inited p) (r_mtu p) (r_busy p).
Definition recv_inited (i : bool) (p : recv_part) : recv_part :=
  mk_recv (started p) (r_have_addrs p) (r_remote_addr p) (r_local_addr p) i (r_mtu p) (r_busy p).
Definition recv_mtu (n : Z) (p : recv_part) : recv_part :=
  mk_recv (started p) (r_have_addrs p) (r_remote_addr p) (r_local_addr p) (r_inited p) n (r_busy p).
Definition recv_busy (b : bool) (p : recv_part) : recv_part :=
  mk_recv (started p) (r_have_addrs p) (r_remote_addr p) (r_local_addr p) (r_inited p) (r_mtu p) b.

(** Results of the system calls. *)
Inductive send_result := W_bytes (n : Z) | W_again | W_error.
Inductive recv_result := R_msg (data : list Z) (from : sys_addr) (control : list cmsg) | R_again | R_error.

(** [k_fd]: of [socket]; [k_add]: of [epoll_ctl]. *)
Record kernel := mk_kernel {
  k_fd : option Z;
  k_nonblock : bool;
  k_add : bool;
  k_bind : bool;
  k_send : send_result;
  k_recv : recv_result;
}.

Section Datagram.
Context {R : Type} {EL : EventLoop R}.

(** [user_jobs]: the jobs of the users.  [err_pending]: the kernel has told of an error on
    the descriptor; then sending and receiving fail until an error is returned. *)
Record sys := mk_sys {
  loop : R;
  dg : option datagram;
  open_fds : gset Z;
  user_jobs : gset Z;
  err_pending : bool;
}.

Inductive out :=
  | Loop (o : el_out)
  | Socket (fd domain : Z) | Set_Pktinfo (fd family : Z) | Bind (fd : Z) (addr : sys_addr) | Close (fd : Z)
  | Sendmsg (fd : Z) (to : sys_addr) (control : option cmsg) (data : list Z)
  | Recvmsg (fd : Z) (data : list Z) (from : BAddr) (local : BIPAddr)
  | Handler (event : Z)
  | Send_Done | Recv_Done (n : Z)               (** of the interfaces *)
  | Addrs (a : option (BAddr * BIPAddr))        (** [BDatagram_GetLastReceiveAddrs] *)
  | Other_Call (c : call).

Abbreviation H := (M sys out).

Definition set_loop (r : R) (s : sys) : sys := mk_sys r (dg s) (open_fds s) (user_jobs s) (err_pending s).
Definition set_dg (o : option datagram) (s : sys) : sys := mk_sys (loop s) o (open_fds s) (user_jobs s) (err_pending s).
Definition set_open (f : gset Z) (s : sys) : sys := mk_sys (loop s) (dg s) f (user_jobs s) (err_pending s).
Definition set_user_jobs (f : gset Z) (s : sys) : sys := mk_sys (loop s) (dg s) (open_fds s) f (err_pending s).
Definition set_err (b : bool) (s : sys) : sys := mk_sys (loop s) (dg s) (open_fds s) (user_jobs s) b.

Definition on_loop {A} (m : M R el_out A) : H A := embed loop set_loop Loop m.

(** The object, which must be there. *)
Definition the_dg : H datagram := s <- get ;; match dg s with Some o => ret o | None => fail F_bounds end.
Definition upd (f : datagram -> datagram) : H unit := o <- the_dg ;; modify (set_dg (Some (f o))).

Definition use_fd (f : Z) : H unit :=
  s <- get ;; if bool_decide (f ∈ open_fds s) then ret tt else fail F_bounds.
Definition new_fd (f : Z) : H unit := modify (fun s => set_open ({[f]} ∪ open_fds s) s).
Definition close (f : Z) : H unit :=
  use_fd f ;; modify (fun s => set_open (open_fds s ∖ {[f]}) s) ;; emit (Close f).

(** ** Addresses *)

Definition AF_INET : Z := 2.
Definition AF_INET6 : Z := 10.
Definition AF_PACKET : Z := 17.
Definition SIZEOF_SOCKADDR_IN : Z := 16.
Definition SIZEOF_SOCKADDR_IN6 : Z := 28.
Definition SIZEOF_SOCKADDR_LL : Z := 20.
Definition OFFSET_SLL_ADDR : Z := 12.

Definition family_socket_to_sys (family : Z) : H Z :=
  if family =? 1 then ret AF_INET else
  if family =? 2 then ret AF_INET6 else
  if family =? 5 then ret AF_PACKET else fail F_assert.

(** [BADDR_PACKET_PACKET_TYPE_...] are 1 to 5, in the order of [PACKET_HOST], 0, to
    [PACKET_OUTGOING], 4. *)
Definition packet_type_to_sys (t : Z) : option Z := if (1 <=? t) && (t <=? 5) then Some (t - 1) else None.
Definition packet_type_to_socket (t : Z) : option Z := if (0 <=? t) && (t <=? 4) then Some (t + 1) else None.

Definition addr_socket_to_sys (addr : BAddr) : H sys_addr :=
  match addr with
  | BADDR_IPV4 ip port => ret (SYS_IN SIZEOF_SOCKADDR_IN port ip)
  | BADDR_IPV6 ip port => ret (SYS_IN6 SIZEOF_SOCKADDR_IN6 port 0 ip 0)
  | BADDR_PACKET proto ifindex header_type packet_type phys_addr =>
      assert (header_type =? 1) ;;
      match packet_type_to_sys packet_type with
      | Some t => ret (SYS_LL SIZEOF_SOCKADDR_LL proto ifindex 1 t 6 (take 6 phys_addr))
      | None => fail F_assert
      end
  | BADDR_NONE => fail F_assert
  end.

Definition addr_sys_to_socket (addr : sys_addr) : H BAddr :=
  match addr with
  | SYS_IN len port ip => assert (len =? SIZEOF_SOCKADDR_IN) ;; ret (BAddr_MakeIPv4 ip port)
  | SYS_IN6 len port _ ip _ => assert (len =? SIZEOF_SOCKADDR_IN6) ;; ret (BAddr_MakeIPv6 ip port)
  | SYS_LL len protocol ifindex hatype pkttype halen a =>
      if len <? OFFSET_SLL_ADDR + 6 then ret BAddr_MakeNone else
      if negb (hatype =? 1) then ret BAddr_MakeNone else
      match packet_type_to_socket pkttype with
      | None => ret BAddr_MakeNone
      | Some t =>
          if negb (halen =? 6) then ret BAddr_MakeNone else
          match BAddr_InitPacket protocol ifindex 1 t a with Some b => ret b | None => fail F_assert end
      end
  | SYS_OTHER _ _ => ret BAddr_MakeNone
  end.

Definition BDatagram_AddressFamilySupported (family : Z) : bool := (family =? 1) || (family =? 2) || (family =? 5).

(** The result of [setsockopt] is only logged. *)
Definition set_pktinfo (f family : Z) : H unit :=
  use_fd f ;; when (family =? 1) || (family =? 2) do emit (Set_Pktinfo f family).

(** The control message for the local address. *)
Definition local_control (a : BIPAddr) : option cmsg :=
  match a with BIP_NONE => None | BIP_IPV4 ip => Some (IP_PKTINFO ip) | BIP_IPV6 ip => Some (IPV6_PKTINFO ip) end.

(** The loop over the control messages of [recvmsg]. *)
Fixpoint local_addr_of (control : list cmsg) (a : BIPAddr) : BIPAddr :=
  match control with
  | [] => a
  | IP_PKTINFO ip :: c => local_addr_of c (BIPAddr_InitIPv4 ip)
  | IPV6_PKTINFO ip :: c => local_addr_of c (BIPAddr_InitIPv6 ip)
  | CMSG_OTHER _ _ :: c => local_addr_of c a
  end.
(** ** Sending and receiving *)

Definition DebugError_AssertNoError : H unit := e <- on_loop (el_job_is_set J_ERROR) ;; assert (negb e).

Definition report_error : H unit :=
  DebugError_AssertNoError ;;
  e <- on_loop (el_job_is_set J_ERROR) ;; assert (negb e) ;;
  on_loop (el_job_set J_ERROR) ;;
  emit (Handler BDATAGRAM_EVENT_ERROR).

Definition set_events (w : Z) : H unit := upd (set_wait_events w) ;; on_loop (el_events B_DG w).

(** Waiting for the descriptor. *)
Definition wait_for (event : Z) : H unit := o <- the_dg ;; set_events (Z.lor (wait_events o) event).

(** [sendmsg] and [recvmsg]: they fail while there is an error to return. *)
Definition sys_sendmsg (f : Z) (k : kernel) : H send_result :=
  use_fd f ;; s <- get ;; ret (if err_pending s then W_error else k_send k).
Definition sys_recvmsg (f : Z) (k : kernel) : H recv_result :=
  use_fd f ;; s <- get ;; ret (if err_pending s then R_error else k_recv k).

(** Receiving begins with the first datagram sent, or when the socket is bound. *)
Definition start_recv : H unit :=
  o <- the_dg ;;
  if started (recv o) then ret tt else
  upd (on_recv recv_started) ;;
  when r_inited (recv o) && r_busy (recv o) do on_loop (el_job_set J_RECV).

Definition do_send (k : kernel) : H unit :=
  DebugError_AssertNoError ;;
  o <- the_dg ;;
  assert (s_inited (send o)) ;;
  assert (s_busy (send o)) ;;
  assert (s_have_addrs (send o)) ;;
  ok <- on_loop (el_limit_inc L_SEND) ;;
  if negb ok then wait_for Reactor.BREACTOR_WRITE else
  a <- addr_socket_to_sys (s_remote_addr (send o)) ;;
  r <- sys_sendmsg (fd o) k ;;
  match r with
  | W_again => wait_for Reactor.BREACTOR_WRITE
  | W_error => report_error
  | W_bytes bytes =>
      emit (Sendmsg (fd o) a (local_control (s_local_addr (send o))) (mread (s_busy_data (send o)) 0 bytes)) ;;
      assert (bytes >=? 0) ;;
      assert (bytes <=? zlen (s_busy_data (send o))) ;;
      start_recv ;;
      upd (on_send (send_busy false)) ;;
      emit Send_Done
  end.

Definition do_recv (k : kernel) : H unit :=
  DebugError_AssertNoError ;;
  o <- the_dg ;;
  assert (r_inited (recv o)) ;;
  assert (r_busy (recv o)) ;;
  assert (started (recv o)) ;;
  ok <- on_loop (el_limit_inc L_RECV) ;;
  if negb ok then wait_for Reactor.BREACTOR_READ else
  r <- sys_recvmsg (fd o) k ;;
  match r with
  | R_again => wait_for Reactor.BREACTOR_READ
  | R_error => report_error
  | R_msg data from control =>
      assert (zlen data <=? r_mtu (recv o)) ;;
      a <- addr_sys_to_socket from ;;
      upd (on_recv (recv_remote a)) ;;
      let local := local_addr_of control BIPAddr_InitInvalid in
      emit (Recvmsg (fd o) data a local) ;;
      upd (on_recv (recv_local local)) ;;
      upd (on_recv recv_have) ;;
      upd (on_recv (recv_busy false)) ;;
      emit (Recv_Done (zlen data))
  end.

Definition can_send (o : datagram) : bool := s_inited (send o) && s_busy (send o) && s_have_addrs (send o).
Definition can_recv (o : datagram) : bool := r_inited (recv o) && r_busy (recv o) && started (recv o).

Definition have_send (events : Z) (o : datagram) : bool :=
  has_event events Reactor.BREACTOR_WRITE || (has_event events BREACTOR_ERROR_HUP && can_send o).
Definition have_recv (events : Z) (o : datagram) : bool :=
  has_event events Reactor.BREACTOR_READ || (has_event events BREACTOR_ERROR_HUP && can_recv o).

(** The asserts of [fd_handler] and of the jobs. *)
Definition assert_send (o : datagram) : H unit :=
  assert (s_inited (send o)) ;; assert (s_busy (send o)) ;; assert (s_have_addrs (send o)).
Definition assert_recv (o : datagram) : H unit :=
  assert (r_inited (recv o)) ;; assert (r_busy (recv o)) ;; assert (started (recv o)).

Definition fd_handler (events : Z) (k : kernel) : H unit :=
  DebugError_AssertNoError ;;
  o <- the_dg ;;
  set_events (Z.land (wait_events o) (Z.lnot events)) ;;
  (when have_send events o do assert_send o) ;;
  (when have_recv events o do assert_recv o) ;;
  if have_send events o then
    (when have_recv events o do on_loop (el_job_set J_RECV)) ;;
    do_send k
  else if have_recv events o then do_recv k
  else report_error.

Definition send_job_handler (k : kernel) : H unit :=
  DebugError_AssertNoError ;; o <- the_dg ;; assert_send o ;; do_send k.

Definition recv_job_handler (k : kernel) : H unit :=
  DebugError_AssertNoError ;; o <- the_dg ;; assert_recv o ;; do_recv k.

Definition send_if_handler_send (data : list Z) : H unit :=
  DebugError_AssertNoError ;;
  o <- the_dg ;;
  assert (s_inited (send o)) ;;
  assert (negb (s_busy (send o))) ;;
  assert (zlen data <=? s_mtu (send o)) ;;
  upd (on_send (send_data data)) ;;
  upd (on_send (send_busy true)) ;;
  when s_have_addrs (send o) do on_loop (el_job_set J_SEND).

Definition recv_if_handler_recv : H unit :=
  DebugError_AssertNoError ;;
  o <- the_dg ;;
  assert (r_inited (recv o)) ;;
  assert (negb (r_busy (recv o))) ;;
  upd (on_recv (recv_busy true)) ;;
  when started (recv o) do on_loop (el_job_set J_RECV).

(** ** Operations *)

(** [fail1] of [BDatagram_Init]. *)
Definition init_fail1 (f : Z) : H bool := close f ;; ret false.

Definition new_dg (f : Z) : datagram :=
  mk_dg f 0 (mk_send false BADDR_NONE BIP_NONE false 0 false []) (mk_recv false false BADDR_NONE BIP_NONE false 0 false).

Definition BDatagram_Init (family : Z) (k : kernel) : H bool :=
  assert (BDatagram_AddressFamilySupported family) ;;
  domain <- family_socket_to_sys family ;;
  match k_fd k with
  | None => ret false
  | Some f =>
      new_fd f ;; emit (Socket f domain) ;;
      use_fd f ;;
      if negb (k_nonblock k) then init_fail1 f else
      set_pktinfo f family ;;
      added <- on_loop (el_add B_DG f (k_add k)) ;;
      if negb added then init_fail1 f else
      on_loop (el_limit_init L_SEND BDATAGRAM_SEND_LIMIT) ;;
      on_loop (el_limit_init L_RECV BDATAGRAM_RECV_LIMIT) ;;
      modify (set_dg (Some (new_dg f))) ;;
      modify (set_err false) ;;
      on_loop (el_job_init J_ERROR (J_ERROR, 0)) ;;
      ret true
  end.

Definition BDatagram_Free : H unit :=
  o <- the_dg ;;
  on_loop (el_job_free J_ERROR) ;;
  assert (negb (r_inited (recv o))) ;;
  assert (negb (s_inited (send o))) ;;
  on_loop (el_limit_free L_RECV) ;;
  on_loop (el_limit_free L_SEND) ;;
  on_loop (el_remove B_DG) ;;
  close (fd o) ;;
  modify (set_dg None).

Definition BDatagram_Bind (addr : BAddr) (k : kernel) : H bool :=
  DebugError_AssertNoError ;;
  assert (BDatagram_AddressFamilySupported (baddr_type addr)) ;;
  o <- the_dg ;;
  a <- addr_socket_to_sys addr ;;
  use_fd (fd o) ;;
  if negb (k_bind k) then ret false else
  emit (Bind (fd o) a) ;;
  start_recv ;;
  ret true.

Definition BDatagram_SetSendAddrs (remote : BAddr) (local : BIPAddr) : H unit :=
  DebugError_AssertNoError ;;
  assert (BDatagram_AddressFamilySupported (baddr_type remote)) ;;
  assert ((bip_type local =? 0) || BDatagram_AddressFamilySupported (bip_type local)) ;;
  upd (on_send (send_addrs remote local)) ;;
  o <- the_dg ;;
  if s_have_addrs (send o) then ret tt else
  upd (on_send send_have) ;;
  when s_inited (send o) && s_busy (send o) do on_loop (el_job_set J_SEND).

Definition BDatagram_GetLastReceiveAddrs : H unit :=
  o <- the_dg ;;
  emit (Addrs (if r_have_addrs (recv o) then Some (r_remote_addr (recv o), r_local_addr (recv o)) else None)).

Definition BDatagram_GetFd : H Z := o <- the_dg ;; ret (fd o).

(** [ok]: [setsockopt] succeeds. *)
Definition BDatagram_SetReuseAddr (reuse : Z) (ok : bool) : H bool :=
  assert ((reuse =? 0) || (reuse =? 1)) ;; o <- the_dg ;; use_fd (fd o) ;; ret ok.

Definition BDatagram_SendAsync_Init (mtu : Z) : H unit :=
  DebugError_AssertNoError ;;
  o <- the_dg ;;
  assert (negb (s_inited (send o))) ;;
  assert (mtu >=? 0) ;;
  upd (on_send (send_mtu mtu)) ;;
  on_loop (el_job_init J_SEND (J_SEND, 0)) ;;
  upd (on_send (send_busy false)) ;;
  upd (on_send (send_inited true)).

Definition BDatagram_SendAsync_Free : H unit :=
  o <- the_dg ;;
  assert (s_inited (send o)) ;;
  set_events (Z.land (wait_events o) (Z.lnot Reactor.BREACTOR_WRITE)) ;;
  on_loop (el_job_free J_SEND) ;;
  upd (on_send (send_inited false)).

Definition BDatagram_SendAsync_GetIf : H unit := o <- the_dg ;; assert (s_inited (send o)).

Definition BDatagram_RecvAsync_Init (mtu : Z) : H unit :=
  DebugError_AssertNoError ;;
  o <- the_dg ;;
  assert (negb (r_inited (recv o))) ;;
  assert (mtu >=? 0) ;;
  upd (on_recv (recv_mtu mtu)) ;;
  on_loop (el_job_init J_RECV (J_RECV, 0)) ;;
  upd (on_recv (recv_busy false)) ;;
  upd (on_recv (recv_inited true)).

Definition BDatagram_RecvAsync_Free : H unit :=
  o <- the_dg ;;
  assert (r_inited (recv o)) ;;
  set_events (Z.land (wait_events o) (Z.lnot Reactor.BREACTOR_READ)) ;;
  on_loop (el_job_free J_RECV) ;;
  upd (on_recv (recv_inited false)).

Definition BDatagram_RecvAsync_GetIf : H unit := o <- the_dg ;; assert (r_inited (recv o)).
(** ** Events *)

Inductive event :=
  | E_round (e : el_env) (k : kernel)
  | E_init (family : Z) (k : kernel) | E_free
  | E_bind (addr : BAddr) (k : kernel) | E_set_addrs (remote : BAddr) (local : BIPAddr) | E_get_addrs
  | E_get_fd | E_reuse (reuse : Z) (ok : bool)
  | E_send_init (mtu : Z) | E_send_free | E_send_if | E_recv_init (mtu : Z) | E_recv_free | E_recv_if
  | E_send (data : list Z) | E_recv
  | E_job_init (j : Z) (h : Z * Z) | E_job_free (j : Z) | E_job_set (j : Z) | E_job_unset (j : Z).

(** The call of a handler by the loop. *)
Definition dispatch (c : call) (k : kernel) : H unit :=
  match c with
  | C_job j _ =>
      if j =? J_SEND then send_job_handler k else
      if j =? J_RECV then recv_job_handler k else
      if j =? J_ERROR then fail F_assert else
      emit (Other_Call c)
  | C_fd p events =>
      if p =? B_DG then
        (when has_event events BREACTOR_ERROR_HUP do modify (set_err true)) ;;
        fd_handler events k
      else emit (Other_Call c)
  | C_timer _ => emit (Other_Call c)
  end.

Definition deliver (ev : event) : H unit :=
  match ev with
  | E_round e k => c <- on_loop (el_round e) ;; match c with Some c => dispatch c k | None => ret tt end
  | E_init family k => BDatagram_Init family k ;; ret tt
  | E_free => BDatagram_Free
  | E_bind addr k => BDatagram_Bind addr k ;; ret tt
  | E_set_addrs remote local => BDatagram_SetSendAddrs remote local
  | E_get_addrs => BDatagram_GetLastReceiveAddrs
  | E_get_fd => BDatagram_GetFd ;; ret tt
  | E_reuse reuse ok => BDatagram_SetReuseAddr reuse ok ;; ret tt
  | E_send_init mtu => BDatagram_SendAsync_Init mtu
  | E_send_free => BDatagram_SendAsync_Free
  | E_send_if => BDatagram_SendAsync_GetIf
  | E_recv_init mtu => BDatagram_RecvAsync_Init mtu
  | E_recv_free => BDatagram_RecvAsync_Free
  | E_recv_if => BDatagram_RecvAsync_GetIf
  | E_send data => send_if_handler_send data
  | E_recv => recv_if_handler_recv
  | E_job_init j h => on_loop (el_job_init j h) ;; modify (fun s => set_user_jobs ({[j]} ∪ user_jobs s) s)
  | E_job_free j => on_loop (el_job_free j) ;; modify (fun s => set_user_jobs (user_jobs s ∖ {[j]}) s)
  | E_job_set j => on_loop (el_job_set j)
  | E_job_unset j => on_loop (el_job_unset j)
  end.

(** ** What the users and the kernel may do *)

Definition in_user (s : sys) : bool := el_user (loop s).
Definition is_set (j : Z) (s : sys) : bool := match el_job_is_set j (loop s) with Ok b _ _ => b | Fault _ => false end.
Definition with_dg (f : datagram -> bool) (s : sys) : bool := match dg s with Some o => f o | None => false end.
Definition dg_ok (f : datagram -> bool) (s : sys) : bool := in_user s && with_dg f s.

(** An error was reported: the users must free the object in the handler. *)
Definition failed (s : sys) : bool := with_dg (fun _ => is_set J_ERROR s) s.

(** Addresses of a supported family; packet addresses are those of [BAddr_InitPacket]. *)
Definition addr_ok (a : BAddr) : bool :=
  match a with
  | BADDR_NONE => false
  | BADDR_PACKET _ _ htype ptype _ => (htype =? 1) && (1 <=? ptype) && (ptype <=? 5)
  | _ => true
  end.

(** A new descriptor is not in use; a datagram is sent in one piece, perhaps cut, and one
    received has no more than was asked for; addresses have the length of their family. *)
Definition send_ok (k : kernel) (len : Z) : bool := match k_send k with W_bytes n => (0 <=? n) && (n <=? len) | _ => true end.
Definition recv_ok (k : kernel) (mtu : Z) : bool :=
  match k_recv k with
  | R_msg data from _ =>
      (zlen data <=? mtu) &&
      match from with
      | SYS_IN len _ _ => len =? SIZEOF_SOCKADDR_IN
      | SYS_IN6 len _ _ _ _ => len =? SIZEOF_SOCKADDR_IN6
      | _ => true
      end
  | _ => true
  end.
Definition fd_ok (k : kernel) (s : sys) : bool := match k_fd k with Some f => bool_decide (f ∉ open_fds s) | None => true end.

Definition enabled (ev : event) (s : sys) : bool :=
  match ev with
  | E_round e k =>
      el_ok e (loop s) && negb (failed s) &&
      match dg s with Some o => send_ok k (zlen (s_busy_data (send o))) && recv_ok k (r_mtu (recv o)) | None => true end
  | E_init family k => in_user s && bool_decide (dg s = None) && BDatagram_AddressFamilySupported family && fd_ok k s
  | E_free => dg_ok (fun o => negb (s_inited (send o)) && negb (r_inited (recv o))) s
  | E_bind addr _ => dg_ok (fun _ => addr_ok addr) s && negb (failed s)
  | E_set_addrs remote _ => dg_ok (fun _ => addr_ok remote) s && negb (failed s)
  | E_get_addrs | E_get_fd => dg_ok (fun _ => true) s
  | E_reuse reuse _ => dg_ok (fun _ => (reuse =? 0) || (reuse =? 1)) s
  | E_send_init mtu => dg_ok (fun o => negb (s_inited (send o)) && (0 <=? mtu)) s && negb (failed s)
  | E_send_free | E_send_if => dg_ok (fun o => s_inited (send o)) s
  | E_recv_init mtu => dg_ok (fun o => negb (r_inited (recv o)) && (0 <=? mtu)) s && negb (failed s)
  | E_recv_free | E_recv_if => dg_ok (fun o => r_inited (recv o)) s
  | E_send data => dg_ok (fun o => s_inited (send o) && negb (s_busy (send o)) && (zlen data <=? s_mtu (send o))) s && negb (failed s)
  | E_recv => dg_ok (fun o => r_inited (recv o) && negb (r_busy (recv o))) s && negb (failed s)
  | E_job_init j h => in_user s && negb (own_job j) && bool_decide (j ∉ user_jobs s)
  | E_job_free j | E_job_set j | E_job_unset j => in_user s && bool_decide (j ∈ user_jobs s)
  end.

(** The state after the events, and each event with its outputs. *)
Fixpoint run (evs : list event) (s : sys) : option (sys * list (event * list out)) :=
  match evs with
  | [] => Some (s, [])
  | ev :: evs' =>
      if enabled ev s then
        match deliver ev s with
        | Ok _ s' tr => r ← run evs' s'; Some (r.1, (ev, tr) :: r.2)
        | Fault _ => None
        end
      else Some (s, [])
  end.

(** ** What the object promises *)

(** [sp_send]: not there, idle, or with a datagram; [sp_recv]: the MTU, and whether there
    is room for a datagram; [sp_last]: the addresses of the last one. *)
Record spec := mk_spec {
  sp_send : option (option (list Z));
  sp_addrs : option (BAddr * BIPAddr);
  sp_recv : option (Z * bool);
  sp_started : bool;
  sp_last : option (BAddr * BIPAddr);
}.

Definition sp_none : spec := mk_spec None None None false None.

(** What an event does at once. *)
Definition spec_event (ev : event) (p : spec) : spec :=
  match ev with
  | E_free => sp_none
  | E_bind _ k => mk_spec (sp_send p) (sp_addrs p) (sp_recv p) (sp_started p || k_bind k) (sp_last p)
  | E_set_addrs remote local => mk_spec (sp_send p) (Some (remote, local)) (sp_recv p) (sp_started p) (sp_last p)
  | E_send_init _ => mk_spec (Some None) (sp_addrs p) (sp_recv p) (sp_started p) (sp_last p)
  | E_send_free => mk_spec None (sp_addrs p) (sp_recv p) (sp_started p) (sp_last p)
  | E_recv_init mtu => mk_spec (sp_send p) (sp_addrs p) (Some (mtu, false)) (sp_started p) (sp_last p)
  | E_recv_free => mk_spec (sp_send p) (sp_addrs p) None (sp_started p) (sp_last p)
  | E_send data => mk_spec (Some (Some data)) (sp_addrs p) (sp_recv p) (sp_started p) (sp_last p)
  | E_recv => mk_spec (sp_send p) (sp_addrs p) ((fun x => (x.1, true)) <$> sp_recv p) (sp_started p) (sp_last p)
  | _ => p
  end.

Definition is_loop (o : out) : bool := match o with Loop _ => true | _ => false end.
Definition is_data (o : out) : bool :=
  match o with Sendmsg _ _ _ _ | Recvmsg _ _ _ _ | Send_Done | Recv_Done _ | Addrs _ => true | _ => false end.
Abbreviation acts := (acts_of is_loop).
(** Outputs that move no datagram and give no addresses. *)
Definition quiet (tr : list out) : Prop := Forall (fun o => is_data o = false) tr.

(** The address for the kernel. *)
Definition sys_of (a : BAddr) : option sys_addr :=
  match a with
  | BADDR_NONE => None
  | BADDR_IPV4 ip port => Some (SYS_IN SIZEOF_SOCKADDR_IN port ip)
  | BADDR_IPV6 ip port => Some (SYS_IN6 SIZEOF_SOCKADDR_IN6 port 0 ip 0)
  | BADDR_PACKET proto ifindex _ ptype phys => Some (SYS_LL SIZEOF_SOCKADDR_LL proto ifindex 1 (ptype - 1) 6 (take 6 phys))
  end.

(** The address of a datagram, from the kernel's. *)
Definition socket_of (a : sys_addr) : BAddr :=
  match a with
  | SYS_IN _ port ip => BADDR_IPV4 ip port
  | SYS_IN6 _ port _ ip _ => BADDR_IPV6 (take 16 ip) port
  | SYS_LL len protocol ifindex hatype pkttype halen a =>
      if (OFFSET_SLL_ADDR + 6 <=? len) && (hatype =? 1) && (0 <=? pkttype) && (pkttype <=? 4) && (halen =? 6)
      then BADDR_PACKET protocol ifindex 1 (pkttype + 1) (take 6 a) else BADDR_NONE
  | SYS_OTHER _ _ => BADDR_NONE
  end.

(** What it does in an event: a round may send the datagram to the address that was set
    last, or receive one if there is room; the addresses given are those of the last one
    received. *)
Inductive spec_acts : event -> spec -> list out -> spec -> Prop :=
  | SA_quiet ev p l : ev <> E_get_addrs -> quiet l -> spec_acts ev p l p
  | SA_addrs p : spec_acts E_get_addrs p [Addrs (sp_last p)] p
  | SA_send e k p f data remote local to n : sp_send p = Some (Some data) -> sp_addrs p = Some (remote, local) -> sys_of remote = Some to ->
      k_send k = W_bytes n -> 0 <= n <= zlen data ->
      spec_acts (E_round e k) p [Sendmsg f to (local_control local) (mread data 0 n); Send_Done]
        (mk_spec (Some None) (sp_addrs p) (sp_recv p) true (sp_last p))
  | SA_recv e k p f mtu data from control (a := socket_of from) (local := local_addr_of control BIP_NONE) :
      sp_recv p = Some (mtu, true) -> sp_started p = true -> k_recv k = R_msg data from control -> zlen data <= mtu ->
      spec_acts (E_round e k) p [Recvmsg f data a local; Recv_Done (zlen data)]
        (mk_spec (sp_send p) (sp_addrs p) (Some (mtu, false)) (sp_started p) (Some (a, local))).

Inductive spec_run : spec -> list (event * list out) -> spec -> Prop :=
  | SR_nil p : spec_run p [] p
  | SR_cons p ev tr p1 steps p2 : spec_acts ev (spec_event ev p) (acts tr) p1 -> spec_run p1 steps p2 -> spec_run p ((ev, tr) :: steps) p2.

Definition spec_of (s : sys) : spec :=
  match dg s with
  | None => sp_none
  | Some o =>
      mk_spec (if s_inited (send o) then Some (if s_busy (send o) then Some (s_busy_data (send o)) else None) else None)
        (if s_have_addrs (send o) then Some (s_remote_addr (send o), s_local_addr (send o)) else None)
        (if r_inited (recv o) then Some (r_mtu (recv o), r_busy (recv o)) else None)
        (started (recv o))
        (if r_have_addrs (recv o) then Some (r_remote_addr (recv o), r_local_addr (recv o)) else None)
  end.
(** ** The invariant *)

(** The object.  [sb] and [rb]: it is about to send or to receive.  Otherwise, what can be
    sent or received is waited for, will be tried by the job, or has failed; and what is
    waited for can be. *)
Record dg_at (sb rb : bool) (v : view) (o : datagram) (err : bool) : Prop := mk_dg_at {
  da_fd : v_fds v !! B_DG = Some (fd o, wait_events o);
  da_send_limit : exists c, v_limits v !! L_SEND = Some (BDATAGRAM_SEND_LIMIT, c);
  da_recv_limit : exists c, v_limits v !! L_RECV = Some (BDATAGRAM_RECV_LIMIT, c);
  da_error : v_init v !! J_ERROR = Some (J_ERROR, 0);
  da_send_init : v_init v !! J_SEND = if s_inited (send o) then Some (J_SEND, 0) else None;
  da_recv_init : v_init v !! J_RECV = if r_inited (recv o) then Some (J_RECV, 0) else None;
  da_wait : 0 <= wait_events o <= 3;
  da_addrs : s_have_addrs (send o) = true -> addr_ok (s_remote_addr (send o)) = true;
  da_send_job : J_SEND ∈ v_jobs v -> can_send o = true /\ (has_write (wait_events o) = true -> err = true);
  da_recv_job : J_RECV ∈ v_jobs v -> can_recv o = true /\ (has_read (wait_events o) = true -> err = true);
  da_send_wait : has_write (wait_events o) = true -> can_send o = true;
  da_recv_wait : has_read (wait_events o) = true -> can_recv o = true;
  da_send : if sb then can_send o = true /\ J_SEND ∉ v_jobs v /\ (has_write (wait_events o) = true -> err = true)
    else can_send o = true -> J_ERROR ∈ v_jobs v \/ has_write (wait_events o) = true \/ J_SEND ∈ v_jobs v;
  da_recv : if rb then can_recv o = true /\ J_RECV ∉ v_jobs v /\ (has_read (wait_events o) = true -> err = true)
    else can_recv o = true -> J_ERROR ∈ v_jobs v \/ has_read (wait_events o) = true \/ J_RECV ∈ v_jobs v;
}.

Definition mine (j : Z) : Prop := j = J_SEND \/ j = J_RECV \/ j = J_ERROR.

Definition dg_inv (v : view) (o : option datagram) (err : bool) : Prop :=
  match o with
  | Some o => dg_at false false v o err
  | None =>
      v_fds v !! B_DG = None /\ v_limits v !! L_SEND = None /\ v_limits v !! L_RECV = None /\
      (forall j, mine j -> v_init v !! j = None /\ j ∉ v_jobs v)
  end.

(** Nothing else of this component is in the loop. *)
Record rest_inv (v : view) (jobs : gset Z) : Prop := mk_rest {
  re_fds p : p <> B_DG -> v_fds v !! p = None;
  re_limits l : l <> L_SEND -> l <> L_RECV -> v_limits v !! l = None;
  re_init j : ~ mine j -> is_Some (v_init v !! j) <-> j ∈ jobs;
  re_own j : j ∈ jobs -> ~ mine j;
}.

(** The parts of a view that the object does not touch. *)
Record dg_frame (v v' : view) : Prop := mk_dg_frame {
  df_user : v_user v' = v_user v;
  df_fds p : p <> B_DG -> v_fds v' !! p = v_fds v !! p;
  df_limits l : l <> L_SEND -> l <> L_RECV -> v_limits v' !! l = v_limits v !! l;
  df_init j : ~ mine j -> v_init v' !! j = v_init v !! j;
}.

Lemma mine_own j : mine j <-> own_job j = true.
Proof. unfold mine, own_job, J_SEND, J_RECV, J_ERROR. lia. Qed.

Lemma rest_frame v v' jobs : dg_frame v v' -> rest_inv v jobs -> rest_inv v' jobs.
Proof.
  intros [F1 F2 F3 F4] [R1 R2 R3 R4]. split; [intros p Hp; rewrite F2 by done; auto | intros l H1 H2; rewrite F3 by done; auto | | done].
  intros j Hj. rewrite F4 by done. auto.
Qed.

Lemma dg_frame_refl v : dg_frame v v.
Proof. by split. Qed.

Lemma dg_frame_trans v1 v2 v3 : dg_frame v1 v2 -> dg_frame v2 v3 -> dg_frame v1 v3.
Proof. intros [U1 F1 L1 N1] [U2 F2 L2 N2]. split; intros; [by rewrite U2 | by rewrite F2, F1 | by rewrite L2, L1 | by rewrite N2, N1]. Qed.

Lemma dg_frame_fds v f : (forall p, p <> B_DG -> f (v_fds v) !! p = v_fds v !! p) -> dg_frame v (up_fds f v).
Proof. intros Hf. by split. Qed.
Lemma dg_frame_events v x : dg_frame v (up_fds <[B_DG := x]> v).
Proof. apply dg_frame_fds. intros p Hp. by apply lookup_insert_ne. Qed.
Lemma dg_frame_limit v l x : l = L_SEND \/ l = L_RECV -> dg_frame v (up_limits <[l := x]> v).
Proof. intros Hl. split; try done. intros l' H1 H2. cbn. rewrite lookup_insert_ne; [done | naive_solver]. Qed.
Lemma dg_frame_init v j x : mine j -> dg_frame v (up_init <[j := x]> v).
Proof. intros Hj. split; try done. intros i Hi. cbn. rewrite lookup_insert_ne; [done | by intros ->]. Qed.
Lemma dg_frame_free v j : mine j -> dg_frame v (up_init (delete j) (up_jobs (BPending.job_remove j) v)).
Proof. intros Hj. split; try done. intros i Hi. cbn. rewrite lookup_delete_ne; [done | by intros ->]. Qed.
Lemma dg_frame_jobs v f : dg_frame v (up_jobs f v).
Proof. by split. Qed.

#[local] Hint Resolve dg_frame_refl dg_frame_events dg_frame_limit dg_frame_init dg_frame_free dg_frame_jobs : dgframe.

(** ** Steps *)

Lemma on_dg_loop_wp {A} (m : M R el_out A) s (P : A -> R -> Prop) (Q : A -> sys -> list out -> Prop) :
  wp m (loop s) (fun a r _ => P a r) -> (forall a r tr, P a r -> acts tr = [] -> Q a (set_loop r s) tr) -> wp (on_loop m) s Q.
Proof. apply embed_loop_wp. by intros. Qed.

Lemma wp_the_dg s o (Q : datagram -> sys -> list out -> Prop) : dg s = Some o -> Q o s [] -> wp the_dg s Q.
Proof. intros Hx HQ. unfold the_dg. do 2 wp_step. rewrite Hx. by wp_step. Qed.

Lemma wp_upd_dg f s o (Q : unit -> sys -> list out -> Prop) : dg s = Some o -> Q tt (set_dg (Some (f o)) s) [] -> wp (upd f) s Q.
Proof. intros Ho HQ. unfold upd. wp_step. eapply wp_the_dg; [exact Ho|]. by wp_step. Qed.

Lemma wp_use_dg_fd f s (Q : unit -> sys -> list out -> Prop) : f ∈ open_fds s -> Q tt s [] -> wp (use_fd f) s Q.
Proof. intros Hf HQ. unfold use_fd. do 2 wp_step. rewrite bool_decide_true by done. by wp_step. Qed.

Section Steps.
Context (s : sys) (v : view) (Hrep : el_rep (loop s) v) (Huser : v_user v = true).

Lemma dg_no_error_wp (Q : unit -> sys -> list out -> Prop) :
  is_Some (v_init v !! J_ERROR) -> J_ERROR ∉ v_jobs v ->
  (forall r tr, el_rep r v -> acts tr = [] -> Q tt (set_loop r s) tr) -> wp DebugError_AssertNoError s Q.
Proof.
  intros Hi Hj HQ. unfold DebugError_AssertNoError. wp_step. eapply on_dg_loop_wp; [by apply el_job_is_set_spec|].
  cbn beta. intros b r tr [-> Rv] Ha. wp_step; [by rewrite bool_decide_false|]. rewrite app_nil_r. by apply HQ.
Qed.

Lemma dg_job_set_wp j (Q : unit -> sys -> list out -> Prop) : is_Some (v_init v !! j) ->
  (forall r tr, el_rep r (up_jobs (fun l => j :: BPending.job_remove j l) v) -> acts tr = [] -> Q tt (set_loop r s) tr) ->
  wp (on_loop (el_job_set j)) s Q.
Proof. intros Hi HQ. eapply on_dg_loop_wp; [by apply el_job_set_spec|]. cbn beta. intros [] r tr R' A. by apply HQ. Qed.

Lemma dg_events_wp w o (Q : unit -> sys -> list out -> Prop) : dg s = Some o -> v_fds v !! B_DG = Some (fd o, wait_events o) -> 0 <= w <= 3 ->
  (forall r tr, el_rep r (up_fds <[B_DG := (fd o, w)]> v) -> acts tr = [] -> Q tt (set_dg (Some (set_wait_events w o)) (set_loop r s)) tr) ->
  wp (set_events w) s Q.
Proof.
  intros Ho Hf Hw HQ. unfold set_events. wp_step. eapply wp_upd_dg; [exact Ho|].
  eapply on_dg_loop_wp; [by eapply el_events_spec|]. cbn beta. intros [] r tr Rv Ha. by apply HQ.
Qed.
End Steps.

(** The end of a step: the loop and the object have changed. *)
Definition dg_step (v : view) (s : sys) (P : datagram -> list out -> Prop) (Q : unit -> sys -> list out -> Prop) : Prop :=
  forall r v' o' tr, el_rep r v' -> dg_frame v v' -> dg_at false false v' o' (err_pending s) -> P o' (acts tr) ->
    Q tt (set_dg (Some o') (set_loop r s)) tr.

Lemma dg_limits sb rb v o err l c : l = L_SEND \/ l = L_RECV -> dg_at sb rb v o err -> dg_at sb rb (up_limits <[l := (2, c)]> v) o err.
Proof.
  intros Hl [C1 [c1 C2] [c2 C3] C4 C5 C6 C7 C8 C9 C10 C11 C12 C13 C14]. split; try done; cbn; destruct Hl as [-> | ->].
  1, 4: rewrite lookup_insert_eq; eauto.
  all: rewrite lookup_insert_ne by done; eauto.
Qed.

(** An error was reported. *)
Lemma dg_failed sb rb v o err : dg_at sb rb v o err -> dg_at false false (up_jobs (fun l => J_ERROR :: BPending.job_remove J_ERROR l) v) o err.
Proof.
  intros [C1 C2 C3 C4 C5 C6 C7 C8 C9 C10 C11 C12 C13 C14]. split; try done; cbn.
  - rewrite elem_of_cons, BPending.elem_of_job_remove. naive_solver.
  - rewrite elem_of_cons, BPending.elem_of_job_remove. naive_solver.
  - intros _. left. by left.
  - intros _. left. by left.
Qed.

Lemma report_dg_error_wp s v o sb rb (Q : unit -> sys -> list out -> Prop) :
  el_rep (loop s) v -> v_user v = true -> dg s = Some o -> dg_at sb rb v o (err_pending s) -> J_ERROR ∉ v_jobs v ->
  dg_step v s (fun o' l => o' = o /\ l = [Handler BDATAGRAM_EVENT_ERROR]) Q -> wp report_error s Q.
Proof.
  intros Rv Hu Ho C Hj HQ. assert (Hi : is_Some (v_init v !! J_ERROR)) by (by rewrite (da_error _ _ _ _ _ C)).
  unfold report_error. wp_step. eapply dg_no_error_wp; [done..|]. intros r1 tr1 R1 A1.
  wp_step. eapply on_dg_loop_wp; [by apply el_job_is_set_spec|]. cbn beta. intros b r2 tr2 [-> R2] A2.
  do 2 wp_step; [by rewrite bool_decide_false|]. wp_step. eapply dg_job_set_wp; [exact R2 | done | done |]. intros r3 tr3 R3 A3.
  wp_step. replace (set_loop r3 _) with (set_dg (Some o) (set_loop r3 s)) by (destruct s; cbn in *; by subst).
  refine (HQ r3 _ o _ R3 _ (dg_failed _ _ _ _ _ C) _); [auto with dgframe|]. by rewrite !acts_app, A1, A2, A3.
Qed.

Lemma wait_dg_wp s v o w (Q : unit -> sys -> list out -> Prop) :
  el_rep (loop s) v -> v_user v = true -> dg s = Some o -> v_fds v !! B_DG = Some (fd o, wait_events o) -> 0 <= wait_events o <= 3 -> 0 <= w <= 3 ->
  (let o' := set_wait_events (Z.lor (wait_events o) w) o in dg_at false false (up_fds <[B_DG := (fd o, Z.lor (wait_events o) w)]> v) o' (err_pending s)) ->
  dg_step v s (fun o' l => o' = set_wait_events (Z.lor (wait_events o) w) o /\ l = []) Q -> wp (wait_for w) s Q.
Proof.
  intros Rv Hu Ho Hf Hw He C HQ. unfold wait_for. wp_step. eapply wp_the_dg; [exact Ho|].
  eapply dg_events_wp; [done | done | done | done | by apply wait_range_lor |]. intros r tr R' A.
  refine (HQ r _ _ _ R' _ C _); [auto with dgframe | done].
Qed.
(** *** Sending *)

Definition go (o : datagram) : datagram := if started (recv o) then o else on_recv recv_started o.

Lemma go_same o : fd (go o) = fd o /\ wait_events (go o) = wait_events o /\ send (go o) = send o.
Proof. unfold go. by destruct (started (recv o)). Qed.

Lemma dg_at_go sb v o err : dg_at sb false v o err ->
  dg_at sb false (if negb (started (recv o)) && (r_inited (recv o) && r_busy (recv o)) then up_jobs (fun l => J_RECV :: BPending.job_remove J_RECV l) v else v) (go o) err.
Proof.
  intros [C1 C2 C3 C4 C5 C6 C7 C8 C9 C10 C11 C12 C13 C14]. unfold go, can_recv in *. destruct (started (recv o)) eqn:Hs; cbn [negb andb].
  { split; try done; unfold can_recv; by rewrite Hs. }
  rewrite andb_false_r in *. assert (Hn : J_RECV ∉ v_jobs v) by (intros [? _]%C10; done).
  assert (Hr : has_read (wait_events o) = false) by (destruct (has_read (wait_events o)); [by discriminate C12 | done]).
  destruct (r_inited (recv o) && r_busy (recv o)) eqn:Hb; split; try done; cbn; unfold can_recv; cbn; rewrite ?Hb, ?Hr; try done.
  - rewrite elem_of_cons, BPending.elem_of_job_remove. intros [?|[_ ?]]; [done | auto].
  - destruct sb; [|intros H; destruct (C13 H) as [?|[?|?]]]; rewrite !elem_of_cons, !BPending.elem_of_job_remove.
    + destruct C13 as (? & ? & ?). split_and!; [done | | done]. intros [?|[_ ?]]; done.
    + left. right. by split.
    + right. by left.
    + right. right. right. by split.
  - intros _. right. right. by left.
Qed.

Lemma start_recv_wp sb s v o (Q : unit -> sys -> list out -> Prop) :
  el_rep (loop s) v -> v_user v = true -> dg s = Some o -> dg_at sb false v o (err_pending s) ->
  (forall r v' tr, el_rep r v' -> dg_frame v v' -> dg_at sb false v' (go o) (err_pending s) -> acts tr = [] -> Q tt (set_dg (Some (go o)) (set_loop r s)) tr) ->
  wp start_recv s Q.
Proof.
  intros Rv Hu Ho C HQ. pose proof (dg_at_go _ _ _ _ C) as C'. unfold start_recv. wp_step. eapply wp_the_dg; [exact Ho|]. cbn beta.
  unfold go in *. destruct (started (recv o)) eqn:Hs; cbn [negb andb] in C'.
  - wp_step. replace s with (set_dg (Some o) (set_loop (loop s) s)) by (destruct s; cbn in *; by subst).
    apply (HQ (loop s) v); auto with dgframe.
  - wp_step. eapply wp_upd_dg; [exact Ho|]. destruct (r_inited (recv o) && r_busy (recv o)) eqn:Hb.
    + apply andb_true_iff in Hb as [Hi _].
      eapply dg_job_set_wp; [exact Rv | done | by rewrite (da_recv_init _ _ _ _ _ C), Hi |]. intros r tr R' A.
      refine (HQ r _ _ R' _ C' _); [auto with dgframe | exact A].
    + wp_step. refine (HQ (loop s) v _ Rv _ C' _); [auto with dgframe | done].
Qed.

(** What came of sending. *)
Inductive send_res (k : kernel) (o : datagram) : datagram -> list out -> Prop :=
  | SR_wait w : send_res k o (set_wait_events w o) []
  | SR_error : send_res k o o [Handler BDATAGRAM_EVENT_ERROR]
  | SR_sent to n : can_send o = true -> sys_of (s_remote_addr (send o)) = Some to -> k_send k = W_bytes n -> 0 <= n <= zlen (s_busy_data (send o)) ->
      send_res k o (on_send (send_busy false) (go o))
        [Sendmsg (fd o) to (local_control (s_local_addr (send o))) (mread (s_busy_data (send o)) 0 n); Send_Done].

Lemma addr_to_sys_wp a s (Q : sys_addr -> sys -> list out -> Prop) : addr_ok a = true ->
  (forall t, sys_of a = Some t -> Q t s []) -> wp (addr_socket_to_sys a) s Q.
Proof.
  intros Ha HQ. destruct a as [|ip port|ip port|p i h t phys]; unfold addr_socket_to_sys; [done | | |].
  - wp_step. by apply HQ.
  - wp_step. by apply HQ.
  - unfold addr_ok in Ha. rewrite !andb_true_iff in Ha. destruct Ha as [[Hh H1] H2]. wp_step. wp_step; [done|]. unfold packet_type_to_sys. rewrite H1, H2. cbn [andb].
    wp_step. by apply HQ.
Qed.

Lemma dg_at_sent v o : dg_at true false v o false -> dg_at false false v (on_send (send_busy false) o) false.
Proof.
  intros [C1 C2 C3 C4 C5 C6 C7 C8 C9 C10 C11 C12 (H1 & H2 & H3) C14].
  assert (Hw : has_write (wait_events o) = false) by (destruct (has_write (wait_events o)); [by discriminate H3 | done]).
  split; try done; cbn; unfold can_send; cbn; rewrite ?Hw, ?andb_false_r; done.
Qed.

Lemma dg_at_wait_write v o err (w := Z.lor (wait_events o) Reactor.BREACTOR_WRITE) : dg_at true false v o err ->
  dg_at false false (up_fds <[B_DG := (fd o, w)]> v) (set_wait_events w o) err.
Proof.
  intros [C1 C2 C3 C4 C5 C6 C7 C8 C9 C10 C11 C12 (H1 & H2 & H3) C14]. unfold w. split; try done; cbn; unfold can_send, can_recv in *; cbn.
  - by rewrite lookup_insert_eq.
  - by apply wait_range_lor.
  - by rewrite has_read_lor, orb_false_r.
  - by rewrite has_read_lor, orb_false_r.
  - rewrite has_write_lor, orb_true_r. auto.
  - by rewrite has_read_lor, orb_false_r.
Qed.

Lemma dg_at_wait_read v o err (w := Z.lor (wait_events o) Reactor.BREACTOR_READ) : dg_at false true v o err ->
  dg_at false false (up_fds <[B_DG := (fd o, w)]> v) (set_wait_events w o) err.
Proof.
  intros [C1 C2 C3 C4 C5 C6 C7 C8 C9 C10 C11 C12 C13 (H1 & H2 & H3)]. unfold w. split; try done; cbn; unfold can_send, can_recv in *; cbn.
  - by rewrite lookup_insert_eq.
  - by apply wait_range_lor.
  - by rewrite has_write_lor, orb_false_r.
  - by rewrite has_write_lor, orb_false_r.
  - by rewrite has_write_lor, orb_false_r.
  - rewrite has_read_lor, orb_true_r. auto.
Qed.

Lemma dg_limit_wp sb rb l s v o (Q : bool -> sys -> list out -> Prop) :
  el_rep (loop s) v -> v_user v = true -> l = L_SEND \/ l = L_RECV -> dg_at sb rb v o (err_pending s) ->
  (forall b r v' tr, el_rep r v' -> v_user v' = true -> dg_frame v v' -> v_jobs v' = v_jobs v -> dg_at sb rb v' o (err_pending s) -> acts tr = [] -> Q b (set_loop r s) tr) ->
  wp (on_loop (el_limit_inc l)) s Q.
Proof.
  intros Rv Hu Hl C HQ. assert (Hc : exists c, v_limits v !! l = Some (2, c)) by (destruct Hl as [-> | ->]; apply C). destruct Hc as [c Hc].
  eapply on_dg_loop_wp; [by eapply el_limit_inc_spec|]. cbn beta. intros b r tr [_ Rv'] A.
  refine (HQ b r _ tr Rv' _ _ _ _ A); destruct b; auto with dgframe. by apply dg_limits.
Qed.

(** Weakening the end of a step. *)
Ltac then_step HQ := let E := fresh "E" in let P := fresh "P" in
  intros ? ? ? ? ? ? ? P; eapply HQ; [eassumption | eapply dg_frame_trans; eassumption | eassumption |
    destruct P as [-> E]; rewrite !acts_app, E; repeat match goal with A : acts ?t = _ |- context [acts ?t] => rewrite A end; cbn [app]; constructor].

Lemma do_send_wp k s v o (Q : unit -> sys -> list out -> Prop) :
  el_rep (loop s) v -> v_user v = true -> dg s = Some o -> dg_at true false v o (err_pending s) -> J_ERROR ∉ v_jobs v ->
  fd o ∈ open_fds s -> send_ok k (zlen (s_busy_data (send o))) = true ->
  dg_step v s (send_res k o) Q -> wp (do_send k) s Q.
Proof.
  intros Rv Hu Ho C Hj Hf Hk HQ. assert (Hi : is_Some (v_init v !! J_ERROR)) by (by rewrite (da_error _ _ _ _ _ C)).
  pose proof (da_send _ _ _ _ _ C) as (Hc & _). pose proof Hc as Hc'. unfold can_send in Hc'. rewrite !andb_true_iff in Hc'. destruct Hc' as [[H1 H2] H3].
  unfold do_send. wp_step. eapply dg_no_error_wp; [done..|]. intros r1 tr1 R1 A1.
  wp_step. eapply wp_the_dg; [exact Ho|]. do 2 wp_step; [done|]. do 2 wp_step; [done|]. do 2 wp_step; [done|].
  wp_step. eapply (dg_limit_wp true false L_SEND _ v o); [exact R1 | done | by left | exact C |]. intros b r2 v2 tr2 R2 U2 F2 J2 C2 A2. rewrite <- J2 in Hj.
  change (set_loop r2 (set_loop r1 s)) with (set_loop r2 s).
  assert (Hwait : forall tr0, acts tr0 = [] -> wp (wait_for Reactor.BREACTOR_WRITE) (set_loop r2 s) (fun a s' tr => Q a s' (tr1 ++ tr2 ++ tr0 ++ tr))).
  { intros tr0 A0. eapply (wait_dg_wp _ v2 o); [exact R2 | done | done | apply C2 | apply C2 | done | by apply dg_at_wait_write|]. then_step HQ. }
  destruct b; cbn [negb].
  - wp_step. apply addr_to_sys_wp; [by apply C|]. intros t Ht.
    unfold sys_sendmsg. do 2 wp_step. apply wp_use_dg_fd; [done|]. do 2 wp_step. wp_step. cbn [app].
    destruct (err_pending (set_loop r2 s)) eqn:Hp; [|destruct (k_send k) as [n| |] eqn:Hk'].
    + eapply (report_dg_error_wp _ v2 o true false); [exact R2 | done | done | done | done |]. then_step HQ.
    + change (err_pending s = false) in Hp. unfold send_ok in Hk. rewrite Hk' in Hk. do 2 wp_step. do 2 wp_step; [lia|]. do 2 wp_step; [lia|].
      wp_step. eapply (start_recv_wp true (set_loop r2 s) v2 o); [exact R2 | done | done | done |]. intros r3 v3 tr3 R3 F3 C3 A3.
      wp_step. eapply wp_upd_dg; [done|]. wp_step. cbn [err_pending set_loop] in C3. rewrite Hp in C3.
      refine (HQ r3 v3 _ _ R3 _ _ _); [by eapply dg_frame_trans | rewrite Hp; by apply dg_at_sent|].
      rewrite !acts_app, A1, A2, A3. cbn. apply SR_sent; [done | done | done | lia].
    + by apply (Hwait []).
    + eapply (report_dg_error_wp _ v2 o true false); [exact R2 | done | done | done | done |]. then_step HQ.
  - by apply (Hwait []).
Qed.
(** *** Receiving *)

Definition got (from : BAddr) (local : BIPAddr) (o : datagram) : datagram :=
  on_recv (recv_busy false) (on_recv recv_have (on_recv (recv_local local) (on_recv (recv_remote from) o))).

(** What came of receiving. *)
Inductive recv_res (k : kernel) (o : datagram) : datagram -> list out -> Prop :=
  | RR_wait w : recv_res k o (set_wait_events w o) []
  | RR_error : recv_res k o o [Handler BDATAGRAM_EVENT_ERROR]
  | RR_got data from control (a := socket_of from) (local := local_addr_of control BIP_NONE) :
      can_recv o = true -> k_recv k = R_msg data from control -> zlen data <= r_mtu (recv o) ->
      recv_res k o (got a local o) [Recvmsg (fd o) data a local; Recv_Done (zlen data)].

Definition from_ok (from : sys_addr) : bool :=
  match from with
  | SYS_IN len _ _ => len =? SIZEOF_SOCKADDR_IN
  | SYS_IN6 len _ _ _ _ => len =? SIZEOF_SOCKADDR_IN6
  | _ => true
  end.

Lemma addr_to_socket_wp from s (Q : BAddr -> sys -> list out -> Prop) : from_ok from = true -> Q (socket_of from) s [] -> wp (addr_sys_to_socket from) s Q.
Proof.
  intros Hf HQ. destruct from as [len port ip|len port fl ip sc|len p i h t hl a|len f]; unfold addr_sys_to_socket, socket_of in *; cbn in Hf.
  - wp_step. wp_step; [done|]. by wp_step.
  - wp_step. wp_step; [done|]. by wp_step.
  - rewrite Z.leb_antisym in HQ. destruct (len <? _); [by wp_step|]. destruct (h =? 1); cbn [negb andb] in *; [|by wp_step].
    unfold packet_type_to_socket. destruct (0 <=? t) eqn:H1; cbn [andb] in *; [|by wp_step]. destruct (t <=? 4) eqn:H2; cbn [andb] in *; [|by wp_step]. cbn [negb andb] in *.
    destruct (hl =? 6); cbn [negb andb] in *; [|by wp_step]. unfold BAddr_InitPacket.
    assert (E : (1 =? 1) && ((t + 1 =? 1) || (t + 1 =? 2) || (t + 1 =? 3) || (t + 1 =? 4) || (t + 1 =? 5)) = true) by lia. rewrite E. by wp_step.
  - by wp_step.
Qed.

Lemma dg_at_got v o from local : dg_at false true v o false -> dg_at false false v (got from local o) false.
Proof.
  intros [C1 C2 C3 C4 C5 C6 C7 C8 C9 C10 C11 C12 C13 (H1 & H2 & H3)].
  assert (Hw : has_read (wait_events o) = false) by (destruct (has_read (wait_events o)); [by discriminate H3 | done]).
  split; try done; cbn; unfold can_recv; cbn; rewrite ?Hw, ?andb_false_r; done.
Qed.

Lemma do_recv_wp k s v o (Q : unit -> sys -> list out -> Prop) :
  el_rep (loop s) v -> v_user v = true -> dg s = Some o -> dg_at false true v o (err_pending s) -> J_ERROR ∉ v_jobs v ->
  fd o ∈ open_fds s -> recv_ok k (r_mtu (recv o)) = true ->
  dg_step v s (recv_res k o) Q -> wp (do_recv k) s Q.
Proof.
  intros Rv Hu Ho C Hj Hf Hk HQ. assert (Hi : is_Some (v_init v !! J_ERROR)) by (by rewrite (da_error _ _ _ _ _ C)).
  pose proof (da_recv _ _ _ _ _ C) as (Hc & _). pose proof Hc as Hc'. unfold can_recv in Hc'. rewrite !andb_true_iff in Hc'. destruct Hc' as [[H1 H2] H3].
  unfold do_recv. wp_step. eapply dg_no_error_wp; [done..|]. intros r1 tr1 R1 A1.
  wp_step. eapply wp_the_dg; [exact Ho|]. do 2 wp_step; [done|]. do 2 wp_step; [done|]. do 2 wp_step; [done|].
  wp_step. eapply (dg_limit_wp false true L_RECV _ v o); [exact R1 | done | by right | exact C |]. intros b r2 v2 tr2 R2 U2 F2 J2 C2 A2. rewrite <- J2 in Hj.
  change (set_loop r2 (set_loop r1 s)) with (set_loop r2 s).
  assert (Hwait : forall tr0, acts tr0 = [] -> wp (wait_for Reactor.BREACTOR_READ) (set_loop r2 s) (fun a s' tr => Q a s' (tr1 ++ tr2 ++ tr0 ++ tr))).
  { intros tr0 A0. eapply (wait_dg_wp _ v2 o); [exact R2 | done | done | apply C2 | apply C2 | done | by apply dg_at_wait_read|]. then_step HQ. }
  destruct b; cbn [negb].
  - unfold sys_recvmsg. do 2 wp_step. apply wp_use_dg_fd; [done|]. do 2 wp_step. wp_step. cbn [app].
    destruct (err_pending (set_loop r2 s)) eqn:Hp; [|destruct (k_recv k) as [data from control| |] eqn:Hk'].
    + eapply (report_dg_error_wp _ v2 o false true); [exact R2 | done | done | done | done |]. then_step HQ.
    + change (err_pending s = false) in Hp. unfold recv_ok in Hk. rewrite Hk' in Hk. apply andb_true_iff in Hk as [Hk1 Hk2]. do 2 wp_step; [done|].
      wp_step. apply addr_to_socket_wp; [done|]. set (a := socket_of _). wp_step. eapply wp_upd_dg; [done|]. do 2 wp_step.
      wp_step. eapply wp_upd_dg; [done|]. wp_step. eapply wp_upd_dg; [done|]. wp_step. eapply wp_upd_dg; [done|]. wp_step.
      cbn [err_pending set_loop] in C2. rewrite Hp in C2. set (local := local_addr_of _ _).
      refine (HQ r2 v2 (got a local o) _ R2 F2 _ _); [rewrite Hp; by apply dg_at_got|].
      rewrite !acts_app, A1, A2. cbn. constructor; [done | exact Hk' | lia].
    + by apply (Hwait []).
    + eapply (report_dg_error_wp _ v2 o false true); [exact R2 | done | done | done | done |]. then_step HQ.
  - by apply (Hwait []).
Qed.

(** *** Events of the descriptor *)

Definition noted (events : Z) (o : datagram) : datagram := set_wait_events (Z.land (wait_events o) (Z.lnot events)) o.

Lemma dg_at_noted v o err events : dg_at false false v o err -> v_jobs v = [] -> events_ok (wait_events o) events = true ->
  (has_event events BREACTOR_ERROR_HUP = true -> err = true) ->
  dg_at (have_send events o) (have_recv events o) (up_fds <[B_DG := (fd o, Z.land (wait_events o) (Z.lnot events))]> v) (noted events o) err.
Proof.
  intros [C1 C2 C3 C4 C5 C6 C7 C8 C9 C10 C11 C12 C13 C14] Hj He Hp. destruct (events_waited _ _ He) as [Hr Hw]. rewrite Hj in *.
  assert (Hno : forall j : Z, j ∉ []) by (intros j ?%elem_of_nil; done).
  assert (Es : has_read events = has_event events Reactor.BREACTOR_READ) by done. assert (Ew : has_write events = has_event events Reactor.BREACTOR_WRITE) by done.
  unfold noted, have_send, have_recv. split; try done; cbn; unfold can_send, can_recv in *; cbn; rewrite ?Hj, ?has_read_clear, ?has_write_clear; try done.
  - by rewrite lookup_insert_eq.
  - by apply wait_range_land.
  - by intros ?%elem_of_nil.
  - by intros ?%elem_of_nil.
  - intros [? _]%andb_true_iff. auto.
  - intros [? _]%andb_true_iff. auto.
  - rewrite <- Ew. destruct (has_write events); cbn [orb negb].
    + rewrite andb_false_r. split; [auto | by split].
    + rewrite andb_true_r. destruct (has_event events BREACTOR_ERROR_HUP); cbn [andb]; [|intros Hc; by destruct (C13 Hc) as [?%elem_of_nil|[?|?%elem_of_nil]]; auto].
      destruct (s_inited (send o) && s_busy (send o) && s_have_addrs (send o)); [|done]. split_and!; auto.
  - rewrite <- Es. destruct (has_read events); cbn [orb negb].
    + rewrite andb_false_r. split; [auto | by split].
    + rewrite andb_true_r. destruct (has_event events BREACTOR_ERROR_HUP); cbn [andb]; [|intros Hc; by destruct (C14 Hc) as [?%elem_of_nil|[?|?%elem_of_nil]]; auto].
      destruct (r_inited (recv o) && r_busy (recv o) && started (recv o)); [|done]. split_and!; auto.
Qed.

Lemma dg_at_recv_job v o err : dg_at true true v o err -> dg_at true false (up_jobs (fun l => J_RECV :: BPending.job_remove J_RECV l) v) o err.
Proof.
  intros [C1 C2 C3 C4 C5 C6 C7 C8 C9 C10 C11 C12 (H1 & H2 & H3) (H4 & H5 & H6)]. split; try done; cbn; rewrite !elem_of_cons, !BPending.elem_of_job_remove.
  - split_and!; [done | | done]. intros [?|[_ ?]]; done.
  - intros _. right. right. by left.
Qed.

(** What comes of an event. *)
Inductive fd_res (k : kernel) (o : datagram) : datagram -> list out -> Prop :=
  | FR_send w o' l : send_res k (set_wait_events w o) o' l -> fd_res k o o' l
  | FR_recv w o' l : recv_res k (set_wait_events w o) o' l -> fd_res k o o' l
  | FR_error w : fd_res k o (set_wait_events w o) [Handler BDATAGRAM_EVENT_ERROR].

Lemma assert_send_wp o s (Q : unit -> sys -> list out -> Prop) : can_send o = true -> Q tt s [] -> wp (assert_send o) s Q.
Proof. unfold can_send. rewrite !andb_true_iff. intros [[H1 H2] H3] HQ. unfold assert_send. do 2 wp_step; [done|]. do 2 wp_step; [done|]. by wp_step. Qed.
Lemma assert_recv_wp o s (Q : unit -> sys -> list out -> Prop) : can_recv o = true -> Q tt s [] -> wp (assert_recv o) s Q.
Proof. unfold can_recv. rewrite !andb_true_iff. intros [[H1 H2] H3] HQ. unfold assert_recv. do 2 wp_step; [done|]. do 2 wp_step; [done|]. by wp_step. Qed.

Lemma datagram_fd_handler_wp k s v o events (Q : unit -> sys -> list out -> Prop) :
  el_rep (loop s) v -> v_user v = true -> dg s = Some o -> dg_at false false v o (err_pending s) ->
  v_jobs v = [] -> events_ok (wait_events o) events = true -> (has_event events BREACTOR_ERROR_HUP = true -> err_pending s = true) ->
  fd o ∈ open_fds s -> send_ok k (zlen (s_busy_data (send o))) = true -> recv_ok k (r_mtu (recv o)) = true ->
  dg_step v s (fd_res k o) Q -> wp (fd_handler events k) s Q.
Proof.
  intros Rv Hu Ho C Hj He Hp Hf Hks Hkr HQ. pose proof (dg_at_noted _ _ _ _ C Hj He Hp) as C1.
  assert (Hi : is_Some (v_init v !! J_ERROR)) by (by rewrite (da_error _ _ _ _ _ C)). assert (Hno : forall j, j ∉ v_jobs v) by (intros j; rewrite Hj; by intros ?%elem_of_nil).
  unfold fd_handler. wp_step. eapply dg_no_error_wp; [done..|]. intros r1 tr1 R1 A1.
  wp_step. eapply wp_the_dg; [exact Ho|].
  wp_step. eapply (dg_events_wp _ v); [exact R1 | done | done | apply C | apply wait_range_land, C |]. intros r2 tr2 R2 A2.
  change (set_dg _ (set_loop r2 (set_loop r1 s))) with (set_dg (Some (noted events o)) (set_loop r2 s)).
  pose proof (dg_frame_events v (fd o, Z.land (wait_events o) (Z.lnot events))) as F2. set (v2 := up_fds _ v) in *. unfold noted in C1 |- *.
  assert (Hs : have_send events o = true -> can_send o = true) by (intros E; rewrite E in C1; by destruct (da_send _ _ _ _ _ C1)).
  assert (Hr : have_recv events o = true -> can_recv o = true) by (intros E; rewrite E in C1; by destruct (da_recv _ _ _ _ _ C1)).
  wp_step. assert (W1 : forall (s0 : sys) (Q0 : unit -> sys -> list out -> Prop), Q0 tt s0 [] -> wp (when have_send events o do assert_send o) s0 Q0).
  { intros s0 Q0 H0. destruct (have_send events o); [by apply assert_send_wp; [apply Hs|] | by wp_step]. }
  apply W1. clear W1. wp_step. assert (W2 : forall (s0 : sys) (Q0 : unit -> sys -> list out -> Prop), Q0 tt s0 [] -> wp (when have_recv events o do assert_recv o) s0 Q0).
  { intros s0 Q0 H0. destruct (have_recv events o); [by apply assert_recv_wp; [apply Hr|] | by wp_step]. }
  apply W2. clear W2. destruct (have_send events o) eqn:Es; [|destruct (have_recv events o) eqn:Er].
  - wp_step. destruct (have_recv events o) eqn:Er.
    + eapply dg_job_set_wp; [exact R2 | done | cbn; rewrite (da_recv_init _ _ _ _ _ C); specialize (Hr eq_refl); unfold can_recv in Hr; rewrite !andb_true_iff in Hr; by destruct Hr as [[-> _] _] |].
      intros r3 tr3 R3 A3. eapply (do_send_wp k _ _ (noted events o)); [exact R3 | done | done | by apply dg_at_recv_job | | done | done |].
      { cbn. rewrite Hj. by intros [|[]%elem_of_nil]%elem_of_cons. }
      intros r4 v4 o4 tr4 R4 F4 C4 HP. refine (HQ r4 v4 o4 _ R4 _ C4 _); [eapply dg_frame_trans; [exact F2|]; eapply dg_frame_trans; [|exact F4]; auto with dgframe|].
      rewrite !acts_app, A1, A2, A3. by eapply FR_send.
    + wp_step. eapply (do_send_wp k _ v2 (noted events o)); [exact R2 | done | done | done | apply Hno | done | done |].
      intros r4 v4 o4 tr4 R4 F4 C4 HP. refine (HQ r4 v4 o4 _ R4 _ C4 _); [by eapply dg_frame_trans|]. rewrite !acts_app, A1, A2. by eapply FR_send.
  - eapply (do_recv_wp k _ v2 (noted events o)); [exact R2 | done | done | done | apply Hno | done | done |].
    intros r4 v4 o4 tr4 R4 F4 C4 HP. refine (HQ r4 v4 o4 _ R4 _ C4 _); [by eapply dg_frame_trans|]. rewrite !acts_app, A1, A2. by eapply FR_recv.
  - eapply (report_dg_error_wp _ v2 (noted events o) false false); [exact R2 | done | done | done | apply Hno |].
    intros r4 v4 o4 tr4 R4 F4 C4 [-> E]. refine (HQ r4 v4 _ _ R4 _ C4 _); [by eapply dg_frame_trans|]. rewrite !acts_app, A1, A2, E. apply FR_error.
Qed.
(** ** The jobs and the interfaces *)

Lemma dg_at_send_run v l o err : J_SEND ∉ l -> dg_at false false (up_jobs (fun _ => J_SEND :: l) v) o err -> dg_at true false (up_jobs (fun _ => l) v) o err.
Proof.
  intros Hn [C1 C2 C3 C4 C5 C6 C7 C8 C9 C10 C11 C12 C13 C14]. cbn in *. destruct C9 as [H1 H2]; [by left|]. split; try done; cbn.
  - intros Hr. apply C10. by right.
  - intros Hr. destruct (C14 Hr) as [[|]%elem_of_cons|[|[|]%elem_of_cons]]; [done | by left | by right; left | done | by right; right].
Qed.

Lemma dg_at_recv_run v l o err : J_RECV ∉ l -> dg_at false false (up_jobs (fun _ => J_RECV :: l) v) o err -> dg_at false true (up_jobs (fun _ => l) v) o err.
Proof.
  intros Hn [C1 C2 C3 C4 C5 C6 C7 C8 C9 C10 C11 C12 C13 C14]. cbn in *. destruct C10 as [H1 H2]; [by left|]. split; try done; cbn.
  - intros Hr. apply C9. by right.
  - intros Hr. destruct (C13 Hr) as [[|]%elem_of_cons|[|[|]%elem_of_cons]]; [done | by left | by right; left | done | by right; right].
Qed.

Lemma up_jobs_id v : up_jobs (fun _ => v_jobs v) v = v.
Proof. by destruct v. Qed.

Lemma send_job_wp k s v o (Q : unit -> sys -> list out -> Prop) :
  el_rep (loop s) v -> v_user v = true -> dg s = Some o -> dg_at false false (up_jobs (fun _ => J_SEND :: v_jobs v) v) o (err_pending s) ->
  NoDup (J_SEND :: v_jobs v) -> J_ERROR ∉ v_jobs v -> fd o ∈ open_fds s -> send_ok k (zlen (s_busy_data (send o))) = true ->
  dg_step v s (send_res k o) Q -> wp (send_job_handler k) s Q.
Proof.
  intros Rv Hu Ho C [Hn _]%NoDup_cons Hj Hf Hk HQ. apply dg_at_send_run in C; [|done]. rewrite up_jobs_id in C.
  assert (Hi : is_Some (v_init v !! J_ERROR)) by (by rewrite (da_error _ _ _ _ _ C)).
  unfold send_job_handler. wp_step. eapply dg_no_error_wp; [done..|]. intros r1 tr1 R1 A1.
  wp_step. eapply wp_the_dg; [exact Ho|]. wp_step. apply assert_send_wp; [by destruct (da_send _ _ _ _ _ C)|].
  eapply (do_send_wp k (set_loop r1 s) v o); [done..|]. intros r v' o' tr R' F' C' HP. refine (HQ r v' o' _ R' F' C' _). by rewrite !acts_app, A1.
Qed.

Lemma recv_job_wp k s v o (Q : unit -> sys -> list out -> Prop) :
  el_rep (loop s) v -> v_user v = true -> dg s = Some o -> dg_at false false (up_jobs (fun _ => J_RECV :: v_jobs v) v) o (err_pending s) ->
  NoDup (J_RECV :: v_jobs v) -> J_ERROR ∉ v_jobs v -> fd o ∈ open_fds s -> recv_ok k (r_mtu (recv o)) = true ->
  dg_step v s (recv_res k o) Q -> wp (recv_job_handler k) s Q.
Proof.
  intros Rv Hu Ho C [Hn _]%NoDup_cons Hj Hf Hk HQ. apply dg_at_recv_run in C; [|done]. rewrite up_jobs_id in C.
  assert (Hi : is_Some (v_init v !! J_ERROR)) by (by rewrite (da_error _ _ _ _ _ C)).
  unfold recv_job_handler. wp_step. eapply dg_no_error_wp; [done..|]. intros r1 tr1 R1 A1.
  wp_step. eapply wp_the_dg; [exact Ho|]. wp_step. apply assert_recv_wp; [by destruct (da_recv _ _ _ _ _ C)|].
  eapply (do_recv_wp k (set_loop r1 s) v o); [done..|]. intros r v' o' tr R' F' C' HP. refine (HQ r v' o' _ R' F' C' _). by rewrite !acts_app, A1.
Qed.

(** An operation that ends in the state [x], having moved no data. *)
Definition ends (x : datagram) (o' : datagram) (l : list out) : Prop := o' = x /\ quiet l.

Definition sending (data : list Z) (o : datagram) : datagram := on_send (send_busy true) (on_send (send_data data) o).
Definition receiving (o : datagram) : datagram := on_recv (recv_busy true) o.

Definition set_if (b : bool) (j : Z) (v : view) : view := if b then up_jobs (fun l => j :: BPending.job_remove j l) v else v.

Lemma set_if_frame b j v : dg_frame v (set_if b j v).
Proof. destruct b; cbn; auto with dgframe. Qed.

Lemma set_if_wp b j s v o (Q : unit -> sys -> list out -> Prop) : el_rep (loop s) v -> v_user v = true -> dg s = Some o -> (b = true -> is_Some (v_init v !! j)) ->
  (forall r tr, el_rep r (set_if b j v) -> acts tr = [] -> Q tt (set_dg (Some o) (set_loop r s)) tr) -> wp (when b do on_loop (el_job_set j)) s Q.
Proof.
  intros Rv Hu Ho Hi HQ. assert (E : forall r, set_dg (Some o) (set_loop r s) = set_loop r s) by (intros r; destruct s; cbn in *; by subst).
  destruct b; cbn in HQ.
  - eapply dg_job_set_wp; [done | done | by apply Hi|]. intros r tr R' A. rewrite <- E. by apply HQ.
  - wp_step. replace s with (set_dg (Some o) (set_loop (loop s) s)) at 1 by (rewrite E; by destruct s). by apply HQ.
Qed.

Lemma dg_at_sending v o err data : dg_at false false v o err -> s_inited (send o) = true -> s_busy (send o) = false ->
  dg_at false false (set_if (s_have_addrs (send o)) J_SEND v) (sending data o) err.
Proof.
  intros [C1 C2 C3 C4 C5 C6 C7 C8 C9 C10 C11 C12 C13 C14] Hi Hb. unfold can_send in *. rewrite Hi, Hb in *. cbn in C9, C11, C13.
  assert (Hw : has_write (wait_events o) = false) by (destruct (has_write (wait_events o)); [by discriminate C11 | done]).
  assert (Hj : J_SEND ∉ v_jobs v) by (intros [? _]%C9; done). unfold set_if.
  destruct (s_have_addrs (send o)) eqn:Ha; split; try done; cbn; unfold can_send; cbn; rewrite ?Hi, ?Ha, ?Hw; try done.
  - rewrite elem_of_cons, BPending.elem_of_job_remove. intros [?|[_ ?]]; [done | auto].
  - intros _. right. right. by left.
  - intros Hr. rewrite !elem_of_cons, !BPending.elem_of_job_remove. destruct (C14 Hr) as [|[|]]; [left; right; by split | by right; left | right; right; right; by split].
Qed.

Lemma dg_at_receiving v o err : dg_at false false v o err -> r_inited (recv o) = true -> r_busy (recv o) = false ->
  dg_at false false (set_if (started (recv o)) J_RECV v) (receiving o) err.
Proof.
  intros [C1 C2 C3 C4 C5 C6 C7 C8 C9 C10 C11 C12 C13 C14] Hi Hb. unfold can_recv in *. rewrite Hi, Hb in *. cbn in C10, C12, C14.
  assert (Hw : has_read (wait_events o) = false) by (destruct (has_read (wait_events o)); [by discriminate C12 | done]).
  assert (Hj : J_RECV ∉ v_jobs v) by (intros [? _]%C10; done). unfold set_if.
  destruct (started (recv o)) eqn:Ha; split; try done; cbn; unfold can_recv; cbn; rewrite ?Hi, ?Ha, ?Hw; try done.
  - rewrite elem_of_cons, BPending.elem_of_job_remove. intros [?|[_ ?]]; [done | auto].
  - intros Hr. rewrite !elem_of_cons, !BPending.elem_of_job_remove. destruct (C13 Hr) as [|[|]]; [left; right; by split | by right; left | right; right; right; by split].
  - intros _. right. right. by left.
Qed.

Lemma send_if_wp s v o data (Q : unit -> sys -> list out -> Prop) :
  el_rep (loop s) v -> v_user v = true -> dg s = Some o -> dg_at false false v o (err_pending s) -> J_ERROR ∉ v_jobs v ->
  s_inited (send o) = true -> s_busy (send o) = false -> zlen data <= s_mtu (send o) ->
  dg_step v s (ends (sending data o)) Q -> wp (send_if_handler_send data) s Q.
Proof.
  intros Rv Hu Ho C Hj Hi Hb Hl HQ. assert (He : is_Some (v_init v !! J_ERROR)) by (by rewrite (da_error _ _ _ _ _ C)).
  unfold send_if_handler_send. wp_step. eapply dg_no_error_wp; [done..|]. intros r1 tr1 R1 A1.
  wp_step. eapply wp_the_dg; [exact Ho|]. do 2 wp_step; [done|]. do 2 wp_step; [by rewrite Hb|]. do 2 wp_step; [lia|].
  wp_step. eapply wp_upd_dg; [exact Ho|]. wp_step. eapply wp_upd_dg; [done|].
  eapply (set_if_wp _ _ _ v (sending data o)); [exact R1 | done | done | intros _; by rewrite (da_send_init _ _ _ _ _ C), Hi |]. intros r tr R' A.
  refine (HQ r _ _ _ R' (set_if_frame _ _ _) (dg_at_sending _ _ _ data C Hi Hb) _). split; [done|]. rewrite !acts_app, A1, A. constructor.
Qed.

Lemma recv_if_wp s v o (Q : unit -> sys -> list out -> Prop) :
  el_rep (loop s) v -> v_user v = true -> dg s = Some o -> dg_at false false v o (err_pending s) -> J_ERROR ∉ v_jobs v ->
  r_inited (recv o) = true -> r_busy (recv o) = false ->
  dg_step v s (ends (receiving o)) Q -> wp recv_if_handler_recv s Q.
Proof.
  intros Rv Hu Ho C Hj Hi Hb HQ. assert (He : is_Some (v_init v !! J_ERROR)) by (by rewrite (da_error _ _ _ _ _ C)).
  unfold recv_if_handler_recv. wp_step. eapply dg_no_error_wp; [done..|]. intros r1 tr1 R1 A1.
  wp_step. eapply wp_the_dg; [exact Ho|]. do 2 wp_step; [done|]. do 2 wp_step; [by rewrite Hb|].
  wp_step. eapply wp_upd_dg; [exact Ho|].
  eapply (set_if_wp _ _ _ v (receiving o)); [exact R1 | done | done | intros _; by rewrite (da_recv_init _ _ _ _ _ C), Hi |]. intros r tr R' A.
  refine (HQ r _ _ _ R' (set_if_frame _ _ _) (dg_at_receiving _ _ _ C Hi Hb) _). split; [done|]. rewrite !acts_app, A1, A. constructor.
Qed.

(** ** Addresses *)

Lemma bind_wp k addr s v o (Q : bool -> sys -> list out -> Prop) :
  el_rep (loop s) v -> v_user v = true -> dg s = Some o -> dg_at false false v o (err_pending s) -> J_ERROR ∉ v_jobs v ->
  addr_ok addr = true -> fd o ∈ open_fds s ->
  dg_step v s (ends (if k_bind k then go o else o)) (fun _ => Q (k_bind k)) -> wp (BDatagram_Bind addr k) s Q.
Proof.
  intros Rv Hu Ho C Hj Ha Hf HQ. assert (He : is_Some (v_init v !! J_ERROR)) by (by rewrite (da_error _ _ _ _ _ C)).
  unfold BDatagram_Bind. wp_step. eapply dg_no_error_wp; [done..|]. intros r1 tr1 R1 A1. do 2 wp_step; [by destruct addr|].
  wp_step. eapply wp_the_dg; [exact Ho|]. wp_step. apply addr_to_sys_wp; [done|]. intros t _. wp_step. apply wp_use_dg_fd; [done|].
  destruct (k_bind k); cbn [negb].
  - do 2 wp_step. wp_step. eapply (start_recv_wp false (set_loop r1 s) v o); [exact R1 | done | done | done |]. intros r v' tr R' F' C' A. wp_step.
    refine (HQ r v' _ _ R' F' C' _). split; [done|]. rewrite !acts_app, A1, A. by repeat constructor.
  - wp_step. replace (set_loop r1 s) with (set_dg (Some o) (set_loop r1 s)) by (destruct s; cbn in *; by subst).
    refine (HQ r1 v o _ R1 (dg_frame_refl v) C _). split; [done|]. rewrite !acts_app, A1. constructor.
Qed.

Definition addressed (remote : BAddr) (local : BIPAddr) (o : datagram) : datagram := on_send send_have (on_send (send_addrs remote local) o).

Lemma dg_at_addrs v o err remote local : dg_at false false v o err -> addr_ok remote = true ->
  dg_at false false (set_if (negb (s_have_addrs (send o)) && (s_inited (send o) && s_busy (send o))) J_SEND v) (addressed remote local o) err.
Proof.
  intros [C1 C2 C3 C4 C5 C6 C7 C8 C9 C10 C11 C12 C13 C14] Ha. unfold can_send in *. destruct (s_have_addrs (send o)) eqn:Hh; cbn [negb andb set_if].
  { split; try done; unfold can_send; cbn; done. }
  rewrite andb_false_r in *. assert (Hw : has_write (wait_events o) = false) by (destruct (has_write (wait_events o)); [by discriminate C11 | done]).
  assert (Hj : J_SEND ∉ v_jobs v) by (intros [? _]%C9; done). unfold set_if.
  destruct (s_inited (send o) && s_busy (send o)) eqn:Hb; split; try done; cbn; unfold can_send; cbn; rewrite ?Hb, ?Hw; try done.
  - rewrite elem_of_cons, BPending.elem_of_job_remove. intros [?|[_ ?]]; [done | auto].
  - intros _. right. right. by left.
  - intros Hr. rewrite !elem_of_cons, !BPending.elem_of_job_remove. destruct (C14 Hr) as [|[|]]; [left; right; by split | by right; left | right; right; right; by split].
Qed.

Lemma set_addrs_wp remote local s v o (Q : unit -> sys -> list out -> Prop) :
  el_rep (loop s) v -> v_user v = true -> dg s = Some o -> dg_at false false v o (err_pending s) -> J_ERROR ∉ v_jobs v -> addr_ok remote = true ->
  dg_step v s (ends (addressed remote local o)) Q -> wp (BDatagram_SetSendAddrs remote local) s Q.
Proof.
  intros Rv Hu Ho C Hj Ha HQ. assert (He : is_Some (v_init v !! J_ERROR)) by (by rewrite (da_error _ _ _ _ _ C)).
  pose proof (dg_at_addrs _ _ _ remote local C Ha) as C'.
  unfold BDatagram_SetSendAddrs. wp_step. eapply dg_no_error_wp; [done..|]. intros r1 tr1 R1 A1. do 2 wp_step; [by destruct remote|]. do 2 wp_step; [by destruct local|].
  wp_step. eapply wp_upd_dg; [exact Ho|]. wp_step. eapply wp_the_dg; [done|]. cbn [on_send send send_addrs s_have_addrs s_inited s_busy].
  destruct (s_have_addrs (send o)) eqn:Hh; cbn [negb andb set_if] in C'.
  - wp_step. assert (E : addressed remote local o = on_send (send_addrs remote local) o) by (unfold addressed, on_send, send_have; cbn; by rewrite <- Hh).
    rewrite E in *. refine (HQ r1 v _ _ R1 (dg_frame_refl v) C' _). split; [done|]. rewrite !acts_app, A1. constructor.
  - wp_step. eapply wp_upd_dg; [done|].
    eapply (set_if_wp _ _ _ v (addressed remote local o)); [exact R1 | done | done | intros [Hi _]%andb_true_iff; by rewrite (da_send_init _ _ _ _ _ C), Hi |]. intros r tr R' A.
    refine (HQ r _ _ _ R' (set_if_frame _ _ _) C' _). split; [done|]. rewrite !acts_app, A1, A. constructor.
Qed.
(** ** Starting and ending the two directions *)

Definition send_new (mtu : Z) (o : datagram) : datagram := on_send (send_inited true) (on_send (send_busy false) (on_send (send_mtu mtu) o)).
Definition recv_new (mtu : Z) (o : datagram) : datagram := on_recv (recv_inited true) (on_recv (recv_busy false) (on_recv (recv_mtu mtu) o)).
Definition send_gone (o : datagram) : datagram := on_send (send_inited false) (noted Reactor.BREACTOR_WRITE o).
Definition recv_gone (o : datagram) : datagram := on_recv (recv_inited false) (noted Reactor.BREACTOR_READ o).
Definition gone_view (e j : Z) (o : datagram) (v : view) : view :=
  up_init (delete j) (up_jobs (BPending.job_remove j) (up_fds <[B_DG := (fd o, Z.land (wait_events o) (Z.lnot e))]> v)).

Lemma gone_frame e j o v : mine j -> dg_frame v (gone_view e j o v).
Proof. intros Hj. eapply dg_frame_trans; [apply dg_frame_events | by apply dg_frame_free]. Qed.

Lemma dg_at_send_new v o err mtu : dg_at false false v o err -> s_inited (send o) = false ->
  dg_at false false (up_init <[J_SEND := (J_SEND, 0)]> v) (send_new mtu o) err.
Proof.
  intros [C1 C2 C3 C4 C5 C6 C7 C8 C9 C10 C11 C12 C13 C14] Hi. unfold can_send in *. rewrite Hi in *. cbn in C9, C11.
  split; try done; cbn; [by rewrite lookup_insert_ne | by rewrite lookup_insert_eq | by rewrite lookup_insert_ne].
Qed.

Lemma dg_at_recv_new v o err mtu : dg_at false false v o err -> r_inited (recv o) = false ->
  dg_at false false (up_init <[J_RECV := (J_RECV, 0)]> v) (recv_new mtu o) err.
Proof.
  intros [C1 C2 C3 C4 C5 C6 C7 C8 C9 C10 C11 C12 C13 C14] Hi. unfold can_recv in *. rewrite Hi in *. cbn in C10, C12.
  split; try done; cbn; [by rewrite lookup_insert_ne | by rewrite lookup_insert_ne | by rewrite lookup_insert_eq].
Qed.

Lemma dg_at_send_gone v o err : dg_at false false v o err -> dg_at false false (gone_view Reactor.BREACTOR_WRITE J_SEND o v) (send_gone o) err.
Proof.
  intros [C1 C2 C3 C4 C5 C6 C7 C8 C9 C10 C11 C12 C13 C14].
  split; try done; cbn; unfold can_send, can_recv in *; cbn; rewrite ?has_read_clear, ?has_write_clear, ?andb_false_r, ?andb_true_r, ?BPending.elem_of_job_remove; try done.
  - by rewrite lookup_insert_eq.
  - by rewrite lookup_delete_ne.
  - by rewrite lookup_delete_eq.
  - by rewrite lookup_delete_ne.
  - by apply wait_range_land.
  - tauto.
  - tauto.
  - intros Hr. destruct (C14 Hr) as [?|[?|?]]; [left; by split | right; by left | right; right; by split].
Qed.

Lemma dg_at_recv_gone v o err : dg_at false false v o err -> dg_at false false (gone_view Reactor.BREACTOR_READ J_RECV o v) (recv_gone o) err.
Proof.
  intros [C1 C2 C3 C4 C5 C6 C7 C8 C9 C10 C11 C12 C13 C14].
  split; try done; cbn; unfold can_send, can_recv in *; cbn; rewrite ?has_read_clear, ?has_write_clear, ?andb_false_r, ?andb_true_r, ?BPending.elem_of_job_remove; try done.
  - by rewrite lookup_insert_eq.
  - by rewrite lookup_delete_ne.
  - by rewrite lookup_delete_ne.
  - by rewrite lookup_delete_eq.
  - by apply wait_range_land.
  - tauto.
  - tauto.
  - intros Hr. destruct (C13 Hr) as [?|[?|?]]; [left; by split | right; by left | right; right; by split].
Qed.

Lemma dg_send_init_wp mtu s v o (Q : unit -> sys -> list out -> Prop) :
  el_rep (loop s) v -> v_user v = true -> dg s = Some o -> dg_at false false v o (err_pending s) -> J_ERROR ∉ v_jobs v ->
  s_inited (send o) = false -> 0 <= mtu -> dg_step v s (ends (send_new mtu o)) Q -> wp (BDatagram_SendAsync_Init mtu) s Q.
Proof.
  intros Rv Hu Ho C Hj Hi Hm HQ. assert (He : is_Some (v_init v !! J_ERROR)) by (by rewrite (da_error _ _ _ _ _ C)).
  unfold BDatagram_SendAsync_Init. wp_step. eapply dg_no_error_wp; [done..|]. intros r1 tr1 R1 A1.
  wp_step. eapply wp_the_dg; [exact Ho|]. do 2 wp_step; [by rewrite Hi|]. do 2 wp_step; [lia|]. wp_step. eapply wp_upd_dg; [exact Ho|].
  wp_step. eapply on_dg_loop_wp; [apply el_job_init_spec; [exact R1 | done | by rewrite (da_send_init _ _ _ _ _ C), Hi]|]. cbn beta. intros [] r2 tr2 R2 A2.
  wp_step. eapply wp_upd_dg; [done|]. eapply wp_upd_dg; [done|].
  refine (HQ r2 _ _ _ R2 _ (dg_at_send_new _ _ _ mtu C Hi) _); [apply dg_frame_init; by left|]. split; [done|]. rewrite !acts_app, A1, A2. constructor.
Qed.

Lemma dg_recv_init_wp mtu s v o (Q : unit -> sys -> list out -> Prop) :
  el_rep (loop s) v -> v_user v = true -> dg s = Some o -> dg_at false false v o (err_pending s) -> J_ERROR ∉ v_jobs v ->
  r_inited (recv o) = false -> 0 <= mtu -> dg_step v s (ends (recv_new mtu o)) Q -> wp (BDatagram_RecvAsync_Init mtu) s Q.
Proof.
  intros Rv Hu Ho C Hj Hi Hm HQ. assert (He : is_Some (v_init v !! J_ERROR)) by (by rewrite (da_error _ _ _ _ _ C)).
  unfold BDatagram_RecvAsync_Init. wp_step. eapply dg_no_error_wp; [done..|]. intros r1 tr1 R1 A1.
  wp_step. eapply wp_the_dg; [exact Ho|]. do 2 wp_step; [by rewrite Hi|]. do 2 wp_step; [lia|]. wp_step. eapply wp_upd_dg; [exact Ho|].
  wp_step. eapply on_dg_loop_wp; [apply el_job_init_spec; [exact R1 | done | by rewrite (da_recv_init _ _ _ _ _ C), Hi]|]. cbn beta. intros [] r2 tr2 R2 A2.
  wp_step. eapply wp_upd_dg; [done|]. eapply wp_upd_dg; [done|].
  refine (HQ r2 _ _ _ R2 _ (dg_at_recv_new _ _ _ mtu C Hi) _); [apply dg_frame_init; right; by left|]. split; [done|]. rewrite !acts_app, A1, A2. constructor.
Qed.

(** The events and the job of a direction are given up. *)
Lemma gone_wp e j (m : H unit) s v o (Q : unit -> sys -> list out -> Prop) :
  el_rep (loop s) v -> v_user v = true -> dg s = Some o -> dg_at false false v o (err_pending s) -> is_Some (v_init v !! j) ->
  (forall r tr, el_rep r (gone_view e j o v) -> acts tr = [] -> wp m (set_dg (Some (noted e o)) (set_loop r s)) (fun a s' tr' => Q a s' (tr ++ tr'))) ->
  wp (set_events (Z.land (wait_events o) (Z.lnot e)) ;; on_loop (el_job_free j) ;; m) s Q.
Proof.
  intros Rv Hu Ho C Hi HQ. wp_step. eapply dg_events_wp; [done | done | done | apply C | apply wait_range_land, C|]. intros r1 tr1 R1 A1.
  wp_step. eapply on_dg_loop_wp; [apply (el_job_free_spec _ _ j R1); done|]. cbn beta. intros [] r2 tr2 R2 A2.
  eapply wp_mono; [apply (HQ r2 (tr1 ++ tr2)); [exact R2 | by rewrite acts_app, A1, A2]|]. intros a s' tr HP. by rewrite app_assoc.
Qed.

Lemma dg_send_free_wp s v o (Q : unit -> sys -> list out -> Prop) :
  el_rep (loop s) v -> v_user v = true -> dg s = Some o -> dg_at false false v o (err_pending s) -> s_inited (send o) = true ->
  dg_step v s (ends (send_gone o)) Q -> wp BDatagram_SendAsync_Free s Q.
Proof.
  intros Rv Hu Ho C Hi HQ. unfold BDatagram_SendAsync_Free. wp_step. eapply wp_the_dg; [exact Ho|]. do 2 wp_step; [done|].
  eapply gone_wp; [done | done | done | done | by rewrite (da_send_init _ _ _ _ _ C), Hi |]. intros r tr R' A.
  eapply wp_upd_dg; [done|]. refine (HQ r _ _ _ R' (gone_frame _ _ _ _ _) (dg_at_send_gone _ _ _ C) _); [by left|].
  split; [done|]. rewrite !acts_app, A. constructor.
Qed.

Lemma dg_recv_free_wp s v o (Q : unit -> sys -> list out -> Prop) :
  el_rep (loop s) v -> v_user v = true -> dg s = Some o -> dg_at false false v o (err_pending s) -> r_inited (recv o) = true ->
  dg_step v s (ends (recv_gone o)) Q -> wp BDatagram_RecvAsync_Free s Q.
Proof.
  intros Rv Hu Ho C Hi HQ. unfold BDatagram_RecvAsync_Free. wp_step. eapply wp_the_dg; [exact Ho|]. do 2 wp_step; [done|].
  eapply gone_wp; [done | done | done | done | by rewrite (da_recv_init _ _ _ _ _ C), Hi |]. intros r tr R' A.
  eapply wp_upd_dg; [done|]. refine (HQ r _ _ _ R' (gone_frame _ _ _ _ _) (dg_at_recv_gone _ _ _ C) _); [right; by left|].
  split; [done|]. rewrite !acts_app, A. constructor.
Qed.
(** ** The whole state *)

Definition own_fds (o : option datagram) : gset Z := match o with Some o => {[fd o]} | None => ∅ end.

(** [X]: the descriptors of the process that are not the object's. *)
Record inv_at (X : gset Z) (v : view) (s : sys) : Prop := mk_inv_at {
  i_rep : el_rep (loop s) v;
  i_dg : dg_inv v (dg s) (err_pending s);
  i_rest : rest_inv v (user_jobs s);
  i_open : open_fds s = own_fds (dg s) ∪ X;
  i_out o : dg s = Some o -> fd o ∉ X;
}.

Definition inv (X : gset Z) (s : sys) : Prop := exists v, inv_at X v s.

(** What an event must do. *)
Definition kept (X : gset Z) (ev : event) (s s' : sys) (tr : list out) : Prop :=
  inv X s' /\ spec_acts ev (spec_event ev (spec_of s)) (acts tr) (spec_of s').

(** The invariant but for the object. *)
Record base_at (X : gset Z) (v : view) (s : sys) : Prop := mk_base_at {
  b_rep : el_rep (loop s) v;
  b_rest : rest_inv v (user_jobs s);
  b_open : open_fds s = own_fds (dg s) ∪ X;
  b_out o : dg s = Some o -> fd o ∉ X;
}.

Lemma base_of X v s : inv_at X v s -> base_at X v s.
Proof. intros I. split; apply I. Qed.

Lemma inv_of X v s : base_at X v s -> dg_inv v (dg s) (err_pending s) -> inv X s.
Proof. intros B D. exists v. split; [apply B | done | apply B..]. Qed.

Section Base.
Context (X : gset Z) (v : view) (s : sys) (B : base_at X v s).

Lemma dg_open o : dg s = Some o -> fd o ∈ open_fds s.
Proof. intros Ho. rewrite (b_open _ _ _ B), Ho. cbn. set_solver. Qed.

Lemma inv_dg_step o r v' o' : dg s = Some o -> fd o' = fd o -> el_rep r v' -> dg_frame v v' -> dg_at false false v' o' (err_pending s) ->
  inv X (set_dg (Some o') (set_loop r s)).
Proof.
  intros Ho Hf R' F C. destruct B as [I1 I3 I4 I5]. exists v'. split; [done | done | by eapply rest_frame | |].
  - cbn. by rewrite I4, Ho, Hf.
  - intros o2 [= <-]. rewrite Hf. by apply I5.
Qed.

(** A step of the object. *)
Lemma dg_step_kept ev o (P : datagram -> list out -> Prop) : dg s = Some o -> (forall o' l, P o' l -> fd o' = fd o) ->
  (forall s' o' l, dg s' = Some o' -> P o' l -> spec_acts ev (spec_event ev (spec_of s)) l (spec_of s')) ->
  dg_step v s P (fun _ s' tr => kept X ev s s' tr).
Proof.
  intros Ho Hf HP r v' o' tr R' F C HPo. split; [|by eapply HP]. eapply inv_dg_step; [done | by eapply Hf | done..].
Qed.
End Base.

Section State.
Context (X : gset Z) (v : view) (s : sys) (I : inv_at X v s).

Lemma dg_user_view : in_user s = true -> v_user v = true.
Proof. intros Hu. by rewrite (el_user_spec _ _ (i_rep _ _ _ I)). Qed.

Lemma dg_here o : dg s = Some o -> dg_at false false v o (err_pending s).
Proof. intros Ho. pose proof (i_dg _ _ _ I) as C. by rewrite Ho in C. Qed.

(** An operation that moves no data. *)
Lemma ends_kept ev o x (m : H unit) : dg s = Some o -> fd x = fd o -> ev <> E_get_addrs ->
  (forall s', dg s' = Some x -> spec_of s' = spec_event ev (spec_of s)) ->
  (forall Q : unit -> sys -> list out -> Prop, dg_step v s (ends x) Q -> wp m s Q) -> wp m s (fun _ s' tr => kept X ev s s' tr).
Proof.
  intros Ho Hf He Hs Hm. apply Hm. eapply dg_step_kept; [by apply base_of | done | by intros o' l [-> _] |].
  intros s' o' l Ho' [-> Hq]. rewrite (Hs s' Ho'). by constructor.
Qed.

(** Nothing changes. *)
Lemma same_kept ev r tr : ev <> E_get_addrs -> spec_event ev (spec_of s) = spec_of s -> el_rep r v -> quiet (acts tr) -> kept X ev s (set_loop r s) tr.
Proof. intros He Es R' Hq. split; [exists v; destruct I; by split|]. rewrite Es. by constructor. Qed.
End State.

Lemma set_loop_same s : set_loop (loop s) s = s.
Proof. by destruct s. Qed.

Lemma wp_dg_close f X s (Q : unit -> sys -> list out -> Prop) : open_fds s = {[f]} ∪ X -> f ∉ X -> Q tt (set_open X s) [Close f] -> wp (close f) s Q.
Proof.
  intros Ho Hf HQ. unfold close. wp_step. apply wp_use_dg_fd; [rewrite Ho; set_solver|]. do 2 wp_step.
  assert (E : open_fds s ∖ {[f]} = X) by (rewrite Ho; set_solver). wp_step. by rewrite E.
Qed.

Lemma set_pktinfo_wp f family s (Q : unit -> sys -> list out -> Prop) : f ∈ open_fds s -> (forall tr, quiet (acts tr) -> Q tt s tr) -> wp (set_pktinfo f family) s Q.
Proof.
  intros Hf HQ. unfold set_pktinfo. wp_step. apply wp_use_dg_fd; [done|]. destruct ((family =? 1) || (family =? 2)); wp_step; apply HQ; by repeat constructor.
Qed.

Lemma family_wp family s (Q : Z -> sys -> list out -> Prop) : BDatagram_AddressFamilySupported family = true -> (forall d, Q d s []) -> wp (family_socket_to_sys family) s Q.
Proof.
  unfold BDatagram_AddressFamilySupported. rewrite !orb_true_iff, !Z.eqb_eq. intros [[-> | ->] | ->] HQ; [exact (HQ AF_INET) | exact (HQ AF_INET6) | exact (HQ AF_PACKET)].
Qed.

Ltac quiet_tac := unfold quiet; rewrite ?acts_app; repeat apply Forall_app_2; match goal with
  | A : acts ?t = _ |- Forall _ (acts ?t) => rewrite A; constructor
  | _ => first [assumption | by repeat constructor] end.

Definition init_view (f : Z) (v : view) : view :=
  up_init <[J_ERROR := (J_ERROR, 0)]> (up_limits <[L_RECV := (BDATAGRAM_RECV_LIMIT, 0)]> (up_limits <[L_SEND := (BDATAGRAM_SEND_LIMIT, 0)]> (up_fds <[B_DG := (f, 0)]> v))).

Lemma dg_init_view_frame f v : dg_frame v (init_view f v).
Proof.
  eapply dg_frame_trans; [apply dg_frame_events|]. eapply dg_frame_trans; [apply dg_frame_limit; by left|].
  eapply dg_frame_trans; [apply dg_frame_limit; by right|]. apply dg_frame_init. unfold mine. auto.
Qed.

Lemma dg_at_new f v err : dg_inv v None err -> dg_at false false (init_view f v) (new_dg f) false.
Proof.
  intros (H1 & H2 & H3 & H4). destruct (H4 J_SEND) as [Is Js]; [by left|]. destruct (H4 J_RECV) as [Ir Jr]; [right; by left|].
  unfold init_view. split; cbn; try done.
  - by rewrite lookup_insert_eq.
  - exists 0. by rewrite lookup_insert_ne, lookup_insert_eq.
  - exists 0. by rewrite lookup_insert_eq.
  - by rewrite lookup_insert_eq.
  - by rewrite lookup_insert_ne.
  - by rewrite lookup_insert_ne.
Qed.

Definition init_post (X : gset Z) (b : bool) (s' : sys) (tr : list out) : Prop :=
  inv X s' /\ quiet (acts tr) /\ spec_of s' = sp_none.

Lemma dg_fail1_wp X v s f (Q : bool -> sys -> list out -> Prop) : el_rep (loop s) v -> dg s = None -> dg_inv v None (err_pending s) -> rest_inv v (user_jobs s) ->
  open_fds s = {[f]} ∪ X -> f ∉ X -> (forall s', inv X s' -> spec_of s' = sp_none -> Q false s' [Close f]) -> wp (init_fail1 f) s Q.
Proof.
  intros I1 Hn I2 I3 Ho Hf HQ. unfold init_fail1. wp_step. apply (wp_dg_close f X); [done | done |]. wp_step.
  apply HQ; [|unfold spec_of; cbn; by rewrite Hn]. exists v. split; [done | cbn; by rewrite Hn | done | cbn; rewrite Hn; set_solver | cbn; by rewrite Hn].
Qed.

Lemma dg_init_wp X v s family k : inv_at X v s -> v_user v = true -> dg s = None -> BDatagram_AddressFamilySupported family = true -> fd_ok k s = true ->
  wp (BDatagram_Init family k) s (init_post X).
Proof.
  intros I Hu Hn Hfam Hk. pose proof I as [I1 I2 I3 I4 I5]. rewrite Hn in I2, I4. cbn in I4. rewrite union_empty_l_L in I4.
  pose proof I2 as (N1 & N2 & N3 & N4). unfold fd_ok in Hk. unfold BDatagram_Init.
  do 2 wp_step; [done|]. wp_step. apply family_wp; [done|]. intros d.
  destruct (k_fd k) as [f|]; [|wp_step; split; [by exists v | split; [constructor | unfold spec_of; by rewrite Hn]]].
  apply bool_decide_eq_true in Hk. unfold new_fd. do 4 wp_step. wp_step. apply wp_use_dg_fd; [cbn; set_solver|].
  assert (Hf : f ∉ X) by (by rewrite <- I4).
  destruct (k_nonblock k); cbn [negb].
  2: { eapply (dg_fail1_wp X v); [exact I1 | done | done | done | cbn; by rewrite I4 | done |]. intros s' I' Es. split; [done|]. split; [by repeat constructor | done]. }
  wp_step. apply set_pktinfo_wp; [cbn; set_solver|]. intros tr0 Q0.
  wp_step. eapply on_dg_loop_wp; [by apply (el_add_spec _ _ B_DG f (k_add k) I1)|]. cbn beta. intros b r1 tr1 [-> R1] A1. destruct (k_add k); cbn [negb].
  2: { eapply (dg_fail1_wp X v); [exact R1 | done | done | done | cbn; by rewrite I4 | done |]. intros s' I' Es. split; [done|]. split; [|done]. quiet_tac. }
  wp_step. eapply on_dg_loop_wp; [by apply (el_limit_init_spec _ _ L_SEND BDATAGRAM_SEND_LIMIT R1)|]. cbn beta. intros [] r2 tr2 R2 A2.
  wp_step. eapply on_dg_loop_wp; [apply (el_limit_init_spec _ _ L_RECV BDATAGRAM_RECV_LIMIT R2); [done | cbn; by rewrite lookup_insert_ne | done]|].
  cbn beta. intros [] r3 tr3 R3 A3. do 4 wp_step.
  wp_step. eapply on_dg_loop_wp; [apply (el_job_init_spec _ _ J_ERROR (J_ERROR, 0) R3); [done | cbn; apply N4; unfold mine; auto]|]. cbn beta. intros [] r4 tr4 R4 A4.
  wp_step. fold (init_view f v) in R4. split; [|split; [|done]].
  - exists (init_view f v). split; [done | by eapply dg_at_new | eapply rest_frame; [apply dg_init_view_frame | done] | cbn; by rewrite I4 | by intros o [= <-]].
  - quiet_tac.
Qed.

Definition freed_view (v : view) : view :=
  up_fds (delete B_DG) (up_limits (delete L_SEND) (up_limits (delete L_RECV) (up_init (delete J_ERROR) (up_jobs (BPending.job_remove J_ERROR) v)))).

Lemma dg_freed_frame v : dg_frame v (freed_view v).
Proof.
  eapply dg_frame_trans; [apply (dg_frame_free v J_ERROR); unfold mine; auto|]. split; try done; intros; cbn; by rewrite ?lookup_delete_ne by congruence.
Qed.

Lemma dg_inv_freed v o err : dg_at false false v o err -> s_inited (send o) = false -> r_inited (recv o) = false -> dg_inv (freed_view v) None err.
Proof.
  intros [C1 C2 C3 C4 C5 C6 C7 C8 C9 C10 C11 C12 C13 C14] Hs Hr. unfold can_send, can_recv in *. rewrite Hs, Hr in *. cbn in C9, C10. split_and!; cbn.
  - by rewrite lookup_delete_eq.
  - by rewrite lookup_delete_eq.
  - by rewrite lookup_delete_ne, lookup_delete_eq.
  - intros j Hor. rewrite BPending.elem_of_job_remove. destruct Hor as [-> | [-> | ->]].
    + rewrite lookup_delete_ne, C5 by done. split; [done|]. intros [_ Hin]. by destruct (C9 Hin).
    + rewrite lookup_delete_ne, C6 by done. split; [done|]. intros [_ Hin]. by destruct (C10 Hin).
    + rewrite lookup_delete_eq. split; [done | tauto].
Qed.

Lemma dg_free_wp X v s o : inv_at X v s -> v_user v = true -> dg s = Some o -> s_inited (send o) = false -> r_inited (recv o) = false ->
  wp BDatagram_Free s (fun _ s' tr => inv X s' /\ quiet (acts tr) /\ spec_of s' = sp_none).
Proof.
  intros I Hu Ho Hs Hr. pose proof (dg_here X v s I o Ho) as C. pose proof (dg_inv_freed _ _ _ C Hs Hr) as N. pose proof I as [I1 I2 I3 I4 I5]. rewrite Ho in I4.
  pose proof (dg_freed_frame v) as F. destruct C as [C1 [c2 C2] [c3 C3] C4 _ _ _ _ _ _ _ _ _ _]. unfold freed_view in *.
  unfold BDatagram_Free. wp_step. eapply wp_the_dg; [exact Ho|].
  wp_step. eapply on_dg_loop_wp; [apply (el_job_free_spec _ _ J_ERROR I1); [done | by rewrite C4]|]. cbn beta. intros [] r1 tr1 R1 A1.
  do 2 wp_step; [by rewrite Hr|]. do 2 wp_step; [by rewrite Hs|].
  wp_step. eapply on_dg_loop_wp; [apply (el_limit_free_spec _ _ L_RECV R1); [done | cbn; by rewrite C3]|]. cbn beta. intros [] r2 tr2 R2 A2.
  wp_step. eapply on_dg_loop_wp; [apply (el_limit_free_spec _ _ L_SEND R2); [done | cbn; by rewrite lookup_delete_ne, C2]|]. cbn beta. intros [] r3 tr3 R3 A3.
  wp_step. eapply on_dg_loop_wp; [apply (el_remove_spec _ _ B_DG R3); [done | cbn; by rewrite C1]|]. cbn beta. intros [] r4 tr4 R4 A4.
  wp_step. apply (wp_dg_close _ X); [done | by apply I5 |]. wp_step. split; [|split; [|done]].
  - eexists. split; [exact R4 | exact N | by eapply rest_frame | cbn; set_solver | done].
  - quiet_tac.
Qed.
(** ** A round of the loop *)

(** The view of a round, with the jobs as they were. *)
Lemma round_dg v v' c o err : round_ok v v' c -> dg_inv v o err -> dg_inv (up_jobs (fun _ => v_jobs v) v') o err.
Proof.
  intros [E1 E2 L _] D. set (w := up_jobs _ v').
  assert (Hlim : forall l n c0, v_limits v !! l = Some (n, c0) -> exists c', v_limits w !! l = Some (n, c')).
  { intros l n c0 Hl. destruct (L l) as [El|El]; rewrite Hl in El; (eexists; exact El). }
  assert (Hnone : forall l, v_limits v !! l = None -> v_limits w !! l = None).
  { intros l Hl. destruct (L l) as [El|El]; rewrite Hl in El; done. }
  assert (F : forall j, v_init w !! j = v_init v !! j) by (intros j; unfold w; cbn; by rewrite E2).
  assert (F' : forall p, v_fds w !! p = v_fds v !! p) by (intros p; unfold w; cbn; by rewrite E1).
  destruct o as [o|].
  - destruct D as [C1 [c2 C2] [c3 C3] C4 C5 C6 C7 C8 C9 C10 C11 C12 C13 C14]. split; try done; rewrite ?F', ?F; try done; by eapply Hlim.
  - destruct D as (H1 & H2 & H3 & H4). split_and!; [by rewrite F' | auto | auto |]. intros j Hj. rewrite F. by apply H4.
Qed.

Lemma round_rest v v' c jobs : round_ok v v' c -> rest_inv v jobs -> rest_inv v' jobs.
Proof.
  intros [E1 E2 L _] [H1 H2 H3 H4]. split; [intros p; rewrite E1; auto | | intros j; rewrite E2; auto | done].
  intros l Hl1 Hl2. specialize (H2 l Hl1 Hl2). destruct (L l) as [El|El]; by rewrite El, H2.
Qed.

(** A job that is not the object's is taken from the queue. *)
Lemma pop_dg j v o err : ~ mine j -> dg_inv (up_jobs (fun _ => j :: v_jobs v) v) o err -> dg_inv v o err.
Proof.
  intros Hj D. assert (Hin : forall i, mine i -> i ∈ j :: v_jobs v <-> i ∈ v_jobs v) by (intros i Hi; rewrite elem_of_cons; split; [intros [->|]; done | auto]).
  destruct o as [o|].
  - destruct D as [C1 C2 C3 C4 C5 C6 C7 C8 C9 C10 C11 C12 C13 C14]. cbn in *. rewrite !Hin in * by (unfold mine; auto). by split.
  - destruct D as (H1 & H2 & H3 & H4). split_and!; [done..|]. intros i Hi. destruct (H4 i Hi) as [? Hn]. cbn in Hn. rewrite Hin in Hn by done. by split.
Qed.

Lemma dg_at_err sb rb v o err err' : (err = true -> err' = true) -> dg_at sb rb v o err -> dg_at sb rb v o err'.
Proof.
  intros He [C1 C2 C3 C4 C5 C6 C7 C8 C9 C10 C11 C12 C13 C14]. split; try done.
  - intros Hj. destruct (C9 Hj). split; [done | auto].
  - intros Hj. destruct (C10 Hj). split; [done | auto].
  - destruct sb; [|done]. destruct C13 as (? & ? & ?). split_and!; [done | done | auto].
  - destruct rb; [|done]. destruct C14 as (? & ? & ?). split_and!; [done | done | auto].
Qed.

Lemma dg_is_set v s j : el_rep (loop s) v -> is_Some (v_init v !! j) -> is_set j s = bool_decide (j ∈ v_jobs v).
Proof.
  intros Rv Hi. destruct (wp_ok _ _ _ (el_job_is_set_spec _ _ j Rv Hi)) as (b & r & tr & E & -> & _). unfold is_set. by rewrite E.
Qed.

Lemma dg_not_failed X v s : inv_at X v s -> failed s = false -> J_ERROR ∉ v_jobs v.
Proof.
  intros I Hf. unfold failed, with_dg in Hf. destruct (dg s) as [o|] eqn:Ho.
  - rewrite (dg_is_set v s J_ERROR (i_rep _ _ _ I)) in Hf by (by rewrite (da_error _ _ _ _ _ (dg_here X v s I o Ho))). by apply bool_decide_eq_false in Hf.
  - pose proof (i_dg _ _ _ I) as D. rewrite Ho in D. destruct D as (_ & _ & _ & H). apply H. unfold mine. auto.
Qed.

Lemma spec_of_some s o : dg s = Some o -> spec_of s =
  mk_spec (if s_inited (send o) then Some (if s_busy (send o) then Some (s_busy_data (send o)) else None) else None)
    (if s_have_addrs (send o) then Some (s_remote_addr (send o), s_local_addr (send o)) else None)
    (if r_inited (recv o) then Some (r_mtu (recv o), r_busy (recv o)) else None)
    (started (recv o))
    (if r_have_addrs (recv o) then Some (r_remote_addr (recv o), r_local_addr (recv o)) else None).
Proof. intros Ho. unfold spec_of. by rewrite Ho. Qed.

(** The results of a round, in the specification. *)
Lemma send_res_spec e k s s' o w o' l : dg s = Some o -> dg s' = Some o' -> send_res k (set_wait_events w o) o' l ->
  spec_acts (E_round e k) (spec_of s) l (spec_of s').
Proof.
  intros Ho Ho' Hr. rewrite (spec_of_some s o Ho), (spec_of_some s' o' Ho'). destruct Hr as [w'| |to n Hc Hto Hk Hn].
  - by constructor; [|constructor].
  - by constructor; [|repeat constructor].
  - unfold can_send in Hc. cbn in *. rewrite !andb_true_iff in Hc. destruct Hc as [[H1 H2] H3]. unfold go. cbn. rewrite H1, H2, H3.
    destruct (started (recv o)) eqn:Es; cbn; rewrite ?H1, ?H3, ?Es; exact (SA_send e k (mk_spec _ _ _ _ _) (fd o) _ _ _ _ _ eq_refl eq_refl Hto Hk Hn).
Qed.

Lemma recv_res_spec e k s s' o w o' l : dg s = Some o -> dg s' = Some o' -> recv_res k (set_wait_events w o) o' l ->
  spec_acts (E_round e k) (spec_of s) l (spec_of s').
Proof.
  intros Ho Ho' Hr. rewrite (spec_of_some s o Ho), (spec_of_some s' o' Ho'). destruct Hr as [w'| |data from control a local Hc Hk Hn].
  - by constructor; [|constructor].
  - by constructor; [|repeat constructor].
  - unfold can_recv in Hc. cbn in *. rewrite !andb_true_iff in Hc. destruct Hc as [[H1 H2] H3]. rewrite H1, H2, H3.
    exact (SA_recv e k (mk_spec _ _ _ _ _) (fd o) _ _ _ _ eq_refl eq_refl Hk Hn).
Qed.

Lemma fd_res_spec e k s s' o o' l : dg s = Some o -> dg s' = Some o' -> fd_res k o o' l -> spec_acts (E_round e k) (spec_of s) l (spec_of s').
Proof.
  intros Ho Ho' Hr. destruct Hr as [w o2 l2 Hr|w o2 l2 Hr|w]; [exact (send_res_spec e k s s' o w o2 l2 Ho Ho' Hr) | exact (recv_res_spec e k s s' o w o2 l2 Ho Ho' Hr) |].
  rewrite (spec_of_some s o Ho), (spec_of_some s' _ Ho'). by constructor; [|repeat constructor].
Qed.

Lemma go_fd o : fd (go o) = fd o.
Proof. apply go_same. Qed.

Lemma send_res_fd k o o' l : send_res k o o' l -> fd o' = fd o.
Proof. destruct 1; [done | done | cbn; apply go_fd]. Qed.
Lemma recv_res_fd k o o' l : recv_res k o o' l -> fd o' = fd o.
Proof. by destruct 1. Qed.
Lemma fd_res_fd k o o' l : fd_res k o o' l -> fd o' = fd o.
Proof. destruct 1 as [w ? ? Hr|w ? ? Hr|w]; [by apply send_res_fd in Hr | by apply recv_res_fd in Hr | done]. Qed.
Lemma kept_from X ev s s1 s' tr0 tr : dg s1 = dg s -> acts tr0 = [] -> kept X ev s1 s' tr -> kept X ev s s' (tr0 ++ tr).
Proof. intros Hd Hq [I A]. split; [done|]. rewrite acts_app, Hq. unfold spec_of in *. by rewrite Hd in A. Qed.

(** The kernel's results suit the object. *)
Definition dg_kernel_ok (k : kernel) (o : option datagram) : Prop :=
  forall o', o = Some o' -> send_ok k (zlen (s_busy_data (send o'))) = true /\ recv_ok k (r_mtu (recv o')) = true.

Section Round.
Context (X : gset Z) (e : el_env) (k : kernel) (s : sys) (v : view) (B : base_at X v s) (Huser : v_user v = true) (Hk : dg_kernel_ok k (dg s)).

Lemma other_call_kept c : dg_inv v (dg s) (err_pending s) -> wp (emit (Other_Call c)) s (fun _ s' tr => kept X (E_round e k) s s' tr).
Proof. intros D. wp_step. split; [by eapply inv_of|]. by constructor; [|repeat constructor]. Qed.

Lemma dispatch_dg_job_wp j h : dg_inv (up_jobs (fun _ => j :: v_jobs v) v) (dg s) (err_pending s) -> J_ERROR ∉ j :: v_jobs v -> NoDup (j :: v_jobs v) ->
  wp (dispatch (C_job j h) k) s (fun _ s' tr => kept X (E_round e k) s s' tr).
Proof.
  intros D He Hn. pose proof He as [Hne He']%not_elem_of_cons.
  assert (Hdg : mine j -> exists o, dg s = Some o /\ dg_at false false (up_jobs (fun _ => j :: v_jobs v) v) o (err_pending s)).
  { intros Hm. destruct (dg s) as [o|]; [by exists o|]. destruct D as (_ & _ & _ & H). destruct (H j Hm) as [_ []]. by left. }
  cbn [dispatch]. destruct (Z.eqb_spec j J_SEND) as [->|H1].
  { destruct Hdg as (o & Ho & C); [by left|]. destruct (Hk o Ho) as [Hs _].
    eapply (send_job_wp k s v o); [apply B | done | done | done | done | done | by eapply dg_open | done |].
    eapply dg_step_kept; [done | done | intros o' l; apply send_res_fd |]. intros s' o' l Ho' HP. exact (send_res_spec e k s s' o (wait_events o) o' l Ho Ho' ltac:(by destruct o)). }
  destruct (Z.eqb_spec j J_RECV) as [->|H2].
  { destruct Hdg as (o & Ho & C); [right; by left|]. destruct (Hk o Ho) as [_ Hr].
    eapply (recv_job_wp k s v o); [apply B | done | done | done | done | done | by eapply dg_open | done |].
    eapply dg_step_kept; [done | done | intros o' l; apply recv_res_fd |]. intros s' o' l Ho' HP. exact (recv_res_spec e k s s' o (wait_events o) o' l Ho Ho' ltac:(by destruct o)). }
  destruct (Z.eqb_spec j J_ERROR) as [->|H3]; [done|]. apply other_call_kept. eapply pop_dg; [|exact D]. by intros [|[]].
Qed.

Lemma dispatch_dg_fd_wp p events f wait : dg_inv v (dg s) (err_pending s) -> v_jobs v = [] -> v_fds v !! p = Some (f, wait) -> events_ok wait events = true ->
  wp (dispatch (C_fd p events) k) s (fun _ s' tr => kept X (E_round e k) s s' tr).
Proof.
  intros D Hj Hp He. cbn [dispatch]. destruct (Z.eqb_spec p B_DG) as [->|Hne]; [|by rewrite (re_fds _ _ (b_rest _ _ _ B)) in Hp].
  destruct (dg s) as [o|] eqn:Ho; [|destruct D as (E & _); congruence]. destruct (Hk o eq_refl) as [Hs Hr].
  cbn in D. rewrite (da_fd _ _ _ _ _ D) in Hp. injection Hp as <- <-.
  set (err := has_event events BREACTOR_ERROR_HUP). set (s2 := if err then set_err true s else s).
  assert (E2 : wp (when err do modify (set_err true)) s (fun _ s' (tr : list out) => s' = s2 /\ tr = [])) by (unfold s2; destruct err; by wp_step).
  wp_step. eapply wp_mono; [exact E2|]. intros [] s3 tr3 [-> ->]. assert (Hd : dg s2 = dg s) by (unfold s2; by destruct err).
  assert (B2 : base_at X v s2) by (destruct B; unfold s2; destruct err; by split).
  eapply wp_mono with (Q := fun _ s' tr => kept X (E_round e k) s2 s' tr); [|intros a s' tr HP; exact (kept_from X (E_round e k) s s2 s' [] tr Hd eq_refl HP)].
  eapply (datagram_fd_handler_wp k s2 v o events); [apply B2 | done | by rewrite Hd | | done | done | | eapply dg_open; [done | by rewrite Hd] | done | done |].
  - eapply dg_at_err; [|exact D]. unfold s2. by destruct err.
  - intros E. unfold s2, err. by rewrite E.
  - eapply dg_step_kept; [done | by rewrite Hd | intros o' l; apply fd_res_fd |]. intros s' o' l Ho' HP. eapply fd_res_spec; [by rewrite Hd | done | done].
Qed.
End Round.

Lemma dg_round_wp X e k s : inv X s -> enabled (E_round e k) s = true -> wp (deliver (E_round e k)) s (fun _ s' tr => kept X (E_round e k) s s' tr).
Proof.
  intros [v I] He. cbn [enabled] in He. rewrite !andb_true_iff in He. destruct He as [[He Hf] Hk]. apply negb_true_iff in Hf.
  assert (Hk' : dg_kernel_ok k (dg s)) by (intros o Ho; rewrite Ho in Hk; by apply andb_true_iff in Hk).
  pose proof (dg_not_failed X v s I Hf) as Hje. pose proof I as [I1 I2 I3 I4 I5].
  cbn [deliver]. wp_step. eapply on_dg_loop_wp; [exact (el_round_spec _ v e I1 He)|]. cbn beta. intros c r tr (v' & R' & Hround) A.
  pose proof (round_dg _ _ _ _ _ Hround I2) as D. assert (B : base_at X v' (set_loop r s)) by (split; [done | by eapply round_rest | done..]).
  assert (Hsame : v_jobs v' = v_jobs v -> dg_inv v' (dg s) (err_pending s)) by (intros E; rewrite <- E, up_jobs_id in D; done).
  assert (Hend : forall m : H unit, wp m (set_loop r s) (fun _ s' tr' => kept X (E_round e k) (set_loop r s) s' tr') -> wp m (set_loop r s) (fun _ s' tr' => kept X (E_round e k) s s' (tr ++ tr'))).
  { intros m Hm. eapply wp_mono; [exact Hm|]. intros a s' tr' HP. by eapply kept_from. }
  destruct c as [[j h|t|p events]|]; destruct Hround as [Efd _ _ Hc]; cbn in Hc; apply Hend.
  - destruct Hc as (Hu & Hj & _). pose proof (el_nodup _ _ I1) as Hn. rewrite Hj in D, Hje, Hn. by eapply dispatch_dg_job_wp.
  - destruct Hc as (Hu & Hj). eapply other_call_kept; [done | by apply Hsame].
  - destruct Hc as (Hu & Hj & Hj0 & f & wait & Hp & Hev). rewrite <- Efd in Hp. eapply dispatch_dg_fd_wp; [done | done | done | by apply Hsame | congruence | done | done].
  - wp_step. split; [eapply inv_of; [done | by apply Hsame]|]. by constructor; [|constructor].
Qed.
(** ** Every event *)

Lemma dg_ok_some f s : dg_ok f s = true -> in_user s = true /\ exists o, dg s = Some o /\ f o = true.
Proof. unfold dg_ok, with_dg. intros [Hu Hf]%andb_true_iff. split; [done|]. destruct (dg s) as [o|]; [eauto | done]. Qed.

Ltac ends_tac Ho lem := eapply ends_kept; [eassumption | exact Ho | | done | | intros ? ?; by eapply lem]; [done|];
  let E := fresh in intros ? E; rewrite (spec_of_some _ _ Ho), (spec_of_some _ _ E); cbn; repeat match goal with H : _ = true |- _ => rewrite H end; done.

(** The users' calls that need the object and move no data. *)
Lemma dg_calls_wp X ev s : inv X s -> enabled ev s = true ->
  match ev with
  | E_bind _ _ | E_set_addrs _ _ | E_send_init _ | E_send_free | E_recv_init _ | E_recv_free | E_send _ | E_recv =>
      wp (deliver ev) s (fun _ s' tr => kept X ev s s' tr)
  | _ => True
  end.
Proof.
  intros [v I] He. pose proof (i_rep _ _ _ I) as Rv.
  assert (Hok : forall f, dg_ok f s && negb (failed s) = true -> v_user v = true /\ J_ERROR ∉ v_jobs v /\ exists o, dg s = Some o /\ dg_at false false v o (err_pending s) /\ f o = true).
  { intros f [(Hu & o & Ho & Hf)%dg_ok_some Hn%negb_true_iff]%andb_true_iff. split; [by eapply dg_user_view|]. split; [by eapply dg_not_failed|]. exists o. split; [done|]. split; [by eapply dg_here | done]. }
  assert (Hok' : forall f, dg_ok f s = true -> v_user v = true /\ exists o, dg s = Some o /\ dg_at false false v o (err_pending s) /\ f o = true).
  { intros f (Hu & o & Ho & Hf)%dg_ok_some. split; [by eapply dg_user_view|]. exists o. split; [done|]. split; [by eapply dg_here | done]. }
  destruct ev as [| | |addr k|remote local| | | |mtu| | |mtu| | |data| | | | |]; try done; cbn [enabled deliver] in *.
  - destruct (Hok _ He) as (Hu & Hj & o & Ho & C & Ha). wp_step.
    eapply wp_mono with (Q := fun b s' tr => kept X (E_bind addr k) s s' tr); [|intros b s' tr HP; wp_step; by rewrite app_nil_r].
    eapply (bind_wp k addr s v o); [done | done | done | done | done | done | eapply dg_open; [by apply base_of | done] |].
    eapply dg_step_kept; [by apply base_of | done | intros o' l [-> _]; destruct (k_bind k); [apply go_fd | done] |]. intros s' o' l Ho' [-> Hq].
    rewrite (spec_of_some s o Ho), (spec_of_some s' _ Ho'). destruct (k_bind k) eqn:Ek; cbn; rewrite Ek; [|rewrite orb_false_r]; [|by constructor].
    unfold go. destruct (started (recv o)) eqn:Es; cbn; rewrite ?Es; by constructor.
  - destruct (Hok _ He) as (Hu & Hj & o & Ho & C & Ha). ends_tac Ho (set_addrs_wp remote local s v o).
  - destruct (Hok _ He) as (Hu & Hj & o & Ho & C & [Hi%negb_true_iff Hm%Z.leb_le]%andb_true_iff). ends_tac Ho (dg_send_init_wp mtu s v o).
  - destruct (Hok' _ He) as (Hu & o & Ho & C & Hi). ends_tac Ho (dg_send_free_wp s v o).
  - destruct (Hok _ He) as (Hu & Hj & o & Ho & C & [Hi%negb_true_iff Hm%Z.leb_le]%andb_true_iff). ends_tac Ho (dg_recv_init_wp mtu s v o).
  - destruct (Hok' _ He) as (Hu & o & Ho & C & Hi). ends_tac Ho (dg_recv_free_wp s v o).
  - destruct (Hok _ He) as (Hu & Hj & o & Ho & C & [[Hi Hb%negb_true_iff]%andb_true_iff Hm%Z.leb_le]%andb_true_iff). ends_tac Ho (send_if_wp s v o data).
  - destruct (Hok _ He) as (Hu & Hj & o & Ho & C & [Hi Hb%negb_true_iff]%andb_true_iff). ends_tac Ho (recv_if_wp s v o).
Qed.
Lemma own_not_mine j : own_job j = false -> ~ mine j.
Proof. intros Hj H%mine_own. congruence. Qed.

(** A change of the jobs that are not the object's. *)
Lemma dg_inv_jobs v v' o err : v_fds v' = v_fds v -> v_limits v' = v_limits v -> (forall j, mine j -> v_init v' !! j = v_init v !! j /\ (j ∈ v_jobs v' <-> j ∈ v_jobs v)) ->
  dg_inv v o err -> dg_inv v' o err.
Proof.
  intros Ef El Hj. destruct (Hj J_SEND) as [Is Js]; [by left|]. destruct (Hj J_RECV) as [Ir Jr]; [right; by left|]. destruct (Hj J_ERROR) as [Ie Je]; [right; by right|].
  destruct o as [o|].
  - intros [C1 C2 C3 C4 C5 C6 C7 C8 C9 C10 C11 C12 C13 C14]. split; rewrite ?Ef, ?El, ?Is, ?Ir, ?Ie, ?Js, ?Jr, ?Je; done.
  - intros (H1 & H2 & H3 & H4). cbn. rewrite Ef, El. split_and!; [done..|]. intros j Hm. destruct (Hj j Hm) as [-> E]. rewrite E. by apply H4.
Qed.

Lemma dg_user_job_wp X v s j (m : M R el_out unit) v' jobs : inv_at X v s -> own_job j = false -> wp m (loop s) (fun _ r _ => el_rep r v') ->
  v_fds v' = v_fds v -> v_limits v' = v_limits v -> (forall i, i <> j -> v_init v' !! i = v_init v !! i /\ (i ∈ v_jobs v' <-> i ∈ v_jobs v)) ->
  (forall i, own_job i = false -> is_Some (v_init v' !! i) <-> i ∈ jobs) -> (forall i, i ∈ jobs -> own_job i = false) ->
  wp (on_loop m) s (fun _ s' tr => inv X (set_user_jobs jobs s') /\ acts tr = [] /\ dg s' = dg s /\ user_jobs s' = user_jobs s).
Proof.
  intros [I1 I2 I3 I4 I5] Hj Hm Ef El Hi Hjobs Hown. eapply on_dg_loop_wp; [exact Hm|]. cbn beta. intros [] r tr R' A. split_and!; try done. exists v'. split; try done.
  - eapply dg_inv_jobs; [done | done | | exact I2]. intros i Hmi. apply Hi. intros ->. by apply (own_not_mine j).
  - destruct I3 as [H5 H6 H7 H8]. split; [intros p; rewrite Ef; auto | intros l; rewrite El; auto | |].
    + intros i Hni. apply Hjobs. destruct (own_job i) eqn:E; [|done]. by destruct Hni; apply mine_own.
    + intros i Hin. by apply own_not_mine, Hown.
Qed.

(** An event that leaves the object. *)
Lemma aside_kept X ev s s' tr : ev <> E_get_addrs -> spec_event ev (spec_of s) = spec_of s -> inv X s' -> quiet (acts tr) -> dg s' = dg s -> kept X ev s s' tr.
Proof. intros He Es I' Hq Hd. split; [done|]. rewrite Es. unfold spec_of. rewrite Hd. by constructor. Qed.

Lemma dg_user_jobs_wp X ev s : inv X s -> enabled ev s = true ->
  match ev with E_job_init _ _ | E_job_free _ | E_job_set _ | E_job_unset _ => wp (deliver ev) s (fun _ s' tr => kept X ev s s' tr) | _ => True end.
Proof.
  intros [v I] He. pose proof I as [I1 I2 I3 I4 I5]. pose proof I3 as [H1 H2 H3 H4].
  assert (Hown : forall i, i ∈ user_jobs s -> own_job i = false) by (intros i Hi%H4; destruct (own_job i) eqn:E; [by destruct Hi; apply mine_own | done]).
  assert (Hin : forall i, own_job i = false -> is_Some (v_init v !! i) <-> i ∈ user_jobs s) by (intros i Hi; by apply H3, own_not_mine).
  assert (Hset : forall j, in_user s = true -> j ∈ user_jobs s -> v_user v = true /\ own_job j = false /\ is_Some (v_init v !! j)).
  { intros j Hu Hj. split; [by eapply dg_user_view|]. split; [auto|]. apply Hin; auto. }
  assert (Hend : forall ev s' tr, ev <> E_get_addrs -> spec_event ev (spec_of s) = spec_of s -> inv X (set_user_jobs (user_jobs s) s') /\ acts tr = [] /\ dg s' = dg s /\ user_jobs s' = user_jobs s -> kept X ev s s' tr).
  { intros ev' s' tr Hev Es (I' & A & Hd & Hu). apply aside_kept; [done | done | | by rewrite A; constructor | done]. rewrite <- Hu in I'. by destruct s'. }
  assert (Hend' : forall ev s' tr jobs, ev <> E_get_addrs -> spec_event ev (spec_of s) = spec_of s -> inv X (set_user_jobs jobs s') /\ acts tr = [] /\ dg s' = dg s /\ user_jobs s' = user_jobs s -> kept X ev s (set_user_jobs jobs s') tr).
  { intros ev' s' tr jobs Hev Es (I' & A & Hd & Hu). apply aside_kept; [done | done | done | by rewrite A; constructor | done]. }
  destruct ev as [| | | | | | | | | | | | | | | |j h|j|j|j]; try done; cbn [enabled deliver] in *; rewrite !andb_true_iff in He.
  - destruct He as [[Hu%(dg_user_view X v s I) Hj%negb_true_iff] Hn%bool_decide_eq_true]. assert (Hi : v_init v !! j = None) by (apply eq_None_not_Some; by rewrite Hin).
    wp_step. eapply wp_mono; [eapply (dg_user_job_wp X v s j _ _ ({[j]} ∪ user_jobs s)); [done | done | by apply (el_job_init_spec _ _ j h I1) | done | done | | | set_solver]|].
    + intros i Hne. cbn. by rewrite lookup_insert_ne.
    + intros i Hi'. cbn. destruct (decide (i = j)) as [->|Hne]; [rewrite lookup_insert_eq; set_solver | rewrite lookup_insert_ne, Hin by done; set_solver].
    + intros u s' tr HP. wp_step. rewrite app_nil_r. destruct HP as (I' & A & Hd & E). rewrite E. by apply Hend'.
  - destruct He as [Hu Hj%bool_decide_eq_true]. destruct (Hset j Hu Hj) as (Hv & Ho & Hi).
    wp_step. eapply wp_mono; [eapply (dg_user_job_wp X v s j _ _ (user_jobs s ∖ {[j]})); [done | done | by apply (el_job_free_spec _ _ j I1) | done | done | | | set_solver]|].
    + intros i Hne. cbn. rewrite lookup_delete_ne, BPending.elem_of_job_remove by done. tauto.
    + intros i Hi'. cbn. destruct (decide (i = j)) as [->|Hne]; [rewrite lookup_delete_eq; split; [by intros []|set_solver] | rewrite lookup_delete_ne, Hin by done; set_solver].
    + intros u s' tr HP. wp_step. rewrite app_nil_r. destruct HP as (I' & A & Hd & E). rewrite E. by apply Hend'.
  - destruct He as [Hu Hj%bool_decide_eq_true]. destruct (Hset j Hu Hj) as (Hv & Ho & Hi).
    eapply wp_mono; [eapply (dg_user_job_wp X v s j _ _ (user_jobs s)); [done | done | by apply (el_job_set_spec _ _ j I1) | done | done | | done | done]|]; [|intros; by apply Hend].
    intros i Hne. cbn. rewrite elem_of_cons, BPending.elem_of_job_remove. tauto.
  - destruct He as [Hu Hj%bool_decide_eq_true]. destruct (Hset j Hu Hj) as (Hv & Ho & Hi).
    eapply wp_mono; [eapply (dg_user_job_wp X v s j _ _ (user_jobs s)); [done | done | by apply (el_job_unset_spec _ _ j I1) | done | done | | done | done]|]; [|intros; by apply Hend].
    intros i Hne. cbn. rewrite BPending.elem_of_job_remove. tauto.
Qed.

Lemma datagram_deliver_wp X ev s : inv X s -> enabled ev s = true -> wp (deliver ev) s (fun _ s' tr => kept X ev s s' tr).
Proof.
  intros Ii He. pose proof (dg_calls_wp X ev s Ii He) as Wc. pose proof (dg_user_jobs_wp X ev s Ii He) as Wj.
  assert (Hret : forall (m : H bool), wp m s (fun _ s' tr => kept X ev s s' tr) -> wp (m ;; ret tt) s (fun _ s' tr => kept X ev s s' tr)).
  { intros m Hm. wp_step. eapply wp_mono; [exact Hm|]. intros a s' tr HP. wp_step. by rewrite app_nil_r. }
  destruct ev as [e k|family k| |addr k|remote local| | |reuse ok|mtu| | |mtu| | |data| |j h|j|j|j]; try done.
  - by apply dg_round_wp.
  - destruct Ii as [v I]. cbn [enabled deliver] in *. rewrite !andb_true_iff in He. destruct He as [[[Hu%(dg_user_view X v s I) Hn%bool_decide_eq_true] Hf] Hk].
    apply Hret. eapply wp_mono; [by eapply dg_init_wp|]. intros b s' tr (I' & Hq & Es). split; [done|]. unfold spec_of at 1. rewrite Hn, Es. by constructor.
  - destruct Ii as [v I]. cbn [enabled deliver] in *. destruct (dg_ok_some _ _ He) as (Hu%(dg_user_view X v s I) & o & Ho & [Hs%negb_true_iff Hr%negb_true_iff]%andb_true_iff).
    eapply wp_mono; [by eapply dg_free_wp|]. intros u s' tr (I' & Hq & Es). split; [done|]. rewrite Es. by constructor.
  - cbn [enabled deliver] in *. destruct (dg_ok_some _ _ He) as (_ & o & Ho & _). unfold BDatagram_GetLastReceiveAddrs. wp_step. eapply wp_the_dg; [exact Ho|]. wp_step.
    split; [done|]. rewrite (spec_of_some s o Ho). exact (SA_addrs (mk_spec _ _ _ _ _)).
  - cbn [enabled deliver] in *. destruct (dg_ok_some _ _ He) as (_ & o & Ho & _). wp_step. unfold BDatagram_GetFd. wp_step. eapply wp_the_dg; [exact Ho|]. do 2 wp_step.
    by apply aside_kept; [| | |constructor|].
  - destruct Ii as [v I]. cbn [enabled deliver] in *. destruct (dg_ok_some _ _ He) as (_ & o & Ho & Hr). apply Hret. unfold BDatagram_SetReuseAddr. do 2 wp_step; [done|].
    wp_step. eapply wp_the_dg; [exact Ho|]. wp_step. apply wp_use_dg_fd; [eapply dg_open; [by apply base_of | done]|]. wp_step. apply aside_kept; [done | done | by exists v | constructor | done].
  - cbn [enabled deliver] in *. destruct (dg_ok_some _ _ He) as (_ & o & Ho & Hs). unfold BDatagram_SendAsync_GetIf. wp_step. eapply wp_the_dg; [exact Ho|]. wp_step; [done|].
    by apply aside_kept; [| | |constructor|].
  - cbn [enabled deliver] in *. destruct (dg_ok_some _ _ He) as (_ & o & Ho & Hs). unfold BDatagram_RecvAsync_GetIf. wp_step. eapply wp_the_dg; [exact Ho|]. wp_step; [done|].
    by apply aside_kept; [| | |constructor|].
Qed.
(** ** Runs *)

(** Nothing is in the loop yet; the users have the descriptors [fds]. *)
Definition start (r : R) (fds : gset Z) : sys := mk_sys r None fds ∅ false.

Lemma dg_start_inv r fds : unused r -> inv fds (start r fds).
Proof.
  intros (v & Rv & Ef & El & Ei & Ej). exists v. split; [done | | | cbn; set_solver | done].
  - cbn. rewrite Ef, El, Ei, Ej. split_and!; try done. intros j _. split; [done | by intros ?%elem_of_nil].
  - split; rewrite ?Ef, ?El, ?Ei; try done. intros j _. cbn. split; [by intros [] | set_solver].
Qed.

Lemma datagram_run_inv X evs s : inv X s -> exists s' steps, run evs s = Some (s', steps) /\ inv X s' /\ spec_run (spec_of s) steps (spec_of s').
Proof.
  revert s. induction evs as [|ev evs IH]; intros s I; cbn [run]; [do 2 eexists; split; [done | split; [done | constructor]]|].
  destruct (enabled ev s) eqn:He; [|do 2 eexists; split; [done | split; [done | constructor]]].
  destruct (wp_ok _ _ _ (datagram_deliver_wp X ev s I He)) as (u & s1 & tr & -> & I1 & A).
  destruct (IH s1 I1) as (s' & steps & -> & I' & Hr). do 2 eexists. split; [done|]. split; [done|]. by eapply SR_cons.
Qed.
(** ** The properties *)

(** C14. Whatever the users, the kernel and the loop do, no assertion fails and no
    descriptor is used or closed that is not open: open are those that were, and the
    object's, which is in the loop.  When the object is freed, nothing of it is left: no
    descriptor in the loop, no limit, no job, and no open descriptor. *)
Theorem datagram_safe r fds evs (Hunused : unused r) :
  exists s steps v, run evs (start r fds) = Some (s, steps) /\ el_rep (loop s) v /\
    match dg s with
    | Some o => open_fds s = {[fd o]} ∪ fds /\ fd o ∉ fds /\ v_fds v = {[B_DG := (fd o, wait_events o)]}
    | None => open_fds s = fds /\ v_fds v = ∅ /\ v_limits v = ∅ /\ (forall j, is_Some (v_init v !! j) <-> j ∈ user_jobs s)
    end.
Proof.
  destruct (datagram_run_inv fds evs _ (dg_start_inv r fds Hunused)) as (s & steps & E & [v [I1 I2 [H1 H2 H3 H4] I4 I5]] & _).
  exists s, steps, v. split; [done|]. split; [done|]. destruct (dg s) as [o|]; unfold own_fds, dg_inv in *.
  - split_and!; [done | auto|]. apply map_eq. intros p. destruct (decide (p = B_DG)) as [->|Hp]; [rewrite lookup_singleton_eq; apply I2 | rewrite lookup_singleton_ne by done; auto].
  - destruct I2 as (N1 & N2 & N3 & N4). split_and!; [set_solver | | |].
    + apply map_eq. intros p. rewrite lookup_empty. destruct (decide (p = B_DG)) as [->|]; auto.
    + apply map_eq. intros l. rewrite lookup_empty. destruct (decide (l = L_SEND)) as [->|]; [done|]. destruct (decide (l = L_RECV)) as [->|]; auto.
    + intros j. destruct (own_job j) eqn:Hj; [|by apply H3, own_not_mine]. apply mine_own in Hj. destruct (N4 j Hj) as [-> _].
      split; [by intros []|]. intros Hin. by destruct (H4 j Hin).
Qed.

(** C13. The object is a refinement of the two slots of [spec]: each datagram that was
    given to it is sent once, as a whole or cut by the kernel, to the address that was
    set last, with the local address as control message; each one received goes where
    there was room for it, with the addresses of the kernel; and receiving begins only
    when a datagram was sent or the socket bound. *)
Theorem datagram_refines r fds evs s steps (Hunused : unused r) (Hrun : run evs (start r fds) = Some (s, steps)) :
  spec_run sp_none steps (spec_of s).
Proof. destruct (datagram_run_inv fds evs _ (dg_start_inv r fds Hunused)) as (s' & steps' & E & _ & Hr). rewrite Hrun in E. by injection E as <- <-. Qed.

(** C15. Nothing is forgotten: until an error is reported, a datagram that can be sent
    is waited for with [BREACTOR_WRITE] or will be tried by the job, and so is one that
    can be received; and the loop waits for nothing else, so that it does not spin. *)
Theorem datagram_progress r fds evs s steps o (Hunused : unused r) (Hrun : run evs (start r fds) = Some (s, steps))
    (Hdg : dg s = Some o) (Hok : failed s = false) :
  exists v, el_rep (loop s) v /\ v_fds v !! B_DG = Some (fd o, wait_events o) /\
    (can_send o = true -> J_SEND ∈ v_jobs v \/ has_write (wait_events o) = true) /\
    (can_recv o = true -> J_RECV ∈ v_jobs v \/ has_read (wait_events o) = true) /\
    (has_write (wait_events o) = true -> can_send o = true) /\ (has_read (wait_events o) = true -> can_recv o = true).
Proof.
  destruct (datagram_run_inv fds evs _ (dg_start_inv r fds Hunused)) as (s' & steps' & E & [v I] & _). rewrite Hrun in E. injection E as <- <-.
  pose proof (dg_not_failed fds v s I Hok) as Hn. exists v. split; [apply I|]. destruct (dg_here fds v s I o Hdg) as [Cfd _ _ _ _ _ _ _ _ _ Csw Crw Cs Cr].
  split_and!; [done | | | done | done]; intros Hc; [destruct (Cs Hc) as [|[|]] | destruct (Cr Hc) as [|[|]]]; auto; done.
Qed.
End Datagram.
End Datagram.

(** ** A concrete run: a query and its answer *)

#[local] Existing Instance EntryList.entry_list.

Module DatagramDemo.
Import Datagram LoopDemo.

Definition k_none : kernel := mk_kernel None true true true W_again R_again.
Definition k_new : kernel := mk_kernel (Some 3) true true true W_again R_again.
Definition k_with (w : send_result) (r : recv_result) : kernel := mk_kernel None true true true w r.

Definition evs_begin : list (event (R := reactor)) :=
  [E_init 1 k_new; E_send_init 512; E_recv_init 512; E_recv; E_send [1; 2; 3]].
Definition evs_query : list (event (R := reactor)) :=
  [E_set_addrs (BADDR_IPV4 7 53) BIP_NONE; E_round (Reactor.E_exec 20) (k_with (W_bytes 3) R_again)].
Definition evs_answer : list (event (R := reactor)) :=
  [E_round (Reactor.E_exec 21) (k_with W_again (R_msg [4; 5] (SYS_IN 16 53 7) [IP_PKTINFO 9])); E_get_addrs].
Definition evs_end : list (event (R := reactor)) := [E_recv_free; E_send_free; E_free].

Definition end_of (r : option (sys (R := reactor) * list (event * list out))) : sys := match r with Some (s, _) => s | None => start reactor_demo ∅ end.
Definition steps_of (r : option (sys (R := reactor) * list (event * list out))) : list (event * list out) := match r with Some (_, l) => l | None => [] end.
Definition run_demo (evs : list event) : option (sys (R := reactor) * list (event * list out)) := run evs (start reactor_demo ∅).

Lemma datagram_run_eq evs : run_demo evs = Some (end_of (run_demo evs), steps_of (run_demo evs)).
Proof. unfold run_demo. by destruct (datagram_run_inv ∅ evs _ (dg_start_inv reactor_demo ∅ reactor_demo_unused)) as (s & steps & -> & _). Qed.

Definition evs_all : list (event (R := reactor)) := evs_begin ++ evs_query ++ evs_answer ++ evs_end.

Lemma datagram_safe_witness : unused reactor_demo /\ length (steps_of (run_demo evs_all)) = 12%nat /\
  exists s steps, run_demo evs_all = Some (s, steps).
Proof.
  split; [exact reactor_demo_unused|]. split; [vm_cast_no_check (eq_refl 12%nat)|].
  destruct (datagram_safe reactor_demo ∅ evs_all reactor_demo_unused) as (s & steps & v & E & _). exists s, steps. exact E.
Defined.

Definition sent_of (steps : list (event (R := reactor) * list out)) : list (sys_addr * list Z) :=
  steps ≫= fun st => omap (fun o => match o with Sendmsg _ to _ d => Some (to, d) | _ => None end) st.2.
Definition received_of (steps : list (event (R := reactor) * list out)) : list (list Z * BAddr * BIPAddr) :=
  steps ≫= fun st => omap (fun o => match o with Recvmsg _ d from local => Some (d, from, local) | _ => None end) st.2.

Lemma datagram_refines_witness (steps := steps_of (run_demo evs_all)) :
  sent_of steps = [(SYS_IN 16 53 7, [1; 2; 3])] /\ received_of steps = [([4; 5], BADDR_IPV4 7 53, BIP_IPV4 9)] /\
  spec_run sp_none steps (spec_of (end_of (run_demo evs_all))).
Proof.
  split; [vm_cast_no_check (eq_refl [(SYS_IN 16 53 7, [1; 2; 3])])|].
  split; [vm_cast_no_check (eq_refl [([4; 5], BADDR_IPV4 7 53, BIP_IPV4 9)])|].
  exact (datagram_refines reactor_demo ∅ evs_all _ _ reactor_demo_unused (datagram_run_eq evs_all)).
Defined.

Definition dg_demo : datagram :=
  mk_dg 3 0 (mk_send false BADDR_NONE BIP_NONE true 512 true [1; 2; 3]) (mk_recv false false BADDR_NONE BIP_NONE true 512 true).

Lemma datagram_progress_witness (s := end_of (run_demo evs_begin)) :
  dg s = Some dg_demo /\ exists v, el_rep (loop s) v /\ v_fds v !! B_DG = Some (3, 0).
Proof.
  assert (Hd : dg s = Some dg_demo) by (vm_cast_no_check (eq_refl (Some dg_demo))).
  assert (Hf : failed s = false) by (vm_cast_no_check (eq_refl false)).
  split; [exact Hd|].
  destruct (datagram_progress reactor_demo ∅ evs_begin s _ dg_demo reactor_demo_unused (datagram_run_eq evs_begin) Hd Hf) as (v & Rv & H & _).
  exists v. split; [exact Rv | exact H].
Defined.
End DatagramDemo.
