(* ===== verification/FragmentProto.v ===== *)
(** * FragmentProto: packets cut into chunks

    The format of [badvpn/protocol/fragmentproto.h]: a packet is a sequence of chunks,
    each with a header that says which part of which frame its data is.  [chunks_of]
    reads the chunks of a packet.  [flow] says which frames a sequence of chunks in
    order is made of; [assembled] is what a set of chunks amounts to. *)

From S2P Require Import Prelude ByteOrder BSize.

#[local] Arguments le_bytes : simpl never.
#[local] Arguments mread : simpl never.

Definition sizeof_fragmentproto_chunk_header : Z := 7.

Record fragmentproto_chunk_header := mk_header { frame_id : Z; chunk_start : Z; chunk_len : Z; is_last : Z }.

(** Image of the header, which is packed. *)
Definition header_bytes (h : fragmentproto_chunk_header) : list Z :=
  le_bytes 2 (frame_id h) ++ le_bytes 2 (chunk_start h) ++ le_bytes 2 (chunk_len h) ++ le_bytes 1 (is_last h).
Definition read_header (b : list Z) : fragmentproto_chunk_header :=
  mk_header (le_val (mread b 0 2)) (le_val (mread b 2 2)) (le_val (mread b 4 2)) (le_val (mread b 6 1)).

Definition fragmentproto_max_chunks_for_frame (carrier_mtu frame_mtu : Z) : Z :=
  bdivide_up frame_mtu (carrier_mtu - sizeof_fragmentproto_chunk_header) + 1.

Lemma zlen_chunk_header h : zlen (header_bytes h) = 7.
Proof. unfold header_bytes. rewrite !zlen_app, !zlen_le_bytes. lia. Qed.

(** A field in the middle of an image. *)
Lemma field_at (l r : list Z) n z off : zlen l = off -> 0 <= z < 256 ^ Z.of_nat n ->
  le_val (mread (l ++ le_bytes n z ++ r) off (Z.of_nat n)) = z.
Proof. intros Hl Hz. rewrite mread_app_at by (done || apply zlen_le_bytes). by apply le_val_bytes. Qed.

Lemma read_header_bytes h r : 0 <= frame_id h < 65536 -> 0 <= chunk_start h < 65536 -> 0 <= chunk_len h < 65536 -> 0 <= is_last h < 256 ->
  read_header (header_bytes h ++ r) = h.
Proof.
  destruct h as [a b c d]. cbn. intros Ha Hb Hc Hd. unfold read_header, header_bytes. cbn. rewrite <- !app_assoc. f_equal.
  - by apply (field_at [] _ 2 a).
  - apply (field_at (le_bytes 2 a) _ 2 b); [apply zlen_le_bytes | done].
  - rewrite (app_assoc (le_bytes 2 a)). apply (field_at (le_bytes 2 a ++ le_bytes 2 b) _ 2 c); [by rewrite zlen_app, !zlen_le_bytes | done].
  - rewrite (app_assoc (le_bytes 2 b)), (app_assoc (le_bytes 2 a)).
    apply (field_at (le_bytes 2 a ++ le_bytes 2 b ++ le_bytes 2 c) _ 1 d); [by rewrite !zlen_app, !zlen_le_bytes | done].
Qed.

(** ** Chunks *)

Record chunk := mk_chunk { c_id : Z; c_start : Z; c_last : bool; c_data : list Z }.
Definition c_len (c : chunk) : Z := zlen (c_data c).
Definition c_end (c : chunk) : Z := c_start c + c_len c.

Record chunk_ok (c : chunk) : Prop := mk_chunk_ok {
  ok_id : 0 <= c_id c < 65536;
  ok_start : 0 <= c_start c < 65536;
  ok_len : c_len c < 65536;
  ok_bytes : bytes_ok (c_data c);
}.

Definition header_of (c : chunk) : fragmentproto_chunk_header :=
  mk_header (htol16 (c_id c)) (htol16 (c_start c)) (htol16 (c_len c)) (Z.b2z (c_last c)).
Definition encode_chunk (c : chunk) : list Z := header_bytes (header_of c) ++ c_data c.
Definition encode_all (cs : list chunk) : list Z := cs ≫= encode_chunk.

(** The chunks of a packet, up to the first that is not well formed. *)
Fixpoint parse (n : nat) (b : list Z) : list chunk :=
  match n with
  | O => []
  | S n' =>
      if zlen b <? sizeof_fragmentproto_chunk_header then [] else
      let h := read_header b in
      let len := ltoh16 (chunk_len h) in
      if negb ((ltoh8 (is_last h) =? 0) || (ltoh8 (is_last h) =? 1)) then [] else
      if zlen b - 7 <? len then [] else
      mk_chunk (ltoh16 (frame_id h)) (ltoh16 (chunk_start h)) (ltoh8 (is_last h) =? 1) (mread b 7 len) :: parse n' (mread b (7 + len) (zlen b - 7 - len))
  end.
Definition chunks_of (b : list Z) : list chunk := parse (length b) b.

Lemma zlen_encode_chunk c : zlen (encode_chunk c) = 7 + c_len c.
Proof. unfold encode_chunk. by rewrite zlen_app, zlen_chunk_header. Qed.

Lemma encode_chunks_app cs ds : encode_all (cs ++ ds) = encode_all cs ++ encode_all ds.
Proof. apply bind_app. Qed.

Lemma encode_chunks_one c : encode_all [c] = encode_chunk c.
Proof. apply app_nil_r. Qed.

Lemma encode_all_nil cs : encode_all cs = [] -> cs = [].
Proof.
  destruct cs as [|c cs]; [done|]. intros E%(f_equal zlen). unfold encode_all in E. rewrite bind_cons, zlen_app, zlen_encode_chunk in E.
  pose proof (zlen_nonneg (c_data c)). pose proof (zlen_nonneg (cs ≫= encode_chunk)). unfold c_len in E. rewrite zlen_nil in E. lia.
Qed.

Lemma ltoh16_range x : 0 <= ltoh16 x < 65536.
Proof. apply u16_range. Qed.

Lemma length_rest b len : 0 <= len -> zlen b >= 7 + len -> (length (mread b (7 + len) (zlen b - 7 - len)) < length b)%nat.
Proof. intros H0 H. pose proof (zlen_mread b (7 + len) (zlen b - 7 - len) ltac:(lia) ltac:(lia) ltac:(lia)) as E. unfold zlen in *. lia. Qed.

(** Enough fuel is enough. *)
Lemma parse_fuel n m b : (length b <= n)%nat -> (length b <= m)%nat -> parse n b = parse m b.
Proof.
  revert m b. induction n as [|n IH]; intros m b Hn Hm.
  - destruct b; [|cbn in Hn; lia]. by destruct m.
  - destruct m as [|m]; [destruct b; [done | cbn in Hm; lia]|]. cbn [parse].
    destruct (Z.ltb_spec (zlen b) sizeof_fragmentproto_chunk_header) as [|H7]; [done|]. cbv zeta.
    destruct (negb _); [done|]. destruct (Z.ltb_spec (zlen b - 7) (ltoh16 (chunk_len (read_header b)))) as [|Hl]; [done|]. f_equal.
    pose proof (ltoh16_range (chunk_len (read_header b))) as H16.
    pose proof (length_rest b _ (proj1 H16) ltac:(lia)). apply IH; lia.
Qed.

(** Reading the first chunk. *)
Lemma chunks_of_step b (h := read_header b) (len := ltoh16 (chunk_len h)) :
  chunks_of b =
    if zlen b <? sizeof_fragmentproto_chunk_header then [] else
    if negb ((ltoh8 (is_last h) =? 0) || (ltoh8 (is_last h) =? 1)) then [] else
    if zlen b - 7 <? len then [] else
    mk_chunk (ltoh16 (frame_id h)) (ltoh16 (chunk_start h)) (ltoh8 (is_last h) =? 1) (mread b 7 len) :: chunks_of (mread b (7 + len) (zlen b - 7 - len)).
Proof.
  unfold chunks_of at 1. destruct b as [|x b]; [done|]. cbn [length parse]. fold h.
  destruct (Z.ltb_spec (zlen (x :: b)) sizeof_fragmentproto_chunk_header); [done|]. destruct (negb _); [done|]. fold len.
  destruct (Z.ltb_spec (zlen (x :: b) - 7) len) as [|Hl]; [done|]. f_equal.
  pose proof (ltoh16_range (chunk_len h)) as H16. pose proof (length_rest (x :: b) _ (proj1 H16) ltac:(fold len; lia)) as Hr.
  apply parse_fuel; cbn [length] in Hr; fold len in Hr; lia.
Qed.

Lemma chunks_of_nil : chunks_of [] = [].
Proof. done. Qed.

Lemma ltoh16_id x : 0 <= x < 65536 -> ltoh16 (htol16 x) = x.
Proof. intros. unfold ltoh16, htol16. rewrite (u16_id x) by lia. by apply u16_id. Qed.

Lemma chunks_of_cons c b : chunk_ok c -> chunks_of (encode_chunk c ++ b) = c :: chunks_of b.
Proof.
  intros [H1 H2 H3 H4]. pose proof (zlen_nonneg (c_data c)) as Hd. fold (c_len c) in Hd. pose proof (zlen_nonneg b) as Hb.
  rewrite chunks_of_step, zlen_app, zlen_encode_chunk. destruct (Z.ltb_spec (7 + c_len c + zlen b) sizeof_fragmentproto_chunk_header) as [|_];
    [unfold sizeof_fragmentproto_chunk_header in *; lia|].
  assert (Eh : read_header (encode_chunk c ++ b) = header_of c).
  { unfold encode_chunk. rewrite <- app_assoc. apply read_header_bytes; cbn; [apply u16_range.. | by destruct (c_last c)]. }
  rewrite Eh. cbn [header_of frame_id chunk_start chunk_len is_last]. rewrite !ltoh16_id by lia.
  assert (El : ltoh8 (Z.b2z (c_last c)) = Z.b2z (c_last c)) by (unfold ltoh8, htol8; apply u8_id; destruct (c_last c); cbn; lia).
  rewrite El. destruct (Z.ltb_spec (7 + c_len c + zlen b - 7) (c_len c)); [lia|].
  assert (Ed : mread (encode_chunk c ++ b) 7 (c_len c) = c_data c).
  { unfold encode_chunk. rewrite <- app_assoc. apply mread_app_at; [apply zlen_chunk_header | done]. }
  assert (Er : mread (encode_chunk c ++ b) (7 + c_len c) (7 + c_len c + zlen b - 7 - c_len c) = b).
  { rewrite mread_app_skip by (rewrite zlen_encode_chunk; lia). rewrite zlen_encode_chunk.
    replace (7 + c_len c - (7 + c_len c)) with 0 by lia. replace (7 + c_len c + zlen b - 7 - c_len c) with (zlen b) by lia. apply mread_all. }
  rewrite Ed, Er. by destruct c as [? ? []].
Qed.

(** A packet that was written is read back. *)
Lemma chunks_of_encode cs : Forall chunk_ok cs -> chunks_of (encode_all cs) = cs.
Proof. induction 1 as [|c cs Hc _ IH]; [done|]. unfold encode_all. rewrite bind_cons, chunks_of_cons by done. by f_equal. Qed.

Lemma parse_ok n b : bytes_ok b -> Forall chunk_ok (parse n b).
Proof.
  revert b. induction n as [|n IH]; intros b Hb; cbn [parse]; [constructor|].
  destruct (Z.ltb_spec (zlen b) sizeof_fragmentproto_chunk_header) as [|H7]; [constructor|]. cbv zeta.
  destruct (negb _); [constructor|]. destruct (Z.ltb_spec (zlen b - 7) (ltoh16 (chunk_len (read_header b)))) as [|Hl]; [constructor|].
  pose proof (ltoh16_range (chunk_len (read_header b))) as H16. constructor; [|by apply IH, mread_bytes_ok].
  split; cbn [c_id c_start c_data]; [apply ltoh16_range | apply ltoh16_range | | by apply mread_bytes_ok].
  unfold c_len. cbn [c_data]. rewrite zlen_mread by lia. lia.
Qed.

Lemma chunks_of_ok b : bytes_ok b -> Forall chunk_ok (chunks_of b).
Proof. apply parse_ok. Qed.

(** ** Sets of chunks *)

(** Data at a place. *)
Lemma lookup_mread m off n i : 0 <= off -> (i < Z.to_nat n)%nat -> mread m off n !! i = m !! (Z.to_nat off + i)%nat.
Proof. intros H0 Hi. unfold mread. rewrite lookup_take_lt by done. apply lookup_drop. Qed.

Definition positions (c : chunk) : list Z := seqZ (c_start c) (c_len c).
Fixpoint total (cs : list chunk) : Z := match cs with [] => 0 | c :: cs' => c_len c + total cs' end.
Definition inside (size : Z) (cs : list chunk) : Prop := Forall (fun c => 0 <= c_start c /\ c_end c <= size) cs.
(** No byte is in two chunks. *)
Definition spread (cs : list chunk) : Prop := NoDup (cs ≫= positions).
Definition apart (c d : chunk) : Prop := c_end c <= c_start d \/ c_end d <= c_start c.

Lemma c_len_nonneg c : 0 <= c_len c.
Proof. apply zlen_nonneg. Qed.

Lemma elem_of_positions c i : i ∈ positions c <-> c_start c <= i < c_end c.
Proof. unfold positions, c_end. apply elem_of_seqZ. Qed.

Lemma elem_of_all_positions cs i : i ∈ cs ≫= positions <-> exists c, c ∈ cs /\ c_start c <= i < c_end c.
Proof. rewrite list_elem_of_bind. setoid_rewrite elem_of_positions. split; intros (c & H1 & H2); eauto. Qed.

Lemma zlen_positions cs : zlen (cs ≫= positions) = total cs.
Proof.
  induction cs as [|c cs IH]; [done|]. rewrite bind_cons, zlen_app, IH. cbn [total]. f_equal. unfold positions, zlen. rewrite length_seqZ.
  pose proof (c_len_nonneg c). lia.
Qed.

Lemma total_nonneg cs : 0 <= total cs.
Proof. induction cs as [|c cs IH]; cbn [total]; [lia|]. pose proof (c_len_nonneg c). lia. Qed.

Lemma total_chunks_app cs ds : total (cs ++ ds) = total cs + total ds.
Proof. induction cs as [|c cs IH]; [done|]. cbn [app total]. lia. Qed.

Lemma positions_inside size cs : inside size cs -> forall i, i ∈ cs ≫= positions -> i ∈ seqZ 0 size.
Proof. intros Hi i (c & Hc & Hr)%elem_of_all_positions. apply elem_of_seqZ. pose proof (proj1 (Forall_forall _ _) Hi c Hc) as []. lia. Qed.

Lemma total_le size cs : 0 <= size -> inside size cs -> spread cs -> total cs <= size.
Proof.
  intros H0 Hi Hs. pose proof (submseteq_length _ _ (NoDup_submseteq _ _ Hs (positions_inside size cs Hi))) as Hl.
  rewrite <- zlen_positions. rewrite length_seqZ in Hl. unfold zlen. lia.
Qed.

(** Chunks as long as the frame that do not overlap leave no hole. *)
Lemma covered size cs : 0 <= size -> inside size cs -> spread cs -> total cs = size ->
  forall i, 0 <= i < size -> exists c, c ∈ cs /\ c_start c <= i < c_end c.
Proof.
  intros H0 Hi Hs Ht i Hr. apply elem_of_all_positions.
  assert (Hp : cs ≫= positions ≡ₚ seqZ 0 size).
  { apply submseteq_length_Permutation; [by apply NoDup_submseteq, positions_inside|]. rewrite <- zlen_positions in Ht. rewrite length_seqZ. unfold zlen in Ht. lia. }
  rewrite Hp. apply elem_of_seqZ. lia.
Qed.

Lemma spread_snoc cs c : spread cs -> Forall (fun d => apart d c) cs -> spread (cs ++ [c]).
Proof.
  unfold spread. intros Hs Ha. rewrite bind_app. apply NoDup_app. split_and!; [done | |].
  - intros i (d & Hd & Hi)%elem_of_all_positions (c' & ->%list_elem_of_singleton & Hi')%elem_of_all_positions.
    pose proof (proj1 (Forall_forall _ _) Ha d Hd) as [|]; lia.
  - cbn. rewrite app_nil_r. apply NoDup_seqZ.
Qed.

Lemma inside_snoc size cs c : inside size (cs ++ [c]) <-> inside size cs /\ 0 <= c_start c /\ c_end c <= size.
Proof. unfold inside. by rewrite Forall_app, Forall_singleton. Qed.

Lemma inside_weaken size size' cs : size <= size' -> inside size cs -> inside size' cs.
Proof. intros H Hi. eapply Forall_impl; [exact Hi|]. intros c []. lia. Qed.

(** What is made of the chunks. *)
Record assembled (cs : list chunk) (d : list Z) : Prop := mk_assembled {
  as_data c : c ∈ cs -> mread d (c_start c) (c_len c) = c_data c;
  as_inside c : c ∈ cs -> 0 <= c_start c /\ c_end c <= zlen d;
  as_cover i : 0 <= i < zlen d -> exists c, c ∈ cs /\ c_start c <= i < c_end c;
  as_last : exists c, c ∈ cs /\ c_last c = true /\ c_end c = zlen d;
}.

(** The chunk is part of the frame [p]. *)
Record part (p : list Z) (c : chunk) : Prop := mk_part {
  pt_start : 0 <= c_start c;
  pt_end : c_end c <= zlen p;
  pt_data : mread p (c_start c) (c_len c) = c_data c;
  pt_last : c_last c = true -> c_end c = zlen p;
}.

(** Parts of one frame make that frame. *)
Lemma assembled_parts cs d p : assembled cs d -> Forall (part p) cs -> d = p.
Proof.
  intros [Hd Hi Hc (l & Hl & Hll & Hle)] Hp. rewrite Forall_forall in Hp.
  assert (El : zlen d = zlen p) by (rewrite <- Hle; by apply (pt_last p l (Hp l Hl))).
  apply list_eq. intros i. destruct (decide (i < length d)%nat) as [Hlt|].
  - destruct (Hc (Z.of_nat i)) as (c & Hcs & Hr); [unfold zlen; lia|]. pose proof (Hd c Hcs) as E1. pose proof (pt_data p c (Hp c Hcs)) as E2.
    pose proof (pt_start p c (Hp c Hcs)) as H0. unfold c_end in Hr.
    assert (E : forall m, m !! i = mread m (c_start c) (c_len c) !! (i - Z.to_nat (c_start c))%nat).
    { intros m. rewrite lookup_mread by lia. f_equal. lia. }
    by rewrite (E d), (E p), E1, E2.
  - rewrite !lookup_ge_None_2; [done | unfold zlen in El; lia | lia].
Qed.

(** ** Chunks in order *)

(** Where a sequence of chunks is: in the frame [pl_id], of which [pl_n] chunks with the
    data [pl_data] went by. *)
Record place := mk_place { pl_id : Z; pl_n : Z; pl_data : list Z }.

(** From [x] to [y] the chunks complete the frames [ps]; no frame has more than [N]. *)
Inductive flow (N : Z) : place -> list (list Z) -> list chunk -> place -> Prop :=
  | flow_nil x : flow N x [] [] x
  | flow_more id n pre d ps cs y : d <> [] -> n + 1 < N -> flow N (mk_place id (n + 1) (pre ++ d)) ps cs y ->
      flow N (mk_place id n pre) ps (mk_chunk id (zlen pre) false d :: cs) y
  | flow_last id n pre d ps cs y : n + 1 <= N -> flow N (mk_place (u16 (id + 1)) 0 []) ps cs y ->
      flow N (mk_place id n pre) ((pre ++ d) :: ps) (mk_chunk id (zlen pre) true d :: cs) y.

Section Flow.
Context (N : Z).

Lemma flow_app x ps cs y ps' cs' z : flow N x ps cs y -> flow N y ps' cs' z -> flow N x (ps ++ ps') (cs ++ cs') z.
Proof. induction 1; intros Hf; [done | by apply flow_more, IHflow | by apply (flow_last N), IHflow]. Qed.

Lemma flow_snoc_more x ps cs id n pre d : flow N x ps cs (mk_place id n pre) -> d <> [] -> n + 1 < N ->
  flow N x ps (cs ++ [mk_chunk id (zlen pre) false d]) (mk_place id (n + 1) (pre ++ d)).
Proof. intros Hf Hd Hn. rewrite <- (app_nil_r ps). eapply flow_app; [exact Hf|]. apply flow_more; [done | done | constructor]. Qed.

Lemma flow_snoc_last x ps cs id n pre d : flow N x ps cs (mk_place id n pre) -> n + 1 <= N ->
  flow N x (ps ++ [pre ++ d]) (cs ++ [mk_chunk id (zlen pre) true d]) (mk_place (u16 (id + 1)) 0 []).
Proof. intros Hf Hn. eapply flow_app; [exact Hf|]. apply flow_last; [done | constructor]. Qed.

Lemma flow_split x ps cs1 cs2 z : flow N x ps (cs1 ++ cs2) z ->
  exists ps1 ps2 y, ps = ps1 ++ ps2 /\ flow N x ps1 cs1 y /\ flow N y ps2 cs2 z.
Proof.
  revert x ps. induction cs1 as [|c cs1 IH]; intros x ps Hf; [exists [], ps, x; split; [done | split; [constructor | done]]|].
  inversion Hf as [|id n pre d ps' cs y Hd Hn Hf' E1 E2 E3|id n pre d ps' cs y Hn Hf' E1 E2 E3]; subst.
  - destruct (IH _ _ Hf') as (ps1 & ps2 & y & -> & H1 & H2). exists ps1, ps2, y. split; [done|]. split; [by apply flow_more | done].
  - destruct (IH _ _ Hf') as (ps1 & ps2 & y & -> & H1 & H2). exists ((pre ++ d) :: ps1), ps2, y. split; [done|]. split; [by apply flow_last | done].
Qed.

(** What went by is the front of the frame that is completed next. *)
Lemma flow_front x ps cs y : flow N x ps cs y ->
  match ps with p :: _ => pl_data x `prefix_of` p | [] => pl_id y = pl_id x /\ pl_data x `prefix_of` pl_data y end.
Proof.
  induction 1 as [x|id n pre d ps cs y Hd Hn _ IH|id n pre d ps cs y Hn _ IH]; cbn [pl_id pl_data] in *; [done | | by apply prefix_app_r].
  destruct ps as [|p ps]; [split; [apply IH|]; destruct IH as [_ IH]|]; etrans; [|exact IH | |exact IH]; by apply prefix_app_r.
Qed.

Lemma part_front p pre d id l : pre ++ d `prefix_of` p -> (l = true -> pre ++ d = p) -> part p (mk_chunk id (zlen pre) l d).
Proof.
  intros [k ->] Hl. pose proof (zlen_nonneg pre). pose proof (zlen_nonneg k). split; unfold c_end, c_len; cbn [c_start c_data c_last].
  - done.
  - rewrite !zlen_app. lia.
  - rewrite <- app_assoc. by apply mread_app_at.
  - intros <-%Hl. by rewrite zlen_app.
Qed.

(** The frame each chunk is part of. *)
Definition part_of (id : Z) (ps : list (list Z)) (y : place) (c : chunk) : Prop :=
  (exists j p, ps !! j = Some p /\ c_id c = u16 (id + Z.of_nat j) /\ part p c) \/
  (c_id c = pl_id y /\ c_last c = false /\ part (pl_data y) c).

Lemma flow_parts x ps cs y : 0 <= pl_id x < 65536 -> flow N x ps cs y -> Forall (part_of (pl_id x) ps y) cs.
Proof.
  intros Hi Hf. induction Hf as [x|id n pre d ps cs y Hd Hn Hf IH|id n pre d ps cs y Hn Hf IH]; cbn [pl_id] in *; constructor; [| by apply IH | |].
  - pose proof (flow_front _ _ _ _ Hf) as Hp. cbn [pl_data pl_id] in Hp. destruct ps as [|p ps].
    + right. destruct Hp as [E Hp]. split; [done|]. split; [done|]. by apply part_front.
    + left. exists 0%nat, p. split; [done|]. split; [cbn; by rewrite Z.add_0_r, u16_id | by apply part_front].
  - left. exists 0%nat, (pre ++ d). split; [done|]. split; [cbn; by rewrite Z.add_0_r, u16_id | by apply part_front].
  - eapply Forall_impl; [apply IH, u16_range|]. intros c [(j & p & Hj & E & Hp)|H]; [left | by right].
    exists (S j), p. split; [done|]. split; [|done]. rewrite E. unfold u16. rewrite Nat2Z.inj_succ, Z.add_mod_idemp_l by lia. f_equal. lia.
Qed.

Lemma flow_id x ps cs y : 0 <= pl_id x < 65536 -> flow N x ps cs y -> pl_id y = u16 (pl_id x + zlen ps).
Proof.
  intros Hi Hf. induction Hf as [x|id n pre d ps cs y Hd Hn Hf IH|id n pre d ps cs y Hn Hf IH]; cbn [pl_id] in *.
  - by rewrite zlen_nil, Z.add_0_r, u16_id.
  - by apply IH.
  - rewrite IH by apply u16_range. rewrite zlen_cons. unfold u16. rewrite Z.add_mod_idemp_l by lia. f_equal. lia.
Qed.
End Flow.
