(* ===== verification/FragmentProtoDisassembler.v ===== *)
(** * FragmentProtoDisassembler: cutting packets into chunks

    Model of [badvpn/client/FragmentProtoDisassembler.c].  Input packets come over a
    [PacketPassInterface], output packets are asked for over a [PacketRecvInterface];
    [timer] says whether the timer is running.  The block of an output packet is the
    receiver's; it is in [out_] while it is being filled. *)

From S2P Require Import Prelude ByteOrder BSize FragmentProto.
Open Scope mon_scope.

#[local] Arguments le_bytes : simpl never.
#[local] Arguments mread : simpl never.
#[local] Arguments mwrite : simpl never.
#[local] Arguments encode_all : simpl never.

Module Disassembler.

Record sys := mk_sys {
  input_mtu : Z;
  output_mtu : Z;
  chunk_mtu : Z;
  latency : Z;
  timer : bool;
  in_len : Z;
  in_ : list Z;
  in_used : Z;
  out_ : option (list Z);
  out_used : Z;
  frame_id : Z;
}.

Inductive out :=
  | Input_Done                      (** [PacketPassInterface_Done(&o->input)] *)
  | Output_Done (data : list Z)     (** [PacketRecvInterface_Done(&o->output, o->out_used)], with what is in the block *)
  | Set_Timer (ms : Z).

Abbreviation H := (M sys out).

Definition set_timer (b : bool) (s : sys) : sys :=
  mk_sys (input_mtu s) (output_mtu s) (chunk_mtu s) (latency s) b (in_len s) (in_ s) (in_used s) (out_ s) (out_used s) (frame_id s).
Definition set_in (len : Z) (d : list Z) (used : Z) (s : sys) : sys :=
  mk_sys (input_mtu s) (output_mtu s) (chunk_mtu s) (latency s) (timer s) len d used (out_ s) (out_used s) (frame_id s).
Definition set_in_len (len : Z) (s : sys) : sys := set_in len (in_ s) (in_used s) s.
Definition set_in_used (n : Z) (s : sys) : sys := set_in (in_len s) (in_ s) n s.
Definition set_out (b : option (list Z)) (n : Z) (s : sys) : sys :=
  mk_sys (input_mtu s) (output_mtu s) (chunk_mtu s) (latency s) (timer s) (in_len s) (in_ s) (in_used s) b n (frame_id s).
Definition set_frame_id (n : Z) (s : sys) : sys :=
  mk_sys (input_mtu s) (output_mtu s) (chunk_mtu s) (latency s) (timer s) (in_len s) (in_ s) (in_used s) (out_ s) (out_used s) n.

Definition IN_AVAIL (s : sys) : Z := in_len s - in_used s.
Definition OUT_AVAIL (s : sys) : Z := output_mtu s - out_used s - sizeof_fragmentproto_chunk_header.

Definition has_out (s : sys) : bool := match out_ s with Some _ => true | None => false end.

(** [o->out], which is not [NULL]. *)
Definition the_out : H (list Z) := fun s => match out_ s with Some b => Ok b s [] | None => Fault F_bounds end.

Definition RemoveTimer : H unit := modify (set_timer false).
Definition SetTimer : H unit := s <- get ;; modify (set_timer true) ;; emit (Set_Timer (latency s)).

(** The body of the loop. *)
Definition write_chunk : H unit :=
  s <- get ;;
  let chunk_len := bmin_int (IN_AVAIL s) (OUT_AVAIL s) in
  let chunk_len := if chunk_mtu s >? 0 then bmin_int chunk_len (chunk_mtu s) else chunk_len in
  let header := mk_header (htol16 (frame_id s)) (htol16 (in_used s)) (htol16 chunk_len) (Z.b2z (chunk_len =? IN_AVAIL s)) in
  b <- the_out ;;
  b <- put b (out_used s) (header_bytes header) ;;
  d <- get_bytes (in_ s) (in_used s) chunk_len ;;
  b <- put b (out_used s + sizeof_fragmentproto_chunk_header) d ;;
  modify (set_in_used (in_used s + chunk_len)) ;;
  modify (set_out (Some b) (out_used s + (sizeof_fragmentproto_chunk_header + chunk_len))).

(** [do { ... } while (IN_AVAIL > 0 && OUT_AVAIL > 0)] *)
Fixpoint chunk_loop (fuel : nat) : H unit :=
  match fuel with
  | O => fail F_fuel
  | S fuel =>
      write_chunk ;;
      s <- get ;;
      if (IN_AVAIL s >? 0) && (OUT_AVAIL s >? 0) then chunk_loop fuel else ret tt
  end.

(** The end of the input packet. *)
Definition finish_input : H unit :=
  modify (set_in_len (-1)) ;;
  modify (fun s => set_frame_id (u16 (frame_id s + 1)) s) ;;
  emit Input_Done.

(** The end of the output packet; [stop]: the timer may be running. *)
Definition finish_output (stop : bool) : H unit :=
  s <- get ;;
  b <- the_out ;;
  d <- get_bytes b 0 (out_used s) ;;
  modify (set_out None (out_used s)) ;;
  (when stop do RemoveTimer) ;;
  emit (Output_Done d).

Definition write_chunks : H unit :=
  s <- get ;;
  assert (in_len s >=? 0) ;;
  assert (has_out s) ;;
  assert (OUT_AVAIL s >? 0) ;;
  chunk_loop (S (Z.to_nat (IN_AVAIL s))) ;;
  s <- get ;;
  (when IN_AVAIL s =? 0 do finish_input) ;;
  s <- get ;;
  if (OUT_AVAIL s <=? 0) || (latency s <? 0) then finish_output (latency s >=? 0)
  else when negb (timer s) do SetTimer.

Definition input_handler_send (data : list Z) : H unit :=
  s <- get ;;
  assert (zlen data >=? 0) ;;
  assert (in_len s =? -1) ;;
  modify (set_in (zlen data) data 0) ;;
  if negb (has_out s) then ret tt else write_chunks.

Definition input_handler_requestcancel : H unit :=
  s <- get ;;
  assert (in_len s >=? 0) ;;
  assert (negb (has_out s)) ;;
  modify (set_in_len (-1)) ;;
  emit Input_Done.

Definition output_handler_recv (data : list Z) : H unit :=
  s <- get ;;
  assert (negb (has_out s)) ;;
  modify (set_out (Some data) 0) ;;
  if in_len s <? 0 then ret tt else write_chunks.

Definition timer_handler : H unit :=
  s <- get ;;
  assert (latency s >=? 0) ;;
  assert (has_out s) ;;
  assert (in_len s =? -1) ;;
  finish_output false.

Definition FragmentProtoDisassembler_Init (in_mtu out_mtu c_mtu lat : Z) : H unit :=
  assert (in_mtu >=? 0) ;;
  assert (in_mtu <=? UINT16_MAX) ;;
  assert (out_mtu >? sizeof_fragmentproto_chunk_header) ;;
  assert ((c_mtu >? 0) || (c_mtu <? 0)) ;;
  modify (fun s => mk_sys in_mtu out_mtu c_mtu lat false (-1) (in_ s) (in_used s) None (out_used s) 0).

Definition FragmentProtoDisassembler_Free : H unit :=
  s <- get ;; when latency s >=? 0 do RemoveTimer.

(** ** Events *)

Inductive event :=
  | E_send (data : list Z)     (** the user sends a packet *)
  | E_cancel                   (** the user asks to have its packet back *)
  | E_recv (block : list Z)    (** a packet is asked for *)
  | E_timer.

Definition enabled (ev : event) (s : sys) : bool :=
  match ev with
  | E_send data => (in_len s =? -1) && (zlen data <=? input_mtu s) && bool_decide (bytes_ok data)
  | E_cancel => in_len s >=? 0
  | E_recv block => negb (has_out s) && (zlen block =? output_mtu s)
  | E_timer => timer s
  end.

Definition deliver (ev : event) : H unit :=
  match ev with
  | E_send data => input_handler_send data
  | E_cancel => input_handler_requestcancel
  | E_recv block => output_handler_recv block
  | E_timer => modify (set_timer false) ;; timer_handler
  end.

(** The state after the events, and each event with its outputs. *)
Fixpoint run_events (evs : list event) (s : sys) : option (sys * list (event * list out)) :=
  match evs with
  | [] => Some (s, [])
  | ev :: evs' =>
      if enabled ev s then
        match deliver ev s with
        | Ok _ s' tr => r ← run_events evs' s'; Some (r.1, (ev, tr) :: r.2)
        | Fault _ => None
        end
      else Some (s, [])
  end.

Definition run (in_mtu out_mtu c_mtu lat : Z) (evs : list event) (mem : sys) : option (sys * list (event * list out)) :=
  match FragmentProtoDisassembler_Init in_mtu out_mtu c_mtu lat mem with
  | Ok _ s _ => run_events evs s
  | Fault _ => None
  end.

Definition sent (ev : event) : list (list Z) := match ev with E_send data => [data] | _ => [] end.
Definition packet (o : out) : list (list Z) := match o with Output_Done d => [d] | _ => [] end.
Definition is_cancel (ev : event) : bool := match ev with E_cancel => true | _ => false end.

(** The packets that were put in, and those that came out. *)
Definition inputs (steps : list (event * list out)) : list (list Z) := steps ≫= fun st => sent st.1.
Definition packets (steps : list (event * list out)) : list (list Z) := steps ≫= fun st => st.2 ≫= packet.

(** ** The invariant *)

Lemma frame_place_max C L k : 0 < C -> 0 <= L -> k * C < L -> k < bdivide_up L C.
Proof. intros HC HL Hk. pose proof (bdivide_up_spec L C HL HC). nia. Qed.

Section Proofs.
(** No frame needs more than [N] chunks. *)
Context (N : Z) (in_mtu out_mtu c_mtu lat : Z).

Definition enough (s : sys) : Prop :=
  (chunk_mtu s < 0 /\ fragmentproto_max_chunks_for_frame (output_mtu s) (input_mtu s) <= N) \/ Z.max 1 (input_mtu s) <= N.

Record params_ok (s : sys) : Prop := mk_params {
  p_in : 0 <= input_mtu s <= 65535;
  p_out : 7 < output_mtu s;
  p_chunk : chunk_mtu s <> 0;
  p_id : 0 <= frame_id s < 65536;
  p_same : input_mtu s = in_mtu /\ output_mtu s = out_mtu /\ chunk_mtu s = c_mtu /\ latency s = lat;
}.

(** [cur]: the chunks in the output packet that is being filled. *)
Definition holds (s : sys) (b : list Z) (cur : list chunk) : Prop :=
  zlen b = output_mtu s /\ 0 <= out_used s <= output_mtu s /\ mread b 0 (out_used s) = encode_all cur /\ Forall chunk_ok cur.

(** [m] chunks of the frame were written, so this much of it at least. *)
Definition counted (s : sys) (m : Z) : Prop :=
  0 <= m <= in_used s /\ (chunk_mtu s < 0 -> m = 0 \/ (m - 1) * (output_mtu s - 7) + 1 <= in_used s).

Definition frame_ok (s : sys) : Prop :=
  in_len s = zlen (in_ s) /\ zlen (in_ s) <= input_mtu s /\ bytes_ok (in_ s) /\ 0 <= in_used s /\ (in_used s = 0 \/ in_used s < in_len s).

(** The place of the next chunk. *)
Definition at_ (s : sys) (m : Z) : place := mk_place (frame_id s) m (mread (in_ s) 0 (in_used s)).

(** [g]: no packet was taken back; then the chunks [W] are those of the frames [ps] and of
    the beginning of the next frame. *)
Definition flows (g : bool) (ps : list (list Z)) (W : list chunk) (x : place) : Prop :=
  g = true -> flow N (mk_place 0 0 []) ps W x.

Lemma bmin_int_min a b : bmin_int a b = Z.min a b.
Proof. unfold bmin_int. destruct (Z.ltb_spec a b); lia. Qed.

(** The length of the next chunk. *)
Definition next_len (s : sys) : Z :=
  let n := Z.min (IN_AVAIL s) (OUT_AVAIL s) in if chunk_mtu s >? 0 then Z.min n (chunk_mtu s) else n.
Definition next_chunk (s : sys) : chunk :=
  mk_chunk (frame_id s) (in_used s) (next_len s =? IN_AVAIL s) (mread (in_ s) (in_used s) (next_len s)).

Lemma next_len_range s : params_ok s -> frame_ok s -> 0 < OUT_AVAIL s ->
  0 <= next_len s <= IN_AVAIL s /\ next_len s <= OUT_AVAIL s /\ (0 < IN_AVAIL s -> 0 < next_len s) /\
  (chunk_mtu s < 0 -> next_len s = Z.min (IN_AVAIL s) (OUT_AVAIL s)).
Proof.
  intros [_ _ Hc _ _] (E & _ & _ & H0 & Hu) Ho. pose proof (zlen_nonneg (in_ s)). unfold next_len, IN_AVAIL in *.
  destruct (Z.gtb_spec (chunk_mtu s) 0); lia.
Qed.

Lemma next_chunk_ok s : params_ok s -> frame_ok s -> 0 < OUT_AVAIL s -> chunk_ok (next_chunk s) /\ c_len (next_chunk s) = next_len s.
Proof.
  intros P F Ho. pose proof (next_len_range s P F Ho) as (Hn & _). destruct P as [P1 P2 P3 P4 P5], F as (E & Hl & Hb & H0 & Hu). unfold IN_AVAIL in Hn.
  assert (El : c_len (next_chunk s) = next_len s) by (unfold c_len, next_chunk; cbn [c_data]; apply zlen_mread; lia).
  split; [|done]. split; [done | cbn; lia | rewrite El; lia | by apply mread_bytes_ok].
Qed.

Lemma write_chunk_wp s b cur (Q : unit -> sys -> list out -> Prop) :
  params_ok s -> frame_ok s -> out_ s = Some b -> holds s b cur -> 0 < OUT_AVAIL s ->
  (forall b' s', s' = set_out (Some b') (out_used s + (7 + next_len s)) (set_in_used (in_used s + next_len s) s) ->
    holds s' b' (cur ++ [next_chunk s]) -> Q tt s' []) ->
  wp write_chunk s Q.
Proof.
  intros P F Eb (Hb & Hu & Hr & Hc) Ho HQ. pose proof (next_len_range s P F Ho) as (Hn & Hno & _). pose proof (next_chunk_ok s P F Ho) as [Hok Hlen].
  destruct F as (E & Hl & Hby & H0 & Hui). unfold OUT_AVAIL, IN_AVAIL, sizeof_fragmentproto_chunk_header in *.
  unfold write_chunk. do 2 wp_step. rewrite !bmin_int_min. change (if chunk_mtu s >? 0 then _ else _) with (next_len s).
  wp_step. unfold wp at 1, the_out. rewrite Eb. wp_step. apply wp_put; [lia | rewrite zlen_chunk_header; lia|]. intros b1 Hz1 Hr1. rewrite zlen_chunk_header, Hr in Hr1.
  wp_step. apply wp_get_bytes; [lia|]. wp_step. apply wp_put; [unfold sizeof_fragmentproto_chunk_header; lia | rewrite zlen_mread by lia; unfold sizeof_fragmentproto_chunk_header; lia|].
  intros b2 Hz2 Hr2. do 3 wp_step. rewrite zlen_mread in Hr2 by lia. unfold sizeof_fragmentproto_chunk_header in *.
  eapply HQ; [done|]. unfold holds. cbn. split_and!; [lia | lia | lia | | by apply Forall_app, conj, Forall_singleton].
  rewrite Z.add_assoc, Hr2, Hr1, encode_chunks_app, encode_chunks_one. unfold encode_chunk, header_of. rewrite Hlen. by rewrite app_assoc.
Qed.

(** The chunk continues or ends the frame, and there are not too many. *)
Lemma next_flow g ps W s m (s' := set_in_used (in_used s + next_len s) s) :
  params_ok s -> frame_ok s -> 0 < OUT_AVAIL s -> enough s -> counted s m ->
  in_used s = 0 \/ out_used s = 0 \/ 0 < chunk_mtu s -> flows g ps W (at_ s m) ->
  if next_len s =? IN_AVAIL s then flows g (ps ++ [in_ s]) (W ++ [next_chunk s]) (mk_place (u16 (frame_id s + 1)) 0 [])
  else flows g ps (W ++ [next_chunk s]) (at_ s' (m + 1)) /\ counted s' (m + 1) /\ 0 < next_len s < IN_AVAIL s.
Proof.
  intros P F Ho HN [Hm Hc] Hfirst Hf. pose proof (next_len_range s P F Ho) as (Hn & Hno & Hpos & Hmin).
  destruct P as [P1 P2 P3 P4 P5], F as (E & Hl & Hby & H0 & Hui). unfold OUT_AVAIL, IN_AVAIL, sizeof_fragmentproto_chunk_header in *.
  assert (Hlen : zlen (mread (in_ s) 0 (in_used s)) = in_used s) by (apply zlen_mread; lia).
  assert (Hmax : forall k, k * (output_mtu s - 7) < input_mtu s -> chunk_mtu s < 0 -> k + 1 < N \/ Z.max 1 (input_mtu s) <= N).
  { intros k Hk Hneg. destruct HN as [[_ HN]|HN]; [left | by right]. unfold fragmentproto_max_chunks_for_frame, sizeof_fragmentproto_chunk_header in HN.
    pose proof (frame_place_max (output_mtu s - 7) (input_mtu s) k ltac:(lia) ltac:(lia) Hk). lia. }
  assert (Hjoin : mread (in_ s) 0 (in_used s) ++ mread (in_ s) (in_used s) (next_len s) = mread (in_ s) 0 (in_used s + next_len s)) by (apply mread_join; lia).
  destruct (Z.eqb_spec (next_len s) (in_len s - in_used s)) as [El|El].
  - intros Hg. assert (Hnext : next_chunk s = mk_chunk (frame_id s) (zlen (mread (in_ s) 0 (in_used s))) true (mread (in_ s) (in_used s) (next_len s))).
    { unfold next_chunk, IN_AVAIL. by rewrite Hlen, (proj2 (Z.eqb_eq _ _) El). }
    assert (Hin : in_ s = mread (in_ s) 0 (in_used s) ++ mread (in_ s) (in_used s) (next_len s)).
    { rewrite Hjoin, El, E. replace (in_used s + (zlen (in_ s) - in_used s)) with (zlen (in_ s)) by lia. by rewrite mread_all. }
    rewrite Hnext. rewrite Hin at 1. apply (flow_snoc_last N _ _ _ (frame_id s) m); [by apply Hf|].
    destruct (Z_lt_dec (chunk_mtu s) 0) as [Hneg|]; [|destruct HN as [[]|]; lia].
    destruct (Hc Hneg) as [->|Hk]; [destruct HN as [[_ HN]|]; [|lia]|].
    + unfold fragmentproto_max_chunks_for_frame in HN. pose proof (frame_place_max (output_mtu s - 7) (input_mtu s)) as Hb.
      unfold bdivide_up, sizeof_fragmentproto_chunk_header in *. pose proof (Z.div_pos (input_mtu s) (output_mtu s - 7) ltac:(lia) ltac:(lia)). destruct (Z.gtb_spec (input_mtu s mod (output_mtu s - 7)) 0); lia.
    + destruct (Hmax (m - 1) ltac:(lia) Hneg); lia.
  - assert (Hd : mread (in_ s) (in_used s) (next_len s) <> []).
    { intros Ed%(f_equal zlen). rewrite zlen_mread, zlen_nil in Ed by lia. lia. }
    assert (Hc' : chunk_mtu s < 0 -> m * (output_mtu s - 7) + 1 <= in_used s + next_len s).
    { intros Hneg. specialize (Hmin Hneg). destruct (Z.eq_dec m 0) as [->|Hm0]; [lia|]. destruct (Hc Hneg) as [|Hk]; [done|].
      assert (next_len s = output_mtu s - 7) by lia. nia. }
    split_and!; [| | lia..].
    + intros Hg. assert (Hnext : next_chunk s = mk_chunk (frame_id s) (zlen (mread (in_ s) 0 (in_used s))) false (mread (in_ s) (in_used s) (next_len s))).
      { unfold next_chunk, IN_AVAIL. by rewrite Hlen, (proj2 (Z.eqb_neq _ _) El). }
      rewrite Hnext. unfold at_. cbn [frame_id in_ in_used set_in_used set_in s']. rewrite <- Hjoin. apply flow_snoc_more; [by apply Hf | done|].
      destruct (Z_lt_dec (chunk_mtu s) 0) as [Hneg|]; [|destruct HN as [[]|]; lia].
      destruct (Hmax m ltac:(specialize (Hc' Hneg); lia) Hneg); lia.
    + split; cbn; [lia|]. intros Hneg. right. specialize (Hc' Hneg). lia.
Qed.
Record mid (g : bool) (ps : list (list Z)) (pre cur : list chunk) (m : Z) (b : list Z) (s : sys) : Prop := mk_mid {
  m_params : params_ok s;
  m_frame : frame_ok s;
  m_out : out_ s = Some b;
  m_holds : holds s b cur;
  m_enough : enough s;
  m_counted : counted s m;
  m_flow : flows g ps (pre ++ cur) (at_ s m);
  m_first : in_used s = 0 \/ out_used s = 0 \/ 0 < chunk_mtu s;
}.

(** What the loop leaves: the frame is finished, or the output packet is full. *)
Definition written (g : bool) (ps : list (list Z)) (pre : list chunk) (s s' : sys) : Prop :=
  exists b n u cur, s' = set_out (Some b) u (set_in_used n s) /\ holds s' b cur /\ cur <> [] /\
    ((n = in_len s /\ flows g (ps ++ [in_ s]) (pre ++ cur) (mk_place (u16 (frame_id s + 1)) 0 [])) \/
     (0 < n < in_len s /\ OUT_AVAIL s' <= 0 /\ exists m, counted s' m /\ flows g ps (pre ++ cur) (at_ s' m))).

Lemma chunk_loop_wp fuel : forall g ps pre cur m b s (Q : unit -> sys -> list out -> Prop),
  mid g ps pre cur m b s -> 0 < OUT_AVAIL s -> (Z.to_nat (IN_AVAIL s) < fuel)%nat ->
  (forall s', written g ps pre s s' -> Q tt s' []) -> wp (chunk_loop fuel) s Q.
Proof.
  induction fuel as [|fuel IH]; intros g ps pre cur m b s Q [P F Eb Hh HN Hm Hf H1] Ho Hfuel HQ; [lia|].
  cbn [chunk_loop]. wp_step. eapply write_chunk_wp; [done.. |]. intros b' s' Es Hh'. do 2 wp_step.
  pose proof (next_len_range s P F Ho) as (Hn & Hno & Hpos & Hmin). pose proof (next_flow g ps (pre ++ cur) s m P F Ho HN Hm H1 Hf) as Hnext.
  rewrite <- app_assoc in Hnext. pose proof F as (E & Hl & Hby & H0 & Hui).
  assert (EI : IN_AVAIL s' = IN_AVAIL s - next_len s) by (rewrite Es; unfold IN_AVAIL; cbn; lia). rewrite EI.
  destruct (Z.eqb_spec (next_len s) (IN_AVAIL s)) as [El|El].
  - destruct (Z.gtb_spec (IN_AVAIL s - next_len s) 0); [lia|]. cbn [andb]. unfold IN_AVAIL in El.
    wp_step. apply HQ. exists b', (in_used s + next_len s), (out_used s + (7 + next_len s)), (cur ++ [next_chunk s]). split; [done|]. split; [done|].
    split; [by destruct cur|]. left. split; [lia | done].
  - destruct Hnext as (Hf' & Hm' & Hlt). destruct (Z.gtb_spec (IN_AVAIL s - next_len s) 0); [|lia]. cbn [andb].
    clear EI. unfold IN_AVAIL in Hn, Hlt, Hmin, Hfuel. destruct (Z.gtb_spec (OUT_AVAIL s') 0) as [Ho'|Ho'].
    + eapply (IH g ps pre (cur ++ [next_chunk s]) (m + 1) b' s'); [|lia | rewrite Es; unfold IN_AVAIL; cbn; lia |].
      * rewrite Es in *. split; try done; [by destruct P | split_and!; cbn; try done; lia |]. right. right. cbn.
        destruct P as [_ _ P3 _ _]. destruct (Z_lt_dec (chunk_mtu s) 0) as [Hneg|]; [|lia]. specialize (Hmin Hneg).
        unfold OUT_AVAIL, sizeof_fragmentproto_chunk_header in *. cbn in Ho'. lia.
      * intros s2 (b2 & n & u & cur2 & E2 & H2). apply HQ. exists b2, n, u, cur2. rewrite Es in *. done.
    + wp_step. apply HQ. exists b', (in_used s + next_len s), (out_used s + (7 + next_len s)), (cur ++ [next_chunk s]). split; [done|]. split; [done|].
      split; [by destruct cur|]. right. split; [lia|]. split; [lia|]. exists (m + 1). rewrite Es. done.
Qed.
(** ** Between events *)

Definition pending (s : sys) : list (list Z) := if in_len s =? -1 then [] else [in_ s].
Definition here (s : sys) (m : Z) : place := if in_len s =? -1 then mk_place (frame_id s) 0 [] else at_ s m.

(** The chunks of an output packet. *)
Definition packet_ok (mtu : Z) (q : list chunk) : Prop := q <> [] /\ Forall chunk_ok q /\ zlen (encode_all q) <= mtu.

(** [qs]: the chunks of the packets that came out; [cur]: those waiting in the block, for
    which the timer is running. *)
Record inv (g : bool) (ps : list (list Z)) (qs : list (list chunk)) (cur : list chunk) (m : Z) (s : sys) : Prop := mk_inv {
  i_params : params_ok s;
  i_enough : enough s;
  i_in : in_len s = -1 \/ (frame_ok s /\ out_ s = None /\ counted s m);
  i_out : match out_ s with None => cur = [] | Some b => holds s b cur /\ 0 < OUT_AVAIL s end;
  i_timer : timer s = bool_decide (cur <> []);
  i_latency : cur <> [] -> 0 <= latency s;
  i_qs : Forall (packet_ok (output_mtu s)) qs;
  i_flow : flows g ps (concat qs ++ cur) (here s m);
}.

Definition moved (g : bool) (ps : list (list Z)) (qs : list (list chunk)) (all : list (list Z)) (s' : sys) (tr : list out) : Prop :=
  exists ps' cs cur m, inv g ps' (qs ++ cs) cur m s' /\ tr ≫= packet = encode_all <$> cs /\ ps' ++ pending s' = all.

(** Sending the block. *)
Lemma finish_output_wp g ps qs cur m b stop all s (Q : unit -> sys -> list out -> Prop) :
  params_ok s -> enough s -> in_len s = -1 \/ (frame_ok s /\ counted s m) -> out_ s = Some b -> holds s b cur -> cur <> [] ->
  (stop = false -> timer s = false) -> Forall (packet_ok (output_mtu s)) qs -> flows g ps (concat qs ++ cur) (here s m) ->
  ps ++ pending s = all -> (forall s' tr, moved g ps qs all s' tr -> Q tt s' tr) -> wp (finish_output stop) s Q.
Proof.
  intros P HN Hin Eb (Hb & Hu & Hr & Hc) Hcur Ht Hqs Hf Hall HQ. unfold finish_output. do 2 wp_step. wp_step. unfold wp at 1, the_out. rewrite Eb.
  wp_step. apply wp_get_bytes; [lia|]. do 2 wp_step. wp_step.
  assert (Hmoved : forall t, t = false -> moved g ps qs all (set_timer t (set_out None (out_used s) s)) [Output_Done (mread b 0 (out_used s))]).
  { intros t ->. exists ps, [cur], [], m. split_and!; [|cbn; by rewrite Hr | done]. split; cbn; try done.
    - by destruct P.
    - destruct Hin as [|[F C]]; [by left | right; by split_and!].
    - apply Forall_app, conj, Forall_singleton; [done|]. split_and!; [done..|]. rewrite <- Hr, zlen_mread by lia. lia.
    - rewrite concat_app. cbn. rewrite !app_nil_r. exact Hf. }
  destruct stop; cbn iota.
  - unfold RemoveTimer. do 2 wp_step. apply HQ. by apply Hmoved.
  - do 2 wp_step. apply HQ. specialize (Hmoved _ (Ht eq_refl)). by destruct s.
Qed.

Lemma write_chunks_wp g ps qs cur m b s (Q : unit -> sys -> list out -> Prop) :
  mid g ps (concat qs) cur m b s -> 0 < OUT_AVAIL s -> timer s = bool_decide (cur <> []) -> (cur <> [] -> 0 <= latency s) ->
  Forall (packet_ok (output_mtu s)) qs -> (forall s' tr, moved g ps qs (ps ++ [in_ s]) s' tr -> Q tt s' tr) -> wp write_chunks s Q.
Proof.
  intros Md Ho Ht Hl Hqs HQ. pose proof Md as [P F Eb Hh HN Hm Hf H1]. pose proof F as (E & _ & _ & H0 & _). pose proof (zlen_nonneg (in_ s)).
  unfold write_chunks. do 4 wp_step; [lia|]. do 2 wp_step; [unfold has_out; by rewrite Eb|]. do 2 wp_step; [lia|]. wp_step.
  eapply chunk_loop_wp; [exact Md | exact Ho | lia|]. intros s1 (b1 & n & u & cur1 & -> & Hh1 & Hne & Hend). do 2 wp_step. wp_step.
  unfold IN_AVAIL at 1. cbn [in_len in_used set_out set_in_used set_in].
  assert (Hstop : forall x, latency x = latency s -> timer x = timer s -> latency x >=? 0 = false -> timer x = false).
  { intros x El Et Hx. rewrite Et, Ht. apply bool_decide_eq_false. intros Hc%Hl. lia. }
  destruct Hend as [[-> Hf1]|(Hn & Ho1 & m1 & Hm1 & Hf1)].
  - destruct (Z.eqb_spec (in_len s - in_len s) 0); [|lia]. unfold finish_input. do 5 wp_step. do 2 wp_step.
    match goal with |- wp (if ?c then _ else _) _ _ => destruct c eqn:Ec end.
    + eapply (finish_output_wp g (ps ++ [in_ s]) qs cur1 0); [| exact HN | by left | done | exact Hh1 | exact Hne | | exact Hqs | exact Hf1 | by rewrite app_nil_r |].
      * destruct P as [P1 P2 P3 P4 P5]. split; cbn; try done. apply u16_range.
      * by apply Hstop.
      * intros s' tr Hmv. apply HQ. destruct Hmv as (ps' & cs & cur' & m' & Hmv). exists ps', cs, cur', m'. done.
    + apply orb_false_iff in Ec as [Ec1 Ec2]. cbn [latency set_frame_id set_in_len set_out set_in_used set_in] in Ec2.
      assert (Hdone : forall t, t = true -> forall tr, tr ≫= packet = [] -> moved g ps qs (ps ++ [in_ s])
        (set_timer t (set_frame_id (u16 (frame_id s + 1)) (set_in_len (-1) (set_out (Some b1) u (set_in_used (in_len s) s))))) tr).
      { intros t -> tr Htr. exists (ps ++ [in_ s]), [], cur1, 0. split_and!; [|done | cbn; by rewrite app_nil_r]. split; cbn; try done.
        - destruct P as [P1 P2 P3 P4 P5]. split; cbn; try done. apply u16_range.
        - by left.
        - split; [exact Hh1|]. apply Z.leb_gt in Ec1. exact Ec1.
        - symmetry. by apply bool_decide_eq_true.
        - lia.
        - by rewrite app_nil_r.
        - by rewrite app_nil_r. }
      destruct (timer _) eqn:Et; cbn [negb] in *.
      * wp_step. apply HQ. specialize (Hdone (timer s) Et [Input_Done] eq_refl). destruct s; exact Hdone.
      * unfold SetTimer. do 5 wp_step. apply HQ. by apply Hdone.
  - destruct (Z.eqb_spec (in_len s - n) 0); [lia|]. do 3 wp_step. rewrite (proj2 (Z.leb_le _ 0) Ho1). cbn [orb].
    eapply (finish_output_wp g ps qs cur1 m1); [by destruct P | exact HN | right; split; [|exact Hm1] | done | exact Hh1 | exact Hne | by apply Hstop | exact Hqs | | | ].
    + destruct F as (F1 & F2 & F3 & F4 & F5). split_and!; cbn; try done; [lia | right; lia].
    + unfold here. cbn. destruct (Z.eqb_spec (in_len s) (-1)); [lia | exact Hf1].
    + unfold pending. cbn. by destruct (Z.eqb_spec (in_len s) (-1)); [lia|].
    + intros s' tr Hmv. apply HQ. destruct Hmv as (ps' & cs & cur' & m' & Hmv). exists ps', cs, cur', m'. done.
Qed.
(** The packets that are known after an event, the one in work last. *)
Definition all_of (ev : event) (ps : list (list Z)) (s : sys) : list (list Z) :=
  match ev with E_cancel => ps | _ => ps ++ pending s ++ sent ev end.

Lemma flows_none ps W x : flows false ps W x.
Proof. done. Qed.

Lemma disassembler_send_wp g ps qs cur m s data (Q : unit -> sys -> list out -> Prop) :
  inv g ps qs cur m s -> enabled (E_send data) s = true ->
  (forall s' tr, moved g ps qs (ps ++ [data]) s' tr -> Q tt s' tr) -> wp (input_handler_send data) s Q.
Proof.
  intros [P HN Hin Hout Ht Hl Hqs Hf] He HQ. cbn in He. rewrite !andb_true_iff in He. destruct He as [[Hi%Z.eqb_eq Hd%Z.leb_le] Hb%bool_decide_eq_true].
  pose proof (zlen_nonneg data). unfold here in Hf. rewrite Hi in Hf. cbn in Hf.
  assert (F : frame_ok (set_in (zlen data) data 0 s)) by (split_and!; cbn; try done; by left).
  assert (P' : params_ok (set_in (zlen data) data 0 s)) by (by destruct P).
  unfold input_handler_send. do 4 wp_step; [lia|]. do 2 wp_step; [by rewrite Hi|]. do 2 wp_step. unfold has_out. cbn [out_ set_in].
  destruct (out_ s) as [b|] eqn:Eb; cbn [negb].
  - destruct Hout as [Hh Ho]. eapply (write_chunks_wp g ps qs cur 0 b); [|exact Ho | exact Ht | exact Hl | exact Hqs | exact HQ].
    split; [done | done | done | exact Hh | exact HN | split; cbn; [lia | by left] | exact Hf | by left].
  - wp_step. apply HQ. exists ps, [], cur, 0. split_and!; [|done | unfold pending; cbn; by destruct (Z.eqb_spec (zlen data) (-1)); [lia|]].
    split; try done; cbn [out_ set_in]; rewrite ?app_nil_r, ?Eb; try done.
    + right. split_and!; [done | done | split; cbn; [lia | by left]].
    + unfold here. cbn. destruct (Z.eqb_spec (zlen data) (-1)); [lia | exact Hf].
Qed.

Lemma disassembler_recv_wp g ps qs cur m s block (Q : unit -> sys -> list out -> Prop) :
  inv g ps qs cur m s -> enabled (E_recv block) s = true ->
  (forall s' tr, moved g ps qs (ps ++ pending s) s' tr -> Q tt s' tr) -> wp (output_handler_recv block) s Q.
Proof.
  intros [P HN Hin Hout Ht Hl Hqs Hf] He HQ. cbn in He. rewrite !andb_true_iff in He. destruct He as [Ho%negb_true_iff Hb%Z.eqb_eq].
  unfold has_out in Ho. destruct (out_ s) eqn:Eo; [done|]. subst cur.
  assert (P' : params_ok (set_out (Some block) 0 s)) by (by destruct P). pose proof P as [_ P2 _ _ _].
  assert (Hh : holds (set_out (Some block) 0 s) block []) by (split_and!; cbn; try done; lia).
  assert (Ho' : 0 < OUT_AVAIL (set_out (Some block) 0 s)) by (unfold OUT_AVAIL, sizeof_fragmentproto_chunk_header; cbn; lia).
  unfold output_handler_recv. do 4 wp_step; [unfold has_out; by rewrite Eo|]. do 2 wp_step. destruct (Z.ltb_spec (in_len s) 0) as [Hlt|Hge].
  - wp_step. apply HQ. exists ps, [], [], m. split_and!; [|done | done]. split; try done; cbn [out_ set_out]; rewrite ?app_nil_r in *; try done.
    destruct Hin as [|(F & _)]; [by left|]. destruct F as (F1 & _). pose proof (zlen_nonneg (in_ s)). lia.
  - destruct Hin as [|(F & _ & Hm)]; [lia|]. assert (Ei : in_len s =? -1 = false) by lia. unfold here in Hf. unfold pending in HQ. rewrite Ei in Hf, HQ.
    eapply (write_chunks_wp g ps qs [] m block); [|exact Ho' | exact Ht | done | exact Hqs | exact HQ].
    split; [done | exact F | done | exact Hh | exact HN | exact Hm | exact Hf | by right; left].
Qed.

Lemma disassembler_deliver_wp g ps qs cur m s ev : inv g ps qs cur m s -> enabled ev s = true ->
  wp (deliver ev) s (fun _ s' tr => moved (g && negb (is_cancel ev)) ps qs (all_of ev ps s) s' tr).
Proof.
  intros I He. pose proof I as [P HN Hin Hout Ht Hl Hqs Hf]. destruct ev as [data| |block|]; cbn [deliver is_cancel negb all_of sent]; rewrite ?andb_true_r, ?andb_false_r, ?app_nil_r.
  - assert (Ei : in_len s =? -1 = true) by (cbn in He; rewrite !andb_true_iff in He; tauto). unfold pending. rewrite Ei. by eapply disassembler_send_wp.
  - cbn in He. destruct Hin as [|(F & Eo & Hm)]; [lia|]. unfold input_handler_requestcancel, has_out. rewrite Eo in Hout. subst cur.
    do 4 wp_step; [done|]. do 2 wp_step; [by rewrite Eo|]. do 3 wp_step. exists ps, [], [], 0. split_and!; [|done | cbn; by rewrite app_nil_r].
    split; try done; cbn; rewrite ?app_nil_r, ?Eo; try done; first [by left | by destruct P].
  - by eapply disassembler_recv_wp.
  - cbn in He. rewrite Ht in He. apply bool_decide_eq_true in He. destruct (out_ s) as [b|] eqn:Eb; [|done]. destruct Hout as [Hh Ho].
    destruct Hin as [Hi|(_ & E & _)]; [|congruence]. do 2 wp_step. unfold timer_handler. do 4 wp_step; [cbn; specialize (Hl He); lia|].
    do 2 wp_step; [unfold has_out; cbn; by rewrite Eb|]. do 2 wp_step; [cbn; lia|].
    eapply (finish_output_wp g ps qs cur m b); [by destruct P | exact HN | by left | exact Eb | exact Hh | exact He | done | exact Hqs | exact Hf | done |].
    intros s' tr Hmv. exact Hmv.
Qed.

Definition no_cancel (evs : list event) : Prop := Forall (fun ev => is_cancel ev = false) evs.

Lemma disassembler_run_inv evs : forall g ps qs cur m s, inv g ps qs cur m s ->
  exists s' steps g' ps' cs cur' m', run_events evs s = Some (s', steps) /\ inv g' ps' (qs ++ cs) cur' m' s' /\
    packets steps = encode_all <$> cs /\ Forall (fun d => zlen d <= in_mtu) (inputs steps) /\ (no_cancel evs -> g' = g /\ ps' ++ pending s' = ps ++ pending s ++ inputs steps).
Proof.
  induction evs as [|ev evs IH]; intros g ps qs cur m s I; cbn [run_events].
  { exists s, [], g, ps, [], cur, m. rewrite !app_nil_r. done. }
  destruct (enabled ev s) eqn:He; [|exists s, [], g, ps, [], cur, m; rewrite !app_nil_r; done].
  destruct (wp_ok _ _ _ (disassembler_deliver_wp g ps qs cur m s ev I He)) as (u & s1 & tr & -> & ps1 & cs1 & cur1 & m1 & I1 & Ep1 & Ea1).
  destruct (IH _ _ _ _ _ _ I1) as (s' & steps & g' & ps' & cs & cur' & m' & -> & I' & Ep & Esm & Ea). cbn.
  exists s', ((ev, tr) :: steps), g', ps', (cs1 ++ cs), cur', m'. split_and!; [done | by rewrite app_assoc | | |].
  - unfold packets in *. rewrite bind_cons, Ep, fmap_app. cbn. by rewrite Ep1.
  - unfold inputs in *. rewrite bind_cons. apply Forall_app. split; [|done]. destruct ev as [data| | |]; cbn; try constructor; [|constructor].
    destruct (p_same _ (i_params _ _ _ _ _ _ I)) as (E & _). cbn in He. rewrite !andb_true_iff in He. destruct He as [[_ He%Z.leb_le] _]. lia.
  - intros [Hc Hn]%Forall_cons. destruct (Ea Hn) as [-> Ea']. rewrite Hc, andb_true_r. split; [done|].
    unfold inputs in *. rewrite bind_cons, Ea'. rewrite (app_assoc ps1), Ea1. destruct ev; cbn; rewrite <- ?app_assoc; done.
Qed.
End Proofs.

(** What [Init] starts from. *)
Lemma disassembler_init_wp N in_mtu out_mtu c_mtu lat mem (Q : unit -> sys -> list out -> Prop) :
  0 <= in_mtu <= UINT16_MAX -> sizeof_fragmentproto_chunk_header < out_mtu -> c_mtu <> 0 ->
  (c_mtu < 0 /\ fragmentproto_max_chunks_for_frame out_mtu in_mtu <= N) \/ Z.max 1 in_mtu <= N ->
  (forall s, inv N in_mtu out_mtu c_mtu lat true [] [] [] 0 s -> pending s = [] -> Q tt s []) ->
  wp (FragmentProtoDisassembler_Init in_mtu out_mtu c_mtu lat) mem Q.
Proof.
  intros Hi Ho Hc HN HQ. unfold FragmentProtoDisassembler_Init. unfold UINT16_MAX, sizeof_fragmentproto_chunk_header in *.
  do 2 wp_step; [lia|]. do 2 wp_step; [unfold UINT16_MAX; lia|]. do 2 wp_step; [lia|]. do 2 wp_step; [lia|]. wp_step. apply HQ; [|done].
  split; cbn; try done; [by left | intros _; constructor].
Qed.
End Disassembler.
