(* ===== verification/FragmentProtoAssembler.v ===== *)
(** * FragmentProtoAssembler: making packets of chunks

    Model of [badvpn/client/FragmentProtoAssembler.c].  A frame entry is a number of
    [frames]; the entries are in one of the lists [frames_free] and [frames_used], those
    in use also in a search tree by id, any [SearchTree].  The chunks of an entry are a
    list, whose length is [num_chunks] of the entry.

    [Spec] is what the assembler promises: a list of partial frames, each with the chunks
    it was given. *)

From S2P Require Import Prelude ByteOrder BAddr SearchTree FragmentProto.
Open Scope mon_scope.

#[local] Arguments le_bytes : simpl never.
#[local] Arguments mread : simpl never.
#[local] Arguments mwrite : simpl never.

Module Assembler.

Definition FPA_MAX_TIME : Z := 4294967295.

(** Frame ids, and their comparison in the tree. *)
Definition id_ok (id : Z) : Prop := 0 <= id < 65536.
Definition compare_ids (id1 id2 : Z) : Z := B_COMPARE id1 id2.

Record frame := mk_frame {
  chunks : list (Z * Z);
  buffer : list Z;
  id : Z;
  f_time : Z;
  sum : Z;
  length_ : Z;
  length_so_far : Z;
}.

#[export] Instance frame_inhabited : Inhabited frame := populate (mk_frame [] [] 0 0 0 0 0).

Definition num_chunks_of (x : frame) : Z := zlen (chunks x).

(** [allocate_new_frame]: the entry for a new frame. *)
Definition reset_frame (i t : Z) (x : frame) : frame := mk_frame [] (buffer x) i t 0 (-1) 0.
Definition set_f_time (t : Z) (x : frame) : frame := mk_frame (chunks x) (buffer x) (id x) t (sum x) (length_ x) (length_so_far x).
Definition set_chunks (c : list (Z * Z)) (n : Z) (x : frame) : frame := mk_frame c (buffer x) (id x) (f_time x) n (length_ x) (length_so_far x).
Definition set_length (n : Z) (x : frame) : frame := mk_frame (chunks x) (buffer x) (id x) (f_time x) (sum x) n (length_so_far x).
Definition set_so_far (n : Z) (x : frame) : frame := mk_frame (chunks x) (buffer x) (id x) (f_time x) (sum x) (length_ x) n.
Definition set_buffer (b : list Z) (x : frame) : frame := mk_frame (chunks x) b (id x) (f_time x) (sum x) (length_ x) (length_so_far x).

(** ** Events *)

Inductive event :=
  | E_send (data : list Z)     (** a packet comes in *)
  | E_done.                    (** the output has taken the frame *)

(** ** What the assembler promises *)

Record aframe := mk_aframe { a_id : Z; a_time : Z; a_chunks : list chunk }.

(** [s_rest]: the chunks of the packet that are left when the output has taken a frame. *)
Record spec := mk_spec { s_time : Z; s_frames : list aframe; s_rest : option (list chunk) }.

(** The length of the frame, -1 if the last chunk is not there yet. *)
Fixpoint frame_length (cs : list chunk) : Z :=
  match cs with [] => -1 | c :: cs' => if c_last c then c_end c else frame_length cs' end.
Fixpoint bound (cs : list chunk) : Z := match cs with [] => 0 | c :: cs' => Z.max (c_end c) (bound cs') end.
Definition overlaps (c d : chunk) : bool := (c_end d >? c_start c) && (c_end c >? c_start d).
Definition fits (cs : list chunk) (c : chunk) : bool :=
  negb (existsb (overlaps c) cs) &&
  (if c_last c then (frame_length cs <? 0) && (bound cs <=? c_end c)
   else (frame_length cs <? 0) || (c_end c <=? frame_length cs)).
Definition complete (cs : list chunk) : bool := (0 <=? frame_length cs) && (frame_length cs <=? total cs).

Fixpoint a_find (i : Z) (fs : list aframe) : option aframe :=
  match fs with [] => None | a :: fs' => if a_id a =? i then Some a else a_find i fs' end.
Definition a_remove (i : Z) (fs : list aframe) : list aframe := filter (fun a => a_id a <> i) fs.
Definition a_update (a : aframe) (fs : list aframe) : list aframe := (fun b => if a_id b =? a_id a then a else b) <$> fs.

Section Spec.
Context (mtu num_frames nchunks : Z).

Definition timed_out (t : Z) (a : aframe) : bool := t - a_time a >? num_frames.

(** A new frame; the oldest goes if there is no room. *)
Definition a_new (i t : Z) (fs : list aframe) : list aframe :=
  (if zlen fs =? num_frames then tail fs else fs) ++ [mk_aframe i t []].

(** The frames with the one of the chunk, and what it has. *)
Definition a_open (i t : Z) (fs : list aframe) : list aframe * list chunk :=
  match a_find i fs with
  | None => (a_new i t fs, [])
  | Some a => if timed_out t a then (a_new i t (a_remove i fs), []) else (fs, a_chunks a)
  end.

(** A chunk, and the chunks of the frame that it completes. *)
Definition a_chunk (t : Z) (fs : list aframe) (c : chunk) : list aframe * option (list chunk) :=
  if (c_start c >? mtu) || (c_len c >? mtu - c_start c) then (fs, None) else
  let (fs, cs) := a_open (c_id c) t fs in
  if negb (fits cs c) then (a_remove (c_id c) fs, None) else
  if complete (cs ++ [c]) then (a_remove (c_id c) fs, Some (cs ++ [c])) else
  if zlen (cs ++ [c]) =? nchunks then (a_remove (c_id c) fs, None) else
  (a_update (mk_aframe (c_id c) t (cs ++ [c])) fs, None).

(** The end of a packet; when the time is at its end, it starts again with the oldest frame. *)
Definition a_reduce (t : Z) (fs : list aframe) : Z * list aframe :=
  match filter (fun a => timed_out t a = false) fs with
  | [] => (0, [])
  | a :: fs' => let m := foldr Z.min (a_time a) (a_time <$> fs') in
      (t - m + 1, (fun b => mk_aframe (a_id b) (a_time b - m) (a_chunks b)) <$> (a :: fs'))
  end.
Definition a_finish (t : Z) (fs : list aframe) : spec :=
  let (t', fs') := if t =? FPA_MAX_TIME then a_reduce t fs else (t + 1, fs) in mk_spec t' fs' None.

Fixpoint a_process (t : Z) (fs : list aframe) (cs : list chunk) : spec * option (list chunk) :=
  match cs with
  | [] => (a_finish t fs, None)
  | c :: cs' =>
      match a_chunk t fs c with
      | (fs', Some d) => (mk_spec t fs' (Some cs'), Some d)
      | (fs', None) => a_process t fs' cs'
      end
  end.

Definition a_event (ev : event) (a : spec) : spec * option (list chunk) :=
  match ev with
  | E_send data => a_process (s_time a) (s_frames a) (chunks_of data)
  | E_done => a_process (s_time a) (s_frames a) (default [] (s_rest a))
  end.

(** Packets come when the last one is done, the output answers when it has a frame. *)
Definition a_enabled (ev : event) (a : spec) : bool :=
  match ev, s_rest a with
  | E_send data, None => bool_decide (bytes_ok data)
  | E_done, Some _ => true
  | _, _ => false
  end.

Fixpoint a_run (evs : list event) (a : spec) : option (spec * list (list chunk)) :=
  match evs with
  | [] => Some (a, [])
  | ev :: evs' =>
      if a_enabled ev a then let (a', d) := a_event ev a in r ← a_run evs' a'; Some (r.1, option_list d ++ r.2) else None
  end.
Definition a_start : spec := mk_spec 0 [] None.
End Spec.

(** ** Sets of chunks of a frame *)

Definition starts_ok (cs : list chunk) : Prop := Forall (fun c => 0 <= c_start c) cs.

Lemma c_end_nonneg c : 0 <= c_start c -> 0 <= c_end c.
Proof. unfold c_end. pose proof (c_len_nonneg c). lia. Qed.

Lemma frame_length_snoc cs c : starts_ok cs -> frame_length (cs ++ [c]) =
  if 0 <=? frame_length cs then frame_length cs else if c_last c then c_end c else -1.
Proof.
  induction 1 as [|d cs Hd _ IH]; cbn [app frame_length]; [done|]. destruct (c_last d); [|exact IH].
  pose proof (c_end_nonneg d Hd). by destruct (Z.leb_spec 0 (c_end d)); [|lia].
Qed.

Lemma frame_length_last cs : 0 <= frame_length cs -> exists c, c ∈ cs /\ c_last c = true /\ c_end c = frame_length cs.
Proof.
  induction cs as [|d cs IH]; cbn [frame_length]; [lia|]. destruct (c_last d) eqn:E; intros H; [exists d; split; [by left | done]|].
  destruct (IH H) as (c & Hc & Hl). exists c. split; [by right | done].
Qed.

Lemma bound_le cs n : starts_ok cs -> 0 <= n -> bound cs <= n <-> Forall (fun c => c_end c <= n) cs.
Proof.
  intros Hs Hn. induction Hs as [|c cs Hc Hs IH]; cbn [bound]; [split; [constructor | done]|]. rewrite Forall_cons, <- IH. lia.
Qed.

Lemma bound_snoc cs c : starts_ok (cs ++ [c]) -> bound (cs ++ [c]) = Z.max (bound cs) (c_end c).
Proof.
  intros [Hs [Hc _]%Forall_cons]%Forall_app. pose proof (c_end_nonneg c Hc). induction cs as [|d cs IH]; cbn [app bound]; [lia|].
  apply Forall_cons in Hs as [_ Hs]. rewrite (IH Hs). lia.
Qed.

Lemma inside_starts n cs : inside n cs -> starts_ok cs.
Proof. intros H. eapply Forall_impl; [exact H|]. by intros c []. Qed.

Section ChunkSets.
Context (mtu : Z).

Record chunks_ok (cs : list chunk) : Prop := mk_chunks_ok {
  co_inside : inside mtu cs;
  co_spread : spread cs;
  co_last : 0 <= frame_length cs -> inside (frame_length cs) cs;
}.

Lemma chunks_ok_nil : chunks_ok [].
Proof. split; [constructor | constructor |]. cbn. lia. Qed.

Lemma overlaps_apart cs c : existsb (overlaps c) cs = false -> Forall (fun d => apart d c) cs.
Proof.
  induction cs as [|d cs IH]; cbn [existsb]; intros H; constructor; apply orb_false_iff in H as [H1 H2]; [|by apply IH].
  unfold overlaps in H1. unfold apart. destruct (Z.gtb_spec (c_end d) (c_start c)), (Z.gtb_spec (c_end c) (c_start d)); cbn in H1; try done; lia.
Qed.

Lemma fits_ok cs c : chunks_ok cs -> 0 <= c_start c -> c_end c <= mtu -> fits cs c = true -> chunks_ok (cs ++ [c]).
Proof.
  intros [Hi Hs Hl] H0 He Hf. pose proof (inside_starts _ _ Hi) as Hst. pose proof (c_end_nonneg c H0) as Hce.
  unfold fits in Hf. apply andb_true_iff in Hf as [Ho%negb_true_iff Hf]. split.
  - by apply inside_snoc.
  - apply spread_snoc; [done | by apply overlaps_apart].
  - rewrite frame_length_snoc by done. destruct (Z.leb_spec 0 (frame_length cs)) as [Hn|Hn].
    + intros _. apply inside_snoc. split; [by apply Hl|]. destruct (c_last c); lia.
    + destruct (c_last c); [|lia]. intros _. apply inside_snoc. split; [|lia]. apply andb_true_iff in Hf as [_ Hb%Z.leb_le].
      apply bound_le in Hb; [|done..]. unfold inside, starts_ok in *. rewrite Forall_forall in *. intros d Hd. split; [by apply Hst | by apply Hb].
Qed.

Lemma complete_total cs : chunks_ok cs -> complete cs = true -> total cs = frame_length cs.
Proof.
  intros [_ Hs Hl] [Hn%Z.leb_le Ht%Z.leb_le]%andb_true_iff. pose proof (total_le _ cs Hn (Hl Hn) Hs). lia.
Qed.

Lemma complete_length cs : chunks_ok cs -> 0 <= frame_length cs <= mtu \/ frame_length cs < 0.
Proof.
  intros [Hi _ _]. destruct (Z_lt_dec (frame_length cs) 0) as [|Hn]; [by right|]. left. split; [lia|].
  destruct (frame_length_last cs ltac:(lia)) as (c & Hc & _ & <-). unfold inside in Hi. rewrite Forall_forall in Hi. by apply (Hi c).
Qed.

(** What a complete frame's buffer holds is made of its chunks. *)
Lemma complete_assembled cs buf : chunks_ok cs -> complete cs = true -> mtu <= zlen buf ->
  (forall c, c ∈ cs -> mread buf (c_start c) (c_len c) = c_data c) -> assembled cs (mread buf 0 (frame_length cs)).
Proof.
  intros C Hc Hb Hd. pose proof (complete_total cs C Hc) as Ht. pose proof (complete_length cs C) as Hlen. pose proof C as [_ Hs Hl].
  apply andb_true_iff in Hc as [Hn%Z.leb_le _]. specialize (Hl Hn). assert (Hz : zlen (mread buf 0 (frame_length cs)) = frame_length cs) by (apply zlen_mread; lia).
  assert (Hi : forall c, c ∈ cs -> 0 <= c_start c /\ c_end c <= frame_length cs) by (by apply Forall_forall).
  split; rewrite ?Hz.
  - intros c Hc. destruct (Hi c Hc) as [H1 H2]. unfold c_end in H2. pose proof (c_len_nonneg c). rewrite mread_mread by lia. by apply Hd.
  - done.
  - by apply covered.
  - by apply frame_length_last.
Qed.
End ChunkSets.

(** ** The code *)

Section Assembler.
Context {ST : SearchTree id_ok compare_ids}.

(** [sending]: the entry and the length of the frame the output is working on. *)
Record sys := mk_sys {
  output_mtu : Z;
  num_chunks : Z;
  time : Z;
  time_tolerance : Z;
  frames : gmap Z frame;
  frames_free : list Z;
  frames_used : list Z;
  frames_used_tree : tree;
  in_len : Z;
  in_ : list Z;
  in_pos : Z;
  sending : option (Z * Z);
}.

Inductive out :=
  | Input_Done
  | Sender_Send (f len : Z)        (** [PacketPassInterface_Sender_Send(o->output, frame->buffer, frame->length)] *)
  | Delivered (data : list Z).     (** the output is done; what was in the buffer *)

Abbreviation H := (M sys out).

Definition set_time (t : Z) (s : sys) : sys :=
  mk_sys (output_mtu s) (num_chunks s) t (time_tolerance s) (frames s) (frames_free s) (frames_used s) (frames_used_tree s) (in_len s) (in_ s) (in_pos s) (sending s).
Definition set_frames (h : gmap Z frame) (s : sys) : sys :=
  mk_sys (output_mtu s) (num_chunks s) (time s) (time_tolerance s) h (frames_free s) (frames_used s) (frames_used_tree s) (in_len s) (in_ s) (in_pos s) (sending s).
Definition set_free (l : list Z) (s : sys) : sys :=
  mk_sys (output_mtu s) (num_chunks s) (time s) (time_tolerance s) (frames s) l (frames_used s) (frames_used_tree s) (in_len s) (in_ s) (in_pos s) (sending s).
Definition set_used (l : list Z) (t : tree) (s : sys) : sys :=
  mk_sys (output_mtu s) (num_chunks s) (time s) (time_tolerance s) (frames s) (frames_free s) l t (in_len s) (in_ s) (in_pos s) (sending s).
Definition set_in (n : Z) (d : list Z) (pos : Z) (s : sys) : sys :=
  mk_sys (output_mtu s) (num_chunks s) (time s) (time_tolerance s) (frames s) (frames_free s) (frames_used s) (frames_used_tree s) n d pos (sending s).
Definition set_sending (x : option (Z * Z)) (s : sys) : sys :=
  mk_sys (output_mtu s) (num_chunks s) (time s) (time_tolerance s) (frames s) (frames_free s) (frames_used s) (frames_used_tree s) (in_len s) (in_ s) (in_pos s) x.

Definition upd (f : Z) (g : frame -> frame) : H unit :=
  x <- load frames f ;; modify (fun s => set_frames (<[f := g x]> (frames s)) s).

Definition free_frame (f : Z) : H unit :=
  modify (fun s => set_used (list_remove f (frames_used s)) (frames_used_tree s) s) ;;
  modify (fun s => set_used (frames_used s) (t_remove f (frames_used_tree s)) s) ;;
  modify (fun s => set_free (frames_free s ++ [f]) s).

Definition free_oldest_frame : H unit :=
  s <- get ;; match frames_used s with [] => fail F_assert | f :: _ => free_frame f end.

Definition is_empty (l : list Z) : bool := match l with [] => true | _ => false end.

Definition allocate_new_frame (i : Z) : H Z :=
  s <- get ;;
  assert (match t_lookup i (frames_used_tree s) with None => true | Some _ => false end) ;;
  (when is_empty (frames_free s) do free_oldest_frame) ;;
  s <- get ;;
  match frames_free s with
  | [] => fail F_assert
  | f :: _ =>
      modify (fun s => set_free (list_remove f (frames_free s)) s) ;;
      upd f (reset_frame i (time s)) ;;
      modify (fun s => set_used (frames_used s ++ [f]) (frames_used_tree s) s) ;;
      s <- get ;;
      match t_insert i f (frames_used_tree s) with
      | None => fail F_assert
      | Some t => modify (fun s => set_used (frames_used s) t s) ;; ret f
      end
  end.

Definition chunks_overlap (c1_start c1_len c2_start c2_len : Z) : bool :=
  (c1_start + c1_len >? c2_start) && (c2_start + c2_len >? c1_start).

Definition frame_is_timed_out (x : frame) : H bool :=
  s <- get ;;
  assert (f_time x <=? time s) ;;
  ret (u32 (time s - f_time x) >? time_tolerance s).

(** The first loop of [reduce_times]; the next node is taken before the frame is freed. *)
Fixpoint min_loop (l : list Z) (minframe : option Z) : H (option Z) :=
  match l with
  | [] => ret minframe
  | f :: l' =>
      x <- load frames f ;;
      b <- frame_is_timed_out x ;;
      if b then free_frame f ;; min_loop l' minframe else
      match minframe with
      | None => min_loop l' (Some f)
      | Some g => y <- load frames g ;; min_loop l' (Some (if f_time x <? f_time y then f else g))
      end
  end.

(** The second loop. *)
Fixpoint subtract_loop (min_time : Z) (l : list Z) : H unit :=
  match l with
  | [] => ret tt
  | f :: l' => upd f (fun x => set_f_time (u32 (f_time x - min_time)) x) ;; subtract_loop min_time l'
  end.

Definition reduce_times : H unit :=
  s <- get ;;
  m <- min_loop (frames_used s) None ;;
  match m with
  | None => modify (set_time 0)
  | Some f =>
      x <- load frames f ;;
      s <- get ;;
      subtract_loop (f_time x) (frames_used s) ;;
      modify (fun s => set_time (u32 (time s - f_time x)) s)
  end.

(** The frame of a chunk, a new one if there is none or it is too old. *)
Definition find_frame (i : Z) : H Z :=
  s <- get ;;
  match t_lookup i (frames_used_tree s) with
  | None => allocate_new_frame i
  | Some f =>
      x <- load frames f ;;
      b <- frame_is_timed_out x ;;
      if b then free_frame f ;; allocate_new_frame i else ret f
  end.

(** The checks of the chunk against what the frame has. *)
Definition chunk_fits (x : frame) (start len : Z) (last : bool) : bool :=
  negb (existsb (fun c => chunks_overlap c.1 c.2 start len) (chunks x)) &&
  (if last then negb (length_ x >=? 0) && negb (length_so_far x >? start + len)
   else negb ((length_ x >=? 0) && (start + len >? length_ x))).

(** The entry with the chunk, before its data is copied. *)
Definition add_chunk (t start len : Z) (last : bool) (x : frame) : frame :=
  let x := set_f_time t x in
  let x := set_chunks (chunks x ++ [(start, len)]) (sum x + len) x in
  if last then set_length (start + len) x
  else if (length_ x <? 0) && (length_so_far x <? start + len) then set_so_far (start + len) x else x.

(** [payload]: where the data is in the input packet. *)
Definition process_chunk (frame_id chunk_start chunk_len is_last payload : Z) : H bool :=
  assert (chunk_start >=? 0) ;;
  assert (chunk_len >=? 0) ;;
  assert ((is_last =? 0) || (is_last =? 1)) ;;
  s <- get ;;
  if chunk_start >? output_mtu s then ret false else
  if chunk_len >? output_mtu s - chunk_start then ret false else
  let chunk_end := chunk_start + chunk_len in
  assert (chunk_end >=? 0) ;;
  assert (chunk_end <=? output_mtu s) ;;
  f <- find_frame frame_id ;;
  x <- load frames f ;;
  assert (num_chunks_of x <? num_chunks s) ;;
  if negb (chunk_fits x chunk_start chunk_len (is_last =? 1)) then free_frame f ;; ret false else
  s <- get ;;
  upd f (add_chunk (time s) chunk_start chunk_len (is_last =? 1)) ;;
  d <- get_bytes (in_ s) payload chunk_len ;;
  x <- load frames f ;;
  b <- put (buffer x) chunk_start d ;;
  upd f (set_buffer b) ;;
  x <- load frames f ;;
  if (length_ x <? 0) || (sum x <? length_ x) then
    (when num_chunks_of x =? num_chunks s do free_frame f) ;; ret false
  else
    assert (sum x =? length_ x) ;;
    free_frame f ;;
    assert (length_ x <=? output_mtu s) ;;
    modify (set_sending (Some (f, length_ x))) ;;
    emit (Sender_Send f (length_ x)) ;;
    ret true.

(** The loop of [process_input]: true if it returns to wait for the output. *)
Fixpoint read_chunks (fuel : nat) : H bool :=
  match fuel with
  | O => fail F_fuel
  | S fuel =>
      s <- get ;;
      if negb (in_pos s <? in_len s) then ret false else
      if in_len s - in_pos s <? sizeof_fragmentproto_chunk_header then ret false else
      b <- get_bytes (in_ s) (in_pos s) sizeof_fragmentproto_chunk_header ;;
      let header := read_header b in
      modify (fun s => set_in (in_len s) (in_ s) (in_pos s + sizeof_fragmentproto_chunk_header) s) ;;
      let frame_id := ltoh16 (frame_id header) in
      let chunk_start := ltoh16 (chunk_start header) in
      let chunk_len := ltoh16 (chunk_len header) in
      let is_last := ltoh8 (is_last header) in
      if negb ((is_last =? 0) || (is_last =? 1)) then ret false else
      s <- get ;;
      if in_len s - in_pos s <? chunk_len then ret false else
      res <- process_chunk frame_id chunk_start chunk_len is_last (in_pos s) ;;
      modify (fun s => set_in (in_len s) (in_ s) (in_pos s + chunk_len) s) ;;
      if res : bool then ret true else read_chunks fuel
  end.

(** The rest of [process_input]: the packet is done. *)
Definition finish_packet : H unit :=
  s <- get ;;
  (if time s =? FPA_MAX_TIME then
     reduce_times ;;
     s <- get ;;
     if negb (is_empty (frames_used s)) then
       assert (time s <? FPA_MAX_TIME) ;;
       modify (set_time (u32 (time s + 1)))
     else assert (time s =? 0)
   else modify (set_time (u32 (time s + 1)))) ;;
  modify (fun s => set_in (-1) (in_ s) (in_pos s) s) ;;
  emit Input_Done.

Definition process_input : H unit :=
  s <- get ;;
  assert (in_len s >=? 0) ;;
  b <- read_chunks (S (length (in_ s))) ;;
  if b : bool then ret tt else finish_packet.

Definition input_handler_send (data : list Z) : H unit :=
  s <- get ;;
  assert (zlen data >=? 0) ;;
  assert (in_len s =? -1) ;;
  modify (set_in (zlen data) data 0) ;;
  process_input.

Definition output_handler_done : H unit :=
  s <- get ;; assert (in_len s >=? 0) ;; process_input.

(** [Init]: [entries], [chunk_mem] and [bufs] are the results of the allocations, of which
    the last has the buffers' contents. *)
Fixpoint init_entries (l : list Z) (bufs : Z -> list Z) : H unit :=
  match l with
  | [] => ret tt
  | f :: l' =>
      modify (fun s => set_frames (<[f := mk_frame [] (bufs f) 0 0 0 0 0]> (frames s)) s) ;;
      modify (fun s => set_free (frames_free s ++ [f]) s) ;;
      init_entries l' bufs
  end.

Definition FragmentProtoAssembler_Init (mtu num_frames nchunks : Z) (entries chunk_mem : bool) (bufs : option (Z -> list Z)) : H bool :=
  assert (num_frames >? 0) ;;
  assert (num_frames <? FPA_MAX_TIME) ;;
  assert (nchunks >? 0) ;;
  match entries, chunk_mem, bufs with
  | true, true, Some bufs =>
      modify (fun s => mk_sys mtu nchunks 0 num_frames ∅ [] [] t_empty (-1) [] 0 None) ;;
      init_entries (seqZ 0 num_frames) bufs ;;
      ret true
  | _, _, _ => ret false
  end.

(** ** Runs *)

Definition enabled (ev : event) (s : sys) : bool :=
  match ev with
  | E_send data => (in_len s =? -1) && bool_decide (bytes_ok data)
  | E_done => match sending s with Some _ => true | None => false end
  end.

Definition deliver (ev : event) : H unit :=
  match ev with
  | E_send data => input_handler_send data
  | E_done =>
      s <- get ;;
      match sending s with
      | Some (f, len) =>
          x <- load frames f ;; d <- get_bytes (buffer x) 0 len ;;
          modify (set_sending None) ;; emit (Delivered d) ;; output_handler_done
      | None => fail F_assert
      end
  end.

Fixpoint run_events (evs : list event) (s : sys) : option (sys * list (event * list out)) :=
  match evs with
  | [] => Some (s, [])
  | ev :: evs' =>
      if enabled ev s then
        match deliver ev s with
        | Ok _ s' tr => r ← run_events evs' s'; Some (r.1, (ev, tr) :: r.2)
        | Fault _ => None
        end
      else Some (s, [])
  end.

Definition run (mtu num_frames nchunks : Z) (bufs : Z -> list Z) (evs : list event) (mem : sys) : option (sys * list (event * list out)) :=
  match FragmentProtoAssembler_Init mtu num_frames nchunks true true (Some bufs) mem with
  | Ok _ s _ => run_events evs s
  | Fault _ => None
  end.

Definition got (ev : event) : list (list Z) := match ev with E_send data => [data] | _ => [] end.
Definition frame_out (o : out) : list (list Z) := match o with Delivered d => [d] | _ => [] end.

(** The packets that came in, and the frames that were delivered. *)
Definition received (steps : list (event * list out)) : list (list Z) := steps ≫= fun st => got st.1.
Definition delivered (steps : list (event * list out)) : list (list Z) := steps ≫= fun st => st.2 ≫= frame_out.
(** ** The entries and the frames they hold *)

Section Rep.
Context (mtu num_frames nchunks : Z) (Hmtu : 0 <= mtu) (Hframes : 0 < num_frames < FPA_MAX_TIME) (Hchunks : 0 < nchunks).

Record frame_rep (x : frame) (a : aframe) : Prop := mk_frame_rep {
  fr_id : id x = a_id a;
  fr_time : f_time x = a_time a;
  fr_chunks : chunks x = (fun c => (c_start c, c_len c)) <$> a_chunks a;
  fr_sum : sum x = total (a_chunks a);
  fr_length : length_ x = frame_length (a_chunks a);
  fr_so_far : frame_length (a_chunks a) < 0 -> length_so_far x = bound (a_chunks a);
  fr_data c : c ∈ a_chunks a -> mread (buffer x) (c_start c) (c_len c) = c_data c;
}.

Definition entry (h : gmap Z frame) (f : Z) (a : aframe) : Prop := exists x, h !! f = Some x /\ frame_rep x a.
Definition keys (h : gmap Z frame) (l : list Z) : list (Z * Z) := (fun f => (id (h !!! f), f)) <$> l.
Definition slots (s : sys) : list Z := frames_free s ++ frames_used s.

Record rep (fs : list aframe) (s : sys) : Prop := mk_rep {
  r_mtu : output_mtu s = mtu;
  r_nchunks : num_chunks s = nchunks;
  r_tol : time_tolerance s = num_frames;
  r_nodup : NoDup (slots s);
  r_dom f : f ∈ slots s <-> is_Some (frames s !! f);
  r_len : zlen (slots s) = num_frames;
  r_buf f x : frames s !! f = Some x -> zlen (buffer x) = mtu;
  r_used : Forall2 (entry (frames s)) (frames_used s) fs;
  r_tree : t_rep (frames_used_tree s) (keys (frames s) (frames_used s));
}.

Lemma entry_id h f a : entry h f a -> id (h !!! f) = a_id a.
Proof. intros (x & E & R). by rewrite (lookup_total_correct _ _ _ E), (fr_id _ _ R). Qed.

Lemma rep_ids fs s : rep fs s -> (fun f => id (frames s !!! f)) <$> frames_used s = a_id <$> fs.
Proof.
  intros R. pose proof (r_used _ _ R) as H2. clear R. induction H2 as [|f a l k He _ IH]; [done|]. rewrite !fmap_cons. f_equal; [by apply entry_id | exact IH].
Qed.

Lemma rep_ids_ok fs s : rep fs s -> NoDup (a_id <$> fs) /\ Forall id_ok (a_id <$> fs).
Proof.
  intros R. destruct (t_rep_wf _ _ (r_tree _ _ R)) as (H1 & _ & H3). unfold keys in H1, H3. rewrite <- list_fmap_compose in H1, H3.
  rewrite <- (rep_ids _ _ R). done.
Qed.

Lemma rep_zlen fs s : rep fs s -> zlen fs = zlen (frames_used s).
Proof. intros R. unfold zlen. by rewrite (Forall2_length _ _ _ (r_used _ _ R)). Qed.

(** What is at the same place. *)
Lemma rep_split fs s u1 f u2 : rep fs s -> frames_used s = u1 ++ f :: u2 ->
  exists a1 a a2, fs = a1 ++ a :: a2 /\ Forall2 (entry (frames s)) u1 a1 /\ entry (frames s) f a /\ Forall2 (entry (frames s)) u2 a2.
Proof.
  intros R E. pose proof (r_used _ _ R) as H2. rewrite E in H2. apply Forall2_app_inv_l in H2 as (a1 & k & H1 & H2 & ->).
  apply Forall2_cons_inv_l in H2 as (a & a2 & Ha & H2 & ->). by exists a1, a, a2.
Qed.

Lemma rep_lookup_none fs s i : rep fs s -> id_ok i -> t_lookup i (frames_used_tree s) = None <-> i ∉ a_id <$> fs.
Proof. intros R Hi. rewrite (lookup_key_none id_ok compare_ids (fun f => id (frames s !!! f)) (frames_used s)), (rep_ids _ _ R); [done | apply R | done]. Qed.

Lemma rep_lookup_some fs s i f : rep fs s -> id_ok i -> t_lookup i (frames_used_tree s) = Some f ->
  exists u1 u2 a1 a a2, frames_used s = u1 ++ f :: u2 /\ fs = a1 ++ a :: a2 /\ Forall2 (entry (frames s)) u1 a1 /\ entry (frames s) f a /\
    Forall2 (entry (frames s)) u2 a2 /\ a_id a = i.
Proof.
  intros R Hi Hf. apply (lookup_key id_ok compare_ids (fun f => id (frames s !!! f)) (frames_used s)) in Hf as [Hin <-]; [|apply R | done].
  apply list_elem_of_split in Hin as (u1 & u2 & E). destruct (rep_split _ _ _ _ _ R E) as (a1 & a & a2 & -> & H1 & Ha & H2).
  exists u1, u2, a1, a, a2. split_and!; try done. symmetry. by apply entry_id.
Qed.

(** *** The lists *)

Lemma a_find_none i fs : i ∉ a_id <$> fs -> a_find i fs = None.
Proof.
  induction fs as [|a fs IH]; [done|]. rewrite fmap_cons, not_elem_of_cons. intros [Ha Hf]. cbn. destruct (Z.eqb_spec (a_id a) i); [by destruct Ha|]. by apply IH.
Qed.

Lemma a_find_split i a1 a a2 : i ∉ a_id <$> a1 -> a_id a = i -> a_find i (a1 ++ a :: a2) = Some a.
Proof.
  induction a1 as [|b a1 IH]; cbn [app a_find]; [intros _ ->; by rewrite Z.eqb_refl|]. rewrite fmap_cons, not_elem_of_cons. intros [Hb Hn] Ha.
  destruct (Z.eqb_spec (a_id b) i); [by destruct Hb|]. by apply IH.
Qed.

Lemma a_remove_none i fs : i ∉ a_id <$> fs -> a_remove i fs = fs.
Proof.
  unfold a_remove. induction fs as [|a fs IH]; [done|]. rewrite fmap_cons, not_elem_of_cons. intros [Ha Hf].
  rewrite filter_cons_True by (by intros E; destruct Ha). by rewrite IH.
Qed.

Lemma a_remove_split i a1 a a2 : i ∉ a_id <$> a1 -> i ∉ a_id <$> a2 -> a_id a = i -> a_remove i (a1 ++ a :: a2) = a1 ++ a2.
Proof.
  intros H1 H2 Ha. unfold a_remove. rewrite filter_app, filter_cons_False by (by rewrite Ha; intros H). f_equal; by apply a_remove_none.
Qed.

Lemma a_update_none a fs : a_id a ∉ a_id <$> fs -> a_update a fs = fs.
Proof.
  unfold a_update. induction fs as [|b fs IH]; [done|]. rewrite !fmap_cons, not_elem_of_cons. intros [Hb Hf]. rewrite IH by done.
  destruct (Z.eqb_spec (a_id b) (a_id a)); [by destruct Hb | done].
Qed.

Lemma a_update_split a' a1 a a2 : a_id a' ∉ a_id <$> a1 -> a_id a' ∉ a_id <$> a2 -> a_id a = a_id a' -> a_update a' (a1 ++ a :: a2) = a1 ++ a' :: a2.
Proof.
  intros H1 H2 Ha. unfold a_update. rewrite fmap_app, fmap_cons, Ha, Z.eqb_refl. f_equal; [by apply a_update_none | f_equal; by apply a_update_none].
Qed.

Lemma NoDup_split i a1 a a2 : NoDup (a_id <$> a1 ++ a :: a2) -> a_id a = i -> i ∉ a_id <$> a1 /\ i ∉ a_id <$> a2.
Proof.
  rewrite fmap_app, fmap_cons. intros (_ & Hd & [Hn _]%NoDup_cons)%NoDup_app <-. split; [|done]. intros Hin. destruct (Hd _ Hin). by left.
Qed.
(** *** Operations on the entries *)

(** Nothing but the frames changes. *)
Record same_rest (s s' : sys) : Prop := mk_same_rest {
  sr_time : time s' = time s;
  sr_len : in_len s' = in_len s;
  sr_in : in_ s' = in_ s;
  sr_pos : in_pos s' = in_pos s;
  sr_sending : sending s' = sending s;
}.

#[local] Instance same_rest_preorder : PreOrder same_rest.
Proof. split; [by split | intros x y z [] []; split; congruence]. Qed.

Definition freed (f : Z) (s : sys) : sys :=
  set_free (frames_free s ++ [f]) (set_used (list_remove f (frames_used s)) (t_remove f (frames_used_tree s)) s).

Lemma slots_freed u1 f u2 s : frames_used s = u1 ++ f :: u2 -> NoDup (slots s) ->
  list_remove f (frames_used s) = u1 ++ u2 /\ slots (freed f s) ≡ₚ slots s.
Proof.
  intros E Hn. unfold slots in *. rewrite E in Hn. pose proof Hn as (_ & _ & Hn')%NoDup_app. rewrite E, (list_remove_split _ _ _ Hn'). split; [done|].
  cbn. rewrite E, (list_remove_split _ _ _ Hn'), <- app_assoc. f_equiv. cbn. apply Permutation_middle.
Qed.

Lemma freed_rep a1 a a2 u1 f u2 s : rep (a1 ++ a :: a2) s -> frames_used s = u1 ++ f :: u2 -> Forall2 (entry (frames s)) u1 a1 ->
  rep (a1 ++ a2) (freed f s).
Proof.
  intros [R1 R2 R3 R4 R5 R6 R7 R8 R9] E H1. destruct (slots_freed _ _ _ _ E R4) as [El Hp]. split; [done..| | | | done | |].
  - by rewrite Hp.
  - intros g. by rewrite Hp, R5.
  - unfold zlen in *. by rewrite Hp.
  - cbn. rewrite El. rewrite E in R8. apply Forall2_app; [done|].
    apply Forall2_app_inv in R8 as [_ R8]; [|by apply (Forall2_length _ _ _ H1)]. by apply Forall2_cons_1 in R8 as [_ R8].
  - cbn. rewrite <- (filter_keys (fun g => id (frames s !!! g)) f). apply t_remove_keys; [done|]. rewrite E. apply elem_of_app. right. by left.
Qed.

Lemma free_frame_wp a1 a a2 u1 f u2 s (Q : unit -> sys -> list out -> Prop) :
  rep (a1 ++ a :: a2) s -> frames_used s = u1 ++ f :: u2 -> Forall2 (entry (frames s)) u1 a1 ->
  (forall s', rep (a1 ++ a2) s' -> frames s' = frames s -> frames_used s' = u1 ++ u2 -> frames_free s' = frames_free s ++ [f] -> same_rest s s' -> Q tt s' []) ->
  wp (free_frame f) s Q.
Proof.
  intros R E H1 HQ. unfold free_frame. do 5 wp_step. change (Q tt (freed f s) []). apply HQ; [by eapply freed_rep | done | | done | done].
  cbn. by destruct (slots_freed _ _ _ _ E (r_nodup _ _ R)).
Qed.

(** An entry that changes. *)
Lemma frame_entries_insert h f x l k : f ∉ l -> Forall2 (entry h) l k -> Forall2 (entry (<[f := x]> h)) l k.
Proof.
  intros Hf H2. induction H2 as [|g a l k (y & Ey & Ry) _ IH]; constructor; apply not_elem_of_cons in Hf as [Hg Hf]; [|by apply IH].
  exists y. by rewrite lookup_insert_ne by done.
Qed.

Lemma frame_keys_insert h f x l : id x = id (h !!! f) -> keys (<[f := x]> h) l = keys h l.
Proof.
  intros E. unfold keys. apply list_fmap_ext. intros i g _. f_equal. destruct (decide (g = f)) as [->|]; [by rewrite lookup_total_insert_eq | by rewrite lookup_total_insert_ne].
Qed.

Lemma used_notin u1 f u2 s : NoDup (slots s) -> frames_used s = u1 ++ f :: u2 -> f ∉ u1 /\ f ∉ u2 /\ f ∉ frames_free s.
Proof.
  unfold slots. intros (_ & Hd & Hn)%NoDup_app E. rewrite E in *. apply NoDup_app in Hn as (_ & Hd1 & [Hn _]%NoDup_cons).
  split_and!; [|done|]; intros Hin; [apply (Hd1 f Hin); by left | apply (Hd f Hin), elem_of_app; right; by left].
Qed.

Lemma frame_insert_rep a1 a a' a2 u1 f u2 x s : rep (a1 ++ a :: a2) s -> frames_used s = u1 ++ f :: u2 ->
  Forall2 (entry (frames s)) u1 a1 -> Forall2 (entry (frames s)) u2 a2 -> entry (frames s) f a ->
  a_id a' = a_id a -> frame_rep x a' -> zlen (buffer x) = mtu -> rep (a1 ++ a' :: a2) (set_frames (<[f := x]> (frames s)) s).
Proof.
  intros R E H1 H2 Ha Hi Rx Hb. destruct (used_notin _ _ _ _ (r_nodup _ _ R) E) as (Hu1 & Hu2 & _).
  assert (Hid : id x = id (frames s !!! f)) by (rewrite (entry_id _ _ _ Ha), (fr_id _ _ Rx); congruence).
  destruct R as [R1 R2 R3 R4 R5 R6 R7 R8 R9]. split; try done; cbn [frames frames_used frames_used_tree set_frames].
  - intros g. change (slots (set_frames (<[f:=x]> (frames s)) s)) with (slots s). rewrite R5. destruct (decide (g = f)) as [->|]; [|by rewrite lookup_insert_ne]. rewrite lookup_insert_eq. split; [eauto|]. intros _.
    destruct Ha as (y & Ey & _). rewrite Ey. eauto.
  - intros g y. destruct (decide (g = f)) as [->|]; [rewrite lookup_insert_eq; by intros [= <-] | rewrite lookup_insert_ne by done; apply R7].
  - rewrite E. apply Forall2_app; [by apply frame_entries_insert|]. constructor; [exists x; by rewrite lookup_insert_eq | by apply frame_entries_insert].
  - by rewrite frame_keys_insert.
Qed.
Lemma room_wp fs s (Q : unit -> sys -> list out -> Prop) (fs' := if zlen fs =? num_frames then tail fs else fs) :
  rep fs s -> (forall s' f l, rep fs' s' -> frames_free s' = f :: l -> same_rest s s' -> Q tt s' []) ->
  wp (when is_empty (frames_free s) do free_oldest_frame) s Q.
Proof.
  intros R HQ. pose proof (r_len _ _ R) as Hl. pose proof (rep_zlen _ _ R) as Hz. unfold slots in Hl. rewrite zlen_app in Hl.
  destruct (frames_free s) as [|f l] eqn:Ef; cbn [is_empty].
  - unfold free_oldest_frame. do 2 wp_step. destruct (frames_used s) as [|f u] eqn:Eu; [change (0 + 0 = num_frames) in Hl; lia|].
    destruct (rep_split fs s [] f u R Eu) as (a1 & a & a2 & -> & H1 & _). apply Forall2_nil_inv_l in H1 as ->. cbn [app] in *.
    eapply (free_frame_wp [] a a2 [] f u); [exact R | exact Eu | constructor |]. intros s' R' _ _ Ef' Hs'.
    apply (HQ s' f []); [|by rewrite Ef', Ef | done]. unfold fs'. rewrite (proj2 (Z.eqb_eq _ _)) by (change (@zlen Z []) with 0 in Hl; lia). exact R'.
  - wp_step. eapply HQ; [|exact Ef | reflexivity]. unfold fs'. rewrite (proj2 (Z.eqb_neq _ _)); [done|]. rewrite zlen_cons in Hl. pose proof (zlen_nonneg l). lia.
Qed.

Lemma keys_fst h l : (keys h l).*1 = (fun f => id (h !!! f)) <$> l.
Proof. unfold keys. by rewrite <- list_fmap_compose. Qed.
Lemma keys_snd h l : (keys h l).*2 = l.
Proof. unfold keys. rewrite <- list_fmap_compose. cbn. apply list_fmap_id. Qed.

Lemma keys_insert_notin h f x l : f ∉ l -> keys (<[f := x]> h) l = keys h l.
Proof.
  intros Hf. unfold keys. apply fmap_ext_in. intros g Hg. f_equal. rewrite lookup_total_insert_ne; [done|]. by intros ->.
Qed.

Lemma a_new_eq i t fs : a_new num_frames i t fs = (if zlen fs =? num_frames then tail fs else fs) ++ [mk_aframe i t []].
Proof. done. Qed.

Lemma frame_rep_reset i t x : frame_rep (reset_frame i t x) (mk_aframe i t []).
Proof. split; try done. by intros c ?%elem_of_nil. Qed.

(** Taking an entry from the free list. *)
Lemma taken_rep fs s f l i t (x := reset_frame i t (frames s !!! f)) tr :
  rep fs s -> frames_free s = f :: l -> t_rep tr ((i, f) :: keys (frames s) (frames_used s)) ->
  rep (fs ++ [mk_aframe i t []]) (set_used (frames_used s ++ [f]) tr (set_frames (<[f := x]> (frames s)) (set_free l s))).
Proof.
  intros R Ef Ht. pose proof R as [R1 R2 R3 R4 R5 R6 R7 R8 R9].
  set (s' := set_used _ _ _). assert (Hp : slots s' ≡ₚ slots s).
  { unfold slots, s'. cbn. rewrite Ef. cbn. rewrite app_assoc. symmetry. apply Permutation_cons_append. }
  assert (Hf : f ∉ frames_used s) by (unfold slots in R4; rewrite Ef in R4; apply NoDup_app in R4 as (_ & Hd & _); apply Hd; by left).
  assert (Hin : is_Some (frames s !! f)) by (apply R5; unfold slots; rewrite Ef; by left). split; try done; cbn [frames frames_used frames_used_tree set_used set_frames s'].
  - by rewrite Hp.
  - intros g. rewrite Hp, R5. destruct (decide (g = f)) as [->|]; [rewrite lookup_insert_eq; split; eauto | by rewrite lookup_insert_ne].
  - unfold zlen. rewrite Hp. exact R6.
  - intros g y. destruct (decide (g = f)) as [->|]; [|rewrite lookup_insert_ne by done; apply R7]. rewrite lookup_insert_eq. intros [= <-].
    destruct Hin as [z Ez]. cbn. apply (R7 f). rewrite (lookup_total_correct _ _ _ Ez). exact Ez.
  - apply Forall2_app; [by apply frame_entries_insert|]. constructor; [|constructor]. exists x. split; [by rewrite lookup_insert_eq | apply frame_rep_reset].
  - unfold keys at 1. rewrite fmap_app. fold (keys (<[f:=x]> (frames s)) (frames_used s)). rewrite keys_insert_notin by done. cbn. rewrite lookup_total_insert_eq. cbn.
    eapply t_rep_perm; [|exact Ht]. apply Permutation_cons_append.
Qed.

Lemma allocate_wp fs s i (Q : Z -> sys -> list out -> Prop) :
  rep fs s -> id_ok i -> i ∉ a_id <$> fs ->
  (forall f s' u, rep (a_new num_frames i (time s) fs) s' -> frames_used s' = u ++ [f] -> same_rest s s' -> Q f s' []) ->
  wp (allocate_new_frame i) s Q.
Proof.
  intros R Hi Hn HQ. unfold allocate_new_frame. do 4 wp_step; [by rewrite (proj2 (rep_lookup_none _ _ _ R Hi) Hn)|]. wp_step.
  eapply room_wp; [exact R|]. intros s1 f l R1 Ef Hs1. do 2 wp_step. rewrite Ef.
  set (fs1 := if zlen fs =? num_frames then tail fs else fs) in R1.
  assert (Hn1 : i ∉ a_id <$> fs1).
  { unfold fs1. destruct (_ =? _); [|done]. destruct fs as [|a fs]; [done|]. rewrite fmap_cons, not_elem_of_cons in Hn. apply Hn. }
  assert (Hin : is_Some (frames s1 !! f)) by (apply (r_dom _ _ R1); unfold slots; rewrite Ef; by left). destruct Hin as [x Ex].
  assert (Hf : f ∉ frames_used s1 /\ NoDup (f :: l)).
  { pose proof (r_nodup _ _ R1) as Hd. unfold slots in Hd. rewrite Ef in Hd. apply NoDup_app in Hd as (Hd1 & Hd & _). split; [apply Hd; by left | done]. }
  destruct Hf as [Hf Hl]. wp_step. wp_step. wp_step. unfold upd. wp_step. eapply wp_load; [exact Ex|]. wp_step. do 2 wp_step. do 2 wp_step.
  destruct (t_insert_rep _ _ i f (r_tree _ _ R1) Hi) as (t & Et & Ht); [by rewrite keys_fst, (rep_ids _ _ R1) | by rewrite keys_snd|].
  cbn [frames_used_tree set_used set_frames set_free]. rewrite Et. do 3 wp_step. rewrite !app_nil_r.
  eapply HQ; [| | etrans; [exact Hs1 | by split]].
  - rewrite a_new_eq. fold fs1. pose proof (taken_rep fs1 s1 f l i (time s) t R1 Ef Ht) as Rt. rewrite (lookup_total_correct _ _ _ Ex), <- (sr_time _ _ Hs1) in Rt.
    rewrite (sr_time _ _ Hs1). cbn [frames_free set_free]. rewrite Ef, (list_remove_head _ _ Hl). cbn in Rt |- *. rewrite (sr_time _ _ Hs1) in Rt. exact Rt.
  - done.
Qed.
(** *** Looking for the frame *)

Record aframe_ok (t : Z) (a : aframe) : Prop := mk_aframe_ok {
  ao_time : 0 <= a_time a <= t;
  ao_chunks : chunks_ok mtu (a_chunks a);
  ao_few : zlen (a_chunks a) < nchunks;
}.
Definition frames_ok (t : Z) (fs : list aframe) : Prop := Forall (aframe_ok t) fs.

(** The entry [f] holds the frame [i], which has the chunks [cs]. *)
Definition located (i f : Z) (fs : list aframe) (cs : list chunk) (s : sys) : Prop :=
  exists u1 u2 a1 a a2, frames_used s = u1 ++ f :: u2 /\ fs = a1 ++ a :: a2 /\ Forall2 (entry (frames s)) u1 a1 /\ entry (frames s) f a /\
    Forall2 (entry (frames s)) u2 a2 /\ a_id a = i /\ a_chunks a = cs.

Lemma timed_out_wp fs s x a (Q : bool -> sys -> list out -> Prop) :
  rep fs s -> 0 <= time s <= FPA_MAX_TIME -> frame_rep x a -> aframe_ok (time s) a -> Q (timed_out num_frames (time s) a) s [] -> wp (frame_is_timed_out x) s Q.
Proof.
  intros R Ht Rx [Ha _ _] HQ. unfold frame_is_timed_out. rewrite (fr_time _ _ Rx). do 4 wp_step; [lia|]. wp_step. rewrite (r_tol _ _ R).
  unfold FPA_MAX_TIME in Ht. rewrite u32_id by lia. exact HQ.
Qed.

Lemma located_last fs f s u cs i t : rep (fs ++ [mk_aframe i t cs]) s -> frames_used s = u ++ [f] -> located i f (fs ++ [mk_aframe i t cs]) cs s.
Proof.
  intros R E. pose proof (r_used _ _ R) as H2. rewrite E in H2. apply Forall2_app_inv in H2 as [H1 H2]; [|apply Forall2_length in H2; rewrite !length_app in H2; cbn in H2; lia].
  apply Forall2_cons_1 in H2 as [He _]. exists u, [], fs, (mk_aframe i t cs), []. split_and!; try done.
Qed.

Lemma frames_ok_new t i fs : 0 <= t -> frames_ok t fs -> frames_ok t (a_new num_frames i t fs).
Proof.
  intros Ht H. rewrite a_new_eq. unfold frames_ok in *. apply Forall_app. split.
  - destruct (_ =? _); [|done]. destruct fs; [done|]. by apply Forall_cons in H as [_ H].
  - constructor; [|constructor]. split; cbn; [lia | apply chunks_ok_nil | done].
Qed.

Lemma find_frame_wp fs s i fs' cs (Q : Z -> sys -> list out -> Prop) :
  a_open num_frames i (time s) fs = (fs', cs) -> rep fs s -> id_ok i -> 0 <= time s <= FPA_MAX_TIME -> frames_ok (time s) fs ->
  (forall f s', rep fs' s' -> frames_ok (time s) fs' -> located i f fs' cs s' -> same_rest s s' -> Q f s' []) -> wp (find_frame i) s Q.
Proof.
  unfold a_open. intros Hopen R Hi Ht Hok HQ. unfold find_frame. do 2 wp_step. destruct (t_lookup i (frames_used_tree s)) as [f|] eqn:El.
  - destruct (rep_lookup_some _ _ _ _ R Hi El) as (u1 & u2 & a1 & a & a2 & E & -> & H1 & Ha & H2 & Hid).
    destruct (NoDup_split i a1 a a2 (proj1 (rep_ids_ok _ _ R)) Hid) as [Hn1 Hn2]. rewrite (a_find_split _ _ _ _ Hn1 Hid) in Hopen.
    pose proof Ha as (x & Ex & Rx). wp_step. eapply wp_load; [exact Ex|]. wp_step. pose proof Hok as Hok'. apply Forall_app in Hok' as [Ho1 [Hoa Ho2]%Forall_cons].
    eapply timed_out_wp; [exact R | exact Ht | exact Rx | exact Hoa|]. destruct (timed_out num_frames (time s) a); injection Hopen as <- <-.
    + wp_step. eapply free_frame_wp; [exact R | exact E | exact H1 |]. intros s1 R1 _ _ _ Hs1. rewrite (a_remove_split _ _ _ _ Hn1 Hn2 Hid) in *.
      eapply allocate_wp; [exact R1 | exact Hi | rewrite fmap_app, not_elem_of_app; done |]. intros g s2 u R2 Eu Hs2. rewrite (sr_time _ _ Hs1) in R2.
      eapply HQ; [exact R2 | apply frames_ok_new; [lia | by apply Forall_app] | | by etrans]. by apply located_last with (u := u).
    + wp_step. apply HQ; [exact R | exact Hok | | reflexivity]. by exists u1, u2, a1, a, a2.
  - pose proof (proj1 (rep_lookup_none _ _ _ R Hi) El) as Hn. rewrite (a_find_none _ _ Hn) in Hopen. injection Hopen as <- <-.
    eapply allocate_wp; [exact R | exact Hi | exact Hn |]. intros f s1 u R1 Eu Hs1.
    eapply HQ; [exact R1 | apply frames_ok_new; [lia | done] | by apply located_last with (u := u) | exact Hs1].
Qed.
(** *** A chunk for an entry *)

Lemma frame_length_neg cs : starts_ok cs -> frame_length cs < 0 -> frame_length cs = -1.
Proof.
  induction 1 as [|c cs Hc _ IH]; cbn [frame_length]; [done|]. destruct (c_last c); [|done]. pose proof (c_end_nonneg c Hc). lia.
Qed.

Lemma overlap_eq (c : chunk) cs : existsb (fun d => chunks_overlap d.1 d.2 (c_start c) (c_len c)) ((fun d => (c_start d, c_len d)) <$> cs) = existsb (overlaps c) cs.
Proof. induction cs as [|d cs IH]; [done|]. rewrite fmap_cons. cbn [existsb]. by rewrite IH. Qed.

Lemma chunk_fits_eq x a c : frame_rep x a -> chunk_fits x (c_start c) (c_len c) (c_last c) = fits (a_chunks a) c.
Proof.
  intros [_ _ R3 _ R5 R6 _]. unfold chunk_fits, fits. rewrite R3, overlap_eq, R5. f_equal. fold (c_end c). destruct (c_last c).
  - destruct (Z.ltb_spec (frame_length (a_chunks a)) 0) as [H|H].
    + rewrite (R6 H). destruct (Z.geb_spec (frame_length (a_chunks a)) 0); [lia|]. cbn. destruct (Z.gtb_spec (bound (a_chunks a)) (c_end c)), (Z.leb_spec (bound (a_chunks a)) (c_end c)); try done; lia.
    + by destruct (Z.geb_spec (frame_length (a_chunks a)) 0); [|lia].
  - destruct (Z.ltb_spec (frame_length (a_chunks a)) 0), (Z.geb_spec (frame_length (a_chunks a)) 0), (Z.gtb_spec (c_end c) (frame_length (a_chunks a))), (Z.leb_spec (c_end c) (frame_length (a_chunks a))); cbn; try done; lia.
Qed.

(** The lengths of the entry with the chunk. *)
Lemma add_chunk_rep t x a c : starts_ok (a_chunks a) -> 0 <= c_start c -> frame_rep x a -> fits (a_chunks a) c = true ->
  let x' := add_chunk t (c_start c) (c_len c) (c_last c) x in
  id x' = a_id a /\ f_time x' = t /\ chunks x' = (fun c => (c_start c, c_len c)) <$> (a_chunks a ++ [c]) /\ sum x' = total (a_chunks a ++ [c]) /\
  length_ x' = frame_length (a_chunks a ++ [c]) /\ (frame_length (a_chunks a ++ [c]) < 0 -> length_so_far x' = bound (a_chunks a ++ [c])) /\ buffer x' = buffer x.
Proof.
  intros Hs H0 [R1 R2 R3 R4 R5 R6 _] [_ Hf]%andb_true_iff. pose proof (c_end_nonneg c H0) as He.
  assert (Hst : starts_ok (a_chunks a ++ [c])) by (apply Forall_app; split; [done | by constructor]).
  rewrite frame_length_snoc, bound_snoc, fmap_app, total_chunks_app by done. cbn [total]. rewrite Z.add_0_r. unfold add_chunk. fold (c_end c). destruct (c_last c).
  - cbn. rewrite R1, R3, R4. apply andb_true_iff in Hf as [Hf%Z.ltb_lt _]. destruct (Z.leb_spec 0 (frame_length (a_chunks a))); [lia|]. split_and!; try done. lia.
  - cbn [length_ length_so_far set_chunks set_f_time]. rewrite R5. destruct (Z.leb_spec 0 (frame_length (a_chunks a))) as [Hl|Hl], (Z.ltb_spec (frame_length (a_chunks a)) 0) as [Hl'|Hl']; try lia; cbn [andb].
    + cbn. rewrite R1, R3, R4, R5. split_and!; try done. lia.
    + rewrite (R6 Hl'). destruct (Z.ltb_spec (bound (a_chunks a)) (c_end c)); cbn; rewrite R1, R3, R4, R5, ?(R6 Hl'); split_and!; try done; try (by apply frame_length_neg); lia.
Qed.

(** The data of the other chunks stays. *)
Lemma add_data b cs c d : chunks_ok mtu cs -> 0 <= c_start c -> c_end c <= zlen b -> mtu <= zlen b -> fits cs c = true -> c_data c = d ->
  (forall c', c' ∈ cs -> mread b (c_start c') (c_len c') = c_data c') ->
  forall c', c' ∈ cs ++ [c] -> mread (mwrite b (c_start c) d) (c_start c') (c_len c') = c_data c'.
Proof.
  intros [Hi _ _] H0 He Hb Hf <- Hd c' [Hc'| ->%list_elem_of_singleton]%elem_of_app; [|by apply mread_mwrite_same].
  rewrite <- (Hd c' Hc'). unfold inside in Hi. rewrite Forall_forall in Hi. destruct (Hi c' Hc') as [Hs1 Hs2]. pose proof (c_len_nonneg c').
  apply andb_true_iff in Hf as [Ho%negb_true_iff%overlaps_apart _]. rewrite Forall_forall in Ho. destruct (Ho c' Hc') as [Ha|Ha]; unfold c_end in *.
  - by apply mread_mwrite_before.
  - by apply mread_mwrite_after.
Qed.

Lemma complete_code x a : frame_rep x a -> (length_ x <? 0) || (sum x <? length_ x) = negb (complete (a_chunks a)).
Proof.
  intros [_ _ _ R4 R5 _ _]. unfold complete. rewrite R4, R5.
  destruct (Z.ltb_spec (frame_length (a_chunks a)) 0), (Z.leb_spec 0 (frame_length (a_chunks a))), (Z.ltb_spec (total (a_chunks a)) (frame_length (a_chunks a))), (Z.leb_spec (frame_length (a_chunks a)) (total (a_chunks a))); try done; lia.
Qed.
(** *** Processing a chunk *)

(** The buffer of the entry [f], which the output is reading, has what the chunks [cs] make. *)
Definition held (f : Z) (cs : list chunk) (s : sys) : Prop :=
  sending s = Some (f, frame_length cs) /\ exists x, frames s !! f = Some x /\ 0 <= frame_length cs <= zlen (buffer x) /\
    assembled cs (mread (buffer x) 0 (frame_length cs)).

Record same_input (s s' : sys) : Prop := mk_same_input {
  si_time : time s' = time s;
  si_len : in_len s' = in_len s;
  si_in : in_ s' = in_ s;
  si_pos : in_pos s' = in_pos s;
}.

Definition chunk_done (fs' : list aframe) (d : option (list chunk)) (s : sys) (r : bool) (s' : sys) (tr : list out) : Prop :=
  rep fs' s' /\ frames_ok (time s) fs' /\ same_input s s' /\
  match d with
  | None => r = false /\ tr = [] /\ sending s' = sending s
  | Some cs => r = true /\ exists f, tr = [Sender_Send f (frame_length cs)] /\ held f cs s'
  end.

Lemma same_rest_input s s' : same_rest s s' -> same_input s s' /\ sending s' = sending s.
Proof. intros [H1 H2 H3 H4 H5]. by split. Qed.

(** The frame that the chunk was for is freed. *)
Lemma drop_frame_wp i f fs cs s (Q : unit -> sys -> list out -> Prop) :
  rep fs s -> located i f fs cs s -> (forall s', rep (a_remove i fs) s' -> frames s' = frames s -> same_rest s s' -> Q tt s' []) -> wp (free_frame f) s Q.
Proof.
  intros R (u1 & u2 & a1 & a & a2 & E & -> & H1 & _ & _ & Hid & _) HQ.
  destruct (NoDup_split i a1 a a2 (proj1 (rep_ids_ok _ _ R)) Hid) as [Hn1 Hn2]. rewrite (a_remove_split _ _ _ _ Hn1 Hn2 Hid) in HQ.
  eapply free_frame_wp; [exact R | exact E | exact H1 |]. intros s' R' Ef _ _ Hs. by apply HQ.
Qed.

Lemma frames_ok_remove t i fs : frames_ok t fs -> frames_ok t (a_remove i fs).
Proof. unfold frames_ok. rewrite !Forall_forall. intros H a [_ Ha]%list_elem_of_filter. by apply H. Qed.

(** The frame has got the chunk. *)
Lemma keep_frame i f fs cs cs' s x (t := time s) :
  rep fs s -> located i f fs cs s -> frame_rep x (mk_aframe i t cs') -> zlen (buffer x) = mtu ->
  let s' := set_frames (<[f := x]> (frames s)) s in
  rep (a_update (mk_aframe i t cs') fs) s' /\ located i f (a_update (mk_aframe i t cs') fs) cs' s'.
Proof.
  intros R (u1 & u2 & a1 & a & a2 & E & -> & H1 & Ha & H2 & Hid & _) Rx Hb.
  destruct (NoDup_split i a1 a a2 (proj1 (rep_ids_ok _ _ R)) Hid) as [Hn1 Hn2]. rewrite a_update_split by (done || by rewrite Hid).
  destruct (used_notin _ _ _ _ (r_nodup _ _ R) E) as (Hu1 & Hu2 & _). split; [by eapply frame_insert_rep|].
  exists u1, u2, a1, (mk_aframe i t cs'), a2. split_and!; try done; cbn; [by apply frame_entries_insert | exists x; by rewrite lookup_insert_eq | by apply frame_entries_insert].
Qed.

Lemma frames_ok_update t i cs fs : 0 <= t -> frames_ok t fs -> chunks_ok mtu cs -> zlen cs < nchunks -> frames_ok t (a_update (mk_aframe i t cs) fs).
Proof.
  intros Ht Ho Hc Hn. unfold frames_ok, a_update. apply Forall_fmap. eapply Forall_impl; [exact Ho|]. intros b Hb. cbn.
  destruct (a_id b =? i); [|done]. split; cbn; [lia | done | done].
Qed.

(** The end of [process_chunk], with the chunk in the frame. *)
Lemma end_chunk_wp i f fs cs s x (Q : bool -> sys -> list out -> Prop) :
  rep fs s -> located i f fs cs s -> frames_ok (time s) (a_remove i fs) -> (zlen cs < nchunks -> frames_ok (time s) fs) -> frames s !! f = Some x ->
  chunks_ok mtu cs -> zlen cs <= nchunks ->
  (forall r s' tr, chunk_done (if complete cs then a_remove i fs else if zlen cs =? nchunks then a_remove i fs else fs) (if complete cs then Some cs else None) s r s' tr -> Q r s' tr) ->
  wp (if (length_ x <? 0) || (sum x <? length_ x) then (when num_chunks_of x =? num_chunks s do free_frame f) ;; ret false
      else assert (sum x =? length_ x) ;; free_frame f ;; assert (length_ x <=? output_mtu s) ;; modify (set_sending (Some (f, length_ x))) ;;
        emit (Sender_Send f (length_ x)) ;; ret true) s Q.
Proof.
  intros R L Hrm Hok Ex C Hn HQ. pose proof L as (u1 & u2 & a1 & a & a2 & E & Efs & H1 & (y & Ey & Ry) & H2 & Hid & Hcs). rewrite Ex in Ey. injection Ey as <-.
  rewrite (complete_code x a Ry), Hcs.
  destruct (complete cs) eqn:Ec; cbn [negb].
  - pose proof (complete_total mtu cs C Ec) as Ht. destruct (complete_length mtu cs C) as [Hl|]; [|unfold complete in Ec; lia].
    pose proof (fr_length _ _ Ry) as El. rewrite Hcs in El. do 2 wp_step; [rewrite (fr_sum _ _ Ry), Hcs; lia|]. wp_step. eapply drop_frame_wp; [exact R | exact L |]. intros s1 R1 Ef Hs.
    do 2 wp_step; [rewrite El, (r_mtu _ _ R); lia|]. do 4 wp_step. wp_step. apply HQ. rewrite El. destruct (same_rest_input _ _ Hs) as [Hi _].
    split; [by destruct R1 | split; [done | split; [by destruct Hi |]]]. split; [done|]. exists f. split; [done|]. split; [done|]. exists x. cbn.
    rewrite Ef. pose proof (r_buf _ _ R f x Ex) as Hb. split; [done|]. split; [lia|]. eapply complete_assembled; [exact C | exact Ec | lia |].
    intros c Hc. apply (fr_data _ _ Ry). by rewrite Hcs.
  - assert (Enum : num_chunks_of x = zlen cs) by (unfold num_chunks_of; by rewrite (fr_chunks _ _ Ry), zlen_fmap, Hcs). rewrite Enum, (r_nchunks _ _ R). wp_step.
    destruct (Z.eqb_spec (zlen cs) nchunks) as [|Hne].
    + eapply drop_frame_wp; [exact R | exact L |]. intros s1 R1 Ef Hs. wp_step. apply HQ. destruct (same_rest_input _ _ Hs) as [Hi Hse]. by split_and!.
    + do 2 wp_step. apply HQ. split_and!; try done. apply Hok. lia.
Qed.

Lemma a_remove_update a i fs : a_id a = i -> a_remove i (a_update a fs) = a_remove i fs.
Proof.
  intros <-. unfold a_remove, a_update. induction fs as [|b fs IH]; [done|]. rewrite fmap_cons, !filter_cons, IH.
  destruct (Z.eqb_spec (a_id b) (a_id a)) as [E|E]; [|done]. rewrite decide_False by (intros H; by destruct H). by rewrite decide_False by (intros H; by destruct H).
Qed.

Lemma process_chunk_wp fs s c payload fs' d (Q : bool -> sys -> list out -> Prop) :
  a_chunk mtu num_frames nchunks (time s) fs c = (fs', d) -> rep fs s -> frames_ok (time s) fs -> 0 <= time s <= FPA_MAX_TIME -> chunk_ok c ->
  0 <= payload /\ payload + c_len c <= zlen (in_ s) -> mread (in_ s) payload (c_len c) = c_data c ->
  (forall r s' tr, chunk_done fs' d s r s' tr -> Q r s' tr) ->
  wp (process_chunk (c_id c) (c_start c) (c_len c) (Z.b2z (c_last c)) payload) s Q.
Proof.
  unfold a_chunk. intros Ed R Ho Ht [Hid Hst Hle Hby] Hp Hd HQ. pose proof (c_len_nonneg c) as Hl0. unfold process_chunk.
  do 2 wp_step; [lia|]. do 2 wp_step; [lia|]. do 2 wp_step; [by destruct (c_last c)|]. do 2 wp_step. rewrite (r_mtu _ _ R).
  assert (Hout : (fs, None) = (fs', d) -> wp (ret false) s (fun b s' tr => Q b s' ([] ++ [] ++ [] ++ [] ++ tr))).
  { intros [= <- <-]. wp_step. apply HQ. by split_and!. }
  destruct (Z.gtb_spec (c_start c) mtu) as [|Hs1]; [by apply Hout|]. destruct (Z.gtb_spec (c_len c) (mtu - c_start c)) as [|Hs2]; [by apply Hout|]. clear Hout.
  cbn [orb] in Ed. cbv zeta. do 2 wp_step; [lia|]. do 2 wp_step; [lia|]. wp_step. destruct (a_open num_frames (c_id c) (time s) fs) as [fs1 cs] eqn:Eo.
  eapply find_frame_wp; [exact Eo | exact R | exact Hid | exact Ht | exact Ho |]. intros f s1 R1 Ho1 L1 Hs. destruct (same_rest_input _ _ Hs) as [Hin Hse].
  pose proof L1 as (u1 & u2 & a1 & a & a2 & E & -> & H1 & (x & Ex & Rx) & H2 & Hai & Hcs).
  pose proof (proj1 (Forall_app _ _ _) Ho1) as [_ [[_ C Hfew] _]%Forall_cons]. rewrite Hcs in *.
  wp_step. eapply wp_load; [exact Ex|]. do 2 wp_step; [unfold num_chunks_of; rewrite (fr_chunks _ _ Rx), zlen_fmap, Hcs, (r_nchunks _ _ R); lia|].
  replace (Z.b2z (c_last c) =? 1) with (c_last c) by (by destruct (c_last c)). rewrite (chunk_fits_eq x a c Rx), Hcs.
  destruct (fits cs c) eqn:Efit; cbn [negb] in *.
  - do 2 wp_step. unfold upd. wp_step. wp_step. eapply wp_load; [exact Ex|]. do 2 wp_step. rewrite (si_in _ _ Hin). apply wp_get_bytes; [lia|].
    wp_step. eapply wp_load; [apply lookup_insert_eq|]. rewrite Hd. wp_step.
    destruct (add_chunk_rep (time s1) x a c ltac:(rewrite Hcs; apply (inside_starts mtu), C) ltac:(lia) Rx ltac:(by rewrite Hcs)) as (A1 & A2 & A3 & A4 & A5 & A6 & A7).
    rewrite Hcs in A3, A4, A5, A6. set (x1 := add_chunk _ _ _ _ x) in *. rewrite A7. pose proof (r_buf _ _ R1 f x Ex) as Hb. fold (c_len c) in *.
    assert (He : c_end c <= mtu) by (unfold c_end; lia). unfold put. wp_step. wp_step; [fold (c_len c); lia|]. wp_step. do 2 wp_step.
    eapply wp_load; [apply lookup_insert_eq|]. do 2 wp_step. cbn [frames set_frames]. rewrite insert_insert_eq.
    eapply wp_load; [apply lookup_insert_eq|]. set (x2 := set_buffer _ x1).
    assert (R2 : frame_rep x2 (mk_aframe (c_id c) (time s1) (cs ++ [c]))).
    { split; cbn; try done; [by rewrite A1, Hai |]. eapply (add_data _ cs c); [exact C | lia | lia | lia | exact Efit | done |].
      intros c' Hc'. apply (fr_data _ _ Rx). by rewrite Hcs. }
    assert (Hb2 : zlen (buffer x2) = mtu) by (cbn; rewrite zlen_mwrite; [done | lia | fold (c_len c); lia]).
    destruct (keep_frame (c_id c) f _ cs (cs ++ [c]) s1 x2 R1 L1 R2 Hb2) as [R3 L3]. pose proof (fits_ok mtu cs c C ltac:(lia) He Efit) as C3.
    assert (Hz : zlen (cs ++ [c]) = zlen cs + 1) by (rewrite zlen_app; done). rewrite (si_time _ _ Hin) in *.
    change (wp ?m _ ?q) with (wp m (set_frames (<[f:=x2]> (frames s1)) s1) q).
    eapply (end_chunk_wp (c_id c) f _ (cs ++ [c]) (set_frames (<[f:=x2]> (frames s1)) s1) x2); [exact R3 | exact L3 | | | by cbn; rewrite lookup_insert_eq | exact C3 | lia |]; cbn [time set_frames]; rewrite ?(si_time _ _ Hin), ?a_remove_update by done.
    + by apply frames_ok_remove.
    + intros Hlt. by apply frames_ok_update; [lia|..].
    + intros r s' tr Hdone. apply HQ.
      assert (Hres : chunk_done fs' d (set_frames (<[f:=x2]> (frames s1)) s1) r s' tr).
      { destruct (complete (cs ++ [c])); [injection Ed as <- <-; exact Hdone|]. destruct (zlen (cs ++ [c]) =? nchunks); injection Ed as <- <-; exact Hdone. }
      destruct Hres as (D1 & D2 & D3 & D4). cbn [time sending set_frames] in D2, D4. rewrite (si_time _ _ Hin) in D2. split; [done|]. split; [done|]. split.
      * destruct Hin, D3 as [X1 X2 X3 X4]. cbn in X1, X2, X3, X4. split; congruence.
      * destruct d; [done|]. by rewrite <- Hse.
  - wp_step. eapply drop_frame_wp; [exact R1 | exact L1 |]. intros s2 R2 Ef Hs2'. wp_step. apply HQ. injection Ed as <- <-.
    destruct (same_rest_input _ _ (transitivity Hs Hs2')) as [Hin2 Hse2]. split_and!; try done. by apply frames_ok_remove.
Qed.
(** *** The end of a packet *)

(** [m] is the entry of a frame with the least time. *)
Definition min_is (m : option Z) (h : gmap Z frame) (fs : list aframe) : Prop :=
  match m with
  | None => fs = []
  | Some g => exists x a, h !! g = Some x /\ f_time x = a_time a /\ a ∈ fs /\ Forall (fun b => a_time a <= a_time b) fs
  end.

Lemma min_is_snoc m h fs f x a : min_is m h fs -> h !! f = Some x -> f_time x = a_time a ->
  forall y, (forall g, m = Some g -> h !! g = Some y) ->
  min_is (Some (match m with Some g => if f_time x <? f_time y then f else g | None => f end)) h (fs ++ [a]).
Proof.
  intros Hm Ex Et y Hy. destruct m as [g|]; cbn in Hm |- *.
  - destruct Hm as (z & b & Ez & Etz & Hb & Hall). specialize (Hy g eq_refl). rewrite Ez in Hy. injection Hy as ->. destruct (Z.ltb_spec (f_time x) (f_time y)).
    + exists x, a. split_and!; [done | done | apply elem_of_app; right; by left |]. apply Forall_app. split; [|by repeat constructor].
      eapply Forall_impl; [exact Hall|]. cbn. intros c Hc. lia.
    + exists y, b. split_and!; [done | done | apply elem_of_app; by left |]. apply Forall_app. split; [done | repeat constructor; lia].
  - subst fs. exists x, a. split_and!; [done | done | by left | by repeat constructor].
Qed.

Definition kept (t : Z) (fs : list aframe) : list aframe := filter (fun a => timed_out num_frames t a = false) fs.

Lemma min_loop_wp l : forall ku k1 k2 m s (Q : option Z -> sys -> list out -> Prop),
  rep (k1 ++ k2) s -> frames_used s = ku ++ l -> Forall2 (entry (frames s)) ku k1 -> frames_ok (time s) (k1 ++ k2) -> 0 <= time s <= FPA_MAX_TIME ->
  min_is m (frames s) k1 ->
  (forall m' s', rep (k1 ++ kept (time s) k2) s' -> frames s' = frames s -> same_rest s s' -> min_is m' (frames s) (k1 ++ kept (time s) k2) -> Q m' s' []) ->
  wp (min_loop l m) s Q.
Proof.
  induction l as [|f l IH]; intros ku k1 k2 m s Q R E H1 Ho Ht Hm HQ; cbn [min_loop].
  - pose proof (r_used _ _ R) as H2. rewrite E, app_nil_r in H2. pose proof (Forall2_length _ _ _ H1) as Hl1. apply Forall2_length in H2.
    rewrite length_app in H2. destruct k2; [|cbn in H2; lia]. wp_step. apply HQ; [exact R | done | reflexivity | by rewrite app_nil_r].
  - destruct (rep_split _ _ _ _ _ R E) as (b1 & a & b2 & Eb & Hb1 & (x & Ex & Rx) & Hb2).
    assert (Ek : k1 = b1 /\ k2 = a :: b2).
    { apply app_inj_1 in Eb; [done|]. by rewrite <- (Forall2_length _ _ _ H1), (Forall2_length _ _ _ Hb1). }
    destruct Ek as [-> ->]. pose proof (proj1 (Forall_app _ _ _) Ho) as [Ho1 [Hoa Ho2]%Forall_cons]. unfold kept in HQ. rewrite filter_cons in HQ.
    wp_step. eapply wp_load; [exact Ex|]. wp_step. eapply timed_out_wp; [exact R | exact Ht | exact Rx | exact Hoa|].
    destruct (timed_out num_frames (time s) a); cbn [decide] in HQ.
    + wp_step. eapply free_frame_wp; [exact R | exact E | exact H1 |]. intros s1 R1 Ef Eu _ Hs. pose proof (sr_time _ _ Hs) as Et.
      eapply (IH ku b1 b2 m s1); rewrite ?Et, ?Ef; [exact R1 | exact Eu | exact H1 | by apply Forall_app | exact Ht | exact Hm |].
      intros m' s' R' Ef' Hs' Hm'. apply HQ; [exact R' | congruence | by etrans | exact Hm'].
    + assert (Hnext : forall m', min_is (Some m') (frames s) (b1 ++ [a]) -> wp (min_loop l (Some m')) s Q).
      { intros m' Hm'. eapply (IH (ku ++ [f]) (b1 ++ [a]) b2); [by rewrite <- app_assoc | by rewrite <- app_assoc | | by rewrite <- app_assoc | exact Ht | exact Hm' |].
        - apply Forall2_app; [done|]. constructor; [by exists x | constructor].
        - rewrite <- app_assoc. exact HQ. }
      destruct m as [g|].
      * pose proof Hm as (y & b & Ey & _). wp_step. eapply wp_load; [exact Ey|]. apply Hnext.
        apply (min_is_snoc _ _ _ _ _ _ Hm Ex (fr_time _ _ Rx) y). by intros g' [= <-].
      * apply Hnext. by apply (min_is_snoc _ _ _ _ _ _ Hm Ex (fr_time _ _ Rx) x).
Qed.

Definition earlier (m : Z) (a : aframe) : aframe := mk_aframe (a_id a) (a_time a - m) (a_chunks a).

Lemma subtract_loop_wp m l : 0 <= m -> forall ku k1 k2 s (Q : unit -> sys -> list out -> Prop),
  rep (k1 ++ k2) s -> frames_used s = ku ++ l -> Forall2 (entry (frames s)) ku k1 -> Forall (fun a => m <= a_time a <= FPA_MAX_TIME) k2 ->
  (forall s', rep (k1 ++ (earlier m <$> k2)) s' -> same_rest s s' -> frames_used s' = frames_used s -> Q tt s' []) -> wp (subtract_loop m l) s Q.
Proof.
  intros H0. induction l as [|f l IH]; intros ku k1 k2 s Q R E H1 Hm HQ; cbn [subtract_loop].
  - pose proof (r_used _ _ R) as H2. rewrite E, app_nil_r in H2. pose proof (Forall2_length _ _ _ H1) as Hl1. apply Forall2_length in H2.
    rewrite length_app in H2. destruct k2; [|cbn in H2; lia]. wp_step. apply HQ; [exact R | reflexivity | done].
  - destruct (rep_split _ _ _ _ _ R E) as (b1 & a & b2 & Eb & Hb1 & Ha & Hb2).
    assert (Ek : k1 = b1 /\ k2 = a :: b2).
    { apply app_inj_1 in Eb; [done|]. by rewrite <- (Forall2_length _ _ _ H1), (Forall2_length _ _ _ Hb1). }
    destruct Ek as [-> ->]. apply Forall_cons in Hm as [Hma Hm]. pose proof Ha as (x & Ex & Rx). destruct (used_notin _ _ _ _ (r_nodup _ _ R) E) as (Hu1 & _ & _).
    unfold FPA_MAX_TIME in Hma. wp_step. unfold upd. wp_step. eapply wp_load; [exact Ex|]. wp_step. rewrite (fr_time _ _ Rx), u32_id by lia.
    set (x' := set_f_time (a_time a - m) x). assert (Rx' : frame_rep x' (earlier m a)) by (by destruct Rx).
    eapply (IH (ku ++ [f]) (b1 ++ [earlier m a]) b2); [| by rewrite <- app_assoc | | exact Hm |].
    + rewrite <- app_assoc. apply (frame_insert_rep b1 a (earlier m a) b2 ku f l x' s R E Hb1 Hb2 Ha eq_refl Rx'). apply (r_buf _ _ R f x Ex).
    + cbn. apply Forall2_app; [by apply frame_entries_insert|]. constructor; [|constructor]. exists x'. by rewrite lookup_insert_eq.
    + rewrite <- app_assoc. intros s' R' Hs' Eu'. apply HQ; [exact R' | | by rewrite Eu']. by destruct Hs'.
Qed.

Lemma foldr_min d l : foldr Z.min d l ∈ d :: l /\ Forall (fun x => foldr Z.min d l <= x) (d :: l).
Proof.
  induction l as [|x l [IH1 IH2]]; cbn [foldr]; [split; [by left | by repeat constructor]|]. apply Forall_cons in IH2 as [IHd IHl]. split.
  - destruct (Z.min_dec x (foldr Z.min d l)) as [-> | ->]; [right; by left|]. apply elem_of_cons in IH1 as [->|]; [by left | by do 2 right].
  - constructor; [lia|]. constructor; [lia|]. eapply Forall_impl; [exact IHl|]. cbn. intros y Hy. lia.
Qed.
Lemma frames_ok_later t t' fs : t <= t' -> frames_ok t fs -> frames_ok t' fs.
Proof. intros Ht Ho. eapply Forall_impl; [exact Ho|]. intros a [H1 H2 H3]. split; [lia | done | done]. Qed.

Lemma kept_ok t fs : frames_ok t fs -> Forall (fun a => aframe_ok t a /\ t - a_time a <= num_frames) (kept t fs).
Proof.
  unfold frames_ok, kept. rewrite !Forall_forall. intros H a [Ha Hin]%list_elem_of_filter. split; [by apply H|]. unfold timed_out in Ha. lia.
Qed.

(** When the time starts again. *)
Lemma reduce_wp fs s (Q : unit -> sys -> list out -> Prop) :
  rep fs s -> frames_ok FPA_MAX_TIME fs -> time s = FPA_MAX_TIME ->
  (forall s', same_rest (set_time (time s') s) s' -> rep (a_reduce num_frames FPA_MAX_TIME fs).2 s' ->
    (if is_empty (frames_used s') then time s' = 0 /\ a_reduce num_frames FPA_MAX_TIME fs = (0, [])
     else 0 <= time s' < FPA_MAX_TIME /\ (a_reduce num_frames FPA_MAX_TIME fs).1 = time s' + 1 /\ frames_ok (time s' + 1) (a_reduce num_frames FPA_MAX_TIME fs).2) ->
    Q tt s' []) ->
  wp reduce_times s Q.
Proof.
  intros R Ho Et HQ. unfold reduce_times. do 3 wp_step. pose proof (kept_ok _ _ Ho) as Hk.
  eapply (min_loop_wp _ [] [] fs); [exact R | done | constructor | by rewrite Et | rewrite Et; unfold FPA_MAX_TIME; lia | done |].
  cbn [app]. intros m s1 R1 Ef Hs Hm. rewrite Et in *. unfold a_reduce in HQ. fold (kept FPA_MAX_TIME fs) in HQ. destruct m as [g|].
  - destruct Hm as (x & a & Ex & Etx & Ha & Hmin). wp_step. eapply wp_load; [by rewrite Ef|]. do 3 wp_step. rewrite Forall_forall in Hk. destruct (Hk a Ha) as [Hao Hat].
    assert (Hle : forall b, b ∈ kept FPA_MAX_TIME fs -> 0 < a_time b <= FPA_MAX_TIME).
    { intros b Hb. destruct (Hk b Hb) as [[Hbo _ _] Hbt]. unfold FPA_MAX_TIME in *. lia. }
    pose proof (Hle a Ha) as Ha0. rewrite Etx. eapply (subtract_loop_wp (a_time a) _ ltac:(lia) [] []); [exact R1 | done | constructor | |].
    { rewrite Forall_forall in Hmin |- *. intros b Hb. specialize (Hmin b Hb). specialize (Hle b Hb). lia. }
    cbn [app]. intros s2 R2 Hs2 Eu2. wp_step. rewrite (sr_time _ _ Hs2), (sr_time _ _ Hs), Et. unfold FPA_MAX_TIME in Ha0. rewrite u32_id by (unfold FPA_MAX_TIME; lia).
    destruct (kept FPA_MAX_TIME fs) as [|b k] eqn:Ek; [by apply elem_of_nil in Ha|].
    assert (Em : foldr Z.min (a_time b) (a_time <$> k) = a_time a).
    { destruct (foldr_min (a_time b) (a_time <$> k)) as [Hin Hall]. rewrite <- fmap_cons in Hin, Hall. apply list_elem_of_fmap in Hin as (c & Ec & Hc).
      rewrite Forall_forall in Hmin. specialize (Hmin c Hc). rewrite Forall_forall in Hall. specialize (Hall (a_time a) (list_elem_of_fmap_2 _ _ _ Ha)). lia. }
    rewrite Em in HQ. apply HQ; cbn [fst snd].
    + destruct Hs as [X1 X2 X3 X4 X5], Hs2 as [Y1 Y2 Y3 Y4 Y5]. split; cbn; congruence.
    + by destruct R2.
    + pose proof (Forall2_length _ _ _ (r_used _ _ R2)) as Hl. cbn [frames_used set_time]. destruct (frames_used s2); [done|]. cbn [is_empty time set_time].
      unfold FPA_MAX_TIME in *. split_and!; [lia | lia | done |]. apply Forall_fmap, Forall_forall. intros c Hc. destruct (Hk c Hc) as [[Hct Hcc Hcf] _].
      rewrite Forall_forall in Hmin. specialize (Hmin c Hc). split; cbn; [lia | done | done].
  - cbn in Hm. rewrite Hm in *. wp_step. pose proof (Forall2_length _ _ _ (r_used _ _ R1)) as Hl. apply HQ.
    + destruct Hs. by split.
    + by destruct R1.
    + cbn. by destruct (frames_used s1).
Qed.

Lemma finish_packet_wp fs s (Q : unit -> sys -> list out -> Prop) (a := a_finish num_frames (time s) fs) :
  rep fs s -> frames_ok (time s) fs -> 0 <= time s <= FPA_MAX_TIME ->
  (forall s', rep (s_frames a) s' -> time s' = s_time a -> frames_ok (s_time a) (s_frames a) -> 0 <= s_time a <= FPA_MAX_TIME -> in_len s' = -1 -> sending s' = sending s ->
    Q tt s' [Input_Done]) -> wp finish_packet s Q.
Proof.
  intros R Ho Ht HQ. unfold finish_packet, a, a_finish in *. do 3 wp_step. destruct (Z.eqb_spec (time s) FPA_MAX_TIME) as [Et|Et].
  - rewrite Et in Ho, HQ. wp_step. eapply reduce_wp; [exact R | exact Ho | exact Et|]. intros s1 Hs R1 Hcase. do 2 wp_step. destruct (is_empty (frames_used s1)); cbn [negb].
    + destruct Hcase as [Et1 Ea]. rewrite Ea in *. wp_step; [lia|]. do 3 wp_step. apply HQ; cbn; [by destruct R1 | done | constructor | unfold FPA_MAX_TIME; lia | done | apply Hs].
    + destruct Hcase as (Hr & E1 & Ho1). destruct (a_reduce num_frames FPA_MAX_TIME fs) as [t' fs'] eqn:Ea. cbn in E1, R1, Ho1. unfold FPA_MAX_TIME in Hr.
      do 2 wp_step; [unfold FPA_MAX_TIME; lia|]. do 4 wp_step. rewrite u32_id by lia. apply HQ; cbn; [by destruct R1 | done | by rewrite E1 | unfold FPA_MAX_TIME; lia | done | apply Hs].
  - unfold FPA_MAX_TIME in *. do 4 wp_step. rewrite u32_id by lia. apply HQ; cbn; [by destruct R | done | by eapply frames_ok_later, Ho; lia | lia | done | done].
Qed.
(** *** Processing a packet *)

(** What is left of the packet. *)
Definition rest_of (s : sys) : list Z := mread (in_ s) (in_pos s) (in_len s - in_pos s).
Definition reading (s : sys) : Prop := in_len s = zlen (in_ s) /\ 0 <= in_pos s <= in_len s /\ bytes_ok (in_ s).

Definition process := a_process mtu num_frames nchunks.

(** How the loop ends: with the packet, or with a frame for the output. *)
Inductive loop_end (t : Z) (fs : list aframe) (s : sys) : bool -> sys -> list out -> Prop :=
  | LE_packet fs' s' : process t fs (chunks_of (rest_of s)) = (a_finish num_frames t fs', None) ->
      rep fs' s' -> frames_ok t fs' -> time s' = t -> sending s' = sending s -> loop_end t fs s false s' []
  | LE_frame fs' s' cs f : process t fs (chunks_of (rest_of s)) = (mk_spec t fs' (Some (chunks_of (rest_of s'))), Some cs) ->
      rep fs' s' -> frames_ok t fs' -> time s' = t -> reading s' -> held f cs s' -> loop_end t fs s true s' [Sender_Send f (frame_length cs)].

Lemma read_header_part b n : 7 <= n -> read_header (mread b 0 7) = read_header (mread b 0 n).
Proof. intros Hn. unfold read_header. by rewrite !mread_mread by lia. Qed.

Lemma process_cons t fs c cs : process t fs (c :: cs) =
  match a_chunk mtu num_frames nchunks t fs c with (fs', Some d) => (mk_spec t fs' (Some cs), Some d) | (fs', None) => process t fs' cs end.
Proof. done. Qed.

Lemma loop_end_step t fs fs' s s1 c r s' tr : a_chunk mtu num_frames nchunks t fs c = (fs', None) ->
  chunks_of (rest_of s) = c :: chunks_of (rest_of s1) -> sending s1 = sending s -> loop_end t fs' s1 r s' tr -> loop_end t fs s r s' tr.
Proof.
  intros Ea Ec Es [fs2 s2 Ep|fs2 s2 cs f Ep].
  - eapply LE_packet; try done; [by rewrite Ec, process_cons, Ea | congruence].
  - eapply LE_frame; try done. by rewrite Ec, process_cons, Ea.
Qed.

(** The first chunk of what is left, as the code reads it. *)
Lemma rest_chunks s (h := read_header (mread (in_ s) (in_pos s) 7)) (len := ltoh16 (chunk_len h))
    (c := mk_chunk (ltoh16 (frame_id h)) (ltoh16 (chunk_start h)) (ltoh8 (is_last h) =? 1) (mread (in_ s) (in_pos s + 7) len)) :
  reading s -> chunks_of (rest_of s) =
    if in_len s - in_pos s <? sizeof_fragmentproto_chunk_header then [] else
    if negb ((ltoh8 (is_last h) =? 0) || (ltoh8 (is_last h) =? 1)) then [] else
    if in_len s - (in_pos s + 7) <? len then [] else
    c :: chunks_of (rest_of (set_in (in_len s) (in_ s) (in_pos s + 7 + len) s)).
Proof.
  intros (El & Hp & _). assert (Hz : zlen (rest_of s) = in_len s - in_pos s) by (apply zlen_mread; lia).
  rewrite chunks_of_step, Hz. destruct (Z.ltb_spec (in_len s - in_pos s) sizeof_fragmentproto_chunk_header) as [|H7]; [done|]. unfold sizeof_fragmentproto_chunk_header in H7.
  assert (Eh : read_header (rest_of s) = h).
  { unfold h, rest_of. unfold read_header. rewrite !mread_mread by lia. done. }
  rewrite Eh. fold len. destruct (negb _); [done|]. replace (in_len s - (in_pos s + 7)) with (in_len s - in_pos s - 7) by lia.
  destruct (Z.ltb_spec (in_len s - in_pos s - 7) len); [done|]. pose proof (ltoh16_range (chunk_len h)) as Hr. fold len in Hr. unfold c, rest_of. cbn [in_len in_ in_pos set_in].
  rewrite !mread_mread by lia. do 2 f_equal; f_equal; lia.
Qed.

Lemma read_chunks_wp fuel : forall fs s, rep fs s -> frames_ok (time s) fs -> 0 <= time s <= FPA_MAX_TIME -> reading s ->
  (Z.to_nat (in_len s - in_pos s) < fuel)%nat -> wp (read_chunks fuel) s (loop_end (time s) fs s).
Proof.
  induction fuel as [|fuel IH]; intros fs s R Ho Ht Hrd Hf; [lia|]. pose proof (rest_chunks s Hrd) as Ec. pose proof Hrd as (El & Hp & Hby). cbn [read_chunks]. do 2 wp_step.
  assert (Hend : forall s', chunks_of (rest_of s) = [] -> rep fs s' -> time s' = time s -> sending s' = sending s -> wp (ret false) s' (loop_end (time s) fs s)).
  { intros s' E0 R' Et Es. wp_step. apply (LE_packet _ _ _ fs); [by rewrite E0 | done..]. }
  destruct (Z.ltb_spec (in_pos s) (in_len s)) as [Hlt|Hge]; cbn [negb].
  2: { apply Hend; try done. rewrite Ec. destruct (Z.ltb_spec (in_len s - in_pos s) sizeof_fragmentproto_chunk_header); [done | unfold sizeof_fragmentproto_chunk_header in *; lia]. }
  destruct (Z.ltb_spec (in_len s - in_pos s) sizeof_fragmentproto_chunk_header) as [H7|H7]; [by apply Hend|]. unfold sizeof_fragmentproto_chunk_header in H7 |- *.
  wp_step. apply wp_get_bytes; [lia|]. cbv zeta. set (h := read_header _) in *. do 2 wp_step.
  destruct (negb ((ltoh8 (is_last h) =? 0) || (ltoh8 (is_last h) =? 1))) eqn:Elast; [apply Hend; try done; by destruct R|].
  do 2 wp_step. cbn [in_len in_pos set_in]. set (len := ltoh16 (chunk_len h)) in *. pose proof (ltoh16_range (chunk_len h)) as Hr. fold len in Hr.
  destruct (Z.ltb_spec (in_len s - (in_pos s + 7)) len) as [|Hlen]; [apply Hend; try done; by destruct R|].
  set (c := mk_chunk _ _ _ _) in Ec. set (s1 := set_in _ _ _ s). assert (R1 : rep fs s1) by (by destruct R).
  assert (Hcl : c_len c = len) by (apply zlen_mread; lia).
  assert (Hc : chunk_ok c) by (split; [apply ltoh16_range | apply ltoh16_range | lia | by apply mread_bytes_ok]).
  assert (Elb : ltoh8 (is_last h) = Z.b2z (c_last c)) by (unfold c; cbn [c_last]; apply negb_false_iff, orb_true_iff in Elast as [E%Z.eqb_eq|E%Z.eqb_eq]; by rewrite E).
  rewrite Elb. rewrite <- Hcl. change (ltoh16 (frame_id h)) with (c_id c). change (ltoh16 (chunk_start h)) with (c_start c).
  wp_step. destruct (a_chunk mtu num_frames nchunks (time s) fs c) as [fs' d] eqn:Ea.
  eapply (process_chunk_wp fs s1 c (in_pos s + 7)); [exact Ea | exact R1 | exact Ho | exact Ht | exact Hc | cbn; lia | by rewrite Hcl |].
  intros r s2 tr (R2 & Ho2 & [T2 L2 I2 P2] & Hd). do 2 wp_step. cbn in T2, L2, I2, P2. set (s3 := set_in _ _ _ s2).
  assert (E3 : rest_of (set_in (in_len s) (in_ s) (in_pos s + 7 + len) s) = rest_of s3) by (unfold rest_of, s3; cbn; by rewrite L2, I2, P2, Hcl).
  assert (Hrd3 : reading s3) by (unfold reading, s3; cbn; rewrite L2, I2, P2; split_and!; [done | lia | lia | done]). assert (R3 : rep fs' s3) by (by destruct R2).
  rewrite E3 in Ec. destruct d as [cs|].
  - destruct Hd as [-> (f & -> & Hh)]. wp_step. cbn [app]. apply (LE_frame _ _ _ fs'); [by rewrite Ec, process_cons, Ea | exact R3 | exact Ho2 | exact T2 | exact Hrd3 | exact Hh].
  - destruct Hd as (-> & -> & Es2). cbn [app]. eapply wp_mono; [apply (IH fs' s3); [exact R3 | cbn; by rewrite T2 | cbn; lia | exact Hrd3 | unfold s3; cbn; lia]|].
    intros r s4 tr H4. cbn [time set_in s3] in H4. rewrite T2 in H4. eapply loop_end_step; [exact Ea | exact Ec | done | exact H4].
Qed.
(** *** Events *)

(** The code implements the specification; [w] are the chunks of the frame that the output
    is working on. *)
Record sim (a : spec) (w : option (list chunk)) (s : sys) : Prop := mk_sim {
  sm_rep : rep (s_frames a) s;
  sm_time : time s = s_time a;
  sm_range : 0 <= s_time a <= FPA_MAX_TIME;
  sm_ok : frames_ok (s_time a) (s_frames a);
  sm_rest : match s_rest a, w with
    | None, None => in_len s = -1 /\ sending s = None
    | Some cs, Some d => reading s /\ cs = chunks_of (rest_of s) /\ exists f, held f d s
    | _, _ => False
    end;
}.

Lemma process_input_wp fs s : rep fs s -> frames_ok (time s) fs -> 0 <= time s <= FPA_MAX_TIME -> reading s -> sending s = None ->
  wp process_input s (fun _ s' tr => exists a w, process (time s) fs (chunks_of (rest_of s)) = (a, w) /\ sim a w s' /\ tr ≫= frame_out = []).
Proof.
  intros R Ho Ht Hrd Hs. pose proof Hrd as (El & Hp & _). unfold process_input. do 4 wp_step; [lia|]. wp_step.
  eapply wp_mono; [apply (read_chunks_wp _ fs s R Ho Ht Hrd); unfold zlen in El; lia|]. intros r s' tr Hend.
  destruct Hend as [fs' s' Ep R' Ho' Et Es|fs' s' cs f Ep R' Ho' Et Hrd' Hh].
  - rewrite <- Et in Ep, Ho'. eapply (finish_packet_wp fs' s'); [exact R' | exact Ho' | lia |]. intros s2 R2 Et2 Ho2 Hr2 Hl2 Hs2.
    rewrite Et in Ep at 1. eexists _, None. split; [exact Ep|]. split; [|done]. split; try done. unfold a_finish. destruct (if _ =? _ then _ else _). cbn. split; [done | congruence].
  - wp_step. exists (mk_spec (time s) fs' (Some (chunks_of (rest_of s')))), (Some cs). split; [done|]. split; [|done].
    split; cbn; try done. split; [done|]. split; [done|]. by exists f.
Qed.

Lemma assembler_deliver_wp a w s ev : sim a w s -> enabled ev s = true ->
  wp (deliver ev) s (fun _ s' tr => exists a' w', a_enabled ev a = true /\ a_event mtu num_frames nchunks ev a = (a', w') /\ sim a' w' s' /\ Forall2 assembled (option_list w) (tr ≫= frame_out)).
Proof.
  intros [R Et Hr Ho Hrest] He. rewrite <- Et in Ho, Hr. destruct ev as [data|]; cbn [deliver enabled] in *.
  - apply andb_true_iff in He as [Hi%Z.eqb_eq Hb%bool_decide_eq_true]. destruct (s_rest a) eqn:Er, w; try done; [destruct Hrest as ((E & ? & _) & _); lia|].
    destruct Hrest as [_ Hs]. unfold input_handler_send. pose proof (zlen_nonneg data). do 4 wp_step; [lia|]. do 2 wp_step; [by rewrite Hi|]. do 2 wp_step.
    eapply wp_mono; [apply (process_input_wp (s_frames a)); [by destruct R | done | done | split_and!; cbn; done || lia | done]|].
    intros u s' tr (a' & w' & Ep & Hsim & Etr). exists a', w'. cbn [app]. split; [unfold a_enabled; rewrite Er; by apply bool_decide_eq_true|]. split; [|split; [done | rewrite Etr; constructor]].
    unfold rest_of in Ep. cbn in Ep. rewrite Z.sub_0_r, mread_all, Et in Ep. exact Ep.
  - destruct (sending s) as [[f len]|] eqn:Es; [|done]. destruct (s_rest a) as [cs|] eqn:Er, w as [d|]; try done; [|destruct Hrest; congruence].
    destruct Hrest as (Hrd & -> & g & Hs & x & Ex & Hl & Ha). rewrite Es in Hs. injection Hs as -> ->. do 2 wp_step. rewrite Es.
    wp_step. eapply wp_load; [exact Ex|]. wp_step. apply wp_get_bytes; [lia|]. do 4 wp_step. unfold output_handler_done. do 4 wp_step; [destruct Hrd; cbn; lia|].
    eapply wp_mono; [apply (process_input_wp (s_frames a)); [by destruct R | done | done | exact Hrd | done]|].
    intros u s' tr (a' & w' & Ep & Hsim & Etr). exists a', w'. split; [unfold a_enabled; by rewrite Er|]. split; [|split; [done|]].
    + cbn. rewrite Er. cbn. rewrite <- Et. exact Ep.
    + cbn. rewrite Etr. constructor; [exact Ha | constructor].
Qed.

Lemma assembler_run_sim evs : forall a w s, sim a w s ->
  exists s' steps a' w' ds ds0, run_events evs s = Some (s', steps) /\ a_run mtu num_frames nchunks (steps.*1) a = Some (a', ds) /\ sim a' w' s' /\
    option_list w ++ ds = ds0 ++ option_list w' /\ Forall2 assembled ds0 (delivered steps).
Proof.
  induction evs as [|ev evs IH]; intros a w s Hsim; cbn [run_events].
  { exists s, [], a, w, [], []. split_and!; try done; by rewrite app_nil_r. }
  destruct (enabled ev s) eqn:He.
  2: { exists s, [], a, w, [], []. split_and!; try done; by rewrite app_nil_r. }
  destruct (wp_ok _ _ _ (assembler_deliver_wp a w s ev Hsim He)) as (u & s1 & tr & -> & a1 & w1 & Eok & Ea & Hsim1 & Hd).
  destruct (IH a1 w1 s1 Hsim1) as (s' & steps & a' & w' & ds & ds0 & -> & Er & Hsim' & Eds & Hd'). cbn.
  exists s', ((ev, tr) :: steps), a', w', (option_list w1 ++ ds), (option_list w ++ ds0). split_and!; try done.
  - cbn. by rewrite Eok, Ea, Er.
  - by rewrite Eds, app_assoc.
  - unfold delivered in *. rewrite bind_cons. cbn. by apply Forall2_app.
Qed.

(** *** Initialisation *)

Lemma init_entries_wp l bufs : forall s k (Q : unit -> sys -> list out -> Prop),
  (forall f, f ∈ k -> exists x, frames s !! f = Some x /\ zlen (buffer x) = mtu) -> (forall f, is_Some (frames s !! f) -> f ∈ k) -> frames_free s = k -> NoDup (k ++ l) ->
  (forall f, zlen (bufs f) = mtu) ->
  (forall h, (forall f, f ∈ k ++ l -> exists x, h !! f = Some x /\ zlen (buffer x) = mtu) -> (forall f, is_Some (h !! f) -> f ∈ k ++ l) ->
    Q tt (set_free (k ++ l) (set_frames h s)) []) -> wp (init_entries l bufs) s Q.
Proof.
  induction l as [|f l IH]; intros s k Q Hk Hd Ef Hn Hb HQ; cbn [init_entries].
  - wp_step. rewrite app_nil_r in HQ. specialize (HQ (frames s) Hk Hd). rewrite <- Ef in HQ. by destruct s.
  - do 4 wp_step. cbn. eapply (IH _ (k ++ [f])); cbn; [| | by rewrite Ef | by rewrite <- app_assoc | done |].
    + intros g [Hg| ->%list_elem_of_singleton]%elem_of_app; [|eexists; split; [apply lookup_insert_eq | apply Hb]].
      destruct (decide (g = f)) as [->|]; [eexists; split; [apply lookup_insert_eq | apply Hb] | rewrite lookup_insert_ne by done; by apply Hk].
    + intros g. destruct (decide (g = f)) as [->|]; [intros _; apply elem_of_app; right; by left|]. rewrite lookup_insert_ne by done. intros Hg%Hd. apply elem_of_app. by left.
    + intros h Hh1 Hh2. rewrite <- app_assoc in Hh1, Hh2 |- *. exact (HQ h Hh1 Hh2).
Qed.

Lemma assembler_init_wp bufs mem (Q : bool -> sys -> list out -> Prop) :
  (forall f, zlen (bufs f) = mtu) -> (forall s, sim a_start None s -> Q true s []) -> wp (FragmentProtoAssembler_Init mtu num_frames nchunks true true (Some bufs)) mem Q.
Proof.
  intros Hb HQ. unfold FragmentProtoAssembler_Init. do 2 wp_step; [lia|]. do 2 wp_step; [lia|]. do 2 wp_step; [lia|]. do 3 wp_step.
  eapply (init_entries_wp _ bufs _ []); cbn; [by intros f ?%elem_of_nil | intros f []; by rewrite lookup_empty in * | done | apply NoDup_seqZ | done |].
  intros h Hh1 Hh2. apply HQ. split; cbn; [|done | unfold FPA_MAX_TIME; lia | constructor | done]. split; try done; unfold slots; cbn; rewrite ?app_nil_r.
  - apply NoDup_seqZ.
  - intros f. split; [|apply Hh2]. intros Hf. destruct (Hh1 f Hf) as (x & -> & _). eauto.
  - unfold zlen. rewrite length_seqZ. lia.
  - intros f x Ex. destruct (Hh1 f) as (y & Ey & Hy); [by apply Hh2|]. congruence.
  - apply t_empty_rep.
Qed.
End Rep.
End Assembler.
End Assembler.
