(* ===== verification/FragmentLink.v ===== *)
(** * FragmentLink: from the disassembler to the assembler

    What the two components of the fragment protocol give together, over a link that keeps
    the order ([fragment_roundtrip]) and over any link ([fragment_lossy_link]). *)

From S2P Require Import Prelude ByteOrder BAddr SearchTree FragmentProto FragmentProtoDisassembler FragmentProtoAssembler.

#[local] Arguments mread : simpl never.
#[local] Arguments encode_all : simpl never.

Module FragmentLink.
Import Assembler.

Section Spec.
Context (mtu num_frames nchunks : Z).

(** ** Where the chunks of a frame come from *)

Section Origin.
(** The chunks that came in. *)
Context (G : chunk -> Prop).

Definition from (i : Z) (c : chunk) : Prop := c_id c = i /\ G c.
Definition all_from (fs : list aframe) : Prop := Forall (fun a => Forall (from (a_id a)) (a_chunks a)) fs.
Definition one_from (cs : list chunk) : Prop := exists i, Forall (from i) cs.

Lemma a_find_elem i fs a : a_find i fs = Some a -> a ∈ fs /\ a_id a = i.
Proof.
  induction fs as [|b fs IH]; cbn; [done|]. destruct (Z.eqb_spec (a_id b) i) as [E|]; [intros [= <-]; split; [by left | done]|].
  intros [H1 H2]%IH. split; [by right | done].
Qed.

Lemma all_from_remove i fs : all_from fs -> all_from (a_remove i fs).
Proof. unfold all_from. rewrite !Forall_forall. intros H a [_ Ha]%list_elem_of_filter. by apply H. Qed.

Lemma all_from_new i t fs : all_from fs -> all_from (a_new num_frames i t fs).
Proof.
  intros H. apply Forall_app. split; [|by repeat constructor]. destruct (_ =? _); [|done]. destruct fs; [done|]. by apply Forall_cons in H as [_ H].
Qed.

Lemma all_from_update a fs : Forall (from (a_id a)) (a_chunks a) -> all_from fs -> all_from (a_update a fs).
Proof. intros Ha H. apply Forall_fmap. eapply Forall_impl; [exact H|]. intros b Hb. cbn. by destruct (a_id b =? a_id a). Qed.

Lemma a_open_from i t fs fs' cs : a_open num_frames i t fs = (fs', cs) -> all_from fs -> all_from fs' /\ Forall (from i) cs.
Proof.
  unfold a_open. intros E H. destruct (a_find i fs) as [a|] eqn:Ef; [destruct (timed_out num_frames t a)|]; injection E as <- <-.
  - split; [by apply all_from_new, all_from_remove | constructor].
  - apply a_find_elem in Ef as [Ha <-]. split; [done|]. unfold all_from in H. rewrite Forall_forall in H. by apply H.
  - split; [by apply all_from_new | constructor].
Qed.

Lemma a_chunk_from t fs c fs' d : a_chunk mtu num_frames nchunks t fs c = (fs', d) -> G c -> all_from fs -> all_from fs' /\ Forall one_from (option_list d).
Proof.
  unfold a_chunk. intros E Hc H. destruct (_ || _); [injection E as <- <-; split; [done | constructor]|].
  destruct (a_open num_frames (c_id c) t fs) as [fs1 cs] eqn:Eo. destruct (a_open_from _ _ _ _ _ Eo H) as [H1 Hcs].
  assert (Hcs' : Forall (from (c_id c)) (cs ++ [c])) by (apply Forall_app; split; [done | by repeat constructor]).
  destruct (negb _); [injection E as <- <-; split; [by apply all_from_remove | constructor]|].
  destruct (complete _); [injection E as <- <-; split; [by apply all_from_remove | repeat constructor; by exists (c_id c)]|].
  destruct (_ =? nchunks); injection E as <- <-; (split; [|constructor]); [by apply all_from_remove | by apply all_from_update].
Qed.

Lemma a_finish_from t fs : all_from fs -> all_from (s_frames (a_finish num_frames t fs)).
Proof.
  intros H. unfold a_finish. destruct (t =? FPA_MAX_TIME); [|done]. unfold a_reduce.
  assert (Hk : all_from (filter (fun a => timed_out num_frames t a = false) fs)).
  { unfold all_from in *. rewrite !Forall_forall in *. intros a [_ Ha]%list_elem_of_filter. by apply H. }
  destruct (filter _ fs) as [|a fs']; [constructor|]. cbn [s_frames]. by apply Forall_fmap.
Qed.

Definition good (a : spec) : Prop := all_from (s_frames a) /\ match s_rest a with Some cs => Forall G cs | None => True end.

Lemma a_process_from t fs cs a d : a_process mtu num_frames nchunks t fs cs = (a, d) -> Forall G cs -> all_from fs -> good a /\ Forall one_from (option_list d).
Proof.
  revert fs. induction cs as [|c cs IH]; intros fs; cbn [a_process].
  - intros [= <- <-] _ H. split; [|constructor]. split; [by apply a_finish_from|]. unfold a_finish. by destruct (if _ =? _ then _ else _).
  - destruct (a_chunk _ _ _ t fs c) as [fs' [d'|]] eqn:Ec; intros E [Hc Hcs]%Forall_cons H; destruct (a_chunk_from _ _ _ _ _ Ec Hc H) as [H' Hd].
    + injection E as <- <-. by split.
    + by eapply IH.
Qed.

Lemma a_run_from evs : forall a a' ds, a_run mtu num_frames nchunks evs a = Some (a', ds) -> good a ->
  (forall data c, data ∈ evs ≫= got -> c ∈ chunks_of data -> G c) -> Forall one_from ds.
Proof.
  induction evs as [|ev evs IH]; intros a a' ds; cbn [a_run]; [intros [= <- <-] _ _; constructor|].
  destruct (a_enabled ev a) eqn:He; [|done]. destruct (a_event mtu num_frames nchunks ev a) as [a1 d] eqn:Ea.
  destruct (a_run _ _ _ evs a1) as [[a2 ds']|] eqn:Er; [|done]. intros [= <- <-] [Hg Hr] HG.
  assert (H1 : good a1 /\ Forall one_from (option_list d)).
  { destruct ev as [data|]; cbn in Ea; (eapply a_process_from; [exact Ea | | exact Hg]).
    - apply Forall_forall. intros c Hc. apply (HG data); [|done]. apply elem_of_app. left. by left.
    - destruct (s_rest a); [done | constructor]. }
  destruct H1 as [H1 Hd]. apply Forall_app. split; [done|]. eapply IH; [exact Er | exact H1|].
  intros data c Hdata. apply HG. rewrite bind_cons. apply elem_of_app. by right.
Qed.
End Origin.
(** ** Chunks in order *)

Section InOrder.
Context (N : Z) (HN : N <= nchunks) (Hframes : 0 < num_frames < FPA_MAX_TIME).

(** Part of the front [pre] of a frame, but not its end. *)
Definition front (pre : list Z) (c : chunk) : Prop :=
  c_last c = false /\ 0 <= c_start c /\ c_end c <= zlen pre /\ mread pre (c_start c) (c_len c) = c_data c.

(** The assembler is at [x]: it has the frame of which a part went by, and no other;
    [late]: since when. *)
Definition at_place (late : Z) (x : place) (t : Z) (fs : list aframe) : Prop :=
  (pl_n x = 0 /\ pl_data x = [] /\ fs = []) \/
  (0 < pl_n x /\ exists tm cs, fs = [mk_aframe (pl_id x) tm cs] /\ 0 <= tm <= t /\ t - tm <= late /\ zlen cs = pl_n x /\
    Forall (front (pl_data x)) cs /\ total cs = zlen (pl_data x)).

Lemma front_more pre d c : front pre c -> front (pre ++ d) c.
Proof.
  intros (H1 & H2 & H3 & H4). pose proof (zlen_nonneg d). pose proof (c_len_nonneg c). unfold front, c_end in *. rewrite zlen_app. split_and!; [done | done | lia |].
  rewrite <- H4. unfold mread. rewrite !take_drop_commute. f_equal. rewrite take_app_le; [done|]. unfold zlen in *. lia.
Qed.

Lemma front_part p c : front p c -> part p c.
Proof. intros (H1 & H2 & H3 & H4). split; try done. congruence. Qed.

Lemma front_length pre cs : Forall (front pre) cs -> frame_length cs = -1.
Proof. induction 1 as [|c cs (Hc & _) _ IH]; cbn [frame_length]; [done|]. by rewrite Hc. Qed.

Lemma front_bound pre cs : Forall (front pre) cs -> bound cs <= zlen pre.
Proof.
  intros H. apply bound_le; [|apply zlen_nonneg|]; (eapply Forall_impl; [exact H|]); by intros c (? & ? & ? & ?).
Qed.

Lemma front_apart pre cs id l d : Forall (front pre) cs -> existsb (overlaps (mk_chunk id (zlen pre) l d)) cs = false.
Proof.
  induction 1 as [|c cs (H1 & H2 & H3 & H4) _ IH]; cbn [existsb]; [done|]. rewrite IH, orb_false_r. unfold overlaps. cbn [c_start].
  destruct (Z.gtb_spec (c_end c) (zlen pre)); [lia | done].
Qed.

(** The frame of the next chunk. *)
Lemma at_open x t fs : at_place 1 x t fs -> exists tm cs, a_open num_frames (pl_id x) t fs = ([mk_aframe (pl_id x) tm cs], cs) /\
  Forall (front (pl_data x)) cs /\ total cs = zlen (pl_data x) /\ zlen cs = pl_n x /\ (pl_n x = 0 -> cs = []).
Proof.
  intros [(E1 & E2 & ->)|(Hn & tm & cs & -> & Ht & Hl & Hz & Hf & Htot)].
  - exists t, []. rewrite E1, E2. split_and!; try done. cbn. unfold a_new. cbn. destruct (Z.eqb_spec (zlen (@nil aframe)) num_frames) as [E|]; [|done].
    rewrite zlen_nil in E. lia.
  - exists tm, cs. split_and!; try done; [|lia]. unfold a_open. cbn [a_find a_id]. rewrite Z.eqb_refl. unfold timed_out. cbn. by destruct (Z.gtb_spec (t - tm) num_frames); [lia|].
Qed.

Lemma a_remove_one i tm cs : a_remove i [mk_aframe i tm cs] = [].
Proof. unfold a_remove. by rewrite filter_cons_False by (cbn; intros H; by destruct H). Qed.

(** A chunk that is not the last of its frame, and one that is. *)
Lemma at_more id n pre d t fs : at_place 1 (mk_place id n pre) t fs -> 0 <= n -> n + 1 < N -> zlen (pre ++ d) <= mtu -> 0 <= t ->
  exists fs', a_chunk mtu num_frames nchunks t fs (mk_chunk id (zlen pre) false d) = (fs', None) /\ at_place 0 (mk_place id (n + 1) (pre ++ d)) t fs'.
Proof.
  intros Ha Hn HnN Hm Ht. destruct (at_open _ _ _ Ha) as (tm & cs & Eo & Hf & Htot & Hz & _). cbn [pl_id pl_n pl_data] in *.
  pose proof (zlen_nonneg pre). pose proof (zlen_nonneg d). rewrite zlen_app in Hm. unfold a_chunk. cbn [c_start c_id c_len c_data c_last]. unfold c_len. cbn [c_data].
  destruct (Z.gtb_spec (zlen pre) mtu); [lia|]. destruct (Z.gtb_spec (zlen d) (mtu - zlen pre)); [lia|]. cbn [orb]. rewrite Eo.
  assert (Hfit : fits cs (mk_chunk id (zlen pre) false d) = true).
  { unfold fits. rewrite (front_apart pre) by done. cbn [c_last]. by rewrite (front_length pre). }
  rewrite Hfit. cbn [negb]. assert (Hf' : Forall (front (pre ++ d)) (cs ++ [mk_chunk id (zlen pre) false d])).
  { apply Forall_app. split; [eapply Forall_impl; [exact Hf|]; intros c; apply front_more|]. constructor; [|constructor].
    unfold front, c_end, c_len. cbn [c_start c_data c_last]. rewrite zlen_app. split_and!; [done | lia | lia |]. rewrite <- (app_nil_r d) at 1. by apply mread_app_at. }
  unfold complete. rewrite (front_length _ _ Hf'). cbn [andb]. change (0 <=? -1) with false. cbn [andb].
  assert (Hz' : zlen (cs ++ [mk_chunk id (zlen pre) false d]) = n + 1) by (rewrite zlen_app, Hz; done). rewrite Hz'. destruct (Z.eqb_spec (n + 1) nchunks); [lia|].
  eexists. split; [done|]. right. cbn [pl_n pl_id pl_data]. split; [lia|]. exists t. eexists. unfold a_update. cbn. rewrite Z.eqb_refl. split_and!; [done | lia | lia | lia | exact Hz' | exact Hf' |].
  rewrite total_chunks_app, Htot, zlen_app. cbn. unfold c_len. cbn. lia.
Qed.

Lemma at_last id n pre d t fs : at_place 1 (mk_place id n pre) t fs -> zlen (pre ++ d) <= mtu ->
  exists cs, a_chunk mtu num_frames nchunks t fs (mk_chunk id (zlen pre) true d) = ([], Some cs) /\ Forall (part (pre ++ d)) cs.
Proof.
  intros Ha Hm. destruct (at_open _ _ _ Ha) as (tm & cs & Eo & Hf & Htot & Hz & _). cbn [pl_id pl_n pl_data] in *.
  pose proof (zlen_nonneg pre). pose proof (zlen_nonneg d). pose proof Hm as Hm'. rewrite zlen_app in Hm. unfold a_chunk. cbn [c_start c_id c_len c_data c_last]. unfold c_len. cbn [c_data].
  destruct (Z.gtb_spec (zlen pre) mtu); [lia|]. destruct (Z.gtb_spec (zlen d) (mtu - zlen pre)); [lia|]. cbn [orb]. rewrite Eo. set (c := mk_chunk id (zlen pre) true d).
  assert (Ee : c_end c = zlen pre + zlen d) by done. assert (Hs : starts_ok cs) by (eapply Forall_impl; [exact Hf|]; by intros x (_ & ? & _)).
  assert (Hfit : fits cs c = true).
  { unfold fits. rewrite (front_apart pre cs id true d Hf : existsb (overlaps c) cs = false). cbn [c_last c]. rewrite (front_length pre) by done. pose proof (front_bound _ _ Hf). rewrite Ee.
    by destruct (Z.leb_spec (bound cs) (zlen pre + zlen d)); [|lia]. }
  rewrite Hfit. cbn [negb]. assert (Hc : complete (cs ++ [c]) = true).
  { unfold complete. rewrite frame_length_snoc, (front_length pre), total_chunks_app, Htot by done. change (0 <=? -1) with false. cbn [c_last c total]. rewrite Ee. change (c_len c) with (zlen d).
    apply andb_true_iff. split; apply Z.leb_le; lia. }
  rewrite Hc, a_remove_one. eexists. split; [done|]. apply Forall_app. split; [eapply Forall_impl; [exact Hf|]; intros x Hx; by apply front_part, front_more|].
  constructor; [|constructor]. by apply part_front.
Qed.
Lemma at_place_late x t fs : at_place 0 x t fs -> at_place 1 x t fs.
Proof.
  intros [H|(Hn & tm & cs & -> & H1 & H2 & H)]; [by left|]. right. split; [done|]. exists tm, cs. split; [done|]. split; [done|]. split; [lia | done].
Qed.

Definition short (cs : list chunk) : Prop := Forall (fun c => c_end c <= mtu) cs.

Lemma end_of_chunk (pre d : list Z) id l : c_end (mk_chunk id (zlen pre) l d) = zlen (pre ++ d).
Proof. unfold c_end, c_len. cbn. by rewrite zlen_app. Qed.

(** Until the packet or a frame is finished. *)
Lemma process_flow q x t fs ps y : flow N x ps q y -> 0 <= t -> 0 <= pl_n x -> at_place 1 x t fs -> (q = [] -> at_place 0 x t fs) -> short q ->
  (ps = [] /\ 0 <= pl_n y /\ exists fs', a_process mtu num_frames nchunks t fs q = (a_finish num_frames t fs', None) /\ at_place 0 y t fs') \/
  (exists p ps' cs rest z, ps = p :: ps' /\ a_process mtu num_frames nchunks t fs q = (mk_spec t [] (Some rest), Some cs) /\ Forall (part p) cs /\
    pl_n z = 0 /\ pl_data z = [] /\ flow N z ps' rest y /\ short rest).
Proof.
  intros Hf Ht. revert fs. induction Hf as [x|id n pre d ps cs y Hd Hn Hf IH|id n pre d ps cs y Hn Hf IH]; intros fs H0 Ha Hfresh Hs.
  - left. split; [done|]. split; [done|]. exists fs. split; [done | by apply Hfresh].
  - apply Forall_cons in Hs as [Hc Hs]. rewrite end_of_chunk in Hc. cbn [pl_n] in *. destruct (at_more id n pre d t fs Ha H0 Hn Hc Ht) as (fs' & Ec & Ha').
    destruct (IH fs') as [H|H]; [lia | by apply at_place_late | done | done | |].
    + left. destruct H as (-> & Hy & fs2 & Ep & H). split; [done|]. split; [done|]. exists fs2. cbn [a_process]. by rewrite Ec.
    + right. destruct H as (p & ps' & cs' & rest & z & -> & Ep & H). exists p, ps', cs', rest, z. split; [done|]. cbn [a_process]. by rewrite Ec.
  - apply Forall_cons in Hs as [Hc Hs]. rewrite end_of_chunk in Hc. destruct (at_last id n pre d t fs Ha Hc) as (cs' & Ec & Hp). right.
    exists (pre ++ d), ps, cs', cs, (mk_place (u16 (id + 1)) 0 []). split; [done|]. cbn [a_process]. by rewrite Ec.
Qed.

Lemma a_finish_eq t fs : a_finish num_frames t fs =
  mk_spec (fst (if t =? FPA_MAX_TIME then a_reduce num_frames t fs else (t + 1, fs))) (snd (if t =? FPA_MAX_TIME then a_reduce num_frames t fs else (t + 1, fs))) None.
Proof. unfold a_finish. by destruct (if _ =? _ then _ else _). Qed.

Lemma finish_place y t fs : 0 <= t -> at_place 0 y t fs -> at_place 1 y (s_time (a_finish num_frames t fs)) (s_frames (a_finish num_frames t fs)) /\
  0 <= s_time (a_finish num_frames t fs) /\ s_rest (a_finish num_frames t fs) = None.
Proof.
  intros Ht Ha. rewrite a_finish_eq. cbn [s_time s_frames s_rest]. destruct (Z.eqb_spec t FPA_MAX_TIME) as [E|E]; cbn [fst snd].
  - destruct Ha as [(E1 & E2 & ->)|(Hn & tm & cs & -> & H1 & H2 & H3)]; [split; [by left | done]|]. unfold a_reduce.
    rewrite filter_cons_True by (unfold timed_out; cbn; destruct (Z.gtb_spec (t - tm) num_frames); [lia | done]). cbn. split; [|split; [lia | done]].
    right. split; [done|]. exists (tm - tm), cs. split; [done|]. split; [lia|]. split; [lia | done].
  - split; [|split; [lia | done]]. destruct Ha as [H|(Hn & tm & cs & -> & H1 & H2 & H3)]; [by left|]. right. split; [done|]. exists tm, cs.
    split; [done|]. split; [lia|]. split; [lia | done].
Qed.

(** Between events: the frames [ps] are still to come from the packets [qs]. *)
Definition ready (x : place) (ps : list (list Z)) (qs : list (list chunk)) (y : place) (a : spec) : Prop :=
  0 <= s_time a /\ 0 <= pl_n x /\ Forall (fun q => q <> [] /\ Forall chunk_ok q /\ short q) qs /\
  match s_rest a with
  | None => at_place 1 x (s_time a) (s_frames a) /\ flow N x ps (concat qs) y
  | Some rest => s_frames a = [] /\ pl_n x = 0 /\ pl_data x = [] /\ short rest /\ flow N x ps (rest ++ concat qs) y
  end.

Lemma ready_process x ps q qs y t fs : flow N x ps (q ++ concat qs) y -> 0 <= t -> 0 <= pl_n x -> at_place 1 x t fs -> (q = [] -> at_place 0 x t fs) -> short q ->
  Forall (fun q => q <> [] /\ Forall chunk_ok q /\ short q) qs ->
  exists a d ps1 ps2 z, a_process mtu num_frames nchunks t fs q = (a, d) /\ ps = ps1 ++ ps2 /\ Forall2 (fun cs p => Forall (part p) cs) (option_list d) ps1 /\ ready z ps2 qs y a.
Proof.
  intros Hf Ht Hn Ha Hfresh Hs Hqs. destruct (flow_split _ _ _ _ _ _ Hf) as (ps1 & ps2 & z & -> & Hf1 & Hf2).
  destruct (process_flow q x t fs ps1 z Hf1 Ht Hn Ha Hfresh Hs) as [(-> & Hz & fs' & Ep & Hp)|(p & ps' & cs & rest & z' & -> & Ep & Hp & Hz1 & Hz2 & Hf' & Hs')].
  - exists (a_finish num_frames t fs'), None, [], ps2, z. split; [exact Ep|]. split; [done|]. split; [constructor|]. destruct (finish_place _ _ _ Ht Hp) as (H1 & H2 & H3).
    unfold ready. rewrite H3. done.
  - eexists _, (Some cs), [p], (ps' ++ ps2), z'. split; [exact Ep|]. split; [done|]. split; [by constructor|]. unfold ready. cbn. split_and!; [done | lia | done..|]. by eapply flow_app.
Qed.

Lemma ready_run evs : forall x ps qs qs1 qs2 y a a' ds, ready x ps qs y a -> a_run mtu num_frames nchunks evs a = Some (a', ds) ->
  qs = qs1 ++ qs2 -> evs ≫= got = encode_all <$> qs1 ->
  exists ps1 ps2 x', ps = ps1 ++ ps2 /\ Forall2 (fun cs p => Forall (part p) cs) ds ps1 /\ ready x' ps2 qs2 y a'.
Proof.
  induction evs as [|ev evs IH]; intros x ps qs qs1 qs2 y a a' ds Hr; cbn [a_run].
  { intros [= <- <-] -> Hg. destruct qs1; [|done]. exists [], ps, x. done. }
  destruct (a_enabled ev a) eqn:He; [|done]. destruct (a_event mtu num_frames nchunks ev a) as [a1 d] eqn:Ea.
  destruct (a_run _ _ _ evs a1) as [[a2 ds']|] eqn:Er; [|done]. intros [= <- <-] -> Hg. destruct Hr as (Ht & Hn & Hqs & Hr).
  assert (Hstep : forall q qs1', short q -> flow N x ps (q ++ concat (qs1' ++ qs2)) y -> a_process mtu num_frames nchunks (s_time a) (s_frames a) q = (a1, d) ->
    at_place 1 x (s_time a) (s_frames a) -> (q = [] -> at_place 0 x (s_time a) (s_frames a)) -> Forall (fun q => q <> [] /\ Forall chunk_ok q /\ short q) (qs1' ++ qs2) ->
    evs ≫= got = encode_all <$> qs1' -> exists ps1 ps2 x', ps = ps1 ++ ps2 /\ Forall2 (fun cs p => Forall (part p) cs) (option_list d ++ ds') ps1 /\ ready x' ps2 qs2 y a2).
  { intros q qs1' Hs Hf Ep Hp Hfresh Hqs' Hg'. destruct (ready_process _ _ _ _ _ _ _ Hf Ht Hn Hp Hfresh Hs Hqs') as (a3 & d3 & ps1 & ps2 & z & Ep3 & -> & Hd & Hr3).
    rewrite Ep in Ep3. injection Ep3 as <- <-. destruct (IH _ _ _ qs1' qs2 _ _ _ _ Hr3 Er eq_refl Hg') as (ps3 & ps4 & x' & -> & Hd' & Hr').
    exists (ps1 ++ ps3), ps4, x'. split; [by rewrite app_assoc|]. split; [by apply Forall2_app | done]. }
  destruct ev as [data|]; cbn in He, Ea; unfold a_enabled in He; destruct (s_rest a) as [rest|] eqn:Es; try done.
  - destruct Hr as [Hp Hf]. rewrite bind_cons in Hg. destruct qs1 as [|q qs1]; [done|]. injection Hg as -> Hg. apply Forall_cons in Hqs as [(Hq & Hok & Hs) Hqs].
    rewrite (chunks_of_encode q Hok) in Ea. by apply (Hstep q qs1).
  - destruct Hr as (Hfs & Hn0 & Hd0 & Hs & Hf). cbn in Ea. apply (Hstep rest qs1); try done; [by left | intros _; by left].
Qed.
End InOrder.
End Spec.
(** ** The properties *)

Definition sep_ids : Separates id_ok compare_ids.
Proof. intros x y _ _. unfold compare_ids. destruct (b_compare_spec x y) as [[? ->]|[[? ->]|[? ->]]]; lia. Qed.

(** The parameters of [FragmentProtoDisassembler_Init] and [FragmentProtoAssembler_Init]. *)
Record dis_params (in_mtu out_mtu c_mtu : Z) : Prop := mk_dis_params {
  dp_in : 0 <= in_mtu <= UINT16_MAX;
  dp_out : sizeof_fragmentproto_chunk_header < out_mtu;
  dp_chunk : c_mtu <> 0;
}.
Record asm_params (mtu num_frames nchunks : Z) (bufs : Z -> list Z) : Prop := mk_asm_params {
  ap_mtu : 0 <= mtu;
  ap_frames : 0 < num_frames < FPA_MAX_TIME;
  ap_chunks : 0 < nchunks;
  ap_bufs f : zlen (bufs f) = mtu;
}.

(** How many chunks a frame may have. *)
Definition most_chunks (in_mtu out_mtu c_mtu : Z) : Z :=
  if c_mtu <? 0 then fragmentproto_max_chunks_for_frame out_mtu in_mtu else Z.max 1 in_mtu.

Definition start : place := mk_place 0 0 [].

Lemma disassembler_run N in_mtu out_mtu c_mtu lat evs mem : dis_params in_mtu out_mtu c_mtu -> most_chunks in_mtu out_mtu c_mtu <= N ->
  exists s steps g ps qs cur m, Disassembler.run in_mtu out_mtu c_mtu lat evs mem = Some (s, steps) /\
    Disassembler.inv N in_mtu out_mtu c_mtu lat g ps qs cur m s /\ Disassembler.packets steps = encode_all <$> qs /\
    Forall (fun d => zlen d <= in_mtu) (Disassembler.inputs steps) /\
    (Disassembler.no_cancel evs -> g = true /\ ps ++ Disassembler.pending s = Disassembler.inputs steps).
Proof.
  intros [H1 H2 H3] HN. unfold Disassembler.run.
  destruct (wp_ok _ _ _ (Disassembler.disassembler_init_wp N in_mtu out_mtu c_mtu lat mem (fun _ s _ => Disassembler.inv N in_mtu out_mtu c_mtu lat true [] [] [] 0 s /\ Disassembler.pending s = []) H1 H2 H3
    ltac:(unfold most_chunks in HN; destruct (Z.ltb_spec c_mtu 0); [left | right]; done) (fun s I E => conj I E))) as (u & s0 & tr & -> & I & Ep).
  destruct (Disassembler.disassembler_run_inv N in_mtu out_mtu c_mtu lat evs true [] [] [] 0 s0 I) as (s & steps & g & ps & qs & cur & m & E & I' & Epk & Hsm & Hn).
  exists s, steps, g, ps, qs, cur, m. split_and!; try done. intros Hc. destruct (Hn Hc) as [-> E']. split; [done|]. by rewrite E', Ep.
Qed.

Lemma received_got (steps : list (event * list out)) : received steps = steps.*1 ≫= got.
Proof. unfold received. by rewrite list_bind_fmap || (induction steps as [|st steps IH]; [done|]; rewrite fmap_cons, !bind_cons, IH). Qed.

Lemma sim_idle {ST : SearchTree id_ok compare_ids} mtu num_frames nchunks a w s : sim mtu num_frames nchunks a w s -> in_len s = -1 -> s_rest a = None /\ w = None.
Proof.
  intros Hs Hi. pose proof (sm_rest _ _ _ _ _ _ Hs) as Hr. destruct (s_rest a), w; try done. destruct Hr as ((E & _) & _).
  pose proof (zlen_nonneg (in_ s)). lia.
Qed.

(** What is made of the parts of frames is those frames. *)
Lemma assembled_frames ds0 : forall D l ps, Forall2 assembled ds0 D -> Forall2 (fun cs p => Forall (part p) cs) (ds0 ++ l) ps ->
  exists ps', ps = D ++ ps' /\ length ps' = length l.
Proof.
  induction ds0 as [|cs ds0 IH]; intros D l ps Ha Hp.
  - apply Forall2_nil_inv_l in Ha as ->. exists ps. split; [done|]. symmetry. by eapply Forall2_length.
  - apply Forall2_cons_inv_l in Ha as (d & D' & Hd & Ha & ->). apply Forall2_cons_inv_l in Hp as (p & ps0 & Hc & Hp & ->).
    destruct (IH _ _ _ Ha Hp) as (ps' & -> & E). exists ps'. split; [|done]. by rewrite (assembled_parts _ _ _ Hd Hc).
Qed.

(** The part of the frame in work that was written. *)
Lemma here_prefix N in_mtu out_mtu c_mtu lat g ps qs cur m s : Disassembler.inv N in_mtu out_mtu c_mtu lat g ps qs cur m s ->
  match Disassembler.pending s with
  | [] => pl_data (Disassembler.here s m) = []
  | p :: _ => pl_data (Disassembler.here s m) `prefix_of` p
  end /\ zlen (Disassembler.pending s) <= 1.
Proof.
  intros _. unfold Disassembler.pending, Disassembler.here. destruct (_ =? -1); [done|]. split; [|done].
  cbn. unfold mread. cbn. apply prefix_take.
Qed.

Lemma part_empty p c : part [] c -> c_last c = false -> part p c.
Proof.
  intros [H1 H2 H3 _] Hl. pose proof (c_len_nonneg c) as H0. unfold c_end in H2. rewrite zlen_nil in H2. pose proof (zlen_nonneg p).
  assert (E : c_len c = 0) by lia. split; [done | unfold c_end; lia | | congruence]. rewrite E. unfold mread. cbn. symmetry. apply nil_length_inv.
  unfold c_len, zlen in E. lia.
Qed.

(** No chunk goes past the end of its frame, whole or not. *)
Lemma flow_short mtu in_mtu ps y cs : 0 <= in_mtu <= mtu -> Forall (fun p => zlen p <= in_mtu) ps -> zlen (pl_data y) <= in_mtu ->
  Forall (part_of 0 ps y) cs -> Forall (fun c => c_end c <= mtu) cs.
Proof.
  intros Hm Hps Hy H. eapply Forall_impl; [exact H|]. intros c [(j & p & Hj & _ & Hp)|(_ & _ & Hp)]; pose proof (pt_end _ _ Hp); [|lia].
  rewrite Forall_forall in Hps. specialize (Hps p (list_elem_of_lookup_2 _ _ _ Hj)). lia.
Qed.

Lemma chunks_short N in_mtu out_mtu c_mtu lat ps qs cur m s mtu : Disassembler.inv N in_mtu out_mtu c_mtu lat true ps qs cur m s -> 0 <= in_mtu <= mtu ->
  Forall (fun p => zlen p <= in_mtu) (ps ++ Disassembler.pending s) ->
  Forall (part_of 0 ps (Disassembler.here s m)) (concat qs ++ cur) /\ Forall (fun c => c_end c <= mtu) (concat qs ++ cur).
Proof.
  intros I Hm [Hps Hpe]%Forall_app. pose proof (flow_parts N start ps _ _ ltac:(done) (Disassembler.i_flow _ _ _ _ _ _ _ _ _ _ _ I eq_refl)) as Hf.
  split; [done|]. eapply flow_short; [exact Hm | exact Hps | | exact Hf]. destruct (here_prefix _ _ _ _ _ _ _ _ _ _ _ I) as [Hh _].
  destruct (Disassembler.pending s) as [|p ?]; [rewrite Hh, zlen_nil; lia|]. apply Forall_cons in Hpe as [Hp _]. apply prefix_length in Hh. unfold zlen in *. lia.
Qed.
(** The last chunk of a frame says which one it is. *)
Lemma one_frame N in_mtu out_mtu c_mtu lat ps qs cur m s cs D : Disassembler.inv N in_mtu out_mtu c_mtu lat true ps qs cur m s ->
  zlen (ps ++ Disassembler.pending s) <= 65536 -> one_from (fun c => c ∈ concat qs) cs -> assembled cs D -> D ∈ ps.
Proof.
  intros I Hl (i & Hi) Has. pose proof (Disassembler.i_flow _ _ _ _ _ _ _ _ _ _ _ I eq_refl) as Hf.
  pose proof (flow_id N start _ _ _ ltac:(done) Hf) as Eid. pose proof (flow_parts N start _ _ _ ltac:(done) Hf) as Hp. cbn [pl_id] in *.
  apply Forall_app in Hp as [Hp _]. rewrite Forall_forall in Hi, Hp. destruct (here_prefix _ _ _ _ _ _ _ _ _ _ _ I) as [Hh _]. rewrite zlen_app in Hl.
  pose proof (zlen_nonneg (Disassembler.pending s)). destruct (as_last _ _ Has) as (l & Hlc & Hll & _). destruct (Hi l Hlc) as [Eli Hlq].
  assert (Hin : forall c, c ∈ concat qs -> part_of 0 ps (Disassembler.here s m) c) by (intros c Hc; apply Hp, Hc).
  destruct (Hin l Hlq) as [(j & p & Hj & Ej & Hpl)|(_ & Hn & _)]; [|congruence]. pose proof (lookup_lt_Some _ _ _ Hj) as Hjl.
  assert (Ei : i = Z.of_nat j) by (rewrite <- Eli, Ej; apply u16_id; unfold zlen in *; lia).
  rewrite (assembled_parts cs D p Has); [by eapply list_elem_of_lookup_2|]. apply Forall_forall. intros c Hc. destruct (Hi c Hc) as [Eci Hcq].
  destruct (Hin c Hcq) as [(k & p' & Hk & Ek & Hpc)|(Ec & Hcl & Hpc)].
  - pose proof (lookup_lt_Some _ _ _ Hk) as Hkl. assert (k = j); [|congruence]. rewrite u16_id in Ek by (unfold zlen in *; lia). lia.
  - destruct (Disassembler.pending s) as [|p' ?]; [rewrite Hh in Hpc; by apply part_empty|]. rewrite zlen_cons in Hl. pose proof (zlen_nonneg l0).
        change (pl_id start) with 0 in Eid. rewrite Eid, u16_id in Ec by (unfold zlen in *; lia). exfalso. unfold zlen in *. lia.
Qed.

Lemma delivered_sent N in_mtu out_mtu c_mtu lat ps qs cur m s ds D : Disassembler.inv N in_mtu out_mtu c_mtu lat true ps qs cur m s ->
  zlen (ps ++ Disassembler.pending s) <= 65536 -> Forall2 assembled ds D -> Forall (one_from (fun c => c ∈ concat qs)) ds -> Forall (fun p => p ∈ ps) D.
Proof.
  intros I Hl. induction 1 as [|cs d ds D Hd _ IH]; intros Hf; [constructor|]. apply Forall_cons in Hf as [Hc Hf]. constructor; [|by apply IH].
  by eapply one_frame.
Qed.
Section Theorems.
Context {ST : SearchTree id_ok compare_ids}.

Lemma assembler_run mtu num_frames nchunks bufs evs mem : asm_params mtu num_frames nchunks bufs ->
  exists s steps a w ds ds0, run mtu num_frames nchunks bufs evs mem = Some (s, steps) /\ a_run mtu num_frames nchunks (steps.*1) a_start = Some (a, ds) /\
    sim mtu num_frames nchunks a w s /\ ds = ds0 ++ option_list w /\ Forall2 assembled ds0 (delivered steps).
Proof.
  intros [H1 H2 H3 H4]. unfold run.
  destruct (wp_ok _ _ _ (assembler_init_wp mtu num_frames nchunks H2 H3 bufs mem (fun b s _ => sim mtu num_frames nchunks a_start None s) H4 (fun s H => H))) as (b & s0 & tr & -> & Hs).
  destruct (assembler_run_sim mtu num_frames nchunks H2 H3 evs a_start None s0 Hs) as (s & steps & a & w & ds & ds0 & E & Er & Hs' & Eds & Hd).
  exists s, steps, a, w, ds, ds0. split_and!; try done.
Qed.
(** C19. The disassembler never fails; each packet it gives out is at least one chunk, as the
    format has them, and no longer than the output MTU.  What waits in the block has the
    timer running.  While no packet is taken back, the chunks that came out and those in
    the block are, in order, those of the packets that were put in. *)
Theorem disassembler_stream in_mtu out_mtu c_mtu lat evs mem : dis_params in_mtu out_mtu c_mtu ->
  exists s steps qs cur m, Disassembler.run in_mtu out_mtu c_mtu lat evs mem = Some (s, steps) /\
    Disassembler.packets steps = encode_all <$> qs /\
    Forall (fun q => q <> [] /\ Forall chunk_ok q /\ zlen (encode_all q) <= out_mtu) qs /\
    match Disassembler.out_ s with
    | None => cur = []
    | Some b => mread b 0 (Disassembler.out_used s) = encode_all cur /\ Disassembler.out_used s + sizeof_fragmentproto_chunk_header < out_mtu
    end /\
    Disassembler.timer s = bool_decide (cur <> []) /\ (lat < 0 -> cur = []) /\
    (Disassembler.no_cancel evs -> exists ps, ps ++ Disassembler.pending s = Disassembler.inputs steps /\
      flow (most_chunks in_mtu out_mtu c_mtu) start ps (concat qs ++ cur) (Disassembler.here s m)).
Proof.
  intros Hd. destruct (disassembler_run _ in_mtu out_mtu c_mtu lat evs mem Hd (Z.le_refl _)) as (s & steps & g & ps & qs & cur & m & E & I & Ep & _ & Hn).
  exists s, steps, qs, cur, m. destruct I as [P HN Hin Hout Ht Hl Hqs Hf]. destruct (Disassembler.p_same _ _ _ _ _ P) as (_ & Eo & _ & El).
  split_and!; [done | done | by rewrite <- Eo | | done | |].
  - destruct (Disassembler.out_ s); [|done]. destruct Hout as [(_ & _ & Hb & _) Ho]. split; [done|]. unfold Disassembler.OUT_AVAIL in Ho. lia.
  - intros Hlat. destruct cur as [|c cur]; [done|]. specialize (Hl ltac:(done)). lia.
  - intros [-> Hi]%Hn. exists ps. split; [done | by apply Hf].
Qed.

(** C17. The assembler never fails, whatever the packets hold, and what it does is what its
    specification does: it keeps the same partial frames, and it delivers, one by one, the
    frames that are made of the sets of chunks that the specification completes; the last
    may still wait for the output. *)
Theorem assembler_refines mtu num_frames nchunks bufs evs mem : asm_params mtu num_frames nchunks bufs ->
  exists s steps a w ds ds0, run mtu num_frames nchunks bufs evs mem = Some (s, steps) /\ a_run mtu num_frames nchunks (steps.*1) a_start = Some (a, ds) /\
    sim mtu num_frames nchunks a w s /\ ds = ds0 ++ option_list w /\ Forall2 assembled ds0 (delivered steps).
Proof. apply assembler_run. Qed.

Lemma in_order_run N in_mtu out_mtu c_mtu lat ps qs1 qs2 cur m s mtu num_frames nchunks aevs a ds :
  Disassembler.inv N in_mtu out_mtu c_mtu lat true ps (qs1 ++ qs2) cur m s -> 0 <= in_mtu <= mtu -> N <= nchunks -> 0 < num_frames < FPA_MAX_TIME ->
  Forall (fun p => zlen p <= in_mtu) (ps ++ Disassembler.pending s) ->
  a_run mtu num_frames nchunks aevs a_start = Some (a, ds) -> aevs ≫= got = encode_all <$> qs1 ->
  exists ps1 ps2, ps = ps1 ++ ps2 /\ Forall2 (fun cs p => Forall (part p) cs) ds ps1 /\ (qs2 = [] -> cur = [] -> s_rest a = None -> ps2 = []).
Proof.
  intros I Hm HN Hnf Hps Er Hg. destruct (chunks_short _ _ _ _ _ _ _ _ _ _ mtu I Hm Hps) as [_ [Hs _]%Forall_app].
  destruct (flow_split _ _ _ _ _ _ (Disassembler.i_flow _ _ _ _ _ _ _ _ _ _ _ I eq_refl)) as (psa & psb & y & -> & Hfa & Hfb).
  assert (Hr : ready mtu N start psa (qs1 ++ qs2) y a_start).
  { split; [done|]. split; [done|]. split; [|split; [by left | exact Hfa]]. pose proof (Disassembler.i_qs _ _ _ _ _ _ _ _ _ _ _ I) as Hq.
    rewrite Forall_forall in Hq |- *. intros q Hin. destruct (Hq q Hin) as (H1 & H2 & _). split_and!; [done | done |].
    apply Forall_forall. intros c Hc. rewrite Forall_forall in Hs. apply Hs, list_elem_of_In, in_concat. exists q. by rewrite <- !list_elem_of_In. }
  destruct (ready_run mtu num_frames nchunks N HN Hnf aevs _ _ _ qs1 qs2 _ _ _ _ Hr Er eq_refl Hg) as (ps1 & ps2 & x' & -> & Hd & Hr').
  exists ps1, (ps2 ++ psb). split; [by rewrite app_assoc|]. split; [done|]. intros -> -> Ea. destruct Hr' as (_ & _ & _ & Hr'). rewrite Ea in Hr'.
  destruct Hr' as [_ Hf']. cbn in Hf'. inversion Hf'; subst. by inversion Hfb.
Qed.

(** C16. Over a link that keeps the order and loses nothing, when no packet is taken back
    from the disassembler, its input MTU is at most the assembler's output MTU and the
    assembler has room for the chunks of the longest frame: the frames the assembler
    delivers are, in order, the packets that were put into the disassembler; all of them
    once the link is empty, the timer is off and nobody waits for an output.  (A packet
    taken back leaves its frame number to the next one, see [cancel_mixes_frames].) *)
Theorem fragment_roundtrip in_mtu out_mtu c_mtu lat devs dmem mtu num_frames nchunks bufs amem :
  dis_params in_mtu out_mtu c_mtu -> asm_params mtu num_frames nchunks bufs ->
  in_mtu <= mtu -> most_chunks in_mtu out_mtu c_mtu <= nchunks -> Disassembler.no_cancel devs ->
  exists d dsteps, Disassembler.run in_mtu out_mtu c_mtu lat devs dmem = Some (d, dsteps) /\
    forall aevs, exists a asteps, run mtu num_frames nchunks bufs aevs amem = Some (a, asteps) /\
      (received asteps `prefix_of` Disassembler.packets dsteps ->
        delivered asteps `prefix_of` Disassembler.inputs dsteps /\
        (received asteps = Disassembler.packets dsteps -> in_len a = -1 -> Disassembler.in_len d = -1 -> Disassembler.timer d = false ->
          delivered asteps = Disassembler.inputs dsteps)).
Proof.
  intros Hd Ha Hmtu HN Hc. destruct (disassembler_run _ in_mtu out_mtu c_mtu lat devs dmem Hd HN) as (d & dsteps & g & ps & qs & cur & m & E & I & Ep & Hsm & Hn).
  destruct (Hn Hc) as [-> Hi]. exists d, dsteps. split; [done|]. intros aevs.
  destruct (assembler_run mtu num_frames nchunks bufs aevs amem Ha) as (s & asteps & a & w & ds & ds0 & E' & Er & Hsim & Eds & Has). exists s, asteps. split; [done|].
  rewrite Ep, <- Hi in *. intros [k Ek]. symmetry in Ek. rewrite received_got in *. symmetry in Ek. apply fmap_app_inv in Ek as (qs1 & qs2 & Eg & _ & ->).
  destruct (in_order_run _ _ _ _ _ _ _ _ _ _ _ mtu num_frames nchunks _ _ _ I ltac:(destruct Hd; lia) (Z.le_refl _) (ap_frames _ _ _ _ Ha) Hsm Er Eg) as (ps1 & ps2 & -> & Hps & Hall).
  rewrite Eds in Hps. destruct (assembled_frames _ _ _ _ Has Hps) as (ps' & -> & El). split; [rewrite <- !app_assoc; by apply prefix_app_r|].
  rewrite Eg, fmap_app. intros Hq Hia Hid Ht. destruct (sim_idle _ _ _ _ _ _ Hsim Hia) as [Ear ->]. apply nil_length_inv in El as ->.
  assert (Eq : qs2 = []). { apply (f_equal length) in Hq. rewrite length_app, !length_fmap in Hq. destruct qs2; [done | cbn in Hq; lia]. }
  rewrite (Disassembler.i_timer _ _ _ _ _ _ _ _ _ _ _ I) in Ht. apply bool_decide_eq_false in Ht. rewrite (Hall Eq ltac:(destruct cur; [done | by destruct Ht]) Ear).
  unfold Disassembler.pending. rewrite Hid. cbn. by rewrite !app_nil_r.
Qed.
(** C18. Over any link, which may lose packets, repeat them and change their order: while no
    more frames were sent than there are frame numbers, and none was taken back, everything
    the assembler delivers is one of the packets that were put into the disassembler. *)
Theorem fragment_lossy_link in_mtu out_mtu c_mtu lat devs dmem mtu num_frames nchunks bufs amem :
  dis_params in_mtu out_mtu c_mtu -> asm_params mtu num_frames nchunks bufs -> Disassembler.no_cancel devs ->
  exists d dsteps, Disassembler.run in_mtu out_mtu c_mtu lat devs dmem = Some (d, dsteps) /\
    forall aevs, exists a asteps, run mtu num_frames nchunks bufs aevs amem = Some (a, asteps) /\
      (zlen (Disassembler.inputs dsteps) <= 65536 -> Forall (fun q => q ∈ Disassembler.packets dsteps) (received asteps) ->
        Forall (fun p => p ∈ Disassembler.inputs dsteps) (delivered asteps)).
Proof.
  intros Hd Ha Hc. destruct (disassembler_run _ in_mtu out_mtu c_mtu lat devs dmem Hd (Z.le_refl _)) as (d & dsteps & g & ps & qs & cur & m & E & I & Ep & _ & Hn).
  destruct (Hn Hc) as [-> Hi]. exists d, dsteps. split; [done|]. intros aevs.
  destruct (assembler_run mtu num_frames nchunks bufs aevs amem Ha) as (s & asteps & a & w & ds & ds0 & E' & Er & Hsim & Eds & Has). exists s, asteps. split; [done|].
  rewrite Ep, <- Hi, received_got. intros Hl Hq. pose proof (a_run_from mtu num_frames nchunks (fun c => c ∈ concat qs) _ _ _ _ Er ltac:(split; [constructor | exact Logic.I])) as Hone.
  assert (Hof : Forall (one_from (fun c => c ∈ concat qs)) ds).
  { apply Hone. intros data c Hdata Hcd. rewrite Forall_forall in Hq.
    apply Hq, list_elem_of_fmap in Hdata as (q & -> & Hin). pose proof (Disassembler.i_qs _ _ _ _ _ _ _ _ _ _ _ I) as Hok. rewrite Forall_forall in Hok.
    rewrite chunks_of_encode in Hcd by (by apply Hok). apply list_elem_of_In, in_concat. exists q. by rewrite <- !list_elem_of_In. }
  rewrite Eds in Hof. apply Forall_app in Hof as [Hof _]. eapply Forall_impl; [eapply delivered_sent; [exact I | exact Hl | exact Has | exact Hof]|]. intros p Hp. apply elem_of_app. by left.
Qed.
End Theorems.
(** ** Examples *)

Definition ids : SearchTree id_ok compare_ids := SortedList.sorted_list id_ok compare_ids (S:=sep_ids).
Definition demo_dmem : Disassembler.sys := Disassembler.mk_sys 0 0 0 0 false 0 [] 0 None 0 0.
Definition demo_amem : sys (ST:=ids) := mk_sys 0 0 0 0 ∅ [] [] t_empty 0 [] 0 None.
Definition demo_bufs : Z -> list Z := fun _ => replicate 10 0.

(** Packets of nine bytes, two of them data: a frame in two packets, and one of one byte. *)
Definition demo_devs : list Disassembler.event :=
  let block := Disassembler.E_recv (replicate 9 0) in
  [Disassembler.E_send [1; 2; 3; 4]; block; block; block; Disassembler.E_send [5]].
Definition demo_packets : list (list Z) :=
  match Disassembler.run 10 9 (-1) (-1) demo_devs demo_dmem with Some (_, steps) => Disassembler.packets steps | None => [] end.
Definition demo_packet (i : nat) : list event := [E_send (demo_packets !!! i)].
Definition demo_aevs : list event := demo_packet 0 ++ demo_packet 1 ++ [E_done] ++ demo_packet 2 ++ [E_done].
(** The first two in the wrong order, and one of them twice. *)
Definition demo_lossy : list event := demo_packet 1 ++ demo_packet 0 ++ [E_done] ++ demo_packet 0.

Lemma demo_dis : dis_params 10 9 (-1).
Proof. split; unfold UINT16_MAX, sizeof_fragmentproto_chunk_header; lia. Qed.
Lemma demo_asm : asm_params 10 4 6 demo_bufs.
Proof. split; [lia | unfold FPA_MAX_TIME; lia | lia | by intros f]. Qed.

Lemma disassembler_stream_witness :
  exists s steps, Disassembler.run 10 9 (-1) (-1) demo_devs demo_dmem = Some (s, steps) /\ length (Disassembler.packets steps) = 3%nat /\
    exists qs, Disassembler.packets steps = encode_all <$> qs /\ Forall (fun q => q <> [] /\ Forall chunk_ok q /\ zlen (encode_all q) <= 9) qs.
Proof.
  destruct (disassembler_stream 10 9 (-1) (-1) demo_devs demo_dmem demo_dis) as (s & steps & qs & cur & m & E & Ep & Hq & _).
  exists s, steps. split; [exact E|]. split; [|exists qs; split; [exact Ep | exact Hq]].
  assert (C : match Disassembler.run 10 9 (-1) (-1) demo_devs demo_dmem with Some (_, st) => length (Disassembler.packets st) | None => 0%nat end = 3%nat) by (vm_cast_no_check (eq_refl 3%nat)).
  by rewrite E in C.
Defined.

Lemma assembler_refines_witness :
  exists s steps a ds ds0, run (ST:=ids) 10 4 6 demo_bufs demo_aevs demo_amem = Some (s, steps) /\ a_run 10 4 6 (steps.*1) a_start = Some (a, ds) /\
    Forall2 assembled ds0 (delivered steps) /\ delivered steps = [[1; 2; 3; 4]; [5]].
Proof.
  destruct (assembler_refines (ST:=ids) 10 4 6 demo_bufs demo_aevs demo_amem demo_asm) as (s & steps & a & w & ds & ds0 & E & Er & _ & _ & Ha).
  exists s, steps, a, ds, ds0. split; [exact E|]. split; [exact Er|]. split; [exact Ha|].
  assert (C : match run (ST:=ids) 10 4 6 demo_bufs demo_aevs demo_amem with Some (_, st) => delivered st | None => [] end = [[1; 2; 3; 4]; [5]]) by (vm_cast_no_check (eq_refl [[1; 2; 3; 4]; [5]])).
  by rewrite E in C.
Defined.

Definition demo_ended (r : option (Disassembler.sys * list (Disassembler.event * list Disassembler.out))) (ps : list (list Z)) : bool :=
  match r with
  | Some (d, steps) => (Disassembler.in_len d =? -1) && negb (Disassembler.timer d) && bool_decide (Disassembler.inputs steps = ps) && bool_decide (Disassembler.packets steps = demo_packets)
  | None => false
  end.
Definition demo_received (r : option (sys (ST:=ids) * list (event * list out))) (qs : list (list Z)) : bool :=
  match r with Some (a, steps) => (in_len a =? -1) && bool_decide (received steps = qs) | None => false end.

Definition demo_kept (r : option (sys (ST:=ids) * list (event * list out))) (ps : list (list Z)) : bool :=
  match r with Some (_, steps) => bool_decide (Forall (fun q => q ∈ demo_packets) (received steps)) && bool_decide (delivered steps = ps) | None => false end.

Lemma demo_ended_ok r ps d steps : demo_ended r ps = true -> r = Some (d, steps) ->
  Disassembler.in_len d = -1 /\ Disassembler.timer d = false /\ Disassembler.inputs steps = ps /\ Disassembler.packets steps = demo_packets.
Proof.
  intros H ->. unfold demo_ended in H. apply andb_true_iff in H as [[[H1%Z.eqb_eq H2%negb_true_iff]%andb_true_iff H3%bool_decide_eq_true]%andb_true_iff H4%bool_decide_eq_true].
  exact (conj H1 (conj H2 (conj H3 H4))).
Qed.

Lemma demo_received_ok r qs a steps : demo_received r qs = true -> r = Some (a, steps) -> in_len a = -1 /\ received steps = qs.
Proof. intros H ->. unfold demo_received in H. apply andb_true_iff in H as [H1%Z.eqb_eq H2%bool_decide_eq_true]. exact (conj H1 H2). Qed.

Lemma demo_kept_ok r ps a steps : demo_kept r ps = true -> r = Some (a, steps) -> Forall (fun q => q ∈ demo_packets) (received steps) /\ delivered steps = ps.
Proof. intros H ->. unfold demo_kept in H. apply andb_true_iff in H as [H1%bool_decide_eq_true H2%bool_decide_eq_true]. exact (conj H1 H2). Qed.

Lemma fragment_roundtrip_witness :
  most_chunks 10 9 (-1) <= 6 /\ exists a asteps, run (ST:=ids) 10 4 6 demo_bufs demo_aevs demo_amem = Some (a, asteps) /\ delivered asteps = [[1; 2; 3; 4]; [5]].
Proof.
  split; [by vm_compute|].
  destruct (fragment_roundtrip (ST:=ids) 10 9 (-1) (-1) demo_devs demo_dmem 10 4 6 demo_bufs demo_amem demo_dis demo_asm ltac:(lia) ltac:(by vm_compute) ltac:(by repeat constructor)) as (d & dsteps & E & H).
  destruct (H demo_aevs) as (a & asteps & E' & Hp). exists a, asteps. split; [exact E'|].
  assert (C : demo_ended (Disassembler.run 10 9 (-1) (-1) demo_devs demo_dmem) [[1; 2; 3; 4]; [5]] = true) by (vm_cast_no_check (eq_refl true)).
  assert (C' : demo_received (run (ST:=ids) 10 4 6 demo_bufs demo_aevs demo_amem) demo_packets = true) by (vm_cast_no_check (eq_refl true)).
  destruct (demo_ended_ok _ _ _ _ C E) as (C1 & C2 & C3 & C4). destruct (demo_received_ok _ _ _ _ C' E') as [C5 C6].
  rewrite <- C3. rewrite <- C4 in C6. apply Hp; [rewrite C6; reflexivity | assumption..].
Defined.

Lemma fragment_lossy_link_witness :
  exists d dsteps a asteps, Disassembler.run 10 9 (-1) (-1) demo_devs demo_dmem = Some (d, dsteps) /\
    run (ST:=ids) 10 4 6 demo_bufs demo_lossy demo_amem = Some (a, asteps) /\
    Forall (fun p => p ∈ Disassembler.inputs dsteps) (delivered asteps) /\ delivered asteps = [[1; 2; 3; 4]].
Proof.
  destruct (fragment_lossy_link (ST:=ids) 10 9 (-1) (-1) demo_devs demo_dmem 10 4 6 demo_bufs demo_amem demo_dis demo_asm ltac:(by repeat constructor)) as (d & dsteps & E & H).
  destruct (H demo_lossy) as (a & asteps & E' & Hp). exists d, dsteps, a, asteps. split; [exact E|]. split; [exact E'|].
  assert (C : demo_ended (Disassembler.run 10 9 (-1) (-1) demo_devs demo_dmem) [[1; 2; 3; 4]; [5]] = true) by (vm_cast_no_check (eq_refl true)).
  assert (C' : demo_kept (run (ST:=ids) 10 4 6 demo_bufs demo_lossy demo_amem) [[1; 2; 3; 4]] = true) by (vm_cast_no_check (eq_refl true)).
  destruct (demo_ended_ok _ _ _ _ C E) as (_ & _ & C3 & C4). destruct (demo_kept_ok _ _ _ _ C' E') as [C5 C6].
  split; [|exact C6]. apply Hp; [rewrite C3; discriminate | rewrite C4; exact C5].
Defined.

Definition cancel_devs : list Disassembler.event :=
  let block := Disassembler.E_recv (replicate 9 0) in
  [Disassembler.E_send [1; 2; 3; 4]; block; Disassembler.E_cancel; Disassembler.E_send [5; 6; 7; 8]; block; block].
Definition mixed (r : option (Disassembler.sys * list (Disassembler.event * list Disassembler.out))) : list (list Z) :=
  match r with
  | Some (_, dsteps) =>
      match Disassembler.packets dsteps with
      | [p1; p2; p3] => match run (ST:=ids) 10 4 6 demo_bufs [E_send p1; E_send p3; E_done] demo_amem with Some (_, asteps) => delivered asteps | None => [] end
      | _ => []
      end
  | None => []
  end.

(** A fault, on one run: [input_handler_requestcancel] keeps the number of the frame: when a packet of the
    frame went out already, the next frame has the same number.  When one packet of the
    link is lost, the assembler makes a frame of the first half of one and the second half
    of the other, and delivers what was never sent. *)
Lemma cancel_mixes_frames :
  exists d dsteps p1 p2 p3 a asteps,
    Disassembler.run 10 9 (-1) (-1) cancel_devs demo_dmem = Some (d, dsteps) /\ Disassembler.packets dsteps = [p1; p2; p3] /\
    run (ST:=ids) 10 4 6 demo_bufs [E_send p1; E_send p3; E_done] demo_amem = Some (a, asteps) /\ delivered asteps = [[1; 2; 7; 8]].
Proof.
  assert (C : mixed (Disassembler.run 10 9 (-1) (-1) cancel_devs demo_dmem) = [[1; 2; 7; 8]]) by (vm_cast_no_check (eq_refl [[1; 2; 7; 8]])).
  destruct (Disassembler.run _ _ _ _ _ _) as [[d dsteps]|]; [|discriminate C]. unfold mixed in C.
  destruct (Disassembler.packets dsteps) as [|p1 [|p2 [|p3 [|]]]] eqn:Ep; try discriminate C.
  destruct (run _ _ _ _ _ _) as [[a asteps]|] eqn:Er; [|discriminate C]. exists d, dsteps, p1, p2, p3, a, asteps. done.
Qed.
End FragmentLink.
